(* ===== verification/_CoqProject ===== *)
-Q . S2P
Prelude.v
Bytes.v
Felem.v
FelemPow.v
Prime168.v
Curve.v
Fp.v
Group.v
PtPoint.v
PtMul.v
Ptwist.v
PtwistThms.v
CLib.v
Tag.v
Proxy.v
TelexSsl.v
Logger.v
Client.v
Bronnect.v
Relay.v
TelexUtil.v
FlowBlock.v
TelexTcp.v
SkForge.v
Httpd.v
Charts.v
Station.v
Detect.v
Handover.v
LiveSsl.v
Covert.v
Reassem.v
ReassemThms.v
ReassemGaps.v
ReassemWrap.v
FlowBuffer.v
FlowThms.v
SslRecords.v
SslThms.v
BroTcp.v
TcpGaps.v
TcpThms.v
TcpData.v
Observe.v
PolicyRun.v
Wiretap.v
WireSession.v
PrioQueue.v
Timers.v
H3.v
Dict.v
DictThms.v
DictIter.v
Frag.v
FragThms.v
Sessions.v
SessThms.v
Traffic.v
