(* ===== verification/Prelude.v ===== *)
(** * Telex: a verification of the anticensorship system

    Telex hides proxy connections inside TLS.  A client opens an innocent TLS connection
    to some server; the random field of its hello carries a tag that only the owner of a
    private key can recognise.  A station at a router on the way sees the tag, blocks the
    flow, takes over the TCP and the TLS connection in the server's place, and relays it
    to a proxy service.  This library models the C programs of [telex-client] and
    [telex-station] and proves what makes them correct.

    ** Parts, files and sources

    Tags and their elliptic-curve arithmetic ([telex-station/station/tag]).
    - [Felem]: the limbs of GF(2^168 - 2^8 - 1) and the field operations of
      [ptwist168.c], with the wrap-around of every machine operation; [FelemPow]: the
      addition chains of [felem_inv] and [felem_sqrt].
    - [Prime168], [Curve], [Fp], [Group]: the specification: the modulus is prime, the
      chord-and-tangent law is a commutative group, the curve and its twist over GF(p).
    - [PtPoint], [PtMul]: [point_double], [point_add], [affine], [point_mul] and their
      refinement of the group law; [Ptwist]: the byte encoding and [ptwist_pointmul];
      [PtwistThms]: the theorems from the limbs up to the key agreement.
    - [Tag]: [tag.c] ([gen_tag], [check_tag], the key files), [genkeys.c], [rclient.c] and
      [rserv.c].  Point multiplication is the class [KeyAgreement], with the instance of
      [Ptwist]; SHA-256 and the random bytes are parameters.

    The client ([telex-client]).
    - [TelexSsl]: [ssl.c], which puts the tag into the hello and derives the
      Diffie-Hellman key, and the station's [net/ssl_api.c] that recomputes it.
    - [Proxy]: [proxy.c], the tunnel relay, over the class [EvBuffer] of libevent's queues.
    - [Client]: [client.c] and [listener.c]; [Logger]: [logger.c] and [util.c].

    The station ([telex-station/station] and [telex-station/common]).
    - [Detect]: the functions that the station adds to Bro ([bro-1.5.1/src/bro.bif]) and the
      policy [brohome/site/telex-ssl.bro]: the tag check of a hello, the blocking of the
      flow, the handshake's states and the messages to the relay, with the table at one
      connection; also [tag/package_keys.py], which writes the key file.
    - [Bronnect]: [net/bronnect.c] and [net/watchdog.c], one connection's life as programs
      of a small monad over memory that can be freed; [Relay]: what it forwards.
    - [TelexUtil]: [util/telex_util.c]; [TelexTcp]: [common/telex_tcp.c], forged packets;
      [SkForge]: [linuxmod/tcp_sk_forge.c], the forged kernel socket.
    - [Httpd] and [Charts]: [net/httpd.c], the statistics and their log, and the pages of
      the charts.
    - [LiveSsl]: the TLS object of the relay: [get_live_ssl_obj], [switch_to_telex_crypto] and
      [telex_get_shared_secret] of [net/ssl_api.c] and their use in [bronnect.c], over the
      class [TlsLib] of OpenSSL's key derivation.
    - [Handover]: the detector's messages as the relay reads them, and its flow record as
      the kernel module uses it.

    - [Covert]: a session at the level of the policy's events, from the client's hello over
      the detector to the relay.

    Bro, as far as the station depends on it ([telex-station/station/bro-1.5.1]).
    - [Reassem]: [src/Reassem.cc] and [src/TCP_Reassembler.cc], the blocks of a stream and their
      delivery; [ReassemThms] and [ReassemGaps]: streams that arrive whole, and any others;
      [ReassemWrap]: any sequence numbers.
    - [FlowBuffer]: [aux/binpac/lib/binpac_buffer.cc] and the code that [pac_type.cc] and
      [pac_flow.cc] generate around it, over any type of unit; [FlowThms]: framing.
    - [SslRecords]: the TLS parser ([src/ssl-protocol.pac], [ssl-analyzer.pac],
      [ssl-record-layer.pac], [SSL-binpac.cc]), an instance of [FlowBuffer]'s loops;
      [SslThms]: the round trip of the messages and the handshake.
    - [BroTcp]: [src/TCP.cc] and [src/TCP_Endpoint.cc], a packet through the TCP analyzer, with
      the reassemblers of both directions; [TcpThms]: termination, widths, checksum and
      options; [TcpData]: the delivery of a connection; [TcpGaps]: the global gap counters
      do not matter to a connection.
    - [Observe]: [NetSessions::NextPacket], the event queue and the policy's handlers for a
      packet; [PolicyRun]: the policy over the events of a connection; [Wiretap]: the events
      that the packets of a session cause; [WireSession]: the session from the wire to the
      relay.
    - [PrioQueue] (Module [PQ]): [src/PriorityQueue.cc], the heap of the timers; [Timers]
      (Module [TM]): [src/Timer.cc] on it and [expire_timers] of [src/Net.cc], with what a
      dispatched timer does as commands of a parameter.
    - [H3]: [src/H3.h] and [HashBytes] of [src/Hash.cc], the hash of short keys; [Dict]: [src/Dict.cc],
      the dictionary that moves to a larger table a few chains at a time, over a memory of
      entries; [DictThms]: its operations on a finite map; [DictIter]: sequences of operations
      and iterations.
    - [Frag] and [FragThms]: [src/Frag.cc], the fragments of a datagram on the blocks of
      [Reassem].
    - [Sessions]: [src/Sessions.cc], [src/Conn.cc], a packet from the IP header to its connection,
      over the classes [ConnTable], which [Dict] implements ([SessThms]), and [Analyzer].
    - [Traffic]: the connections of [Observe] side by side on the state that they share: the
      policy's [telex_table], the buffer [telex_tag_key] of [bro.bif] and the gap counters.

    The router ([telex-station/router/flow-blocker]).
    - [FlowBlock]: [net/telex_block_flow.c] on the station and [flow_blocker.c],
      [telex_ipset.c], [common/libaddipportip.c] on the router; [Station]: the relay's
      clean-up followed over the link to the router's kernel.

    [Prelude] (this file), [Bytes] and [CLib] hold machine integers, byte strings, and what
    the programs use of C's library.

    ** Conventions

    Integers are [Z]; an unsigned value of width [w] is in [0, 2^w), and every operation of
    the source that can leave it is followed by its wrap-around, in the scopes [u8] to
    [u128] below.  Bytes are [Z] in [0, 256), text is a list of character codes, network
    byte order is written out.  A function that can [exit], fail an [assert] or touch freed
    memory returns so in its result ([outcome] of [CLib], [result] of [Bronnect]).
    Results of system calls and of foreign libraries (OpenSSL, libevent, libipset, the
    kernel) are inputs or parameters; a theorem that needs more of them than their type
    says so in a hypothesis and has an instance at a concrete function.

    ** What is proved

    - Arithmetic: no machine operation of the field overflows under the documented bounds;
      addition, doubling, multiplication and [ptwist_pointmul] refine the group; two sides
      agree on a shared point; on the twist some results are truncated.
    - Tags: a tag passes the check of its station and yields the same key; the check
      accepts exactly the tags of the hash; client and station derive the same key, which
      ends in the covert handshake.
    - Detector: the key file round trip; a tagged hello is detected and blocked with the
      client's secret; blocks, unblocks and resets balance over any events; the relay is
      told in order; the relay takes over the flow that was blocked, the forged socket
      continues what Bro saw and the TLS object the server's connection; and an early alert
      leaves a flow blocked.
    - The session: a tagged connection runs through all of these, and the relay ends with
      the flow, the service of the key, the client's socket and the server's side of TLS.
    - Bro: reassembly delivers the stream in order and once, each byte from the first segment
      that had it, and the whole stream once all of it has arrived; it returns on any
      segments and acknowledgements, whatever their numbers; the units of a flow do not depend on the pieces in which its
      bytes arrive; TLS messages are read back and a handshake is reported exactly; the TCP
      analyzer processes any packets and keeps its widths and roles, its checksum test is the Internet checksum, and
      both directions of a connection are delivered as sent; also where it loses data that
      was seen.
    - The wire: the packets of a tagged connection, in any order within a turn and with
      repetitions, take the detector and the relay through the session above.
    - Other traffic: the key of a connection is that of its addresses and ports in either
      direction; each connection's state is what its own datagrams make of it; the detector's
      view of a connection does not depend on what other connections leave in the globals;
      fragments are put together to the datagram once all of it was seen.
    - Containers: the dictionary is a finite map through any operations and while it
      grows, an iteration meets every entry once; the heap is a priority queue, and the
      timers that are due fire once and in order, up to the limit that [Advance] is given; the hash is the one of its family, with
      a single collision in 2^32.  Also where an iteration with changes skips, misses or
      meets freed entries, and where a short fragment makes the reassembler fail.
    - Relays: client and station forward streams without loss or reordering, the station's
      while writes succeed; the client's fails no assertion but the one that memory is not exhausted, and counts
      its objects exactly;
      the station's counts its bytes exactly, cleans each connection up once with all it
      holds, every event deleted before it is freed, and touches its freed memory at two
      named places only; and where the station's drops bytes or uses freed memory.
    - Router: the message round trip, that a block lasts its time and then ends, the text
      of the kernel's elements, and the unblocking from end to end.
    - Forging: segments, their numbers and checksums; the socket continues the connection in all that the kernel does not adjust by itself;
      what its failure leaves locked.
    - Statistics: the table of ports, the log line and reading it back, columns and rows
      of charts; and the log on which a request never ends.

    ** Fuel

    A loop that is not structural takes fuel, and a theorem gives an amount that is enough:
    one round per byte for [sendall], [decrypt_loop] and [telex_tcp_forge_xmit], one per line
    for [log_to_js] and one more, one per record for [rserv_loop], one per character
    for [last_line]; [skip_ports] is given
    its columns and one more.  [BlockInserted] and [TrimToSeq] call each other at most
    [call_depth] = 4 deep ([reassembler_total]), [AddAndCheck] has a round per block and one
    more; three rounds of [fold_sum] reduce any 32-bit sum; the loops of a flow have a round per byte
    ([framing_exact]) and those over TCP options too, since every option has a length above
    zero.  [dec_digits] has the digits of the widest number.  A heap of [n] elements is
    walked in at most [n] steps; [Advance] has a round per timer that is due
    ([timers_fire]); [move_chains] has a round per bucket, [next_prime] 500 candidates below its
    threshold of 1000 and [NextEntry] one call for each of the two tables, and
    [dictionary_refines] and [iteration_complete] show that they are enough.

    ** Not modelled

    - The rest of Bro: the script interpreter (the policy's handlers are translated
      directly), the connection compressor (which the policy turns off), the tags of packets of
      external sources with their timer managers, IPv6, packet dumps, protocol detection, other
      protocols, persistence and communication.  Of its dictionary the memory statistics and
      the destructor; MD5 and [random] are parameters.  Of its TCP analyzer: OS
      fingerprinting, trace rewriting, [ACTIVE_MAPPING] and the statistics.  Of its TLS parser:
      a handshake message that continues in another record (the model marks the
      connection and follows it no further) and the decoding of certificates.
    - ipset-6.0, a third-party program in the tree; [old-telex-station-backup], an earlier
      copy; of the policy what prints.
    - [common.c] and [common/client.c], which only call libraries.
    - Of [httpd.c] the HTML of the overview pages ([httpd_handler], [httpd_showall_handler]).
    - Memory that runs out, but for the assertion of [StateInit]: the assertion of
      [FlowBuffer::ExpandBuffer] is left out; and sizes that pass the width of an [int] where
      memory ends before: the lengths of [FlowBuffer]'s frames and the heap's sizes.
    - Of [libipset] what the kernel does with a command: [ipset_cmd] is its documented effect on
      a set.  The clock is read once in [ssl_conn_attempt], where the policy reads it twice.
    - Log texts that carry no data, and the parts of the sources under [#if 0]. *)
From Stdlib Require Import ZArith Lia List Bool.
Import ListNotations.

#[export] Set Default Goal Selector "!".
Open Scope Z_scope.

(** ** Machine integers

    A [w]-bit unsigned C value is an integer of [0, 2^w); every arithmetic
    operation of the source is followed by its wrap-around. *)

Definition wrap (w x : Z) : Z := x mod 2 ^ w.
Definition in_width (w x : Z) : Prop := 0 <= x < 2 ^ w.

(** Two's complement reading of the low [w] bits, for the [int]s of the source. *)
Definition swrap (w x : Z) : Z := (x + 2 ^ (w - 1)) mod 2 ^ w - 2 ^ (w - 1).

Definition w_add (w a b : Z) : Z := wrap w (a + b).
Definition w_sub (w a b : Z) : Z := wrap w (a - b).
Definition w_mul (w a b : Z) : Z := wrap w (a * b).
Definition w_shl (w a n : Z) : Z := wrap w (Z.shiftl a n).
Definition w_neg (w a : Z) : Z := wrap w (- a).

Declare Scope u8_scope.
Delimit Scope u8_scope with u8.
Declare Scope u16_scope.
Delimit Scope u16_scope with u16.
Declare Scope u32_scope.
Delimit Scope u32_scope with u32.
Declare Scope u64_scope.
Delimit Scope u64_scope with u64.
Declare Scope u128_scope.
Delimit Scope u128_scope with u128.

Reserved Infix "<<" (at level 52, left associativity).
Reserved Infix ">>" (at level 52, left associativity).
Reserved Infix "&" (at level 54, left associativity).

Infix "+" := (w_add 16) : u16_scope.
Infix "-" := (w_sub 16) : u16_scope.
Infix "+" := (w_add 32) : u32_scope.
Infix "-" := (w_sub 32) : u32_scope.
Infix "*" := (w_mul 32) : u32_scope.
Infix "<<" := (w_shl 32) : u32_scope.
Infix ">>" := Z.shiftr : u32_scope.
Infix "&" := Z.land : u32_scope.
Infix "+" := (w_add 64) : u64_scope.
Infix "-" := (w_sub 64) : u64_scope.
Infix "*" := (w_mul 64) : u64_scope.
Infix "<<" := (w_shl 64) : u64_scope.
Infix ">>" := Z.shiftr : u64_scope.
Infix "&" := Z.land : u64_scope.
Infix "+" := (w_add 128) : u128_scope.
Infix "-" := (w_sub 128) : u128_scope.
Infix "*" := (w_mul 128) : u128_scope.
Infix "<<" := (w_shl 128) : u128_scope.
Infix ">>" := Z.shiftr : u128_scope.
Infix "&" := Z.land : u128_scope.

(** C's [(a == b)], an [int] 0 or 1. *)
Definition c_bool (b : bool) : Z := if b then 1 else 0.

(** ** Wrap-around that does not happen *)

Lemma wrap_small w x : in_width w x -> wrap w x = x.
Proof. intros H. now apply Z.mod_small. Qed.

Lemma wrap_in_width w x : 0 <= w -> in_width w (wrap w x).
Proof. intros H. apply Z.mod_pos_bound. apply Z.pow_pos_nonneg; lia. Qed.

Lemma w_add_small w a b : in_width w (a + b) -> w_add w a b = a + b.
Proof. apply wrap_small. Qed.

Lemma w_sub_small w a b : in_width w (a - b) -> w_sub w a b = a - b.
Proof. apply wrap_small. Qed.

Lemma w_mul_small w a b : in_width w (a * b) -> w_mul w a b = a * b.
Proof. apply wrap_small. Qed.

Lemma w_shl_small w a n : 0 <= n -> in_width w (a * 2 ^ n) -> w_shl w a n = a * 2 ^ n.
Proof. intros Hn H. unfold w_shl. rewrite Z.shiftl_mul_pow2 by assumption. now apply wrap_small. Qed.

Lemma shiftr_div a n : 0 <= n -> Z.shiftr a n = a / 2 ^ n.
Proof. apply Z.shiftr_div_pow2. Qed.

Lemma land_mask a n : 0 <= n -> Z.land a (2 ^ n - 1) = a mod 2 ^ n.
Proof. intros H. rewrite <- Z.land_ones by assumption. f_equal. rewrite Z.ones_equiv. lia. Qed.

Lemma w_add_add w a b c : w_add w (w_add w a b) c = w_add w a (b + c).
Proof. unfold w_add, wrap. rewrite Zplus_mod_idemp_l. f_equal. lia. Qed.

Lemma wrap_narrow w w' x : 0 <= w <= w' -> wrap w (wrap w' x) = wrap w x.
Proof.
  intros H. unfold wrap. apply Z.mod_mod_divide.
  exists (2 ^ (w' - w)). rewrite <- Z.pow_add_r by lia. f_equal. lia.
Qed.

(** Products of bounded factors, the only nonlinear step of the bound proofs. *)
Lemma mul_bound a b A B : 0 <= a <= A -> 0 <= b <= B -> 0 <= a * b <= A * B.
Proof. nia. Qed.

(** Splitting a value at a power of two. *)
Lemma div_mod_split a m : 0 < m -> a = m * (a / m) + a mod m /\ 0 <= a mod m < m.
Proof. intros H. split; [apply Z.div_mod; lia | now apply Z.mod_pos_bound]. Qed.
