(* ===== verification/Bytes.v ===== *)
(** * Byte strings

    Lists of bytes as the C code's [char] and [u8] arrays, with their values in
    base 256, and the generic list lemmas the components share. *)
From S2P Require Import Prelude.
From Stdlib Require Import ZArith Lia List.
Import ListNotations.
Open Scope Z_scope.

(** ** Lists *)

Lemma firstn_S_nth {A} (d : A) n s : (n < length s)%nat -> firstn (S n) s = firstn n s ++ [nth n s d].
Proof.
  revert s. induction n as [| n IH]; intros [| x s] H; cbn in *; try lia; [reflexivity |].
  f_equal. apply IH. lia.
Qed.

Lemma Forall_split {A} (Q : A -> Prop) n s :
  Forall Q s -> Forall Q (firstn n s) /\ Forall Q (skipn n s).
Proof. intros H. rewrite <- (firstn_skipn n s) in H. now apply Forall_app. Qed.

Lemma Forall_firstn {A} (Q : A -> Prop) n s : Forall Q s -> Forall Q (firstn n s).
Proof. apply Forall_split. Qed.

Lemma Forall_skipn {A} (Q : A -> Prop) n s : Forall Q s -> Forall Q (skipn n s).
Proof. apply Forall_split. Qed.

Lemma firstn_exact {A} n (u v : list A) : length u = n -> firstn n (u ++ v) = u.
Proof. intros <-. now rewrite firstn_app, firstn_all, Nat.sub_diag, app_nil_r. Qed.

Lemma skipn_exact {A} n (u v : list A) : length u = n -> skipn n (u ++ v) = v.
Proof. intros <-. now rewrite skipn_app, skipn_all, Nat.sub_diag. Qed.

(** ** Little-endian values *)

(** The value of a little-endian byte string, base 256. *)
Fixpoint le_value (bs : list Z) : Z :=
  match bs with [] => 0 | b :: r => b + 256 * le_value r end.

Definition is_byte (b : Z) : Prop := 0 <= b < 256.

Lemma le_value_app bs cs : le_value (bs ++ cs) = le_value bs + 256 ^ Z.of_nat (length bs) * le_value cs.
Proof.
  induction bs as [| b r IH]; [cbn [app le_value length]; change (256 ^ Z.of_nat 0) with 1; lia |].
  cbn [app le_value length]. rewrite IH, Nat2Z.inj_succ, Z.pow_succ_r by lia. ring.
Qed.

Lemma le_value_bound bs :
  Forall is_byte bs -> 0 <= le_value bs < 256 ^ Z.of_nat (length bs).
Proof.
  induction 1 as [| b r Hb Hr IH]; [cbn; lia |].
  cbn [le_value length]. rewrite Nat2Z.inj_succ, Z.pow_succ_r by lia. unfold is_byte in Hb. lia.
Qed.

(** The [n] low bytes of a value, little-endian. *)
Fixpoint le_bytes (n : nat) (v : Z) : list Z :=
  match n with O => [] | S m => v mod 256 :: le_bytes m (v / 256) end.

Lemma le_bytes_length n v : length (le_bytes n v) = n.
Proof. revert v. induction n as [| n IH]; intros v; cbn; congruence. Qed.

Lemma le_bytes_bytes n v : Forall is_byte (le_bytes n v).
Proof.
  revert v. induction n as [| n IH]; intros v; cbn [le_bytes]; constructor; auto.
  apply Z.mod_pos_bound. lia.
Qed.

Lemma le_value_bytes n v : le_value (le_bytes n v) = v mod 256 ^ Z.of_nat n.
Proof.
  revert v. induction n as [| n IH]; intros v.
  - cbn [le_bytes le_value]. change (256 ^ Z.of_nat 0) with 1. now rewrite Z.mod_1_r.
  - cbn [le_bytes le_value]. rewrite IH, Nat2Z.inj_succ, Z.pow_succ_r by lia.
    rewrite Z.rem_mul_r; [reflexivity | lia |]. apply Z.pow_pos_nonneg; lia.
Qed.

Lemma le_bytes_value bs : Forall is_byte bs -> le_bytes (length bs) (le_value bs) = bs.
Proof.
  induction 1 as [| b r Hb Hr IH]; [reflexivity |]. cbn [length le_bytes le_value].
  unfold is_byte in Hb. rewrite (Z.mul_comm 256), Z_mod_plus_full, Z.mod_small by lia.
  rewrite Z.div_add, Z.div_small, Z.add_0_l, IH by lia. reflexivity.
Qed.

(** Low bytes read off by shifts, as the source does. *)
Lemma shift_bytes n k v :
  map (fun i => wrap 8 (Z.shiftr v (8 * Z.of_nat i))) (seq k n) =
  le_bytes n (v / 256 ^ Z.of_nat k).
Proof.
  revert k. induction n as [| n IH]; intros k; [reflexivity |].
  cbn [seq map le_bytes]. f_equal.
  - unfold wrap. rewrite Z.shiftr_div_pow2, Z.pow_mul_r by lia. reflexivity.
  - rewrite IH. f_equal. rewrite Nat2Z.inj_succ, Z.pow_succ_r, Z.mul_comm by lia.
    rewrite <- Z.div_div; [reflexivity | |]; try lia; apply Z.pow_pos_nonneg; lia.
Qed.

(** A masked load keeps the low bytes. *)
Lemma le_value_mod n bs :
  Forall is_byte bs -> le_value bs mod 256 ^ Z.of_nat n = le_value (firstn n bs).
Proof.
  intros H. rewrite <- (firstn_skipn n bs) at 1. rewrite le_value_app.
  assert (Forall is_byte (firstn n bs)) as Hf by now apply Forall_firstn.
  pose proof (le_value_bound _ Hf) as B. rewrite length_firstn in *.
  destruct (Nat.le_ge_cases n (length bs)) as [L | L].
  - rewrite Nat.min_l in * by exact L. rewrite Z.mul_comm, Z_mod_plus_full. now apply Z.mod_small.
  - rewrite Nat.min_r in * by exact L. rewrite (skipn_all2 bs) by exact L. cbn [le_value].
    rewrite Z.mul_0_r, Z.add_0_r. apply Z.mod_small. split; [lia |].
    eapply Z.lt_le_trans; [apply B |]. apply Z.pow_le_mono_r; lia.
Qed.
