(* ===== verification/Felem.v ===== *)
(** * Field elements of [ptwist168.c]

    The representation of GF(p), p = 2^168 - 2^8 - 1, as three 56-bit limbs in
    64-bit words, and the field operations of
    [src/telex-station/station/tag/ptwist168.c] on it.  Every C operation
    carries its 64- or 128-bit wrap-around; the lemmas show that under the
    documented limb bounds no wrap-around happens and that each operation
    computes the field operation modulo p. *)
From S2P Require Import Prelude.
From Stdlib Require Import ZArith Lia List Bool Setoid Morphisms.
Import ListNotations.
Open Scope Z_scope.

(** [typedef fslice coord[3]] *)
Record coord := Coord { l0 : Z; l1 : Z; l2 : Z }.

(** [uint128_t tmp[5]], an unreduced product. *)
Record wide := Wide { w0 : Z; w1 : Z; w2 : Z; w3 : Z; w4 : Z }.

(** [out += in] *)
Definition felem_sum64 (out i : coord) : coord :=
  Coord (l0 out + l0 i)%u64 (l1 out + l1 i)%u64 (l2 out + l2 i)%u64.

(** [out -= in]; adds 3p first. *)
Definition felem_diff64 (out i : coord) : coord :=
  let a := ((3 << 56) - 3)%u64 in
  let b := ((3 << 56) - 771)%u64 in
  let out0 := (l0 out + b)%u64 in
  let out1 := (l1 out + a)%u64 in
  let out2 := (l2 out + a)%u64 in
  Coord (out0 - l0 i)%u64 (out1 - l1 i)%u64 (out2 - l2 i)%u64.

(** [out128 -= in128]; adds a multiple of p first. *)
Definition felem_diff128 (out i : wide) : wide :=
  let a := ((3 << 118) - 192)%u128 in
  let b := ((3 << 118) - 49536)%u128 in
  let c := (3 << 118)%u128 in
  let d := ((3 << 118) - 12681408)%u128 in
  let out0 := (w0 out + d)%u128 in
  let out1 := (w1 out + c)%u128 in
  let out2 := (w2 out + b)%u128 in
  let out3 := (w3 out + a)%u128 in
  let out4 := (w4 out + a)%u128 in
  Wide (out0 - w0 i)%u128 (out1 - w1 i)%u128 (out2 - w2 i)%u128
       (out3 - w3 i)%u128 (out4 - w4 i)%u128.

(** [out128 -= in64]; adds 192p first. *)
Definition felem_diff_128_64 (out : wide) (i : coord) : wide :=
  let a := ((3 << 62) - 192)%u128 in
  let b := ((3 << 62) - 49344)%u128 in
  let out0 := (w0 out + b)%u128 in
  let out1 := (w1 out + a)%u128 in
  let out2 := (w2 out + a)%u128 in
  Wide (out0 - l0 i)%u128 (out1 - l1 i)%u128 (out2 - l2 i)%u128 (w3 out) (w4 out).

(** [out64 *= scalar] *)
Definition felem_scalar64 (out : coord) (scalar : Z) : coord :=
  Coord (l0 out * scalar)%u64 (l1 out * scalar)%u64 (l2 out * scalar)%u64.

(** [out128 *= scalar] *)
Definition felem_scalar128 (out : wide) (scalar : Z) : wide :=
  Wide (w0 out * scalar)%u128 (w1 out * scalar)%u128 (w2 out * scalar)%u128
       (w3 out * scalar)%u128 (w4 out * scalar)%u128.

(** [out = in^2] *)
Definition felem_square (i : coord) : wide :=
  Wide (l0 i * l0 i)%u128
       (l0 i * l1 i * 2)%u128
       (l0 i * l2 i * 2 + l1 i * l1 i)%u128
       (l1 i * l2 i * 2)%u128
       (l2 i * l2 i)%u128.

(** [out = in1 * in2] *)
Definition felem_mul (in1 in2 : coord) : wide :=
  Wide (l0 in1 * l0 in2)%u128
       (l0 in1 * l1 in2 + l1 in1 * l0 in2)%u128
       (l0 in1 * l2 in2 + l1 in1 * l1 in2 + l2 in1 * l0 in2)%u128
       (l1 in1 * l2 in2 + l2 in1 * l1 in2)%u128
       (l2 in1 * l2 in2)%u128.

(** [#define M257(x) (((x)<<8)+(x))], at the width of its argument. *)
Definition M257 (w x : Z) : Z := w_add w (w_shl w x 8) x.

(** Reduce the five 128-bit coefficients to three 64-bit limbs. *)
Definition felem_reduce (i : wide) : coord :=
  let two56m1 := ((1 << 56) - 1)%u128 in
  let output0 := w0 i in
  let output1 := w1 i in
  let output2 := w2 i in
  let output2 := (output2 + M257 128 (w4 i >> 56))%u128 in
  let output1 := (output1 + M257 128 (w4 i & two56m1))%u128 in
  let output1 := (output1 + M257 128 (w3 i >> 56))%u128 in
  let output0 := (output0 + M257 128 (w3 i & two56m1))%u128 in
  let output0 := (output0 + M257 128 (output2 >> 56))%u128 in
  let output2 := (output2 & two56m1)%u128 in
  let output1 := (output1 + (output0 >> 56))%u128 in
  let output0 := (output0 & two56m1)%u128 in
  let output2 := (output2 + (output1 >> 56))%u128 in
  let output1 := (output1 & two56m1)%u128 in
  let output0 := (output0 + M257 128 (output2 >> 56))%u128 in
  let output2 := (output2 & two56m1)%u128 in
  let output1 := (output1 + (output0 >> 56))%u128 in
  let out0 := wrap 64 (output0 & two56m1)%u128 in
  let out2 := wrap 64 (output2 + (output1 >> 56))%u128 in
  let out1 := wrap 64 (output1 & two56m1)%u128 in
  Coord out0 out1 out2.

(** Reduce to the unique minimal representation. *)
Definition felem_contract (i : coord) : coord :=
  let two56m1 := ((1 << 56) - 1)%u64 in
  let two56m257 := ((1 << 56) - 257)%u64 in
  let out0 := (l0 i + M257 64 (l2 i >> 56))%u64 in
  let out2 := (l2 i & two56m1)%u64 in
  let out1 := (l1 i + (out0 >> 56))%u64 in
  let out0 := (out0 & two56m1)%u64 in
  let out2 := (out2 + (out1 >> 56))%u64 in
  let out1 := (out1 & two56m1)%u64 in
  let a := (c_bool (out2 =? two56m1)%Z & c_bool (out1 =? two56m1)%Z &
            c_bool (two56m257 <=? out0)%Z)%u64 in
  let out2 := (out2 - two56m1 * a)%u64 in
  let out1 := (out1 - two56m1 * a)%u64 in
  let out0 := (out0 - two56m257 * a)%u64 in
  Coord out0 out1 out2.

(** [out = -in] *)
Definition felem_neg (i : coord) : coord :=
  let a := ((3 << 56) - 3)%u64 in
  let b := ((3 << 56) - 771)%u64 in
  let two56m1 := ((1 << 56) - 1)%u64 in
  let tmp0 := (b - l0 i)%u64 in
  let tmp1 := (a - l1 i)%u64 in
  let tmp2 := (a - l2 i)%u64 in
  let tmp1 := (tmp1 + (tmp0 >> 56))%u64 in
  let tmp0 := (tmp0 & two56m1)%u64 in
  let tmp2 := (tmp2 + (tmp1 >> 56))%u64 in
  let tmp1 := (tmp1 & two56m1)%u64 in
  felem_contract (Coord tmp0 tmp1 tmp2).

(** 1 if the input is one of the representations 0, p, 2p of zero. *)
Definition felem_is_zero (i : coord) : Z :=
  let two56m1 := ((1 << 56) - 1)%u64 in
  let two56m257 := ((1 << 56) - 257)%u64 in
  let two57m1 := ((1 << 57) - 1)%u64 in
  let two56m514 := ((1 << 56) - 514)%u64 in
  let zero := (c_bool (l0 i =? 0)%Z & c_bool (l1 i =? 0)%Z & c_bool (l2 i =? 0)%Z)%u64 in
  let two168m8m1 := (c_bool (l2 i =? two56m1)%Z & c_bool (l1 i =? two56m1)%Z &
                     c_bool (l0 i =? two56m257)%Z)%u64 in
  let two169m9m2 := (c_bool (l2 i =? two57m1)%Z & c_bool (l1 i =? two56m1)%Z &
                     c_bool (l0 i =? two56m514)%Z)%u64 in
  Z.lor (Z.lor zero two168m8m1) two169m9m2.

(** ** Values, bounds and congruence *)

(** p = 2^168 - 2^8 - 1, the modulus of [ptwist168_curve_params]. *)
Definition p168 : Z := 2 ^ 168 - 2 ^ 8 - 1.

Definition felem (c : coord) : Z := l0 c + 2 ^ 56 * l1 c + 2 ^ 112 * l2 c.

Definition wide_val (w : wide) : Z :=
  w0 w + 2 ^ 56 * w1 w + 2 ^ 112 * w2 w + 2 ^ 168 * w3 w + 2 ^ 224 * w4 w.

(** Every limb below [b]. *)
Definition limbs_lt (b : Z) (c : coord) : Prop :=
  0 <= l0 c < b /\ 0 <= l1 c < b /\ 0 <= l2 c < b.

Definition wides_lt (b : Z) (w : wide) : Prop :=
  0 <= w0 w < b /\ 0 <= w1 w < b /\ 0 <= w2 w < b /\ 0 <= w3 w < b /\ 0 <= w4 w < b.

(** What [felem_reduce] ensures. *)
Definition reduced (c : coord) : Prop :=
  0 <= l0 c < 2 ^ 56 /\ 0 <= l1 c < 2 ^ 56 /\ 0 <= l2 c <= 2 ^ 56.

(** The unique minimal representation. *)
Definition minimal (c : coord) : Prop :=
  0 <= l0 c < 2 ^ 56 /\ 0 <= l1 c < 2 ^ 56 /\ 0 <= l2 c < 2 ^ 56 /\ felem c < p168.

(** Congruence modulo p. *)
Definition eqp (a b : Z) : Prop := a mod p168 = b mod p168.

Declare Scope fp_scope.
Delimit Scope fp_scope with fp.
Infix "==" := eqp (at level 70) : fp_scope.

#[export] Instance eqp_equivalence : Equivalence eqp.
Proof. unfold eqp; split; repeat intro; congruence. Qed.

#[export] Instance eqp_add : Proper (eqp ==> eqp ==> eqp) Z.add.
Proof. intros a a' Ha b b' Hb. unfold eqp in *. now rewrite Zplus_mod, Ha, Hb, <- Zplus_mod. Qed.

#[export] Instance eqp_mul : Proper (eqp ==> eqp ==> eqp) Z.mul.
Proof. intros a a' Ha b b' Hb. unfold eqp in *. now rewrite Zmult_mod, Ha, Hb, <- Zmult_mod. Qed.

#[export] Instance eqp_sub : Proper (eqp ==> eqp ==> eqp) Z.sub.
Proof. intros a a' Ha b b' Hb. unfold eqp in *. now rewrite Zminus_mod, Ha, Hb, <- Zminus_mod. Qed.

#[export] Instance eqp_opp : Proper (eqp ==> eqp) Z.opp.
Proof. intros a a' Ha. change (eqp (0 - a) (0 - a')). now rewrite Ha. Qed.

Lemma eqp_multiple a b k : a = b + k * p168 -> eqp a b.
Proof. intros ->. unfold eqp. apply Z_mod_plus_full. Qed.

Lemma eqp_mod a : eqp (a mod p168) a.
Proof. unfold eqp. apply Zmod_mod. Qed.

Lemma eqp_canonical a b : 0 <= a < p168 -> 0 <= b < p168 -> eqp a b -> a = b.
Proof. intros Ha Hb H. unfold eqp in H. rewrite !Z.mod_small in H; auto. Qed.

(** ** Proof automation

    [nowrap] removes the wrap-arounds whose argument fits the width; [assign]
    and [inline] below follow a long straight-line body one assignment at a
    time. *)

Ltac width := unfold in_width in *; lia.

Ltac nowrap_in H :=
  repeat first
    [ rewrite w_add_small in H by width | rewrite w_sub_small in H by width
    | rewrite w_mul_small in H by width | rewrite wrap_small in H by width ].

Ltac nowrap :=
  repeat first
    [ rewrite w_add_small by width | rewrite w_sub_small by width
    | rewrite w_mul_small by width | rewrite wrap_small by width ].

(** The constants of the source, evaluated. *)
Ltac fold_consts :=
  repeat match goal with
  | |- context [w_shl ?w ?a ?n] =>
      let v := eval vm_compute in (w_shl w a n) in
      lazymatch v with Z.pos _ => change (w_shl w a n) with v end
  end;
  repeat match goal with
  | |- context [w_sub ?w (Z.pos ?a) (Z.pos ?n)] =>
      let v := eval vm_compute in (w_sub w (Z.pos a) (Z.pos n)) in
      change (w_sub w (Z.pos a) (Z.pos n)) with v
  end.

Lemma M257_small w x : 0 <= x -> in_width w (257 * x) -> M257 w x = 257 * x.
Proof.
  intros Hx H. unfold M257. rewrite w_shl_small by (unfold in_width in *; lia).
  rewrite w_add_small; [lia | width].
Qed.

(** ** The limb-wise operations *)

Ltac felem_unfold := unfold minimal, reduced, limbs_lt, wides_lt, felem, wide_val in *.

Lemma felem_sum64_ok a b A B :
  limbs_lt A a -> limbs_lt B b -> A + B <= 2 ^ 64 ->
  limbs_lt (A + B) (felem_sum64 a b) /\ felem (felem_sum64 a b) = felem a + felem b.
Proof.
  intros Ha Hb H. unfold felem_sum64. felem_unfold. cbn [l0 l1 l2] in *. nowrap. lia.
Qed.

Lemma felem_diff64_ok a b A :
  limbs_lt A a -> limbs_lt (2 ^ 57) b -> A + 3 * 2 ^ 56 <= 2 ^ 64 ->
  limbs_lt (A + 3 * 2 ^ 56) (felem_diff64 a b) /\
  felem (felem_diff64 a b) = felem a - felem b + 3 * p168.
Proof.
  intros Ha Hb H. unfold felem_diff64, p168. felem_unfold. cbv zeta. fold_consts.
  cbn [l0 l1 l2] in *. nowrap. lia.
Qed.

Lemma felem_diff_128_64_ok a b A :
  wides_lt A a -> limbs_lt (2 ^ 63) b -> A + 2 ^ 64 <= 2 ^ 128 ->
  wides_lt (A + 2 ^ 64) (felem_diff_128_64 a b) /\
  wide_val (felem_diff_128_64 a b) = wide_val a - felem b + 192 * p168.
Proof.
  intros Ha Hb H. unfold felem_diff_128_64, p168. felem_unfold. cbv zeta. fold_consts.
  cbn [l0 l1 l2 w0 w1 w2 w3 w4] in *. nowrap. lia.
Qed.

Lemma felem_diff128_ok a b A :
  wides_lt A a -> wides_lt (2 ^ 119) b -> A + 3 * 2 ^ 118 <= 2 ^ 128 ->
  wides_lt (A + 3 * 2 ^ 118) (felem_diff128 a b) /\
  wide_val (felem_diff128 a b) =
    wide_val a - wide_val b + (3 * 2 ^ 174 + 3 * 2 ^ 118 + 49344) * p168.
Proof.
  intros Ha Hb H. unfold felem_diff128, p168. felem_unfold. cbv zeta. fold_consts.
  cbn [w0 w1 w2 w3 w4] in *. nowrap. lia.
Qed.

Lemma felem_scalar64_ok a A s :
  limbs_lt A a -> 0 < s -> A * s <= 2 ^ 64 ->
  limbs_lt (A * s) (felem_scalar64 a s) /\ felem (felem_scalar64 a s) = felem a * s.
Proof.
  intros Ha Hs H. unfold felem_scalar64. felem_unfold. cbn [l0 l1 l2] in *.
  assert (forall x, 0 <= x < A -> 0 <= x * s < A * s) as Hb by (intros; nia).
  destruct Ha as (H0 & H1 & H2). apply Hb in H0, H1, H2. nowrap. lia.
Qed.

Lemma felem_scalar128_ok a A s :
  wides_lt A a -> 0 < s -> A * s <= 2 ^ 128 ->
  wides_lt (A * s) (felem_scalar128 a s) /\ wide_val (felem_scalar128 a s) = wide_val a * s.
Proof.
  intros Ha Hs H. unfold felem_scalar128. felem_unfold. cbn [w0 w1 w2 w3 w4] in *.
  assert (forall x, 0 <= x < A -> 0 <= x * s < A * s) as Hb by (intros; nia).
  destruct Ha as (H0 & H1 & H2 & H3 & H4). apply Hb in H0, H1, H2, H3, H4. nowrap. lia.
Qed.

(** The coefficients of a product stay below [4AB], as the comments of the source say. *)
Lemma felem_mul_ok a b A B :
  limbs_lt A a -> limbs_lt B b -> 4 * (A * B) <= 2 ^ 128 ->
  wides_lt (4 * (A * B)) (felem_mul a b) /\ wide_val (felem_mul a b) = felem a * felem b.
Proof.
  intros (Ha0 & Ha1 & Ha2) (Hb0 & Hb1 & Hb2) H.
  assert (forall x y, 0 <= x < A -> 0 <= y < B -> 0 <= x * y < A * B) as M by (intros; nia).
  pose proof (M _ _ Ha0 Hb0). pose proof (M _ _ Ha0 Hb1). pose proof (M _ _ Ha0 Hb2).
  pose proof (M _ _ Ha1 Hb0). pose proof (M _ _ Ha1 Hb1). pose proof (M _ _ Ha1 Hb2).
  pose proof (M _ _ Ha2 Hb0). pose proof (M _ _ Ha2 Hb1). pose proof (M _ _ Ha2 Hb2).
  unfold felem_mul. felem_unfold. cbn [w0 w1 w2 w3 w4] in *. nowrap. lia.
Qed.

Lemma felem_square_ok a A :
  limbs_lt A a -> 4 * (A * A) <= 2 ^ 128 ->
  wides_lt (4 * (A * A)) (felem_square a) /\ wide_val (felem_square a) = felem a * felem a.
Proof.
  intros (Ha0 & Ha1 & Ha2) H.
  assert (forall x y, 0 <= x < A -> 0 <= y < A -> 0 <= x * y < A * A) as M by (intros; nia).
  pose proof (M _ _ Ha0 Ha0). pose proof (M _ _ Ha0 Ha1). pose proof (M _ _ Ha0 Ha2).
  pose proof (M _ _ Ha1 Ha1). pose proof (M _ _ Ha1 Ha2). pose proof (M _ _ Ha2 Ha2).
  unfold felem_square. felem_unfold. cbn [w0 w1 w2 w3 w4] in *. nowrap. lia.
Qed.

(** ** Reduction *)

(** Names the quotient and remainder of a split at 2^56 and forgets where they come from. *)
Ltac split56 x q r :=
  let E := fresh "E" q in let B := fresh "B" r in
  destruct (div_mod_split x (2 ^ 56) ltac:(lia)) as [E B];
  rewrite ?(land_mask x 56), ?(shiftr_div x 56) by lia;
  set (q := x / 2 ^ 56) in *; set (r := x mod 2 ^ 56) in *; clearbody q r.

(** Removes the wrap-around of the definition named [y] and forgets its body. *)
Ltac settle y :=
  let E := fresh "E" y in
  let v := eval cbv delta [y] in y in
  assert (y = v) as E by reflexivity; clearbody y;
  repeat first
    [ rewrite (M257_small 128) in E by width | rewrite w_add_small in E by width
    | rewrite (M257_small 64) in E by width ].

(** One assignment of a straight-line body. *)
Ltac assign :=
  match goal with
  | |- context G [let x := ?v in @?b x] =>
      let y := fresh x in
      pose (y := v);
      let t := constr:(b y) in
      let t' := eval cbv beta in t in
      let g := context G [t'] in
      change g; settle y
  end.

(** An assignment whose value is already in normal form. *)
Ltac inline :=
  match goal with
  | |- context G [let x := ?v in @?b x] =>
      let t' := eval cbv beta in (b v) in
      let g := context G [t'] in
      change g
  end.

Lemma felem_reduce_ok w :
  wides_lt (2 ^ 126) w ->
  reduced (felem_reduce w) /\ eqp (felem (felem_reduce w)) (wide_val w).
Proof.
  destruct w as [a0 a1 a2 a3 a4]. intros (H0 & H1 & H2 & H3 & H4).
  set (R := fun c => reduced c /\ eqp (felem c) (wide_val (Wide a0 a1 a2 a3 a4))).
  change (R (felem_reduce (Wide a0 a1 a2 a3 a4))).
  cbv beta iota delta [w0 w1 w2 w3 w4] in H0, H1, H2, H3, H4.
  cbv beta iota delta [felem_reduce w0 w1 w2 w3 w4].
  fold_consts. change 72057594037927935 with (2 ^ 56 - 1).
  do 4 inline. split56 a4 q4 r4. split56 a3 q3 r3.
  do 4 assign. split56 output2 q2 r2. 
  assign. inline. split56 output4 q5 r5.
  assign. inline. split56 output5 q6 r6.
  assign. inline. split56 output6 q7 r7.
  assign. inline. split56 output7 q8 r8.
  assign. split56 output8 q9 r9.
  cbv zeta. nowrap. subst R. cbv beta. felem_unfold. cbn [l0 l1 l2 w0 w1 w2 w3 w4].
  split; [lia |].
  apply eqp_multiple with (k := - (2 ^ 112 * q4 + 2 ^ 56 * r4 + 2 ^ 56 * q3 + r3 + q2 + q7)).
  unfold p168. lia.
Qed.

Lemma c_bool_land a b : Z.land (c_bool a) (c_bool b) = c_bool (a && b).
Proof. now destruct a, b. Qed.

Lemma c_bool_lor a b : Z.lor (c_bool a) (c_bool b) = c_bool (a || b).
Proof. now destruct a, b. Qed.

(** [felem_contract] subtracts the multiple of p that the top limb shows, then
    p once more if the rest is still at least p; the result is minimal exactly
    when the first subtraction leaves less than 2^168. *)
Lemma felem_contract_gen c t :
  0 <= l0 c < 2 ^ 56 -> 0 <= l1 c < 2 ^ 56 -> 0 <= l2 c < 2 ^ 59 -> t = l2 c / 2 ^ 56 ->
  reduced (felem_contract c) /\ eqp (felem (felem_contract c)) (felem c) /\
  (felem c - t * p168 < 2 ^ 168 -> minimal (felem_contract c)) /\
  (2 ^ 168 <= felem c - t * p168 -> felem (felem_contract c) = felem c - t * p168).
Proof.
  destruct c as [a0 a1 a2]. cbn [l0 l1 l2]. intros H0 H1 H2 Et.
  set (R := fun r => reduced r /\ eqp (felem r) (felem (Coord a0 a1 a2)) /\
     (felem (Coord a0 a1 a2) - t * p168 < 2 ^ 168 -> minimal r) /\
     (2 ^ 168 <= felem (Coord a0 a1 a2) - t * p168 -> felem r = felem (Coord a0 a1 a2) - t * p168)).
  change (R (felem_contract (Coord a0 a1 a2))).
  cbv beta iota delta [felem_contract l0 l1 l2].
  fold_consts. change 72057594037927935 with (2 ^ 56 - 1).
  do 2 inline. split56 a2 q2 r2. subst t.
  assign. inline. split56 out0 q0 r0.
  assign. inline. split56 out1 q1 r1.
  assign. inline. rewrite !c_bool_land. inline. cbv zeta.
  destruct (_ && _)%bool eqn:Ea; cbn [c_bool]; nowrap;
    subst R; cbv beta; felem_unfold; unfold p168; cbn [l0 l1 l2].
  - apply andb_prop in Ea as [[E2 E1]%andb_prop E0].
    split; [lia | split; [| lia]].
    apply eqp_multiple with (k := - q2 - 1). unfold p168. lia.
  - split; [lia | split; [| lia]].
    apply eqp_multiple with (k := - q2). unfold p168. lia.
Qed.

Lemma felem_contract_ok c :
  reduced c -> minimal (felem_contract c) /\ eqp (felem (felem_contract c)) (felem c).
Proof.
  intros (H0 & H1 & H2). destruct (div_mod_split (l2 c) (2 ^ 56) ltac:(lia)) as [E B].
  destruct (felem_contract_gen c (l2 c / 2 ^ 56)) as (_ & Hv & Hm & _); try lia.
  split; [| exact Hv]. apply Hm. unfold felem, p168. nia.
Qed.

(** [felem_neg] contracts the carried form of 3p - in. *)
Lemma felem_neg_unfold c :
  limbs_lt (2 ^ 57) c ->
  exists t, felem_neg c = felem_contract t /\ felem t = 3 * p168 - felem c /\
    0 <= l0 t < 2 ^ 56 /\ 0 <= l1 t < 2 ^ 56 /\ 0 <= l2 t < 2 ^ 58.
Proof.
  destruct c as [a0 a1 a2]. intros (H0 & H1 & H2). cbn [l0 l1 l2] in *.
  set (R := fun r => exists t, r = felem_contract t /\ felem t = 3 * p168 - felem (Coord a0 a1 a2) /\
    0 <= l0 t < 2 ^ 56 /\ 0 <= l1 t < 2 ^ 56 /\ 0 <= l2 t < 2 ^ 58).
  change (R (felem_neg (Coord a0 a1 a2))).
  cbv beta iota delta [felem_neg l0 l1 l2].
  fold_consts. change 72057594037927935 with (2 ^ 56 - 1).
  do 3 inline. do 3 assign. nowrap_in Etmp0. nowrap_in Etmp1. nowrap_in Etmp2.
  split56 tmp0 q0 r0. assign. inline. split56 tmp3 q1 r1. assign. cbv zeta.
  subst R. eexists. split; [reflexivity |]. felem_unfold. unfold p168. cbn [l0 l1 l2]. lia.
Qed.

Lemma felem_neg_ok c :
  limbs_lt (2 ^ 57) c -> reduced (felem_neg c) /\ eqp (felem (felem_neg c)) (- felem c).
Proof.
  intros H. destruct (felem_neg_unfold c H) as (t & -> & Et & H0 & H1 & H2).
  destruct (felem_contract_gen t (l2 t / 2 ^ 56)) as (Hr & Hv & _ & _); try lia.
  split; [exact Hr |]. rewrite Hv, Et. apply eqp_multiple with (k := 3). lia.
Qed.

(** The negations for which [felem_contract]'s single correction is enough. *)
Definition neg_window (v : Z) : Prop := 2 ^ 168 - 771 < v <= 2 ^ 168 - 514.

Lemma minimal_limbs c B : minimal c -> 2 ^ 56 <= B -> limbs_lt B c.
Proof. felem_unfold. lia. Qed.

Lemma felem_neg_minimal c :
  minimal c -> ~ neg_window (felem c) -> minimal (felem_neg c).
Proof.
  intros Hm Hw. destruct (felem_neg_unfold c) as (t & -> & Et & H0 & H1 & H2).
  { apply (minimal_limbs _ _ Hm). lia. }
  destruct (div_mod_split (l2 t) (2 ^ 56) ltac:(lia)) as [E B].
  destruct (felem_contract_gen t (l2 t / 2 ^ 56)) as (_ & _ & Hmin & _); try lia.
  apply Hmin. unfold neg_window in Hw. felem_unfold. unfold p168 in *. lia.
Qed.

(** In the window the result keeps a top limb of 2^56: it is 2p - in, not p - in. *)
Lemma felem_neg_in_window c :
  minimal c -> neg_window (felem c) -> felem (felem_neg c) = 2 * p168 - felem c.
Proof.
  intros Hm Hw. destruct (felem_neg_unfold c) as (t & -> & Et & H0 & H1 & H2).
  { apply (minimal_limbs _ _ Hm). lia. }
  destruct (div_mod_split (l2 t) (2 ^ 56) ltac:(lia)) as [E B].
  destruct (felem_contract_gen t (l2 t / 2 ^ 56)) as (_ & _ & _ & Hex); try lia.
  assert (l2 t / 2 ^ 56 = 1) as E1.
  { unfold neg_window in Hw. felem_unfold. unfold p168 in *. lia. }
  rewrite E1 in Hex. rewrite Hex; unfold neg_window in Hw; unfold p168 in *; lia.
Qed.

(** The zero test is exact on the outputs of [felem_reduce]. *)
Lemma felem_is_zero_ok c :
  reduced c -> felem_is_zero c = c_bool (felem c mod p168 =? 0).
Proof.
  intros H. unfold felem_is_zero. fold_consts. cbv zeta.
  rewrite !c_bool_land, !c_bool_lor. f_equal. felem_unfold.
  destruct (div_mod_split (l0 c + 2 ^ 56 * l1 c + 2 ^ 112 * l2 c) p168 ltac:(unfold p168; lia)) as [E B].
  set (q := (_ + _) / p168) in *. set (r := (_ + _) mod p168) in *. clearbody q r.
  unfold p168 in *. assert (0 <= q <= 2) as Hq by lia.
  destruct (Z.eqb_spec r 0); lia.
Qed.
