(* ===== verification/FelemPow.v ===== *)
(** * Inversion and square roots in [ptwist168.c]

    The addition chains of [felem_inv] and [felem_sqrt]: their exponents are
    p - 2 and (p + 1) / 4. *)
From S2P Require Import Prelude Felem.
From Stdlib Require Import ZArith Lia List Bool Setoid Morphisms.
Open Scope Z_scope.

(** [felem_square(tmp, in); felem_reduce(out, tmp);] *)
Definition square_reduce (i : coord) : coord := felem_reduce (felem_square i).

(** [felem_mul(tmp, in1, in2); felem_reduce(out, tmp);] *)
Definition mul_reduce (in1 in2 : coord) : coord := felem_reduce (felem_mul in1 in2).

(** The [for (i = 0; i < n; ++i)] loops of squarings. *)
Definition square_loop (n : nat) (c : coord) : coord := Nat.iter n square_reduce c.

Definition felem_inv (i : coord) : coord :=
  let ftmp := square_reduce i in
  let ftmp := mul_reduce i ftmp in
  let ftmp2 := square_reduce ftmp in
  let ftmp2 := square_reduce ftmp2 in
  let ftmp2 := mul_reduce ftmp2 ftmp in
  let ftmp2 := square_reduce ftmp2 in
  let ftmp2 := square_reduce ftmp2 in
  let ftmp := mul_reduce ftmp2 ftmp in
  let ftmp2 := square_reduce ftmp in
  let ftmp2 := square_loop 5 ftmp2 in
  let ftmp3 := mul_reduce ftmp ftmp2 in
  let ftmp2 := square_reduce ftmp3 in
  let ftmp2 := square_loop 11 ftmp2 in
  let ftmp3 := mul_reduce ftmp2 ftmp3 in
  let ftmp2 := square_reduce ftmp3 in
  let ftmp2 := square_loop 23 ftmp2 in
  let ftmp4 := mul_reduce ftmp2 ftmp3 in
  let ftmp2 := square_reduce ftmp4 in
  let ftmp2 := square_loop 23 ftmp2 in
  let ftmp4 := mul_reduce ftmp2 ftmp3 in
  let ftmp2 := square_reduce ftmp4 in
  let ftmp2 := square_loop 5 ftmp2 in
  let ftmp2 := mul_reduce ftmp ftmp2 in
  let ftmp2 := square_reduce ftmp2 in
  let ftmp4 := mul_reduce i ftmp2 in
  let ftmp2 := square_reduce ftmp4 in
  let ftmp2 := square_loop 78 ftmp2 in
  let ftmp2 := mul_reduce ftmp4 ftmp2 in
  let ftmp2 := square_reduce ftmp2 in
  let ftmp2 := mul_reduce i ftmp2 in
  let ftmp2 := square_loop 7 ftmp2 in
  let ftmp2 := mul_reduce ftmp ftmp2 in
  let ftmp2 := square_reduce ftmp2 in
  let ftmp2 := square_reduce ftmp2 in
  mul_reduce i ftmp2.

Definition felem_sqrt (i : coord) : coord :=
  let ftmp := square_reduce i in
  let ftmp := mul_reduce i ftmp in
  let ftmp2 := square_reduce ftmp in
  let ftmp2 := square_reduce ftmp2 in
  let ftmp2 := mul_reduce ftmp2 ftmp in
  let ftmp2 := square_reduce ftmp2 in
  let ftmp := mul_reduce ftmp2 i in
  let ftmp2 := square_reduce ftmp in
  let ftmp2 := square_loop 4 ftmp2 in
  let ftmp := mul_reduce ftmp ftmp2 in
  let ftmp2 := square_reduce ftmp in
  let ftmp2 := square_loop 9 ftmp2 in
  let ftmp := mul_reduce ftmp2 ftmp in
  let ftmp2 := square_reduce ftmp in
  let ftmp2 := square_loop 19 ftmp2 in
  let ftmp := mul_reduce ftmp2 ftmp in
  let ftmp2 := square_reduce ftmp in
  let ftmp2 := square_loop 39 ftmp2 in
  let ftmp := mul_reduce ftmp2 ftmp in
  let ftmp2 := square_reduce ftmp in
  let ftmp2 := square_loop 79 ftmp2 in
  let ftmp2 := mul_reduce ftmp ftmp2 in
  let ftmp2 := square_loop 5 ftmp2 in
  square_reduce ftmp2.

(** ** One multiplication step *)

(** A loose input of a multiplication: the source's "a_i < 2^60". *)
Definition loose (c : coord) : Prop := limbs_lt (2 ^ 60) c.

Create HintDb felem discriminated.

Lemma reduced_limbs c B : reduced c -> 2 ^ 56 < B -> limbs_lt B c.
Proof. felem_unfold. lia. Qed.

Lemma reduced_loose c : reduced c -> loose c.
Proof. intros H. apply reduced_limbs; [exact H | lia]. Qed.

Lemma mul_reduce_ok a b :
  loose a -> loose b ->
  reduced (mul_reduce a b) /\ eqp (felem (mul_reduce a b)) (felem a * felem b).
Proof.
  intros Ha Hb. destruct (felem_mul_ok _ _ _ _ Ha Hb) as [Hw Hv]; [lia |].
  rewrite <- Hv. apply felem_reduce_ok. unfold wides_lt in *. lia.
Qed.

Lemma square_reduce_ok a :
  loose a -> reduced (square_reduce a) /\ eqp (felem (square_reduce a)) (felem a * felem a).
Proof.
  intros Ha. destruct (felem_square_ok _ _ Ha) as [Hw Hv]; [lia |].
  rewrite <- Hv. apply felem_reduce_ok. unfold wides_lt in *. lia.
Qed.

(** ** Powers of a base *)

(** [c] holds [b ^ e] and may enter a multiplication. *)
Definition holds_pow (b e : Z) (c : coord) : Prop :=
  0 <= e /\ reduced c /\ eqp (felem c) (b ^ e).

Lemma holds_pow_square b e c : holds_pow b e c -> holds_pow b (2 * e) (square_reduce c).
Proof.
  intros (He & Hr & Hv). destruct (square_reduce_ok c) as [Hr' Hv']; [now apply reduced_loose |].
  split; [lia | split; [exact Hr' |]].
  rewrite Hv', Hv, <- Z.pow_add_r by lia. now replace (e + e) with (2 * e) by lia.
Qed.

Lemma holds_pow_loop b e n c :
  holds_pow b e c -> holds_pow b (2 ^ Z.of_nat n * e) (square_loop n c).
Proof.
  intros H. unfold square_loop. induction n as [| n IH]; cbn [Nat.iter].
  - now rewrite Z.mul_1_l.
  - rewrite Nat2Z.inj_succ, Z.pow_succ_r, <- Z.mul_assoc by lia. now apply holds_pow_square.
Qed.

Lemma holds_pow_mul b e f c d :
  holds_pow b e c -> holds_pow b f d -> holds_pow b (e + f) (mul_reduce c d).
Proof.
  intros (He & Hr & Hv) (Hf & Hs & Hw).
  destruct (mul_reduce_ok c d) as [Hr' Hv']; try now apply reduced_loose.
  split; [lia | split; [exact Hr' |]]. now rewrite Hv', Hv, Hw, Z.pow_add_r by lia.
Qed.

Section WithInput.
Context (i : coord) (Hi : loose i).

Lemma holds_pow_square_in : holds_pow (felem i) 2 (square_reduce i).
Proof.
  destruct (square_reduce_ok i Hi) as [Hr Hv]. split; [lia | split; [exact Hr |]].
  rewrite Hv. now rewrite Z.pow_2_r.
Qed.

Lemma holds_pow_mul_in_l e c :
  holds_pow (felem i) e c -> holds_pow (felem i) (1 + e) (mul_reduce i c).
Proof.
  intros (He & Hr & Hv). destruct (mul_reduce_ok i c Hi (reduced_loose _ Hr)) as [Hr' Hv'].
  split; [lia | split; [exact Hr' |]]. now rewrite Hv', Hv, Z.pow_add_r, Z.pow_1_r by lia.
Qed.

Lemma holds_pow_mul_in_r e c :
  holds_pow (felem i) e c -> holds_pow (felem i) (e + 1) (mul_reduce c i).
Proof.
  intros (He & Hr & Hv). destruct (mul_reduce_ok c i (reduced_loose _ Hr) Hi) as [Hr' Hv'].
  split; [lia | split; [exact Hr' |]]. now rewrite Hv', Hv, Z.pow_add_r, Z.pow_1_r by lia.
Qed.
End WithInput.

#[export] Hint Resolve holds_pow_square_in holds_pow_mul_in_l holds_pow_mul_in_r : felem.
#[export] Hint Resolve holds_pow_square holds_pow_loop holds_pow_mul | 5 : felem.
#[export] Hint Resolve reduced_loose : felem.
#[export] Hint Constants Opaque : felem.

(** Follows an addition chain: each assignment gets its exponent. *)
Ltac chain :=
  repeat match goal with
  | |- holds_pow ?b ?e (let x := ?v in @?f x) =>
      let y := fresh x in
      let H := fresh "H" y in
      eassert (holds_pow b _ v) as H by (eauto 2 with felem);
      pose (y := v); change v with y in H;
      let t := eval cbv beta in (f y) in
      change (holds_pow b e t); clearbody y
  end.

Ltac solve_chain f :=
  cbv beta delta [f];
  match goal with
  | |- holds_pow _ ?e _ =>
      let e' := fresh "e" in
      evar (e' : Z); replace e with e'; subst e'
  end; [chain; eauto 3 with felem | vm_compute; reflexivity].

Lemma felem_inv_pow i : loose i -> holds_pow (felem i) (p168 - 2) (felem_inv i).
Proof. intros Hi. solve_chain felem_inv. Qed.

Lemma felem_sqrt_pow i : loose i -> holds_pow (felem i) ((p168 + 1) / 4) (felem_sqrt i).
Proof. intros Hi. solve_chain felem_sqrt. Qed.
