(* ===== verification/Prime168.v ===== *)
(** * The modulus of the curve is prime

    Pocklington's criterion over [Z] and the certificate that
    p = 2^168 - 2^8 - 1 is prime, so that the limbs of [Felem] represent the
    field GF(p) and the addition chains of [FelemPow] compute inverses and
    square roots. *)
From S2P Require Import Prelude Felem.
From Stdlib Require Import ZArith Lia List Bool Zdivisibility Znumtheory Zmod.
Open Scope Z_scope.

(** ** Small primes, by trial division *)

(** No divisor in [d, d + fuel). *)
Fixpoint no_divisor (fuel : nat) (d n : Z) : bool :=
  match fuel with
  | O => true
  | S fuel => negb (n mod d =? 0) && no_divisor fuel (d + 1) n
  end.

Definition trial_prime (n : Z) : bool :=
  (1 <? n) && no_divisor (Z.to_nat (Z.sqrt n - 1)) 2 n.

Lemma no_divisor_spec fuel d n k :
  no_divisor fuel d n = true -> 0 < d -> d <= k < d + Z.of_nat fuel -> ~ (k | n).
Proof.
  revert d. induction fuel as [| fuel IH]; intros d H Hd Hk; [lia |].
  cbn [no_divisor] in H. apply andb_prop in H as [Hm Hr].
  destruct (Z.eq_dec k d) as [-> |].
  - intros Hdiv%Z.mod0_divide. rewrite Hdiv in Hm. discriminate.
  - apply (IH (d + 1)); [exact Hr | lia | lia].
Qed.

(** A composite number has a divisor up to its square root. *)
Lemma small_divisor n k :
  1 < k < n -> (k | n) -> exists d, (d | n) /\ 1 < d /\ d * d <= n.
Proof.
  intros Hk [m Hm]. destruct (Z_le_gt_dec (k * k) n) as [Hle | Hgt].
  - exists k. split; [now exists m | lia].
  - exists m. split; [exists k; lia | nia].
Qed.

Lemma trial_prime_spec n : trial_prime n = true -> Z.prime n.
Proof.
  unfold trial_prime. intros [H1 H2]%andb_prop. apply Z.ltb_lt in H1.
  split; [exact H1 |]. intros k Hk Hdiv.
  destruct (small_divisor n k Hk Hdiv) as (d & Hd & Hgt & Hsq).
  assert (d <= Z.sqrt n) as Hle by (apply Z.sqrt_le_square; lia).
  eapply no_divisor_spec; [exact H2 | | | exact Hd]; lia.
Qed.

(** ** Pocklington's criterion *)

Lemma prime_divisor n : 1 < n -> exists r, Z.prime r /\ (r | n).
Proof.
  intros H. assert (0 <= n) as Hn by lia. revert H. pattern n.
  apply Z_lt_induction; [| exact Hn]. clear n Hn. intros n IH H.
  destruct (prime_dec n) as [Hp | Hp].
  - exists n. split; [now apply prime_alt | apply Z.divide_refl].
  - destruct (not_prime_divide n H Hp) as (d & Hd & Hdiv).
    destruct (IH d) as (r & Hr & Hrd); [lia | lia |].
    exists r. split; [exact Hr | now apply Z.divide_trans with d].
Qed.

(** The side condition of the criterion at one prime factor [q] of [n - 1]. *)
Definition pock_witness (n q a : Z) : Prop :=
  (q | n - 1) /\ a ^ (n - 1) mod n = 1 /\ Z.coprime (a ^ ((n - 1) / q) - 1) n.

Lemma mod_divisor a n r : 1 < r -> (r | n) -> 1 < n -> a mod n = 1 -> a mod r = 1.
Proof.
  intros Hr [k Hk] Hn H. rewrite (Z.div_mod a n), H, Hk by lia.
  replace (k * r * (a / (k * r)) + 1) with (1 + (k * (a / (k * r))) * r) by ring.
  rewrite Z_mod_plus_full. apply Z.mod_small. lia.
Qed.

Lemma pock_factor n q a r :
  1 < n -> Z.prime q -> Z.prime r -> (r | n) -> pock_witness n q a -> (q | r - 1).
Proof.
  intros Hn Hq Hr Hrn ([m Hm] & H1 & Hco).
  pose proof (Z.prime_ge_2 _ Hq) as Hq2. pose proof (Z.prime_ge_2 _ Hr) as Hr2.
  destruct (Z.BoolSpec_divide q (r - 1)) as [Hd | Hnd]; [exact Hd | exfalso].
  assert ((n - 1) / q = m) as Em by (rewrite Hm; apply Z.div_mul; lia).
  rewrite Em in Hco. assert (0 <= m) as Hm0 by nia.
  pose (b := Zmod.of_Z r (a ^ m)).
  assert (Zmod.pow b q = Zmod.one) as Hbq.
  { apply Zmod.unsigned_inj. unfold b.
    rewrite Zmod.unsigned_pow_nonneg_r, Zmod.unsigned_of_Z, Z.mod_pow_l by lia.
    rewrite Zmod.unsigned_1_pos, <- Z.pow_mul_r, <- Hm by lia.
    now apply mod_divisor with n; try lia. }
  assert (b <> Zmod.zero) as Hb0.
  { intros E. rewrite E, Zmod.pow_0_l in Hbq by lia.
    symmetry in Hbq. apply (Zmod.one_neq_zero (m := r)) in Hbq; lia. }
  assert (Z.gcd (Zmod.unsigned b) r = 1) as Hg.
  { rewrite Z.gcd_comm. apply Z.coprime_prime_small; [exact Hr |].
    pose proof (Zmod.unsigned_pos_bound b ltac:(lia)).
    apply Zmod.unsigned_nz in Hb0. lia. }
  assert (b = Zmod.one) as Hb1.
  { apply Z.coprime_prime_l, Z.Bezout_coprime in Hnd; [| exact Hq].
    destruct Hnd as (u & v & Huv). rewrite <- (Zmod.pow_1_r b), <- Huv.
    rewrite Zmod.pow_add_r_coprime, (Z.mul_comm u), (Z.mul_comm v) by exact Hg.
    rewrite !Zmod.pow_mul_r_coprime, Hbq by exact Hg.
    replace (r - 1) with (Z.pred r) by lia.
    rewrite Zmod.fermat_nz, !Zmod.pow_1_l, Zmod.mul_1_l; trivial. }
  apply (f_equal Zmod.unsigned) in Hb1. unfold b in Hb1.
  rewrite Zmod.unsigned_of_Z, Zmod.unsigned_1_pos in Hb1 by lia.
  assert (r | a ^ m - 1) as Hra.
  { apply Z.mod_divide; [lia |]. rewrite Zminus_mod, Hb1, (Z.mod_small 1) by lia.
    reflexivity. }
  pose proof (Z.gcd_greatest _ _ _ Hra Hrn) as Hbad. rewrite Hco in Hbad.
  apply Z.divide_1_r_nonneg in Hbad; lia.
Qed.

Lemma pocklington n f :
  1 < n -> n < f * f -> 0 < f -> (forall r, Z.prime r -> (r | n) -> (f | r - 1)) -> Z.prime n.
Proof.
  intros Hn Hf Hf0 H. split; [exact Hn |]. intros k Hk Hdiv.
  destruct (small_divisor n k Hk Hdiv) as (d & Hd & Hgt & Hsq).
  destruct (prime_divisor d Hgt) as (r & Hr & Hrd).
  pose proof (Z.prime_ge_2 _ Hr). apply Z.divide_pos_le in Hrd as Hle; [| lia].
  pose proof (H r Hr (Z.divide_trans _ _ _ Hrd Hd)) as Hfr.
  apply Z.divide_pos_le in Hfr; [nia | lia].
Qed.

Lemma pocklington1 n q a :
  1 < n -> n < q * q -> Z.prime q -> pock_witness n q a -> Z.prime n.
Proof.
  intros Hn Hq Hp Hw. pose proof (Z.prime_ge_2 _ Hp).
  apply pocklington with q; try lia. intros r Hr Hrn. now apply (pock_factor n q a).
Qed.

Lemma pocklington2 n q1 a1 q2 a2 :
  1 < n -> n < (q1 * q2) * (q1 * q2) -> Z.prime q1 -> Z.prime q2 -> q1 <> q2 ->
  pock_witness n q1 a1 -> pock_witness n q2 a2 -> Z.prime n.
Proof.
  intros Hn Hq Hp1 Hp2 Hne Hw1 Hw2.
  pose proof (Z.prime_ge_2 _ Hp1). pose proof (Z.prime_ge_2 _ Hp2).
  apply pocklington with (q1 * q2); try nia. intros r Hr Hrn.
  apply (pock_factor n q1 a1 r) in Hw1; auto. apply (pock_factor n q2 a2 r) in Hw2; auto.
  destruct Hw1 as [m Hm]. rewrite Hm in Hw2.
  rewrite Z.mul_comm in Hw2. apply Z.gauss in Hw2.
  - destruct Hw2 as [m' ->]. rewrite Hm. exists m'. ring.
  - apply Z.coprime_prime_l; [exact Hp2 |]. intros E%Z.divide_prime_prime; auto.
Qed.

(** ** The certificate *)

(** Executable form of [pock_witness]: both powers are computed modulo [n]. *)
Definition pock_check (n q a : Z) : bool :=
  ((n - 1) mod q =? 0) &&
  (Zmod.unsigned (Zmod.pow (Zmod.of_Z n a) (n - 1)) =? 1) &&
  (Z.gcd (Zmod.unsigned (Zmod.pow (Zmod.of_Z n a) ((n - 1) / q)) - 1) n =? 1).

Lemma pock_check_spec n q a : 1 < n -> 0 < q -> pock_check n q a = true -> pock_witness n q a.
Proof.
  intros Hn Hq H. unfold pock_check in H. apply andb_prop in H as [[H1 H2]%andb_prop H3].
  apply Z.eqb_eq in H1, H2, H3.
  assert (0 <= (n - 1) / q) by (apply Z.div_pos; lia).
  rewrite Zmod.unsigned_pow_nonneg_r, Zmod.unsigned_of_Z, Z.mod_pow_l in H2, H3 by lia.
  repeat split; [now apply Z.mod_divide; [lia |] | exact H2 |].
  unfold Z.coprime. etransitivity; [| exact H3].
  rewrite !(Z.gcd_comm _ n).
  set (x := a ^ ((n - 1) / q)). pose proof (Z.div_mod x n ltac:(lia)) as Hx.
  replace (x - 1) with ((x mod n - 1) + (x / n) * n) by lia.
  now rewrite Z.gcd_add_mult_diag_r.
Qed.

Ltac pock1 q a Hq :=
  apply (pocklington1 _ q a); [reflexivity | reflexivity | exact Hq |];
  apply pock_check_spec; [reflexivity | reflexivity | vm_compute; reflexivity].

Lemma prime_214391 : Z.prime 214391.
Proof. apply trial_prime_spec. vm_compute. reflexivity. Qed.

Lemma prime_5849 : Z.prime 5849.
Proof. apply trial_prime_spec. vm_compute. reflexivity. Qed.

Lemma prime_229 : Z.prime 229.
Proof. apply trial_prime_spec. vm_compute. reflexivity. Qed.

Lemma prime_15324239899 : Z.prime 15324239899.
Proof. pock1 214391 2 prime_214391. Qed.

Lemma prime_61296959597 : Z.prime 61296959597.
Proof. pock1 15324239899 2 prime_15324239899. Qed.

Lemma prime_367781757583 : Z.prime 367781757583.
Proof. pock1 61296959597 2 prime_61296959597. Qed.

Ltac pock_side := apply pock_check_spec; [reflexivity | reflexivity | vm_compute; reflexivity].

Lemma prime_34824947 : Z.prime 34824947.
Proof.
  apply (pocklington2 _ 5849 2 229 2); try reflexivity; try discriminate.
  - exact prime_5849.
  - exact prime_229.
  - pock_side.
  - pock_side.
Qed.

Lemma prime_90 : Z.prime 796408944835756999689534883.
Proof.
  apply (pocklington2 _ 367781757583 2 34824947 2); try reflexivity; try discriminate.
  - exact prime_367781757583.
  - exact prime_34824947.
  - pock_side.
  - pock_side.
Qed.

Lemma prime_109 : Z.prime 381242554710766547265379727561867.
Proof. pock1 796408944835756999689534883 2 prime_90. Qed.

Lemma prime_p168 : Z.prime p168.
Proof. pock1 381242554710766547265379727561867 2 prime_109. Qed.
