(* ===== verification/Curve.v ===== *)
(** * The group law of a short Weierstrass curve

    The abstract specification of the point operations of [ptwist168.c]: the
    chord-and-tangent law on y^2 = x^3 + a x + b over any field of
    characteristic other than 2, with a proof that it is a commutative group.
    The proof works with the slope of the line through two points: a slope
    satisfies two equations that hold for chords and tangents alike, and the
    slopes of the two sides of associativity are explicit. *)
From Stdlib Require Import Setoid Field Bool ZArith List.
From S2P Require Import Prelude.

Section Weierstrass.
Context {F : Type} (zero one : F) (add mul sub : F -> F -> F) (opp : F -> F)
        (div : F -> F -> F) (inv : F -> F).
Context (Fth : field_theory zero one add mul sub opp div inv eq).
Context (feqb : F -> F -> bool) (feqb_eq : forall x y, feqb x y = true <-> x = y).
Add Field weierstrass_field : Fth.

Declare Scope F_scope.
Local Open Scope F_scope.
Local Notation "0" := zero : F_scope.
Local Notation "1" := one : F_scope.
Local Notation "2" := (add one one) : F_scope.
Local Notation "3" := (add one (add one one)) : F_scope.
Local Infix "+" := add : F_scope.
Local Infix "*" := mul : F_scope.
Local Infix "-" := sub : F_scope.
Local Infix "/" := div : F_scope.
Local Notation "- x" := (opp x) : F_scope.

Context (two_neq_0 : 2 <> 0).

Inductive point := Inf | Aff (x y : F).

Definition neg (P : point) : point :=
  match P with Inf => Inf | Aff x y => Aff x (- y) end.

(** The third intersection of a line of slope [l], reflected. *)
Definition third (l x1 y1 x2 : F) : point :=
  let x3 := l * l - x1 - x2 in Aff x3 (l * (x1 - x3) - y1).

Section Curve.
Context (a b : F).

Definition on_curve (P : point) : Prop :=
  match P with Inf => True | Aff x y => y * y = x * x * x + a * x + b end.

Definition padd (P Q : point) : point :=
  match P, Q with
  | Inf, _ => Q
  | _, Inf => P
  | Aff x1 y1, Aff x2 y2 =>
      if feqb x1 x2
      then if feqb (y1 + y2) 0 then Inf
           else third ((3 * x1 * x1 + a) / (2 * y1)) x1 y1 x2
      else third ((y2 - y1) / (x2 - x1)) x1 y1 x2
  end.

(** The slope of the line through two points, chord or tangent. *)
Definition slope (l x1 y1 x2 y2 : F) : Prop :=
  y1 - y2 = l * (x1 - x2) /\ l * (y1 + y2) = x1 * x1 + x1 * x2 + x2 * x2 + a.

(** ** Field facts *)

Lemma feqb_neq x y : feqb x y = false <-> x <> y.
Proof. rewrite <- feqb_eq. destruct (feqb x y); intuition congruence. Qed.

Lemma feqb_spec x y : BoolSpec (x = y) (x <> y) (feqb x y).
Proof. destruct (feqb x y) eqn:E; constructor; [now apply feqb_eq | now apply feqb_neq]. Qed.

Lemma mul_eq_0 x y : x * y = 0 -> x = 0 \/ y = 0.
Proof.
  intros H. destruct (feqb_spec x 0) as [-> | Hx]; [now left | right].
  replace y with ((x * y) / x) by (field; exact Hx). rewrite H. field. exact Hx.
Qed.

Lemma mul_neq_0 x y : x <> 0 -> y <> 0 -> x * y <> 0.
Proof. intros Hx Hy [H | H]%mul_eq_0; auto. Qed.

Lemma sub_eq_0 x y : x - y = 0 <-> x = y.
Proof.
  split; [| intros ->; ring]. intros H. replace x with (x - y + y) by ring. rewrite H. ring.
Qed.

Lemma sub_0_eq x y : x - y = 0 -> x = y.
Proof. apply sub_eq_0. Qed.

Lemma sub_neq_0 x y : x <> y -> x - y <> 0.
Proof. now rewrite sub_eq_0. Qed.

Lemma cancel_l x y z : x <> 0 -> x * y = x * z -> y = z.
Proof.
  intros Hx H. apply sub_eq_0. destruct (mul_eq_0 x (y - z)) as [E | E]; auto; [| contradiction].
  replace (x * (y - z)) with (x * y - x * z) by ring. rewrite H. ring.
Qed.

Lemma opp_self y : y = - y -> y = 0.
Proof.
  intros H. destruct (mul_eq_0 2 y) as [E | E]; auto; [| contradiction].
  replace (2 * y) with (y - - y) by ring. rewrite <- H. ring.
Qed.

Lemma add_eq_0_opp x y : x + y = 0 <-> y = - x.
Proof.
  split; [| intros ->; ring]. intros H. replace y with (x + y - x) by ring. rewrite H. ring.
Qed.

(** ** Slopes *)

(** Points of the curve with one abscissa are equal or opposite. *)
Lemma same_x x y1 y2 :
  on_curve (Aff x y1) -> on_curve (Aff x y2) -> y1 = y2 \/ y1 + y2 = 0.
Proof.
  cbn. intros H1 H2. destruct (mul_eq_0 (y1 - y2) (y1 + y2)) as [H | H]; auto.
  - replace ((y1 - y2) * (y1 + y2)) with (y1 * y1 - y2 * y2) by ring. rewrite H1, H2. ring.
  - left. now apply sub_eq_0.
Qed.

(** Two points that are not opposite have a slope, and it computes the sum. *)
Lemma padd_slope x1 y1 x2 y2 :
  on_curve (Aff x1 y1) -> on_curve (Aff x2 y2) -> padd (Aff x1 y1) (Aff x2 y2) <> Inf ->
  exists l, slope l x1 y1 x2 y2 /\ padd (Aff x1 y1) (Aff x2 y2) = third l x1 y1 x2.
Proof.
  intros H1 H2. cbn [padd]. destruct (feqb_spec x1 x2) as [<- | Hx].
  - destruct (feqb_spec (y1 + y2) 0) as [Hy | Hy]; [congruence | intros _].
    destruct (same_x _ _ _ H1 H2) as [<- | E]; [| contradiction].
    assert (2 * y1 <> 0) as Hn by (intros E; apply Hy; rewrite <- E; ring).
    assert (y1 <> 0) as Hn1 by (intros ->; apply Hn; ring).
    eexists. split; [| reflexivity]. split; [ring |]. field. auto.
  - intros _. eexists. split; [| reflexivity].
    assert (x2 - x1 <> 0) as Hn by (apply sub_neq_0; congruence).
    split; [field; auto |]. cbn in H1, H2. apply (cancel_l (x2 - x1)); [exact Hn |].
    transitivity (y2 * y2 - y1 * y1); [field; exact Hn |]. rewrite H1, H2. ring.
Qed.

(** A slope of two points that are not opposite is the one the sum uses. *)
Lemma slope_padd l x1 y1 x2 y2 :
  slope l x1 y1 x2 y2 -> x1 <> x2 \/ y1 + y2 <> 0 ->
  padd (Aff x1 y1) (Aff x2 y2) = third l x1 y1 x2.
Proof.
  intros [Hd Hs] Hne. cbn [padd]. destruct (feqb_spec x1 x2) as [<- | Hx].
  - destruct Hne as [Hne | Hne]; [congruence |].
    destruct (feqb_spec (y1 + y2) 0) as [Hy | Hy]; [contradiction |].
    assert (y1 = y2) as <- by (apply sub_eq_0; rewrite Hd; ring).
    f_equal. assert (2 * y1 <> 0) as Hn by (intros E; apply Hne; rewrite <- E; ring).
    assert (y1 <> 0) as Hn1 by (intros ->; apply Hn; ring).
    apply (cancel_l (2 * y1)); [exact Hn |].
    transitivity (3 * x1 * x1 + a); [field; auto |].
    transitivity (l * (y1 + y1)); [rewrite Hs; ring | ring].
  - f_equal. assert (x2 - x1 <> 0) as Hn by (apply sub_neq_0; congruence).
    apply (cancel_l (x2 - x1)); [exact Hn |].
    transitivity (y2 - y1); [field; exact Hn |].
    transitivity (- (y1 - y2)); [ring |]. rewrite Hd. ring.
Qed.

Lemma padd_inf_iff x1 y1 x2 y2 :
  padd (Aff x1 y1) (Aff x2 y2) = Inf <-> x1 = x2 /\ y1 + y2 = 0.
Proof.
  cbn [padd]. destruct (feqb_spec x1 x2); [destruct (feqb_spec (y1 + y2) 0) |];
    split; try easy; unfold third; intuition (try congruence).
Qed.

Lemma slope_sym l x1 y1 x2 y2 : slope l x1 y1 x2 y2 -> slope l x2 y2 x1 y1.
Proof.
  intros [Hd Hs]. split; [transitivity (- (y1 - y2)); [ring | rewrite Hd; ring] |].
  transitivity (l * (y1 + y2)); [ring | rewrite Hs; ring].
Qed.

(** The slope equations solved for [a] and the second ordinate. *)
Lemma slope_solve l x1 y1 x2 y2 :
  slope l x1 y1 x2 y2 ->
  y2 = y1 - l * (x1 - x2) /\
  a = l * (y1 + (y1 - l * (x1 - x2))) - (x1 * x1 + x1 * x2 + x2 * x2).
Proof.
  intros [Hd Hs]. assert (y2 = y1 - l * (x1 - x2)) as E by (rewrite <- Hd; ring).
  split; [exact E |]. rewrite <- E, Hs. ring.
Qed.

Lemma third_on_curve l x1 y1 x2 y2 :
  slope l x1 y1 x2 y2 -> on_curve (Aff x1 y1) -> on_curve (third l x1 y1 x2).
Proof.
  intros [Ey Ea]%slope_solve H. unfold third. cbn in *.
  assert (b = y1 * y1 - x1 * x1 * x1 - a * x1) as -> by (rewrite H; ring).
  rewrite Ea. ring.
Qed.

Lemma third_sym l x1 y1 x2 y2 :
  slope l x1 y1 x2 y2 -> third l x1 y1 x2 = third l x2 y2 x1.
Proof. intros [-> _]%slope_solve. unfold third. f_equal; ring. Qed.

(** ** Closure, negation, commutativity *)

Lemma neg_on_curve P : on_curve P -> on_curve (neg P).
Proof. destruct P as [| x y]; cbn; [easy |]. intros <-. ring. Qed.

Lemma neg_involutive P : neg (neg P) = P.
Proof. destruct P; cbn; [reflexivity | f_equal; ring]. Qed.

Lemma padd_on_curve P Q : on_curve P -> on_curve Q -> on_curve (padd P Q).
Proof.
  destruct P as [| x1 y1], Q as [| x2 y2]; try easy. intros HP HQ.
  destruct (padd (Aff x1 y1) (Aff x2 y2)) eqn:E; [easy |]. rewrite <- E.
  destruct (padd_slope x1 y1 x2 y2) as (l & Hl & ->); auto; [congruence |].
  now apply third_on_curve with y2.
Qed.

Lemma padd_comm P Q : on_curve P -> on_curve Q -> padd P Q = padd Q P.
Proof.
  destruct P as [| x1 y1], Q as [| x2 y2]; try easy. intros HP HQ.
  destruct (padd (Aff x1 y1) (Aff x2 y2)) as [| x y] eqn:E.
  - apply padd_inf_iff in E as [Ex Ey]. symmetry. apply padd_inf_iff.
    split; [congruence | rewrite <- Ey; ring].
  - destruct (padd_slope x1 y1 x2 y2) as (l & Hl & E'); auto; [congruence |].
    rewrite <- E, E', (third_sym l x1 y1 x2 y2 Hl). symmetry.
    apply slope_padd; [now apply slope_sym |].
    destruct (feqb_spec x2 x1) as [-> | Hx]; [right | now left].
    intros Hy. assert (padd (Aff x1 y1) (Aff x1 y2) = Inf) as Hi; [| congruence].
    apply padd_inf_iff. split; [reflexivity | rewrite <- Hy; ring].
Qed.

Lemma padd_0_r P : padd P Inf = P.
Proof. now destruct P. Qed.

Lemma padd_neg_r P : padd P (neg P) = Inf.
Proof. destruct P; [reflexivity |]. apply padd_inf_iff. split; [reflexivity | ring]. Qed.

Lemma padd_inf_neg P Q : padd P Q = Inf -> Q = neg P.
Proof.
  destruct P as [| x1 y1], Q as [| x2 y2]; try easy.
  intros [<- Hy]%padd_inf_iff. cbn. f_equal. now apply add_eq_0_opp.
Qed.

(** ** Cancellation and associativity *)

(** No point with y = 0 has a horizontal derivative. *)
Context (nonsingular : forall x, on_curve (Aff x 0) -> 3 * x * x + a <> 0).

Lemma cancel_not_opposite m x1 y1 x3 y3 :
  on_curve (Aff x1 y1) -> slope m x1 (- y1) x3 y3 ->
  let xd := m * m - x1 - x3 in
  x1 <> xd \/ y1 + (m * (x1 - xd) - - y1) <> 0.
Proof.
  intros H1 [E3 Ea]%slope_solve xd.
  destruct (feqb_spec x1 xd) as [Ex | Hx]; [right | now left]. intros Hy.
  assert (y1 = 0) as E1.
  { apply opp_self, add_eq_0_opp. rewrite <- Hy, <- Ex. ring. }
  subst y1. apply (nonsingular x1 H1).
  assert (m * m = x1 + x1 + x3) as Em.
  { transitivity (xd + x1 + x3); [unfold xd; ring | now rewrite <- Ex]. }
  rewrite Ea. transitivity (3 * x1 * x1 - (m * m) * (x1 - x3) - (x1 * x1 + x1 * x3 + x3 * x3)); [ring |].
  rewrite Em. ring.
Qed.

Lemma padd_cancel P Q : on_curve P -> on_curve Q -> padd P (padd (neg P) Q) = Q.
Proof.
  destruct P as [| x1 y1]; [reflexivity |]. destruct Q as [| x3 y3]; [intros; apply padd_neg_r |].
  intros HP HQ. destruct (padd (neg (Aff x1 y1)) (Aff x3 y3)) as [| xd yd] eqn:E.
  - apply padd_inf_neg in E. rewrite neg_involutive in E. now rewrite E.
  - destruct (padd_slope x1 (- y1) x3 y3) as (m & Hm & E'); auto.
    { now apply (neg_on_curve (Aff x1 y1)). }
    { cbn [neg] in E. congruence. }
    cbn [neg] in E. rewrite <- E, E'. unfold third.
    pose proof (cancel_not_opposite m x1 y1 x3 y3 HP Hm) as Hne.
    apply slope_solve in Hm as [E3 Ea].
    rewrite (slope_padd (- m)); [unfold third; rewrite E3; f_equal; ring | | exact Hne].
    split; [ring | rewrite Ea; ring].
Qed.

(** Generic associativity: the four slopes are l, m, k - l and k - m with
    k = (x1 - x3) / (l - m). *)
Lemma assoc_slopes l m x1 y1 x2 y2 x3 y3 :
  slope l x1 y1 x2 y2 -> slope m x2 y2 x3 y3 -> l <> m ->
  let k := (x1 - x3) / (l - m) in
  let xs := l * l - x1 - x2 in let ys := l * (x1 - xs) - y1 in
  let xt := m * m - x2 - x3 in let yt := m * (x2 - xt) - y2 in
  slope (k - l) xs ys x3 y3 /\ slope (k - m) x1 y1 xt yt /\
  third (k - l) xs ys x3 = third (k - m) x1 y1 xt.
Proof.
  intros [E2 Ea]%slope_solve [E3 Ea']%slope_solve Hlm.
  assert (l - m <> 0) as Hn by now apply sub_neq_0.
  assert (y1 = ((x1 - x3) * (x1 + x2 + x3) + m * m * (x3 - x2) - l * l * (x1 - x2)) / (2 * (l - m))
               + l * (x1 - x2)) as E1.
  { apply (cancel_l (2 * (l - m))); [now apply mul_neq_0 |].
    assert (l * (y1 + (y1 - l * (x1 - x2))) - (x1 * x1 + x1 * x2 + x2 * x2)
            = m * (y2 + (y2 - m * (x2 - x3))) - (x2 * x2 + x2 * x3 + x3 * x3)) as E by congruence.
    rewrite E2 in E. apply sub_eq_0 in E. apply sub_eq_0. rewrite <- E. field. auto. }
  cbv zeta. unfold slope, third. rewrite E3, E2.
  assert (forall P Q R : Prop, P -> Q -> R -> P /\ Q /\ R) as split3 by auto.
  apply split3; [split | split | f_equal]; rewrite ?Ea, ?E1; field; auto.
Qed.

(** Different slopes: the partial sums are not opposite to the third point. *)
Lemma assoc_not_opposite l m x1 y1 x2 y2 x3 y3 :
  slope l x1 y1 x2 y2 -> slope m x2 y2 x3 y3 -> l <> m -> x2 <> x3 \/ y2 + y3 <> 0 ->
  let xs := l * l - x1 - x2 in
  xs <> x3 \/ (l * (x1 - xs) - y1) + y3 <> 0.
Proof.
  intros Hl Hm Hlm Hne xs. pose proof Hm as [Hd _].
  apply slope_solve in Hl as [E2 Ea]. apply slope_solve in Hm as [E3 Ea'].
  destruct (feqb_spec xs x3) as [Ex | Hx]; [right | now left]. intros Hy.
  assert (x2 = x3) as E23.
  { destruct (mul_eq_0 (l - m) (x2 - x3)) as [H | H].
    - transitivity ((l * (x1 - xs) - y1) + y3); [| exact Hy].
      rewrite E3, E2, Ex. ring.
    - apply sub_0_eq in H. contradiction.
    - now apply sub_eq_0. }
  assert (y2 = y3) as Ey by (apply sub_eq_0; rewrite Hd, E23; ring).
  destruct Hne as [H | H]; [contradiction |]. apply H. rewrite <- Ey.
  apply (cancel_l (l - m)); [now apply sub_neq_0 |].
  assert (l * l = x1 + x2 + x3) as El.
  { transitivity (xs + x1 + x2); [unfold xs; ring | rewrite Ex; ring]. }
  transitivity (l * (y1 + (y1 - l * (x1 - x2))) - (x1 * x1 + x1 * x2 + x2 * x2)
                + (l * l) * (x2 - x1) + x1 * x1 + x1 * x2 + x2 * x2 - m * (y2 + y2)).
  { rewrite E2. ring. }
  rewrite <- Ea, Ea', El, <- E23. ring.
Qed.

(** Equal slopes: the three points are collinear or the outer two coincide. *)
Lemma assoc_collinear l x1 y1 x2 y2 x3 y3 :
  slope l x1 y1 x2 y2 -> slope l x2 y2 x3 y3 ->
  (x1 = x3 /\ y1 = y3) \/
  (third l x1 y1 x2 = neg (Aff x3 y3) /\ third l x2 y2 x3 = neg (Aff x1 y1)).
Proof.
  intros [E2 Ea]%slope_solve [E3 Ea']%slope_solve.
  destruct (mul_eq_0 (x1 - x3) (l * l - (x1 + x2 + x3))) as [H | H].
  - assert (a - a = 0) as E by ring. rewrite Ea in E at 1. rewrite Ea', E2 in E.
    rewrite <- E. ring.
  - left. apply sub_0_eq in H as <-. split; [reflexivity | rewrite E3, E2; ring].
  - right. apply sub_0_eq in H. unfold third, neg. rewrite E3, E2.
    replace (l * l - x1 - x2) with x3 by (rewrite H; ring).
    replace (l * l - x2 - x3) with x1 by (rewrite H; ring).
    split; f_equal; ring.
Qed.

Lemma padd_assoc_aff x1 y1 x2 y2 x3 y3 :
  let A := Aff x1 y1 in let B := Aff x2 y2 in let C := Aff x3 y3 in
  on_curve A -> on_curve B -> on_curve C -> padd A B <> Inf -> padd B C <> Inf ->
  padd (padd A B) C = padd A (padd B C).
Proof.
  intros A B C HA HB HC HAB HBC.
  destruct (padd_slope x1 y1 x2 y2 HA HB HAB) as (l & Hl & El).
  destruct (padd_slope x2 y2 x3 y3 HB HC HBC) as (m & Hm & Em).
  destruct (feqb_spec l m) as [<- | Hlm].
  - destruct (assoc_collinear l _ _ _ _ _ _ Hl Hm) as [[Ex Ey] | [E1 E2]].
    + assert (C = A) as -> by (unfold A, C; congruence).
      rewrite (padd_comm (padd A B) A), (padd_comm A B); auto using padd_on_curve.
    + unfold A at 1, B at 1. rewrite El, E1. unfold B at 1, C at 2. rewrite Em, E2.
      rewrite padd_neg_r, padd_comm, padd_neg_r; auto using neg_on_curve.
  - unfold A at 1, B at 1. rewrite El. unfold B at 1, C at 2. rewrite Em.
    destruct (assoc_slopes l m _ _ _ _ _ _ Hl Hm Hlm) as (Hs & Ht & E).
    unfold third at 1 2. unfold A, C. rewrite (slope_padd _ _ _ _ _ Hs), (slope_padd _ _ _ _ _ Ht).
    + exact E.
    + pose proof (assoc_not_opposite m l x3 y3 x2 y2 x1 y1) as Hn. cbv zeta in Hn.
      destruct Hn as [Hn | Hn]; auto using slope_sym.
      * destruct (feqb_spec x2 x1) as [-> | Hx]; [right | now left].
        intros Hy. apply HAB, padd_inf_iff. split; [reflexivity | rewrite <- Hy; ring].
      * left. intros Ex. apply Hn. rewrite Ex. ring.
      * right. intros Hy. apply Hn. rewrite <- Hy.
        apply slope_solve in Hm as [-> _]. ring.
    + apply assoc_not_opposite with m y2; auto.
      destruct (feqb_spec x2 x3) as [-> | Hx]; [right | now left].
      intros Hy. now apply HBC, padd_inf_iff.
Qed.

Theorem padd_assoc P Q R :
  on_curve P -> on_curve Q -> on_curve R -> padd (padd P Q) R = padd P (padd Q R).
Proof.
  intros HP HQ HR. destruct (padd P Q) as [| xs ys] eqn:EPQ.
  { apply padd_inf_neg in EPQ as ->. symmetry. now apply padd_cancel. }
  destruct (padd Q R) as [| xt yt] eqn:EQR.
  { apply padd_inf_neg in EQR as ->. rewrite <- EPQ, padd_0_r.
    rewrite (padd_comm (padd P Q)), (padd_comm P Q); auto using padd_on_curve, neg_on_curve.
    rewrite <- (neg_involutive Q) at 2. apply padd_cancel; auto using neg_on_curve. }
  rewrite <- EPQ, <- EQR.
  destruct P as [| x1 y1]; [reflexivity |]. destruct Q as [| x2 y2]; [reflexivity |].
  destruct R as [| x3 y3]; [now rewrite !padd_0_r |].
  apply padd_assoc_aff; auto; congruence.
Qed.

(** ** Scalar multiples *)

Definition smul (n : N) (P : point) : point := N.iter n (padd P) Inf.

Lemma smul_0 P : smul 0 P = Inf.
Proof. reflexivity. Qed.

Lemma smul_succ n P : smul (N.succ n) P = padd P (smul n P).
Proof. apply N.iter_succ. Qed.

Lemma smul_1 P : smul 1 P = P.
Proof. change 1%N with (N.succ 0). rewrite smul_succ. apply padd_0_r. Qed.

Lemma smul_on_curve n P : on_curve P -> on_curve (smul n P).
Proof.
  intros H. induction n as [| n IH] using N.peano_ind; [exact I |].
  rewrite smul_succ. now apply padd_on_curve.
Qed.

Lemma smul_add m n P : on_curve P -> smul (m + n) P = padd (smul m P) (smul n P).
Proof.
  intros H. induction m as [| m IH] using N.peano_ind; [reflexivity |].
  rewrite N.add_succ_l, !smul_succ, IH. symmetry.
  apply padd_assoc; auto using smul_on_curve.
Qed.

Lemma smul_Inf n : smul n Inf = Inf.
Proof. induction n as [| n IH] using N.peano_ind; [reflexivity |]. now rewrite smul_succ, IH. Qed.

Lemma smul_mul m n P : on_curve P -> smul (m * n) P = smul m (smul n P).
Proof.
  intros H. induction m as [| m IH] using N.peano_ind; [reflexivity |].
  rewrite N.mul_succ_l, smul_succ, N.add_comm, smul_add, IH by exact H. reflexivity.
Qed.

Lemma smul_comm m n P : on_curve P -> smul m (smul n P) = smul n (smul m P).
Proof. intros H. now rewrite <- !smul_mul, N.mul_comm. Qed.

Lemma padd_neg_distr P Q :
  on_curve P -> on_curve Q -> padd (neg P) (neg Q) = neg (padd P Q).
Proof.
  destruct P as [| x1 y1], Q as [| x2 y2]; try reflexivity. intros HP HQ.
  destruct (padd (Aff x1 y1) (Aff x2 y2)) as [| xs ys] eqn:E.
  - apply padd_inf_neg in E as ->. rewrite neg_involutive, padd_comm, padd_neg_r;
      auto using neg_on_curve.
  - destruct (padd_slope x1 y1 x2 y2) as (l & [Hd Hs] & El); auto; [congruence |].
    rewrite <- E, El. cbn [neg]. rewrite (slope_padd (- l)).
    + unfold third, neg. f_equal; ring.
    + split; [transitivity (- (y1 - y2)); [ring | rewrite Hd; ring] |].
      transitivity (l * (y1 + y2)); [ring | exact Hs].
    + destruct (feqb_spec x1 x2) as [<- | Hx]; [right | now left]. intros Hy.
      assert (padd (Aff x1 y1) (Aff x1 y2) = Inf); [| congruence]. apply padd_inf_iff.
      split; [reflexivity |]. transitivity (- (- y1 + - y2)); [ring | rewrite Hy; ring].
Qed.

Lemma smul_neg n P : on_curve P -> smul n (neg P) = neg (smul n P).
Proof.
  intros H. induction n as [| n IH] using N.peano_ind; [reflexivity |].
  rewrite !smul_succ, IH. apply padd_neg_distr; auto using smul_on_curve.
Qed.
End Curve.

(** ** Jacobian coordinates *)

(** (X, Y, Z) stands for (X / Z^2, Y / Z^3), or infinity if Z = 0. *)
Definition to_affine (x y z : F) : point :=
  if feqb z 0 then Inf else Aff (x / (z * z)) (y / (z * z * z)).

Lemma to_affine_0 x y : to_affine x y 0 = Inf.
Proof. unfold to_affine. destruct (feqb_spec 0 0); congruence. Qed.

Lemma to_affine_nz x y z : z <> 0 -> to_affine x y z = Aff (x / (z * z)) (y / (z * z * z)).
Proof. unfold to_affine. destruct (feqb_spec z 0); congruence. Qed.

Lemma to_affine_1 x y : 1 <> 0 -> to_affine x y 1 = Aff x y.
Proof. intros H. rewrite to_affine_nz by exact H. f_equal; field; exact H. Qed.

Local Notation "4" := (2 + 2) : F_scope.
Local Notation "8" := (4 + 4) : F_scope.

(** The doubling formulas of the source (a = -3). *)
Lemma jacobian_double x y z x' y' z' :
  let alpha := 3 * (x - z * z) * (x + z * z) in
  let beta := x * (y * y) in
  x' = alpha * alpha - 8 * beta ->
  y' = alpha * (4 * beta - x') - 8 * ((y * y) * (y * y)) ->
  z' = (y + z) * (y + z) - (y * y + z * z) ->
  to_affine x' y' z' = padd (- (3)) (to_affine x y z) (to_affine x y z).
Proof.
  intros alpha beta Ex Ey Ez.
  assert (z' = 2 * y * z) as -> by (rewrite Ez; ring). clear Ez.
  destruct (feqb_spec z 0) as [-> | Hz].
  { replace (2 * y * 0) with 0 by ring. now rewrite !to_affine_0. }
  rewrite (to_affine_nz x y z Hz).
  destruct (feqb_spec y 0) as [-> | Hy].
  { replace (2 * 0 * z) with 0 by ring. rewrite to_affine_0. symmetry.
    apply padd_inf_iff. split; [reflexivity | field; exact Hz]. }
  rewrite to_affine_nz by (repeat apply mul_neq_0; assumption).
  cbn [padd]. destruct (feqb_spec (x / (z * z)) (x / (z * z))) as [_ | H]; [| congruence].
  destruct (feqb_spec (y / (z * z * z) + y / (z * z * z)) 0) as [E | _].
  { exfalso. apply (mul_neq_0 _ _ two_neq_0 Hy).
    transitivity ((y / (z * z * z) + y / (z * z * z)) * (z * z * z)); [field; exact Hz |].
    rewrite E. ring. }
  unfold third. subst y' x'. unfold alpha, beta. f_equal; field; auto.
Qed.

(** The addition formulas of the source, for finite points. *)
Lemma jacobian_add a b x1 y1 z1 x2 y2 z2 x3 y3 z3 :
  z1 <> 0 -> z2 <> 0 ->
  on_curve a b (to_affine x1 y1 z1) -> on_curve a b (to_affine x2 y2 z2) ->
  let h := z1 * z1 * x2 - z2 * z2 * x1 in
  let r := z1 * z1 * z1 * y2 - z2 * z2 * z2 * y1 in
  ~ (h = 0 /\ r = 0) ->
  x3 = r * r - h * h * h - (1 + 1) * (z2 * z2 * x1 * (h * h)) ->
  y3 = r * (z2 * z2 * x1 * (h * h) - x3) - z2 * z2 * z2 * y1 * (h * h * h) ->
  z3 = h * (z1 * z2) ->
  to_affine x3 y3 z3 = padd a (to_affine x1 y1 z1) (to_affine x2 y2 z2).
Proof.
  intros H1 H2 C1 C2 h r Hne -> -> ->.
  rewrite (to_affine_nz x1 y1 z1 H1) in *. rewrite (to_affine_nz x2 y2 z2 H2) in *.
  assert (Eh : h = z1 * z1 * x2 - z2 * z2 * x1) by reflexivity. clearbody h.
  assert (Er : r = z1 * z1 * z1 * y2 - z2 * z2 * z2 * y1) by reflexivity. clearbody r.
  remember (x1 / (z1 * z1)) as u1 eqn:E1. remember (x2 / (z2 * z2)) as u2 eqn:E2.
  remember (y1 / (z1 * z1 * z1)) as v1 eqn:E3. remember (y2 / (z2 * z2 * z2)) as v2 eqn:E4.
  assert (x1 = u1 * (z1 * z1)) as -> by (rewrite E1; field; exact H1).
  assert (x2 = u2 * (z2 * z2)) as -> by (rewrite E2; field; exact H2).
  assert (y1 = v1 * (z1 * z1 * z1)) as -> by (rewrite E3; field; exact H1).
  assert (y2 = v2 * (z2 * z2 * z2)) as -> by (rewrite E4; field; exact H2).
  clear E1 E2 E3 E4. set (zz := z1 * z2) in *.
  assert (zz <> 0) as Hzz by now apply mul_neq_0.
  replace h with (zz * zz * (u2 - u1)) in * by (rewrite Eh; unfold zz; ring).
  replace r with (zz * zz * zz * (v2 - v1)) in * by (rewrite Er; unfold zz; ring).
  clear Eh Er.
  destruct (feqb_spec u1 u2) as [<- | Hu].
  - assert (zz * zz * (u1 - u1) = 0) as E0 by ring. rewrite E0 in *.
    replace (0 * zz) with 0 by ring. rewrite to_affine_0. symmetry. apply padd_inf_iff.
    split; [reflexivity |]. destruct (same_x a b _ _ _ C1 C2) as [<- | E]; [| exact E].
    destruct Hne. split; [reflexivity | ring].
  - assert (u2 - u1 <> 0) as Hd by (apply sub_neq_0; congruence).
    rewrite to_affine_nz by (repeat apply mul_neq_0; assumption).
    cbn [padd]. destruct (feqb_spec u1 u2) as [E | _]; [contradiction |].
    unfold third, zz in *. f_equal; field; auto.
Qed.
End Weierstrass.
