(* ===== verification/Fp.v ===== *)
(** * GF(p) and the field elements it holds

    The field GF(p), p = 2^168 - 2^8 - 1, as [Zmod p168], the element a limb
    array of [Felem] stands for, and the field operations of the source as
    operations of GF(p), with the limb bounds they need and ensure. *)
From S2P Require Import Prelude Felem FelemPow Prime168.
From Stdlib Require Import ZArith Lia List Bool Field Zmod.
Open Scope Z_scope.

Abbreviation Fp := (Zmod p168).

Lemma Fp_field : field_theory (Zmod.zero (m := p168)) Zmod.one Zmod.add Zmod.mul Zmod.sub
                              Zmod.opp Zmod.mdiv Zmod.inv eq.
Proof. exact (Zmod.field_theory p168 prime_p168). Qed.

Declare Scope Fp_scope.
Delimit Scope Fp_scope with Fp.
Bind Scope Fp_scope with Zmod.
Infix "+" := Zmod.add : Fp_scope.
Infix "-" := Zmod.sub : Fp_scope.
Infix "*" := Zmod.mul : Fp_scope.
Infix "/" := Zmod.mdiv : Fp_scope.
Notation "- x" := (Zmod.opp x) : Fp_scope.

(** The field element of an integer. *)
Definition fz (z : Z) : Fp := Zmod.of_Z p168 z.

(** The field element a limb array holds. *)
Definition fe (c : coord) : Fp := fz (felem c).

Definition fw (w : wide) : Fp := fz (wide_val w).

Lemma fz_eqp a b : eqp a b <-> fz a = fz b.
Proof. unfold fz. now rewrite Zmod.of_Z_inj. Qed.

Lemma fz_add a b : fz (a + b) = (fz a + fz b)%Fp.
Proof. apply Zmod.of_Z_add. Qed.

Lemma fz_sub a b : fz (a - b) = (fz a - fz b)%Fp.
Proof. apply Zmod.of_Z_sub. Qed.

Lemma fz_mul a b : fz (a * b) = (fz a * fz b)%Fp.
Proof. apply Zmod.of_Z_mul. Qed.

Lemma fz_opp a : fz (- a) = (- fz a)%Fp.
Proof. apply Zmod.of_Z_opp. Qed.

Lemma fz_shift a k : fz (a + k * p168) = fz a.
Proof. apply fz_eqp. now apply eqp_multiple with k. Qed.

Lemma p168_pos : 0 < p168.
Proof. reflexivity. Qed.

Lemma fz_0_iff a : fz a = Zmod.zero <-> a mod p168 = 0.
Proof.
  change (@Zmod.zero p168) with (fz 0). rewrite <- fz_eqp. unfold eqp.
  rewrite (Zmod_0_l p168). reflexivity.
Qed.

(** ** Representation predicates *)

(** [c] has limbs below [B] and holds [v]. *)
Definition holds (B : Z) (c : coord) (v : Fp) : Prop := limbs_lt B c /\ fe c = v.

(** [c] comes out of [felem_reduce] and holds [v]. *)
Definition rholds (c : coord) (v : Fp) : Prop := reduced c /\ fe c = v.

(** [w] has coefficients below [B] and holds [v]. *)
Definition wholds (B : Z) (w : wide) (v : Fp) : Prop := wides_lt B w /\ fw w = v.

Lemma rholds_holds c v B : rholds c v -> 2 ^ 56 < B -> holds B c v.
Proof. intros [Hr Hv] HB. split; [now apply reduced_limbs | exact Hv]. Qed.

Lemma holds_weaken A B c v : holds A c v -> A <= B -> holds B c v.
Proof. intros [H Hv] HB. split; [unfold limbs_lt in *; lia | exact Hv]. Qed.

Lemma holds_sum64 A B a b u v :
  holds A a u -> holds B b v -> A + B <= 2 ^ 64 -> holds (A + B) (felem_sum64 a b) (u + v)%Fp.
Proof.
  intros [Ha <-] [Hb <-] H. destruct (felem_sum64_ok a b A B Ha Hb H) as [Hl Hv].
  split; [exact Hl |]. unfold fe. now rewrite Hv, fz_add.
Qed.

Lemma holds_diff64 A a b u v :
  holds A a u -> holds (2 ^ 57) b v -> A + 3 * 2 ^ 56 <= 2 ^ 64 ->
  holds (A + 3 * 2 ^ 56) (felem_diff64 a b) (u - v)%Fp.
Proof.
  intros [Ha <-] [Hb <-] H. destruct (felem_diff64_ok a b A Ha Hb H) as [Hl Hv].
  split; [exact Hl |]. unfold fe. now rewrite Hv, fz_shift, fz_sub.
Qed.

Lemma holds_scalar64 A a u s :
  holds A a u -> 0 < s -> A * s <= 2 ^ 64 -> holds (A * s) (felem_scalar64 a s) (u * fz s)%Fp.
Proof.
  intros [Ha <-] Hs H. destruct (felem_scalar64_ok a A s Ha Hs H) as [Hl Hv].
  split; [exact Hl |]. unfold fe. now rewrite Hv, fz_mul.
Qed.

Lemma wholds_mul A B a b u v :
  holds A a u -> holds B b v -> 4 * (A * B) <= 2 ^ 128 ->
  wholds (4 * (A * B)) (felem_mul a b) (u * v)%Fp.
Proof.
  intros [Ha <-] [Hb <-] H. destruct (felem_mul_ok a b A B Ha Hb H) as [Hl Hv].
  split; [exact Hl |]. unfold fw, fe. now rewrite Hv, fz_mul.
Qed.

Lemma wholds_square A a u :
  holds A a u -> 4 * (A * A) <= 2 ^ 128 -> wholds (4 * (A * A)) (felem_square a) (u * u)%Fp.
Proof.
  intros [Ha <-] H. destruct (felem_square_ok a A Ha H) as [Hl Hv].
  split; [exact Hl |]. unfold fw, fe. now rewrite Hv, fz_mul.
Qed.

Lemma wholds_diff_128_64 A a b u v :
  wholds A a u -> holds (2 ^ 63) b v -> A + 2 ^ 64 <= 2 ^ 128 ->
  wholds (A + 2 ^ 64) (felem_diff_128_64 a b) (u - v)%Fp.
Proof.
  intros [Ha <-] [Hb <-] H. destruct (felem_diff_128_64_ok a b A Ha Hb H) as [Hl Hv].
  split; [exact Hl |]. unfold fw, fe. now rewrite Hv, fz_shift, fz_sub.
Qed.

Lemma wholds_diff128 A a b u v :
  wholds A a u -> wholds (2 ^ 119) b v -> A + 3 * 2 ^ 118 <= 2 ^ 128 ->
  wholds (A + 3 * 2 ^ 118) (felem_diff128 a b) (u - v)%Fp.
Proof.
  intros [Ha <-] [Hb <-] H. destruct (felem_diff128_ok a b A Ha Hb H) as [Hl Hv].
  split; [exact Hl |]. unfold fw. now rewrite Hv, fz_shift, fz_sub.
Qed.

Lemma wholds_scalar128 A a u s :
  wholds A a u -> 0 < s -> A * s <= 2 ^ 128 -> wholds (A * s) (felem_scalar128 a s) (u * fz s)%Fp.
Proof.
  intros [Ha <-] Hs H. destruct (felem_scalar128_ok a A s Ha Hs H) as [Hl Hv].
  split; [exact Hl |]. unfold fw. now rewrite Hv, fz_mul.
Qed.

Lemma wholds_weaken A B w v : wholds A w v -> A <= B -> wholds B w v.
Proof. intros [H Hv] HB. split; [unfold wides_lt in *; lia | exact Hv]. Qed.

Lemma rholds_reduce A w v : wholds A w v -> A <= 2 ^ 126 -> rholds (felem_reduce w) v.
Proof.
  intros H HA. apply (wholds_weaken _ _ _ _ H) in HA as [Hw <-].
  destruct (felem_reduce_ok w Hw) as [Hr Hv]. split; [exact Hr |]. now apply fz_eqp.
Qed.

Lemma rholds_mul A B a b u v :
  holds A a u -> holds B b v -> 4 * (A * B) <= 2 ^ 126 -> rholds (mul_reduce a b) (u * v)%Fp.
Proof. intros Ha Hb H. eapply rholds_reduce; [apply wholds_mul; eauto; lia | lia]. Qed.

Lemma rholds_square A a u :
  holds A a u -> 4 * (A * A) <= 2 ^ 126 -> rholds (square_reduce a) (u * u)%Fp.
Proof. intros Ha H. eapply rholds_reduce; [apply wholds_square; eauto; lia | lia]. Qed.

Lemma rholds_neg c v : holds (2 ^ 57) c v -> rholds (felem_neg c) (- v)%Fp.
Proof.
  intros [Hl <-]. destruct (felem_neg_ok c Hl) as [Hr Hv].
  split; [exact Hr |]. unfold fe. rewrite <- fz_opp. now apply fz_eqp.
Qed.

Lemma rholds_is_zero c v :
  rholds c v -> felem_is_zero c = c_bool (Zmod.eqb v Zmod.zero).
Proof.
  intros [Hr <-]. rewrite felem_is_zero_ok by exact Hr. f_equal.
  apply Bool.eq_iff_eq_true. rewrite Zmod.eqb_eq, Z.eqb_eq. symmetry. apply fz_0_iff.
Qed.

(** ** Inverses and square roots *)

Lemma fz_pow a n : 0 <= n -> fz (a ^ n) = Zmod.pow (fz a) n.
Proof. apply Zmod.of_Z_pow. Qed.

Lemma rholds_inv c v : holds (2 ^ 60) c v -> rholds (felem_inv c) (Zmod.inv v).
Proof.
  intros [Hl <-]. destruct (felem_inv_pow c Hl) as (He & Hr & Hv). split; [exact Hr |].
  apply fz_eqp in Hv. unfold fe. rewrite Hv, fz_pow by exact He.
  destruct (Zmod.eqb_spec (fz (felem c)) Zmod.zero) as [E | E].
  - rewrite E, Zmod.pow_0_l by discriminate. symmetry. apply Zmod.inv_0.
  - apply Zmod.fermat_inv; [exact E | exact prime_p168].
Qed.

Lemma rholds_sqrt c v : holds (2 ^ 60) c v -> rholds (felem_sqrt c) (Zmod.pow v ((p168 + 1) / 4)).
Proof.
  intros [Hl <-]. destruct (felem_sqrt_pow c Hl) as (He & Hr & Hv). split; [exact Hr |].
  apply fz_eqp in Hv. unfold fe. now rewrite Hv, fz_pow.
Qed.

(** p = 3 mod 4: v^((p+1)/4) is a square root of v or of -v. *)
Lemma sqrt_pow_square (v : Fp) :
  let r := Zmod.pow v ((p168 + 1) / 4) in (r * r = v \/ r * r = - v)%Fp.
Proof.
  intros r. unfold r. rewrite <- Zmod.pow_add_r_nonneg by discriminate.
  destruct (Zmod.eqb_spec v Zmod.zero) as [-> | Hv].
  { left. apply Zmod.pow_0_l. discriminate. }
  replace ((p168 + 1) / 4 + (p168 + 1) / 4) with (Z.succ ((p168 - 1) / 2)) by reflexivity.
  rewrite Zmod.pow_succ_nonneg_r by discriminate.
  assert (Zmod.pow (Zmod.pow v ((p168 - 1) / 2)) 2 = Zmod.one) as H.
  { rewrite <- Zmod.pow_mul_r_nonneg by discriminate.
    replace ((p168 - 1) / 2 * 2) with (Z.pred p168) by reflexivity.
    apply Zmod.fermat_nz; [exact Hv | exact prime_p168]. }
  apply Zmod.square_roots_1_prime in H as [-> | ->]; [| | exact prime_p168].
  - left. now rewrite Zmod.mul_1_r.
  - right. apply Zmod.unsigned_inj.
    rewrite Zmod.unsigned_mul, !Zmod.unsigned_opp, Zmod.unsigned_1_pos by discriminate.
    rewrite Zmult_mod_idemp_r. f_equal. lia.
Qed.
