(* ===== verification/Group.v ===== *)
(** * The groups of the curve and of its twist

    The curves y^2 = x^3 - 3x + b over GF(p) of [ptwist168.c]: the group law
    of [Curve] at a = -3, and multiples of points.  Two values of b matter, the
    main curve's and the twist's (its negative); a curve with b^2 <> 4 has no
    singular point, and the laws hold on it. *)
From S2P Require Import Prelude Felem FelemPow Prime168 Curve Fp.
From Stdlib Require Import ZArith Lia Field Zmod.
Open Scope Z_scope.

Add Field Fp_field_inst : Fp_field.

Definition gpoint : Type := @point Fp.

Lemma Feqb_eq (x y : Fp) : Zmod.eqb x y = true <-> x = y.
Proof. apply Zmod.eqb_eq. Qed.

Lemma Feqb_neq (x y : Fp) : Zmod.eqb x y = false <-> x <> y.
Proof. apply (feqb_neq _ Feqb_eq). Qed.

Lemma fz_0 : fz 0 = Zmod.zero.
Proof. reflexivity. Qed.

Lemma fz_1 : fz 1 = Zmod.one.
Proof. reflexivity. Qed.

(** Small scalars of the source in the field. *)
Lemma fz_succ n : fz (Z.succ n) = (Zmod.one + fz n)%Fp.
Proof. rewrite <- fz_1, <- fz_add. f_equal. lia. Qed.

Ltac fz_small :=
  repeat match goal with
  | |- context [fz (Z.pos ?q)] =>
      lazymatch q with
      | xH => rewrite fz_1
      | _ => let n := eval vm_compute in (Z.pred (Z.pos q)) in
             replace (fz (Z.pos q)) with (Zmod.one + fz n)%Fp by (symmetry; exact (fz_succ n))
      end
  end.

Lemma fz_neq_0 n : 0 < n < p168 -> fz n <> Zmod.zero.
Proof. intros H E. apply fz_0_iff in E. rewrite Z.mod_small in E; lia. Qed.

Lemma Fp_two : (Zmod.one + Zmod.one <> Zmod.zero :> Fp)%Fp.
Proof.
  replace (Zmod.one + Zmod.one)%Fp with (fz 2) by (fz_small; reflexivity).
  apply fz_neq_0. split; reflexivity.
Qed.

Lemma Fp_one : (Zmod.one <> Zmod.zero :> Fp)%Fp.
Proof. rewrite <- fz_1. apply fz_neq_0. split; reflexivity. Qed.

Definition curve_a : Fp := (- (Zmod.one + (Zmod.one + Zmod.one)))%Fp.

Definition onc (b : Fp) : gpoint -> Prop := on_curve Zmod.add Zmod.mul curve_a b.

Definition gneg : gpoint -> gpoint := neg Zmod.opp.

Definition gadd : gpoint -> gpoint -> gpoint :=
  padd Zmod.zero Zmod.one Zmod.add Zmod.mul Zmod.sub Zmod.mdiv Zmod.eqb curve_a.

(** [n] times a point. *)
Definition gmul : N -> gpoint -> gpoint :=
  smul Zmod.zero Zmod.one Zmod.add Zmod.mul Zmod.sub Zmod.mdiv Zmod.eqb curve_a.

(** The point of Jacobian coordinates. *)
Definition jac : Fp -> Fp -> Fp -> gpoint := to_affine Zmod.zero Zmod.mul Zmod.mdiv Zmod.eqb.

(** The x-coordinate, the only output of the protocol's key agreement. *)
Definition xcoord (P : gpoint) : option Fp :=
  match P with Inf => None | Aff x _ => Some x end.

Class Nonsingular (b : Fp) : Prop := nonsingular : (b * b <> fz 4)%Fp.

Lemma nonsingular_tangent b {Hb : Nonsingular b} x :
  onc b (Aff x Zmod.zero) ->
  ((Zmod.one + (Zmod.one + Zmod.one)) * x * x + curve_a <> Zmod.zero)%Fp.
Proof.
  unfold onc, curve_a; cbn [on_curve]. intros HC HT. apply Hb.
  assert (x * x = Zmod.one)%Fp as Hx.
  { apply (cancel_l _ _ _ _ _ _ _ _ Fp_field _ Feqb_eq (fz 3)); [apply fz_neq_0; split; reflexivity |].
    apply (sub_0_eq _ _ _ _ _ _ _ _ Fp_field). rewrite <- HT. fz_small. ring. }
  assert (b = (Zmod.one + Zmod.one) * x)%Fp as ->.
  { apply (sub_0_eq _ _ _ _ _ _ _ _ Fp_field).
    transitivity (x * x * x + - (Zmod.one + (Zmod.one + Zmod.one)) * x + b
                  - x * (x * x - Zmod.one))%Fp; [ring |].
    rewrite <- HC, Hx. ring. }
  transitivity ((Zmod.one + Zmod.one) * (Zmod.one + Zmod.one) * (x * x))%Fp; [ring |].
  rewrite Hx. fz_small. ring.
Qed.

Section Laws.
Context (b : Fp).

Lemma gadd_onc P Q : onc b P -> onc b Q -> onc b (gadd P Q).
Proof. apply (padd_on_curve _ _ _ _ _ _ _ _ Fp_field _ Feqb_eq Fp_two). Qed.

Lemma gmul_onc n P : onc b P -> onc b (gmul n P).
Proof. apply (smul_on_curve _ _ _ _ _ _ _ _ Fp_field _ Feqb_eq Fp_two). Qed.

Lemma gadd_comm P Q : onc b P -> onc b Q -> gadd P Q = gadd Q P.
Proof. apply (padd_comm _ _ _ _ _ _ _ _ Fp_field _ Feqb_eq Fp_two). Qed.

Lemma gneg_onc P : onc b P -> onc b (gneg P).
Proof. apply (neg_on_curve _ _ _ _ _ _ _ _ Fp_field). Qed.

Lemma gmul_neg n P : onc b P -> gmul n (gneg P) = gneg (gmul n P).
Proof. apply (smul_neg _ _ _ _ _ _ _ _ Fp_field _ Feqb_eq Fp_two). Qed.

Context {Hb : Nonsingular b}.

Lemma gadd_assoc P Q R :
  onc b P -> onc b Q -> onc b R -> gadd (gadd P Q) R = gadd P (gadd Q R).
Proof.
  apply (padd_assoc _ _ _ _ _ _ _ _ Fp_field _ Feqb_eq Fp_two _ b (nonsingular_tangent b)).
Qed.

Lemma gmul_add m n P : onc b P -> gmul (m + n) P = gadd (gmul m P) (gmul n P).
Proof.
  apply (smul_add _ _ _ _ _ _ _ _ Fp_field _ Feqb_eq Fp_two _ b (nonsingular_tangent b)).
Qed.

Lemma gmul_mul m n P : onc b P -> gmul (m * n) P = gmul m (gmul n P).
Proof.
  apply (smul_mul _ _ _ _ _ _ _ _ Fp_field _ Feqb_eq Fp_two _ b (nonsingular_tangent b)).
Qed.

Lemma gmul_comm m n P : onc b P -> gmul m (gmul n P) = gmul n (gmul m P).
Proof.
  apply (smul_comm _ _ _ _ _ _ _ _ Fp_field _ Feqb_eq Fp_two _ b (nonsingular_tangent b)).
Qed.

Lemma gmul_double n P : onc b P -> gmul (2 * n) P = gadd (gmul n P) (gmul n P).
Proof. intros H. replace (2 * n)%N with (n + n)%N by lia. now apply gmul_add. Qed.
End Laws.

Lemma gmul_1 P : gmul 1 P = P.
Proof. apply smul_1. Qed.

Lemma gmul_succ n P : gmul (N.succ n) P = gadd P (gmul n P).
Proof. apply smul_succ. Qed.

Lemma gmul_0 P : gmul 0 P = Inf.
Proof. reflexivity. Qed.

Lemma gadd_0_r P : gadd P Inf = P.
Proof. apply padd_0_r. Qed.

Lemma gadd_0_l P : gadd Inf P = P.
Proof. reflexivity. Qed.

(** Points with the same x-coordinate have multiples with the same x-coordinate. *)
Lemma same_xcoord b P Q :
  onc b P -> onc b Q -> xcoord P = xcoord Q -> P = Q \/ P = gneg Q.
Proof.
  destruct P as [| x y], Q as [| x' y']; cbn [xcoord]; try discriminate; [now left |].
  intros HP HQ [= <-].
  destruct (same_x _ _ _ _ _ _ _ _ Fp_field _ Feqb_eq curve_a b x y y' HP HQ) as [-> | E].
  - now left.
  - right. unfold gneg. cbn [neg]. f_equal.
    replace y with (y + y' - y')%Fp by ring. rewrite E. ring.
Qed.

Lemma gmul_xcoord b n P Q :
  onc b P -> onc b Q -> xcoord P = xcoord Q -> xcoord (gmul n P) = xcoord (gmul n Q).
Proof.
  intros HP HQ H. destruct (same_xcoord b P Q HP HQ H) as [-> | ->]; [reflexivity |].
  rewrite (gmul_neg b) by exact HQ. now destruct (gmul n Q).
Qed.
