(* ===== verification/PtPoint.v ===== *)
(** * Point operations of the 168-bit curve

    The Jacobian point arithmetic of [ptwist168.c]: conditional copy, doubling,
    addition, conversion to affine coordinates and windowed multiplication, and
    their refinement of the group law of [Group]. *)
From S2P Require Import Prelude Felem FelemPow Prime168 Curve Fp Group.
From Stdlib Require Import ZArith Lia List Field Zmod.
Import ListNotations.
Open Scope Z_scope.

(** ** The operations *)

(** [typedef coord point[3]]: X, Y and Z. *)
Record jpoint := JPoint { px : coord; py : coord; pz : coord }.

Definition coord0 : coord := Coord 0 0 0.
Definition coord1 : coord := Coord 1 0 0.

(** One word of [copy_conditional]; [copy] is all-zero or all-one. *)
Definition copy_word (copy out i : Z) : Z := Z.lxor out (Z.land copy (Z.lxor i out)).

(** [copy_conditional(out, in, 3, icopy)]: the new contents of [out]. *)
Definition copy_conditional (out i : coord) (icopy : Z) : coord :=
  let copy := w_neg 64 icopy in
  Coord (copy_word copy (l0 out) (l0 i)) (copy_word copy (l1 out) (l1 i))
        (copy_word copy (l2 out) (l2 i)).

(** [point_double].  Each output is written after the last read of the input it
    may alias, so a call in place computes the same function. *)
Definition point_double (p : jpoint) : jpoint :=
  let x_in := px p in let y_in := py p in let z_in := pz p in
  let ftmp := x_in in
  let ftmp2 := x_in in
  let tmp := felem_square z_in in
  let delta := felem_reduce tmp in
  let tmp := felem_square y_in in
  let gamma := felem_reduce tmp in
  let tmp := felem_mul x_in gamma in
  let beta := felem_reduce tmp in
  let ftmp := felem_diff64 ftmp delta in
  let ftmp2 := felem_sum64 ftmp2 delta in
  let ftmp2 := felem_scalar64 ftmp2 3 in
  let tmp := felem_mul ftmp ftmp2 in
  let alpha := felem_reduce tmp in
  let tmp := felem_square alpha in
  let ftmp := beta in
  let ftmp := felem_scalar64 ftmp 8 in
  let tmp := felem_diff_128_64 tmp ftmp in
  let x_out := felem_reduce tmp in
  let delta := felem_sum64 delta gamma in
  let ftmp := y_in in
  let ftmp := felem_sum64 ftmp z_in in
  let tmp := felem_square ftmp in
  let tmp := felem_diff_128_64 tmp delta in
  let z_out := felem_reduce tmp in
  let beta := felem_scalar64 beta 4 in
  let beta := felem_diff64 beta x_out in
  let tmp := felem_mul alpha beta in
  let tmp2 := felem_square gamma in
  let tmp2 := felem_scalar128 tmp2 8 in
  let tmp := felem_diff128 tmp tmp2 in
  let y_out := felem_reduce tmp in
  JPoint x_out y_out z_out.

(** [point_add].  [alias] says that the output arrays are those of the first
    point: the copies of point 1 over the result, made when point 2 is at
    infinity, then copy an array onto itself. *)
Definition point_add (alias : bool) (p1 p2 : jpoint) : jpoint :=
  let x1 := px p1 in let y1 := py p1 in let z1 := pz p1 in
  let x2 := px p2 in let y2 := py p2 in let z2 := pz p2 in
  let tmp := felem_square z1 in
  let ftmp := felem_reduce tmp in
  let tmp := felem_square z2 in
  let ftmp2 := felem_reduce tmp in
  let tmp := felem_mul ftmp z1 in
  let ftmp3 := felem_reduce tmp in
  let tmp := felem_mul ftmp2 z2 in
  let ftmp4 := felem_reduce tmp in
  let tmp := felem_mul ftmp3 y2 in
  let tmp2 := felem_mul ftmp4 y1 in
  let ftmp4 := felem_reduce tmp2 in
  let tmp := felem_diff_128_64 tmp ftmp4 in
  let ftmp3 := felem_reduce tmp in
  let tmp := felem_mul ftmp x2 in
  let tmp2 := felem_mul ftmp2 x1 in
  let ftmp2 := felem_reduce tmp2 in
  let tmp := felem_diff128 tmp tmp2 in
  let ftmp := felem_reduce tmp in
  let x_equal := felem_is_zero ftmp in
  let y_equal := felem_is_zero ftmp3 in
  let z1_is_zero := felem_is_zero z1 in
  let z2_is_zero := felem_is_zero z2 in
  if (negb (x_equal =? 0) && negb (y_equal =? 0) && (z1_is_zero =? 0) && (z2_is_zero =? 0))%bool
  then point_double p1
  else
  let tmp := felem_mul z1 z2 in
  let ftmp5 := felem_reduce tmp in
  let tmp := felem_mul ftmp ftmp5 in
  let z3 := felem_reduce tmp in
  let ftmp5 := ftmp in
  let tmp := felem_square ftmp in
  let ftmp := felem_reduce tmp in
  let tmp := felem_mul ftmp ftmp5 in
  let ftmp5 := felem_reduce tmp in
  let tmp := felem_mul ftmp2 ftmp in
  let ftmp2 := felem_reduce tmp in
  let tmp := felem_mul ftmp4 ftmp5 in
  let tmp2 := felem_square ftmp3 in
  let tmp2 := felem_diff_128_64 tmp2 ftmp5 in
  let ftmp5 := ftmp2 in
  let ftmp5 := felem_scalar64 ftmp5 2 in
  let tmp2 := felem_diff_128_64 tmp2 ftmp5 in
  let x3 := felem_reduce tmp2 in
  let ftmp2 := felem_diff64 ftmp2 x3 in
  let tmp2 := felem_mul ftmp3 ftmp2 in
  let tmp2 := felem_diff128 tmp2 tmp in
  let y3 := felem_reduce tmp2 in
  let x3 := copy_conditional x3 x2 z1_is_zero in
  let x3 := copy_conditional x3 (if alias then x3 else x1) z2_is_zero in
  let y3 := copy_conditional y3 y2 z1_is_zero in
  let y3 := copy_conditional y3 (if alias then y3 else y1) z2_is_zero in
  let z3 := copy_conditional z3 z2 z1_is_zero in
  let z3 := copy_conditional z3 (if alias then z3 else z1) z2_is_zero in
  JPoint x3 y3 z3.

(** [affine], in place. *)
Definition affine (p : jpoint) : jpoint :=
  if negb (felem_is_zero (pz p) =? 0) then p else
  let z2 := felem_inv (pz p) in
  let z1 := square_reduce z2 in
  let xin := mul_reduce (px p) z1 in
  let x := felem_contract xin in
  let z1 := mul_reduce z1 z2 in
  let yin := mul_reduce (py p) z1 in
  let y := felem_contract yin in
  JPoint x y coord1.

(** [affine_x(out, P)]: the new contents of [out], which it leaves alone when
    [P] is at infinity. *)
Definition affine_x (out : coord) (p : jpoint) : coord :=
  if negb (felem_is_zero (pz p) =? 0) then out else
  let z2 := felem_inv (pz p) in
  let z1 := square_reduce z2 in
  let xin := mul_reduce (px p) z1 in
  felem_contract xin.

Definition infinity : jpoint := JPoint coord0 coord0 coord0.

(** The window table: [table[0]] is all zeros, [table[1]] the input; the loop
    [for(i=2; i<16; i+=2)] sets entries i and i+1.  [rounds] is its trip count. *)
Fixpoint table_loop (inp : jpoint) (rounds : nat) (i : nat) (table : list jpoint) : list jpoint :=
  match rounds with
  | O => table
  | S r =>
      let d := point_double (nth (i / 2) table infinity) in
      let e := point_add false d inp in
      table_loop inp r (i + 2) (table ++ [d; e])
  end.

Definition mul_table (inp : jpoint) : list jpoint :=
  table_loop inp 7 2 [infinity; inp].

(** Half of the loop body: four doublings, then the table entry of a nybble
    unless it is zero. *)
Definition window (table : list jpoint) (tmp : jpoint) (o : Z) : jpoint :=
  let tmp := point_double tmp in
  let tmp := point_double tmp in
  let tmp := point_double tmp in
  let tmp := point_double tmp in
  if negb (o =? 0) then point_add true tmp (nth (Z.to_nat o) table infinity) else tmp.

(** [for(i=0;i<21;i++)] over s[20], s[19], ..., s[0]; [n] iterations are left. *)
Fixpoint mul_loop (table : list jpoint) (s : list Z) (n : nat) (tmp : jpoint) : jpoint :=
  match n with
  | O => tmp
  | S m =>
      let si := nth m s 0 in
      let oh := Z.shiftr si 4 in
      let ol := Z.land si 15 in
      mul_loop table s m (window table (window table tmp oh) ol)
  end.

(** [point_mul(out, in, s)]. *)
Definition point_mul (inp : jpoint) (s : list Z) : jpoint :=
  mul_loop (mul_table inp) s 21 infinity.

(** ** Following straight-line field code

    [follow] takes the assignments of a goal one by one and replaces each value
    by its limb bound and the field element it holds. *)

Create HintDb follow discriminated.

Lemma rholds_57 c v : rholds c v -> holds (2 ^ 57) c v.
Proof. intros H. apply (rholds_holds _ _ _ H). lia. Qed.

#[export] Hint Resolve rholds_57 holds_sum64 holds_diff64 holds_scalar64 wholds_mul wholds_square
  wholds_diff_128_64 wholds_diff128 wholds_scalar128 : follow.
#[export] Hint Extern 1 (rholds (felem_reduce _) _) => eapply rholds_reduce : follow.
#[export] Hint Extern 1 (wholds _ ?w _) => is_var w; eassumption : follow.
#[export] Hint Extern 1 (rholds ?c _) => is_var c; eassumption : follow.
#[export] Hint Extern 0 (holds _ ?c _) => is_var c; eassumption : follow.
#[export] Hint Extern 2 (holds (2 ^ _) ?c _) =>
  is_var c; eapply holds_weaken; [eassumption | lia] : follow.
#[export] Hint Extern 2 (holds (2 ^ _) ?c _) =>
  is_var c; eapply rholds_holds; [eassumption | lia] : follow.
#[export] Hint Extern 2 (wholds (2 ^ _) ?c _) =>
  is_var c; eapply wholds_weaken; [eassumption | lia] : follow.
#[export] Hint Extern 1 (felem_is_zero _ = _) => eapply rholds_is_zero : follow.
#[export] Hint Extern 1 (_ <= _) => lia : follow.
#[export] Hint Extern 1 (_ < _) => lia : follow.

Ltac fact_of v :=
  lazymatch v with
  | felem_reduce _ => constr:(fun c u => rholds c u)
  | felem_is_zero _ => constr:(fun (c : Z) u => c = u)
  | copy_conditional _ _ _ => fail
  | _ => lazymatch type of v with
         | wide => open_constr:(fun c u => wholds _ c u)
         | coord => open_constr:(fun c u => holds _ c u)
         end
  end.

Ltac follow1 :=
  lazymatch goal with
  | |- ?G (let x := ?v in @?f x) ?Q =>
      let y := fresh x in
      tryif (is_var v) then
        (let t := eval cbv beta in (f v) in change (G t Q))
      else
        (let P := fact_of v in
         let H := fresh "H" y in
         eassert (P v _) as H by (cbv beta; eauto 4 with follow nocore); cbv beta in H;
         pose (y := v); change v with y in H;
         let t := eval cbv beta in (f y) in
         change (G t Q); clearbody y)
  end.

(** The three coordinates are reduced. *)
Definition jreduced (p : jpoint) : Prop := reduced (px p) /\ reduced (py p) /\ reduced (pz p).

(** The point that reduced coordinates stand for. *)
Definition jval (p : jpoint) : gpoint := jac (fe (px p)) (fe (py p)) (fe (pz p)).

Definition jholds (p : jpoint) (P : gpoint) : Prop := jreduced p /\ jval p = P.

Lemma jholds_intro x y z u v w :
  rholds x u -> rholds y v -> rholds z w -> jholds (JPoint x y z) (jac u v w).
Proof. intros [Hx <-] [Hy <-] [Hz <-]. now split. Qed.

Lemma jholds_eq p P Q : jholds p P -> P = Q -> jholds p Q.
Proof. now intros ? <-. Qed.

Lemma rholds_self c : reduced c -> rholds c (fe c).
Proof. now split. Qed.

Lemma point_double_jholds p :
  jreduced p -> jholds (point_double p) (gadd (jval p) (jval p)).
Proof.
  intros (Hx & Hy & Hz). destruct p as [x y z]. cbn [px py pz] in *.
  apply rholds_self in Hx, Hy, Hz. unfold jval. cbn [px py pz].
  set (X := fe x) in *. set (Y := fe y) in *. set (Z := fe z) in *. clearbody X Y Z.
  cbv beta iota delta [point_double px py pz].
  repeat follow1.
  eapply jholds_eq; [eapply jholds_intro; eassumption |].
  eapply (jacobian_double _ _ _ _ _ _ _ _ Fp_field _ Feqb_eq Fp_two); fz_small; ring.
Qed.

Lemma copy_word_ok b out i :
  in_width 64 out -> in_width 64 i ->
  copy_word (w_neg 64 (c_bool b)) out i = if b then i else out.
Proof.
  intros Ho Hi. unfold copy_word. destruct b; cbn [c_bool].
  - change (w_neg 64 1) with (2 ^ 64 - 1). rewrite Z.land_comm, land_mask by lia.
    rewrite Z.mod_small; [now rewrite Z.lxor_comm, Z.lxor_assoc, Z.lxor_nilpotent, Z.lxor_0_r |].
    unfold in_width in *. split; [apply Z.lxor_nonneg; lia |].
    destruct (Z.eq_dec (Z.lxor i out) 0) as [-> | Hn]; [reflexivity |].
    apply Z.log2_lt_cancel. rewrite Z.log2_pow2 by lia.
    eapply Z.le_lt_trans; [apply Z.log2_lxor; lia |].
    apply Z.max_lub_lt; [destruct (Z.eq_dec i 0) as [-> | ?] | destruct (Z.eq_dec out 0) as [-> | ?]];
      try reflexivity; apply Z.log2_lt_pow2; lia.
  - change (w_neg 64 0) with 0. rewrite Z.land_0_l. apply Z.lxor_0_r.
Qed.

Lemma copy_conditional_ok b out i :
  reduced out -> reduced i -> copy_conditional out i (c_bool b) = if b then i else out.
Proof.
  intros Ho Hi. unfold copy_conditional. rewrite !copy_word_ok;
    [destruct out, i, b; reflexivity | ..]; unfold reduced, in_width in *; lia.
Qed.

Lemma c_bool_0 b : (c_bool b =? 0) = negb b.
Proof. now destruct b. Qed.

(** The inputs of an addition at infinity are told apart by their Z. *)
Lemma jac_inf x y z : jac x y z = Inf <-> z = Zmod.zero.
Proof.
  unfold jac, to_affine. destruct (Zmod.eqb z Zmod.zero) eqn:E.
  - rewrite Zmod.eqb_eq in E. now rewrite E.
  - split; [discriminate |]. intros ->. rewrite Zmod.eqb_refl in E. discriminate.
Qed.

(** Equal points: both differences of the cross products vanish. *)
Lemma jac_equal (x1 y1 z1 x2 y2 z2 : Fp) :
  z1 <> Zmod.zero -> z2 <> Zmod.zero ->
  (z1 * z1 * x2 - z2 * z2 * x1 = Zmod.zero)%Fp ->
  (z1 * z1 * z1 * y2 - z2 * z2 * z2 * y1 = Zmod.zero)%Fp ->
  jac x1 y1 z1 = jac x2 y2 z2.
Proof.
  intros H1 H2 Hx Hy. unfold jac.
  rewrite !(to_affine_nz Zmod.zero Zmod.mul Zmod.mdiv Zmod.eqb Feqb_eq) by assumption.
  f_equal.
  - transitivity (x2 / (z2 * z2) - (z1 * z1 * x2 - z2 * z2 * x1) / (z1 * z1 * (z2 * z2)))%Fp;
      [field | rewrite Hx; field]; auto.
  - transitivity (y2 / (z2 * z2 * z2)
      - (z1 * z1 * z1 * y2 - z2 * z2 * z2 * y1) / (z1 * z1 * z1 * (z2 * z2 * z2)))%Fp;
      [field | rewrite Hy; field]; auto.
Qed.

(** The conditional copies at the end of [point_add]. *)
Definition add_copies (alias : bool) (p1 p2 p3 : jpoint) (z1_is_zero z2_is_zero : Z) : jpoint :=
  let x3 := copy_conditional (px p3) (px p2) z1_is_zero in
  let y3 := copy_conditional (py p3) (py p2) z1_is_zero in
  let z3 := copy_conditional (pz p3) (pz p2) z1_is_zero in
  JPoint (copy_conditional x3 (if alias then x3 else px p1) z2_is_zero)
         (copy_conditional y3 (if alias then y3 else py p1) z2_is_zero)
         (copy_conditional z3 (if alias then z3 else pz p1) z2_is_zero).

Lemma copy_point_ok b p q :
  jreduced p -> jreduced q ->
  JPoint (copy_conditional (px p) (px q) (c_bool b)) (copy_conditional (py p) (py q) (c_bool b))
         (copy_conditional (pz p) (pz q) (c_bool b)) = if b then q else p.
Proof.
  intros (? & ? & ?) (? & ? & ?). rewrite !copy_conditional_ok by assumption. now destruct b, p, q.
Qed.

Lemma add_copies_ok alias p1 p2 p3 b1 b2 :
  jreduced p1 -> jreduced p2 -> jreduced p3 ->
  add_copies alias p1 p2 p3 (c_bool b1) (c_bool b2) =
    if (b2 && negb alias)%bool then p1 else if b1 then p2 else p3.
Proof.
  intros H1 H2 H3. unfold add_copies. cbv zeta. pose proof (copy_point_ok b1 p3 p2 H3 H2) as E.
  set (q := if b1 then p2 else p3) in *.
  assert (jreduced q) as Hq by (unfold q; now destruct b1).
  assert (copy_conditional (px p3) (px p2) (c_bool b1) = px q) as -> by now rewrite <- E.
  assert (copy_conditional (py p3) (py p2) (c_bool b1) = py q) as -> by now rewrite <- E.
  assert (copy_conditional (pz p3) (pz p2) (c_bool b1) = pz q) as -> by now rewrite <- E.
  destruct alias.
  - rewrite Bool.andb_false_r. rewrite copy_point_ok by assumption. now destruct b2.
  - rewrite Bool.andb_true_r. now rewrite copy_point_ok.
Qed.

Lemma point_add_jholds b alias p1 p2 :
  jreduced p1 -> jreduced p2 -> onc b (jval p1) -> onc b (jval p2) ->
  (alias = true -> jval p2 <> Inf) ->
  jholds (point_add alias p1 p2) (gadd (jval p1) (jval p2)).
Proof.
  intros R1 R2 C1 C2 Hal.
  pose proof (point_double_jholds p1 R1) as HD.
  destruct R1 as (Hx1 & Hy1 & Hz1), R2 as (Hx2 & Hy2 & Hz2).
  destruct p1 as [x1 y1 z1], p2 as [x2 y2 z2]. cbn [px py pz] in *.
  apply rholds_self in Hx1, Hy1, Hz1, Hx2, Hy2, Hz2. unfold jval in *. cbn [px py pz] in *.
  set (X1 := fe x1) in *. set (Y1 := fe y1) in *. set (Z1 := fe z1) in *.
  set (X2 := fe x2) in *. set (Y2 := fe y2) in *. set (Z2 := fe z2) in *.
  clearbody X1 Y1 Z1 X2 Y2 Z2.
  cbv beta iota delta [point_add px py pz].
  repeat follow1.
  remember (Z1 * Z1 * X2 - Z2 * Z2 * X1)%Fp as h eqn:Eh.
  remember (Z1 * Z1 * Z1 * Y2 - Z2 * Z2 * Z2 * Y1)%Fp as r eqn:Er.
  subst x_equal y_equal z1_is_zero z2_is_zero.
  rewrite !c_bool_0, !Bool.negb_involutive.
  match goal with |- context [if ?c then _ else _] => destruct c eqn:Ec end.
  - rewrite !Bool.andb_true_iff, !Bool.negb_true_iff, !Zmod.eqb_eq, !Feqb_neq in Ec.
    destruct Ec as [[[E1 E2] E3] E4].
    rewrite <- (jac_equal X1 Y1 Z1 X2 Y2 Z2) by congruence. exact HD.
  - repeat follow1.
    change (jholds (add_copies alias (JPoint x1 y1 z1) (JPoint x2 y2 z2) (JPoint x3 y3 z3)
                     (c_bool (Zmod.eqb Z1 Zmod.zero)) (c_bool (Zmod.eqb Z2 Zmod.zero)))
                   (gadd (jac X1 Y1 Z1) (jac X2 Y2 Z2))).
    rewrite add_copies_ok by (repeat split; cbn [px py pz]; solve [apply Hx1 | apply Hy1 | apply Hz1
      | apply Hx2 | apply Hy2 | apply Hz2 | apply Hx3 | apply Hy3 | apply Hz3]).
    rewrite jac_inf in Hal.
    destruct (Zmod.eqb_spec Z2 Zmod.zero) as [E2 | E2]; [destruct alias; [now destruct Hal |] |].
    + cbn [andb negb]. rewrite (proj2 (jac_inf X2 Y2 Z2) E2), gadd_0_r. now apply jholds_intro.
    + cbn [andb]. destruct (Zmod.eqb_spec Z1 Zmod.zero) as [E1 | E1].
      * rewrite (proj2 (jac_inf X1 Y1 Z1) E1), gadd_0_l. now apply jholds_intro.
      * eapply jholds_eq; [eapply jholds_intro; eassumption |].
        eapply (jacobian_add _ _ _ _ _ _ _ _ Fp_field _ Feqb_eq); try eassumption.
        all: rewrite <- Eh, <- ?Er; try (fz_small; ring).
        intros [H0 H1]. rewrite (proj2 (Feqb_eq _ _) H0), (proj2 (Feqb_eq _ _) H1) in Ec.
        discriminate.
Qed.

(** In place, an addition of the point at infinity loses the first point. *)
Lemma point_add_in_place_inf p1 p2 :
  jreduced p1 -> jreduced p2 -> jval p2 = Inf -> jval (point_add true p1 p2) = Inf.
Proof.
  intros (Hx1 & Hy1 & Hz1) (Hx2 & Hy2 & Hz2) Hinf.
  destruct p1 as [x1 y1 z1], p2 as [x2 y2 z2]. cbn [px py pz] in *.
  apply rholds_self in Hx1, Hy1, Hz1, Hx2, Hy2, Hz2. unfold jval in Hinf. cbn [px py pz] in Hinf.
  apply jac_inf in Hinf. rewrite Hinf in Hz2.
  set (X1 := fe x1) in *. set (Y1 := fe y1) in *. set (Z1 := fe z1) in *.
  set (X2 := fe x2) in *. set (Y2 := fe y2) in *.
  enough (jholds (point_add true (JPoint x1 y1 z1) (JPoint x2 y2 z2)) Inf) as H by apply H.
  cbv beta iota delta [point_add px py pz].
  repeat follow1. subst x_equal y_equal z1_is_zero z2_is_zero.
  rewrite Zmod.eqb_refl. rewrite (c_bool_0 true), Bool.andb_false_r. repeat follow1.
  change (jholds (add_copies true (JPoint x1 y1 z1) (JPoint x2 y2 z2) (JPoint x3 y3 z3)
                   (c_bool (Zmod.eqb Z1 Zmod.zero)) (c_bool true)) Inf).
  rewrite add_copies_ok by (repeat split; cbn [px py pz]; solve [apply Hx1 | apply Hy1 | apply Hz1
    | apply Hx2 | apply Hy2 | apply Hz2 | apply Hx3 | apply Hy3 | apply Hz3]).
  cbn [andb negb]. destruct (Zmod.eqb Z1 Zmod.zero);
    (eapply jholds_eq; [eapply jholds_intro; eassumption | apply jac_inf; ring]).
Qed.
