(* ===== verification/PtMul.v ===== *)
(** * Affine conversion and point multiplication of the 168-bit curve

    [affine] and [affine_x] normalise a point without changing it, and
    [point_mul] multiplies a point by a 21-byte little-endian scalar. *)
From S2P Require Import Prelude Bytes Felem FelemPow Prime168 Curve Fp Group PtPoint.
From Stdlib Require Import ZArith Lia List Field Zmod.
Import ListNotations.
Open Scope Z_scope.

(** ** Affine coordinates *)

Lemma rholds_60 c v : rholds c v -> holds (2 ^ 60) c v.
Proof. intros H. apply (rholds_holds _ _ _ H). lia. Qed.

Lemma rholds_mul_r a b u v : rholds a u -> rholds b v -> rholds (mul_reduce a b) (u * v)%Fp.
Proof.
  intros Ha%rholds_57 Hb%rholds_57. exact (rholds_mul _ _ _ _ _ _ Ha Hb ltac:(lia)).
Qed.

Lemma rholds_square_r a u : rholds a u -> rholds (square_reduce a) (u * u)%Fp.
Proof. intros Ha%rholds_57. exact (rholds_square _ _ _ Ha ltac:(lia)). Qed.

Lemma rholds_inv_r a u : rholds a u -> rholds (felem_inv a) (Zmod.inv u).
Proof. intros Ha%rholds_60. now apply rholds_inv. Qed.

Lemma contract_holds c v : rholds c v -> minimal (felem_contract c) /\ fe (felem_contract c) = v.
Proof.
  intros [Hr <-]. destruct (felem_contract_ok c Hr) as [Hm Hv]. split; [exact Hm |].
  now apply fz_eqp.
Qed.

Lemma minimal_reduced c : minimal c -> reduced c.
Proof. unfold minimal, reduced. lia. Qed.

Lemma coord1_holds : rholds coord1 Zmod.one.
Proof. split; [repeat split; discriminate || reflexivity | reflexivity]. Qed.

Lemma is_zero_jval p : jreduced p -> negb (felem_is_zero (pz p) =? 0) = true <-> jval p = Inf.
Proof.
  intros (_ & _ & Hz). unfold jval. rewrite jac_inf, (rholds_is_zero _ _ (rholds_self _ Hz)).
  rewrite c_bool_0, Bool.negb_involutive. apply Zmod.eqb_eq.
Qed.

Lemma jval_aff p x y :
  jval p = Aff x y ->
  let zi := Zmod.inv (fe (pz p)) in
  x = (fe (px p) * (zi * zi))%Fp /\ y = (fe (py p) * (zi * zi * zi))%Fp.
Proof.
  intros H zi. unfold jval in H.
  assert (fe (pz p) <> Zmod.zero) as Hz by (intros E; eapply jac_inf in E; rewrite E in H; discriminate).
  unfold jac in H. rewrite (to_affine_nz _ _ _ _ Feqb_eq) in H by exact Hz.
  injection H as <- <-. unfold zi. split; field; exact Hz.
Qed.

Lemma affine_x_aff out p x y :
  jreduced p -> jval p = Aff x y -> minimal (affine_x out p) /\ fe (affine_x out p) = x.
Proof.
  intros Hp H. pose proof (is_zero_jval p Hp) as Hz. unfold affine_x.
  destruct (negb _); [rewrite H in Hz; now discriminate (proj1 Hz eq_refl) |].
  destruct (jval_aff p x y H) as [-> _]. destruct Hp as (Hx & Hy & Hpz).
  apply contract_holds.
  auto using rholds_mul_r, rholds_square_r, rholds_inv_r, rholds_self.
Qed.

Lemma affine_x_inf out p : jreduced p -> jval p = Inf -> affine_x out p = out.
Proof. intros Hp H. unfold affine_x. now rewrite (proj2 (is_zero_jval p Hp) H). Qed.

Lemma affine_inf p : jreduced p -> jval p = Inf -> affine p = p.
Proof. intros Hp H. unfold affine. now rewrite (proj2 (is_zero_jval p Hp) H). Qed.

Lemma jval_1 x y : jval (JPoint x y coord1) = Aff (fe x) (fe y).
Proof. apply (to_affine_1 _ _ _ _ _ _ _ _ Fp_field _ Feqb_eq). exact Fp_one. Qed.

Lemma affine_aff p x y :
  jreduced p -> jval p = Aff x y ->
  exists cx cy, affine p = JPoint cx cy coord1 /\
    minimal cx /\ minimal cy /\ fe cx = x /\ fe cy = y.
Proof.
  intros Hp H. pose proof (is_zero_jval p Hp) as Hz. unfold affine.
  destruct (negb _); [rewrite H in Hz; now discriminate (proj1 Hz eq_refl) |].
  destruct (jval_aff p x y H) as [-> ->]. destruct Hp as (Hx & Hy & Hpz).
  eexists _, _. split; [reflexivity |].
  match goal with |- minimal (felem_contract ?a) /\ minimal (felem_contract ?c) /\ _ =>
    destruct (contract_holds a (fe (px p) * (Zmod.inv (fe (pz p)) * Zmod.inv (fe (pz p))))%Fp)
      as [? ?]; [| destruct (contract_holds c (fe (py p) * (Zmod.inv (fe (pz p))
        * Zmod.inv (fe (pz p)) * Zmod.inv (fe (pz p))))%Fp) as [? ?]; [| auto]]
  end; auto 10 using rholds_mul_r, rholds_square_r, rholds_inv_r, rholds_self.
Qed.

(** ** Multiplication *)

Section Mul.
Context (b : Fp) {Hb : Nonsingular b} (inp : jpoint) (P : gpoint).
Context (Hin : jholds inp P) (HP : onc b P).

Abbreviation mult n := (gmul (Z.to_N n) P).

Lemma jholds_double p n : jholds p (mult n) -> 0 <= n -> jholds (point_double p) (mult (2 * n)).
Proof using Hb HP.
  intros [Hr Hv] Hn. replace (Z.to_N (2 * n)) with (2 * Z.to_N n)%N by lia.
  rewrite (gmul_double b), <- Hv by exact HP. now apply point_double_jholds.
Qed.

Lemma jholds_add alias p q m n :
  jholds p (mult m) -> jholds q (mult n) -> (alias = true -> mult n <> Inf) ->
  0 <= m -> 0 <= n -> jholds (point_add alias p q) (mult (m + n)).
Proof using Hb HP.
  intros [Rp Vp] [Rq Vq] Ha Hm Hn. replace (Z.to_N (m + n)) with (Z.to_N m + Z.to_N n)%N by lia.
  rewrite (gmul_add b), <- Vp, <- Vq by exact HP.
  apply (point_add_jholds b); auto; rewrite ?Vp, ?Vq; auto using gmul_onc.
Qed.

Lemma infinity_holds : jholds infinity (mult 0).
Proof using Type.
  split; [repeat split; discriminate || reflexivity |]. apply jac_inf. reflexivity.
Qed.

Definition table_ok (table : list jpoint) : Prop :=
  forall k, (k < length table)%nat -> jholds (nth k table infinity) (mult (Z.of_nat k)).

Lemma table_loop_ok r k table :
  length table = (2 * k)%nat -> (1 <= k)%nat -> table_ok table ->
  table_ok (table_loop inp r (2 * k) table) /\
  length (table_loop inp r (2 * k) table) = (2 * k + 2 * r)%nat.
Proof using Hb HP Hin.
  revert k table. induction r as [| r IH]; intros k table Hl Hk Ht; [cbn; split; [exact Ht | lia] |].
  cbn [table_loop]. cbv zeta.
  replace (2 * k + 2)%nat with (2 * (k + 1))%nat by lia.
  replace (2 * k / 2)%nat with k by (rewrite Nat.mul_comm; symmetry; now apply Nat.div_mul).
  set (d := point_double _).
  assert (jholds d (mult (Z.of_nat (2 * k)))) as Hd.
  { rewrite Nat2Z.inj_mul. apply jholds_double; [apply Ht; lia | lia]. }
  assert (jholds (point_add false d inp) (mult (Z.of_nat (2 * k + 1)))) as He.
  { rewrite Nat2Z.inj_add. apply jholds_add; auto; try lia; try discriminate.
    change (Z.to_N (Z.of_nat 1)) with 1%N. rewrite gmul_1. exact Hin. }
  destruct (IH (k + 1)%nat (table ++ [d; point_add false d inp])) as [HA HB].
  - rewrite length_app. cbn [length]. lia.
  - lia.
  - intros j Hj. rewrite length_app in Hj. cbn [length] in Hj.
    destruct (Nat.lt_ge_cases j (length table)) as [Hlt | Hge].
    + rewrite app_nth1 by exact Hlt. now apply Ht.
    + rewrite app_nth2 by exact Hge.
      assert (j = 2 * k \/ j = 2 * k + 1)%nat as [-> | ->] by lia.
      * replace (2 * k - length table)%nat with 0%nat by lia. exact Hd.
      * replace (2 * k + 1 - length table)%nat with 1%nat by lia. exact He.
  - split; [exact HA | rewrite HB; lia].
Qed.

Lemma mul_table_ok k : (k < 16)%nat -> jholds (nth k (mul_table inp) infinity) (mult (Z.of_nat k)).
Proof using Hb HP Hin.
  intros Hk. destruct (table_loop_ok 7 1 [infinity; inp]) as [H L]; [reflexivity | lia | |].
  - intros [| [| j]] Hj; cbn [nth]; [apply infinity_holds | | cbn in Hj; lia].
    change (Z.to_N (Z.of_nat 1)) with 1%N. rewrite gmul_1. exact Hin.
  - apply H. rewrite L. exact Hk.
Qed.

(** No entry of the window table but the first is the point at infinity. *)
Context (Horder : forall k, 1 <= k <= 15 -> mult k <> Inf).

Lemma window_ok tmp n o :
  jholds tmp (mult n) -> 0 <= n -> 0 <= o < 16 ->
  jholds (window (mul_table inp) tmp o) (mult (16 * n + o)).
Proof using Hb HP Hin Horder.
  intros Ht Hn Ho. unfold window. cbv zeta.
  assert (jholds (point_double (point_double (point_double (point_double tmp)))) (mult (16 * n)))
    as Hd.
  { replace (16 * n) with (2 * (2 * (2 * (2 * n)))) by lia. repeat (apply jholds_double; try lia).
    exact Ht. }
  destruct (Z.eqb_spec o 0) as [-> | Hne]; cbn [negb].
  - now rewrite Z.add_0_r.
  - pose proof (mul_table_ok (Z.to_nat o) ltac:(lia)) as Hk. rewrite Z2Nat.id in Hk by lia.
    apply jholds_add; auto; try lia. intros _. apply Horder. lia.
Qed.

Lemma mul_loop_ok s n tmp m :
  Forall is_byte s -> (n <= length s)%nat -> jholds tmp (mult m) -> 0 <= m ->
  jholds (mul_loop (mul_table inp) s n tmp)
         (mult (256 ^ Z.of_nat n * m + le_value (firstn n s))).
Proof using Hb HP Hin Horder.
  revert tmp m. induction n as [| n IH]; intros tmp m Hs Hl Ht Hm.
  { cbn [mul_loop firstn le_value]. replace (256 ^ Z.of_nat 0 * m + 0) with m by lia. exact Ht. }
  cbn [mul_loop]. cbv zeta. set (si := nth n s 0).
  assert (is_byte si) as Hsi by (apply Forall_nth; [exact Hs | lia]). unfold is_byte in Hsi.
  rewrite shiftr_div by lia. change 15 with (2 ^ 4 - 1). rewrite land_mask by lia.
  destruct (div_mod_split si (2 ^ 4) ltac:(lia)) as [E B].
  eapply jholds_eq; [apply IH with (m := 16 * (16 * m + si / 2 ^ 4) + si mod 2 ^ 4);
    [exact Hs | lia | | lia] |].
  - repeat apply window_ok; auto; lia.
  - f_equal. f_equal. rewrite (firstn_S_nth 0 n s) by lia. fold si.
    rewrite le_value_app, length_firstn, Nat.min_l by lia. cbn [le_value].
    rewrite Nat2Z.inj_succ, Z.pow_succ_r by lia. lia.
Qed.

Lemma point_mul_jholds s :
  Forall is_byte s -> length s = 21%nat -> jholds (point_mul inp s) (mult (le_value s)).
Proof using Hb HP Hin Horder.
  intros Hs Hl. unfold point_mul.
  eapply jholds_eq; [apply mul_loop_ok with (m := 0); auto using infinity_holds; lia |].
  rewrite firstn_all2 by lia. f_equal; f_equal; lia.
Qed.
End Mul.
