(* ===== verification/Ptwist.v ===== *)
(** * Key agreement on the 168-bit curve and its twist

    [ptwist_pointmul] of [ptwist168.c]: the byte encoding of field elements,
    the choice between the curve and its twist, the multiplication and the
    conversion back, refining [xmul], multiplication on x-coordinates.  The
    command-line test of the file is modelled up to its output. *)
From S2P Require Import Prelude Bytes Felem FelemPow Prime168 Curve Fp Group PtPoint PtMul.
From Stdlib Require Import ZArith Lia List Bool Field Zmod.
Import ListNotations.
Open Scope Z_scope.

(** ** Encoding *)

(** [*((const uint64_t * )(mem + off))], little-endian. *)
Definition load64 (mem : list Z) (off : nat) : Z := le_value (firstn 8 (skipn off mem)).

Definition mask56 : Z := 0x00ffffffffffffff.

(** [bin21_to_felem].  The third load reads 8 bytes from offset 14 of a 21-byte
    array: [past] is the byte that follows it in memory. *)
Definition bin21_to_felem (past : Z) (inp : list Z) : coord :=
  let mem := inp ++ [past] in
  Coord (Z.land (load64 mem 0) mask56) (Z.land (load64 mem 7) mask56)
        (Z.land (load64 mem 14) mask56).

(** The seven bytes [in[k] >> (8*i)], each truncated to a [u8]. *)
Definition limb_bytes (l : Z) : list Z :=
  map (fun i => wrap 8 (Z.shiftr l (8 * Z.of_nat i))) (seq 0 7).

(** [felem_to_bin21]: [out[i]], [out[i+7]] and [out[i+14]]. *)
Definition felem_to_bin21 (c : coord) : list Z :=
  limb_bytes (l0 c) ++ limb_bytes (l1 c) ++ limb_bytes (l2 c).

(** ** The curve parameters *)

(** [ptwist168_curve_params]: p, a, b, x, y, big-endian. *)
Definition ptwist168_curve_params : list (list Z) :=
  [ [0xFF;0xFF;0xFF;0xFF;0xFF;0xFF;0xFF;0xFF;0xFF;0xFF;
     0xFF;0xFF;0xFF;0xFF;0xFF;0xFF;0xFF;0xFF;0xFF;0xFE;
     0xFF];
    [0xFF;0xFF;0xFF;0xFF;0xFF;0xFF;0xFF;0xFF;0xFF;0xFF;
     0xFF;0xFF;0xFF;0xFF;0xFF;0xFE;0xFF;0xFF;0xFF;0xFE;
     0xFC];
    [0x4E;0x35;0x5E;0x95;0xCA;0xFE;0xDD;0x48;0x6E;0xBC;
     0x69;0xBA;0xD3;0x16;0x46;0xD3;0x20;0xE0;0x1D;0xC7;
     0xD6];
    repeat 0x00 20 ++ [0x02];
    [0xEA;0x67;0x47;0xB7;0x5A;0xF8;0xC7;0xF9;0x3C;0x1F;
     0x5E;0x6D;0x32;0x0F;0x88;0xB9;0xBE;0x15;0x66;0xD2;
     0xF2] ].

(** The constants of [ptwist_pointmul]. *)
Definition three : coord := Coord 3 0 0.
Definition curve_b : coord := Coord 0x46d320e01dc7d6 0x486ebc69bad316 0x4e355e95cafedd.

(** ** [ptwist_pointmul] *)

(** The first half: the point with x-coordinate [x] on the curve, or with
    x-coordinate [-x] on the twist, and [ontwist]. *)
Definition pointmul_start (past : Z) (x : list Z) : bool * jpoint :=
  let P0 := bin21_to_felem past x in
  let tmp := felem_square P0 in
  let z := felem_reduce tmp in
  let z := felem_diff64 z three in
  let tmp := felem_mul z P0 in
  let z := felem_reduce tmp in
  let z := felem_sum64 z curve_b in
  let P1 := felem_sqrt z in
  let tmp := felem_square P1 in
  let tmp := felem_diff_128_64 tmp z in
  let r2 := felem_reduce tmp in
  if negb (felem_is_zero r2 =? 0)
  then (false, JPoint P0 P1 coord1)
  else (true, JPoint (felem_neg P0) P1 coord1).

(** [ptwist_pointmul(out, x, seckey)]: the contents of [out].  [Qx] is the
    uninitialised array that [affine_x] may leave as it is. *)
Definition ptwist_pointmul (past : Z) (Qx : coord) (x seckey : list Z) : list Z :=
  let '(ontwist, P) := pointmul_start past x in
  let Q := point_mul P seckey in
  let Qx := affine_x Qx Q in
  let Qx := if ontwist then felem_neg Qx else Qx in
  felem_to_bin21 Qx.

(** ** Multiplication on x-coordinates, the specification *)

Definition b_curve : Fp := fe curve_b.
Definition b_of (ontwist : bool) : Fp := if ontwist then (- b_curve)%Fp else b_curve.

(** x^3 - 3x + b *)
Definition rhs (x : Fp) : Fp := ((x * x - fz 3) * x + b_curve)%Fp.

Definition sqrt_pow (v : Fp) : Fp := Zmod.pow v ((p168 + 1) / 4).

(** Whether [x] belongs to the twist. *)
Definition on_twist (x : Fp) : bool :=
  negb (Zmod.eqb (sqrt_pow (rhs x) * sqrt_pow (rhs x))%Fp (rhs x)).

Definition flip (ontwist : bool) (v : Fp) : Fp := if ontwist then (- v)%Fp else v.

Definition start (x : Fp) : gpoint := Aff (flip (on_twist x) x) (sqrt_pow (rhs x)).

(** The x-coordinate of [n] times the point of x-coordinate [x]. *)
Definition xmul (x : Fp) (n : N) : option Fp :=
  option_map (flip (on_twist x)) (xcoord (gmul n (start x))).

(** ** The encoding round-trips *)

Definition bytes21 (s : list Z) : Prop := Forall is_byte s /\ length s = 21%nat.

Lemma load_limb mem k : Forall is_byte mem ->
  Z.land (load64 mem k) mask56 = le_value (firstn 7 (skipn k mem)).
Proof.
  intros H. unfold load64. change mask56 with (2 ^ 56 - 1). rewrite land_mask by lia.
  change (2 ^ 56) with (256 ^ Z.of_nat 7). rewrite le_value_mod.
  - now rewrite firstn_firstn.
  - apply Forall_firstn. now apply Forall_skipn.
Qed.

Lemma limb_bytes_le l : limb_bytes l = le_bytes 7 l.
Proof. unfold limb_bytes. rewrite shift_bytes. f_equal. apply Z.div_1_r. Qed.

(** Three groups of seven bytes. *)
Lemma split21 s : bytes21 s -> exists a b c,
  s = a ++ b ++ c /\ Forall is_byte a /\ Forall is_byte b /\ Forall is_byte c /\
  length a = 7%nat /\ length b = 7%nat /\ length c = 7%nat.
Proof.
  intros [H L]. exists (firstn 7 s), (firstn 7 (skipn 7 s)), (skipn 14 s).
  rewrite <- (firstn_skipn 7 s), <- (firstn_skipn 7 (skipn 7 s)), skipn_skipn in H.
  rewrite !Forall_app in H. destruct H as (Ha & Hb & Hc).
  repeat split; auto; rewrite ?length_firstn, ?length_skipn; try lia.
  rewrite <- (firstn_skipn 7 s) at 1. f_equal.
  rewrite <- (firstn_skipn 7 (skipn 7 s)) at 1. now rewrite skipn_skipn.
Qed.

Lemma bin21_split past a b c :
  is_byte past -> Forall is_byte a -> Forall is_byte b -> Forall is_byte c ->
  length a = 7%nat -> length b = 7%nat -> length c = 7%nat ->
  bin21_to_felem past (a ++ b ++ c) = Coord (le_value a) (le_value b) (le_value c).
Proof.
  intros Hp Ha Hb Hc La Lb Lc. unfold bin21_to_felem. cbv zeta.
  assert (Forall is_byte ((a ++ b ++ c) ++ [past])) as H.
  { rewrite !Forall_app. auto. }
  rewrite !load_limb by exact H. rewrite <- !app_assoc. clear H.
  change 14%nat with (7 + 7)%nat. rewrite <- (skipn_skipn 7 7).
  rewrite skipn_0, !(skipn_exact 7) by assumption. now rewrite !(firstn_exact 7).
Qed.

Lemma bin21_to_felem_val past x :
  is_byte past -> bytes21 x ->
  limbs_lt (2 ^ 56) (bin21_to_felem past x) /\ felem (bin21_to_felem past x) = le_value x.
Proof.
  intros Hp Hx. destruct (split21 x Hx) as (a & b & c & -> & Ha & Hb & Hc & La & Lb & Lc).
  rewrite bin21_split by assumption. rewrite !le_value_app, La, Lb.
  pose proof (le_value_bound a Ha). pose proof (le_value_bound b Hb).
  pose proof (le_value_bound c Hc). rewrite La, Lb, Lc in *.
  change (256 ^ Z.of_nat 7) with (2 ^ 56) in *. unfold limbs_lt, felem. cbn [l0 l1 l2]. lia.
Qed.

Lemma felem_to_bin21_bytes c : bytes21 (felem_to_bin21 c).
Proof.
  unfold felem_to_bin21, bytes21. rewrite !limb_bytes_le, !Forall_app, !length_app, !le_bytes_length.
  auto using le_bytes_bytes.
Qed.

(** What [felem_to_bin21] writes: each limb truncated to 56 bits. *)
Lemma felem_to_bin21_val c :
  le_value (felem_to_bin21 c) =
  l0 c mod 2 ^ 56 + 2 ^ 56 * (l1 c mod 2 ^ 56) + 2 ^ 112 * (l2 c mod 2 ^ 56).
Proof.
  unfold felem_to_bin21. rewrite !limb_bytes_le, !le_value_app, !le_bytes_length, !le_value_bytes.
  change (256 ^ Z.of_nat 7) with (2 ^ 56). lia.
Qed.

Lemma felem_to_bin21_small c : limbs_lt (2 ^ 56) c -> le_value (felem_to_bin21 c) = felem c.
Proof.
  intros (H0 & H1 & H2). rewrite felem_to_bin21_val, !Z.mod_small by assumption. reflexivity.
Qed.

Lemma bin21_of_felem past c :
  is_byte past -> limbs_lt (2 ^ 56) c -> bin21_to_felem past (felem_to_bin21 c) = c.
Proof.
  intros Hp (H0 & H1 & H2). unfold felem_to_bin21. rewrite !limb_bytes_le.
  rewrite bin21_split by auto using le_bytes_bytes, le_bytes_length.
  rewrite !le_value_bytes. change (256 ^ Z.of_nat 7) with (2 ^ 56).
  rewrite !Z.mod_small by assumption. now destruct c.
Qed.

Lemma felem_of_bin21 past x :
  is_byte past -> bytes21 x -> felem_to_bin21 (bin21_to_felem past x) = x.
Proof.
  intros Hp Hx. destruct (split21 x Hx) as (a & b & c & -> & Ha & Hb & Hc & La & Lb & Lc).
  rewrite bin21_split by assumption. unfold felem_to_bin21. cbn [l0 l1 l2].
  rewrite !limb_bytes_le. rewrite <- La at 1. rewrite <- Lb at 1. rewrite <- Lc at 1.
  now rewrite !le_bytes_value.
Qed.

(** ** The start point *)

#[export] Instance nonsingular_b_of tw : Nonsingular (b_of tw).
Proof.
  unfold Nonsingular. assert (b_curve * b_curve <> fz 4)%Fp as H.
  { unfold b_curve, fe. rewrite <- fz_mul. intros E. apply fz_eqp in E. vm_compute in E. discriminate E. }
  destruct tw; cbn [b_of]; [| exact H].
  intros E. apply H. rewrite <- E. ring.
Qed.

(** The field has no square root of -1. *)
Lemma square_pow (y : Fp) : (sqrt_pow (y * y) * sqrt_pow (y * y) = y * y)%Fp.
Proof.
  unfold sqrt_pow. destruct (Zmod.eqb_spec y Zmod.zero) as [-> | Hy].
  { replace (Zmod.zero * Zmod.zero)%Fp with (Zmod.zero : Fp) by ring.
    rewrite Zmod.pow_0_l by discriminate. ring. }
  rewrite <- Zmod.pow_add_r_nonneg by discriminate.
  rewrite <- Zmod.pow_2_r, <- Zmod.pow_mul_r_nonneg by discriminate.
  replace (2 * ((p168 + 1) / 4 + (p168 + 1) / 4)) with (Z.pred p168 + 2) by reflexivity.
  rewrite Zmod.pow_add_r_nonneg by discriminate.
  rewrite Zmod.fermat_nz by (exact Hy || exact prime_p168). ring.
Qed.

Lemma rhs_onc tw x y : onc (b_of tw) (Aff x y) <-> flip tw (rhs (flip tw x)) = (y * y)%Fp.
Proof.
  unfold onc, curve_a, rhs. cbn [on_curve].
  replace (fz 3) with (Zmod.one + (Zmod.one + Zmod.one) : Fp)%Fp by (fz_small; reflexivity).
  destruct tw; cbn [flip b_of]; (split; intros H; [rewrite H | rewrite <- H]; ring).
Qed.

Lemma flip_flip tw v : flip tw (flip tw v) = v.
Proof. destruct tw; cbn [flip]; [ring | reflexivity]. Qed.

Lemma start_onc x : onc (b_of (on_twist x)) (start x).
Proof.
  unfold start. apply rhs_onc. rewrite flip_flip. unfold on_twist.
  destruct (Zmod.eqb_spec (sqrt_pow (rhs x) * sqrt_pow (rhs x))%Fp (rhs x)) as [E | E]; cbn [negb flip].
  - now symmetry.
  - destruct (sqrt_pow_square (rhs x)) as [H | H]; [contradiction | now symmetry].
Qed.

(** ** Properties of [xmul] *)

(** Points of order two: a multiple is the point itself or infinity. *)
Lemma gmul_order2 x n :
  gmul n (Aff x Zmod.zero) = if N.even n then Inf else Aff x Zmod.zero.
Proof.
  induction n as [| n IH] using N.peano_ind; [reflexivity |].
  unfold gmul in *. rewrite smul_succ, IH, N.even_succ, <- N.negb_even.
  destruct (N.even n); cbn [negb]; [apply padd_0_r |].
  apply (padd_inf_iff _ _ _ _ _ _ _ Feqb_eq). split; [reflexivity | ring].
Qed.

(** The x-coordinate of a point on either curve finds that curve again, except
    that a point of order two counts as on the main curve. *)
Lemma on_twist_of tw x y :
  onc (b_of tw) (Aff x y) -> on_twist (flip tw x) = tw \/ y = Zmod.zero.
Proof.
  intros H%rhs_onc. unfold on_twist. destruct tw; cbn [flip] in *.
  - destruct (Zmod.eqb_spec (sqrt_pow (rhs (- x)) * sqrt_pow (rhs (- x)))%Fp (rhs (- x)%Fp))
      as [E | E]; [right | now left].
    pose proof (square_pow y) as Hs. rewrite <- H in Hs. set (r := rhs (- x)%Fp) in *.
    assert (sqrt_pow (- r) * sqrt_pow (- r) = sqrt_pow r * sqrt_pow r)%Fp as E2.
    { unfold sqrt_pow. rewrite <- !Zmod.pow_mul_l_nonneg by discriminate. f_equal. ring. }
    rewrite E, Hs in E2.
    assert (y * y = Zmod.zero)%Fp as Hy.
    { rewrite <- H. apply (opp_self _ _ _ _ _ _ _ _ Fp_field _ Feqb_eq Fp_two).
      rewrite E2 at 1. ring. }
    apply (mul_eq_0 _ _ _ _ _ _ _ _ Fp_field _ Feqb_eq) in Hy. tauto.
  - left. rewrite H, square_pow, Zmod.eqb_refl. reflexivity.
Qed.

Lemma start_xcoord x : xcoord (start x) = Some (flip (on_twist x) x).
Proof. reflexivity. Qed.

(** [xmul] may start from any point with the right x-coordinate, on either curve. *)
Lemma xmul_any tw x y n :
  onc (b_of tw) (Aff x y) ->
  xmul (flip tw x) n = option_map (flip tw) (xcoord (gmul n (Aff x y))).
Proof.
  intros H. unfold xmul. destruct (on_twist_of tw x y H) as [E | ->].
  - pose proof (start_onc (flip tw x)) as HS. rewrite E in HS |- *.
    f_equal. apply (gmul_xcoord (b_of tw)); [exact HS | exact H |].
    rewrite start_xcoord, E, flip_flip. reflexivity.
  - apply rhs_onc in H.
    assert (rhs (flip tw x) = Zmod.zero) as Hr.
    { rewrite <- (flip_flip tw (rhs (flip tw x))), H. destruct tw; cbn [flip]; ring. }
    assert (sqrt_pow (rhs (flip tw x)) = Zmod.zero) as Hs
      by (rewrite Hr; apply Zmod.pow_0_l; discriminate).
    assert (on_twist (flip tw x) = false) as Ht.
    { unfold on_twist. rewrite Hs, Hr. rewrite (proj2 (Feqb_eq _ _)); [reflexivity | ring]. }
    unfold start. rewrite Hs, Ht, !gmul_order2. cbn [flip].
    destruct (N.even n); reflexivity.
Qed.

Lemma xmul_xmul x x' m n : xmul x m = Some x' -> xmul x' n = xmul x (n * m).
Proof.
  intros H. unfold xmul at 2. unfold xmul in H. set (tw := on_twist x) in *.
  pose proof (start_onc x) as HS. fold tw in HS. clearbody tw.
  generalize dependent (start x). intros S H HS.
  rewrite (gmul_mul (b_of tw)) by exact HS.
  pose proof (gmul_onc (b_of tw) m _ HS) as HQ.
  destruct (gmul m S) as [| qx qy]; [discriminate |].
  cbn [xcoord option_map] in H. injection H as <-. now apply xmul_any.
Qed.

(** ** [ptwist_pointmul] refines [xmul] *)

Lemma three_holds : holds (2 ^ 57) three (fz 3).
Proof. split; [unfold limbs_lt, three; cbn [l0 l1 l2]; lia | reflexivity]. Qed.

Lemma curve_b_holds : holds (2 ^ 56) curve_b b_curve.
Proof. split; [unfold limbs_lt, curve_b; cbn [l0 l1 l2]; lia | reflexivity]. Qed.

Lemma limbs56_reduced c : limbs_lt (2 ^ 56) c -> reduced c.
Proof. unfold limbs_lt, reduced. lia. Qed.

Lemma bin21_rholds past x :
  is_byte past -> bytes21 x -> rholds (bin21_to_felem past x) (fz (le_value x)).
Proof.
  intros Hp Hx. destruct (bin21_to_felem_val past x Hp Hx) as [Hl <-].
  split; [now apply limbs56_reduced | reflexivity].
Qed.

Definition start_holds (r : bool * jpoint) (x : Fp) : Prop :=
  fst r = on_twist x /\ jholds (snd r) (start x).

Lemma pointmul_start_ok past x :
  is_byte past -> bytes21 x -> start_holds (pointmul_start past x) (fz (le_value x)).
Proof.
  intros Hp Hx. pose proof (bin21_rholds past x Hp Hx) as H0.
  pose proof three_holds as H3. pose proof curve_b_holds as Hb.
  cbv beta delta [pointmul_start].
  set (P0 := bin21_to_felem past x) in *. clearbody P0.
  set (X := fz (le_value x)) in *. clearbody X.
  set (th := three) in *. clearbody th. set (cb := curve_b) in *. clearbody cb.
  do 7 follow1. fold (rhs X) in Hz2.
  set (P1 := felem_sqrt z2).
  assert (rholds P1 (sqrt_pow (rhs X))) as HP1
    by (apply rholds_sqrt; apply (holds_weaken _ _ _ _ Hz2); lia).
  clearbody P1. do 4 follow1.
  rewrite (rholds_is_zero _ _ Hr2), c_bool_0, Bool.negb_involutive.
  unfold start_holds, start, on_twist. remember (sqrt_pow (rhs X)) as s eqn:Es.
  replace (Zmod.eqb (s * s - rhs X)%Fp Zmod.zero) with (Zmod.eqb (s * s)%Fp (rhs X))
    by (apply Bool.eq_iff_eq_true; rewrite !Zmod.eqb_eq; symmetry;
        apply (sub_eq_0 _ _ _ _ _ _ _ _ Fp_field)).
  destruct (Zmod.eqb (s * s)%Fp (rhs X)); cbn [fst snd negb flip]; (split; [reflexivity |]).
  - eapply jholds_eq; [eapply jholds_intro; [exact H0 | exact HP1 | exact coord1_holds] |].
    apply (to_affine_1 _ _ _ _ _ _ _ _ Fp_field _ Feqb_eq). exact Fp_one.
  - eapply jholds_eq; [eapply jholds_intro;
      [apply rholds_neg; apply rholds_57, H0 | exact HP1 | exact coord1_holds] |].
    apply (to_affine_1 _ _ _ _ _ _ _ _ Fp_field _ Feqb_eq). exact Fp_one.
Qed.

(** No multiple of the start point that the window table holds is infinity. *)
Definition table_finite (x : Fp) : Prop :=
  forall k, 1 <= k <= 15 -> gmul (Z.to_N k) (start x) <> Inf.

Section Pointmul.
Context (past : Z) (Qx : coord) (x seckey : list Z).
Context (Hpast : is_byte past) (Hx : bytes21 x) (Hs : bytes21 seckey).
Abbreviation X := (fz (le_value x)).
Abbreviation n := (Z.to_N (le_value seckey)).
Context (Hfin : table_finite X).

Lemma pointmul_product :
  jholds (point_mul (snd (pointmul_start past x)) seckey) (gmul n (start X)).
Proof using Hpast Hx Hs Hfin.
  destruct (pointmul_start_ok past x Hpast Hx) as [_ HS].
  apply (point_mul_jholds (b_of (on_twist X))); [exact HS | apply start_onc | exact Hfin | apply Hs | apply Hs].
Qed.

Lemma pointmul_unfold :
  ptwist_pointmul past Qx x seckey =
  let Q := affine_x Qx (point_mul (snd (pointmul_start past x)) seckey) in
  felem_to_bin21 (if on_twist X then felem_neg Q else Q).
Proof using Hpast Hx.
  destruct (pointmul_start_ok past x Hpast Hx) as [HT _].
  unfold ptwist_pointmul. destruct (pointmul_start past x) as [tw P]. cbn [fst] in HT. now rewrite HT.
Qed.

(** The product at infinity: [affine_x] leaves the output array alone. *)
Lemma pointmul_inf :
  xmul X n = None ->
  ptwist_pointmul past Qx x seckey =
    felem_to_bin21 (if on_twist X then felem_neg Qx else Qx).
Proof using Hpast Hx Hs Hfin.
  intros H. rewrite pointmul_unfold. cbv zeta. destruct pointmul_product as [HR HV].
  rewrite affine_x_inf; [reflexivity | exact HR |]. rewrite HV. unfold xmul in H.
  destruct (gmul n (start X)); [reflexivity | discriminate].
Qed.

(** A finite product: its x-coordinate is in minimal form before the final negation. *)
Lemma pointmul_fin v :
  xmul X n = Some v ->
  exists q, minimal q /\ fe q = flip (on_twist X) v /\
    ptwist_pointmul past Qx x seckey =
      felem_to_bin21 (if on_twist X then felem_neg q else q).
Proof using Hpast Hx Hs Hfin.
  intros H. rewrite pointmul_unfold. cbv zeta. destruct pointmul_product as [HR HV].
  unfold xmul in H. generalize dependent (gmul n (start X)). intros G HG HV.
  destruct G as [| qx qy]; [discriminate |]. cbn [xcoord option_map] in HG.
  destruct (affine_x_aff Qx _ _ _ HR HV) as [Hm Hq].
  eexists. split; [exact Hm |]. split; [| reflexivity].
  rewrite Hq. assert (v = flip (on_twist X) qx) as -> by congruence. now rewrite flip_flip.
Qed.
End Pointmul.

(** ** The output bytes *)

Lemma unsigned_fz z : Zmod.unsigned (fz z) = z mod p168.
Proof. apply Zmod.unsigned_of_Z. Qed.

Lemma minimal_unsigned q : minimal q -> felem q = Zmod.unsigned (fe q).
Proof.
  intros H. unfold fe. rewrite unsigned_fz, Z.mod_small; [reflexivity |].
  unfold minimal, felem in *. lia.
Qed.

Lemma minimal_out q : minimal q -> le_value (felem_to_bin21 q) = Zmod.unsigned (fe q).
Proof.
  intros H. rewrite felem_to_bin21_small; [now apply minimal_unsigned |].
  apply (minimal_limbs _ _ H). lia.
Qed.

(** The results that the final negation of the twist branch gets wrong: [felem_neg]
    leaves a top limb of 2^56, whose high bit [felem_to_bin21] drops. *)
Definition neg_truncates (x v : Fp) : Prop :=
  on_twist x = true /\ 257 <= Zmod.unsigned v < 514.

Lemma flip_eq tw (u v : Fp) : u = flip tw v -> v = flip tw u.
Proof. intros ->. now rewrite flip_flip. Qed.

Lemma unsigned_opp_window q v :
  minimal q -> v = (- fe q)%Fp ->
  neg_window (felem q) <-> 257 <= Zmod.unsigned v < 514.
Proof.
  intros Hm ->. rewrite Zmod.unsigned_opp, <- (minimal_unsigned q Hm).
  assert (0 <= felem q < p168) as B by (unfold minimal, felem in *; lia).
  unfold neg_window. destruct (Z.eq_dec (felem q) 0) as [-> | Hne].
  - change (- 0 mod p168) with 0. lia.
  - rewrite Z_mod_nz_opp_full; rewrite Z.mod_small by exact B; [| exact Hne].
    unfold p168 in *. lia.
Qed.

Lemma neg_out q : minimal q -> ~ neg_window (felem q) ->
  le_value (felem_to_bin21 (felem_neg q)) = Zmod.unsigned (- fe q)%Fp.
Proof.
  intros Hm Hw. rewrite minimal_out by now apply felem_neg_minimal. f_equal.
  apply rholds_neg. split; [apply (minimal_limbs _ _ Hm); lia | reflexivity].
Qed.

Lemma neg_out_window q : minimal q -> neg_window (felem q) ->
  le_value (felem_to_bin21 (felem_neg q)) = Zmod.unsigned (- fe q)%Fp - 257.
Proof.
  intros Hm Hw. rewrite felem_to_bin21_val.
  pose proof (felem_neg_in_window q Hm Hw) as E.
  destruct (rholds_neg q (fe q)) as [Hr _];
    [split; [apply (minimal_limbs _ _ Hm); lia | reflexivity] |].
  assert (Zmod.unsigned (- fe q)%Fp = p168 - felem q) as ->.
  { rewrite Zmod.unsigned_opp, <- (minimal_unsigned q Hm).
    rewrite Z_mod_nz_opp_full; rewrite Z.mod_small; unfold neg_window, p168 in *; lia. }
  unfold reduced, felem, neg_window, p168 in *. destruct Hr as (H0 & H1 & H2).
  rewrite (Z.mod_small (l0 _)), (Z.mod_small (l1 _)) by lia.
  set (m2 := l2 (felem_neg q)) in *.
  assert (m2 = 2 ^ 56) as Em by lia. rewrite Em, Z_mod_same_full. lia.
Qed.
