(* ===== verification/PtwistThms.v ===== *)
(** * The key agreement: theorems

    The properties of [ptwist168.c] from the field operations up to
    [ptwist_pointmul], each with an instance at concrete inputs. *)
From S2P Require Import Prelude Bytes Felem FelemPow Prime168 Curve Fp Group PtPoint PtMul Ptwist.
From Stdlib Require Import ZArith Lia List Bool Field Zmod.
Import ListNotations.
Open Scope Z_scope.

(** ** Concrete points *)

(** The base point of [ptwist168_curve_params], and a point of the twist. *)
Definition base_y : Fp := fz 0xEA6747B75AF8C7F93C1F5E6D320F88B9BE1566D2F2.
Definition base : gpoint := Aff (fz 2) base_y.
Definition twist_y : Fp := fz 0x8e08546bb209d844fa82c58d37df9fe43b195427da.
Definition twist_point : gpoint := Aff (- fz 257)%Fp twist_y.

Lemma onc_check tw x y :
  Zmod.eqb (flip tw (rhs (flip tw x))) (y * y)%Fp = true -> onc (b_of tw) (Aff x y).
Proof. intros H%Feqb_eq. now apply rhs_onc. Qed.

(** [n] further multiples of a point are finite. *)
Fixpoint finite_from (n : nat) (P Q : gpoint) : bool :=
  match n with
  | O => true
  | S m => match Q with Inf => false | _ => finite_from m P (gadd P Q) end
  end.

Lemma finite_from_ok n P j k :
  finite_from n P (gmul j P) = true -> (k < n)%nat -> gmul (N.of_nat k + j) P <> Inf.
Proof.
  revert j k. induction n as [| n IH]; intros j k H Hk; [lia |]. cbn [finite_from] in H.
  destruct (gmul j P) as [| x y] eqn:E; [discriminate |]. rewrite <- E in H.
  destruct k as [| k]; [cbn; congruence |].
  replace (N.of_nat (S k) + j)%N with (N.of_nat k + N.succ j)%N by lia.
  apply IH; [| lia]. unfold gmul in *. now rewrite smul_succ.
Qed.

Lemma table_finite_any tw x y :
  onc (b_of tw) (Aff x y) -> y <> Zmod.zero ->
  (forall k, 1 <= k <= 15 -> gmul (Z.to_N k) (Aff x y) <> Inf) -> table_finite (flip tw x).
Proof.
  intros HC Hy H k Hk E. apply (H k Hk).
  destruct (on_twist_of tw x y HC) as [Ht | ?]; [| contradiction].
  pose proof (start_onc (flip tw x)) as HS. rewrite Ht in HS.
  pose proof (gmul_xcoord (b_of tw) (Z.to_N k) (start (flip tw x)) (Aff x y) HS HC) as HX.
  rewrite start_xcoord, Ht, flip_flip, E in HX. specialize (HX eq_refl).
  destruct (gmul (Z.to_N k) (Aff x y)); [reflexivity | discriminate].
Qed.

Lemma finite_table tw x y :
  onc (b_of tw) (Aff x y) -> y <> Zmod.zero -> finite_from 15 (Aff x y) (Aff x y) = true ->
  table_finite (flip tw x).
Proof.
  intros HC Hy HF. apply (table_finite_any tw x y HC Hy). intros k Hk.
  replace (Z.to_N k) with (N.of_nat (Z.to_nat (k - 1)) + 1)%N by lia.
  apply (finite_from_ok 15); [now rewrite gmul_1 | lia].
Qed.

Lemma base_onc : onc (b_of false) base.
Proof. apply onc_check. vm_compute. reflexivity. Qed.

Lemma base_finite : table_finite (fz 2).
Proof.
  apply (finite_table false _ base_y); [exact base_onc | | vm_compute; reflexivity].
  apply Feqb_neq. vm_compute. reflexivity.
Qed.

Lemma twist_onc : onc (b_of true) twist_point.
Proof. apply onc_check. vm_compute. reflexivity. Qed.

Lemma flip_257 : flip true (- fz 257)%Fp = fz 257.
Proof. cbn [flip]. ring. Qed.

Lemma twist_y_nz : twist_y <> Zmod.zero.
Proof. apply Feqb_neq. vm_compute. reflexivity. Qed.

Lemma twist_finite : table_finite (fz 257).
Proof.
  rewrite <- flip_257. apply (finite_table true _ twist_y);
    [exact twist_onc | exact twist_y_nz | vm_compute; reflexivity].
Qed.

Lemma twist_257 : on_twist (fz 257) = true.
Proof.
  rewrite <- flip_257. destruct (on_twist_of true _ _ twist_onc) as [H | H]; [exact H |].
  now destruct twist_y_nz.
Qed.

(** 21 bytes of a small integer. *)
Definition bin21 (v : Z) : list Z := le_bytes 21 v.

Lemma bin21_bytes v : bytes21 (bin21 v).
Proof. split; [apply le_bytes_bytes | apply le_bytes_length]. Qed.

Lemma byte_0 : is_byte 0.
Proof. unfold is_byte. lia. Qed.

Lemma xmul_1 x : xmul x 1 = Some x.
Proof. unfold xmul. rewrite gmul_1, start_xcoord. cbn [option_map]. now rewrite flip_flip. Qed.

(** ** [ptwist_pointmul] *)

(** The bytes written for a minimal [q], negated on the twist. *)
Lemma output_ok tw q v :
  minimal q -> fe q = flip tw v ->
  ~ (tw = true /\ 257 <= Zmod.unsigned v < 514) ->
  felem_to_bin21 (if tw then felem_neg q else q) = le_bytes 21 (Zmod.unsigned v).
Proof.
  intros Hm Hq Hn.
  enough (le_value (felem_to_bin21 (if tw then felem_neg q else q)) = Zmod.unsigned v) as <-.
  { match goal with |- felem_to_bin21 ?c = _ => destruct (felem_to_bin21_bytes c) as [HB HL] end.
    rewrite <- HL. symmetry. now apply le_bytes_value. }
  apply flip_eq in Hq. destruct tw; cbn [flip] in *.
  - rewrite Hq. apply neg_out; [exact Hm |]. rewrite (unsigned_opp_window q v Hm Hq). intuition.
  - rewrite Hq. now apply minimal_out.
Qed.

Lemma pointmul_bytes past Qx x seckey v :
  is_byte past -> bytes21 x -> bytes21 seckey -> table_finite (fz (le_value x)) ->
  xmul (fz (le_value x)) (Z.to_N (le_value seckey)) = Some v ->
  ~ neg_truncates (fz (le_value x)) v ->
  ptwist_pointmul past Qx x seckey = le_bytes 21 (Zmod.unsigned v).
Proof.
  intros Hp Hx Hs Hf Hv Hn.
  destruct (pointmul_fin past Qx x seckey Hp Hx Hs Hf v Hv) as (q & Hm & Hq & ->).
  unfold neg_truncates in Hn. generalize dependent (on_twist (fz (le_value x))).
  intros tw Hn Hq. now apply output_ok.
Qed.

Lemma fz_unsigned (v : Fp) : fz (le_value (le_bytes 21 (Zmod.unsigned v))) = v.
Proof.
  rewrite le_value_bytes, Z.mod_small; [apply Zmod.of_Z_unsigned |].
  pose proof (Zmod.unsigned_pos_bound v p168_pos). change (256 ^ Z.of_nat 21) with (2 ^ 168).
  unfold p168 in *. lia.
Qed.

Lemma le_bytes21 v : bytes21 (le_bytes 21 v).
Proof. split; [apply le_bytes_bytes | apply le_bytes_length]. Qed.

(** C1: whenever the multiplication of the x-coordinate [x] by [seckey] on the
    curve or on its twist is finite, [ptwist_pointmul] writes the 21 bytes of the
    product's canonical x-coordinate, whatever the byte after the input array and
    the uninitialised [Qx] were.  The window table must hold finite points, and a
    product on the twist must lie outside the 257 values that the final negation
    truncates. *)
Theorem ptwist_pointmul_refines_xmul past Qx x seckey v :
  is_byte past -> bytes21 x -> bytes21 seckey -> table_finite (fz (le_value x)) ->
  xmul (fz (le_value x)) (Z.to_N (le_value seckey)) = Some v ->
  ~ neg_truncates (fz (le_value x)) v ->
  ptwist_pointmul past Qx x seckey = le_bytes 21 (Zmod.unsigned v).
Proof. apply pointmul_bytes. Qed.

Lemma ptwist_pointmul_refines_xmul_witness :
  ptwist_pointmul 0 coord0 (bin21 2) (bin21 1) = le_bytes 21 (Zmod.unsigned (fz 2)).
Proof.
  apply ptwist_pointmul_refines_xmul; try apply bin21_bytes; try exact byte_0.
  - exact base_finite.
  - apply xmul_1.
  - intros [_ [H _]]. now apply H.
Defined.

(** C2: two parties that multiply the same public x-coordinate by their secrets,
    exchange the 21 bytes and multiply again end with the same 21 bytes, on the
    curve and on the twist alike. *)
Theorem ptwist_dh_agreement past Qx x a b va vb v :
  is_byte past -> bytes21 x -> bytes21 a -> bytes21 b ->
  let X := fz (le_value x) in
  let na := Z.to_N (le_value a) in let nb := Z.to_N (le_value b) in
  xmul X na = Some va -> xmul X nb = Some vb -> xmul X (na * nb) = Some v ->
  table_finite X -> table_finite va -> table_finite vb ->
  ~ neg_truncates X va -> ~ neg_truncates X vb -> ~ neg_truncates va v -> ~ neg_truncates vb v ->
  ptwist_pointmul past Qx (ptwist_pointmul past Qx x a) b = le_bytes 21 (Zmod.unsigned v) /\
  ptwist_pointmul past Qx (ptwist_pointmul past Qx x b) a = le_bytes 21 (Zmod.unsigned v).
Proof.
  intros Hp Hx Ha Hb X na nb Hva Hvb Hv HF HFa HFb Na Nb Nab Nba.
  rewrite (pointmul_bytes past Qx x a va), (pointmul_bytes past Qx x b vb) by assumption.
  pose proof (xmul_xmul X va na nb Hva) as Ea. pose proof (xmul_xmul X vb nb na Hvb) as Eb.
  rewrite N.mul_comm in Ea.
  split; apply pointmul_bytes; rewrite ?fz_unsigned; auto using le_bytes21.
  all: fold na nb; congruence.
Qed.

(** Multiples of the base point. *)
Definition x2 : Fp := fz 254086145585041107061190076606132070678922354095382.
Definition y2 : Fp := fz 68725921623796157381537397962293381500370101669542.
Definition x3 : Fp := fz 75349196259724195426795685270440027955232697020325.
Definition y3 : Fp := fz 169357398063909130757775314919379790307258522235557.

Lemma base_2 : gadd base base = Aff x2 y2.
Proof. vm_compute. reflexivity. Qed.

Lemma base_3 : gadd base (Aff x2 y2) = Aff x3 y3.
Proof. vm_compute. reflexivity. Qed.

Lemma base_x2 : gmul 2 base = Aff x2 y2.
Proof. change 2%N with (N.succ 1). rewrite gmul_succ, gmul_1. exact base_2. Qed.

Lemma base_x3 : gmul 3 base = Aff x3 y3.
Proof. change 3%N with (N.succ 2). rewrite gmul_succ, base_x2. exact base_3. Qed.

Lemma x2_onc : onc (b_of false) (Aff x2 y2).
Proof. apply onc_check. vm_compute. reflexivity. Qed.

Lemma x3_onc : onc (b_of false) (Aff x3 y3).
Proof. apply onc_check. vm_compute. reflexivity. Qed.

Lemma main_curve x y : onc (b_of false) (Aff x y) -> y <> Zmod.zero -> on_twist x = false.
Proof. intros H Hy. destruct (on_twist_of false x y H); [assumption | contradiction]. Qed.

Lemma main_never_truncates x y v :
  onc (b_of false) (Aff x y) -> Zmod.eqb y Zmod.zero = false -> ~ neg_truncates x v.
Proof. intros H Hy%Feqb_neq [E _]. rewrite (main_curve x y H Hy) in E. discriminate. Qed.

Lemma x2_finite : table_finite x2.
Proof.
  apply (finite_table false _ y2); [exact x2_onc | | vm_compute; reflexivity].
  apply Feqb_neq. vm_compute. reflexivity.
Qed.

Lemma x3_finite : table_finite x3.
Proof.
  apply (finite_table false _ y3); [exact x3_onc | | vm_compute; reflexivity].
  apply Feqb_neq. vm_compute. reflexivity.
Qed.

Lemma xmul_base n : xmul (fz 2) n = xcoord (gmul n base).
Proof.
  rewrite (xmul_any false (fz 2) base_y) by exact base_onc. fold base. now destruct (gmul n base).
Qed.

Lemma xmul_base_6 : exists v, xmul (fz 2) 6 = Some v.
Proof.
  rewrite xmul_base. change 6%N with (2 * 3)%N.
  rewrite (gmul_double (b_of false)), base_x3 by exact base_onc.
  destruct (gadd (Aff x3 y3) (Aff x3 y3)) eqn:E; [| eexists; reflexivity].
  exfalso. apply (f_equal (fun P => match P with Inf => true | _ => false end)) in E.
  vm_compute in E. discriminate.
Qed.

Lemma ptwist_dh_agreement_witness :
  exists v : Fp,
    ptwist_pointmul 0 coord0 (ptwist_pointmul 0 coord0 (bin21 2) (bin21 2)) (bin21 3)
      = le_bytes 21 (Zmod.unsigned v) /\
    ptwist_pointmul 0 coord0 (ptwist_pointmul 0 coord0 (bin21 2) (bin21 3)) (bin21 2)
      = le_bytes 21 (Zmod.unsigned v).
Proof.
  destruct xmul_base_6 as [v Hv]. exists v.
  apply (ptwist_dh_agreement 0 coord0 (bin21 2) (bin21 2) (bin21 3) x2 x3 v byte_0);
    try apply bin21_bytes;
    change (fz (le_value (bin21 2))) with (fz 2);
    change (Z.to_N (le_value (bin21 2))) with 2%N;
    change (Z.to_N (le_value (bin21 3))) with 3%N.
  - rewrite xmul_base, base_x2. reflexivity.
  - rewrite xmul_base, base_x3. reflexivity.
  - exact Hv.
  - exact base_finite.
  - exact x2_finite.
  - exact x3_finite.
  - apply (main_never_truncates _ base_y); [exact base_onc | vm_compute; reflexivity].
  - apply (main_never_truncates _ base_y); [exact base_onc | vm_compute; reflexivity].
  - apply (main_never_truncates _ y2); [exact x2_onc | vm_compute; reflexivity].
  - apply (main_never_truncates _ y3); [exact x3_onc | vm_compute; reflexivity].
Defined.

(** On the twist, a product whose x-coordinate lies in 257..513 comes out 257
    too small: [felem_neg] hands [felem_contract] a top limb above 2^56, the result
    keeps a top limb of 2^56, and [felem_to_bin21] drops its high bit. *)
Theorem ptwist_pointmul_twist_truncation past Qx x seckey v :
  is_byte past -> bytes21 x -> bytes21 seckey -> table_finite (fz (le_value x)) ->
  xmul (fz (le_value x)) (Z.to_N (le_value seckey)) = Some v ->
  neg_truncates (fz (le_value x)) v ->
  le_value (ptwist_pointmul past Qx x seckey) = Zmod.unsigned v - 257.
Proof.
  intros Hp Hx Hs Hf Hv [Ht Hw].
  destruct (pointmul_fin past Qx x seckey Hp Hx Hs Hf v Hv) as (q & Hm & Hq & ->).
  rewrite Ht in *. apply flip_eq in Hq. cbn [flip] in Hq.
  rewrite Hq. apply neg_out_window; [exact Hm |]. now apply (unsigned_opp_window q v Hm Hq).
Qed.

Lemma ptwist_pointmul_twist_truncation_witness :
  le_value (ptwist_pointmul 0 coord0 (bin21 257) (bin21 1)) = Zmod.unsigned (fz 257) - 257.
Proof.
  apply ptwist_pointmul_twist_truncation; try apply bin21_bytes; try exact byte_0.
  - exact twist_finite.
  - apply xmul_1.
  - split; [exact twist_257 | split; [discriminate | reflexivity]].
Defined.

(** When the product is the point at infinity, [affine_x] returns without
    writing, and [ptwist_pointmul] on the main curve outputs the uninitialised
    [Qx] it was called with. *)
Theorem ptwist_pointmul_infinity past Qx x seckey :
  is_byte past -> bytes21 x -> bytes21 seckey -> table_finite (fz (le_value x)) ->
  xmul (fz (le_value x)) (Z.to_N (le_value seckey)) = None ->
  on_twist (fz (le_value x)) = false ->
  ptwist_pointmul past Qx x seckey = felem_to_bin21 Qx.
Proof. intros Hp Hx Hs Hf Hv Ht. rewrite pointmul_inf by assumption. now rewrite Ht. Qed.

Lemma ptwist_pointmul_infinity_witness :
  ptwist_pointmul 0 (Coord 7 8 9) (bin21 2) (bin21 0) = felem_to_bin21 (Coord 7 8 9).
Proof.
  apply ptwist_pointmul_infinity; try apply bin21_bytes; try exact byte_0.
  - exact base_finite.
  - change (fz (le_value (bin21 2))) with (fz 2). rewrite xmul_base. reflexivity.
  - apply (main_curve _ base_y); [exact base_onc |]. apply Feqb_neq. vm_compute. reflexivity.
Defined.

(** ** Points *)

Definition base_j : jpoint := JPoint (Coord 2 0 0)
  (Coord 0x88B9BE1566D2F2 0xF93C1F5E6D320F 0xEA6747B75AF8C7) coord1.

Lemma base_j_reduced : jreduced base_j.
Proof. repeat split; discriminate || reflexivity. Qed.

Lemma infinity_reduced : jreduced infinity.
Proof. repeat split; discriminate || reflexivity. Qed.

(** [point_add] into fresh arrays is the complete group addition: for any two
    points of a curve y^2 = x^3 - 3x + b in reduced Jacobian coordinates, equal,
    opposite or at infinity included, it returns reduced coordinates of their sum. *)
Theorem point_add_correct b p1 p2 :
  jreduced p1 -> jreduced p2 -> onc b (jval p1) -> onc b (jval p2) ->
  jreduced (point_add false p1 p2) /\
  jval (point_add false p1 p2) = gadd (jval p1) (jval p2).
Proof. intros. now apply (point_add_jholds b). Qed.

Lemma base_j_val : jval base_j = Aff (fe (px base_j)) (fe (py base_j)).
Proof. apply jval_1. Qed.

Lemma base_j_onc : onc (b_of false) (jval base_j).
Proof. rewrite base_j_val. apply onc_check. vm_compute. reflexivity. Qed.

Lemma point_add_correct_witness :
  jval (point_add false base_j base_j) = gadd (jval base_j) (jval base_j) /\
  jval (point_add false base_j infinity) = gadd (jval base_j) Inf.
Proof.
  split.
  - apply (point_add_correct (b_of false)); auto using base_j_reduced, base_j_onc.
  - apply (point_add_correct (b_of false)); auto using base_j_reduced, base_j_onc, infinity_reduced.
    exact I.
Defined.

(** [point_add] in place (its output arrays are those of point 1) adds too,
    unless point 2 is at infinity: then the copy of point 1 over the result copies
    the result onto itself, and the sum comes out as the point at infinity. *)
Theorem point_add_in_place b p1 p2 :
  jreduced p1 -> jreduced p2 -> onc b (jval p1) -> onc b (jval p2) ->
  (jval p2 <> Inf -> jval (point_add true p1 p2) = gadd (jval p1) (jval p2)) /\
  (jval p2 = Inf -> jval (point_add true p1 p2) = Inf).
Proof.
  intros R1 R2 C1 C2. split; intros H.
  - now apply (point_add_jholds b).
  - now apply point_add_in_place_inf.
Qed.

Lemma point_add_in_place_witness :
  jval (point_add true base_j base_j) = gadd (jval base_j) (jval base_j) /\
  jval (point_add true base_j infinity) = Inf.
Proof.
  split.
  - apply (point_add_in_place (b_of false)); auto using base_j_reduced, base_j_onc.
    rewrite base_j_val. discriminate.
  - apply (point_add_in_place (b_of false)); auto using base_j_reduced, base_j_onc, infinity_reduced.
    exact I.
Defined.

(** [point_double] returns reduced coordinates of twice the point, for every
    reduced input, points of order two and infinity included. *)
Theorem point_double_correct p :
  jreduced p ->
  jreduced (point_double p) /\ jval (point_double p) = gadd (jval p) (jval p).
Proof. apply point_double_jholds. Qed.

Lemma point_double_correct_witness :
  jreduced (point_double base_j) /\ jval (point_double base_j) = gadd (jval base_j) (jval base_j).
Proof. apply point_double_correct. exact base_j_reduced. Defined.

(** C29: [point_mul] returns reduced coordinates of s times the point, s the
    little-endian value of its 21 bytes, when no entry of its window table but the
    first is the point at infinity. *)
Theorem point_mul_correct b p s :
  Nonsingular b -> jreduced p -> onc b (jval p) ->
  Forall is_byte s -> length s = 21%nat ->
  (forall k, 1 <= k <= 15 -> gmul (Z.to_N k) (jval p) <> Inf) ->
  jreduced (point_mul p s) /\ jval (point_mul p s) = gmul (Z.to_N (le_value s)) (jval p).
Proof.
  intros Hb Hp HC Hs Hl Hk. apply (point_mul_jholds b p (jval p)); auto. now split.
Qed.

Lemma base_j_fe : Aff (fe (px base_j)) (fe (py base_j)) = base.
Proof. vm_compute. reflexivity. Qed.

Lemma point_mul_correct_witness :
  jval (point_mul base_j (bin21 1000)) = gmul 1000 (jval base_j).
Proof.
  apply (point_mul_correct (b_of false)); try apply bin21_bytes.
  - exact (nonsingular_b_of false).
  - exact base_j_reduced.
  - exact base_j_onc.
  - rewrite base_j_val, base_j_fe. intros k Hk.
    replace (Z.to_N k) with (N.of_nat (Z.to_nat (k - 1)) + 1)%N by lia.
    apply (finite_from_ok 15); [rewrite gmul_1; vm_compute; reflexivity | lia].
Defined.

(** [affine] turns a finite point into the same point with Z = 1 and both
    coordinates in their unique minimal form, and leaves infinity alone. *)
Theorem affine_correct p :
  jreduced p ->
  jval (affine p) = jval p /\
  (jval p <> Inf -> pz (affine p) = coord1 /\ minimal (px (affine p)) /\ minimal (py (affine p))).
Proof.
  intros Hp. destruct (jval p) as [| x y] eqn:E.
  - rewrite affine_inf by assumption. split; [exact E | congruence].
  - destruct (affine_aff p x y Hp E) as (cx & cy & -> & Hcx & Hcy & <- & <-).
    split; [apply jval_1 | now intros _].
Qed.

Lemma affine_correct_witness : jval (affine (point_double base_j)) = jval (point_double base_j).
Proof. apply affine_correct. apply point_double_jholds. exact base_j_reduced. Defined.

(** ** Field operations *)

(** C30: a product of two field elements with limbs below 2^60 never wraps a 128-bit
    coefficient, and [felem_reduce] brings it back to two 56-bit limbs and a top limb
    of at most 2^56 with the same value modulo p. *)
Theorem felem_mul_reduce_sound a c :
  limbs_lt (2 ^ 60) a -> limbs_lt (2 ^ 60) c ->
  wide_val (felem_mul a c) = felem a * felem c /\
  reduced (felem_reduce (felem_mul a c)) /\
  (felem (felem_reduce (felem_mul a c)) == felem a * felem c)%fp.
Proof.
  intros Ha Hc. destruct (felem_mul_ok a c _ _ Ha Hc ltac:(lia)) as [Hl Hv].
  split; [exact Hv |]. destruct (felem_reduce_ok (felem_mul a c)) as [Hr He].
  - unfold wides_lt in *. lia.
  - split; [exact Hr |]. now rewrite He, Hv.
Qed.

Lemma felem_mul_reduce_sound_witness :
  reduced (felem_reduce (felem_mul (Coord (2 ^ 60 - 1) (2 ^ 60 - 1) (2 ^ 60 - 1)) curve_b)).
Proof. apply felem_mul_reduce_sound; repeat split; discriminate || reflexivity. Defined.

(** [felem_contract] yields the unique minimal representation of what
    [felem_reduce] returns, so two reduced arrays that hold the same field element
    contract to equal arrays. *)
Theorem felem_contract_canonical a c :
  reduced a -> reduced c -> (felem a == felem c)%fp ->
  felem_contract a = felem_contract c /\ minimal (felem_contract a).
Proof.
  intros Ha Hc E. destruct (felem_contract_ok a Ha) as [Ma Ea].
  destruct (felem_contract_ok c Hc) as [Mc Ec]. split; [| exact Ma].
  assert (felem (felem_contract a) = felem (felem_contract c)) as EV.
  { apply eqp_canonical; [unfold minimal, felem in *; lia .. |]. now rewrite Ea, Ec. }
  destruct (felem_contract a) as [a0 a1 a2], (felem_contract c) as [c0 c1 c2]. unfold minimal, felem in *. cbn [l0 l1 l2] in *.
  f_equal; lia.
Qed.

Lemma felem_contract_canonical_witness :
  felem_contract (Coord (2 ^ 56 - 257) (2 ^ 56 - 1) (2 ^ 56 - 1)) = felem_contract (Coord 0 0 0) /\
  minimal (felem_contract (Coord (2 ^ 56 - 257) (2 ^ 56 - 1) (2 ^ 56 - 1))).
Proof.
  apply felem_contract_canonical; try (repeat split; discriminate || reflexivity).
Defined.

(** [felem_inv] inverts: the product with its input reduces to 1, for every
    input with limbs below 2^60 that is not zero modulo p. *)
Theorem felem_inv_inverts c :
  limbs_lt (2 ^ 60) c -> felem c mod p168 <> 0 ->
  reduced (felem_inv c) /\ (felem (felem_inv c) * felem c == 1)%fp.
Proof.
  intros Hl Hn. destruct (rholds_inv c (fe c)) as [Hr Hv]; [now split |]. split; [exact Hr |].
  apply fz_eqp. rewrite fz_mul. fold (fe (felem_inv c)) (fe c). rewrite Hv.
  assert (fe c <> Zmod.zero) as Hc by (unfold fe; now rewrite fz_0_iff).
  transitivity (Zmod.one : Fp); [field; exact Hc | reflexivity].
Qed.

Lemma felem_inv_inverts_witness :
  reduced (felem_inv three) /\ (felem (felem_inv three) * felem three == 1)%fp.
Proof. apply felem_inv_inverts; [repeat split; discriminate || reflexivity | discriminate]. Defined.

(** [felem_sqrt] finds square roots: for every element that is a square its
    result squares to it, and for any other element z it squares to -z. *)
Theorem felem_sqrt_correct c :
  limbs_lt (2 ^ 60) c ->
  let r := felem (felem_sqrt c) in
  reduced (felem_sqrt c) /\
  ((exists s, s * s == felem c) -> r * r == felem c)%fp /\
  ((r * r == felem c) \/ (r * r == - felem c))%fp.
Proof.
  intros Hl r. destruct (rholds_sqrt c (fe c)) as [Hr Hv]; [now split |].
  fold (sqrt_pow (fe c)) in Hv. assert (fz (r * r) = (sqrt_pow (fe c) * sqrt_pow (fe c))%Fp) as E.
  { rewrite fz_mul. unfold r. fold (fe (felem_sqrt c)). now rewrite Hv. }
  split; [exact Hr | split].
  - intros [s Hs]. apply fz_eqp. rewrite E. apply fz_eqp in Hs. rewrite fz_mul in Hs.
    unfold fe. rewrite <- Hs. apply square_pow.
  - rewrite !fz_eqp, fz_opp, E. apply (sqrt_pow_square (fe c)).
Qed.

Lemma felem_sqrt_correct_witness : reduced (felem_sqrt three).
Proof. apply felem_sqrt_correct. repeat split; discriminate || reflexivity. Defined.

(** ** Encoding and parameters *)

(** Decoding 21 bytes and encoding again gives the same bytes, encoding and
    decoding gives the same limbs, and the byte after the array that
    [bin21_to_felem] reads does not reach its result. *)
Theorem bin21_roundtrip past past' x c :
  is_byte past -> is_byte past' -> bytes21 x -> limbs_lt (2 ^ 56) c ->
  felem_to_bin21 (bin21_to_felem past x) = x /\
  bin21_to_felem past (felem_to_bin21 c) = c /\
  bin21_to_felem past x = bin21_to_felem past' x.
Proof.
  intros Hp Hp' Hx Hc. split; [now apply felem_of_bin21 | split; [now apply bin21_of_felem |]].
  destruct (split21 x Hx) as (a & b & d & -> & ?). now rewrite !bin21_split by easy.
Qed.

Lemma bin21_roundtrip_witness :
  felem_to_bin21 (bin21_to_felem 255 (bin21 12345)) = bin21 12345.
Proof.
  apply (bin21_roundtrip 255 0 (bin21 12345) curve_b); try apply bin21_bytes; try exact byte_0.
  - unfold is_byte. lia.
  - repeat split; discriminate || reflexivity.
Defined.

(** Of the table [ptwist168_curve_params], p, b and the base point are those of
    [ptwist_pointmul]'s curve, and the base point is on it; a is not p - 3. *)
Theorem curve_params_checked :
  let param i := le_value (rev (nth i ptwist168_curve_params [])) in
  param 0%nat = p168 /\ param 2%nat = felem curve_b /\
  onc (fe curve_b) (Aff (fz (param 3%nat)) (fz (param 4%nat))) /\
  param 1%nat = p168 - 3 - 2 ^ 40.
Proof.
  split; [reflexivity | split; [reflexivity | split; [| reflexivity]]].
  apply (onc_check false). vm_compute. reflexivity.
Qed.
