(* ===== verification/CLib.v ===== *)
(** * The C runtime the components use

    What a call of the programs can end in, buffers written by [memcpy] and
    [memset], files read by [fread], and the number formats of [printf]. *)
From S2P Require Import Prelude Bytes.
From Stdlib Require Import ZArith Lia List Bool Ascii String.
Import ListNotations.
Open Scope Z_scope.

(** ** Outcomes: a value, [exit(code)], or a failed [assert] *)

Inductive outcome (A : Type) : Type :=
| Ret (a : A)
| Exit (code : Z)
| Abrt.
Arguments Ret {A} a.
Arguments Exit {A} code.
Arguments Abrt {A}.

Definition obind {A B} (m : outcome A) (f : A -> outcome B) : outcome B :=
  match m with Ret a => f a | Exit c => Exit c | Abrt => Abrt end.

Declare Scope outcome_scope.
Delimit Scope outcome_scope with out.
Notation "x <- m ;; k" := (obind m (fun x => k))
  (at level 100, m at next level, right associativity) : outcome_scope.

Lemma obind_ret {A B} (m : outcome A) (f : A -> outcome B) b :
  obind m f = Ret b -> exists a, m = Ret a /\ f a = Ret b.
Proof. destruct m; try discriminate. eauto. Qed.

(** ** Buffers *)

(** [memcpy(mem + off, bs, len)] for a write inside the buffer. *)
Definition overwrite {A} (off : nat) (bs mem : list A) : list A :=
  (firstn off mem ++ bs ++ skipn (off + List.length bs) mem)%list.

Lemma overwrite_length {A} off (bs mem : list A) :
  (off + List.length bs <= List.length mem)%nat ->
  List.length (overwrite off bs mem) = List.length mem.
Proof. intros H. unfold overwrite. rewrite !length_app, length_firstn, length_skipn. lia. Qed.

(** Two adjacent writes that fill a buffer leave nothing of it. *)
Lemma overwrite_fill {A} (a b mem : list A) :
  (List.length a + List.length b = List.length mem)%nat ->
  overwrite (List.length a) b (overwrite 0 a mem) = (a ++ b)%list.
Proof.
  intros H. unfold overwrite. cbn [firstn Nat.add app].
  rewrite firstn_exact by reflexivity.
  rewrite (skipn_all2 (n := List.length a + List.length b)); [now rewrite app_nil_r |].
  rewrite length_app, length_skipn. lia.
Qed.

(** What was copied to the start of a buffer. *)
Lemma overwrite_prefix {A} n (bs buf : list A) : List.length bs = n -> firstn n (overwrite 0 bs buf) = bs.
Proof. apply (firstn_exact n bs). Qed.

(** ** Files *)

(** [fread(buf, n, 1, fp)]: the block and the rest, or nothing on a short read. *)
Definition fread (n : nat) (file : list Z) : option (list Z * list Z) :=
  if (n <=? List.length file)%nat then Some (firstn n file, skipn n file) else None.

Lemma fread_app n a rest : List.length a = n -> fread n (a ++ rest)%list = Some (a, rest).
Proof.
  intros H. unfold fread. rewrite length_app, H.
  rewrite (proj2 (Nat.leb_le _ _)) by lia. now rewrite firstn_exact, skipn_exact.
Qed.

Lemma fread_short n file : (List.length file < n)%nat -> fread n file = None.
Proof. intros H. unfold fread. now rewrite (proj2 (Nat.leb_gt _ _)). Qed.

(** ** Characters and C strings *)

(** The bytes of a string literal, without its terminator. *)
Definition chars (s : string) : list Z :=
  map (fun a => Z.of_nat (nat_of_ascii a)) (list_ascii_of_string s).

(** What a C string function reads from a buffer: up to the first NUL. *)
Fixpoint cstr (mem : list Z) : list Z :=
  match mem with
  | [] => []
  | c :: r => if c =? 0 then [] else c :: cstr r
  end.

Lemma cstr_app a b : Forall (fun c => c <> 0) a -> cstr (a ++ b)%list = (a ++ cstr b)%list.
Proof.
  induction 1 as [| c r Hc Hr IH]; [reflexivity |]. cbn [app cstr].
  rewrite (proj2 (Z.eqb_neq c 0)) by exact Hc. now rewrite IH.
Qed.

(** ** Big-endian values *)

Definition be_value (bs : list Z) : Z := le_value (rev bs).

Lemma be_value_cons b bs : be_value (b :: bs) = b * 256 ^ Z.of_nat (List.length bs) + be_value bs.
Proof.
  unfold be_value. cbn [rev]. rewrite le_value_app, length_rev. cbn [le_value]. lia.
Qed.

Lemma be_value_bound bs : Forall is_byte bs -> 0 <= be_value bs < 256 ^ Z.of_nat (List.length bs).
Proof.
  intros H. unfold be_value. rewrite <- (length_rev bs). apply le_value_bound. now apply Forall_rev.
Qed.

(** Two bytes joined. *)
Lemma lor_shift a b : 0 <= b < 256 -> Z.lor (Z.shiftl a 8) b = 256 * a + b.
Proof.
  intros Hb. apply Z.bits_inj'. intros n Hn. rewrite Z.lor_spec, Z.shiftl_spec by assumption.
  destruct (Z.lt_ge_cases n 8) as [Hlt|Hge].
  - rewrite Z.testbit_neg_r by lia. cbn [orb]. rewrite <- (Z.mod_pow2_bits_low (256 * a + b) 8 n) by lia.
    f_equal. change (2 ^ 8) with 256. rewrite Z.mul_comm, Z.add_comm, Z.mod_add, Z.mod_small; lia.
  - assert (Z.testbit b n = false) as ->.
    { destruct (Z.eq_dec b 0) as [->|]; [apply Z.bits_0|]. apply Z.bits_above_log2; [lia|].
      apply Z.log2_lt_pow2; [lia|]. apply Z.lt_le_trans with (2 ^ 8); [cbn; lia|]. apply Z.pow_le_mono_r; lia. }
    rewrite orb_false_r. replace n with ((n - 8) + 8) at 2 by lia. rewrite <- Z.div_pow2_bits by lia. f_equal.
    change (2 ^ 8) with 256. rewrite Z.mul_comm, Z.div_add_l, Z.div_small; lia.
Qed.
