(* ===== verification/Tag.v ===== *)
(** * Steganographic tags

    [station/tag]: [gen_tag] hides a key agreement in 28 bytes that only the owner
    of the private key can recognise with [check_tag].  [tag.c] holds the library
    the client and the station share, [genkeys.c] makes the keys, [rclient.c] and
    [rserv.c] exercise both sides over files.

    The point multiplication is an interface ([KeyAgreement]), discharged for
    [ptwist_pointmul]; SHA-256 of OpenSSL and the random bytes are parameters. *)
From S2P Require Import Prelude Bytes CLib.
From S2P Require Import Felem FelemPow Prime168 Curve Fp Group PtPoint PtMul Ptwist PtwistThms.
From Stdlib Require Import ZArith Lia List Bool Zmod.
Import ListNotations.
Open Scope Z_scope.

(** ** ptwist.h: sizes *)

Definition PTWIST_BITS : nat := 168.
Definition PTWIST_BYTES : nat := PTWIST_BITS / 8.
Definition PTWIST_TAG_BITS : nat := 224.
Definition PTWIST_TAG_BYTES : nat := PTWIST_TAG_BITS / 8.
Definition PTWIST_PUZZLE_STRENGTH : nat := 0.
Definition PTWIST_RESP_BITS : nat :=
  if (PTWIST_PUZZLE_STRENGTH =? 0)%nat then 0 else PTWIST_PUZZLE_STRENGTH + 6.
Definition PTWIST_HASH_SHOWBITS : nat := PTWIST_TAG_BITS - PTWIST_BITS - PTWIST_RESP_BITS.

(** What surrounds a call of [ptwist_pointmul] in memory: the byte after its input
    and the uninitialised contents of its result array. *)
Record env := Env { past_byte : Z; junk : coord }.

(** ** The interface to the key agreement *)

Class KeyAgreement (pm : env -> list Z -> list Z -> list Z)
      (usable : list Z -> list Z -> list Z -> Prop) : Prop := {
  pm_bytes : forall e x s, bytes21 (pm e x s);
  pm_agree : forall g a b e1 e2 e3 e4, usable g a b ->
    pm e1 (pm e2 g a) b = pm e3 (pm e4 g b) a
}.

(** ** The operations *)

Section Tag.
Context (pm : env -> list Z -> list Z -> list Z).
Context (SHA256 : list Z -> list Z).

(** The globals of [tag.c]. *)
Record tag_state := TagState {
  maingen : list Z; twistgen : list Z; mainpub : list Z; twistpub : list Z
}.

(** [gen_tag]: [r1] and [seckey] are what the two [RAND_bytes] calls return.  The
    tag buffer starts as 28 bytes 0xAA; the puzzle code is compiled out at
    [PTWIST_PUZZLE_STRENGTH] 0. *)
Definition gen_tag (e1 e2 : env) (st : tag_state) (r1 : Z) (seckey context : list Z)
  : list Z * list Z :=
  let tag := repeat 0xAA PTWIST_TAG_BYTES in
  let usetwist := Z.land r1 1 in
  let tag := overwrite 0 (pm e1 (if usetwist =? 0 then maingen st else twistgen st) seckey) tag in
  let sharedsec := pm e2 (if usetwist =? 0 then mainpub st else twistpub st) seckey in
  let taghashout := SHA256 (sharedsec ++ context) in
  let tag := overwrite PTWIST_BYTES (firstn (PTWIST_HASH_SHOWBITS / 8) taghashout) tag in
  (tag, firstn 16 (skipn 16 taghashout)).

Definition bytes_eqb (a b : list Z) : bool := if list_eq_dec Z.eq_dec a b then true else false.

(** [check_tag]: the return value and the contents of [key], which starts as [key]. *)
Definition check_tag (jk : coord) (key privkey tag context : list Z) : Z * list Z :=
  let sharedsec := pm (Env (nth PTWIST_BYTES tag 0) jk) (firstn PTWIST_BYTES tag) privkey in
  let taghashout := SHA256 (sharedsec ++ context) in
  let ret := c_bool (negb (bytes_eqb (firstn (PTWIST_HASH_SHOWBITS / 8) (skipn PTWIST_BYTES tag))
                                     (firstn (PTWIST_HASH_SHOWBITS / 8) taghashout))) in
  (ret, if ret =? 0 then firstn 16 (skipn 16 taghashout) else key).

(** [tag_init] sets the generators: x = 2 on the curve, x = 0 on the twist. *)
Definition tag_init (st : tag_state) : tag_state :=
  TagState (2 :: repeat 0 (PTWIST_BYTES - 1)) (repeat 0 PTWIST_BYTES) (mainpub st) (twistpub st).

(** [tag_load_pubkey]: [file] is the contents, or [None] if [fopen] fails. *)
Definition tag_load_pubkey (file : option (list Z)) (st : tag_state) : outcome tag_state :=
  match file with
  | None => Exit 1
  | Some f =>
      match fread PTWIST_BYTES f with
      | None => Exit 1
      | Some (mp, rest) =>
          match fread PTWIST_BYTES rest with
          | None => Exit 1
          | Some (tp, _) => Ret (TagState (maingen st) (twistgen st) mp tp)
          end
      end
  end.

Definition tag_load_pubkey_bytes (keybytes : list Z) (len : Z) (st : tag_state)
  : outcome tag_state :=
  if len =? Z.of_nat (PTWIST_BYTES + PTWIST_BYTES)
  then Ret (TagState (maingen st) (twistgen st) (firstn PTWIST_BYTES keybytes)
                     (firstn PTWIST_BYTES (skipn PTWIST_BYTES keybytes)))
  else Abrt.

Definition tag_load_privkey (file : option (list Z)) : outcome (list Z) :=
  match file with
  | None => Exit 1
  | Some f => match fread PTWIST_BYTES f with None => Exit 1 | Some (k, _) => Ret k end
  end.

(** genkeys.c: [random] is what /dev/random yields; the files [privkey] and [pubkey]. *)
Definition genkeys_main (e1 e2 : env) (random : list Z) : outcome (list Z * list Z) :=
  match fread PTWIST_BYTES random with
  | None => Exit 1
  | Some (privkey, _) =>
      let maingen := 2 :: repeat 0 (PTWIST_BYTES - 1) in
      let twistgen := repeat 0 PTWIST_BYTES in
      let mainpub := pm e1 maingen privkey in
      let twistpub := pm e2 twistgen privkey in
      Ret (privkey, mainpub ++ twistpub)
  end.

(** The string "context" both test programs use. *)
Definition test_context : list Z := [99; 111; 110; 116; 101; 120; 116].

(** rclient.c: one tag per element of [rands], appended to the file [tags], if it opens. *)
Definition rclient_main (e1 e2 : env) (pubkey : option (list Z)) (tags_opens : bool)
           (rands : list (Z * list Z)) : outcome (list Z) :=
  let st := TagState (2 :: repeat 0 (PTWIST_BYTES - 1)) (repeat 0 PTWIST_BYTES) [] [] in
  (st <- tag_load_pubkey pubkey st ;;
   if negb tags_opens then Exit 1 else
   Ret (flat_map (fun r => fst (gen_tag e1 e2 st (fst r) (snd r) test_context)) rands))%out.

(** rserv.c: the loop over the tags file, counting; [fuel] bounds the records. *)
Fixpoint rserv_loop (jk : coord) (key0 privkey : list Z) (fuel : nat) (fp : list Z)
         (tottagged totuntagged : Z) : Z * Z :=
  match fuel with
  | O => (tottagged, totuntagged)
  | S n =>
      match fread PTWIST_TAG_BYTES fp with
      | None => (tottagged, totuntagged)
      | Some (tag, fp) =>
          let res := fst (check_tag jk key0 privkey tag test_context) in
          rserv_loop jk key0 privkey n fp (tottagged + c_bool (res =? 0))
                     (totuntagged + c_bool (negb (res =? 0)))
      end
  end.

Definition rserv_main (jk : coord) (key0 : list Z) (privkey tags : option (list Z))
  : outcome (Z * Z) :=
  (privkey <- tag_load_privkey privkey ;;
   match tags with
   | None => Exit 1
   | Some f => Ret (rserv_loop jk key0 privkey (S (length f)) f 0 0)
   end)%out.
End Tag.

(** ** The tag is recognised *)

Section TagCorrect.
Context {pm : env -> list Z -> list Z -> list Z} {usable : list Z -> list Z -> list Z -> Prop}
        {KA : KeyAgreement pm usable}.
Context (SHA256 : list Z -> list Z) (sha_len : forall m, length (SHA256 m) = 32%nat).

Definition gen_of (st : tag_state) (r1 : Z) : list Z :=
  if Z.land r1 1 =? 0 then maingen st else twistgen st.
Definition pub_of (st : tag_state) (r1 : Z) : list Z :=
  if Z.land r1 1 =? 0 then mainpub st else twistpub st.

(** Every byte of the tag buffer is written: x-coordinate, then 7 hash bytes. *)
Lemma gen_tag_shape e1 e2 st r1 seckey context :
  let h := SHA256 (pm e2 (pub_of st r1) seckey ++ context) in
  gen_tag pm SHA256 e1 e2 st r1 seckey context =
  (pm e1 (gen_of st r1) seckey ++ firstn 7 h, firstn 16 (skipn 16 h)).
Proof using KA sha_len.
  intros h. unfold gen_tag. cbv zeta. fold (gen_of st r1) (pub_of st r1) h.
  destruct (pm_bytes e1 (gen_of st r1) seckey) as [_ L]. f_equal.
  change PTWIST_BYTES with 21%nat. rewrite <- L. apply overwrite_fill.
  unfold h. rewrite L, length_firstn, sha_len. reflexivity.
Qed.

Lemma tag_length e1 e2 st r1 seckey context :
  length (fst (gen_tag pm SHA256 e1 e2 st r1 seckey context)) = PTWIST_TAG_BYTES.
Proof using KA sha_len.
  rewrite gen_tag_shape. cbn [fst]. destruct (pm_bytes e1 (gen_of st r1) seckey) as [_ L].
  now rewrite length_app, L, length_firstn, sha_len.
Qed.

Lemma bytes_eqb_refl a : bytes_eqb a a = true.
Proof. unfold bytes_eqb. now destruct (list_eq_dec Z.eq_dec a a). Qed.

Lemma check_tag_split jk key privkey x h context :
  length x = 21%nat -> length h = 7%nat ->
  let hash := SHA256 (pm (Env (nth 0 h 0) jk) x privkey ++ context) in
  check_tag pm SHA256 jk key privkey (x ++ h) context =
  if bytes_eqb h (firstn 7 hash) then (0, firstn 16 (skipn 16 hash)) else (1, key).
Proof using Type.
  intros Hx Hh hash. unfold check_tag. change PTWIST_BYTES with 21%nat.
  rewrite (firstn_exact 21), (skipn_exact 21), app_nth2 by lia.
  replace (21 - length x)%nat with 0%nat by lia. fold hash.
  change (PTWIST_HASH_SHOWBITS / 8)%nat with 7%nat. rewrite (firstn_all2 (n := 7) h) by lia.
  destruct (bytes_eqb h (firstn 7 hash)); reflexivity.
Qed.

Lemma tag_recognised e1 e2 e3 jk key0 st r1 seckey privkey context :
  usable (gen_of st r1) seckey privkey ->
  pub_of st r1 = pm e3 (gen_of st r1) privkey ->
  let '(tag, key) := gen_tag pm SHA256 e1 e2 st r1 seckey context in
  check_tag pm SHA256 jk key0 privkey tag context = (0, key).
Proof using KA sha_len.
  intros HU HP. rewrite gen_tag_shape.
  destruct (pm_bytes e1 (gen_of st r1) seckey) as [_ L].
  rewrite check_tag_split; [| exact L | now rewrite length_firstn, sha_len].
  rewrite (pm_agree _ _ _ _ e1 e2 e3 HU), <- HP, bytes_eqb_refl. reflexivity.
Qed.

(** Public keys from [genkeys], loaded by either loader. *)
Lemma load_generated e1 e2 random privkey pubkey st :
  genkeys_main pm e1 e2 random = Ret (privkey, pubkey) ->
  let st' := TagState (maingen st) (twistgen st)
               (pm e1 (2 :: repeat 0 20) privkey) (pm e2 (repeat 0 21) privkey) in
  privkey = firstn PTWIST_BYTES random /\ tag_load_pubkey (Some pubkey) st = Ret st' /\
  tag_load_pubkey_bytes pubkey 42 st = Ret st'.
Proof using KA.
  unfold genkeys_main. destruct (fread PTWIST_BYTES random) as [[k rest] |] eqn:E; [| discriminate].
  intros [= <- <-]. cbv zeta.
  destruct (pm_bytes e1 (2 :: repeat 0 20) k) as [_ L1].
  destruct (pm_bytes e2 (repeat 0 21) k) as [_ L2].
  split; [| split].
  - unfold fread in E. destruct (_ <=? _)%nat; [| discriminate]. injection E as <- _. reflexivity.
  - unfold tag_load_pubkey. rewrite fread_app by exact L1.
    rewrite <- (app_nil_r (pm e2 _ k)). rewrite fread_app by exact L2. reflexivity.
  - unfold tag_load_pubkey_bytes. cbn [Z.eqb]. change PTWIST_BYTES with 21%nat.
    rewrite (firstn_exact 21), (skipn_exact 21) by exact L1.
    rewrite (firstn_all2 (n := 21) (pm e2 _ k)); [reflexivity |].
    apply Nat.eq_le_incl. exact L2.
Qed.

Lemma loaded_pub e1 e2 random privkey pubkey st0 st r1 :
  genkeys_main pm e1 e2 random = Ret (privkey, pubkey) ->
  tag_load_pubkey (Some pubkey) (tag_init st0) = Ret st ->
  exists e, pub_of st r1 = pm e (gen_of st r1) privkey.
Proof using KA.
  intros Hk Hl. destruct (load_generated _ _ _ _ _ (tag_init st0) Hk) as (_ & E & _).
  rewrite Hl in E. injection E as ->. exists (if Z.land r1 1 =? 0 then e1 else e2).
  unfold pub_of, gen_of. cbn [mainpub twistpub maingen twistgen tag_init].
  destruct (Z.land r1 1 =? 0); reflexivity.
Qed.
End TagCorrect.

(** ** [ptwist_pointmul] provides the interface *)

Definition ptwist_pm (e : env) (x s : list Z) : list Z :=
  ptwist_pointmul (wrap 8 (past_byte e)) (junk e) x s.

(** The secrets [a] and [b] can agree from [g]: all products are finite, and none
    is one that the twist branch truncates. *)
Definition ptwist_usable (g a b : list Z) : Prop :=
  let X := fz (le_value g) in
  let na := Z.to_N (le_value a) in let nb := Z.to_N (le_value b) in
  bytes21 g /\ bytes21 a /\ bytes21 b /\ table_finite X /\
  exists va vb v,
    xmul X na = Some va /\ xmul X nb = Some vb /\ xmul X (na * nb) = Some v /\
    table_finite va /\ table_finite vb /\
    ~ neg_truncates X va /\ ~ neg_truncates X vb /\ ~ neg_truncates va v /\ ~ neg_truncates vb v.

Lemma past_is_byte e : is_byte (wrap 8 (past_byte e)).
Proof. apply wrap_in_width. lia. Qed.

#[export] Instance ptwist_agreement : KeyAgreement ptwist_pm ptwist_usable.
Proof.
  split.
  - intros e x s. unfold ptwist_pm, ptwist_pointmul. destruct (pointmul_start _ x).
    apply felem_to_bin21_bytes.
  - intros g a b e1 e2 e3 e4
      (Hg & Ha & Hb & HF & va & vb & v & Hva & Hvb & Hv & HFa & HFb & N1 & N2 & N3 & N4).
    unfold ptwist_pm.
    rewrite (pointmul_bytes (wrap 8 (past_byte e2)) _ g a va),
      (pointmul_bytes (wrap 8 (past_byte e4)) _ g b vb) by auto using past_is_byte.
    pose proof (xmul_xmul _ _ _ (Z.to_N (le_value b)) Hva) as Ea.
    pose proof (xmul_xmul _ _ _ (Z.to_N (le_value a)) Hvb) as Eb.
    rewrite N.mul_comm in Ea.
    transitivity (le_bytes 21 (Zmod.unsigned v)); [| symmetry];
      apply pointmul_bytes; rewrite ?fz_unsigned; auto using le_bytes21, past_is_byte; congruence.
Qed.

(** ** Theorems *)

(** A hash function for the instances: 32 bytes that depend on the message. *)
Definition toy_hash (m : list Z) : list Z := le_bytes 32 (le_value m + 1).

Lemma toy_hash_len m : length (toy_hash m) = 32%nat.
Proof. apply le_bytes_length. Qed.

(** The base point with secrets 2 and 3. *)
Lemma usable_2_3 : ptwist_usable (bin21 2) (bin21 2) (bin21 3).
Proof.
  unfold ptwist_usable. change (fz (le_value (bin21 2))) with (fz 2).
  change (Z.to_N (le_value (bin21 2))) with 2%N. change (Z.to_N (le_value (bin21 3))) with 3%N.
  repeat (split; [apply bin21_bytes |]). split; [exact base_finite |].
  destruct xmul_base_6 as [v Hv]. exists x2, x3, v.
  split; [now rewrite xmul_base, base_x2 |]. split; [now rewrite xmul_base, base_x3 |].
  split; [exact Hv |]. split; [exact x2_finite |]. split; [exact x3_finite |].
  split; [| split; [| split]].
  1,2: apply (main_never_truncates _ base_y); [exact base_onc | vm_compute; reflexivity].
  - apply (main_never_truncates _ y2); [exact x2_onc | vm_compute; reflexivity].
  - apply (main_never_truncates _ y3); [exact x3_onc | vm_compute; reflexivity].
Qed.

(** C6: a tag that [gen_tag] makes from the public keys of a private key is accepted
    by [check_tag] with that private key and the same context, and both sides hold
    the same 16-byte key, on whichever of the two curves the client picked. *)
Theorem gen_tag_check_tag SHA256 e1 e2 ek1 ek2 jk key0 st0 random privkey pubkey st r1 seckey context :
  (forall m, length (SHA256 m) = 32%nat) ->
  genkeys_main ptwist_pm ek1 ek2 random = Ret (privkey, pubkey) ->
  tag_load_pubkey (Some pubkey) (tag_init st0) = Ret st ->
  ptwist_usable (gen_of st r1) seckey privkey ->
  let '(tag, key) := gen_tag ptwist_pm SHA256 e1 e2 st r1 seckey context in
  check_tag ptwist_pm SHA256 jk key0 privkey tag context = (0, key).
Proof.
  intros Hs Hk Hl Hu. destruct (loaded_pub _ _ _ _ _ _ _ r1 Hk Hl) as [e E].
  now apply (tag_recognised SHA256 Hs e1 e2 e).
Qed.

Lemma gen_tag_check_tag_witness :
  let e := Env 0 coord0 in
  exists st, tag_load_pubkey (Some (ptwist_pm e (bin21 2) (bin21 3) ++ ptwist_pm e (repeat 0 21) (bin21 3)))
               (tag_init (TagState [] [] [] [])) = Ret st /\
  (let '(tag, key) := gen_tag ptwist_pm toy_hash e e st 0 (bin21 2) test_context in
   check_tag ptwist_pm toy_hash coord0 [] (bin21 3) tag test_context = (0, key)).
Proof.
  intros e. destruct (load_generated (KA := ptwist_agreement) e e (bin21 3) (bin21 3)
    (ptwist_pm e (bin21 2) (bin21 3) ++ ptwist_pm e (repeat 0 21) (bin21 3))
    (tag_init (TagState [] [] [] [])) eq_refl) as (_ & E & _).
  eexists. split; [exact E |].
  apply (gen_tag_check_tag toy_hash e e e e coord0 [] (TagState [] [] [] []) (bin21 3) (bin21 3)
    (ptwist_pm e (bin21 2) (bin21 3) ++ ptwist_pm e (repeat 0 21) (bin21 3)));
    [exact toy_hash_len | reflexivity | exact E | exact usable_2_3].
Defined.

(** [check_tag] returns 0 exactly for the tags whose last 7 bytes are the first
    7 bytes of the hash of shared secret and context; any other tag returns 1 and
    leaves the key buffer as it was. *)
Theorem check_tag_decides SHA256 jk key privkey tag context :
  length tag = PTWIST_TAG_BYTES ->
  let hash := SHA256 (ptwist_pm (Env (nth 21 tag 0) jk) (firstn 21 tag) privkey ++ context) in
  check_tag ptwist_pm SHA256 jk key privkey tag context =
  if bytes_eqb (skipn 21 tag) (firstn 7 hash) then (0, firstn 16 (skipn 16 hash)) else (1, key).
Proof.
  intros Hl hash.
  pose proof (check_tag_split (pm := ptwist_pm) SHA256 jk key privkey (firstn 21 tag) (skipn 21 tag) context)
    as H.
  rewrite firstn_skipn, nth_skipn in H. apply H; rewrite ?length_firstn, ?length_skipn, Hl; reflexivity.
Qed.

Lemma check_tag_decides_witness :
  let hash := toy_hash (ptwist_pm (Env 0 coord0) (bin21 2) (bin21 3)) in
  check_tag ptwist_pm toy_hash coord0 [1; 2] (bin21 3) (bin21 2 ++ repeat 0 7) [] =
  if bytes_eqb (repeat 0 7) (firstn 7 hash) then (0, firstn 16 (skipn 16 hash)) else (1, [1; 2]).
Proof.
  intros hash. unfold hash. rewrite <- (app_nil_r (ptwist_pm (Env 0 coord0) (bin21 2) (bin21 3))).
  apply (check_tag_decides toy_hash coord0 [1; 2] (bin21 3) (bin21 2 ++ repeat 0 7) []). reflexivity.
Defined.

(** The counting loop of rserv.c over a file of accepted tags. *)
Lemma rserv_all_tagged pm SHA256 jk key0 privkey tags n a b :
  Forall (fun t => length t = PTWIST_TAG_BYTES /\
                   fst (check_tag pm SHA256 jk key0 privkey t test_context) = 0) tags ->
  (length tags < n)%nat ->
  rserv_loop pm SHA256 jk key0 privkey n (concat tags) a b = (a + Z.of_nat (length tags), b).
Proof.
  intros H. revert n a. induction H as [| t ts [HL HC] Hts IH]; intros [| n] a Hn; cbn in Hn; try lia.
  - cbn. f_equal. lia.
  - cbn [rserv_loop concat]. rewrite fread_app by exact HL. cbv zeta. rewrite HC.
    change (c_bool (0 =? 0)) with 1. change (c_bool (negb (0 =? 0))) with 0.
    rewrite Z.add_0_r, IH by lia. f_equal. cbn [length]. lia.
Qed.

Lemma concat_long (tags : list (list Z)) :
  Forall (fun t => length t = PTWIST_TAG_BYTES) tags -> (length tags <= length (concat tags))%nat.
Proof.
  induction 1 as [| t ts Ht Hts IH]; cbn [concat length]; [lia |].
  rewrite length_app, Ht. change PTWIST_TAG_BYTES with 28%nat. lia.
Qed.

(** The test pair works end to end: when every random seed can agree with the
    private key, [rserv] run on the tags file that [rclient] wrote from the
    generated public key counts all of them as tagged. *)
Theorem rclient_rserv SHA256 e1 e2 ek1 ek2 jk key0 random privkey pubkey rands :
  (forall m, length (SHA256 m) = 32%nat) ->
  genkeys_main ptwist_pm ek1 ek2 random = Ret (privkey, pubkey) ->
  length privkey = PTWIST_BYTES ->
  (forall r, In r rands ->
     ptwist_usable (if Z.land (fst r) 1 =? 0 then bin21 2 else bin21 0) (snd r) privkey) ->
  exists tags, rclient_main ptwist_pm SHA256 e1 e2 (Some pubkey) true rands = Ret tags /\
    rserv_main ptwist_pm SHA256 jk key0 (Some privkey) (Some tags)
      = Ret (Z.of_nat (length rands), 0).
Proof.
  intros Hs Hk Hp Hu. unfold rclient_main, rserv_main.
  match goal with |- context [tag_load_pubkey _ ?st] =>
    destruct (load_generated _ _ _ _ _ st Hk) as (_ & -> & _) end.
  cbn [obind negb]. cbn [maingen twistgen]. set (st := TagState _ _ _ _).
  eexists. split; [reflexivity |]. unfold tag_load_privkey.
  pose proof (fread_app PTWIST_BYTES privkey [] Hp) as Ek. rewrite app_nil_r in Ek.
  rewrite Ek. cbn [obind].
  set (f := fun r => fst (gen_tag ptwist_pm SHA256 e1 e2 st (fst r) (snd r) test_context)).
  assert (Forall (fun t => length t = PTWIST_TAG_BYTES /\
    fst (check_tag ptwist_pm SHA256 jk key0 privkey t test_context) = 0) (map f rands)) as HF.
  { apply Forall_map, Forall_forall. intros r Hr. split; [now apply tag_length |]. unfold f.
    pose proof (tag_recognised SHA256 Hs e1 e2 (if Z.land (fst r) 1 =? 0 then ek1 else ek2)
      jk key0 st (fst r) (snd r) privkey test_context (Hu r Hr)) as HR.
    destruct (gen_tag _ _ _ _ _ _ _ _) as [tag key]. cbn [fst]. rewrite HR; [reflexivity |].
    unfold pub_of, gen_of. destruct (Z.land (fst r) 1 =? 0); reflexivity. }
  rewrite flat_map_concat_map. f_equal. rewrite rserv_all_tagged by
    (exact HF || (apply Nat.lt_succ_r, concat_long; eapply Forall_impl; [| exact HF]; cbn; tauto)).
  now rewrite length_map, Z.add_0_l.
Qed.

Lemma rclient_rserv_witness :
  let e := Env 0 coord0 in
  let pubkey := ptwist_pm e (bin21 2) (bin21 3) ++ ptwist_pm e (bin21 0) (bin21 3) in
  exists tags, rclient_main ptwist_pm toy_hash e e (Some pubkey) true [(0, bin21 2); (4, bin21 2)] = Ret tags /\
    rserv_main ptwist_pm toy_hash coord0 [] (Some (bin21 3)) (Some tags) = Ret (2, 0).
Proof.
  intros e pubkey.
  apply (rclient_rserv toy_hash e e e e coord0 [] (bin21 3) (bin21 3) pubkey
           [(0, bin21 2); (4, bin21 2)] toy_hash_len eq_refl eq_refl).
  intros r [<- | [<- | []]]; exact usable_2_3.
Defined.
