(* ===== verification/Proxy.v ===== *)
(** * The client's tunnel relay

    [telex-client/proxy.c] and [state.h]: one [telex_state] per accepted
    connection, libevent callbacks that relay bytes both ways with back pressure,
    and reference counters checked by assertions.

    libevent's byte queues are an interface ([EvBuffer]); a bufferevent is the
    registers the code sets on it and its two queues.  Log lines are not modelled. *)
From S2P Require Import Prelude Bytes CLib.
From Stdlib Require Import ZArith Lia List Bool.
Import ListNotations.
Open Scope Z_scope.

(** ** libevent *)

(** What the proxy relies on in [evbuffer]: a queue of bytes. *)
Class EvBuffer (B : Type) := {
  eb_new : B;
  eb_bytes : B -> list Z;
  evbuffer_get_length : B -> Z;
  (** [evbuffer_add_buffer(dst, src)]: the new [dst] and [src] *)
  evbuffer_add_buffer : B -> B -> B * B;
  evbuffer_drain : B -> Z -> B;
  eb_new_empty : eb_bytes eb_new = [];
  get_length_spec : forall b, evbuffer_get_length b = Z.of_nat (length (eb_bytes b));
  add_buffer_dst : forall d s, eb_bytes (fst (evbuffer_add_buffer d s)) = eb_bytes d ++ eb_bytes s;
  add_buffer_src : forall d s, eb_bytes (snd (evbuffer_add_buffer d s)) = [];
  drain_spec : forall b n, 0 <= n -> eb_bytes (evbuffer_drain b n) = skipn (Z.to_nat n) (eb_bytes b)
}.

(** The data callbacks of the proxy. *)
Inductive data_cb := NULL_cb | Read_cb | Drained_write_cb | Close_on_finished_write_cb.

Section Proxy.
Context {B : Type} `{EvBuffer B}.

(** A bufferevent: its queues, the enabled directions, the callbacks, and the write
    watermarks.  A new one has writing enabled and no callback. *)
Record bufferevent := Bev {
  bev_input : B; bev_output : B;
  en_read : bool; en_write : bool;
  readcb : data_cb; writecb : data_cb; eventcb : bool;
  wm_low : Z; wm_high : Z
}.

Definition bufferevent_new : bufferevent :=
  Bev eb_new eb_new false true NULL_cb NULL_cb false 0 0.

Definition bufferevent_setcb (b : bufferevent) (r w : data_cb) (e : bool) : bufferevent :=
  Bev (bev_input b) (bev_output b) (en_read b) (en_write b) r w e (wm_low b) (wm_high b).

Definition bufferevent_setwatermark_write (b : bufferevent) (low high : Z) : bufferevent :=
  Bev (bev_input b) (bev_output b) (en_read b) (en_write b) (readcb b) (writecb b) (eventcb b)
      low high.

Definition bufferevent_enable (b : bufferevent) (r w : bool) : bufferevent :=
  Bev (bev_input b) (bev_output b) (r || en_read b) (w || en_write b) (readcb b) (writecb b)
      (eventcb b) (wm_low b) (wm_high b).

Definition bufferevent_disable_read (b : bufferevent) : bufferevent :=
  Bev (bev_input b) (bev_output b) false (en_write b) (readcb b) (writecb b) (eventcb b)
      (wm_low b) (wm_high b).

Definition with_queues (b : bufferevent) (i o : B) : bufferevent :=
  Bev i o (en_read b) (en_write b) (readcb b) (writecb b) (eventcb b) (wm_low b) (wm_high b).

(** ** State *)

(** The resource counters and the connection counters of [telex_conf]. *)
Record globals := Globals {
  ref_BEV : Z; ref_STATE : Z; ref_SSL : Z;
  count_tunnels : Z; count_open_tunnels : Z
}.

(** [telex_state]; [remotetcp] and [ssl] say whether the pointer is set. *)
Record telex_state := State {
  tid : Z; start_ms : Z;
  local : option bufferevent; remote : option bufferevent; remotetcp : bool; ssl : bool;
  in_local : Z; in_remote : Z
}.

Inductive side := Local | Remote.
Definition other (s : side) : side := match s with Local => Remote | Remote => Local end.
Definition get (s : side) (t : telex_state) : option bufferevent :=
  match s with Local => local t | Remote => remote t end.
Definition put (s : side) (b : bufferevent) (t : telex_state) : telex_state :=
  match s with
  | Local => State (tid t) (start_ms t) (Some b) (remote t) (remotetcp t) (ssl t)
                   (in_local t) (in_remote t)
  | Remote => State (tid t) (start_ms t) (local t) (Some b) (remotetcp t) (ssl t)
                    (in_local t) (in_remote t)
  end.

Definition MAX_OUTPUT_BUFFER : Z := 512 * 1024.

(** [_inc] and [_dec] of the three counters; [_dec] asserts that it stays >= 0. *)
Definition inc_bev (g : globals) : globals :=
  Globals (ref_BEV g + 1) (ref_STATE g) (ref_SSL g) (count_tunnels g) (count_open_tunnels g).
Definition inc_ssl (g : globals) : globals :=
  Globals (ref_BEV g) (ref_STATE g) (ref_SSL g + 1) (count_tunnels g) (count_open_tunnels g).
Definition dec_bev (g : globals) : outcome globals :=
  if 0 <=? ref_BEV g - 1
  then Ret (Globals (ref_BEV g - 1) (ref_STATE g) (ref_SSL g) (count_tunnels g) (count_open_tunnels g))
  else Abrt.
Definition dec_ssl (g : globals) : outcome globals :=
  if 0 <=? ref_SSL g - 1
  then Ret (Globals (ref_BEV g) (ref_STATE g) (ref_SSL g - 1) (count_tunnels g) (count_open_tunnels g))
  else Abrt.
Definition dec_state (g : globals) : outcome globals :=
  if 0 <=? ref_STATE g - 1
  then Ret (Globals (ref_BEV g) (ref_STATE g - 1) (ref_SSL g) (count_tunnels g) (count_open_tunnels g))
  else Abrt.

Open Scope outcome_scope.

(** [StateInit] at time [now]; it asserts that [calloc] returned memory.  The two conf counters are [unsigned int]s. *)
Definition StateInit (calloc_ok : bool) (now : Z) (g : globals) : outcome (globals * telex_state) :=
  if calloc_ok then
    Ret (Globals (ref_BEV g) (ref_STATE g + 1) (ref_SSL g) (w_add 32 (count_tunnels g) 1)
                 (w_add 32 (count_open_tunnels g) 1),
         State (count_tunnels g) now None None false false 0 0)
  else Abrt.

Definition when (c : bool) (f : globals -> outcome globals) (g : globals) : outcome globals :=
  if c then f g else Ret g.

Definition isSome {A} (o : option A) : bool := match o with Some _ => true | None => false end.

(** [StateCleanup]: frees what the state owns, then the state. *)
Definition StateCleanup (g : globals) (t : telex_state) : outcome globals :=
  g <- when (isSome (local t)) dec_bev g ;;
  g <- when (isSome (remote t)) dec_bev g ;;
  g <- when (remotetcp t) dec_bev g ;;
  g <- when (ssl t) dec_ssl g ;;
  dec_state (Globals (ref_BEV g) (ref_STATE g) (ref_SSL g) (count_tunnels g)
                     (w_sub 32 (count_open_tunnels g) 1)).

(** A handler's end: the globals, and the state unless it was freed. *)
Definition freed (g : outcome globals) : outcome (globals * option telex_state) :=
  g <- g ;; Ret (g, None).
Definition kept (g : globals) (t : telex_state) : outcome (globals * option telex_state) :=
  Ret (g, Some t).

(** ** Handlers *)

(** [proxy_accept_cb]: whether [calloc] and the two [bufferevent_socket_new] succeed. *)
Definition proxy_accept_cb (calloc_ok : bool) (now : Z) (local_ok remote_ok : bool) (g : globals)
  : outcome (globals * option telex_state) :=
  x <- StateInit calloc_ok now g ;;
  let '(g, t) := x in
  if negb local_ok then freed (StateCleanup g t) else
  let t := put Local bufferevent_new t in
  let g := inc_bev g in
  if negb remote_ok then freed (StateCleanup g t) else
  let t := State (tid t) (start_ms t) (local t) (remote t) true (ssl t) (in_local t) (in_remote t) in
  let g := inc_bev g in
  kept g t.

(** [proxy_notblocked_getaddrinfo_cb]: whether the lookup found an address, and
    whether [ssl_new_telex] (which sets [state->ssl] when it succeeds) and
    [bufferevent_openssl_filter_new] succeed. *)
Definition getaddrinfo_cb (found ssl_ok filter_ok : bool) (g : globals) (t : telex_state)
  : outcome (globals * option telex_state) :=
  if negb found then freed (StateCleanup g t) else
  if negb ssl_ok then freed (StateCleanup g t) else
  let t := State (tid t) (start_ms t) (local t) (remote t) (remotetcp t) true
                 (in_local t) (in_remote t) in
  let g := inc_ssl g in
  if negb filter_ok then freed (StateCleanup g t) else
  let g := inc_bev g in
  let t := put Remote (bufferevent_setcb bufferevent_new Read_cb NULL_cb true) t in
  match local t with
  | None => Abrt
  | Some l => kept g (put Local (bufferevent_setcb l Read_cb NULL_cb true) t)
  end.

(** [state->in_local += len] or [state->in_remote += len], a [size_t]. *)
Definition count_in (s : side) (len : Z) (t : telex_state) : telex_state :=
  match s with
  | Local => State (tid t) (start_ms t) (local t) (remote t) (remotetcp t) (ssl t)
                   (w_add 64 (in_local t) len) (in_remote t)
  | Remote => State (tid t) (start_ms t) (local t) (remote t) (remotetcp t) (ssl t)
                    (in_local t) (w_add 64 (in_remote t) len)
  end.

(** [read_cb] of the bufferevent on side [s]. *)
Definition read_cb (s : side) (t : telex_state) : outcome telex_state :=
  match get s t with
  | None => Abrt
  | Some bev =>
      let src := bev_input bev in
      let len := evbuffer_get_length src in
      let t := count_in s len t in
      match get (other s) t with
      | None => Ret (put s (with_queues bev (evbuffer_drain src len) (bev_output bev)) t)
      | Some partner =>
          let '(dst, src) := evbuffer_add_buffer (bev_output partner) src in
          let bev := with_queues bev src (bev_output bev) in
          let partner := with_queues partner (bev_input partner) dst in
          if MAX_OUTPUT_BUFFER <=? evbuffer_get_length dst
          then
            let partner := bufferevent_setcb partner Read_cb Drained_write_cb true in
            let partner :=
              bufferevent_setwatermark_write partner (MAX_OUTPUT_BUFFER / 2) MAX_OUTPUT_BUFFER in
            Ret (put s (bufferevent_disable_read bev) (put (other s) partner t))
          else Ret (put s bev (put (other s) partner t))
      end
  end.

(** [drained_write_cb]. *)
Definition drained_write_cb (s : side) (t : telex_state) : outcome telex_state :=
  match get s t with
  | None => Abrt
  | Some bev =>
      let bev := bufferevent_setcb bev Read_cb NULL_cb true in
      let bev := bufferevent_setwatermark_write bev 0 0 in
      let t := put s bev t in
      match get (other s) t with
      | None => Ret t
      | Some partner => Ret (put (other s) (bufferevent_enable partner true false) t)
      end
  end.

(** [close_on_finished_write_cb]. *)
Definition close_on_finished_write_cb (s : side) (g : globals) (t : telex_state)
  : outcome (globals * option telex_state) :=
  match get s t with
  | None => Abrt
  | Some bev =>
      if evbuffer_get_length (bev_output bev) =? 0 then freed (StateCleanup g t) else kept g t
  end.

(** [events & BEV_EVENT_...], the bits [event_cb] tests. *)
Record bev_events := Events { ev_connected : bool; ev_eof : bool; ev_error : bool }.

(** [event_cb]. *)
Definition event_cb (s : side) (events : bev_events) (g : globals) (t : telex_state)
  : outcome (globals * option telex_state) :=
  if ev_connected events then
    match local t, remote t with
    | Some l, Some r =>
        kept g (put Remote (bufferevent_enable r true true)
                 (put Local (bufferevent_enable l true true) t))
    | _, _ => Abrt
    end
  else if ev_eof events then
    match get (other s) t, get s t with
    | None, _ => freed (StateCleanup g t)
    | Some _, None => Abrt
    | Some _, Some bev =>
        t <- (if negb (evbuffer_get_length (bev_input bev) =? 0) then read_cb s t else Ret t) ;;
        match get (other s) t with
        | None => Abrt
        | Some partner =>
            if negb (evbuffer_get_length (bev_output partner) =? 0) then
              kept g (put (other s) (bufferevent_disable_read
                        (bufferevent_setcb partner NULL_cb Close_on_finished_write_cb true)) t)
            else freed (StateCleanup g t)
        end
    end
  else if ev_error events then freed (StateCleanup g t)
  else kept g t.

(** A write event runs the callback that is set. *)
Definition write_event (s : side) (g : globals) (t : telex_state)
  : outcome (globals * option telex_state) :=
  match get s t with
  | None => kept g t
  | Some b =>
      match writecb b with
      | Drained_write_cb => t <- drained_write_cb s t ;; kept g t
      | Close_on_finished_write_cb => close_on_finished_write_cb s g t
      | _ => kept g t
      end
  end.

(** ** The event loop *)

(** A live tunnel: its state, whether the address lookup is outstanding, and the
    bytes received from and sent to each side so far. *)
Record conn := Conn {
  cst : telex_state; resolving : bool;
  recv : side -> list Z; sent : side -> list Z
}.

Definition upd (f : side -> list Z) (s : side) (v : list Z) : side -> list Z :=
  fun s' => match s, s' with Local, Local | Remote, Remote => v | _, _ => f s' end.

(** The end of a handler as the end of a tunnel's step. *)
Definition after (r : outcome (globals * option telex_state)) (k : telex_state -> conn)
  : outcome (globals * option conn) :=
  (x <- r ;; Ret (fst x, option_map k (snd x)))%out.

(** What libevent may do to a tunnel next.  Callbacks fire only if they are set;
    bytes arrive only where reading is enabled. *)
Inductive tstep (g : globals) : conn -> outcome (globals * option conn) -> Prop :=
| t_resolve t rc sn found ssl_ok filter_ok :
    tstep g (Conn t true rc sn)
      (after (getaddrinfo_cb found ssl_ok filter_ok g t) (fun t => Conn t false rc sn))
| t_receive t p rc sn s b b' bytes :
    get s t = Some b -> en_read b = true -> eb_bytes b' = eb_bytes (bev_input b) ++ bytes ->
    tstep g (Conn t p rc sn)
      (Ret (g, Some (Conn (put s (with_queues b b' (bev_output b)) t) p
                          (upd rc s (rc s ++ bytes)) sn)))
| t_send t p rc sn s b b' n :
    get s t = Some b -> en_write b = true -> eb_bytes b' = skipn n (eb_bytes (bev_output b)) ->
    tstep g (Conn t p rc sn)
      (Ret (g, Some (Conn (put s (with_queues b (bev_input b) b') t) p rc
                          (upd sn s (sn s ++ firstn n (eb_bytes (bev_output b)))))))
| t_read t p rc sn s b :
    get s t = Some b -> readcb b = Read_cb ->
    tstep g (Conn t p rc sn)
      (after (t <- read_cb s t ;; kept g t)%out (fun t => Conn t p rc sn))
| t_write t p rc sn s b :
    get s t = Some b ->
    tstep g (Conn t p rc sn) (after (write_event s g t) (fun t => Conn t p rc sn))
| t_event t p rc sn s b events :
    get s t = Some b -> eventcb b = true ->
    tstep g (Conn t p rc sn) (after (event_cb s events g t) (fun t => Conn t p rc sn)).

Record world := World { wg : globals; tunnels : list conn }.

(** A step, and whether there was memory for what it allocated. *)
Inductive wstep : bool -> world -> outcome world -> Prop :=
| w_accept g ts calloc_ok now ok1 ok2 :
    wstep calloc_ok (World g ts)
      (x <- proxy_accept_cb calloc_ok now ok1 ok2 g ;;
       Ret (World (fst x) (match snd x with
                           | Some t => Conn t true (fun _ => []) (fun _ => []) :: ts
                           | None => ts end)))%out
| w_tunnel g pre c post r :
    tstep g c r ->
    wstep true (World g (pre ++ c :: post))
      (x <- r ;;
       Ret (World (fst x) (pre ++ match snd x with Some c' => c' :: post | None => post end)))%out.

Definition world0 : world := World (Globals 0 0 0 0 0) [].

Inductive reachable : world -> Prop :=
| reach_init : reachable world0
| reach_step calloc_ok w w' : reachable w -> wstep calloc_ok w (Ret w') -> reachable w'.

(** ** The invariant *)

(** A bufferevent whose lookup is outstanding has no callback, and reading is off. *)
Definition idle (b : bufferevent) : Prop :=
  readcb b = NULL_cb /\ writecb b = NULL_cb /\ eventcb b = false /\ en_read b = false /\
  eb_bytes (bev_input b) = [] /\ eb_bytes (bev_output b) = [].

Definition relayed (rc sn : side -> list Z) (s : side) (bs bp : bufferevent) : Prop :=
  rc s = sn (other s) ++ eb_bytes (bev_output bp) ++ eb_bytes (bev_input bs).

Definition conn_ok (c : conn) : Prop :=
  let t := cst c in
  remotetcp t = true /\
  match local t, remote t, resolving c, ssl t with
  | Some l, None, true, false =>
      idle l /\ forall s, recv c s = [] /\ sent c s = []
  | Some l, Some r, false, true =>
      relayed (recv c) (sent c) Local l r /\ relayed (recv c) (sent c) Remote r l
  | _, _, _, _ => False
  end.

Definition zb (b : bool) : Z := if b then 1 else 0.
Definition bevs (t : telex_state) : Z := zb (isSome (local t)) + zb (isSome (remote t)) + zb (remotetcp t).
Definition total (f : telex_state -> Z) (ts : list conn) : Z :=
  fold_right (fun c n => f (cst c) + n) 0 ts.

Definition counted (g : globals) (nb ns nl : Z) : Prop :=
  ref_BEV g = nb /\ ref_SSL g = ns /\ ref_STATE g = nl /\ count_open_tunnels g = nl mod 2 ^ 32.

Definition world_ok (w : world) : Prop :=
  Forall conn_ok (tunnels w) /\
  counted (wg w) (total bevs (tunnels w)) (total (fun t => zb (ssl t)) (tunnels w))
          (Z.of_nat (length (tunnels w))).

(** ** Preservation *)

Lemma when_dec_bev c g :
  zb c <= ref_BEV g ->
  when c dec_bev g = Ret (Globals (ref_BEV g - zb c) (ref_STATE g) (ref_SSL g) (count_tunnels g)
                                  (count_open_tunnels g)).
Proof.
  intros Hc. destruct c; cbn [zb when] in *; [| destruct g; cbn; now rewrite Z.sub_0_r].
  unfold dec_bev. now rewrite (proj2 (Z.leb_le _ _)) by lia.
Qed.

Lemma when_dec_ssl c g :
  zb c <= ref_SSL g ->
  when c dec_ssl g = Ret (Globals (ref_BEV g) (ref_STATE g) (ref_SSL g - zb c) (count_tunnels g)
                                  (count_open_tunnels g)).
Proof.
  intros Hc. destruct c; cbn [zb when] in *; [| destruct g; cbn; now rewrite Z.sub_0_r].
  unfold dec_ssl. now rewrite (proj2 (Z.leb_le _ _)) by lia.
Qed.

Lemma zb_range b : 0 <= zb b <= 1.
Proof. destruct b; cbn; lia. Qed.

(** [StateCleanup] gives back exactly what the state owns. *)
Lemma cleanup_counts g t nb ns nl :
  counted g (nb + bevs t) (ns + zb (ssl t)) (nl + 1) -> 0 <= nb -> 0 <= ns -> 0 <= nl ->
  exists g', StateCleanup g t = Ret g' /\ counted g' nb ns nl.
Proof.
  intros (Hb & Hs & Hl & Ho) Pb Ps Pl. unfold StateCleanup, bevs in *.
  pose proof (zb_range (isSome (local t))). pose proof (zb_range (isSome (remote t))).
  pose proof (zb_range (remotetcp t)). pose proof (zb_range (ssl t)).
  rewrite when_dec_bev by lia. cbn [obind].
  rewrite when_dec_bev by (cbn [ref_BEV]; lia). cbn [obind].
  rewrite when_dec_bev by (cbn [ref_BEV]; lia). cbn [obind].
  rewrite when_dec_ssl by (cbn [ref_SSL]; lia). cbn [obind]. unfold dec_state.
  cbn [ref_BEV ref_STATE ref_SSL count_tunnels count_open_tunnels].
  rewrite (proj2 (Z.leb_le _ _)) by lia. eexists. split; [reflexivity |]. unfold counted.
  cbn [ref_BEV ref_STATE ref_SSL count_tunnels count_open_tunnels].
  repeat split; try lia. rewrite Ho. unfold w_sub, wrap. rewrite Zminus_mod_idemp_l. f_equal. lia.
Qed.

Lemma total_nonneg f ts : (forall t, 0 <= f t) -> 0 <= total f ts.
Proof. intros Hf. unfold total. induction ts as [| c ts IH]; cbn [fold_right]; [lia |].
  pose proof (Hf (cst c)). lia. Qed.

Lemma bevs_nonneg t : 0 <= bevs t.
Proof. unfold bevs, zb. destruct (isSome _), (isSome _), (remotetcp t); lia. Qed.

Lemma ssl_nonneg (t : telex_state) : 0 <= zb (ssl t).
Proof. destruct (ssl t); cbn; lia. Qed.

Lemma total_app f ts us : total f (ts ++ us) = total f ts + total f us.
Proof.
  unfold total. induction ts as [| c ts IH]; cbn [fold_right app]; [reflexivity |]. rewrite IH. lia.
Qed.

(** The shape of a result that keeps the invariant, for a tunnel among others that
    own [nb] bufferevents and [ns] SSL objects, [nl] tunnels in number. *)
Definition good (nb ns nl : Z) (r : outcome (globals * option conn)) : Prop :=
  exists g o, r = Ret (g, o) /\
    match o with
    | None => counted g nb ns nl
    | Some c => conn_ok c /\ counted g (nb + bevs (cst c)) (ns + zb (ssl (cst c))) (nl + 1)
    end.

Section Tunnel.
Context (nb ns nl : Z) (Pb : 0 <= nb) (Ps : 0 <= ns) (Pl : 0 <= nl).

Lemma good_freed g t k :
  counted g (nb + bevs t) (ns + zb (ssl t)) (nl + 1) ->
  good nb ns nl (after (freed (StateCleanup g t)) k).
Proof using Pb Ps Pl.
  intros Hc. destruct (cleanup_counts g t nb ns nl Hc Pb Ps Pl) as (g' & -> & Hg).
  exists g', None. split; [reflexivity | exact Hg].
Qed.

Lemma good_kept g t k :
  conn_ok (k t) -> cst (k t) = t -> counted g (nb + bevs t) (ns + zb (ssl t)) (nl + 1) ->
  good nb ns nl (after (kept g t) k).
Proof using Type.
  intros Hk Ht Hc. exists g, (Some (k t)). split; [reflexivity |]. now rewrite Ht.
Qed.

End Tunnel.

(** A tunnel past its address lookup, seen from side [s]. *)
Definition pair_ok (t : telex_state) (rc sn : side -> list Z) (s : side) (b p : bufferevent) : Prop :=
  get s t = Some b /\ get (other s) t = Some p /\ remotetcp t = true /\ ssl t = true /\
  relayed rc sn s b p /\ relayed rc sn (other s) p b.

Lemma pair_conn t rc sn s b p : pair_ok t rc sn s b p -> conn_ok (Conn t false rc sn).
Proof.
  intros (Hb & Hp & Ht & Hs & H1 & H2). unfold conn_ok. cbn [cst resolving recv sent].
  destruct s; cbn [get other] in *; rewrite Hb, Hp, Hs; auto.
Qed.

Lemma conn_pair t rc sn s b :
  conn_ok (Conn t false rc sn) -> get s t = Some b -> exists p, pair_ok t rc sn s b p.
Proof.
  unfold conn_ok. cbn [cst resolving recv sent]. intros [Ht Hc] Hb.
  destruct (local t) as [l |] eqn:El, (remote t) as [r |] eqn:Er, (ssl t) eqn:Es; try easy.
  destruct s; cbn [get] in Hb; [rewrite El in Hb | rewrite Er in Hb]; injection Hb as <-.
  - exists r. now repeat split.
  - exists l. now repeat split.
Qed.

Lemma pair_counts t rc sn s b p : pair_ok t rc sn s b p -> bevs t = 3 /\ zb (ssl t) = 1.
Proof.
  intros (Hb & Hp & Ht & Hs & _). unfold bevs. rewrite Ht, Hs.
  destruct s; cbn [get other] in *; now rewrite Hb, Hp.
Qed.

Lemma pair_put t rc sn rc' sn' s b p b' p' :
  pair_ok t rc sn s b p -> relayed rc' sn' s b' p' -> relayed rc' sn' (other s) p' b' ->
  pair_ok (put s b' (put (other s) p' t)) rc' sn' s b' p'.
Proof. intros (Hb & Hp & Ht & Hs & _) H1 H2. destruct s; now repeat split. Qed.

Lemma pair_put1 t rc sn rc' sn' s b p b' :
  pair_ok t rc sn s b p -> relayed rc' sn' s b' p -> relayed rc' sn' (other s) p b' ->
  pair_ok (put s b' t) rc' sn' s b' p.
Proof. intros (Hb & Hp & Ht & Hs & _) H1 H2. destruct s; now repeat split. Qed.

Lemma pair_count_in t rc sn s b p n :
  pair_ok t rc sn s b p -> pair_ok (count_in s n t) rc sn s b p.
Proof. intros (Hb & Hp & Ht & Hs & H1 & H2). destruct s; now repeat split. Qed.

Lemma other_other s : other (other s) = s.
Proof. now destruct s. Qed.

Lemma pair_sym t rc sn s b p : pair_ok t rc sn s b p -> pair_ok t rc sn (other s) p b.
Proof. intros (Hb & Hp & Ht & Hs & H1 & H2). unfold pair_ok. rewrite other_other. auto 10. Qed.

(** [read_cb] moves the whole input to the partner's output, in order. *)
Lemma read_cb_pair t rc sn s b p :
  pair_ok t rc sn s b p ->
  exists t' b' p', read_cb s t = Ret t' /\ pair_ok t' rc sn s b' p' /\
    eb_bytes (bev_input b') = [] /\
    eb_bytes (bev_output p') = eb_bytes (bev_output p) ++ eb_bytes (bev_input b) /\
    (MAX_OUTPUT_BUFFER <= Z.of_nat (length (eb_bytes (bev_output p'))) ->
       en_read b' = false /\ writecb p' = Drained_write_cb /\
       wm_low p' = MAX_OUTPUT_BUFFER / 2 /\ wm_high p' = MAX_OUTPUT_BUFFER).
Proof.
  intros HP. pose proof HP as (Hb & _). unfold read_cb. rewrite Hb.
  pose proof (pair_count_in _ _ _ _ _ _ (evbuffer_get_length (bev_input b)) HP) as HC.
  set (t1 := count_in s _ t) in *. pose proof HC as (_ & Hp & _ & _ & H1 & H2). rewrite Hp.
  pose proof (add_buffer_dst (bev_output p) (bev_input b)) as Ed.
  pose proof (add_buffer_src (bev_output p) (bev_input b)) as Es.
  destruct (evbuffer_add_buffer (bev_output p) (bev_input b)) as [dst src]. cbn [fst snd] in *.
  assert (forall b' p', eb_bytes (bev_input b') = [] ->
     eb_bytes (bev_output p') = eb_bytes (bev_output p) ++ eb_bytes (bev_input b) ->
     eb_bytes (bev_output b') = eb_bytes (bev_output b) ->
     eb_bytes (bev_input p') = eb_bytes (bev_input p) ->
     pair_ok (put s b' (put (other s) p' t1)) rc sn s b' p') as K.
  { intros b' p' E1 E2 E3 E4. apply (pair_put _ _ _ _ _ _ _ _ _ _ HC); unfold relayed in *.
    - rewrite E1, E2, app_nil_r. exact H1.
    - now rewrite E3, E4. }
  rewrite get_length_spec.
  destruct (Z.leb_spec MAX_OUTPUT_BUFFER (Z.of_nat (length (eb_bytes dst)))) as [L | L];
    (eexists _, _, _; split; [reflexivity |]; split; [now apply K |]);
    (split; [exact Es | split; [exact Ed |]]).
  - intros _. repeat split.
  - intros Hlen. cbn [bev_output with_queues] in Hlen. lia.
Qed.

Lemma same_queues rc sn s b p b' p' :
  relayed rc sn s b p ->
  eb_bytes (bev_input b') = eb_bytes (bev_input b) ->
  eb_bytes (bev_output p') = eb_bytes (bev_output p) -> relayed rc sn s b' p'.
Proof. unfold relayed. intros -> -> ->. reflexivity. Qed.

Lemma upd_same f s v : upd f s v s = v.
Proof. now destruct s. Qed.

Lemma upd_other f s v : upd f s v (other s) = f (other s).
Proof. now destruct s. Qed.

(** A tunnel whose lookup is outstanding: only the local side exists, and it is idle. *)
Lemma resolving_idle t rc sn s b :
  conn_ok (Conn t true rc sn) -> get s t = Some b ->
  s = Local /\ idle b /\ local t = Some b /\ (forall s, rc s = [] /\ sn s = []).
Proof.
  unfold conn_ok. cbn [cst resolving recv sent]. intros [Ht Hk] Hb.
  destruct (local t) as [l |] eqn:El, (remote t) as [r |] eqn:Er, (ssl t) eqn:Es; try easy.
  destruct s; cbn [get] in Hb; [| congruence]. rewrite El in Hb. injection Hb as <-. tauto.
Qed.

Lemma resolving_put t rc sn b b' bytes :
  conn_ok (Conn t true rc sn) -> get Local t = Some b -> idle b' -> sn Local ++ bytes = [] ->
  conn_ok (Conn (put Local b' t) true rc (upd sn Local (sn Local ++ bytes))).
Proof.
  unfold conn_ok. cbn [cst resolving recv sent get put remotetcp local remote ssl]. intros [Ht Hk] Hb Hi ->.
  split; [exact Ht |]. rewrite Hb in Hk.
  destruct (remote t), (ssl t); try easy. split; [exact Hi |].
  intros s. destruct (proj2 Hk s) as [Hr Hn]. split; [exact Hr |]. destruct s; [reflexivity | exact Hn].
Qed.

Ltac counts :=
  unfold counted, inc_bev, inc_ssl, bevs, isSome, zb;
  cbn [cst put local remote remotetcp ssl fst snd ref_BEV ref_SSL ref_STATE count_open_tunnels count_tunnels];
  repeat split; (lia || assumption).

Section Steps.
Context (nb ns nl : Z) (Pb : 0 <= nb) (Ps : 0 <= ns) (Pl : 0 <= nl).

Lemma good_pair g t rc sn s b p :
  pair_ok t rc sn s b p -> counted g (nb + 3) (ns + 1) (nl + 1) ->
  good nb ns nl (Ret (g, Some (Conn t false rc sn))).
Proof using Type.
  intros HP Hc. eexists _, _. split; [reflexivity |].
  split; [now apply (pair_conn _ _ _ _ _ _ HP) |]. cbn [cst].
  destruct (pair_counts _ _ _ _ _ _ HP) as [-> ->]. exact Hc.
Qed.

Lemma good_freed_pair g t rc sn s b p k :
  pair_ok t rc sn s b p -> counted g (nb + 3) (ns + 1) (nl + 1) ->
  good nb ns nl (after (freed (StateCleanup g t)) k).
Proof using Pb Ps Pl.
  intros HP Hc. apply good_freed; auto. destruct (pair_counts _ _ _ _ _ _ HP) as [-> ->]. exact Hc.
Qed.

(** A write event on a relaying tunnel. *)
Lemma write_event_good g t rc sn s b p :
  pair_ok t rc sn s b p -> counted g (nb + 3) (ns + 1) (nl + 1) ->
  good nb ns nl (after (write_event s g t) (fun t => Conn t false rc sn)).
Proof using Pb Ps Pl.
  intros HP Hc. pose proof HP as (Hb & Hp & _ & _ & H1 & H2). unfold write_event. rewrite Hb.
  destruct (writecb b); try exact (good_pair _ _ _ _ _ _ _ HP Hc).
  - unfold drained_write_cb. rewrite Hb. cbv zeta.
    match goal with |- context [put s ?x t] => pose proof (pair_put1 t rc sn rc sn s b p x HP
      (same_queues _ _ _ _ _ _ _ H1 eq_refl eq_refl) (same_queues _ _ _ _ _ _ _ H2 eq_refl eq_refl))
      as HP1 end.
    pose proof HP1 as (_ & Hp1 & _). rewrite Hp1. cbn [obind after kept fst snd option_map].
    refine (good_pair _ _ _ _ (other s) _ _ (pair_put1 _ _ _ _ _ _ _ _ _ (pair_sym _ _ _ _ _ _ HP1)
      _ _) Hc); [exact (same_queues _ _ _ _ _ _ _ H2 eq_refl eq_refl) |].
    rewrite other_other. exact (same_queues _ _ _ _ _ _ _ H1 eq_refl eq_refl).
  - unfold close_on_finished_write_cb. rewrite Hb. destruct (_ =? 0).
    + exact (good_freed_pair _ _ _ _ _ _ _ _ HP Hc).
    + exact (good_pair _ _ _ _ _ _ _ HP Hc).
Qed.

Lemma event_cb_good g t rc sn s b p events :
  pair_ok t rc sn s b p -> counted g (nb + 3) (ns + 1) (nl + 1) ->
  good nb ns nl (after (event_cb s events g t) (fun t => Conn t false rc sn)).
Proof using Pb Ps Pl.
  intros HP Hc. pose proof HP as (Hb & Hp & Ht & Hs & H1 & H2). unfold event_cb.
  destruct (ev_connected events); [| destruct (ev_eof events); [| destruct (ev_error events)]].
  - destruct s; cbn [get other] in *; rewrite Hb, Hp;
      [apply (good_pair _ _ _ _ Local (bufferevent_enable b true true) (bufferevent_enable p true true))
      | apply (good_pair _ _ _ _ Local (bufferevent_enable p true true) (bufferevent_enable b true true))];
      try exact Hc; repeat split; cbn [get put other local remote remotetcp ssl]; auto;
      (eapply same_queues; [eassumption | reflexivity | reflexivity]).
  - rewrite Hp, Hb.
    assert (exists t' b' p', (if negb (evbuffer_get_length (bev_input b) =? 0) then read_cb s t else Ret t)
              = Ret t' /\ pair_ok t' rc sn s b' p') as (t' & b' & p' & -> & HP').
    { destruct (negb _); [| now exists t, b, p].
      destruct (read_cb_pair t rc sn s b p HP) as (t' & b' & p' & E & HP' & _). eauto. }
    cbn [obind]. pose proof HP' as (Hb' & Hp' & _ & _ & H1' & H2'). rewrite Hp'.
    destruct (negb _); [| exact (good_freed_pair _ _ _ _ _ _ _ _ HP' Hc)].
    refine (good_pair _ _ _ _ (other s) _ _ (pair_put1 _ _ _ _ _ _ _ _ _ (pair_sym _ _ _ _ _ _ HP')
      _ _) Hc); [exact (same_queues _ _ _ _ _ _ _ H2' eq_refl eq_refl) |].
    rewrite other_other. exact (same_queues _ _ _ _ _ _ _ H1' eq_refl eq_refl).
  - exact (good_freed_pair _ _ _ _ _ _ _ _ HP Hc).
  - exact (good_pair _ _ _ _ _ _ _ HP Hc).
Qed.

(** The address lookup returns. *)
Lemma getaddrinfo_good g t rc sn found ssl_ok filter_ok :
  conn_ok (Conn t true rc sn) -> counted g (nb + bevs t) (ns + zb (ssl t)) (nl + 1) ->
  good nb ns nl (after (getaddrinfo_cb found ssl_ok filter_ok g t) (fun t => Conn t false rc sn)).
Proof using Pb Ps Pl.
  unfold conn_ok. cbn [cst resolving recv sent]. intros [Ht Hk] Hc.
  destruct (local t) as [l |] eqn:El, (remote t) as [r |] eqn:Er, (ssl t) eqn:Es; try easy.
  destruct Hk as [(_ & _ & _ & _ & Ei & Eo) Hrs]. unfold getaddrinfo_cb, bevs in *.
  rewrite El, Er, Ht, ?Es in Hc. cbn [isSome zb] in Hc. destruct Hc as (Cb & Cs & Cl & Co).
  destruct found; cbn [negb]; [destruct ssl_ok; cbn [negb]; [destruct filter_ok; cbn [negb] |] |].
  - cbn [put local]. rewrite El. apply (good_pair _ _ _ _ Local
      (bufferevent_setcb l Read_cb NULL_cb true) (bufferevent_setcb bufferevent_new Read_cb NULL_cb true)).
    + repeat split; cbn [get put other local remote remotetcp ssl]; auto; unfold relayed; cbn;
        rewrite ?Ei, ?Eo, ?eb_new_empty, ?(proj1 (Hrs _)), ?(proj2 (Hrs _)); reflexivity.
    + counts.
  - apply good_freed; auto. unfold bevs. cbn [local remote remotetcp ssl]. rewrite El, Er, Ht. counts.
  - apply good_freed; auto. unfold bevs. rewrite El, Er, Ht, Es. counts.
  - apply good_freed; auto. unfold bevs. rewrite El, Er, Ht, Es. counts.
Qed.

(** Every step of a tunnel keeps the invariant and ends without a failed assertion. *)
Lemma tstep_good g c r :
  tstep g c r -> conn_ok c -> counted g (nb + bevs (cst c)) (ns + zb (ssl (cst c))) (nl + 1) ->
  good nb ns nl r.
Proof using Pb Ps Pl.
  intros Hs Hk Hc. destruct Hs as [t rc sn f1 f2 f3 | t p rc sn s b b' bytes Hb Hen Hb'
    | t p rc sn s b b' n Hb Hen Hb' | t p rc sn s b Hb Hcb | t p rc sn s b Hb
    | t p rc sn s b ev Hb Hcb]; [now apply getaddrinfo_good | ..]; cbn [cst] in Hc.
  all: destruct p; [destruct (resolving_idle _ _ _ _ _ Hk Hb) as (-> & Hid & El & Hrs) |
    destruct (conn_pair _ _ _ _ _ Hk Hb) as [q HP];
    destruct (pair_counts _ _ _ _ _ _ HP) as [E1 E2]; rewrite E1, E2 in Hc;
    pose proof HP as (_ & Hq & _ & _ & H1 & H2); unfold relayed in H1, H2].
  - unfold idle in Hid. destruct Hid as (_ & _ & _ & Hid & _). congruence.
  - eapply good_pair; [eapply pair_put1; [exact HP | |] | exact Hc]; unfold relayed.
    + cbn [bev_input with_queues]. rewrite Hb', upd_same, H1, <- !app_assoc. reflexivity.
    + rewrite upd_other. exact H2.
  - destruct Hid as (I1 & I2 & I3 & I4 & I5 & I6). rewrite I6, skipn_nil in Hb'.
    eexists _, _. split; [reflexivity |].
    split; [| unfold bevs in *; cbn [cst put local remote remotetcp ssl]; now rewrite El in Hc].
    apply (resolving_put t rc sn b); auto.
    + now repeat split.
    + rewrite I6, firstn_nil, app_nil_r. apply Hrs.
  - eapply good_pair; [eapply pair_put1; [exact HP | |] | exact Hc]; unfold relayed.
    + rewrite upd_other. exact H1.
    + rewrite other_other in *. cbn [bev_output with_queues]. rewrite upd_same, Hb', H2.
      rewrite <- (firstn_skipn n (eb_bytes (bev_output b))) at 1. now rewrite <- !app_assoc.
  - unfold idle in Hid. destruct Hid as (Hid & _). congruence.
  - destruct (read_cb_pair t rc sn s b q HP) as (t' & b' & q' & -> & HP' & _).
    exact (good_pair _ _ _ _ _ _ _ HP' Hc).
  - unfold write_event. rewrite Hb. destruct Hid as (_ & -> & _).
    eexists _, _. split; [reflexivity |]. split; [exact Hk | exact Hc].
  - exact (write_event_good _ _ _ _ _ _ _ HP Hc).
  - unfold idle in Hid. destruct Hid as (_ & _ & Hid & _). congruence.
  - exact (event_cb_good _ _ _ _ _ _ _ _ HP Hc).
Qed.
End Steps.

Lemma accept_good g now ok1 ok2 nb ns nl :
  counted g nb ns nl -> 0 <= nb -> 0 <= ns -> 0 <= nl ->
  good nb ns nl (after (proxy_accept_cb true now ok1 ok2 g)
                       (fun t => Conn t true (fun _ => []) (fun _ => []))).
Proof.
  intros (Cb & Cs & Cl & Co) Pb Ps Pl. unfold proxy_accept_cb, StateInit. cbn [obind].
  assert (w_add 32 (count_open_tunnels g) 1 = (nl + 1) mod 2 ^ 32) as Eo
    by (rewrite Co; unfold w_add, wrap; now rewrite Zplus_mod_idemp_l).
  destruct ok1; cbn [negb]; [destruct ok2; cbn [negb] |].
  - eexists _, _. split; [reflexivity |]. split.
    + split; [reflexivity |]. cbn. repeat split; apply eb_new_empty.
    + counts.
  - apply good_freed; auto. counts.
  - apply good_freed; auto. counts.
Qed.

Lemma wstep_ok m w r : wstep m w r -> world_ok w -> (exists w', r = Ret w' /\ world_ok w') \/ (m = false /\ r = Abrt).
Proof.
  intros Hs [HF HC]. destruct Hs as [g ts [] now ok1 ok2 | g pre c post r Hs]; cbn [wg tunnels] in *; [left | now right | left].
  - destruct (accept_good g now ok1 ok2 _ _ _ HC) as (g' & o & E & Ho);
      [apply total_nonneg, bevs_nonneg | apply total_nonneg, ssl_nonneg | lia |].
    destruct (proxy_accept_cb true now ok1 ok2 g) as [[g1 t1] | |]; try discriminate.
    cbn [after obind fst snd] in E. injection E as <- <-. eexists. split; [reflexivity |].
    destruct t1 as [t |]; cbn [option_map fst snd] in *; [| split; [exact HF | exact Ho]].
    destruct Ho as [Hk Hc]. split; [now constructor |]. cbn [wg tunnels total fold_right length cst] in *.
    rewrite Nat2Z.inj_succ, (Z.add_comm (bevs t)), (Z.add_comm (zb (ssl t))). exact Hc.
  - apply Forall_app in HF as [Hpre Hpost]. inversion Hpost as [| ? ? Hk Hrest]; subst.
    destruct (tstep_good (total bevs pre + total bevs post)
      (total (fun t => zb (ssl t)) pre + total (fun t => zb (ssl t)) post)
      (Z.of_nat (length pre + length post))) with (g := g) (c := c) (r := r) as (g' & o & -> & Ho); auto.
    + pose proof (total_nonneg bevs pre bevs_nonneg). pose proof (total_nonneg bevs post bevs_nonneg). lia.
    + pose proof (total_nonneg _ pre ssl_nonneg). pose proof (total_nonneg _ post ssl_nonneg). lia.
    + lia.
    + revert HC. rewrite !total_app, length_app. unfold total. cbn [fold_right length].
      unfold counted. rewrite !Nat2Z.inj_add, Nat2Z.inj_succ. intros (? & ? & ? & HO).
      repeat split; try lia. rewrite HO. f_equal. lia.
    + cbn [obind fst snd]. eexists. split; [reflexivity |]. split; cbn [wg tunnels].
      * apply Forall_app. split; [exact Hpre |]. destruct o as [c' |]; [| exact Hrest].
        constructor; [apply Ho | exact Hrest].
      * revert Ho. destruct o as [c' |].
        -- intros [_ Ho]. revert Ho. rewrite !total_app, length_app. unfold total. cbn [fold_right length].
           unfold counted. rewrite !Nat2Z.inj_add, Nat2Z.inj_succ. intros (? & ? & ? & HO).
           repeat split; try lia. rewrite HO. f_equal. lia.
        -- rewrite !total_app, length_app. auto.
Qed.

Lemma reachable_ok w : reachable w -> world_ok w.
Proof.
  induction 1 as [| m w w' _ IH Hs].
  - split; [constructor | repeat split].
  - destruct (wstep_ok m w _ Hs IH) as [(w1 & [= <-] & H1) | [_ [=]]]. exact H1.
Qed.
End Proxy.

(** ** Theorems *)

(** The byte lists are an [EvBuffer]. *)
#[export] Instance list_evbuffer : EvBuffer (list Z).
Proof.
  refine {| eb_new := []; eb_bytes := fun b => b; evbuffer_get_length := fun b => Z.of_nat (length b);
            evbuffer_add_buffer := fun d s => (d ++ s, []);
            evbuffer_drain := fun b n => skipn (Z.to_nat n) b |}; reflexivity.
Defined.

(** C32: in every state that the event loop can reach, the three resource counters
    equal the objects that the live tunnels own, and the open-tunnel counter their
    number modulo 2^32. *)
Theorem proxy_counters_exact {B} `{EvBuffer B} (w : world) :
  reachable w ->
  ref_BEV (wg w) = total bevs (tunnels w) /\
  ref_SSL (wg w) = total (fun t => zb (ssl t)) (tunnels w) /\
  ref_STATE (wg w) = Z.of_nat (length (tunnels w)) /\
  count_open_tunnels (wg w) = Z.of_nat (length (tunnels w)) mod 2 ^ 32.
Proof. intros Hr. apply (reachable_ok w Hr). Qed.

(** C33: whatever libevent does next to a reachable state, the handler returns; the one
    assertion that can fail is that of [StateInit] when [calloc] has no memory. *)
Theorem proxy_never_aborts {B} `{EvBuffer B} (w : world) calloc_ok r :
  reachable w -> wstep calloc_ok w r -> (exists w', r = Ret w') \/ (calloc_ok = false /\ r = Abrt).
Proof.
  intros Hr Hs. destruct (wstep_ok calloc_ok w r Hs (reachable_ok w Hr)) as [(w' & E & _) | X]; eauto.
Qed.

(** C31: the tunnel is a pipe: for a connected tunnel, the bytes received from one
    side are, in order, those sent to the other, those waiting in its output and
    those still in the input; nothing is lost, repeated or reordered. *)
Theorem proxy_relay_integrity {B} `{EvBuffer B} (w : world) c :
  reachable w -> In c (tunnels w) -> resolving c = false ->
  exists l r, local (cst c) = Some l /\ remote (cst c) = Some r /\
    recv c Local = sent c Remote ++ eb_bytes (bev_output r) ++ eb_bytes (bev_input l) /\
    recv c Remote = sent c Local ++ eb_bytes (bev_output l) ++ eb_bytes (bev_input r).
Proof.
  intros Hr Hin Hres. destruct (reachable_ok w Hr) as [HF _].
  rewrite Forall_forall in HF. specialize (HF c Hin) as [_ Hk]. rewrite Hres in Hk.
  destruct (local (cst c)) as [l |], (remote (cst c)) as [r |], (ssl (cst c)); try easy.
  exists l, r. now repeat split.
Qed.

(** Back pressure: after [read_cb], either the partner holds less than 512 KiB
    of output, or reading is disabled and the partner's write callback is set to run
    when half of it has drained; that callback enables reading again. *)
Theorem read_cb_backpressure {B} `{EvBuffer B} t rc sn s b p :
  pair_ok t rc sn s b p ->
  exists t' b' p', read_cb s t = Ret t' /\ get s t' = Some b' /\ get (other s) t' = Some p' /\
    eb_bytes (bev_output p') = eb_bytes (bev_output p) ++ eb_bytes (bev_input b) /\
    (Z.of_nat (length (eb_bytes (bev_output p'))) < MAX_OUTPUT_BUFFER \/
     (en_read b' = false /\ writecb p' = Drained_write_cb /\ wm_low p' = MAX_OUTPUT_BUFFER / 2 /\
      exists t'' b'', drained_write_cb (other s) t' = Ret t'' /\ get s t'' = Some b'' /\
        en_read b'' = true)).
Proof.
  intros HP. destruct (read_cb_pair t rc sn s b p HP) as (t' & b' & p' & E & HP' & _ & Eo & Hm).
  pose proof HP' as (Hb' & Hp' & _). exists t', b', p'. repeat (split; [assumption |]).
  destruct (Z.lt_ge_cases (Z.of_nat (length (eb_bytes (bev_output p')))) MAX_OUTPUT_BUFFER) as [L | L];
    [now left | right]. destruct (Hm L) as (H1 & H2 & H3 & _). repeat (split; [assumption |]).
  unfold drained_write_cb. rewrite Hp'. destruct s; cbn [other get put local remote] in *; rewrite Hb';
    eexists _, _; repeat split.
Qed.

(** ** A run: accept, resolve, connect, receive three bytes, relay, send one *)

Lemma reach_by {B} `{EvBuffer B} w r w' : reachable w -> wstep true w r -> r = Ret w' -> reachable w'.
Proof. intros Hr Hs ->. now apply (reach_step true w). Qed.

Lemma one_tunnel {B} `{EvBuffer B} g c r : tstep g c r -> wstep true (World g [c])
  (x <- r ;; Ret (World (fst x) ([] ++ match snd x with Some c' => c' :: [] | None => [] end)))%out.
Proof. apply (w_tunnel g [] c []). Qed.

Definition run_tunnel : conn (B := list Z) :=
  let l := Bev (B := list Z) [] [] true true Read_cb NULL_cb true 0 0 in
  let r := Bev (B := list Z) [] [8; 9] true true Read_cb NULL_cb true 0 0 in
  Conn (State 0 1000 (Some l) (Some r) true true 3 0) false
       (upd (fun _ => []) Local [7; 8; 9]) (upd (fun _ => []) Remote [7]).

Definition run_world : world := World (Globals 3 1 1 1 1) [run_tunnel].

Lemma run_reachable : reachable run_world.
Proof.
  pose proof (reach_by _ _ _ reach_init (w_accept _ [] true 1000 true true) eq_refl) as R1. cbn in R1.
  eassert (reachable _) as R2
    by (eapply (reach_by _ _ _ R1);
        [apply one_tunnel; eapply (t_resolve _ _ _ _ true true true) | reflexivity]).
  cbn in R2.
  eassert (reachable _) as R3
    by (eapply (reach_by _ _ _ R2);
        [apply one_tunnel; eapply (t_event _ _ _ _ _ Remote _ (Events true false false)); reflexivity
        | reflexivity]).
  cbn in R3.
  eassert (reachable _) as R4
    by (eapply (reach_by _ _ _ R3);
        [apply one_tunnel; eapply (t_receive _ _ _ _ _ Local _ [7; 8; 9] [7; 8; 9]); reflexivity
        | reflexivity]).
  cbn in R4.
  eassert (reachable _) as R5
    by (eapply (reach_by _ _ _ R4);
        [apply one_tunnel; eapply (t_read _ _ _ _ _ Local); reflexivity | reflexivity]).
  cbn in R5.
  eapply (reach_by _ _ _ R5);
    [apply one_tunnel; eapply (t_send _ _ _ _ _ Remote _ [8; 9] 1%nat); reflexivity | reflexivity].
Qed.

Lemma proxy_counters_exact_witness :
  ref_BEV (wg run_world) = total bevs (tunnels run_world).
Proof. apply proxy_counters_exact. exact run_reachable. Defined.

Lemma proxy_never_aborts_witness :
  exists w', (x <- after (event_cb Local (Events false true false) (wg run_world) (cst run_tunnel))
                         (fun t => Conn t false (recv run_tunnel) (sent run_tunnel)) ;;
              Ret (World (fst x) ([] ++ match snd x with Some c' => [c'] | None => [] end)))%out = Ret w'.
Proof.
  destruct (proxy_never_aborts run_world true
    (x <- after (event_cb Local (Events false true false) (wg run_world) (cst run_tunnel))
                (fun t => Conn t false (recv run_tunnel) (sent run_tunnel)) ;;
     Ret (World (fst x) ([] ++ match snd x with Some c' => [c'] | None => [] end)))%out run_reachable) as [X | [X _]]; [| exact X | discriminate X].
  apply (w_tunnel (wg run_world) [] run_tunnel []).
  eapply (t_event _ _ _ _ _ Local); reflexivity.
Defined.

Lemma proxy_relay_integrity_witness :
  exists l r, local (cst run_tunnel) = Some l /\ remote (cst run_tunnel) = Some r /\
    recv run_tunnel Local = sent run_tunnel Remote ++ eb_bytes (bev_output r) ++ eb_bytes (bev_input l) /\
    recv run_tunnel Remote = sent run_tunnel Local ++ eb_bytes (bev_output l) ++ eb_bytes (bev_input r).
Proof. apply (proxy_relay_integrity run_world); [exact run_reachable | now left | reflexivity]. Defined.

Lemma read_cb_backpressure_witness :
  exists t', read_cb Local (cst run_tunnel) = Ret t'.
Proof.
  destruct (read_cb_backpressure (cst run_tunnel) (recv run_tunnel) (sent run_tunnel) Local
    (Bev [] [] true true Read_cb NULL_cb true 0 0) (Bev [] [8; 9] true true Read_cb NULL_cb true 0 0))
    as (t' & _ & _ & E & _); [repeat split | eauto].
Defined.
