(* ===== verification/TelexSsl.v ===== *)
(** * The covert key in the TLS handshake

    [telex-client/ssl.c] and the station's [net/ssl_api.c]: the client's random
    field carries the tag, and its Diffie-Hellman private key is derived from the
    tag's secret by an HMAC chain, so that the station that recognised the tag
    recomputes it.  HMAC-SHA256 of OpenSSL is a parameter, as are the results of the
    OpenSSL calls. *)
From S2P Require Import Prelude Bytes CLib.
From S2P Require Import Felem FelemPow Prime168 Curve Fp Group PtPoint PtMul Ptwist PtwistThms Tag.
From Stdlib Require Import String ZArith Lia List Bool.
Import ListNotations.
Open Scope Z_scope.
Open Scope list_scope.

(** ** Key derivation *)

Definition SHA256_DIGEST_LENGTH : nat := 32.
Definition uniq : list Z := chars "Telex PRG".

Section Prg.
Context (HMAC : list Z -> list Z -> list Z).

(** One pass of the loop, common to both sides: the input x_i | uniq | i and its MAC;
    [i] is an int or unsigned int of four little-endian bytes. *)
Definition prg_input (out : list Z) (i : nat) : list Z := out ++ uniq ++ le_bytes 4 (Z.of_nat i).

(** [for (i=0; i<4; i++)] of the client's [telex_ssl_get_dh_key]; [n] passes are left.
    The assertion on [out_len] fails if the MAC is not 32 bytes. *)
Fixpoint client_prg (secret out buf : list Z) (n i : nat) : outcome (list Z) :=
  match n with
  | O => Ret buf
  | S m =>
      let out := HMAC (firstn 16 secret) (prg_input out i) in
      if (length out =? SHA256_DIGEST_LENGTH)%nat
      then client_prg secret out (overwrite (i * SHA256_DIGEST_LENGTH) out buf) m (i + 1)
      else Abrt
  end.

(** [buf[0] |= (1<<6); buf[0] &= 0x7f;] *)
Definition fix_top (buf : list Z) : list Z :=
  match buf with [] => [] | b :: r => Z.land (Z.lor b 64) 0x7f :: r end.

(** The client's [telex_ssl_get_dh_key]; [junk] is the uninitialised [buf]. *)
Definition client_dh_key (junk secret : list Z) : outcome Z :=
  (buf <- client_prg secret [] junk (128 / SHA256_DIGEST_LENGTH) 0 ;;
   Ret (be_value (fix_top buf)))%out.

(** The station's [telex_ssl_get_dh_key] in ssl_api.c: the same loop over [telex_secret]. *)
Fixpoint station_prg (telex_secret out buf : list Z) (n i : nat) : outcome (list Z) :=
  match n with
  | O => Ret buf
  | S m =>
      let inp := prg_input out i in
      let out := HMAC (firstn 16 telex_secret) inp in
      if negb (length out =? SHA256_DIGEST_LENGTH)%nat then Abrt else
      station_prg telex_secret out (overwrite (i * SHA256_DIGEST_LENGTH) out buf) m (i + 1)
  end.

Definition station_dh_key (junk telex_secret : list Z) : outcome Z :=
  (buf <- station_prg telex_secret [] junk (128 / SHA256_DIGEST_LENGTH) 0 ;;
   Ret (be_value (fix_top buf)))%out.

(** ** The reference: x_(i+1) = HMAC(secret, x_i | "Telex PRG" | i), x_0 empty *)

Fixpoint prg_x (secret : list Z) (i : nat) : list Z :=
  match i with O => [] | S j => HMAC secret (prg_input (prg_x secret j) j) end.

Definition prg_stream (secret : list Z) : list Z :=
  prg_x secret 1 ++ prg_x secret 2 ++ prg_x secret 3 ++ prg_x secret 4.

Context (hmac_bytes : forall k m, Forall is_byte (HMAC k m)).
Context (hmac_len : forall k m, length (HMAC k m) = 32%nat).

Lemma prg_x_len secret i : length (prg_x secret (S i)) = 32%nat.
Proof using hmac_len. apply hmac_len. Qed.

Lemma client_prg_step secret buf m i :
  client_prg secret (prg_x (firstn 16 secret) i) buf (S m) i =
  client_prg secret (prg_x (firstn 16 secret) (S i))
    (overwrite (i * 32) (prg_x (firstn 16 secret) (S i)) buf) m (S i).
Proof using hmac_len.
  cbn [client_prg prg_x]. rewrite hmac_len. cbn [Nat.eqb SHA256_DIGEST_LENGTH].
  rewrite Nat.add_1_r. reflexivity.
Qed.

(** Four adjacent 32-byte writes fill the 128-byte buffer. *)
Lemma overwrite_four (a b c d buf : list Z) :
  length a = 32%nat -> length b = 32%nat -> length c = 32%nat -> length d = 32%nat ->
  length buf = 128%nat ->
  overwrite 96 d (overwrite 64 c (overwrite 32 b (overwrite 0 a buf))) = a ++ b ++ c ++ d.
Proof using Type.
  intros Ha Hb Hc Hd HB.
  assert (forall (x y m : list Z) k, length x = k -> overwrite k y (x ++ m) = (x ++ y) ++ skipn (length y) m)
    as K.
  { intros x y m k <-. unfold overwrite. rewrite firstn_exact by reflexivity.
    rewrite skipn_app, skipn_all2 by lia. cbn [app]. rewrite <- app_assoc. do 3 f_equal. lia. }
  change buf with ([] ++ buf) at 1. rewrite (K [] a buf 0%nat eq_refl). cbn [app].
  rewrite (K a b _ 32%nat Ha), (K (a ++ b) c _ 64%nat), (K ((a ++ b) ++ c) d _ 96%nat)
    by (rewrite ?length_app; lia).
  rewrite (skipn_all2 (skipn _ _)) by (rewrite !length_skipn; lia).
  now rewrite app_nil_r, <- !app_assoc.
Qed.

Lemma client_prg_stream junk secret :
  length junk = 128%nat ->
  client_prg secret [] junk 4 0 = Ret (prg_stream (firstn 16 secret)).
Proof using hmac_len.
  intros HJ. change (@nil Z) with (prg_x (firstn 16 secret) 0) at 1.
  rewrite !client_prg_step. cbn [client_prg]. f_equal. unfold prg_stream.
  apply (overwrite_four (prg_x _ 1) (prg_x _ 2) (prg_x _ 3) (prg_x _ 4)); auto using prg_x_len.
Qed.

Lemma station_client_prg secret out buf n i :
  station_prg secret out buf n i = client_prg secret out buf n i.
Proof using Type.
  revert out buf i. induction n as [| n IH]; intros out buf i; [reflexivity |].
  cbn [station_prg client_prg]. rewrite IH. now destruct (_ =? _)%nat.
Qed.

Lemma prg_stream_bytes secret : Forall is_byte (prg_stream secret) /\ length (prg_stream secret) = 128%nat.
Proof using hmac_bytes hmac_len.
  unfold prg_stream. cbn [prg_x]. rewrite !Forall_app, !length_app, !hmac_len. auto 10.
Qed.

Lemma top_byte b : is_byte b -> 64 <= Z.land (Z.lor b 64) 0x7f < 128.
Proof using Type.
  intros Hb. change 0x7f with (2 ^ 7 - 1). rewrite land_mask by lia.
  split; [| apply Z.mod_pos_bound; lia].
  rewrite <- Z.land_ones by lia. assert (Z.testbit (Z.land (Z.lor b 64) (Z.ones 7)) 6 = true) as T.
  { rewrite Z.land_spec, Z.lor_spec. cbn. apply orb_true_r || now rewrite orb_true_r. }
  set (v := Z.land _ _) in *. assert (0 <= v) by (unfold v; rewrite Z.land_ones by lia; apply Z.mod_pos_bound; lia).
  destruct (Z.lt_ge_cases v 64) as [L |]; [| assumption].
  destruct (Z.eq_dec v 0) as [E0 | E0]; [rewrite E0 in T; discriminate |].
  rewrite Z.bits_above_log2 in T; [discriminate | lia |]. apply Z.log2_lt_pow2; lia.
Qed.

Lemma dh_key_range bs :
  Forall is_byte bs -> length bs = 128%nat -> 2 ^ 1022 <= be_value (fix_top bs) < 2 ^ 1023.
Proof using Type.
  destruct bs as [| b r]; [discriminate |]. intros HB HL. inversion HB as [| ? ? Hb Hr]; subst.
  cbn [fix_top]. rewrite be_value_cons. pose proof (be_value_bound r Hr) as B.
  pose proof (top_byte b Hb) as T. cbn [length] in HL.
  replace (Z.of_nat (length r)) with 127 in * by lia.
  change (2 ^ 1022) with (64 * 256 ^ 127). change (2 ^ 1023) with (128 * 256 ^ 127).
  revert B T. generalize (be_value r), (Z.land (Z.lor b 64) 127), (256 ^ 127). intros v t M. nia.
Qed.
End Prg.

(** ** The client's TLS setup *)

(** The fields of [telex_conf] and the globals that [ssl_init] sets: whether
    [ssl_ctx] is non-null, and the tag keys. *)
Record ssl_conf := SslConf { ssl_ctx : bool; keys : tag_state }.

(** [ssl_init]: the results of [RAND_poll], [SSL_CTX_new] and
    [SSL_CTX_load_verify_locations]; [keyfile] is the contents of [conf->keyfile]
    (or [None] if it does not open) and [builtin] the compiled-in key used when the
    client is built with one and no key file is named. *)
Definition ssl_init (rand_ok ctx_ok ca_ok : bool) (builtin : option (list Z)) (named : bool)
           (keyfile : option (list Z)) (conf : ssl_conf) : outcome (Z * ssl_conf) :=
  if ssl_ctx conf then Ret (0, conf) else
  if negb rand_ok then Ret (-1, conf) else
  let conf := SslConf ctx_ok (keys conf) in
  if negb (ssl_ctx conf) then Ret (-1, conf) else
  if negb ca_ok then Ret (-1, conf) else
  let st := tag_init (keys conf) in
  (st <- match builtin, named with
         | Some k, false => tag_load_pubkey_bytes k (Z.of_nat (length k)) st
         | _, _ => tag_load_pubkey keyfile st
         end ;;
   Ret (0, SslConf (ssl_ctx conf) st))%out.

(** [ssl_done]: whether the context is freed; the pointer keeps its value. *)
Definition ssl_done (conf : ssl_conf) : bool := ssl_ctx conf.

(** [ssl_log_errors] drains the error queue and counts it. *)
Fixpoint ssl_log_errors (errors : list Z) (count : Z) : Z * list Z :=
  match errors with
  | [] => (count, [])
  | err :: rest => if err =? 0 then (count, rest) else ssl_log_errors rest (count + 1)
  end.

(** What [ssl_new_telex] leaves in the SSL object and in the state. *)
Record telex_hello := Hello {
  telex_client_random : list Z; telex_dh_priv_key : Z; hello_tag : list Z; hello_secret : list Z
}.

Definition MAX_CONTEXT_LEN : nat := 9.

(** [ip | timestamp | session id]: [server_ip] in network order as it lies in memory,
    the clock through [htonl], one zero byte. *)
Definition tag_context (server_ip now : Z) : list Z :=
  let t := rev (le_bytes 4 now) in
  le_bytes 4 server_ip ++ t ++ [0].

(** [ssl_new_telex]: -1 if [SSL_new] fails. *)
Definition ssl_new_telex (pm : env -> list Z -> list Z -> list Z) (SHA256 : list Z -> list Z)
           (HMAC : list Z -> list Z -> list Z) (ssl_new_ok : bool) (e1 e2 : env) (jk : list Z)
           (st : tag_state) (now server_ip : Z) (r1 : Z) (seckey : list Z)
  : outcome (Z * option telex_hello) :=
  if negb ssl_new_ok then Ret (-1, None) else
  let t := rev (le_bytes 4 now) in
  let ctx := tag_context server_ip now in
  let '(tag, secret) := gen_tag pm SHA256 e1 e2 st r1 seckey ctx in
  let random := t ++ tag in
  (key <- client_dh_key HMAC jk secret ;;
   Ret (0, Some (Hello random key tag secret)))%out.

(** ** The station's TLS record calls (ssl_api.c)

    [S] is the SSL object with its memory BIOs; the OpenSSL calls are parameters. *)

Section SslApi.
Context {S : Type}.
Context (rbio_eof wbio_eof : S -> bool).
Context (BIO_write : S -> list Z -> Z * S).
Context (SSL_read : S -> Z -> Z * list Z * S) (SSL_write : S -> list Z -> Z * S)
        (SSL_shutdown : S -> Z * S).
Context (BIO_mem_data : S -> list Z) (BIO_reset : S -> Z * S).

(** [fetch_data_from_bio]: the length and the copied data. *)
Definition fetch_data_from_bio (has_wbio malloc_ok : bool) (s : S) : Z * list Z * S :=
  if negb has_wbio then (-1, [], s) else
  let data := BIO_mem_data s in
  if negb malloc_ok then (-1, [], s) else
  let '(r, s) := BIO_reset s in
  if r <=? 0 then (-1, data, s) else (Z.of_nat (length data), data, s).

Definition ssl_encrypt (has_wbio malloc_ok : bool) (s : S) (inp : list Z) : Z * list Z * S :=
  if negb (wbio_eof s) then (-1, [], s) else
  let '(i, s) := SSL_write s inp in
  if i <? 0 then (-1, [], s) else fetch_data_from_bio has_wbio malloc_ok s.

Definition ssl_shutdown (has_wbio malloc_ok : bool) (s : S) : Z * list Z * S :=
  let '(i, s) := SSL_shutdown s in
  if i <? 0 then (-1, [], s) else fetch_data_from_bio has_wbio malloc_ok s.

(** The [while] of [ssl_decrypt]: [out] holds the [i] bytes read so far. *)
Fixpoint decrypt_loop (fuel : nat) (len ret i : Z) (out : list Z) (s : S) : option (Z * list Z * S) :=
  if (0 <? ret) && negb (rbio_eof s) && (i <? len) then
    match fuel with
    | O => None
    | Datatypes.S n =>
        let '(ret, bytes, s) := SSL_read s (len - i) in
        if 0 <? ret then decrypt_loop n len ret (i + ret) (out ++ bytes) s
        else decrypt_loop n len ret i out s
    end
  else Some (i, out, s).

Definition ssl_decrypt (malloc_ok : bool) (s : S) (inp : list Z) : option (Z * list Z * S) :=
  let len := Z.of_nat (length inp) in
  if negb (rbio_eof s) then Some (-1, [], s) else
  let '(n, s) := BIO_write s inp in
  if negb (n =? len) then Some (-1, [], s) else
  if negb malloc_ok then Some (-1, [], s) else
  let '(ret, bytes, s) := SSL_read s len in
  decrypt_loop (length inp) len ret ret (if 0 <? ret then bytes else []) s.

(** [SSL_read] returns at most what was asked, and that many bytes when positive. *)
Context (read_spec : forall s n, 0 <= n ->
  let '(ret, bytes, _) := SSL_read s n in
  ret <= n /\ (0 < ret -> Z.of_nat (length bytes) = ret)).

Lemma decrypt_loop_ok fuel len ret i out s :
  (Z.to_nat (len - i) <= fuel)%nat -> 0 < i <= len -> Z.of_nat (length out) = i ->
  exists i' out' s', decrypt_loop fuel len ret i out s = Some (i', out', s') /\
    i <= i' <= len /\ Z.of_nat (length out') = i' /\ firstn (length out) out' = out.
Proof using read_spec.
  revert ret i out s. induction fuel as [| fuel IH]; intros ret i out s Hf Hi Ho;
    cbn [decrypt_loop]; destruct ((0 <? ret) && negb (rbio_eof s) && (i <? len)) eqn:E.
  2,4: exists i, out, s; repeat split; auto; try lia; apply firstn_all.
  - lia.
  - pose proof (read_spec s (len - i)) as HR. destruct (SSL_read s (len - i)) as [[r bytes] s'].
    destruct HR as [Hr Hl]; [lia |]. destruct (Z.ltb_spec 0 r) as [L | L].
    + destruct (IH r (i + r) (out ++ bytes) s') as (i' & out' & s'' & E' & B & Hlen & Hpre); try lia.
      { rewrite length_app. specialize (Hl L). lia. }
      exists i', out', s''. repeat split; auto; try lia.
      rewrite <- Hpre in *. rewrite length_app in Hpre.
      assert (firstn (length out) (firstn (length out + length bytes) out') = out) as G.
      { rewrite Hpre. apply firstn_exact. reflexivity. }
      rewrite firstn_firstn in G. rewrite Nat.min_l in G by lia. exact G.
    + assert (forall f, decrypt_loop f len r i out s' = Some (i, out, s')) as ->.
      { intros f. destruct f; cbn [decrypt_loop]; rewrite (proj2 (Z.ltb_ge 0 r)) by lia; reflexivity. }
      exists i, out, s'. repeat split; auto; try lia. apply firstn_all.
Qed.
End SslApi.

(** ** Theorems *)

(** A MAC for the instances: 32 bytes of a weighted sum. *)
Definition toy_hmac (k m : list Z) : list Z := le_bytes 32 (le_value k * 3 + le_value m + 5).

Lemma toy_hmac_bytes k m : Forall is_byte (toy_hmac k m).
Proof. apply le_bytes_bytes. Qed.

Lemma toy_hmac_len k m : length (toy_hmac k m) = 32%nat.
Proof. apply le_bytes_length. Qed.

(** C7: from the same 16-byte secret, client and station derive the same private key,
    the HMAC chain x_1..x_4 read as a 1023-bit number with its top bit set, whatever
    their stack buffers held; the length assertion never fails. *)
Theorem dh_keys_agree HMAC junk1 junk2 secret :
  (forall k m, Forall is_byte (HMAC k m)) -> (forall k m, length (HMAC k m) = 32%nat) ->
  length junk1 = 128%nat -> length junk2 = 128%nat ->
  let key := be_value (fix_top (prg_stream HMAC (firstn 16 secret))) in
  client_dh_key HMAC junk1 secret = Ret key /\ station_dh_key HMAC junk2 secret = Ret key /\
  2 ^ 1022 <= key < 2 ^ 1023.
Proof.
  intros HB HL J1 J2 key. unfold client_dh_key, station_dh_key.
  change (128 / SHA256_DIGEST_LENGTH)%nat with 4%nat.
  rewrite station_client_prg, !client_prg_stream by assumption.
  split; [reflexivity | split; [reflexivity |]].
  destruct (prg_stream_bytes HMAC HB HL (firstn 16 secret)). now apply dh_key_range.
Qed.

Lemma dh_keys_agree_witness :
  client_dh_key toy_hmac (repeat 7 128) (repeat 1 16) =
  station_dh_key toy_hmac (repeat 9 128) (repeat 1 16).
Proof.
  destruct (dh_keys_agree toy_hmac (repeat 7 128) (repeat 9 128) (repeat 1 16)
    toy_hmac_bytes toy_hmac_len (repeat_length _ _) (repeat_length _ _)) as (-> & -> & _). reflexivity.
Defined.

(** The hello that [ssl_new_telex] makes, and what the station gets out of it. *)
Lemma hello_recovered SHA256 HMAC e1 e2 ek1 ek2 j1 j2 st0 random privkey pubkey st now ip r1 seckey :
  (forall m, length (SHA256 m) = 32%nat) ->
  (forall k m, Forall is_byte (HMAC k m)) -> (forall k m, length (HMAC k m) = 32%nat) ->
  length j1 = 128%nat -> length j2 = 128%nat ->
  genkeys_main ptwist_pm ek1 ek2 random = Ret (privkey, pubkey) ->
  tag_load_pubkey (Some pubkey) (tag_init st0) = Ret st ->
  ptwist_usable (gen_of st r1) seckey privkey ->
  exists h tag secret, ssl_new_telex ptwist_pm SHA256 HMAC true e1 e2 j1 st now ip r1 seckey = Ret (0, Some h) /\
    telex_client_random h = rev (le_bytes 4 now) ++ tag /\ length tag = PTWIST_TAG_BYTES /\
    (forall jk key0, check_tag ptwist_pm SHA256 jk key0 privkey tag (tag_context ip now) = (0, secret)) /\
    length secret = 16%nat /\ station_dh_key HMAC j2 secret = Ret (telex_dh_priv_key h).
Proof.
  intros HS HB HL J1 J2 Hk Hl Hu. destruct (loaded_pub _ _ _ _ _ _ _ r1 Hk Hl) as [e E].
  unfold ssl_new_telex. cbn [negb].
  pose proof (tag_length (KA := ptwist_agreement) SHA256 HS e1 e2 st r1 seckey (tag_context ip now)) as L.
  pose proof (fun jk key0 => tag_recognised SHA256 HS e1 e2 e jk key0 st r1 seckey privkey (tag_context ip now) Hu E) as R.
  pose proof (gen_tag_shape (KA := ptwist_agreement) SHA256 HS e1 e2 st r1 seckey (tag_context ip now)) as G.
  destruct (gen_tag _ _ _ _ _ _ _ _) as [tag secret]. cbn [fst] in L.
  cbv zeta in G. apply (f_equal snd) in G. cbn [snd] in G.
  unfold client_dh_key. change (128 / SHA256_DIGEST_LENGTH)%nat with 4%nat.
  rewrite client_prg_stream by assumption. cbn [obind]. do 3 eexists. split; [reflexivity |].
  cbn [telex_client_random telex_dh_priv_key]. split; [reflexivity |]. split; [exact L |]. split; [exact R |].
  split; [rewrite G, length_firstn, length_skipn, HS; reflexivity |].
  unfold station_dh_key. change (128 / SHA256_DIGEST_LENGTH)%nat with 4%nat.
  rewrite station_client_prg, client_prg_stream by assumption. reflexivity.
Qed.

(** The covert handshake works end to end: from the 32-byte client random that
    [ssl_new_telex] puts on the wire, the station that owns the private key, knows the
    server address and reads the timestamp out of that random recovers the client's
    secret with [check_tag] and from it the client's Diffie-Hellman private key. *)
Theorem covert_handshake SHA256 HMAC e1 e2 ek1 ek2 jk j1 j2 key0 st0 random privkey pubkey st now ip r1 seckey :
  (forall m, length (SHA256 m) = 32%nat) ->
  (forall k m, Forall is_byte (HMAC k m)) -> (forall k m, length (HMAC k m) = 32%nat) ->
  length j1 = 128%nat -> length j2 = 128%nat ->
  genkeys_main ptwist_pm ek1 ek2 random = Ret (privkey, pubkey) ->
  tag_load_pubkey (Some pubkey) (tag_init st0) = Ret st ->
  ptwist_usable (gen_of st r1) seckey privkey ->
  exists h, ssl_new_telex ptwist_pm SHA256 HMAC true e1 e2 j1 st now ip r1 seckey = Ret (0, Some h) /\
    length (telex_client_random h) = 32%nat /\
    let wire := telex_client_random h in
    let ctx := le_bytes 4 ip ++ firstn 4 wire ++ [0] in
    exists secret, check_tag ptwist_pm SHA256 jk key0 privkey (skipn 4 wire) ctx = (0, secret) /\
      station_dh_key HMAC j2 secret = Ret (telex_dh_priv_key h).
Proof.
  intros HS HB HL J1 J2 Hk Hl Hu.
  destruct (hello_recovered SHA256 HMAC e1 e2 ek1 ek2 j1 j2 st0 random privkey pubkey st now ip r1 seckey
              HS HB HL J1 J2 Hk Hl Hu) as (h & tag & secret & E & W & L & R & _ & D).
  exists h. split; [exact E |]. cbv zeta. rewrite W. set (t := rev (le_bytes 4 now)).
  assert (length t = 4%nat) as Lt by (unfold t; now rewrite length_rev, le_bytes_length).
  split; [rewrite length_app, Lt, L; reflexivity |].
  rewrite (firstn_exact 4), (skipn_exact 4) by exact Lt. exists secret. split; [apply R | exact D].
Qed.

Lemma covert_handshake_witness :
  let e := Env 0 coord0 in
  exists st h, ssl_new_telex ptwist_pm toy_hash toy_hmac true e e (repeat 0 128) st 1300000000 16777343 0
                 (bin21 2) = Ret (0, Some h) /\ length (telex_client_random h) = 32%nat.
Proof.
  intros e. destruct (load_generated (KA := ptwist_agreement) e e (bin21 3) (bin21 3)
    (ptwist_pm e (bin21 2) (bin21 3) ++ ptwist_pm e (repeat 0 21) (bin21 3))
    (tag_init (TagState [] [] [] [])) eq_refl) as (_ & E & _).
  eexists. destruct (covert_handshake toy_hash toy_hmac e e e e coord0 (repeat 0 128) (repeat 0 128) []
    (TagState [] [] [] []) (bin21 3) (bin21 3)
    (ptwist_pm e (bin21 2) (bin21 3) ++ ptwist_pm e (repeat 0 21) (bin21 3))
    _ 1300000000 16777343 0 (bin21 2) toy_hash_len toy_hmac_bytes toy_hmac_len
    (repeat_length _ _) (repeat_length _ _) eq_refl E usable_2_3) as (h & Hh & L & _).
  exists h. split; [exact Hh | exact L].
Defined.

(** [ssl_decrypt] always returns, never writes past its [len]-byte buffer, and
    when it returns a positive count that many decrypted bytes are in it. *)
Theorem ssl_decrypt_total {S} rbio_eof BIO_write SSL_read malloc_ok (s : S) inp :
  (forall s n, 0 <= n -> let '(ret, bytes, _) := SSL_read s n in
     ret <= n /\ (0 < ret -> Z.of_nat (length bytes) = ret)) ->
  exists i out s', ssl_decrypt rbio_eof BIO_write SSL_read malloc_ok s inp = Some (i, out, s') /\
    i <= Z.of_nat (length inp) /\ (length out <= length inp)%nat /\
    (0 < i -> Z.of_nat (length out) = i).
Proof.
  intros HR. unfold ssl_decrypt.
  destruct (rbio_eof s); cbn [negb]; [| eexists _, _, _; split; [reflexivity |]; cbn; lia].
  destruct (BIO_write s inp) as [n s1]. destruct (n =? _); cbn [negb];
    [| eexists _, _, _; split; [reflexivity |]; cbn; lia].
  destruct malloc_ok; cbn [negb]; [| eexists _, _, _; split; [reflexivity |]; cbn; lia].
  specialize (HR s1 (Z.of_nat (length inp)) ltac:(lia)) as H1.
  destruct (SSL_read s1 (Z.of_nat (length inp))) as [[ret bytes] s2]. destruct H1 as [Hr Hl].
  destruct (Z.ltb_spec 0 ret) as [L | L].
  - destruct (decrypt_loop_ok rbio_eof SSL_read HR (length inp) (Z.of_nat (length inp)) ret ret bytes s2)
      as (i & out & s' & -> & B & Ho & _); try lia; auto.
    exists i, out, s'. repeat split; lia.
  - assert (forall f, decrypt_loop rbio_eof SSL_read f (Z.of_nat (length inp)) ret ret [] s2
      = Some (ret, [], s2)) as ->.
    { intros f. destruct f; cbn [decrypt_loop]; rewrite (proj2 (Z.ltb_ge 0 ret)) by lia; reflexivity. }
    exists ret, [], s2. cbn [length]. repeat split; lia.
Qed.

(** A record layer that decrypts by handing out at most two bytes at a time. *)
Definition toy_read (s : list Z) (n : Z) : Z * list Z * list Z :=
  let k := Nat.min (Nat.min 2 (Z.to_nat n)) (length s) in
  (Z.of_nat k, firstn k s, skipn k s).

Lemma ssl_decrypt_total_witness :
  exists i out s', ssl_decrypt (fun s => match s with [] => true | _ => false end)
    (fun s b => (Z.of_nat (length b), s ++ b)) toy_read true [] [1; 2; 3; 4; 5] = Some (i, out, s') /\
    i <= 5 /\ (length out <= 5)%nat /\ (0 < i -> Z.of_nat (length out) = i).
Proof.
  apply (ssl_decrypt_total (S := list Z)). intros s n Hn. unfold toy_read. rewrite length_firstn. lia.
Defined.

(** [ssl_init] that failed on the CA list leaves its context set, so a second call
    reports success although no tag key was ever loaded. *)
Theorem ssl_init_retry builtin named keyfile conf :
  ssl_ctx conf = false ->
  exists conf', ssl_init true true false builtin named keyfile conf = Ret (-1, conf') /\
    forall r c a, ssl_init r c a builtin named keyfile conf' = Ret (0, conf') /\ keys conf' = keys conf.
Proof. intros Hc. unfold ssl_init. rewrite Hc. eexists. split; [reflexivity |]. now intros. Qed.

Lemma ssl_init_retry_witness :
  exists conf', ssl_init true true false None true None (SslConf false (TagState [] [] [] [])) = Ret (-1, conf').
Proof.
  destruct (ssl_init_retry None true None (SslConf false (TagState [] [] [] [])) eq_refl) as (c & E & _). eauto.
Defined.
