(* ===== verification/Logger.v ===== *)
(** * The client's logger and utilities

    [telex-client/logger.c]: level filtering, the line format and [HexDump];
    [telex-client/util.c].  Text is a list of character codes; the clock and the
    result of [vfprintf] are inputs. *)
From S2P Require Import Prelude Bytes CLib.
From Stdlib Require Import String ZArith Lia List Bool.
Import ListNotations.
Open Scope Z_scope.
Open Scope list_scope.

(** ** Number formats of [printf] *)

(** Decimal digits of a non-negative number, most significant first. *)
Fixpoint dec_digits (fuel : nat) (n : Z) (acc : list Z) : list Z :=
  match fuel with
  | O => acc
  | S f => let acc := (48 + n mod 10) :: acc in
           if n / 10 =? 0 then acc else dec_digits f (n / 10) acc
  end.

(** [%u] of an [unsigned int]: at most ten digits. *)
Definition fmt_u (n : Z) : list Z := dec_digits 10 n [].

(** [%d] of an [int]. *)
Definition fmt_d (n : Z) : list Z := if n <? 0 then 45 :: fmt_u (- n) else fmt_u n.

(** One upper-case hexadecimal digit, and [%02X] of a byte. *)
Definition hex_digit (d : Z) : Z := if d <? 10 then 48 + d else 55 + d.
Definition fmt_02X (b : Z) : list Z := [hex_digit (b / 16); hex_digit (b mod 16)].

(** [%03ld] of a value below 1000. *)
Definition fmt_03 (n : Z) : list Z := [48 + n / 100; 48 + n / 10 mod 10; 48 + n mod 10].

(** ** LogLogVA *)

(** enum LogLevel *)
Definition LOG_FATAL : Z := 0.
Definition LOG_ERROR : Z := 1.
Definition LOG_WARN : Z := 2.
Definition LOG_INFO : Z := 3.
Definition LOG_DEBUG : Z := 4.
Definition LOG_TRACE : Z := 5.

Record log_state := LogState { log_output_stream : bool; log_output_level : Z }.

Definition log_level_name : list (list Z) :=
  map chars ["FATAL"; "ERROR"; "WARN "; "INFO "; "DEBUG"; "TRACE"]%string.

(** [sizeof(log_level_name)]: six pointers of eight bytes. *)
Definition sizeof_log_level_name : Z := 8 * Z.of_nat (length log_level_name).

(** What [LogLogVA] prints: [stamp] is the [strftime] text, [usec] the microseconds,
    [message] the formatted message; [None] is a read past [log_level_name]. *)
Definition LogLogVA (st : log_state) (stamp : list Z) (usec : Z) (level : Z)
           (name message : option (list Z)) : option (list Z) :=
  if log_output_stream st && (level <=? log_output_level st) then
    match (if sizeof_log_level_name <=? level then Some (chars "UNKNOWN")
           else nth_error log_level_name (Z.to_nat level)) with
    | None => None
    | Some levelName =>
        Some (stamp ++ chars "." ++ fmt_03 (usec / 1000) ++ chars " [" ++ levelName ++ chars "] " ++
              match name with Some n => n ++ chars ": " | None => [] end ++
              match message with Some m => m | None => [] end ++
              match name, message with None, None => [] | _, _ => [10] end)
    end
  else Some [].

Definition LogOutputStream (stream : bool) (st : log_state) : log_state :=
  LogState stream (log_output_level st).
Definition LogOutputLevel (level : Z) (st : log_state) : log_state :=
  LogState (log_output_stream st) level.

(** The six wrappers. *)
Definition LogFatal st stamp usec := LogLogVA st stamp usec LOG_FATAL.
Definition LogError st stamp usec := LogLogVA st stamp usec LOG_ERROR.
Definition LogWarn st stamp usec := LogLogVA st stamp usec LOG_WARN.
Definition LogInfo st stamp usec := LogLogVA st stamp usec LOG_INFO.
Definition LogDebug st stamp usec := LogLogVA st stamp usec LOG_DEBUG.
Definition LogTrace st stamp usec := LogLogVA st stamp usec LOG_TRACE.

(** ** HexDump *)

Definition printable (c : Z) : Z := if (32 <=? c) && (c <=? 126) then c else 46.

(** The characters one row of up to 16 bytes puts in the buffer: [snprintf(p, 3, ...)]
    keeps two digits and its terminator of every ["%02X "]; then padding to 17
    columns, and the printable column. *)
Definition hex_row (row : list Z) : list Z :=
  flat_map (fun b => fmt_02X b ++ [0]) row ++
  flat_map (fun _ => [32; 32; 32]) (seq 0 (17 - length row)) ++
  map printable row.

(** The rows; a newline after each but the last.  [rows] bounds their number. *)
Fixpoint hex_rows (rows : nat) (data : list Z) : list Z :=
  match rows with
  | O => []
  | S n =>
      match data with
      | [] => []
      | _ => hex_row (firstn 16 data) ++
             (if (16 <? length data)%nat then [10] else []) ++ hex_rows n (skipn 16 data)
      end
  end.

Definition hex_header (message : list Z) (len : Z) : list Z :=
  message ++ chars " (" ++ fmt_u len ++ chars " bytes)" ++ [10].

(** The buffer that [HexDump] fills, with the final terminator, and its size. *)
Definition hexdump_buffer (message data : list Z) : list Z :=
  hex_header message (Z.of_nat (length data)) ++ hex_rows (length data) data ++ [0].
Definition hexdump_bufsize (message data : list Z) : Z :=
  Z.of_nat (length message) + Z.of_nat (length data) * 5 + 70.

(** What [LogLog] reads of it, a C string. *)
Definition HexDump (message data : list Z) : list Z := cstr (hexdump_buffer message data).

(** ** util.c *)

(** [time_ms] *)
Definition time_ms (sec usec : Z) : Z := wrap 64 (sec * 1000 + usec / 1000).

(** [address_to_string]: dotted quad, colon, port, cut to [outlen - 1] characters. *)
Definition address_to_string (addr : list Z) (port : Z) (outlen : nat) : list Z :=
  let dotted := match addr with
                | [a; b; c; d] => fmt_u a ++ [46] ++ fmt_u b ++ [46] ++ fmt_u c ++ [46] ++ fmt_u d
                | _ => []
                end in
  firstn (outlen - 1) (dotted ++ [58] ++ fmt_d port).

(** ** Theorems *)

(** A message is printed exactly when a stream is set and its level does not exceed
    the output level; for the six levels the level name is always the right one. *)
Theorem log_filtering st stamp usec level name message :
  0 <= level <= LOG_TRACE ->
  exists out, LogLogVA st stamp usec level name message = Some out /\
    (out <> [] <-> log_output_stream st = true /\ level <= log_output_level st) /\
    (out <> [] -> exists rest,
       out = stamp ++ chars "." ++ fmt_03 (usec / 1000) ++ chars " [" ++
             nth (Z.to_nat level) log_level_name [] ++ rest).
Proof.
  intros Hl. unfold LogLogVA, LOG_TRACE in *.
  destruct (log_output_stream st && (level <=? log_output_level st)) eqn:E.
  - apply andb_true_iff in E as [E1 E2%Z.leb_le].
    rewrite (proj2 (Z.leb_gt sizeof_log_level_name level)) by (cbn; lia).
    rewrite (nth_error_nth' log_level_name []) by (cbn; lia).
    eexists. split; [reflexivity |]. split; [split; auto |]; intros _.
    + destruct stamp; discriminate.
    + eexists. reflexivity.
  - exists []. split; [reflexivity |]. split; [| congruence]. split; [congruence |].
    intros [E1 E2%Z.leb_le]. rewrite E1, E2 in E. discriminate.
Qed.

Lemma log_filtering_witness :
  exists out, LogLogVA (LogState true LOG_INFO) (chars "May 01") 5000 LOG_WARN None (Some (chars "x"))
    = Some out /\ out <> [].
Proof.
  destruct (log_filtering (LogState true LOG_INFO) (chars "May 01") 5000 LOG_WARN None (Some (chars "x")))
    as (out & E & H & _); [unfold LOG_WARN, LOG_TRACE; lia |].
  exists out. split; [exact E |]. apply H. split; [reflexivity | unfold LOG_WARN, LOG_INFO; cbn; lia].
Defined.

(** A level past the table is not caught: the guard compares with the size of the
    table in bytes, so levels 6 to 47 read past it. *)
Theorem log_level_guard st stamp usec level name message :
  log_output_stream st = true -> level <= log_output_level st -> 6 <= level < 48 ->
  LogLogVA st stamp usec level name message = None.
Proof.
  intros Hs Hl H. unfold LogLogVA. rewrite Hs, (proj2 (Z.leb_le _ _) Hl). cbn [andb].
  rewrite (proj2 (Z.leb_gt sizeof_log_level_name level)) by (cbn; lia).
  rewrite (proj2 (nth_error_None log_level_name (Z.to_nat level))) by (cbn; lia). reflexivity.
Qed.

Lemma log_level_guard_witness : LogLogVA (LogState true 40) [] 0 6 None None = None.
Proof. apply log_level_guard; cbn; lia || reflexivity. Defined.

(** The buffer is large enough. *)
Lemma dec_digits_length fuel n acc : (length (dec_digits fuel n acc) <= fuel + length acc)%nat.
Proof.
  revert n acc. induction fuel as [| f IH]; intros n acc; cbn [dec_digits]; [lia |].
  destruct (_ =? 0); cbn [length]; [lia |]. specialize (IH (n / 10) ((48 + n mod 10) :: acc)).
  cbn [length] in IH. lia.
Qed.

Lemma flat_map_const_length {A B} (f : A -> list B) k l :
  (forall x, length (f x) = k) -> length (flat_map f l) = (k * length l)%nat.
Proof.
  intros H. induction l as [| x l IH]; cbn [flat_map length]; [lia |].
  rewrite length_app, H, IH. lia.
Qed.

Lemma hex_row_length row : (length row <= 16)%nat -> length (hex_row row) = (51 + length row)%nat.
Proof.
  intros H. unfold hex_row. rewrite !length_app, length_map.
  rewrite (flat_map_const_length _ 3 row), (flat_map_const_length _ 3 (seq _ _)), length_seq
    by reflexivity. lia.
Qed.

Lemma hex_rows_length rows data :
  (length data <= rows)%nat -> (length (hex_rows rows data) <= 5 * length data + 48)%nat.
Proof.
  revert data. induction rows as [| n IH]; intros data H; cbn [hex_rows]; [cbn; lia |].
  destruct data as [| b data']; [cbn; lia |]. set (data := b :: data') in *.
  assert (1 <= length data)%nat as L1 by (unfold data; cbn; lia).
  rewrite !length_app, hex_row_length by (rewrite length_firstn; lia).
  pose proof (IH (skipn 16 data)) as IH'. rewrite length_skipn in IH'. rewrite length_firstn.
  destruct (Nat.ltb_spec 16 (length data)); cbn [length].
  - specialize (IH' ltac:(lia)). lia.
  - rewrite (skipn_all2 data) by lia. destruct n; cbn [hex_rows length]; lia.
Qed.

(** [HexDump] never writes past the buffer it allocated, for any message and data. *)
Theorem hexdump_in_bounds message data :
  Z.of_nat (length (hexdump_buffer message data)) <= hexdump_bufsize message data.
Proof.
  unfold hexdump_buffer, hexdump_bufsize, hex_header, fmt_u. rewrite !length_app.
  pose proof (dec_digits_length 10 (Z.of_nat (length data)) []).
  pose proof (hex_rows_length (length data) data (le_n _)). cbn [length chars map] in *.
  change (length (chars " (")) with 2%nat. change (length (chars " bytes)")) with 7%nat. lia.
Qed.

Lemma dec_digits_nz fuel n acc :
  0 <= n -> Forall (fun c => c <> 0) acc -> Forall (fun c => c <> 0) (dec_digits fuel n acc).
Proof.
  revert n acc. induction fuel as [| f IH]; intros n acc Hn Ha; cbn [dec_digits]; [exact Ha |].
  pose proof (Z.mod_pos_bound n 10 ltac:(lia)).
  destruct (_ =? 0); [| apply IH]; try (constructor; [lia | exact Ha]).
  apply Z.div_pos; lia.
Qed.

Lemma hex_digit_nz d : 0 <= d < 16 -> hex_digit d <> 0.
Proof. unfold hex_digit. destruct (Z.ltb_spec d 10); lia. Qed.

(** What [HexDump] logs stops after the first byte: [snprintf(p, 3, "%02X ")] ends
    each byte with a terminator instead of the space, so the logged string is the header
    and two digits, whatever data follows. *)
Theorem hexdump_shows_one_byte message b data :
  Forall (fun c => c <> 0) message -> is_byte b ->
  HexDump message (b :: data) = hex_header message (Z.of_nat (length (b :: data))) ++ fmt_02X b.
Proof.
  intros Hm Hb. unfold HexDump, hexdump_buffer. rewrite cstr_app.
  - f_equal. cbn [length hex_rows]. unfold hex_row. cbn [firstn flat_map].
    rewrite <- !app_assoc. unfold is_byte in Hb.
    rewrite cstr_app; [cbn [app cstr]; rewrite app_nil_r; reflexivity |].
    repeat constructor; apply hex_digit_nz; [| apply Z.mod_pos_bound; lia].
    split; [apply Z.div_pos; lia | apply Z.div_lt_upper_bound; lia].
  - unfold hex_header. rewrite !Forall_app. split; [exact Hm |]. split; [repeat constructor; discriminate |].
    split; [apply dec_digits_nz; [lia | constructor] |]. split; repeat constructor; discriminate.
Qed.

Lemma hexdump_shows_one_byte_witness :
  HexDump (chars "tag") [0xAB; 1; 2] = chars "tag (3 bytes)" ++ [10] ++ chars "AB".
Proof. apply (hexdump_shows_one_byte (chars "tag") 0xAB [1; 2]); [repeat constructor; discriminate | unfold is_byte; lia]. Defined.
