(* ===== verification/Client.v ===== *)
(** * The client program

    [telex-client/client.c] and [listener.c]: the [<host>[:port]] argument, the
    start-up and shut-down sequence with its return codes.  Argument parsing by
    argtable2 and the libevent calls are inputs. *)
From S2P Require Import Prelude Bytes CLib Logger.
From Stdlib Require Import String ZArith Lia List Bool.
Import ListNotations.
Open Scope Z_scope.
Open Scope list_scope.

(** ** [strtok] and [strtol] *)

Definition colon : Z := 58.

(** Skip leading delimiters: how many characters, and the rest. *)
Fixpoint skip_delim (s : list Z) : nat * list Z :=
  match s with
  | c :: r => if c =? colon then let '(n, t) := skip_delim r in (S n, t) else (O, s)
  | [] => (O, [])
  end.

(** A token: up to the next delimiter, and what follows the delimiter if there is one. *)
Fixpoint token (s : list Z) : list Z * option (list Z) :=
  match s with
  | [] => ([], None)
  | c :: r => if c =? colon then ([], Some r)
              else let '(t, rest) := token r in (c :: t, rest)
  end.

(** [strtok(hstr, ":")] then [strtok(NULL, ":")] on the string [s]: the C string that
    [hstr] holds afterwards, and the second token. *)
Definition strtok2 (s : list Z) : list Z * option (list Z) :=
  let '(lead, body) := skip_delim s in
  let '(tok, rest) := token body in
  (firstn lead s ++ tok,
   match rest with
   | None => None
   | Some r => match snd (skip_delim r) with
               | [] => None
               | body2 => Some (fst (token body2))
               end
   end).

Definition is_space (c : Z) : bool := (c =? 32) || ((9 <=? c) && (c <=? 13)).
Definition is_digit (c : Z) : bool := (48 <=? c) && (c <=? 57).

Fixpoint skip_space (s : list Z) : list Z :=
  match s with c :: r => if is_space c then skip_space r else s | [] => [] end.

Fixpoint digits_value (s : list Z) (acc : Z) : Z :=
  match s with c :: r => if is_digit c then digits_value r (acc * 10 + (c - 48)) else acc | [] => acc end.

(** [strtol(s, NULL, 10)]: blanks, a sign, digits, clamped to a 64-bit [long]. *)
Definition strtol (s : list Z) : Z :=
  let s := skip_space s in
  let '(neg, s) := match s with
                   | c :: r => if c =? 45 then (true, r) else if c =? 43 then (false, r) else (false, s)
                   | [] => (false, [])
                   end in
  let v := digits_value s 0 in
  if neg then Z.max (- 2 ^ 63) (- v) else Z.min (2 ^ 63 - 1) v.

(** ** The host argument *)

(** The host and port that [main] hands to [telex_client], or its return value 1.
    [last] is the uninitialised last byte of [hstr], which [strncpy] never writes. *)
Definition parse_host (last : Z) (arg : list Z) : (list Z * Z) + Z :=
  let hstr := cstr (firstn 254 (arg ++ repeat 0 254) ++ [last]) in
  let '(host, pstr) := strtok2 hstr in
  match pstr with
  | None => inl (host, 443)
  | Some p =>
      let port := swrap 32 (strtol p) in
      if (port <? 1) || (65535 <? port) then inr 1 else inl (host, port)
  end.

(** ** listener.c *)

(** The address [listener_init_local] binds: family, 127.0.0.1 and the low 16 bits of
    the port, and the error callback it installs. *)
Record listener := Listener { l_addr : list Z; l_port : Z; l_default_error_cb : bool }.

Definition listener_init_local (bind_ok : bool) (port : Z) (error_cb_given : bool) : option listener :=
  let l := Listener [127; 0; 0; 1] (wrap 16 port) (negb error_cb_given) in
  if bind_ok then Some l else None.

(** What the event loop has allocated when [InitAndListenLoop] returns. *)
Record loop_end := LoopEnd {
  loop_ret : Z; dispatched : bool; dns_base_set : bool;
  base_freed : bool; listener_freed : bool; signal_freed : bool
}.

(** [InitAndListenLoop]: the results of the four set-up calls. *)
Definition InitAndListenLoop (base_ok dns_ok bind_ok signal_ok : bool) (port : Z) : loop_end :=
  if negb base_ok then LoopEnd 1 false false false false false else
  if negb dns_ok then LoopEnd 1 false false false false false else
  match listener_init_local bind_ok port false with
  | None => LoopEnd 1 false true false false false
  | Some _ =>
      if negb signal_ok then LoopEnd 1 false true false false false
      else LoopEnd 0 true true true true true
  end.

(** ** client.c *)

(** The configuration [telex_client] fills and what it frees at the end. *)
Record client_conf := ClientConf {
  notblocked_host : list Z; notblocked_port : Z; ca_list : list Z; keyfile : list Z;
  conf_tunnels : Z; conf_open_tunnels : Z
}.

Record client_end := ClientEnd {
  client_ret : Z; client_log : log_state; client_cfg : client_conf;
  loop : option loop_end; ctx_freed : bool; dns_freed : bool
}.

(** [telex_client]; [ssl_ret] and [ssl_ctx_set] are what [ssl_init] returns and leaves. *)
Definition telex_client (log : log_state) (listen_port remote_port debug_level : Z)
           (host key ca : list Z) (ssl_ret : Z) (ssl_ctx_set : bool)
           (base_ok dns_ok bind_ok signal_ok : bool) : client_end :=
  let log := if 0 <=? debug_level
             then LogOutputLevel debug_level (LogOutputStream true log) else log in
  let conf := ClientConf host remote_port ca key 0 0 in
  if ssl_ret <? 0 then ClientEnd 1 log conf None false false else
  let e := InitAndListenLoop base_ok dns_ok bind_ok signal_ok listen_port in
  ClientEnd (loop_ret e) log conf (Some e) ssl_ctx_set (dns_base_set e).

(** What argtable2 hands to [main]: counts, values given on the command line, errors. *)
Record client_args := Args {
  a_argc : Z; a_help : bool; a_nerrors : Z;
  a_port : option Z; a_debug : option Z; a_key : option (list Z); a_certdb : option (list Z);
  a_host : list Z
}.

Inductive client_action :=
| Return (code : Z)
| Run (listen_port remote_port debug_level : Z) (host key ca : list Z).

Definition default {A} (d : A) (o : option A) : A := match o with Some v => v | None => d end.

(** [main] up to its call of [telex_client], in the build without compiled-in files. *)
Definition client_main (last : Z) (a : client_args) : client_action :=
  if a_help a then Return 0 else
  if 0 <? a_nerrors a then Return 1 else
  if a_argc a =? 1 then Return 0 else
  match parse_host last (a_host a) with
  | inr code => Return code
  | inl (host, port) =>
      Run (default 8888 (a_port a)) port (default 3 (a_debug a)) host
          (default (chars "pubkey") (a_key a)) (default (chars "root.pem") (a_certdb a))
  end.

(** ** Lemmas *)

Lemma digits_value_dec f n acc :
  0 <= n < 10 ^ Z.of_nat f -> digits_value (dec_digits f n acc) 0 = digits_value acc n.
Proof.
  revert n acc. induction f as [| f IH]; intros n acc Hn.
  { cbn [dec_digits]. change (10 ^ Z.of_nat 0) with 1 in Hn. f_equal. lia. }
  cbn [dec_digits]. rewrite Nat2Z.inj_succ, Z.pow_succ_r in Hn by lia.
  destruct (div_mod_split n 10 ltac:(lia)) as [E B].
  assert (forall v, digits_value ((48 + n mod 10) :: acc) v = digits_value acc (v * 10 + n mod 10)) as D.
  { intros v. cbn [digits_value]. unfold is_digit.
    rewrite (proj2 (Z.leb_le _ _)), (proj2 (Z.leb_le _ _)) by lia. cbn [andb]. f_equal. lia. }
  destruct (Z.eqb_spec (n / 10) 0) as [E0 | E0].
  - rewrite D. f_equal. lia.
  - rewrite IH, D; [f_equal; lia |]. split; [apply Z.div_pos; lia | apply Z.div_lt_upper_bound; lia].
Qed.

Lemma dec_digits_digits f n acc :
  Forall (fun c => 48 <= c <= 57) acc -> Forall (fun c => 48 <= c <= 57) (dec_digits f n acc).
Proof.
  revert n acc. induction f as [| f IH]; intros n acc Ha; cbn [dec_digits]; [exact Ha |].
  pose proof (Z.mod_pos_bound n 10 ltac:(lia)).
  destruct (_ =? 0); [| apply IH]; constructor; auto; lia.
Qed.

Lemma fmt_u_digits n : Forall (fun c => 48 <= c <= 57) (fmt_u n).
Proof. apply dec_digits_digits. constructor. Qed.

Lemma dec_digits_nonempty f n acc : acc <> [] \/ (0 < f)%nat -> dec_digits f n acc <> [].
Proof.
  revert n acc. induction f as [| f IH]; intros n acc [H | H]; cbn [dec_digits]; auto; try lia;
    (destruct (_ =? 0); [discriminate | apply IH; now left]).
Qed.

Lemma strtol_fmt_u n : 0 <= n < 10 ^ 10 -> strtol (fmt_u n) = n.
Proof.
  intros Hn. unfold strtol. pose proof (fmt_u_digits n) as HF.
  pose proof (digits_value_dec 10 n [] ltac:(lia)) as HV. fold (fmt_u n) in HV.
  destruct (fmt_u n) as [| c r] eqn:E; [now apply dec_digits_nonempty in E; [| right; lia] |].
  inversion HF as [| ? ? Hc Hr]; subst. cbn [skip_space]. unfold is_space.
  assert (((c =? 32) || ((9 <=? c) && (c <=? 13))) = false) as ->.
  { apply orb_false_iff. split; [lia |]. apply andb_false_iff. right. lia. }
  rewrite (proj2 (Z.eqb_neq c 45)), (proj2 (Z.eqb_neq c 43)) by lia. rewrite HV.
  cbn [digits_value]. apply Z.min_r. lia.
Qed.

Definition no_colon (s : list Z) : Prop := Forall (fun c => c <> colon) s.

Lemma token_no_colon s t : no_colon s -> token (s ++ colon :: t) = (s, Some t).
Proof.
  induction 1 as [| c r Hc Hr IH]; [reflexivity |]. cbn [app token].
  rewrite (proj2 (Z.eqb_neq _ _)) by exact Hc. now rewrite IH.
Qed.

Lemma token_all s : no_colon s -> token s = (s, None).
Proof.
  induction 1 as [| c r Hc Hr IH]; [reflexivity |]. cbn [token].
  rewrite (proj2 (Z.eqb_neq _ _)) by exact Hc. now rewrite IH.
Qed.

Lemma skip_delim_none s t : s <> [] -> no_colon s -> skip_delim (s ++ t) = (O, s ++ t).
Proof.
  intros Hs H. destruct H as [| c r Hc Hr]; [contradiction |]. cbn [app skip_delim].
  now rewrite (proj2 (Z.eqb_neq _ _)) by exact Hc.
Qed.

Lemma skip_delim_self s : s <> [] -> no_colon s -> skip_delim s = (O, s).
Proof. intros Hs H. rewrite <- (app_nil_r s). now apply skip_delim_none. Qed.

Lemma strtok2_plain h : h <> [] -> no_colon h -> strtok2 h = (h, None).
Proof.
  intros Hh H. unfold strtok2. rewrite skip_delim_self by assumption. now rewrite token_all.
Qed.

Lemma strtok2_port h p :
  h <> [] -> no_colon h -> p <> [] -> no_colon p -> strtok2 (h ++ colon :: p) = (h, Some p).
Proof.
  intros Hh H Hp H'. unfold strtok2. rewrite skip_delim_none, token_no_colon by assumption.
  rewrite skip_delim_self by assumption. cbn [snd].
  destruct p as [| c r]; [contradiction |]. now rewrite token_all.
Qed.

(** A string that fits in [hstr]. *)
Lemma hstr_fits last arg :
  Forall (fun c => c <> 0) arg -> (length arg < 254)%nat ->
  cstr (firstn 254 (arg ++ repeat 0 254) ++ [last]) = arg.
Proof.
  intros Hn Hl. rewrite firstn_app, (firstn_all2 arg), <- app_assoc, cstr_app by (lia || exact Hn).
  replace (254 - length arg)%nat with (S (253 - length arg)) by lia.
  change (repeat 0 254) with (0 :: repeat 0 253). rewrite firstn_cons. apply app_nil_r.
Qed.

Lemma hstr_long last arg :
  Forall (fun c => c <> 0) arg -> (254 <= length arg)%nat -> last <> 0 ->
  cstr (firstn 254 (arg ++ repeat 0 254) ++ [last]) = firstn 254 arg ++ [last].
Proof.
  intros Hn Hl Ha. rewrite firstn_app.
  replace (254 - length arg)%nat with O by lia. rewrite firstn_O, app_nil_r, cstr_app.
  - cbn [cstr]. now rewrite (proj2 (Z.eqb_neq _ _)) by exact Ha.
  - now apply Forall_firstn.
Qed.

(** ** Theorems *)

Definition host_ok (h : list Z) : Prop :=
  h <> [] /\ no_colon h /\ Forall (fun c => c <> 0) h /\ (length h < 240)%nat.

Lemma port_string_fits h p :
  host_ok h -> 0 <= p -> Forall (fun c => c <> 0) (h ++ colon :: fmt_u p) /\
  (length (h ++ colon :: fmt_u p) < 254)%nat /\ no_colon (fmt_u p).
Proof.
  intros (_ & _ & Hn & Hl) Hp. pose proof (fmt_u_digits p) as HD. repeat split.
  - apply Forall_app. split; [exact Hn |]. constructor; [discriminate |].
    eapply Forall_impl; [| exact HD]. cbn. lia.
  - rewrite length_app. cbn [length]. pose proof (dec_digits_length 10 p []). unfold fmt_u.
    cbn [length] in *. lia.
  - eapply Forall_impl; [| exact HD]. unfold colon. cbn. lia.
Qed.

(** The host argument is parsed as documented: [host] alone gives port 443, and
    [host:port] gives that port if it is between 1 and 65535 and is refused otherwise. *)
Theorem parse_host_correct last h p :
  host_ok h -> 0 <= p < 2 ^ 31 ->
  parse_host last h = inl (h, 443) /\
  parse_host last (h ++ colon :: fmt_u p) = if (1 <=? p) && (p <=? 65535) then inl (h, p) else inr 1.
Proof.
  intros Hh Hp. pose proof (port_string_fits h p Hh ltac:(lia)) as (F1 & F2 & F3).
  destruct Hh as (H1 & H2 & H3 & H4). unfold parse_host. rewrite !hstr_fits by (assumption || lia).
  rewrite strtok2_plain, strtok2_port by (assumption || (apply dec_digits_nonempty; right; lia)).
  split; [reflexivity |]. rewrite strtol_fmt_u by lia.
  assert (swrap 32 p = p) as -> by (unfold swrap; rewrite Z.mod_small; lia).
  destruct (Z.ltb_spec p 1), (Z.ltb_spec 65535 p), (Z.leb_spec 1 p), (Z.leb_spec p 65535);
    cbn [orb andb]; lia || reflexivity.
Qed.

Lemma parse_host_correct_witness :
  parse_host 1 (chars "example.com" ++ colon :: fmt_u 8443) = inl (chars "example.com", 8443).
Proof.
  apply (parse_host_correct 1 (chars "example.com") 8443); [| lia].
  repeat split; [discriminate | | | cbn; lia]; repeat constructor; discriminate.
Defined.

(** A port above 32 bits is not refused but taken modulo 2^32, since the [long] of
    [strtol] is stored in an [int] before the range check. *)
Theorem parse_host_port_wraps last h p :
  host_ok h -> 1 <= p <= 65535 -> parse_host last (h ++ colon :: fmt_u (2 ^ 32 + p)) = inl (h, p).
Proof.
  intros Hh Hp. pose proof (port_string_fits h (2 ^ 32 + p) Hh ltac:(lia)) as (F1 & F2 & F3).
  destruct Hh as (H1 & H2 & H3 & H4). unfold parse_host. rewrite hstr_fits by assumption.
  rewrite strtok2_port by (assumption || (apply dec_digits_nonempty; right; lia)).
  rewrite strtol_fmt_u by lia.
  assert (swrap 32 (2 ^ 32 + p) = p) as ->.
  { unfold swrap. replace (2 ^ 32 + p + 2 ^ (32 - 1)) with (p + 2 ^ 31 + 1 * 2 ^ 32) by lia.
    rewrite Z_mod_plus_full, Z.mod_small; lia. }
  destruct (Z.ltb_spec p 1), (Z.ltb_spec 65535 p); cbn [orb]; lia || reflexivity.
Qed.

Lemma parse_host_port_wraps_witness :
  parse_host 0 (chars "h" ++ colon :: fmt_u (2 ^ 32 + 443)) = inl (chars "h", 443).
Proof.
  apply parse_host_port_wraps; [| lia].
  repeat split; [discriminate | | | cbn; lia]; repeat constructor; discriminate.
Defined.

(** [strncpy] leaves the last byte of [hstr] unwritten: a host name of 254 or more
    characters is followed by whatever that byte was. *)
Theorem parse_host_unterminated last h :
  no_colon h -> Forall (fun c => c <> 0) h -> (254 <= length h)%nat -> last <> 0 -> last <> colon ->
  parse_host last h = inl (firstn 254 h ++ [last], 443).
Proof.
  intros Hc Hn Hl Ha Hb. unfold parse_host. rewrite hstr_long by assumption.
  rewrite strtok2_plain; [reflexivity | now destruct (firstn 254 h) |].
  apply Forall_app. split; [now apply Forall_firstn | now constructor].
Qed.

Lemma parse_host_unterminated_witness :
  parse_host 7 (repeat 97 300) = inl (firstn 254 (repeat 97 300) ++ [7], 443).
Proof.
  apply parse_host_unterminated; try discriminate; [apply Forall_forall | apply Forall_forall |].
  1,2: intros c Hc; apply repeat_spec in Hc; subst; discriminate.
  rewrite repeat_length. lia.
Defined.

(** The client returns 0 exactly when TLS and the event loop were set up and the
    loop ran; it frees what it allocated then, and listens on 127.0.0.1 only. *)
Theorem telex_client_ret log lp rp dl host key ca ssl_ret ctx b1 b2 b3 b4 :
  let e := telex_client log lp rp dl host key ca ssl_ret ctx b1 b2 b3 b4 in
  (client_ret e = 0 <-> 0 <= ssl_ret /\ b1 && b2 && b3 && b4 = true) /\
  (client_ret e = 0 -> exists le, loop e = Some le /\ dispatched le = true /\ base_freed le = true /\
     listener_freed le = true /\ signal_freed le = true /\ dns_freed e = true /\ ctx_freed e = ctx) /\
  (forall l, listener_init_local b3 lp false = Some l -> l_addr l = [127; 0; 0; 1]).
Proof.
  unfold telex_client, InitAndListenLoop, listener_init_local. cbv zeta.
  destruct (Z.ltb_spec ssl_ret 0), b1, b2, b3, b4; cbn;
    (split; [intuition (discriminate || lia) | split;
      [intros E; discriminate || (eexists; repeat split) | intros l [= <-]; reflexivity]]).
Qed.
