(* ===== verification/Bronnect.v ===== *)
(** * The station's relay

    [station/net/bronnect.c], [bronnect.h] and [watchdog.c]: one [ConnectionState] per
    tagged flow, created when Bro connects, fed by Bro's records, and driven by
    libevent callbacks that forward between the TLS client and the service until a
    clean-up frees it.

    The model runs one connection.  Its memory can be freed, and every access goes
    through [get_st], which faults afterwards; calls to the outside are recorded in a
    trace, and their results are inputs. *)
From S2P Require Import Prelude Bytes CLib.
From Stdlib Require Import ZArith Lia List Bool.
Import ListNotations.
Open Scope Z_scope.

(** ** Data *)

(** Results of [SSL_get_error]. *)
Inductive ssl_error :=
| ERROR_NONE | ERROR_SSL | ERROR_WANT_READ | ERROR_WANT_WRITE | ERROR_WANT_X509_LOOKUP
| ERROR_SYSCALL | ERROR_ZERO_RETURN | ERROR_WANT_CONNECT | ERROR_WANT_ACCEPT.

Definition ssl_error_dec (a b : ssl_error) : {a = b} + {a <> b}.
Proof. decide equality. Defined.

Definition ssl_error_eqb (a b : ssl_error) : bool := if ssl_error_dec a b then true else false.

(** The event callbacks, and an event slot of the state: NULL, or an allocated event,
    with its callback, that is pending or not. *)
Inductive callback := Cb_telex_read | Cb_read_ready | Cb_write_ready | Cb_finish_connect | Cb_watchdog.
Inductive event := EvNull | Ev (cb : callback) (pending : bool).

Inductive ev_name := EvTelexRead | EvServiceRead | EvServiceWrite | EvClientRead | EvClientWrite | EvWatchdog.

(** [struct flow], the addresses and ports the relay uses, in network order. *)
Record flow := Flow { orig_h : Z; resp_h : Z; orig_p : Z; resp_p : Z }.

(** [struct ConnectionState] *)
Record ConnectionState := St {
  cnum : Z; telex_conn : Z; service_conn : Z; client_conn : Z; first_telex_record : Z;
  flow_state : flow;
  ev_telex_read : event; ev_service_read : event; ev_service_write : event;
  ev_client_read : event; ev_client_write : event; ev_watchdog : event;
  ssl : bool;
  client_ready_r : bool; client_ready_w : bool; service_ready_r : bool; service_ready_w : bool;
  cleanup_waiting : ssl_error; state : Z; key_port : Z;
  t_created : Z; t_last_data : Z; t_cleanup : Z; t_watchdog : Z
}.

(** Calls to the outside, in order. *)
Inductive action :=
| Close (fd : Z) | SslFree | SslShutdown | HashInsert | HashRemove
| EventAdd (e : ev_name) | EventDel (e : ev_name) | EventFree (e : ev_name)
| Unblock (f : flow) | StateFree
| FromClient (bytes : list Z) | ToService (bytes : list Z) | FromService (bytes : list Z) | ToClient (bytes : list Z)
| RawToClient (bytes : list Z)  (** the TLS record Bro captured, sent on the raw socket *)
| LogFirst (line : list Z).

Record bstats := Stats {
  active_connections : Z; total_connections : Z; up_bytes : Z; down_bytes : Z
}.

(** ** The monad *)

(** Where freed memory is read: by [pet_watchdog] after a callback's work, by [on_telex_read] after
    [setup_fake_socket], or anywhere else. *)
Inductive place := In_pet_watchdog | After_fake_socket | Elsewhere.

Inductive fault := AssertFailed | UseAfterFree (p : place) | Exited (code : Z).

Record world := World { cell : option ConnectionState; trace : list action; stats : bstats }.

Inductive result (A : Type) := Ok (a : A) (w : world) | Fault (f : fault) (w : world).
Arguments Ok {A} a w.
Arguments Fault {A} f w.

Definition M (A : Type) : Type := world -> result A.
Definition ret {A} (a : A) : M A := fun w => Ok a w.
Definition bind {A B} (m : M A) (k : A -> M B) : M B :=
  fun w => match m w with Ok a w' => k a w' | Fault f w' => Fault f w' end.
Definition throw {A} (f : fault) : M A := fun w => Fault f w.

Declare Scope bro_scope.
Delimit Scope bro_scope with bro.
Notation "x <- m ;; k" := (bind m (fun x => k))
  (at level 100, m at next level, right associativity) : bro_scope.
Notation "m ;;; k" := (bind m (fun _ => k)) (at level 100, right associativity) : bro_scope.
Open Scope bro_scope.

Definition get_st_at (p : place) : M ConnectionState :=
  fun w => match cell w with Some st => Ok st w | None => Fault (UseAfterFree p) w end.
Definition get_st : M ConnectionState :=
  fun w => match cell w with Some st => Ok st w | None => Fault (UseAfterFree Elsewhere) w end.
Definition put_st (st : ConnectionState) : M unit :=
  fun w => match cell w with
           | Some _ => Ok tt (World (Some st) (trace w) (stats w))
           | None => Fault (UseAfterFree Elsewhere) w
           end.
Definition emit (a : action) : M unit := fun w => Ok tt (World (cell w) (trace w ++ [a]) (stats w)).
Definition modify_stats (f : bstats -> bstats) : M unit :=
  fun w => Ok tt (World (cell w) (trace w) (f (stats w))).
Definition assert_ (b : bool) : M unit := if b then ret tt else throw AssertFailed.
Definition free_st : M unit :=
  fun w => match cell w with
           | Some _ => Ok tt (World None (trace w ++ [StateFree]) (stats w))
           | None => Fault (UseAfterFree Elsewhere) w
           end.
Definition when (c : bool) (m : M unit) : M unit := if c then m else ret tt.

(** ** Field updates *)

Definition set_conns (te se cl : Z) (st : ConnectionState) : ConnectionState :=
  St (cnum st) te se cl (first_telex_record st) (flow_state st)
     (ev_telex_read st) (ev_service_read st) (ev_service_write st) (ev_client_read st)
     (ev_client_write st) (ev_watchdog st) (ssl st) (client_ready_r st) (client_ready_w st)
     (service_ready_r st) (service_ready_w st) (cleanup_waiting st) (state st) (key_port st)
     (t_created st) (t_last_data st) (t_cleanup st) (t_watchdog st).

Definition get_ev (e : ev_name) (st : ConnectionState) : event :=
  match e with
  | EvTelexRead => ev_telex_read st | EvServiceRead => ev_service_read st
  | EvServiceWrite => ev_service_write st | EvClientRead => ev_client_read st
  | EvClientWrite => ev_client_write st | EvWatchdog => ev_watchdog st
  end.

Definition set_ev (e : ev_name) (v : event) (st : ConnectionState) : ConnectionState :=
  let pick n := fun old => match e, n with
    | EvTelexRead, EvTelexRead | EvServiceRead, EvServiceRead | EvServiceWrite, EvServiceWrite
    | EvClientRead, EvClientRead | EvClientWrite, EvClientWrite | EvWatchdog, EvWatchdog => v
    | _, _ => old end in
  St (cnum st) (telex_conn st) (service_conn st) (client_conn st) (first_telex_record st)
     (flow_state st)
     (pick EvTelexRead (ev_telex_read st)) (pick EvServiceRead (ev_service_read st))
     (pick EvServiceWrite (ev_service_write st)) (pick EvClientRead (ev_client_read st))
     (pick EvClientWrite (ev_client_write st)) (pick EvWatchdog (ev_watchdog st))
     (ssl st) (client_ready_r st) (client_ready_w st) (service_ready_r st) (service_ready_w st)
     (cleanup_waiting st) (state st) (key_port st)
     (t_created st) (t_last_data st) (t_cleanup st) (t_watchdog st).

Definition set_ready (cr cw sr sw : bool) (st : ConnectionState) : ConnectionState :=
  St (cnum st) (telex_conn st) (service_conn st) (client_conn st) (first_telex_record st)
     (flow_state st) (ev_telex_read st) (ev_service_read st) (ev_service_write st)
     (ev_client_read st) (ev_client_write st) (ev_watchdog st) (ssl st) cr cw sr sw
     (cleanup_waiting st) (state st) (key_port st)
     (t_created st) (t_last_data st) (t_cleanup st) (t_watchdog st).

Definition set_life (s : bool) (cw : ssl_error) (n : Z) (st : ConnectionState) : ConnectionState :=
  St (cnum st) (telex_conn st) (service_conn st) (client_conn st) (first_telex_record st)
     (flow_state st) (ev_telex_read st) (ev_service_read st) (ev_service_write st)
     (ev_client_read st) (ev_client_write st) (ev_watchdog st) s
     (client_ready_r st) (client_ready_w st) (service_ready_r st) (service_ready_w st)
     cw n (key_port st) (t_created st) (t_last_data st) (t_cleanup st) (t_watchdog st).

Definition set_ssl (b : bool) (st : ConnectionState) := set_life b (cleanup_waiting st) (state st) st.
Definition set_state (n : Z) (st : ConnectionState) := set_life (ssl st) (cleanup_waiting st) n st.
Definition set_waiting (e : ssl_error) (st : ConnectionState) := set_life (ssl st) e (state st) st.

Definition set_times (created last cleanup wd : Z) (st : ConnectionState) : ConnectionState :=
  St (cnum st) (telex_conn st) (service_conn st) (client_conn st) (first_telex_record st)
     (flow_state st) (ev_telex_read st) (ev_service_read st) (ev_service_write st)
     (ev_client_read st) (ev_client_write st) (ev_watchdog st) (ssl st)
     (client_ready_r st) (client_ready_w st) (service_ready_r st) (service_ready_w st)
     (cleanup_waiting st) (state st) (key_port st) created last cleanup wd.

Definition set_flow (f : flow) (kp : Z) (st : ConnectionState) : ConnectionState :=
  St (cnum st) (telex_conn st) (service_conn st) (client_conn st) (first_telex_record st)
     f (ev_telex_read st) (ev_service_read st) (ev_service_write st)
     (ev_client_read st) (ev_client_write st) (ev_watchdog st) (ssl st)
     (client_ready_r st) (client_ready_w st) (service_ready_r st) (service_ready_w st)
     (cleanup_waiting st) (state st) kp
     (t_created st) (t_last_data st) (t_cleanup st) (t_watchdog st).

Definition modify (f : ConnectionState -> ConnectionState) : M unit :=
  st <- get_st ;; put_st (f st).

(** ** libevent calls on an event slot *)

Definition is_null (e : event) : bool := match e with EvNull => true | _ => false end.
Definition is_pending (e : event) : bool := match e with Ev _ p => p | EvNull => false end.

(** [event_add]: the event becomes pending. *)
Definition event_add (e : ev_name) : M unit :=
  st <- get_st ;;
  match get_ev e st with
  | EvNull => throw AssertFailed
  | Ev cb _ => put_st (set_ev e (Ev cb true) st) ;;; emit (EventAdd e)
  end.

Definition event_del (e : ev_name) : M unit :=
  st <- get_st ;;
  match get_ev e st with
  | EvNull => throw AssertFailed
  | Ev cb _ => put_st (set_ev e (Ev cb false) st) ;;; emit (EventDel e)
  end.

(** [g_slice_new] and [event_set]; an event that the slot held before is lost, which happens for a second initial record only. *)
Definition event_set (e : ev_name) (cb : callback) : M unit := modify (set_ev e (Ev cb false)).

(** ** Inputs of a handler: the results of its system calls *)

Record io := IO {
  now : Z;
  ssl_read_bytes : list Z; ssl_read_err : ssl_error;
  send_service_ok : bool;
  recv_num : Z; recv_bytes : list Z; recv_would_block : bool;
  ssl_write_err : ssl_error;
  shutdown_ret : Z;                          (** [SSL_shutdown] in [cleanup_connection_ssl] *)
  shutdown2_ret : Z; shutdown2_err : ssl_error  (** in [cleanup_connection_ssl_try_shutdown] *)
}.

(** ** Clean-up *)

(** [close_telex_connection] *)
Definition close_telex_connection : M unit :=
  st <- get_st ;;
  when (0 <=? telex_conn st)
    (emit (Close (telex_conn st)) ;;;
     modify (set_conns (-2) (service_conn st) (client_conn st))) ;;;
  st <- get_st ;;
  when (negb (is_null (ev_telex_read st)))
    (event_del EvTelexRead ;;; emit (EventFree EvTelexRead) ;;; modify (set_ev EvTelexRead EvNull)).

(** One of the five event slots freed at the end: [event_del] unless [skip_del]. *)
Definition drop_event (e : ev_name) (skip_del : bool) : M unit :=
  st <- get_st ;;
  when (negb (is_null (get_ev e st)))
    (when (negb skip_del) (event_del e) ;;; emit (EventFree e)).

(** [cleanup_connection_after_ssl] *)
Definition cleanup_connection_after_ssl (unblock : bool) : M unit :=
  modify (set_state 6) ;;;
  st <- get_st ;;
  when (ssl st) (emit SslFree ;;; modify (set_ssl false)) ;;;
  emit HashRemove ;;;
  st <- get_st ;;
  when (0 <=? client_conn st)
    (emit (Close (client_conn st)) ;;; modify (set_conns (telex_conn st) (service_conn st) (-1))) ;;;
  st <- get_st ;;
  when unblock (emit (Unblock (flow_state st))) ;;;
  when (negb (is_null (ev_watchdog st)))
    (event_del EvWatchdog ;;; emit (EventFree EvWatchdog) ;;; modify (set_ev EvWatchdog EvNull)) ;;;
  drop_event EvTelexRead false ;;;
  drop_event EvServiceRead (service_ready_r st) ;;;
  drop_event EvServiceWrite (service_ready_w st) ;;;
  drop_event EvClientRead (client_ready_r st) ;;;
  drop_event EvClientWrite (client_ready_w st) ;;;
  when (0 <=? telex_conn st) (emit (Close (telex_conn st))) ;;;
  when (0 <=? service_conn st) (emit (Close (service_conn st))) ;;;
  free_st ;;;
  modify_stats (fun s => Stats (active_connections s - 1)%u32 (total_connections s) (up_bytes s) (down_bytes s)).

(** [cleanup_connection_ssl_try_shutdown] *)
Definition cleanup_connection_ssl_try_shutdown (i : io) : M unit :=
  st <- get_st ;;
  if negb (ssl st) then cleanup_connection_after_ssl true else
  modify (set_state 5) ;;;
  emit SslShutdown ;;;
  if shutdown2_ret i <? 0 then
    modify (set_waiting (shutdown2_err i)) ;;;
    match shutdown2_err i with
    | ERROR_WANT_READ | ERROR_WANT_WRITE => ret tt
    | _ => cleanup_connection_after_ssl true
    end
  else cleanup_connection_after_ssl true.

(** [cleanup_connection_ssl], and [cleanup_connection], which only calls it. *)
Definition cleanup_connection_ssl (i : io) : M unit :=
  modify (fun st => set_times (t_created st) (t_last_data st) (now i) (t_watchdog st) st) ;;;
  close_telex_connection ;;;
  st <- get_st ;;
  if ssl st then
    emit SslShutdown ;;;
    if shutdown_ret i =? 0 then cleanup_connection_ssl_try_shutdown i
    else emit SslFree ;;; modify (set_ssl false) ;;; cleanup_connection_after_ssl true
  else cleanup_connection_after_ssl (0 <? state st).

Definition cleanup_connection (i : io) : M unit := cleanup_connection_ssl i.

(** ** watchdog.c *)

Definition pet_watchdog : M unit :=
  st <- get_st_at In_pet_watchdog ;;
  when (negb (is_null (ev_watchdog st))) (event_del EvWatchdog ;;; event_add EvWatchdog).

Definition WATCHDOG_TIMEOUT : Z := 3600.
Definition WATCHDOG_S0_TIMEOUT : Z := 120.
Definition watchdog_timeout (st : ConnectionState) : Z :=
  if state st =? 0 then WATCHDOG_S0_TIMEOUT else WATCHDOG_TIMEOUT.

Definition initialize_watchdog : M unit :=
  st <- get_st ;;
  (if negb (is_null (ev_watchdog st)) then event_del EvWatchdog else event_set EvWatchdog Cb_watchdog) ;;;
  event_add EvWatchdog.

Definition on_watchdog (i : io) : M unit :=
  modify (fun st => set_times (t_created st) (t_last_data st) (t_cleanup st) (now i) st) ;;;
  st <- get_st ;;
  if 1 <=? state st then cleanup_connection i
  else if 0 <=? state st then cleanup_connection_after_ssl false
  else ret tt.

(** ** Forwarding *)

(** Position of the first newline before a NUL, as [strchr] finds it. *)
Fixpoint strchr_nl (s : list Z) : option nat :=
  match s with
  | [] => None
  | c :: r => if c =? 10 then Some O
              else if c =? 0 then None
              else option_map S (strchr_nl r)
  end.

(** The line [log_data] prints of [buf], or a failed assertion. *)
Definition log_line (buf : list Z) : option (list Z) :=
  let len := length buf in
  if (len =? 0)%nat then None else
  let buf := firstn (len - 1) buf ++ [0] in
  let line_len := match strchr_nl buf with Some n => n | None => (len - 1)%nat end in
  let line_len := if (99 <? line_len)%nat then 99%nat else line_len in
  if (line_len <? len)%nat then Some (cstr (firstn line_len buf ++ [0])) else None.

Definition log_data (buf : list Z) : M unit :=
  st <- get_st ;;
  if state st =? 3 then ret tt else
  put_st (set_state 3 st) ;;;
  match log_line buf with
  | None => throw AssertFailed
  | Some line => emit (LogFirst line)
  end.

(** [forward_client_to_service]: 1 to go on, 0 if the connection was cleaned up. *)
Definition forward_client_to_service (i : io) : M Z :=
  _ <- get_st ;;
  match ssl_read_err i with
  | ERROR_NONE =>
      let buf := ssl_read_bytes i in
      assert_ (0 <? Z.of_nat (length buf)) ;;;
      emit (FromClient buf) ;;;
      modify_stats (fun s => Stats (active_connections s) (total_connections s)
                                   (up_bytes s + Z.of_nat (length buf))%u64 (down_bytes s)) ;;;
      when (send_service_ok i) (emit (ToService buf)) ;;;
      log_data buf ;;;
      if send_service_ok i then ret 1 else cleanup_connection i ;;; ret 0
  | ERROR_WANT_READ | ERROR_WANT_WRITE => ret 1
  | ERROR_SYSCALL => cleanup_connection_after_ssl true ;;; ret 0
  | _ => cleanup_connection i ;;; ret 0
  end.

(** [forward_service_to_client] *)
Definition forward_service_to_client (i : io) : M Z :=
  st <- get_st ;;
  assert_ (0 <=? client_conn st) ;;;
  if recv_num i <? 0 then
    (if recv_would_block i then ret 1 else cleanup_connection i ;;; ret 0)
  else if recv_num i =? 0 then cleanup_connection i ;;; ret 0
  else
    emit (FromService (recv_bytes i)) ;;;
    modify_stats (fun s => Stats (active_connections s) (total_connections s) (up_bytes s)
                                 (down_bytes s + recv_num i)%u64) ;;;
    match ssl_write_err i with
    | ERROR_NONE => emit (ToClient (recv_bytes i)) ;;; ret 1
    | ERROR_WANT_WRITE | ERROR_WANT_READ => ret 1
    | _ => cleanup_connection i ;;; ret 0
    end.

(** [try_to_forward] *)
Definition try_to_forward (i : io) : M unit :=
  modify (fun st => set_times (t_created st) (now i) (t_cleanup st) (t_watchdog st) st) ;;;
  st <- get_st ;;
  go <- (if service_ready_r st && client_ready_w st then
           r <- forward_service_to_client i ;;
           if r =? 0 then ret false else
           modify (fun st => set_ready (client_ready_r st) false false (service_ready_w st) st) ;;;
           event_add EvServiceRead ;;; event_add EvClientWrite ;;; ret true
         else ret true) ;;
  if negb go then ret tt else
  st <- get_st ;;
  if service_ready_w st && client_ready_r st then
    r <- forward_client_to_service i ;;
    if r =? 0 then ret tt else
    modify (fun st => set_ready false (client_ready_w st) (service_ready_r st) false st) ;;;
    event_add EvServiceWrite ;;; event_add EvClientRead
  else ret tt.

(** [on_read_ready(fd, EV_READ, st)] *)
Definition on_read_ready (i : io) (fd : Z) : M unit :=
  st <- get_st ;;
  if client_conn st =? fd then
    put_st (set_ready true (client_ready_w st) (service_ready_r st) (service_ready_w st) st) ;;;
    event_del EvClientRead ;;;
    if ssl_error_eqb (cleanup_waiting st) ERROR_WANT_READ
    then cleanup_connection_ssl_try_shutdown i
    else try_to_forward i ;;; pet_watchdog
  else if service_conn st =? fd then
    put_st (set_ready (client_ready_r st) (client_ready_w st) true (service_ready_w st) st) ;;;
    event_del EvServiceRead ;;;
    try_to_forward i ;;; pet_watchdog
  else cleanup_connection i.

(** [on_write_ready(fd, EV_WRITE, st)] *)
Definition on_write_ready (i : io) (fd : Z) : M unit :=
  st <- get_st ;;
  if client_conn st =? fd then
    if ssl_error_eqb (cleanup_waiting st) ERROR_WANT_WRITE
    then cleanup_connection_ssl_try_shutdown i
    else
      put_st (set_ready (client_ready_r st) true (service_ready_r st) (service_ready_w st) st) ;;;
      event_del EvClientWrite ;;;
      try_to_forward i ;;; pet_watchdog
  else if service_conn st =? fd then
    put_st (set_ready (client_ready_r st) (client_ready_w st) (service_ready_r st) true st) ;;;
    event_del EvServiceWrite ;;;
    try_to_forward i ;;; pet_watchdog
  else cleanup_connection i.

(** ** Set-up *)

(** [setup_service_read] *)
Definition setup_service_read : M unit :=
  event_set EvServiceRead Cb_read_ready ;;;
  event_add EvServiceRead ;;;
  modify (fun st => set_ready (client_ready_r st) (client_ready_w st) false (service_ready_w st) st).

(** What [start_tcp_connect] returns: a negative value, or a socket and whether the
    connection is still in progress. *)
Inductive connect_result := ConnectFails (r : Z) | Connected (fd : Z) | InProgress (fd : Z).

(** [init_service_connection]: the new [service_conn]. *)
Definition init_service_connection (c : connect_result) : M Z :=
  match c with
  | ConnectFails r => ret r
  | InProgress fd =>
      event_set EvServiceWrite Cb_finish_connect ;;; event_add EvServiceWrite ;;; ret fd
  | Connected fd => modify (set_ev EvServiceWrite EvNull) ;;; ret fd
  end.

(** The system calls of [setup_fake_socket]: the listening socket, [bind], and the
    descriptor that the [ioctl] 0xFACE returns. *)
Record fake_io := FakeIO { listen_fd : Z; bind_ok : bool; fake_fd : Z }.

(** [setup_fake_socket] *)
Definition setup_fake_socket (i : io) (f : fake_io) : M unit :=
  st <- get_st ;;
  if listen_fd f =? -1 then cleanup_connection i else
  if negb (bind_ok f) then emit (Close (listen_fd f)) ;;; cleanup_connection i else
  modify (set_conns (telex_conn st) (service_conn st) (fake_fd f)) ;;;
  if fake_fd f <? 0 then emit (Close (listen_fd f)) ;;; cleanup_connection i else
  emit (Close (listen_fd f)) ;;;
  st <- get_st ;;
  assert_ (is_null (ev_client_read st)) ;;;
  event_set EvClientRead Cb_read_ready ;;; event_add EvClientRead ;;;
  st <- get_st ;;
  assert_ (is_null (ev_client_write st)) ;;;
  event_set EvClientWrite Cb_write_ready ;;; event_add EvClientWrite.

(** A record from Bro: nothing (closed or short header), the three types, or another. *)
Inductive bro_record :=
| NoRecord
| RecInit (len_ok : bool) (received : bool) (f : flow) (port : Z) (conn : connect_result) (secret_len : Z)
| RecRawPkt (received : bool) (data : list Z) (sent : bool) (f : fake_io)
| RecOther.

(** [on_telex_read] *)
Definition on_telex_read (i : io) (r : bro_record) : M unit :=
  st <- get_st ;;
  if 2 <? state st then ret tt else
  match r with
  | NoRecord =>
      when (ssl st) (emit SslFree ;;; modify (set_ssl false)) ;;;
      cleanup_connection_after_ssl true
  | RecInit len_ok received f port conn secret_len =>
      assert_ len_ok ;;;
      if negb received then cleanup_connection i else
      modify (set_state 1) ;;;
      initialize_watchdog ;;;
      st <- get_st ;;
      if 0 <=? client_conn st then ret tt else
      modify (set_flow (flow_state st) port) ;;;
      assert_ (0 <? port) ;;;
      fd <- init_service_connection conn ;;
      modify (fun st => set_conns (telex_conn st) fd (client_conn st) st) ;;;
      if fd <? 0 then cleanup_connection i else
      modify (fun st => set_flow f (key_port st) st) ;;;
      if secret_len <? 0 then cleanup_connection i else
      modify (set_ssl true) ;;;
      pet_watchdog
  | RecRawPkt received data sent f =>
      if negb (state st =? 1) then cleanup_connection i else
      modify (set_state 2) ;;;
      if negb received then cleanup_connection i else
      setup_fake_socket i f ;;;
      st <- get_st_at After_fake_socket ;;
      when sent (emit (RawToClient data)) ;;;
      close_telex_connection ;;;
      pet_watchdog
  | RecOther => ret tt
  end.

(** [on_finish_connect]: [getsockopt] fails, or yields [SO_ERROR]. *)
Definition on_finish_connect (i : io) (conn : Z) (so_error : option Z) : M unit :=
  st <- get_st ;;
  assert_ (conn =? service_conn st) ;;;
  match so_error with
  | None => throw (Exited 1)
  | Some e =>
      if negb (e =? 0) then cleanup_connection i else
      setup_service_read ;;;
      event_set EvServiceWrite Cb_write_ready ;;;
      event_add EvServiceWrite ;;;
      pet_watchdog
  end.

(** [handle_bro_connection]: the state of a new connection, in a fresh cell. *)
Definition new_state (n conn : Z) : ConnectionState :=
  St n conn (-1) (-1) 1 (Flow 0 0 0 0) (Ev Cb_telex_read true) EvNull EvNull EvNull EvNull EvNull
     false false false false false ERROR_NONE 0 (-1) 0 0 0 0.

Definition handle_bro_connection (n conn t : Z) (s : bstats) : result unit :=
  (initialize_watchdog ;;;
   modify (fun st => set_times t (t_last_data st) (t_cleanup st) (t_watchdog st) st) ;;;
   modify_stats (fun s => Stats (active_connections s + 1)%u32 (total_connections s + 1)%u32
                                (up_bytes s) (down_bytes s)))
  (World (Some (new_state n conn)) [HashInsert; EventAdd EvTelexRead] s).

(** [on_accept_ready]: [accept] yields -1 or a descriptor. *)
Definition on_accept_ready (fd n t : Z) (s : bstats) : option (result unit) :=
  if fd =? -1 then None else Some (handle_bro_connection n fd t s).

(** [main]: its return code, or the port of its statistics server when it runs. *)
Definition bronnect_main (argc : Z) (port_arg : Z) (socket_ok log_ok bind_ok listen_ok : bool)
           (blocker : Z) (blocker_err : bool) : Z + Z :=
  if (argc <? 2) || (4 <? argc) then inl 1 else
  let httpd_port := if argc =? 4 then port_arg else 8080 in
  if negb socket_ok then inl 2 else
  if negb log_ok then inl 2 else
  if negb bind_ok then inl 2 else
  if negb listen_ok then inl 2 else
  if (blocker <? 0) || blocker_err then inl 3 else inr httpd_port.

(** ** The event loop on one connection *)

(** The callbacks that may run: an event that is pending fires, and a fired event that
    is not persistent (the watchdog and the first service write) is no longer pending. *)
Inductive input :=
| InTelex (i : io) (r : bro_record)
| InRead (i : io) (fd : Z)
| InWrite (i : io) (fd : Z)
| InFinish (i : io) (so_error : option Z)
| InWatchdog (i : io).

Definition unpend (e : ev_name) : M unit :=
  st <- get_st ;;
  match get_ev e st with
  | Ev cb _ => put_st (set_ev e (Ev cb false) st)
  | EvNull => ret tt
  end.

Definition fires (st : ConnectionState) (x : input) : Prop :=
  match x with
  | InTelex _ _ => ev_telex_read st = Ev Cb_telex_read true
  | InRead _ fd => (ev_client_read st = Ev Cb_read_ready true /\ fd = client_conn st) \/
                   (ev_service_read st = Ev Cb_read_ready true /\ fd = service_conn st)
  | InWrite _ fd => (ev_client_write st = Ev Cb_write_ready true /\ fd = client_conn st) \/
                    (ev_service_write st = Ev Cb_write_ready true /\ fd = service_conn st)
  | InFinish _ _ => ev_service_write st = Ev Cb_finish_connect true
  | InWatchdog _ => ev_watchdog st = Ev Cb_watchdog true
  end.

Definition run (x : input) : M unit :=
  match x with
  | InTelex i r => on_telex_read i r
  | InRead i fd => on_read_ready i fd
  | InWrite i fd => on_write_ready i fd
  | InFinish i e => unpend EvServiceWrite ;;; st <- get_st ;; on_finish_connect i (service_conn st) e
  | InWatchdog i => unpend EvWatchdog ;;; on_watchdog i
  end.

(** ** Running straight-line code *)

Lemma run_bind {A B} (m : M A) (k : A -> M B) w a w' : m w = Ok a w' -> bind m k w = k a w'.
Proof. intros E. unfold bind. now rewrite E. Qed.

Definition alive (st : ConnectionState) (tr : list action) (s : bstats) : world := World (Some st) tr s.

Lemma run_get {B} (k : ConnectionState -> M B) st tr s :
  bind get_st k (alive st tr s) = k st (alive st tr s).
Proof. reflexivity. Qed.

Lemma run_get_at {B} p (k : ConnectionState -> M B) st tr s :
  bind (get_st_at p) k (alive st tr s) = k st (alive st tr s).
Proof. reflexivity. Qed.

Lemma run_modify {B} f (k : unit -> M B) st tr s :
  bind (modify f) k (alive st tr s) = k tt (alive (f st) tr s).
Proof. reflexivity. Qed.

Lemma run_emit {B} a (k : unit -> M B) st tr s :
  bind (emit a) k (alive st tr s) = k tt (alive st (tr ++ [a]) s).
Proof. reflexivity. Qed.

(** [when c (emit a ;;; modify f)] *)
Lemma run_when_emit_modify {B} c a f (k : unit -> M B) st tr s :
  bind (when c (emit a ;;; modify f)) k (alive st tr s) =
  k tt (alive (if c then f st else st) (tr ++ if c then [a] else []) s).
Proof. destruct c; [reflexivity |]. cbn. now rewrite app_nil_r. Qed.

Lemma run_when_emit {B} c a (k : unit -> M B) st tr s :
  bind (when c (emit a)) k (alive st tr s) = k tt (alive st (tr ++ if c then [a] else []) s).
Proof. destruct c; [reflexivity |]. cbn. now rewrite app_nil_r. Qed.

Definition unpended (e : event) : event := match e with Ev cb _ => Ev cb false | EvNull => EvNull end.

(** What dropping an event slot does. *)
Definition drop_acts (e : ev_name) (ev : event) (skip : bool) : list action :=
  if is_null ev then [] else (if skip then [] else [EventDel e]) ++ [EventFree e].

Lemma run_drop {B} e skip (k : unit -> M B) st tr s :
  bind (drop_event e skip) k (alive st tr s) =
  k tt (alive (if skip then st else set_ev e (unpended (get_ev e st)) st)
              (tr ++ drop_acts e (get_ev e st) skip) s).
Proof.
  unfold drop_event, drop_acts, bind, get_st, alive. cbn [cell].
  destruct (get_ev e st) as [| cb p] eqn:E; cbn [is_null negb when].
  - rewrite app_nil_r. assert (set_ev e EvNull st = st) as Hs by (destruct st, e; cbn in *; now subst).
    destruct skip; [reflexivity |]. cbn [unpended]. now rewrite Hs.
  - destruct skip; cbn [when negb unpended]; [reflexivity |].
    unfold event_del, bind, get_st, put_st, emit. cbn [cell]. rewrite E. cbn [cell trace stats].
    now rewrite <- app_assoc.
Qed.

Lemma run_when_drop_watchdog {B} (k : unit -> M B) st tr s :
  bind (when (negb (is_null (ev_watchdog st)))
         (event_del EvWatchdog ;;; emit (EventFree EvWatchdog) ;;; modify (set_ev EvWatchdog EvNull)))
       k (alive st tr s) =
  k tt (alive (set_ev EvWatchdog EvNull st) (tr ++ drop_acts EvWatchdog (ev_watchdog st) false) s).
Proof.
  unfold drop_acts. destruct (ev_watchdog st) as [| cb p] eqn:E; cbn [is_null negb when].
  - unfold bind, ret. rewrite app_nil_r.
    replace (set_ev EvWatchdog EvNull st) with st by (destruct st; cbn in *; now subst). reflexivity.
  - unfold event_del, bind, get_st, put_st, emit, modify, bind, get_st, put_st, alive.
    cbn [cell get_ev]. rewrite E. cbn. now rewrite <- !app_assoc.
Qed.

(** ** The final clean-up, in full *)

Definition opt_act (c : bool) (a : action) : list action := if c then [a] else [].

Definition final_actions (unblock : bool) (st : ConnectionState) : list action :=
  opt_act (ssl st) SslFree ++ [HashRemove] ++
  opt_act (0 <=? client_conn st) (Close (client_conn st)) ++
  opt_act unblock (Unblock (flow_state st)) ++
  drop_acts EvWatchdog (ev_watchdog st) false ++
  drop_acts EvTelexRead (ev_telex_read st) false ++
  drop_acts EvServiceRead (ev_service_read st) (service_ready_r st) ++
  drop_acts EvServiceWrite (ev_service_write st) (service_ready_w st) ++
  drop_acts EvClientRead (ev_client_read st) (client_ready_r st) ++
  drop_acts EvClientWrite (ev_client_write st) (client_ready_w st) ++
  opt_act (0 <=? telex_conn st) (Close (telex_conn st)) ++
  opt_act (0 <=? service_conn st) (Close (service_conn st)) ++ [StateFree].

Definition less_active (s : bstats) : bstats :=
  Stats (active_connections s - 1)%u32 (total_connections s) (up_bytes s) (down_bytes s).

Lemma after_ssl_run u st tr s :
  cleanup_connection_after_ssl u (alive st tr s) =
  Ok tt (World None (tr ++ final_actions u st) (less_active s)).
Proof.
  unfold cleanup_connection_after_ssl.
  rewrite run_modify, run_get, run_when_emit_modify, run_emit, run_get, run_when_emit_modify, run_get.
  rewrite run_when_emit.
  rewrite run_when_drop_watchdog, !run_drop, !run_when_emit.
  unfold bind, free_st, modify_stats, alive. cbn [cell trace stats]. f_equal. f_equal.
  unfold final_actions. rewrite <- !app_assoc. f_equal.
  destruct st as [? ? ? cl ? ? ? ? ? ? ? ? sl cr cw sr sw ? ? ? ? ? ? ?].
  destruct sl, sr, sw, cr; cbn; destruct (0 <=? cl); reflexivity.
Qed.

(** ** The other clean-ups *)

Definition closed_telex (st : ConnectionState) : ConnectionState :=
  set_ev EvTelexRead EvNull
    (if 0 <=? telex_conn st then set_conns (-2) (service_conn st) (client_conn st) st else st).

Definition close_telex_acts (st : ConnectionState) : list action :=
  opt_act (0 <=? telex_conn st) (Close (telex_conn st)) ++ drop_acts EvTelexRead (ev_telex_read st) false.

Lemma close_telex_run {B} (k : unit -> M B) st tr s :
  bind close_telex_connection k (alive st tr s) =
  k tt (alive (closed_telex st) (tr ++ close_telex_acts st) s).
Proof.
  unfold close_telex_connection, closed_telex, close_telex_acts, drop_acts.
  destruct st as [? te ? ? ? ? tr0 ? ? ? ? ? ? ? ? ? ? ? ? ? ? ? ? ?].
  unfold event_del, modify, when, emit, bind, get_st, put_st, ret, alive. cbn [cell telex_conn].
  destruct (0 <=? te), tr0 as [| cb p]; cbn; rewrite <- ?app_assoc, ?app_nil_r; reflexivity.
Qed.

Definition wants (e : ssl_error) : bool :=
  match e with ERROR_WANT_READ | ERROR_WANT_WRITE => true | _ => false end.

(** The shutdown of the TLS session has to wait for the client's socket. *)
Definition must_wait (i : io) : bool := (shutdown2_ret i <? 0) && wants (shutdown2_err i).

(** Result of a clean-up: freed, or waiting in state 5. *)
Definition waiting_state (i : io) (st : ConnectionState) : ConnectionState :=
  set_waiting (shutdown2_err i) (set_state 5 st).

Lemma try_shutdown_run i st tr s :
  ssl st = true ->
  cleanup_connection_ssl_try_shutdown i (alive st tr s) =
  if must_wait i then Ok tt (alive (waiting_state i st) (tr ++ [SslShutdown]) s)
  else Ok tt (World None (tr ++ [SslShutdown] ++ final_actions true st) (less_active s)).
Proof.
  intros Hs. unfold cleanup_connection_ssl_try_shutdown. rewrite run_get, Hs. cbn [negb].
  rewrite run_modify, run_emit. unfold must_wait.
  destruct (shutdown2_ret i <? 0); cbn [andb].
  - rewrite run_modify. destruct (shutdown2_err i) eqn:E; cbn [wants];
      try (rewrite after_ssl_run, <- app_assoc; reflexivity); unfold waiting_state; now rewrite E.
  - rewrite after_ssl_run, <- app_assoc. reflexivity.
Qed.

Definition stamped (i : io) (st : ConnectionState) : ConnectionState :=
  closed_telex (set_times (t_created st) (t_last_data st) (now i) (t_watchdog st) st).

(** [cleanup_connection] on a live connection. *)
Lemma cleanup_run i st tr s :
  cleanup_connection i (alive st tr s) =
  let st' := stamped i st in
  let tr' := tr ++ close_telex_acts st in
  if ssl st then
    if shutdown_ret i =? 0 then
      if must_wait i then Ok tt (alive (waiting_state i st') (tr' ++ [SslShutdown; SslShutdown]) s)
      else Ok tt (World None (tr' ++ [SslShutdown; SslShutdown] ++ final_actions true st') (less_active s))
    else Ok tt (World None (tr' ++ [SslShutdown; SslFree] ++ final_actions true (set_ssl false st'))
                      (less_active s))
  else Ok tt (World None (tr' ++ final_actions (0 <? state st) st') (less_active s)).
Proof.
  unfold cleanup_connection, cleanup_connection_ssl.
  rewrite run_modify, close_telex_run, run_get. cbv zeta. fold (stamped i st).
  assert (ssl (stamped i st) = ssl st) as Es by (unfold stamped, closed_telex; cbn; now destruct (_ <=? _)).
  assert (state (stamped i st) = state st) as Et by (unfold stamped, closed_telex; cbn; now destruct (_ <=? _)).
  rewrite Es, Et. change (close_telex_acts (set_times _ _ _ _ st)) with (close_telex_acts st).
  destruct (ssl st) eqn:E; [| now rewrite after_ssl_run].
  rewrite run_emit. destruct (shutdown_ret i =? 0).
  - rewrite try_shutdown_run by congruence. now rewrite <- !app_assoc.
  - rewrite run_emit, run_modify, after_ssl_run, <- !app_assoc. reflexivity.
Qed.

(** Does [cleanup_connection] free a connection with these answers? *)
Definition cleans (i : io) (st : ConnectionState) : bool :=
  negb (ssl st && (shutdown_ret i =? 0) && must_wait i).

Definition count (f : action -> bool) (tr : list action) : nat := length (filter f tr).
Definition is_unblock (a : action) : bool := match a with Unblock _ => true | _ => false end.
Definition is_state_free (a : action) : bool := match a with StateFree => true | _ => false end.
Definition is_hash_remove (a : action) : bool := match a with HashRemove => true | _ => false end.
Definition is_close (fd : Z) (a : action) : bool := match a with Close f => f =? fd | _ => false end.

(** The actions that may happen once only. *)
Definition is_final (a : action) : bool := is_unblock a || is_state_free a || is_hash_remove a.

Lemma count_app f a b : count f (a ++ b) = (count f a + count f b)%nat.
Proof. unfold count. now rewrite filter_app, length_app. Qed.

Lemma count_drop f e ev skip :
  (forall a, f a = true -> is_final a = true) -> count f (drop_acts e ev skip) = 0%nat.
Proof.
  intros H. assert (forall a, is_final a = false -> f a = false) as K.
  { intros a Ha. destruct (f a) eqn:E; [| reflexivity]. apply H in E. congruence. }
  unfold drop_acts, count. destruct (is_null ev), skip; cbn; now rewrite ?K.
Qed.

Lemma count_opt f c a : (forall b, f b = true -> is_final b = true) -> is_final a = false ->
  count f (opt_act c a) = 0%nat.
Proof.
  intros H Ha. destruct c; [| reflexivity]. unfold count, opt_act. cbn.
  destruct (f a) eqn:E; [apply H in E; congruence | reflexivity].
Qed.

Lemma final_counts u st :
  count is_state_free (final_actions u st) = 1%nat /\ count is_hash_remove (final_actions u st) = 1%nat /\
  count is_unblock (final_actions u st) = (if u then 1 else 0)%nat.
Proof.
  assert (forall a, is_state_free a = true -> is_final a = true) as F1 by (now intros []).
  assert (forall a, is_hash_remove a = true -> is_final a = true) as F2 by (now intros []).
  assert (forall a, is_unblock a = true -> is_final a = true) as F3 by (now intros []).
  unfold final_actions. rewrite !count_app.
  rewrite !(count_drop is_state_free), !(count_drop is_hash_remove), !(count_drop is_unblock) by assumption.
  rewrite !(count_opt is_state_free _ SslFree), !(count_opt is_hash_remove _ SslFree),
    !(count_opt is_unblock _ SslFree) by (assumption || reflexivity).
  rewrite !(count_opt is_state_free _ (Close _)), !(count_opt is_hash_remove _ (Close _)),
    !(count_opt is_unblock _ (Close _)) by (assumption || reflexivity).
  destruct u; cbn; auto.
Qed.

(** ** Invariants of the monad *)

Definition end_world {A} (r : result A) : world := match r with Ok _ w => w | Fault _ w => w end.

Section Preserves.
Context (I : world -> Prop).

(** [m] keeps [I], also when it faults. *)
Definition keeps {A} (m : M A) : Prop := forall w, I w -> I (end_world (m w)).

Lemma keeps_ret {A} (a : A) : keeps (ret a).
Proof using Type. now intros w. Qed.

Lemma keeps_throw {A} f : keeps (throw f : M A).
Proof using Type. now intros w. Qed.

Lemma keeps_bind {A B} (m : M A) (k : A -> M B) : keeps m -> (forall a, keeps (k a)) -> keeps (bind m k).
Proof using Type.
  intros Hm Hk w Hw. unfold bind. specialize (Hm w Hw). destruct (m w); cbn in *; auto. now apply Hk.
Qed.

Lemma keeps_get : keeps get_st.
Proof using Type. intros w Hw. unfold get_st. now destruct (cell w). Qed.

Lemma keeps_get_at p : keeps (get_st_at p).
Proof using Type. intros w Hw. unfold get_st_at. now destruct (cell w). Qed.

Lemma keeps_when c m : keeps m -> keeps (when c m).
Proof using Type. intros Hm. destruct c; [exact Hm | apply keeps_ret]. Qed.

Lemma keeps_assert b : keeps (assert_ b).
Proof using Type. destruct b; [apply keeps_ret | apply keeps_throw]. Qed.

Lemma keeps_if {A} (c : bool) (m n : M A) : keeps m -> keeps n -> keeps (if c then m else n).
Proof using Type. now destruct c. Qed.
End Preserves.

Create HintDb keeps.
#[export] Hint Resolve keeps_ret keeps_throw keeps_bind keeps_get keeps_get_at keeps_when keeps_assert keeps_if : keeps.

(** ** Freed once, unblocked at most once *)

Definition once (w : world) : Prop :=
  match cell w with
  | Some _ => count is_final (trace w) = 0%nat
  | None => count is_state_free (trace w) = 1%nat /\ count is_hash_remove (trace w) = 1%nat /\
            (count is_unblock (trace w) <= 1)%nat
  end.

Lemma once_put st : keeps once (put_st st).
Proof. intros w Hw. unfold put_st. destruct (cell w) eqn:E; [unfold once in *; cbn; now rewrite E in Hw | exact Hw]. Qed.

Lemma once_modify f : keeps once (modify f).
Proof. apply keeps_bind; [apply keeps_get | intros; apply once_put]. Qed.

Lemma once_stats f : keeps once (modify_stats f).
Proof. intros w Hw. exact Hw. Qed.

Lemma count_final_0 f tr :
  (forall a, f a = true -> is_final a = true) -> count is_final tr = 0%nat -> count f tr = 0%nat.
Proof.
  intros H Hc. unfold count in *. destruct (filter f tr) as [| a l] eqn:E; [reflexivity |].
  assert (In a (filter f tr)) as Hin by (rewrite E; now left). apply filter_In in Hin as [Hin Ha].
  assert (In a (filter is_final tr)) as Hin' by (apply filter_In; auto).
  destruct (filter is_final tr); [destruct Hin' | discriminate].
Qed.

Lemma once_emit a : is_final a = false -> keeps once (emit a).
Proof.
  intros Ha w Hw. unfold once in *. cbn [emit end_world cell trace].
  assert (is_unblock a = false /\ is_state_free a = false /\ is_hash_remove a = false) as (E1 & E2 & E3)
    by (unfold is_final in Ha; rewrite !orb_false_iff in Ha; tauto).
  assert (forall f, f a = false -> count f (trace w ++ [a]) = count f (trace w)) as K.
  { intros f Hf. rewrite count_app. unfold count at 2. cbn. rewrite Hf. apply Nat.add_0_r. }
  rewrite !K by assumption. exact Hw.
Qed.

Lemma once_after_ssl u : keeps once (cleanup_connection_after_ssl u).
Proof.
  intros w Hw. destruct w as [[st |] tr s].
  - change (World (Some st) tr s) with (alive st tr s) in *. rewrite after_ssl_run. unfold once in *.
    cbn [end_world cell trace] in *. rewrite !count_app.
    destruct (final_counts u st) as (-> & -> & ->).
    rewrite !(count_final_0 _ tr) by ((now intros []) || exact Hw). destruct u; lia.
  - exact Hw.
Qed.

#[export] Hint Resolve once_put once_modify once_stats once_after_ssl : keeps.
#[export] Hint Extern 1 (keeps once (emit _)) => apply once_emit; reflexivity : keeps.

Ltac keeps_tac :=
  repeat first
    [ solve [auto 1 with keeps]
    | apply keeps_bind; [| intros] | apply keeps_when | apply keeps_if
    | match goal with |- keeps _ (match ?x with _ => _ end) => destruct x end ].

Lemma once_event_add e : keeps once (event_add e).
Proof. unfold event_add. keeps_tac. Qed.

Lemma once_event_del e : keeps once (event_del e).
Proof. unfold event_del. keeps_tac. Qed.

#[export] Hint Resolve once_event_add once_event_del : keeps.

Lemma once_pet : keeps once pet_watchdog.
Proof. unfold pet_watchdog. keeps_tac. Qed.

Lemma once_close_telex : keeps once close_telex_connection.
Proof. unfold close_telex_connection. keeps_tac. Qed.

Lemma once_try_shutdown i : keeps once (cleanup_connection_ssl_try_shutdown i).
Proof. unfold cleanup_connection_ssl_try_shutdown. keeps_tac. Qed.

#[export] Hint Resolve once_pet once_close_telex once_try_shutdown : keeps.

Lemma once_cleanup i : keeps once (cleanup_connection i).
Proof. unfold cleanup_connection, cleanup_connection_ssl. keeps_tac. Qed.

Lemma once_log buf : keeps once (log_data buf).
Proof. unfold log_data. keeps_tac. Qed.

#[export] Hint Resolve once_cleanup once_log : keeps.

Lemma once_forward_c2s i : keeps once (forward_client_to_service i).
Proof. unfold forward_client_to_service. keeps_tac. Qed.

Lemma once_forward_s2c i : keeps once (forward_service_to_client i).
Proof. unfold forward_service_to_client. keeps_tac. Qed.

#[export] Hint Resolve once_forward_c2s once_forward_s2c : keeps.

Lemma once_forward i : keeps once (try_to_forward i).
Proof. unfold try_to_forward. keeps_tac. Qed.

Lemma once_event_set e cb : keeps once (event_set e cb).
Proof. unfold event_set. keeps_tac. Qed.

#[export] Hint Resolve once_forward once_event_set : keeps.

Lemma once_fake i f : keeps once (setup_fake_socket i f).
Proof. unfold setup_fake_socket. keeps_tac. Qed.

Lemma once_init_watchdog : keeps once initialize_watchdog.
Proof. unfold initialize_watchdog. keeps_tac. Qed.

Lemma once_init_service c : keeps once (init_service_connection c).
Proof. unfold init_service_connection. keeps_tac. Qed.

#[export] Hint Resolve once_fake once_init_watchdog once_init_service : keeps.

Lemma once_run x : keeps once (run x).
Proof.
  destruct x; cbn [run]; unfold on_telex_read, on_read_ready, on_write_ready, on_finish_connect,
    on_watchdog, setup_service_read, unpend; keeps_tac.
Qed.

(** Any sequence of callbacks, up to a fault. *)
Fixpoint run_all (xs : list input) (w : world) : world :=
  match xs with
  | [] => w
  | x :: r => match run x w with Ok _ w' => run_all r w' | Fault _ w' => w' end
  end.

Lemma once_run_all xs w : once w -> once (run_all xs w).
Proof.
  revert w. induction xs as [| x xs IH]; intros w Hw; [exact Hw |]. cbn [run_all].
  pose proof (once_run x w Hw) as H1. destruct (run x w); [now apply IH | exact H1].
Qed.

(** ** Event bookkeeping

    The invariant that [setup_service_read] states in a comment, for the four relay
    events: an event that exists is pending exactly when its ready flag is not set. *)

Definition slot_ok (cb : callback) (ready : bool) (e : event) : Prop :=
  (e = EvNull /\ ready = false) \/ e = Ev cb (negb ready).

Definition ev_inv (st : ConnectionState) : Prop :=
  slot_ok Cb_read_ready (client_ready_r st) (ev_client_read st) /\
  slot_ok Cb_write_ready (client_ready_w st) (ev_client_write st) /\
  slot_ok Cb_read_ready (service_ready_r st) (ev_service_read st) /\
  (slot_ok Cb_write_ready (service_ready_w st) (ev_service_write st) \/
   (exists p, ev_service_write st = Ev Cb_finish_connect p) /\ service_ready_w st = false) /\
  (state st = 0 -> ev_service_write st = EvNull).

Definition ev_world (w : world) : Prop := match cell w with Some st => ev_inv st | None => True end.

(** [m] started where [P] holds ends in [ev_world], unless it faults. *)
Definition leads {A} (P : ConnectionState -> Prop) (m : M A) : Prop :=
  forall st tr s, P st -> match m (alive st tr s) with Ok _ w => ev_world w | Fault _ _ => True end.

(** [m] keeps [ev_world] from any world. *)
Definition ev_keeps {A} (m : M A) : Prop :=
  forall w, ev_world w -> match m w with Ok _ w' => ev_world w' | Fault _ _ => True end.

Lemma leads_keeps {A} (m : M A) : ev_keeps m -> leads ev_inv m.
Proof. intros H st tr s HP. now apply H. Qed.

Lemma ev_bind {A B} (m : M A) (k : A -> M B) : ev_keeps m -> (forall a, ev_keeps (k a)) -> ev_keeps (bind m k).
Proof.
  intros Hm Hk w Hw. unfold bind. specialize (Hm w Hw). destruct (m w); [now apply Hk | exact I].
Qed.

Lemma leads_bind {A B} P (m : M A) (k : A -> M B) :
  leads P m -> (forall a, ev_keeps (k a)) -> leads P (bind m k).
Proof.
  intros Hm Hk st tr s HP. unfold bind. specialize (Hm st tr s HP).
  destruct (m (alive st tr s)); [now apply Hk | exact I].
Qed.

Lemma ev_ret {A} (a : A) : ev_keeps (ret a).
Proof. now intros w. Qed.

Lemma ev_throw {A} f : ev_keeps (throw f : M A).
Proof. now intros w. Qed.

Lemma ev_get : ev_keeps get_st.
Proof. intros w Hw. unfold get_st. destruct (cell w); [exact Hw | exact I]. Qed.

Lemma ev_get_at p : ev_keeps (get_st_at p).
Proof. intros w Hw. unfold get_st_at. destruct (cell w); [exact Hw | exact I]. Qed.

Lemma ev_when c m : ev_keeps m -> ev_keeps (when c m).
Proof. intros Hm. destruct c; [exact Hm | apply ev_ret]. Qed.

Lemma ev_assert b : ev_keeps (assert_ b).
Proof. destruct b; [apply ev_ret | apply ev_throw]. Qed.

Lemma ev_if {A} (c : bool) (m n : M A) : ev_keeps m -> ev_keeps n -> ev_keeps (if c then m else n).
Proof. now destruct c. Qed.

Lemma ev_emit a : ev_keeps (emit a).
Proof. intros w Hw. exact Hw. Qed.

Lemma ev_stats f : ev_keeps (modify_stats f).
Proof. intros w Hw. exact Hw. Qed.

(** From a freed world only faults and freed worlds can come. *)
Lemma ev_modify f : (forall st, ev_inv st -> ev_inv (f st)) -> ev_keeps (modify f).
Proof.
  intros Hf w Hw. unfold modify, bind, get_st, put_st, ev_world in *.
  destruct (cell w) eqn:E; [cbn; rewrite ?E; cbn; auto | exact I].
Qed.

Lemma ev_after_ssl u : ev_keeps (cleanup_connection_after_ssl u).
Proof.
  intros [[st |] tr s] Hw; [| exact I].
  change (World (Some st) tr s) with (alive st tr s). now rewrite after_ssl_run.
Qed.

Create HintDb evk.
#[export] Hint Resolve ev_ret ev_throw ev_get ev_get_at ev_when ev_assert ev_if ev_emit ev_stats ev_after_ssl : evk.

Ltac evk_tac :=
  repeat first
    [ solve [auto 1 with evk]
    | apply ev_bind; [| intros] | apply ev_when | apply ev_if
    | match goal with |- ev_keeps (match ?x with _ => _ end) => destruct x end ].

(** Updates that leave the relay events alone. *)
Lemma ev_inv_life s cw n st : (n = 0 -> state st = 0) -> ev_inv st -> ev_inv (set_life s cw n st).
Proof. intros Hn (H1 & H2 & H3 & H4 & H5). repeat split; auto. Qed.

Lemma ev_set_state n : n <> 0 -> ev_keeps (modify (set_state n)).
Proof. intros Hn. apply ev_modify. intros st. now apply ev_inv_life. Qed.

Lemma ev_set_ssl b : ev_keeps (modify (set_ssl b)).
Proof. apply ev_modify. intros st. now apply ev_inv_life. Qed.

Lemma ev_set_waiting e : ev_keeps (modify (set_waiting e)).
Proof. apply ev_modify. intros st. now apply ev_inv_life. Qed.

Lemma ev_set_times f : ev_keeps (modify (fun st => set_times (t_created st) (t_last_data st) (f st) (t_watchdog st) st)).
Proof. apply ev_modify. now intros st. Qed.

Lemma ev_set_conns a b c : ev_keeps (modify (set_conns a b c)).
Proof. apply ev_modify. now intros st. Qed.

#[export] Hint Resolve ev_set_ssl ev_set_waiting ev_set_conns : evk.
#[export] Hint Extern 1 (ev_keeps (modify (set_state _))) => apply ev_set_state; lia : evk.
#[export] Hint Extern 1 (ev_keeps (modify (fun _ => set_times _ _ _ _ _))) => apply ev_modify; now intros : evk.
#[export] Hint Extern 1 (ev_keeps (modify (fun _ => set_conns _ _ _ _))) => apply ev_modify; now intros : evk.
#[export] Hint Extern 1 (ev_keeps (modify (fun _ => set_flow _ _ _))) => apply ev_modify; now intros : evk.
#[export] Hint Extern 1 (ev_keeps (modify (set_flow _ _))) => apply ev_modify; now intros : evk.

Definition off_relay (e : ev_name) : bool := match e with EvTelexRead | EvWatchdog => true | _ => false end.

Lemma ev_off_relay e v st : off_relay e = true -> ev_inv st -> ev_inv (set_ev e v st).
Proof. now destruct e. Qed.

Lemma ev_event_del e : off_relay e = true -> ev_keeps (event_del e).
Proof.
  intros He w Hw. unfold event_del, bind, get_st, put_st, emit, ev_world in *.
  destruct (cell w) as [st |] eqn:E; [| exact I]. destruct (get_ev e st); [exact I |].
  rewrite E. cbn. now apply ev_off_relay.
Qed.

(** Adding an event whose flag is clear. *)
Definition ready_of (e : ev_name) (st : ConnectionState) : bool :=
  match e with
  | EvServiceRead => service_ready_r st | EvServiceWrite => service_ready_w st
  | EvClientRead => client_ready_r st | EvClientWrite => client_ready_w st | _ => false
  end.

Lemma slot_add cb ready e cb' p :
  slot_ok cb ready e -> e = Ev cb' p -> ready = false -> slot_ok cb ready (Ev cb' true).
Proof. intros [[-> _] | ->] [= <- <-] ->; now right. Qed.

Lemma ev_event_add e : off_relay e = true -> ev_keeps (event_add e).
Proof.
  intros He w Hw. unfold event_add, bind, get_st, put_st, emit, ev_world in *.
  destruct (cell w) as [st |] eqn:E; [| exact I]. destruct (get_ev e st); [exact I |].
  rewrite E. cbn. now apply ev_off_relay.
Qed.

#[export] Hint Extern 1 (ev_keeps (event_del _)) => apply ev_event_del; reflexivity : evk.
#[export] Hint Extern 1 (ev_keeps (event_add _)) => apply ev_event_add; reflexivity : evk.
#[export] Hint Extern 1 (ev_keeps (modify (set_ev _ _))) =>
  apply ev_modify; intros; apply ev_off_relay; [reflexivity | assumption] : evk.

Lemma ev_pet : ev_keeps pet_watchdog.
Proof. unfold pet_watchdog. evk_tac. Qed.

Lemma ev_close_telex : ev_keeps close_telex_connection.
Proof. unfold close_telex_connection. evk_tac. Qed.

Lemma ev_try_shutdown i : ev_keeps (cleanup_connection_ssl_try_shutdown i).
Proof. unfold cleanup_connection_ssl_try_shutdown. evk_tac. Qed.

#[export] Hint Resolve ev_pet ev_close_telex ev_try_shutdown : evk.

Lemma ev_cleanup i : ev_keeps (cleanup_connection i).
Proof. unfold cleanup_connection, cleanup_connection_ssl. evk_tac. Qed.

Lemma ev_log buf : ev_keeps (log_data buf).
Proof.
  intros w Hw. unfold log_data, bind, get_st, put_st, ev_world in *.
  destruct (cell w) as [st |] eqn:E; [| exact I]. destruct (state st =? 3); cbn; rewrite ?E; [exact Hw |].
  destruct (log_line buf); [| exact I]. cbn. now apply ev_inv_life.
Qed.

#[export] Hint Resolve ev_cleanup ev_log : evk.

Lemma ev_forward_c2s i : ev_keeps (forward_client_to_service i).
Proof. unfold forward_client_to_service. evk_tac. Qed.

Lemma ev_forward_s2c i : ev_keeps (forward_service_to_client i).
Proof. unfold forward_service_to_client. evk_tac. Qed.

Lemma ev_init_watchdog : ev_keeps initialize_watchdog.
Proof. unfold initialize_watchdog, event_set. evk_tac. Qed.

#[export] Hint Resolve ev_forward_c2s ev_forward_s2c ev_init_watchdog : evk.

Lemma slot_rearm cb ready cb' p : slot_ok cb ready (Ev cb' p) -> slot_ok cb false (Ev cb' true).
Proof. intros [[? _] | [= -> _]]; [discriminate | now right]. Qed.

(** Both directions of [try_to_forward] end by clearing two flags and adding the events. *)
Lemma ev_rearm_s2c {B} (k : unit -> M B) : (forall a, ev_keeps (k a)) ->
  ev_keeps (modify (fun st => set_ready (client_ready_r st) false false (service_ready_w st) st) ;;;
            event_add EvServiceRead ;;; bind (event_add EvClientWrite) k).
Proof.
  intros Hk [[st |] tr s] Hw; [| exact I]. destruct Hw as (H1 & H2 & H3 & H4 & H5).
  destruct st as [? ? ? ? ? ? ? sr sw cr cw ? ? ? ? ? ? ? ? ? ? ? ? ?]. cbn in H1, H2, H3, H4, H5.
  unfold event_add, modify, put_st, get_st, emit, bind. cbn.
  destruct sr as [| cb p]; cbn; [exact I |]. destruct cw as [| cb' p']; cbn; [exact I |].
  apply Hk. repeat split; cbn; auto; eapply slot_rearm; eassumption.
Qed.

Lemma ev_rearm_c2s :
  ev_keeps (modify (fun st => set_ready false (client_ready_w st) (service_ready_r st) false st) ;;;
            event_add EvServiceWrite ;;; event_add EvClientRead).
Proof.
  intros [[st |] tr s] Hw; [| exact I]. destruct Hw as (H1 & H2 & H3 & H4 & H5).
  destruct st as [? ? ? ? ? ? ? sr sw cr cw ? ? ? ? ? ? ? ? ? ? ? ? ?]. cbn in H1, H2, H3, H4, H5.
  unfold event_add, modify, put_st, get_st, emit, bind. cbn.
  destruct sw as [| cb p]; cbn; [exact I |]. destruct cr as [| cb' p']; cbn; [exact I |].
  repeat split; cbn; auto; [eapply slot_rearm; eassumption | | intros E; discriminate (H5 E)].
  destruct H4 as [H4 | [[q [= -> _]] _]]; [left; eapply slot_rearm; eassumption | right; eauto].
Qed.

Lemma ev_forward i : ev_keeps (try_to_forward i).
Proof.
  unfold try_to_forward. apply ev_bind; [auto 1 with evk |]. intros _. apply ev_bind; [auto 1 with evk |].
  intros st. apply ev_bind.
  - apply ev_if; [| auto 1 with evk]. apply ev_bind; [auto 1 with evk |]. intros r.
    apply ev_if; [auto 1 with evk |]. apply ev_rearm_s2c. intros; auto 1 with evk.
  - intros go. apply ev_if; [auto 1 with evk |]. apply ev_bind; [auto 1 with evk |]. intros st'.
    apply ev_if; [| auto 1 with evk]. apply ev_bind; [auto 1 with evk |]. intros r.
    apply ev_if; [auto 1 with evk | apply ev_rearm_c2s].
Qed.

#[export] Hint Resolve ev_forward : evk.

Lemma arrived_ok cb e ready : slot_ok cb ready e -> e = Ev cb true -> slot_ok cb true (Ev cb false).
Proof. now right. Qed.

(** A callback fires: the descriptors of the two peers differ, and a second initial record
    is not sent. *)
Definition proper (st : ConnectionState) (x : input) : Prop :=
  fires st x /\ client_conn st <> service_conn st /\
  match x with
  | InTelex _ (RecInit _ _ _ _ _ _) => state st = 0
  | _ => True
  end.

Lemma run_put {B} st' (k : unit -> M B) st tr s :
  bind (put_st st') k (alive st tr s) = k tt (alive st' tr s).
Proof. reflexivity. Qed.

Lemma run_event_del {B} e cb p (k : unit -> M B) st tr s :
  get_ev e st = Ev cb p ->
  bind (event_del e) k (alive st tr s) = k tt (alive (set_ev e (Ev cb false) st) (tr ++ [EventDel e]) s).
Proof. intros E. unfold event_del, bind, get_st, put_st, emit, alive. cbn [cell]. now rewrite E. Qed.

Lemma run_event_add {B} e cb p (k : unit -> M B) st tr s :
  get_ev e st = Ev cb p ->
  bind (event_add e) k (alive st tr s) = k tt (alive (set_ev e (Ev cb true) st) (tr ++ [EventAdd e]) s).
Proof. intros E. unfold event_add, bind, get_st, put_st, emit, alive. cbn [cell]. now rewrite E. Qed.

Lemma run_assert {B} b (k : unit -> M B) w : b = true -> bind (assert_ b) k w = k tt w.
Proof. now intros ->. Qed.

Lemma run_assoc {A B C} (m : M A) (f : A -> M B) (k : B -> M C) w :
  bind (bind m f) k w = bind m (fun a => bind (f a) k) w.
Proof. unfold bind. now destruct (m w). Qed.

Lemma run_unpend {B} e cb p (k : unit -> M B) st tr s :
  get_ev e st = Ev cb p ->
  bind (unpend e) k (alive st tr s) = k tt (alive (set_ev e (Ev cb false) st) tr s).
Proof. intros E. unfold unpend, bind, get_st, put_st, alive. cbn [cell]. now rewrite E. Qed.

Lemma ev_at {A} (m : M A) st tr s :
  ev_keeps m -> ev_inv st -> match m (alive st tr s) with Ok _ w => ev_world w | Fault _ _ => True end.
Proof. intros Hm Hs. now apply (Hm (alive st tr s)). Qed.

Lemma leads_read i fd : leads (fun st => ev_inv st /\ proper st (InRead i fd)) (on_read_ready i fd).
Proof.
  intros st tr s [(H1 & H2 & H3 & H4 & H5) [HF [Hne _]]]. unfold on_read_ready. rewrite run_get.
  cbn [fires] in HF. destruct HF as [[He ->] | [He ->]].
  - rewrite Z.eqb_refl, run_put, (run_event_del _ Cb_read_ready true) by exact He.
    apply ev_at; [evk_tac |]. repeat split; auto. now right.
  - rewrite (proj2 (Z.eqb_neq _ _) Hne), Z.eqb_refl, run_put, (run_event_del _ Cb_read_ready true) by exact He.
    apply ev_at; [evk_tac |]. repeat split; auto. now right.
Qed.

Lemma leads_write i fd : leads (fun st => ev_inv st /\ proper st (InWrite i fd)) (on_write_ready i fd).
Proof.
  intros st tr s [(H1 & H2 & H3 & H4 & H5) [HF [Hne _]]]. unfold on_write_ready. rewrite run_get.
  cbn [fires] in HF. destruct HF as [[He ->] | [He ->]].
  - rewrite Z.eqb_refl. destruct (ssl_error_eqb _ _); [apply ev_at; [evk_tac | now repeat split] |].
    rewrite run_put, (run_event_del _ Cb_write_ready true) by exact He.
    apply ev_at; [evk_tac |]. repeat split; auto. now right.
  - rewrite (proj2 (Z.eqb_neq _ _) Hne), Z.eqb_refl, run_put, (run_event_del _ Cb_write_ready true) by exact He.
    apply ev_at; [evk_tac |]. repeat split; auto; [left; now right |].
    intros E. specialize (H5 E). congruence.
Qed.

Lemma leads_watchdog i : leads (fun st => ev_inv st /\ proper st (InWatchdog i)) (run (InWatchdog i)).
Proof.
  intros st tr s [HI [HF _]]. cbn [fires] in HF. cbn [run].
  rewrite (run_unpend _ Cb_watchdog true) by exact HF. unfold on_watchdog.
  apply ev_at; [evk_tac | now apply ev_off_relay].
Qed.

Lemma slot_null_ready cb ready : slot_ok cb ready EvNull -> ready = false.
Proof. now intros [[_ E] | ?]. Qed.

(** The first service write: [on_finish_connect] replaces the event. *)
Lemma leads_finish i e : leads (fun st => ev_inv st /\ proper st (InFinish i e)) (run (InFinish i e)).
Proof.
  intros st tr s [(H1 & H2 & H3 & H4 & H5) [HF _]]. cbn [fires] in HF. cbn [run].
  rewrite (run_unpend _ Cb_finish_connect true) by exact HF. set (st1 := set_ev _ _ st).
  assert (service_ready_w st = false) as Hw.
  { destruct H4 as [[[E _] | E] | [_ E]]; [congruence | congruence | exact E]. }
  assert (ev_inv st1) as HI1.
  { repeat split; auto; [right; split; [now exists false | exact Hw] |]. intros E. specialize (H5 E). congruence. }
  rewrite run_get. unfold on_finish_connect. rewrite run_get, Z.eqb_refl.
  rewrite run_assert by reflexivity.
  destruct e as [err |]; [| exact I].
  destruct (negb (err =? 0)); [apply ev_at; [evk_tac | exact HI1] |].
  unfold setup_service_read, event_set.
  rewrite run_assoc, run_modify, run_assoc, (run_event_add _ Cb_read_ready false) by reflexivity.
  rewrite run_modify, run_modify, (run_event_add _ Cb_write_ready false) by reflexivity.
  apply ev_at; [exact ev_pet |]. repeat split; cbn; auto; [now right | left; right; now rewrite Hw |].
  intros E. specialize (H5 E). congruence.
Qed.

(** The fake socket: the two client events are new, and their flags clear. *)
Lemma ev_fake i f : ev_keeps (setup_fake_socket i f).
Proof.
  intros [[st |] tr s] Hw; [| exact I]. change (World (Some st) tr s) with (alive st tr s) in *.
  pose proof Hw as (H1 & H2 & H3 & H4 & H5). unfold setup_fake_socket. rewrite run_get.
  destruct (listen_fd f =? -1); [apply ev_at; [evk_tac | exact Hw] |].
  destruct (negb (bind_ok f)); [apply ev_at; [evk_tac | exact Hw] |].
  rewrite run_modify. destruct (fake_fd f <? 0); [apply ev_at; [evk_tac | exact Hw] |].
  rewrite run_emit, run_get. cbn [ev_client_read set_conns].
  destruct (ev_client_read st) as [| cb p] eqn:Er; [| exact I].
  rewrite run_assert by reflexivity. unfold event_set.
  rewrite run_modify, (run_event_add _ Cb_read_ready false), run_get by reflexivity.
  cbn [ev_client_write set_ev set_conns].
  destruct (ev_client_write st) as [| cb p] eqn:Ew; [| exact I].
  rewrite run_assert by reflexivity.
  rewrite run_modify. unfold event_add, bind, get_st, put_st, emit, alive. cbn.
  apply slot_null_ready in H1, H2. repeat split; cbn; auto; right; [now rewrite H1 | now rewrite H2].
Qed.

#[export] Hint Resolve ev_fake : evk.

(** [initialize_watchdog] only touches the watchdog event. *)
Lemma run_init_watchdog {B} (k : unit -> M B) st tr s :
  exists cb tr', bind initialize_watchdog k (alive st tr s) = k tt (alive (set_ev EvWatchdog (Ev cb true) st) tr' s).
Proof.
  unfold initialize_watchdog. rewrite run_assoc, run_get.
  destruct (ev_watchdog st) as [| cb p] eqn:E; cbn [is_null negb].
  - unfold event_set. rewrite run_assoc, run_modify.
    rewrite (run_event_add _ Cb_watchdog false) by reflexivity. eexists _, _. reflexivity.
  - rewrite run_assoc, (run_event_del _ cb p) by exact E.
    rewrite (run_event_add _ cb false) by reflexivity. eexists _, _. reflexivity.
Qed.

(** [init_service_connection] on a connection without a service event. *)
Lemma run_init_service {B} c (k : Z -> M B) st tr s :
  ev_inv st -> ev_service_write st = EvNull -> service_ready_w st = false -> state st <> 0 ->
  exists fd st' tr', bind (init_service_connection c) k (alive st tr s) = k fd (alive st' tr' s) /\ ev_inv st'.
Proof.
  intros (H1 & H2 & H3 & H4 & H5) He Hr Hs. unfold init_service_connection. destruct c as [r | fd | fd].
  - eexists _, _, _. split; [reflexivity |]. now repeat split.
  - rewrite run_assoc, run_modify. eexists _, _, _. split; [reflexivity |].
    repeat split; auto. left. now left.
  - unfold event_set. rewrite run_assoc, run_modify, run_assoc.
    rewrite (run_event_add _ Cb_finish_connect false) by reflexivity.
    eexists _, _, _. split; [reflexivity |]. repeat split; auto; [right; split; [now exists true | exact Hr] |].
    intros E. contradiction.
Qed.

Lemma leads_telex i r : leads (fun st => ev_inv st /\ proper st (InTelex i r)) (on_telex_read i r).
Proof.
  intros st tr s [HI [_ [_ HP]]]. pose proof HI as (H1 & H2 & H3 & H4 & H5).
  unfold on_telex_read. rewrite run_get. destruct (2 <? state st); [exact HI |].
  destruct r as [| len_ok received f port conn secret_len | received data sent f |].
  - apply ev_at; [evk_tac | exact HI].
  - destruct len_ok; [| exact I]. rewrite run_assert by reflexivity.
    destruct (negb received); [apply ev_at; [evk_tac | exact HI] |].
    rewrite run_modify. specialize (H5 HP).
    assert (service_ready_w st = false) as Hw.
    { rewrite H5 in H4. destruct H4 as [[[_ E] | E] | [_ E]]; [exact E | discriminate | exact E]. }
    destruct (run_init_watchdog (fun _ => st0 <- get_st ;; if 0 <=? client_conn st0 then ret tt else
      modify (set_flow (flow_state st0) port) ;;; assert_ (0 <? port) ;;;
      fd <- init_service_connection conn ;;
      modify (fun st => set_conns (telex_conn st) fd (client_conn st) st) ;;;
      if fd <? 0 then cleanup_connection i else
      modify (fun st => set_flow f (key_port st) st) ;;;
      if secret_len <? 0 then cleanup_connection i else modify (set_ssl true) ;;; pet_watchdog)
      (set_state 1 st) tr s) as (cb & tr' & ->).
    rewrite run_get. destruct (0 <=? _); [now repeat split |].
    rewrite run_modify. destruct (0 <? port); [| exact I]. rewrite run_assert by reflexivity.
    match goal with |- match bind (init_service_connection conn) ?k (alive ?x ?t s) with _ => _ end =>
      destruct (run_init_service conn k x t s) as (fd & st' & tr'' & -> & HI'); auto end.
    + now repeat split.
    + discriminate.
    + apply ev_at; [evk_tac | exact HI'].
  - apply ev_at; [evk_tac | exact HI].
  - exact HI.
Qed.

Lemma proper_run_inv x : leads (fun st => ev_inv st /\ proper st x) (run x).
Proof.
  destruct x; cbn [run]; [apply leads_telex | apply leads_read | apply leads_write | apply leads_finish | apply leads_watchdog].
Qed.

(** ** Freed memory is left alone

    A callback that has freed its connection stops, except that [pet_watchdog] and the end of
    the branch for Bro's packet still read it ([place]). *)

Definition live (w : world) : Prop := cell w <> None.
Definition benign (f : fault) : Prop := match f with UseAfterFree Elsewhere => False | _ => True end.

(** Started on a live connection, if [pre] is set, [m] reads no freed memory elsewhere, and [q] of its result tells
    that the connection is still live. *)
Definition tame {A} (pre : bool) (q : A -> bool) (m : M A) : Prop :=
  forall w, (pre = true -> live w) -> match m w with Ok a w' => q a = true -> live w' | Fault f _ => benign f end.

Abbreviation stays := (fun _ => true).
Abbreviation ends := (fun _ => false).

Lemma tame_bind {A B} pre q1 q (m : M A) (k : A -> M B) : tame pre q1 m -> (forall a, tame (q1 a) q (k a)) -> tame pre q (bind m k).
Proof. intros Hm Hk w Hw. unfold bind. specialize (Hm w Hw). destruct (m w) as [a w' | f w']; [now apply Hk | exact Hm]. Qed.

Lemma tame_ret {A} pre q (a : A) : (q a = true -> pre = true) -> tame pre q (ret a).
Proof. intros H w Hw Hq. apply Hw, H, Hq. Qed.

Lemma tame_throw {A} pre q f : benign f -> tame pre q (throw f : M A).
Proof. intros H w _. exact H. Qed.

Lemma tame_ends {A} pre (q : A -> bool) m : tame pre q m -> tame pre ends m.
Proof. intros H w Hw. specialize (H w Hw). destruct (m w); [discriminate | exact H]. Qed.

Lemma tame_live {A} pre (q : A -> bool) m : tame pre q m -> tame true q m.
Proof. intros H w Hw. apply H. intros _. now apply Hw. Qed.

Lemma tame_get : tame true stays get_st.
Proof. intros w Hw. specialize (Hw eq_refl). unfold get_st. unfold live in *. destruct (cell w) eqn:E; [now rewrite E | contradiction]. Qed.

Lemma tame_get_at pre p : p <> Elsewhere -> tame pre stays (get_st_at p).
Proof. intros Hp w _. unfold get_st_at, live. destruct (cell w) eqn:E; [now rewrite E | now destruct p]. Qed.

Lemma tame_put st : tame true stays (put_st st).
Proof. intros w Hw. specialize (Hw eq_refl). unfold put_st, live in *. now destruct (cell w). Qed.

Lemma tame_emit a : tame true stays (emit a).
Proof. intros w Hw _. exact (Hw eq_refl). Qed.

Lemma tame_stats f : tame true stays (modify_stats f).
Proof. intros w Hw _. exact (Hw eq_refl). Qed.

Lemma tame_assert b : tame true stays (assert_ b).
Proof. destruct b; [apply tame_ret; auto | now apply tame_throw]. Qed.

Lemma tame_when c m : tame true stays m -> tame true stays (when c m).
Proof. intros H. destruct c; [exact H | apply tame_ret; auto]. Qed.

Lemma tame_if {A} pre q (c : bool) (m n : M A) : tame pre q m -> tame pre q n -> tame pre q (if c then m else n).
Proof. now destruct c. Qed.

Lemma tame_modify f : tame true stays (modify f).
Proof. apply (tame_bind _ stays); [apply tame_get | intros; apply tame_put]. Qed.

Lemma tame_after_ssl u : tame true ends (cleanup_connection_after_ssl u).
Proof.
  intros [[st |] tr s] Hw; [| now specialize (Hw eq_refl)].
  change (World (Some st) tr s) with (alive st tr s). rewrite after_ssl_run. discriminate.
Qed.

Create HintDb tame.
#[export] Hint Resolve tame_get tame_put tame_emit tame_stats tame_assert tame_modify tame_after_ssl tame_when : tame.
#[export] Hint Extern 1 (tame _ _ (get_st_at _)) => apply tame_get_at; discriminate : tame.
#[export] Hint Extern 1 (tame _ _ (throw _)) => apply tame_throw; exact I : tame.
#[export] Hint Extern 1 (tame _ _ (ret _)) => apply tame_ret; cbn; intros; first [reflexivity | discriminate | assumption] : tame.

(** One step at a time; a call that ends the connection leaves only what may run after it. *)
Ltac tame_tac :=
  repeat first
    [ solve [auto 2 with tame]
    | apply (tame_ends _ stays); solve [auto 2 with tame]
    | apply tame_if
    | apply tame_when
    | eapply tame_bind; [solve [auto 2 with tame] | intros; cbn beta]
    | apply (tame_bind _ stays); [| intros]
    | match goal with |- tame _ _ (match ?x with _ => _ end) => destruct x end ].

Lemma tame_event_add e : tame true stays (event_add e).
Proof. unfold event_add. tame_tac. Qed.

Lemma tame_event_del e : tame true stays (event_del e).
Proof. unfold event_del. tame_tac. Qed.

Lemma tame_event_set e cb : tame true stays (event_set e cb).
Proof. apply tame_modify. Qed.

#[export] Hint Resolve tame_event_add tame_event_del tame_event_set : tame.

(** [pet_watchdog] may be called on a freed connection: this is the read that is recorded. *)
Lemma tame_pet pre : tame pre stays pet_watchdog.
Proof. unfold pet_watchdog. eapply tame_bind; [auto 2 with tame | intros; cbn beta]. tame_tac. Qed.

Lemma tame_close_telex : tame true stays close_telex_connection.
Proof. unfold close_telex_connection. tame_tac. Qed.

Lemma tame_try_shutdown i : tame true ends (cleanup_connection_ssl_try_shutdown i).
Proof. unfold cleanup_connection_ssl_try_shutdown. tame_tac. Qed.

#[export] Hint Resolve tame_pet tame_close_telex tame_try_shutdown : tame.

Lemma tame_cleanup i : tame true ends (cleanup_connection i).
Proof. unfold cleanup_connection, cleanup_connection_ssl. tame_tac. Qed.

Lemma tame_log buf : tame true stays (log_data buf).
Proof. unfold log_data. tame_tac. Qed.

Lemma tame_init_watchdog : tame true stays initialize_watchdog.
Proof. unfold initialize_watchdog. tame_tac. Qed.

Lemma tame_init_service c : tame true stays (init_service_connection c).
Proof. unfold init_service_connection. tame_tac. Qed.

#[export] Hint Resolve tame_cleanup tame_log tame_init_watchdog tame_init_service : tame.

(** The forwarding functions return 0 exactly when they may have freed the connection. *)
Abbreviation goes_on := (fun r => negb (r =? 0)).

Lemma tame_c2s i : tame true goes_on (forward_client_to_service i).
Proof. unfold forward_client_to_service. tame_tac. Qed.

Lemma tame_s2c i : tame true goes_on (forward_service_to_client i).
Proof. unfold forward_service_to_client. tame_tac. Qed.

Lemma tame_forward i : tame true ends (try_to_forward i).
Proof.
  unfold try_to_forward. eapply tame_bind; [auto 2 with tame | intros]. eapply tame_bind; [auto 2 with tame | intros st].
  apply (tame_bind _ (fun go => go)).
  - apply tame_if; [| auto 2 with tame]. eapply tame_bind; [apply tame_s2c | intros r; cbn beta].
    destruct (r =? 0); cbn [negb]; [auto 2 with tame |]. tame_tac.
  - intros []; cbn [negb]; [| auto 2 with tame]. eapply tame_bind; [auto 2 with tame | intros st'].
    apply tame_if; [| auto 2 with tame]. eapply tame_bind; [apply tame_c2s | intros r; cbn beta].
    destruct (r =? 0); cbn [negb]; [auto 2 with tame | tame_tac].
Qed.

#[export] Hint Resolve tame_forward : tame.

Lemma tame_fake i f : tame true ends (setup_fake_socket i f).
Proof. unfold setup_fake_socket. tame_tac. Qed.

#[export] Hint Resolve tame_fake : tame.

Lemma tame_run x : tame true ends (run x).
Proof.
  destruct x; cbn [run]; unfold on_telex_read, on_read_ready, on_write_ready, on_finish_connect,
    on_watchdog, setup_service_read, unpend; tame_tac.
Qed.

(** ** Reachable connections *)

(** A live connection after callbacks that may fire, from [handle_bro_connection]. *)
Inductive reach (n conn t : Z) (s0 : bstats) : world -> Prop :=
| reach_new w : handle_bro_connection n conn t s0 = Ok tt w -> reach n conn t s0 w
| reach_run x st tr s w :
    reach n conn t s0 (alive st tr s) -> proper st x -> run x (alive st tr s) = Ok tt w ->
    reach n conn t s0 w.

Lemma new_world n conn t s0 w : handle_bro_connection n conn t s0 = Ok tt w -> once w /\ ev_world w.
Proof.
  unfold handle_bro_connection. cbn. intros [= <-]. split; [reflexivity |].
  repeat split; cbn; auto; try (now left); left; now left.
Qed.

Lemma reach_once n conn t s0 w : reach n conn t s0 w -> once w.
Proof.
  induction 1 as [w Hw | x st tr s w _ IH _ E]; [apply (new_world _ _ _ _ _ Hw) |].
  pose proof (once_run x _ IH) as H. now rewrite E in H.
Qed.

Lemma reach_ev n conn t s0 w : reach n conn t s0 w -> ev_world w.
Proof.
  induction 1 as [w Hw | x st tr s w _ IH HP E]; [apply (new_world _ _ _ _ _ Hw) |].
  pose proof (proper_run_inv x st tr s (conj IH HP)) as H. now rewrite E in H.
Qed.

(** ** Theorems *)

(** While it is live, any callbacks of the connection may run, in any order. *)
Inductive lives (n conn t : Z) (s0 : bstats) : world -> Prop :=
| lives_new w : handle_bro_connection n conn t s0 = Ok tt w -> lives n conn t s0 w
| lives_run x w w' : lives n conn t s0 w -> live w -> run x w = Ok tt w' -> lives n conn t s0 w'.

Lemma lives_once n conn t s0 w : lives n conn t s0 w -> once w.
Proof.
  induction 1 as [w Hw | x w w' _ IH _ E]; [apply (new_world _ _ _ _ _ Hw) |].
  pose proof (once_run x _ IH) as H. now rewrite E in H.
Qed.

(** Freed at most once, removed from the table exactly then, and unblocked at most once. *)
Definition released_once (w : world) : Prop :=
  count is_state_free (trace w) = count is_hash_remove (trace w) /\
  (count is_state_free (trace w) <= 1)%nat /\ (count is_unblock (trace w) <= 1)%nat /\
  (cell w = None <-> count is_state_free (trace w) = 1%nat).

Lemma once_released w : once w -> released_once w.
Proof.
  unfold once, released_once. destruct (cell w) as [st |]; intros HO.
  - rewrite !(count_final_0 _ (trace w)) by ((now intros []) || exact HO). repeat split; lia || discriminate.
  - destruct HO as (E1 & E2 & E3). rewrite E1, E2. repeat split; auto.
Qed.

(** C34: over the whole life of a connection, whatever Bro, the peers and the timers do, its
    memory is freed at most once, it is removed from the table exactly then, and its flow is
    unblocked at the flow blocker at most once.  A callback that has freed the connection does
    not go on with it: no clean-up runs on, and nothing is written to, freed memory; the only
    reads of it are that of [pet_watchdog] when the work is done and that after
    [setup_fake_socket] has failed. *)
Theorem connection_released_once n conn t s0 w x :
  lives n conn t s0 w -> live w ->
  released_once w /\
  match run x w with
  | Ok _ w' => released_once w'
  | Fault f w' => released_once w' /\ f <> UseAfterFree Elsewhere
  end.
Proof.
  intros HL Hw. pose proof (lives_once _ _ _ _ _ HL) as HO. split; [now apply once_released |].
  pose proof (once_run x w HO) as H1. pose proof (tame_run x w (fun _ => Hw)) as H2.
  destruct (run x w) as [a w' | f w']; [now apply once_released |]. split; [now apply once_released |]. intros ->. exact H2.
Qed.

Definition io0 : io := IO 0 [] ERROR_ZERO_RETURN true 0 [] false ERROR_NONE 1 0 ERROR_NONE.

Definition world_new : world :=
  World (Some (St 0 5 (-1) (-1) 1 (Flow 0 0 0 0) (Ev Cb_telex_read true) EvNull EvNull EvNull EvNull
    (Ev Cb_watchdog true) false false false false false ERROR_NONE 0 (-1) 9 0 0 0))
    [HashInsert; EventAdd EvTelexRead; EventAdd EvWatchdog] (Stats 1 1 0 0).

Lemma connection_released_once_witness :
  match run (InWatchdog io0) world_new with
  | Ok _ w' => released_once w' /\ cell w' = None
  | Fault _ _ => False
  end.
Proof.
  assert (live world_new) as L by discriminate.
  assert (lives 0 5 9 (Stats 0 0 0 0) world_new) as H by (apply lives_new; reflexivity).
  destruct (connection_released_once 0 5 9 (Stats 0 0 0 0) world_new (InWatchdog io0) H L) as [_ R].
  revert R. destruct (run (InWatchdog io0) world_new) as [a w' | f w'] eqn:E; [| vm_compute in E; discriminate].
  intros R. split; [exact R |]. vm_compute in E. injection E as _ <-. reflexivity.
Defined.

(** An event is deleted from the event loop and freed right after that. *)
Lemma drop_pending e ev : is_pending ev = true -> drop_acts e ev false = [EventDel e; EventFree e].
Proof. destruct ev as [| cb p]; [discriminate | reflexivity]. Qed.

Lemma slot_dropped e cb ready ev : slot_ok cb ready ev -> is_pending ev = true -> drop_acts e ev ready = [EventDel e; EventFree e].
Proof. intros [[-> _] | ->] Hp; [discriminate |]. cbn in Hp. destruct ready; [discriminate | reflexivity]. Qed.

(** [l] has the deletion of [e] right before its release. *)
Definition deletes (e : ev_name) (l : list action) : Prop := exists a b, l = a ++ EventDel e :: EventFree e :: b.

Lemma deletes_l e l r : deletes e l -> deletes e (l ++ r).
Proof. intros (a & b & ->). exists a, (b ++ r). now rewrite <- app_assoc. Qed.

Lemma deletes_r e l r : deletes e r -> deletes e (l ++ r).
Proof. intros (a & b & ->). exists (l ++ a), b. now rewrite <- app_assoc. Qed.

Lemma final_deletes u st e : ev_inv st -> is_pending (get_ev e st) = true ->
  deletes e (final_actions u st).
Proof.
  intros (H1 & H2 & H3 & H4 & _) Hp. unfold final_actions.
  assert (drop_acts e (get_ev e st) (match e with EvWatchdog | EvTelexRead => false | _ => ready_of e st end) = [EventDel e; EventFree e]) as E.
  { destruct e; cbn [get_ev ready_of] in *; try (now apply drop_pending); try (eapply slot_dropped; eassumption).
    destruct H4 as [H4 | [[p Ep] Er]]; [eapply slot_dropped; eassumption |]. rewrite Er. now apply drop_pending. }
  assert (deletes e [EventDel e; EventFree e]) as D by (now exists [], []). rewrite <- E in D.
  destruct e; cbn [get_ev ready_of] in D; repeat first [apply deletes_l; exact D | apply deletes_r].
Qed.

(** C35: the final clean-up releases everything that the connection holds: each open
    descriptor is closed, the TLS object freed, every allocated event freed, and an event
    that is still pending is deleted from the event loop right before it is freed; the active
    counter goes down by one.  The connection is one that callbacks which are due have
    reached ([reach]), where the two peers have different descriptors, as open ones have, and
    Bro has sent one initial record, as the detector does. *)
Theorem cleanup_releases_all n conn t s0 st tr s u :
  reach n conn t s0 (alive st tr s) ->
  exists acts, cleanup_connection_after_ssl u (alive st tr s) = Ok tt (World None (tr ++ acts) (less_active s)) /\
    (forall e, get_ev e st <> EvNull -> In (EventFree e) acts) /\
    (forall e, is_pending (get_ev e st) = true -> deletes e acts) /\
    (0 <= client_conn st -> In (Close (client_conn st)) acts) /\
    (0 <= telex_conn st -> In (Close (telex_conn st)) acts) /\
    (0 <= service_conn st -> In (Close (service_conn st)) acts) /\
    (ssl st = true -> In SslFree acts) /\ (u = true -> In (Unblock (flow_state st)) acts).
Proof.
  intros HR. apply reach_ev in HR. exists (final_actions u st). split; [apply after_ssl_run |].
  split; [| split; [intros e; now apply final_deletes |]]; unfold final_actions, opt_act.
  - intros e He. rewrite !in_app_iff.
    assert (forall e nm skip, e <> EvNull -> In (EventFree nm) (drop_acts nm e skip)) as KF.
    { intros [| cb p] nm [] Hp; try congruence; cbn; auto. }
    destruct e; cbn [get_ev] in He; auto 20.
  - repeat split.
    + intros Hc. rewrite (proj2 (Z.leb_le _ _) Hc), !in_app_iff. cbn. auto 20.
    + intros Hc. rewrite (proj2 (Z.leb_le 0 (telex_conn st)) Hc), !in_app_iff. cbn. auto 20.
    + intros Hc. rewrite (proj2 (Z.leb_le 0 (service_conn st)) Hc), !in_app_iff. cbn. auto 20.
    + intros ->. now left.
    + intros ->. rewrite !in_app_iff. cbn. auto 20.
Qed.

Definition state_new : ConnectionState :=
  St 0 5 (-1) (-1) 1 (Flow 0 0 0 0) (Ev Cb_telex_read true) EvNull EvNull EvNull EvNull
     (Ev Cb_watchdog true) false false false false false ERROR_NONE 0 (-1) 9 0 0 0.

Lemma cleanup_releases_all_witness :
  exists acts, cleanup_connection_after_ssl false
      (alive state_new [HashInsert; EventAdd EvTelexRead; EventAdd EvWatchdog] (Stats 1 1 0 0)) =
    Ok tt (World None ([HashInsert; EventAdd EvTelexRead; EventAdd EvWatchdog] ++ acts) (Stats 0 1 0 0)) /\
    deletes EvTelexRead acts.
Proof.
  destruct (cleanup_releases_all 0 5 9 (Stats 0 0 0 0) state_new
    [HashInsert; EventAdd EvTelexRead; EventAdd EvWatchdog] (Stats 1 1 0 0) false) as (acts & E & _ & D & _).
  - now apply reach_new.
  - exists acts. split; [exact E | now apply D].
Defined.

(** In every reachable connection each relay event that exists is pending exactly
    when its ready flag is not set, the invariant stated in [setup_service_read]. *)
Theorem event_bookkeeping n conn t s0 st tr s :
  reach n conn t s0 (alive st tr s) ->
  slot_ok Cb_read_ready (client_ready_r st) (ev_client_read st) /\
  slot_ok Cb_write_ready (client_ready_w st) (ev_client_write st) /\
  slot_ok Cb_read_ready (service_ready_r st) (ev_service_read st).
Proof. intros HR%reach_ev. destruct HR as (H1 & H2 & H3 & _). auto. Qed.

Lemma event_bookkeeping_witness : slot_ok Cb_read_ready (client_ready_r state_new) (ev_client_read state_new).
Proof.
  apply (event_bookkeeping 0 5 9 (Stats 0 0 0 0) state_new
    [HashInsert; EventAdd EvTelexRead; EventAdd EvWatchdog] (Stats 1 1 0 0)). now apply reach_new.
Defined.

(** [cleanup_connection] on a live connection either frees it, with the flow
    unblocked unless Bro never named it, or leaves it in state 5 waiting for the
    client's socket in the direction that TLS asked for. *)
Theorem cleanup_connection_outcome i st tr s :
  exists acts,
    (cleans i st = true ->
       cleanup_connection i (alive st tr s) = Ok tt (World None (tr ++ acts) (less_active s)) /\
       count is_unblock acts = (if ssl st || (0 <? state st) then 1%nat else 0%nat) /\
       count is_state_free acts = 1%nat) /\
    (cleans i st = false ->
       exists st', cleanup_connection i (alive st tr s) = Ok tt (alive st' (tr ++ acts) s) /\
         state st' = 5 /\ cleanup_waiting st' = shutdown2_err i /\ wants (shutdown2_err i) = true /\
         ssl st' = true /\ telex_conn st' < 0).
Proof.
  rewrite cleanup_run. cbv zeta. unfold cleans.
  assert (count is_unblock (close_telex_acts st) = 0%nat /\ count is_state_free (close_telex_acts st) = 0%nat) as [C1 C2].
  { unfold close_telex_acts. rewrite !count_app, !count_drop, !count_opt by ((now intros []) || reflexivity). auto. }
  assert (ssl (stamped i st) = ssl st) as Es by (unfold stamped, closed_telex; cbn; now destruct (_ <=? _)).
  destruct (ssl st) eqn:E; cbn [andb orb].
  - destruct (shutdown_ret i =? 0); cbn [andb]; [destruct (must_wait i) eqn:W |].
    + eexists. split; [discriminate |]. intros _. exists (waiting_state i (stamped i st)).
      rewrite <- app_assoc. split; [reflexivity |]. unfold must_wait in W. apply andb_true_iff in W as [_ W].
      repeat split; auto. unfold stamped, closed_telex. cbn. destruct (Z.leb_spec 0 (telex_conn st)); cbn; lia.
    + eexists. split; [| discriminate]. intros _. rewrite <- app_assoc. split; [reflexivity |].
      destruct (final_counts true (stamped i st)) as (F1 & _ & F3).
      rewrite !count_app, C1, C2, F1, F3. split; reflexivity.
    + eexists. split; [| discriminate]. intros _. rewrite <- app_assoc. split; [reflexivity |].
      destruct (final_counts true (set_ssl false (stamped i st))) as (F1 & _ & F3).
      rewrite !count_app, C1, C2, F1, F3. split; reflexivity.
  - eexists. split; [| discriminate]. intros _. rewrite <- app_assoc. split; [reflexivity |].
    destruct (final_counts (0 <? state st) (stamped i st)) as (F1 & _ & F3).
    rewrite !count_app, C1, C2, F1, F3. split; reflexivity.
Qed.
