(* ===== verification/Relay.v ===== *)
(** * What the station's relay forwards

    Theorems on [Bronnect]: the bytes that cross the relay in each direction against
    the byte counters, the branches of [forward_service_to_client], the first line
    that [log_data] prints, and what a callback does with a connection that the
    forwarding has already freed. *)
From S2P Require Import Prelude Bytes CLib Bronnect.
From Stdlib Require Import ZArith Lia List Bool.
Import ListNotations.
Open Scope Z_scope.
Open Scope bro_scope.

(** ** The bytes in a trace *)

Definition bytes_by (f : action -> list Z) (tr : list action) : list Z := flat_map f tr.
Definition from_client : list action -> list Z := bytes_by (fun a => match a with FromClient b => b | _ => [] end).
Definition to_service : list action -> list Z := bytes_by (fun a => match a with ToService b => b | _ => [] end).
Definition from_service : list action -> list Z := bytes_by (fun a => match a with FromService b => b | _ => [] end).
Definition to_client : list action -> list Z := bytes_by (fun a => match a with ToClient b => b | _ => [] end).

Record view := View {
  v_from_client : list Z; v_to_service : list Z; v_from_service : list Z; v_to_client : list Z;
  v_up : Z; v_down : Z
}.

Definition view_of (w : world) : view :=
  View (from_client (trace w)) (to_service (trace w)) (from_service (trace w)) (to_client (trace w))
       (up_bytes (stats w)) (down_bytes (stats w)).

Lemma bytes_by_snoc f tr a : bytes_by f (tr ++ [a]) = bytes_by f tr ++ f a.
Proof. unfold bytes_by. rewrite flat_map_app. cbn. now rewrite app_nil_r. Qed.

(** Calls that move no data. *)
Definition is_data (a : action) : bool :=
  match a with FromClient _ | ToService _ | FromService _ | ToClient _ => true | _ => false end.

Definition at_view (v : view) (w : world) : Prop := view_of w = v.

Lemma quiet_put v st : keeps (at_view v) (put_st st).
Proof. intros w Hw. unfold put_st. now destruct (cell w). Qed.

Lemma quiet_modify v f : keeps (at_view v) (modify f).
Proof. apply keeps_bind; [apply keeps_get | intros; apply quiet_put]. Qed.

Lemma quiet_emit v a : is_data a = false -> keeps (at_view v) (emit a).
Proof.
  intros Ha w <-. unfold at_view, view_of, from_client, to_service, from_service, to_client.
  cbn [emit end_world trace stats]. rewrite !bytes_by_snoc. destruct a; try discriminate; now rewrite !app_nil_r.
Qed.

Lemma quiet_free v : keeps (at_view v) free_st.
Proof.
  intros w Hw. unfold free_st. destruct (cell w); [| exact Hw].
  exact (quiet_emit v StateFree eq_refl w Hw).
Qed.

Lemma quiet_active v f :
  keeps (at_view v) (modify_stats (fun s => Stats (f s) (total_connections s) (up_bytes s) (down_bytes s))).
Proof. intros w Hw. exact Hw. Qed.

#[export] Hint Resolve quiet_put quiet_modify quiet_free quiet_active : keeps.
#[export] Hint Extern 1 (keeps (at_view _) (emit _)) => apply quiet_emit; reflexivity : keeps.

Lemma quiet_event_add v e : keeps (at_view v) (event_add e).
Proof. unfold event_add. keeps_tac. Qed.

Lemma quiet_event_del v e : keeps (at_view v) (event_del e).
Proof. unfold event_del. keeps_tac. Qed.

Lemma quiet_event_set v e cb : keeps (at_view v) (event_set e cb).
Proof. unfold event_set. keeps_tac. Qed.

#[export] Hint Resolve quiet_event_add quiet_event_del quiet_event_set : keeps.

Lemma quiet_drop v e skip : keeps (at_view v) (drop_event e skip).
Proof. unfold drop_event. keeps_tac. Qed.

#[export] Hint Resolve quiet_drop : keeps.

Lemma quiet_after_ssl v u : keeps (at_view v) (cleanup_connection_after_ssl u).
Proof. unfold cleanup_connection_after_ssl. keeps_tac. Qed.

Lemma quiet_pet v : keeps (at_view v) pet_watchdog.
Proof. unfold pet_watchdog. keeps_tac. Qed.

Lemma quiet_close_telex v : keeps (at_view v) close_telex_connection.
Proof. unfold close_telex_connection. keeps_tac. Qed.

#[export] Hint Resolve quiet_after_ssl quiet_pet quiet_close_telex : keeps.

Lemma quiet_try_shutdown v i : keeps (at_view v) (cleanup_connection_ssl_try_shutdown i).
Proof. unfold cleanup_connection_ssl_try_shutdown. keeps_tac. Qed.

#[export] Hint Resolve quiet_try_shutdown : keeps.

Lemma quiet_cleanup v i : keeps (at_view v) (cleanup_connection i).
Proof. unfold cleanup_connection, cleanup_connection_ssl. keeps_tac. Qed.

Lemma quiet_log v buf : keeps (at_view v) (log_data buf).
Proof. unfold log_data. keeps_tac. Qed.

Lemma quiet_fake v i f : keeps (at_view v) (setup_fake_socket i f).
Proof. pose proof (quiet_cleanup v). unfold setup_fake_socket. keeps_tac. Qed.

Lemma quiet_init_watchdog v : keeps (at_view v) initialize_watchdog.
Proof. unfold initialize_watchdog. keeps_tac. Qed.

Lemma quiet_init_service v c : keeps (at_view v) (init_service_connection c).
Proof. unfold init_service_connection. keeps_tac. Qed.

#[export] Hint Resolve quiet_cleanup quiet_log quiet_fake quiet_init_watchdog quiet_init_service : keeps.

Lemma quiet_telex v i r : keeps (at_view v) (on_telex_read i r).
Proof. unfold on_telex_read. keeps_tac. Qed.

Lemma quiet_finish v i c e : keeps (at_view v) (on_finish_connect i c e).
Proof. unfold on_finish_connect, setup_service_read. keeps_tac. Qed.

Lemma quiet_watchdog v i : keeps (at_view v) (on_watchdog i).
Proof. unfold on_watchdog. keeps_tac. Qed.

Lemma quiet_unpend v e : keeps (at_view v) (unpend e).
Proof. unfold unpend. keeps_tac. Qed.

#[export] Hint Resolve quiet_telex quiet_finish quiet_watchdog quiet_unpend : keeps.

(** ** Counters and streams *)

Section Balance.
(** The counters at the start, and whether [SSL_write] to the client and [sendall] to
    the service are known never to fail. *)
Context (up0 down0 : Z) (writes sends : bool).

(** What [recv] answers, and the assumption on the two writes. *)
Definition io_ok (i : io) : Prop :=
  (0 < recv_num i -> recv_num i = Z.of_nat (length (recv_bytes i))) /\
  (writes = true -> ssl_write_err i = ERROR_NONE) /\
  (sends = true -> send_service_ok i = true).

Definition balanced_view (v : view) : Prop :=
  v_up v = (up0 + Z.of_nat (length (v_from_client v)))%u64 /\
  v_down v = (down0 + Z.of_nat (length (v_from_service v)))%u64 /\
  (writes = true -> v_to_client v = v_from_service v) /\
  (sends = true -> v_to_service v = v_from_client v).

Definition balanced (w : world) : Prop := balanced_view (view_of w).

Lemma quiet_balanced {A} (m : M A) : (forall v, keeps (at_view v) m) -> keeps balanced m.
Proof using Type. intros H w Hw. unfold balanced. rewrite (H _ w eq_refl). exact Hw. Qed.

Lemma balanced_c2s i : io_ok i -> keeps balanced (forward_client_to_service i).
Proof using Type.
  intros (_ & _ & Hs). unfold forward_client_to_service.
  apply keeps_bind; [apply keeps_get | intros _].
  destruct (ssl_read_err i); try (apply quiet_balanced; intros; keeps_tac; fail).
  apply keeps_bind; [apply keeps_assert | intros _]. intros w (Hu & Hd & Hw & Ht).
  set (buf := ssl_read_bytes i).
  set (w1 := World (cell w)
    (if send_service_ok i then (trace w ++ [FromClient buf]) ++ [ToService buf] else trace w ++ [FromClient buf])
    (Stats (active_connections (stats w)) (total_connections (stats w))
       (up_bytes (stats w) + Z.of_nat (length buf))%u64 (down_bytes (stats w)))).
  assert (balanced w1) as B1.
  { unfold balanced, balanced_view, view_of, w1, from_client, to_service, from_service, to_client in *.
    cbn [v_up v_down v_from_client v_from_service v_to_client v_to_service trace stats up_bytes down_bytes] in *.
    destruct (send_service_ok i); rewrite !bytes_by_snoc, ?app_nil_r, ?length_app; rewrite ?length_app in *;
      rewrite ?Nat2Z.inj_add, <- ?w_add_add, <- ?Hu;
      repeat split; auto; intros E; [now rewrite (Ht E) | specialize (Hs E); discriminate]. }
  enough (forall v, keeps (at_view v) (log_data buf ;;;
      (if send_service_ok i then ret 1 else (cleanup_connection i ;;; ret 0)))) as Q.
  { pose proof (quiet_balanced _ Q w1 B1) as G. unfold w1 in G. unfold when.
    destruct (send_service_ok i); exact G. }
  intros v. keeps_tac.
Qed.

Lemma balanced_s2c i : io_ok i -> keeps balanced (forward_service_to_client i).
Proof using Type.
  intros (Hr & Hw & _). unfold forward_service_to_client.
  apply keeps_bind; [apply keeps_get | intros st]. apply keeps_bind; [apply keeps_assert | intros _].
  destruct (Z.ltb_spec (recv_num i) 0); [apply quiet_balanced; intros; keeps_tac |].
  destruct (Z.eqb_spec (recv_num i) 0); [apply quiet_balanced; intros; keeps_tac |].
  specialize (Hr ltac:(lia)). set (buf := recv_bytes i) in *. intros w (Hu & Hd & Hc & Ht).
  pose (wk := fun tr => World (cell w) tr
    (Stats (active_connections (stats w)) (total_connections (stats w))
       (up_bytes (stats w)) (down_bytes (stats w) + recv_num i)%u64)).
  assert (balanced (wk ((trace w ++ [FromService buf]) ++ [ToClient buf])) /\
          (writes = false -> balanced (wk (trace w ++ [FromService buf])))) as [B1 B2].
  { unfold balanced, balanced_view, view_of, wk, from_client, to_service, from_service, to_client in *.
    cbn [v_up v_down v_from_client v_from_service v_to_client v_to_service trace stats up_bytes down_bytes] in *.
    rewrite !bytes_by_snoc, ?app_nil_r, ?length_app.
    rewrite ?Nat2Z.inj_add, <- ?w_add_add, <- ?Hd, <- ?Hr.
    repeat split; auto; try congruence. intros E. now rewrite (Hc E). }
  destruct (ssl_write_err i) eqn:E; try exact B1;
    assert (writes = false) as W by (destruct writes; [specialize (Hw eq_refl); discriminate | reflexivity]);
    try exact (B2 W);
    apply (quiet_balanced (cleanup_connection i ;;; ret 0) ltac:(intros; keeps_tac) _ (B2 W)).
Qed.

Hint Resolve balanced_c2s balanced_s2c : keeps.

Lemma balanced_forward i : io_ok i -> keeps balanced (try_to_forward i).
Proof using Type.
  intros Hi. unfold try_to_forward.
  apply keeps_bind; [apply quiet_balanced; intros; keeps_tac | intros _].
  apply keeps_bind; [apply keeps_get | intros st].
  assert (forall f e e', keeps balanced (modify f ;;; event_add e ;;; event_add e')) as Q
    by (intros; apply quiet_balanced; intros; keeps_tac).
  assert (forall f e e', keeps balanced (modify f ;;; event_add e ;;; event_add e' ;;; ret true)) as Q'
    by (intros; apply quiet_balanced; intros; keeps_tac).
  apply keeps_bind.
  - apply keeps_if; [| apply keeps_ret]. apply keeps_bind; [now apply balanced_s2c | intros r].
    apply keeps_if; [apply keeps_ret | apply Q'].
  - intros go. apply keeps_if; [apply keeps_ret |]. apply keeps_bind; [apply keeps_get | intros st'].
    apply keeps_if; [| apply keeps_ret]. apply keeps_bind; [now apply balanced_c2s | intros r].
    apply keeps_if; [apply keeps_ret | apply Q].
Qed.

Lemma balanced_then_pet i f e : io_ok i ->
  keeps balanced (put_st f ;;; event_del e ;;; try_to_forward i ;;; pet_watchdog).
Proof using Type.
  intros Hi. apply keeps_bind; [apply quiet_balanced; intros; keeps_tac | intros _].
  apply keeps_bind; [apply quiet_balanced; intros; keeps_tac | intros _].
  apply keeps_bind; [now apply balanced_forward | intros _]. apply quiet_balanced; intros; keeps_tac.
Qed.

Definition input_ok (x : input) : Prop :=
  match x with InRead i _ | InWrite i _ => io_ok i | _ => True end.

Lemma balanced_run x : input_ok x -> keeps balanced (run x).
Proof using Type.
  destruct x as [i r | i fd | i fd | i e | i]; cbn [run input_ok]; intros Hi.
  1,4,5: apply quiet_balanced; intros; keeps_tac.
  - unfold on_read_ready. apply keeps_bind; [apply keeps_get | intros st].
    apply keeps_if; [| apply keeps_if; [now apply balanced_then_pet | apply quiet_balanced; intros; keeps_tac]].
    destruct (ssl_error_eqb _ _); [apply quiet_balanced; intros; keeps_tac | now apply balanced_then_pet].
  - unfold on_write_ready. apply keeps_bind; [apply keeps_get | intros st].
    apply keeps_if; [| apply keeps_if; [now apply balanced_then_pet | apply quiet_balanced; intros; keeps_tac]].
    apply keeps_if; [apply quiet_balanced; intros; keeps_tac | now apply balanced_then_pet].
Qed.

Lemma balanced_run_all xs w : Forall input_ok xs -> balanced w -> balanced (run_all xs w).
Proof using Type.
  intros HF. revert w. induction HF as [| x xs Hx _ IH]; intros w Hw; [exact Hw |]. cbn [run_all].
  pose proof (balanced_run x Hx w Hw) as H1. destruct (run x w); [now apply IH | exact H1].
Qed.
End Balance.

(** ** A complete session *)

(** Bro's INIT record, the service accepts, Bro's packet, the service becomes writable:
    after these the relay is up. *)
Definition io_idle : io := IO 10 [] ERROR_WANT_READ true (-1) [] true ERROR_NONE 1 1 ERROR_NONE.
Definition session : list input :=
  [ InTelex io_idle (RecInit true true (Flow 1 2 3 4) 8888 (InProgress 7) 128);
    InFinish io_idle (Some 0);
    InTelex io_idle (RecRawPkt true [22; 3; 1] true (FakeIO 8 true 9));
    InWrite io_idle 7; InWrite io_idle 9 ].

(** Data from the service, then from the client, then the client's [close_notify]. *)
Definition io_down : io := IO 11 [] ERROR_WANT_READ true 3 [72; 84; 84] false ERROR_NONE 1 1 ERROR_NONE.
Definition io_up : io := IO 12 [71; 69; 84; 10; 13] ERROR_NONE true (-1) [] true ERROR_NONE 1 1 ERROR_NONE.
Definition io_close : io := IO 13 [] ERROR_ZERO_RETURN true (-1) [] true ERROR_NONE 1 1 ERROR_NONE.
Definition traffic : list input := [InRead io_down 7; InRead io_up 9].

(** The connection when the relay is up. *)
Definition relay_up : ConnectionState :=
  Eval vm_compute in match cell (run_all session world_new) with Some st => st | None => state_new end.

Lemma session_relays :
  let w := run_all (session ++ traffic) world_new in
  to_client (trace w) = [72; 84; 84] /\ to_service (trace w) = [71; 69; 84; 10; 13] /\
  cell w <> None /\ In (LogFirst [71; 69; 84]) (trace w).
Proof. vm_compute. repeat split; [discriminate |]. intuition. Qed.

(** ** C strings *)

Lemma firstn_app_le {A} n (a b : list A) : (n <= length a)%nat -> firstn n (a ++ b) = firstn n a.
Proof. intros H. rewrite firstn_app. replace (n - length a)%nat with 0%nat by lia. apply app_nil_r. Qed.

Lemma cstr_prefix m : firstn (length (cstr m)) m = cstr m /\ ~ In 0 (cstr m) /\
  (In 0 m -> (length (cstr m) < length m)%nat).
Proof.
  induction m as [| c m (P & N & L)]; [now repeat split |]. cbn [cstr].
  destruct (Z.eqb_spec c 0) as [-> | Hc]; cbn; [repeat split; auto; lia |].
  repeat split; [now rewrite P | intros [E | E]; congruence || now apply N |].
  intros [E | E]; [congruence |]. specialize (L E). lia.
Qed.

Lemma strchr_nl_bound s n : strchr_nl s = Some n -> (n < length s)%nat.
Proof.
  revert n. induction s as [| c s IH]; [discriminate |]. intros n. cbn [strchr_nl length].
  destruct (c =? 10); [intros [= <-]; lia |]. destruct (c =? 0); [discriminate |].
  destruct (strchr_nl s) as [m |]; [| discriminate]. intros [= <-]. specialize (IH m eq_refl). lia.
Qed.

(** Before the newline that [strchr] finds there is none, nor up to the first NUL. *)
Lemma strchr_nl_first s m :
  ~ In 0 (firstn m s) -> (forall n, strchr_nl s = Some n -> (m <= n)%nat) -> ~ In 10 (firstn m s).
Proof.
  revert m. induction s as [| c s IH]; intros [| m]; cbn; auto. intros H0 Hn.
  destruct (Z.eqb_spec c 10) as [E | E]; [specialize (Hn _ eq_refl); lia |].
  destruct (Z.eqb_spec c 0) as [-> | E0]; [exfalso; apply H0; now left |].
  intros [X | X]; [congruence |]. revert X. apply IH; [tauto |].
  intros n En. specialize (Hn (S n)). rewrite En in Hn. specialize (Hn eq_refl). lia.
Qed.

(** ** Theorems *)

(** C36: whatever the callbacks do, the byte counters of the station are exactly the bytes
    taken from the clients and from the services; and as long as no write fails, the
    client receives exactly the service's bytes in order, and the service the client's. *)
Theorem relay_streams writes sends n conn t s0 w0 xs :
  handle_bro_connection n conn t s0 = Ok tt w0 -> Forall (input_ok writes sends) xs ->
  in_width 64 (up_bytes s0) -> in_width 64 (down_bytes s0) ->
  let w := run_all xs w0 in
  up_bytes (stats w) = (up_bytes s0 + Z.of_nat (length (from_client (trace w))))%u64 /\
  down_bytes (stats w) = (down_bytes s0 + Z.of_nat (length (from_service (trace w))))%u64 /\
  (writes = true -> to_client (trace w) = from_service (trace w)) /\
  (sends = true -> to_service (trace w) = from_client (trace w)).
Proof.
  intros E HF Hu Hd. apply (balanced_run_all (up_bytes s0) (down_bytes s0) writes sends xs w0 HF).
  unfold handle_bro_connection in E. cbn in E. injection E as <-.
  unfold balanced, balanced_view, view_of. cbn.
  repeat split; symmetry; rewrite w_add_small; rewrite Z.add_0_r; auto.
Qed.

Lemma relay_streams_witness :
  let w := run_all (session ++ traffic) world_new in
  up_bytes (stats w) = 5 /\ to_client (trace w) = from_service (trace w) /\
  to_service (trace w) = from_client (trace w).
Proof.
  destruct (relay_streams true true 0 5 9 (Stats 0 0 0 0) world_new (session ++ traffic) eq_refl) as (U & _ & C & S).
  - repeat constructor; cbn; intros; lia || discriminate || reflexivity.
  - cbn. unfold in_width. lia.
  - cbn. unfold in_width. lia.
  - split; [rewrite U; reflexivity | split; [now apply C | now apply S]].
Defined.

(** [forward_service_to_client] on every branch of a live connection: nothing read
    and the connection kept or cleaned up, or the bytes read and either written, or the
    connection cleaned up, or, when TLS asks to retry, silently dropped: the function
    still returns 1 and the bytes never reach the client. *)
Theorem forward_service_to_client_cases i st tr s :
  0 <= client_conn st ->
  let read := tr ++ [FromService (recv_bytes i)] in
  let s' := Stats (active_connections s) (total_connections s) (up_bytes s) (down_bytes s + recv_num i)%u64 in
  forward_service_to_client i (alive st tr s) =
    if recv_num i <=? 0 then
      if (recv_num i <? 0) && recv_would_block i then Ok 1 (alive st tr s)
      else (cleanup_connection i ;;; ret 0) (alive st tr s)
    else if ssl_error_eqb (ssl_write_err i) ERROR_NONE then
      Ok 1 (alive st (read ++ [ToClient (recv_bytes i)]) s')
    else if wants (ssl_write_err i) then Ok 1 (alive st read s')
    else (cleanup_connection i ;;; ret 0) (alive st read s').
Proof.
  intros Hc read s'. unfold forward_service_to_client.
  rewrite run_get, run_assert by lia.
  destruct (Z.ltb_spec (recv_num i) 0), (Z.leb_spec (recv_num i) 0); try lia; cbn [andb].
  - destruct (recv_would_block i); reflexivity.
  - replace (recv_num i) with 0 by lia. reflexivity.
  - destruct (Z.eqb_spec (recv_num i) 0); [lia |]. rewrite run_emit.
    destruct (ssl_write_err i); reflexivity.
Qed.

Definition io_retry : io := IO 11 [] ERROR_WANT_READ true 3 [72; 84; 84] false ERROR_WANT_WRITE 1 1 ERROR_NONE.

Lemma forward_service_to_client_cases_witness :
  let w := end_world (forward_service_to_client io_retry (alive relay_up [] (Stats 1 1 0 0))) in
  to_client (trace w) = [] /\ from_service (trace w) = [72; 84; 84].
Proof.
  cbv zeta. rewrite (forward_service_to_client_cases io_retry relay_up) by (cbn; lia). split; reflexivity.
Defined.

(** When the client ends its TLS session properly while the service's socket is
    writable, [on_read_ready] cleans the connection up in [try_to_forward] and then
    passes the freed memory to [pet_watchdog]. *)
Theorem client_close_use_after_free i st tr s :
  ev_client_read st = Ev Cb_read_ready true -> ssl st = true ->
  cleanup_waiting st <> ERROR_WANT_READ -> service_ready_w st = true ->
  service_ready_r st && client_ready_w st = false ->
  ssl_read_err i = ERROR_ZERO_RETURN -> shutdown_ret i <> 0 ->
  exists w, on_read_ready i (client_conn st) (alive st tr s) = Fault (UseAfterFree In_pet_watchdog) w /\
    cell w = None /\ count is_state_free (trace w) = S (count is_state_free tr).
Proof.
  intros He Hs Hcw Hw Hrw Hr Hsh. unfold on_read_ready. rewrite run_get, Z.eqb_refl.
  rewrite run_put, (run_event_del _ Cb_read_ready true) by exact He.
  unfold ssl_error_eqb. destruct (ssl_error_dec (cleanup_waiting st) ERROR_WANT_READ) as [X | _]; [contradiction |].
  unfold try_to_forward. rewrite run_assoc, run_modify, run_assoc, run_get.
  cbn [service_ready_r client_ready_w set_times set_ev set_ready]. rewrite Hrw.
  rewrite !run_assoc. change (bind (ret true) ?k ?w) with (k true w). cbn beta iota. cbn [negb].
  rewrite run_assoc, run_get.
  cbn [service_ready_w client_ready_r set_times set_ev set_ready andb]. rewrite Hw. cbn [andb].
  unfold forward_client_to_service. rewrite !run_assoc, run_get, Hr, !run_assoc.
  match goal with |- context [bind (cleanup_connection i) ?k (alive ?st' ?tr' s)] =>
    pose proof (cleanup_run i st' tr' s) as G; set (w := alive st' tr' s) in * end.
  cbv zeta in G. cbn [ssl set_times set_ev set_ready] in G. rewrite Hs in G.
  destruct (Z.eqb_spec (shutdown_ret i) 0) as [| _]; [contradiction |].
  unfold bind at 1. rewrite G. eexists. split; [reflexivity | split; [reflexivity |]].
  cbn [trace]. rewrite !count_app. match goal with |- context [final_actions ?u ?x] =>
    destruct (final_counts u x) as (-> & _) end.
  unfold close_telex_acts. rewrite count_app, count_opt, count_drop by ((now intros []) || reflexivity).
  cbn. lia.
Qed.

Lemma client_close_use_after_free_witness :
  cell (run_all session world_new) = Some relay_up /\
  exists w, on_read_ready io_close (client_conn relay_up) (alive relay_up [] (Stats 1 1 0 0)) = Fault (UseAfterFree In_pet_watchdog) w /\
    cell w = None.
Proof.
  split; [vm_compute; reflexivity |].
  destruct (client_close_use_after_free io_close relay_up [] (Stats 1 1 0 0)) as (w & E & C & _);
    [reflexivity | reflexivity | discriminate | reflexivity | reflexivity | reflexivity | discriminate |].
  exists w. split; assumption.
Defined.

(** The line that [log_data] prints of a non-empty buffer: the assertions hold, and it
    is at most 99 characters of the buffer's start, without a newline or a NUL. *)
Theorem log_line_bounded buf :
  buf <> [] ->
  exists line, log_line buf = Some line /\ (length line <= 99)%nat /\ (length line < length buf)%nat /\
    firstn (length line) buf = line /\ ~ In 10 line /\ ~ In 0 line.
Proof.
  intros Hb. destruct (exists_last Hb) as (l & x & ->). unfold log_line.
  replace (length (l ++ [x])) with (S (length l)) by (rewrite length_app; cbn; lia).
  cbn [Nat.eqb]. replace (S (length l) - 1)%nat with (length l) by lia.
  rewrite (firstn_exact (length l)) by reflexivity.
  set (n := match strchr_nl (l ++ [0]) with Some n => n | None => length l end).
  set (k := if (99 <? n)%nat then 99%nat else n).
  assert (n <= length l)%nat as Hn.
  { unfold n. destruct (strchr_nl (l ++ [0])) as [m |] eqn:E; [| lia]. apply strchr_nl_bound in E.
    rewrite length_app in E. cbn in E. lia. }
  assert (k <= 99 /\ k <= n)%nat as [K1 K2] by (unfold k; destruct (Nat.ltb_spec 99 n); lia).
  rewrite (proj2 (Nat.ltb_lt k (S (length l)))) by lia.
  rewrite firstn_app_le by lia.
  destruct (cstr_prefix (firstn k l ++ [0])) as (P & N0 & Hlt).
  specialize (Hlt ltac:(apply in_or_app; right; now left)).
  rewrite length_app, firstn_length_le in Hlt by lia. cbn in Hlt.
  set (line := cstr (firstn k l ++ [0])) in *.
  rewrite firstn_app_le in P by (rewrite firstn_length_le; lia).
  rewrite firstn_firstn, Nat.min_l in P by lia.
  exists line. repeat split; try lia; auto.
  - now rewrite firstn_app_le by lia.
  - rewrite <- (firstn_app_le (length line) l [0]) in P by lia. rewrite <- P.
    apply strchr_nl_first; [now rewrite P |].
    intros m Em. unfold n in K2. rewrite Em in K2. lia.
Qed.

Lemma log_line_bounded_witness :
  exists line, log_line [71; 69; 84; 10; 13] = Some line /\ (length line <= 99)%nat.
Proof.
  destruct (log_line_bounded [71; 69; 84; 10; 13]) as (line & E & L & _); [discriminate |].
  exists line. split; assumption.
Defined.
