(* ===== verification/TelexUtil.v ===== *)
(** * The station's utilities

    [station/util/telex_util.c]: [sendall] over a socket that accepts part of what it
    is given, the hexadecimal dump, the asynchronous connect, and the socket queries;
    and how the results of [sendall] and [start_tcp_connect] become the inputs of the
    relay of [Bronnect]. *)
From S2P Require Import Prelude Bytes CLib Logger Bronnect.
From Stdlib Require Import String ZArith Lia List Bool.
Import ListNotations.
Open Scope Z_scope.
Open Scope list_scope.

(** ** sendall *)

Section Sendall.
(** A socket and [send]: its new state and what it returns. *)
Context {sock : Type} (send : sock -> list Z -> Z * sock).

(** The loop of [sendall]: the result, the bytes the socket took, and the socket.
    [None] is a loop that is still running after [fuel] rounds. *)
Fixpoint sendall (fuel : nat) (s : sock) (buf : list Z) : option (Z * list Z * sock) :=
  match buf with
  | [] => Some (0, [], s)
  | _ =>
    match fuel with
    | O => None
    | S n =>
        let '(sent, s) := send s buf in
        if sent <? 0 then Some (-1, [], s) else
        match sendall n s (skipn (Z.to_nat sent) buf) with
        | Some (r, taken, s) => Some (r, firstn (Z.to_nat sent) buf ++ taken, s)
        | None => None
        end
    end
  end.

(** [send] takes at least one byte, and at most what it is given, or fails. *)
Context (send_spec : forall s buf, buf <> [] ->
  let n := fst (send s buf) in n < 0 \/ 0 < n <= Z.of_nat (length buf)).

(** One round per byte is enough. *)
Lemma sendall_result fuel s buf :
  (length buf <= fuel)%nat ->
  exists r taken s', sendall fuel s buf = Some (r, taken, s') /\
    ((r = 0 /\ taken = buf) \/ (r = -1 /\ exists rest, rest <> [] /\ taken ++ rest = buf)).
Proof using send_spec.
  revert s buf. induction fuel as [| n IH]; intros s [| b buf] Hf; cbn [sendall];
    try (cbn in Hf; lia); try (do 3 eexists; split; [reflexivity | now left]).
  pose proof (send_spec s (b :: buf) ltac:(discriminate)) as HS. set (m := b :: buf) in *.
  destruct (send s m) as [sent s1]. cbn [fst] in HS.
  destruct (Z.ltb_spec sent 0) as [Hneg | Hpos].
  - do 3 eexists. split; [reflexivity |]. right. split; [reflexivity |]. exists m. now split.
  - destruct HS as [HS | HS]; [lia |].
    destruct (IH s1 (skipn (Z.to_nat sent) m)) as (r & taken & s' & -> & HC); [rewrite length_skipn; lia |].
    do 3 eexists. split; [reflexivity |].
    destruct HC as [(-> & ->) | (-> & rest & Hr & E)]; [left | right]; (split; [reflexivity |]).
    + apply firstn_skipn.
    + exists rest. split; [exact Hr |]. now rewrite <- app_assoc, E, firstn_skipn.
Qed.
End Sendall.

(** ** hexdump *)

Definition dot (c : Z) : Z := if (32 <? c) && (c <? 127) then c else 46.
Definition four_spaces : list Z := chars "    ".

(** What the loop prints for the byte at index [i] of [data]. *)
Definition hexdump_step (data : list Z) (i : nat) : list Z :=
  (if negb (i =? 0)%nat && (i mod 16 =? 0)%nat
   then four_spaces ++ map dot (firstn 16 (skipn (i - 16) data)) ++ [10] else []) ++
  fmt_02X (nth i data 0) ++ [32].

Definition hexdump (data : list Z) : list Z :=
  let len := length data in
  flat_map (hexdump_step data) (seq 0 len) ++
  (if negb (len mod 16 =? 0)%nat then concat (repeat (chars "   ") (16 - len mod 16)) else []) ++
  four_spaces ++ map dot (skipn (len - len mod 16) data) ++ [10].

(** ** start_tcp_connect *)

(** What the calls answer: [gethostbyname], [socket], [connect] and [errno]. *)
Record connect_io := ConnectIO { resolves : bool; new_sock : Z; connect_ret : Z; in_progress : bool }.

(** The result, [*need_finish] (unset when [socket] fails), and the socket left open. *)
Record connect_end := ConnectEnd { returned : Z; need_finish : option bool; opened : option Z }.

Definition start_tcp_connect (c : connect_io) : outcome connect_end :=
  if negb (resolves c) then Exit 1 else
  if new_sock c <? 0 then Ret (ConnectEnd (new_sock c) None None) else
  if connect_ret c =? 0 then Ret (ConnectEnd (new_sock c) (Some false) (Some (new_sock c))) else
  if in_progress c then Ret (ConnectEnd (new_sock c) (Some true) (Some (new_sock c)))
  else Ret (ConnectEnd (connect_ret c) (Some false) (Some (new_sock c))).

(** [init_service_connection] starts with [need_finish = 0]. *)
Definition to_connect_result (e : connect_end) : connect_result :=
  if returned e <? 0 then ConnectFails (returned e)
  else match need_finish e with
       | Some true => InProgress (returned e)
       | _ => Connected (returned e)
       end.

(** ** get_port and get_remote_addr *)

Definition ntohs (x : Z) : Z := 256 * (x mod 256) + x / 256 mod 256.

(** [getsockname] answers [r] and, when it succeeds, the port in network order. *)
Definition get_port (r sin_port : Z) : Z := if negb (r =? 0) then r else ntohs sin_port.

(** [memcpy] of four bytes into an [unsigned long]: its other four bytes stay. *)
Definition get_remote_addr (r s_addr out_addr : Z) : Z * Z :=
  if negb (r =? 0) then (r, out_addr) else (0, out_addr / 2 ^ 32 * 2 ^ 32 + s_addr).

(** ** Theorems *)

(** [sendall] returns (in at most one round per byte): 0 with the whole buffer handed
    to the socket in order, or -1 with a proper prefix of it, never a byte twice. *)
Theorem sendall_correct {sock} (send : sock -> list Z -> Z * sock)
    (send_spec : forall s buf, buf <> [] ->
       let n := fst (send s buf) in n < 0 \/ 0 < n <= Z.of_nat (length buf)) s buf :
  exists r taken s', sendall send (length buf) s buf = Some (r, taken, s') /\
    ((r = 0 /\ taken = buf) \/ (r = -1 /\ exists rest, rest <> [] /\ taken ++ rest = buf)).
Proof. now apply sendall_result. Qed.

(** A socket with room for [s] bytes that takes at most two at a time. *)
Definition toy_send (s : Z) (buf : list Z) : Z * Z :=
  if s <=? 0 then (-1, s) else
  let n := Z.min 2 (Z.min s (Z.of_nat (length buf))) in (n, s - n).

Lemma sendall_correct_witness :
  sendall toy_send 5 9 [1; 2; 3; 4; 5] = Some (0, [1; 2; 3; 4; 5], 4) /\
  sendall toy_send 5 3 [1; 2; 3; 4; 5] = Some (-1, [1; 2; 3], 0) /\
  exists r taken s', sendall toy_send 5 9 [1; 2; 3; 4; 5] = Some (r, taken, s') /\
    ((r = 0 /\ taken = [1; 2; 3; 4; 5]) \/ (r = -1 /\ exists rest, rest <> [] /\ taken ++ rest = [1; 2; 3; 4; 5])).
Proof.
  split; [reflexivity | split; [reflexivity |]].
  refine (sendall_correct toy_send _ 9 [1; 2; 3; 4; 5]).
  intros s [| b buf] Hb; [contradiction |]. unfold toy_send.
  destruct (Z.leb_spec s 0); cbn [fst length]; lia.
Defined.

(** When the length is a multiple of 16 the last row has no text column. *)
Lemma hexdump_full_row data :
  (length data mod 16 = 0)%nat ->
  hexdump data = flat_map (hexdump_step data) (seq 0 (length data)) ++ four_spaces ++ [10].
Proof.
  intros H. unfold hexdump. rewrite H. cbn [Nat.eqb negb]. rewrite Nat.sub_0_r, skipn_all. reflexivity.
Qed.

Example hexdump_sixteen :
  hexdump (chars "telex station 16") = chars "74 65 6C 65 78 20 73 74 61 74 69 6F 6E 20 31 36     " ++ [10].
Proof. reflexivity. Qed.

Example hexdump_seventeen :
  hexdump (chars "telex station 17!") =
  chars "74 65 6C 65 78 20 73 74 61 74 69 6F 6E 20 31 37     telex.station.17" ++ [10] ++
  chars "21                                                  !" ++ [10].
Proof. reflexivity. Qed.

(** What [init_service_connection] makes of [start_tcp_connect]: a connected or a
    connecting socket is handed on with the right flag; a failure gives a negative
    result, and when [connect] itself failed the socket stays open and is lost. *)
Theorem start_tcp_connect_result c e :
  start_tcp_connect c = Ret e -> connect_ret c <= 0 ->
  match to_connect_result e with
  | ConnectFails r => r < 0 /\
      (opened e = None <-> new_sock c < 0) /\ (0 <= new_sock c -> opened e = Some (new_sock c))
  | Connected fd => fd = new_sock c /\ opened e = Some fd /\ connect_ret c = 0
  | InProgress fd => fd = new_sock c /\ opened e = Some fd /\ in_progress c = true
  end.
Proof.
  unfold start_tcp_connect. destruct (resolves c); [| discriminate]. cbn [negb].
  destruct (Z.ltb_spec (new_sock c) 0) as [Hs | Hs].
  - intros [= <-] _. unfold to_connect_result. cbn [returned opened need_finish].
    rewrite (proj2 (Z.ltb_lt _ _) Hs). repeat split; auto; lia.
  - destruct (Z.eqb_spec (connect_ret c) 0) as [H0 | H0]; [| destruct (in_progress c) eqn:Ei];
      intros [= <-] Hc; unfold to_connect_result; cbn [returned opened need_finish].
    1,2: rewrite (proj2 (Z.ltb_ge _ _) Hs); auto.
    rewrite (proj2 (Z.ltb_lt _ 0)) by lia. repeat split; auto; [lia | discriminate | lia].
Qed.

Lemma start_tcp_connect_result_witness :
  start_tcp_connect (ConnectIO true 12 (-1) false) = Ret (ConnectEnd (-1) (Some false) (Some 12)) /\
  (0 <= 12 -> opened (ConnectEnd (-1) (Some false) (Some 12)) = Some 12).
Proof.
  split; [reflexivity |].
  exact (proj2 (proj2 (start_tcp_connect_result (ConnectIO true 12 (-1) false)
    (ConnectEnd (-1) (Some false) (Some 12)) eq_refl ltac:(cbn; lia)))).
Defined.
