(* ===== verification/FlowBlock.v ===== *)
(** * The flow blocker

    The station side, [station/net/telex_block_flow.c], which sends a 13-byte message
    per flow to block or unblock; the router side, [router/flow-blocker/flow_blocker.c],
    which decodes it, changes the kernel's set through [telex_ipset.c] and
    [common/libaddipportip.c], and schedules an unblock for every message it gets.

    An address is the 32-bit [s_addr], a port the 16-bit value in network order, as
    the structures hold them.  The kernel's set holds the elements by their text; the
    answers of libipset and of the system calls are inputs. *)
From S2P Require Import Prelude Bytes CLib Logger Client TelexUtil.
From stdpp Require Import gmap list.
From Stdlib Require Import String ZArith Lia List Bool.
Import ListNotations.
Open Scope Z_scope.
Open Scope list_scope.

(** ** The message *)

Definition BLOCK_FLOW_MSG_LENGTH : Z := 1 + 4 + 2 + 4 + 2.

(** [struct flow] of flow_blocker.c, without its event. *)
Record bflow := BFlow { addr1 : Z; port1 : Z; addr2 : Z; port2 : Z }.

#[export] Instance bflow_eq_dec : EqDecision bflow.
Proof. solve_decision. Defined.

(** The message that [telex_remote_mod_flow] sends, and the whole call: [AF_INET] is
    asserted, the result is [sendall]'s. *)
Definition flow_msg (f : bflow) (block : Z) : list Z :=
  [if block =? 0 then 0 else 1] ++
  le_bytes 4 (addr1 f) ++ le_bytes 2 (port1 f) ++ le_bytes 4 (addr2 f) ++ le_bytes 2 (port2 f).

Definition AF_INET : Z := 2.

Definition telex_remote_mod_flow {sock} (send : sock -> list Z -> Z * sock) (s : sock)
    (f : bflow) (address_family block : Z) : outcome (option (Z * list Z * sock)) :=
  if negb (address_family =? AF_INET) then Abrt else
  let msg := flow_msg f block in
  if negb (Z.of_nat (length msg) =? BLOCK_FLOW_MSG_LENGTH) then Abrt else
  Ret (sendall send (length msg) s msg).

(** [telex_connect_to_flow_blocker]: the result, and whether [*error_str] is set.  The
    inputs are what [getaddrinfo], [socket] and [connect] return, and [errno]. *)
Definition telex_connect_to_flow_blocker (gai fd connect_r errno : Z) : Z * bool :=
  if negb (gai =? 0) then (gai, true) else
  if fd =? -1 then (errno, true) else
  if connect_r =? -1 then (errno, true) else (fd, false).

(** The decoding part of [on_read_ready]. *)
Definition decode_msg (msg : list Z) : Z * bflow :=
  let block := if nth 0 msg 0 =? 0 then 0 else 1 in
  let p := skipn 1 msg in
  let addr1 := le_value (firstn 4 p) in let p := skipn 4 p in
  let port1 := le_value (firstn 2 p) in let p := skipn 2 p in
  let addr2 := le_value (firstn 4 p) in let p := skipn 4 p in
  let port2 := le_value (firstn 2 p) in
  (block, BFlow addr1 port1 addr2 port2).

(** ** The kernel's set *)

(** [inet_ntop(AF_INET, ...)] of the four bytes in memory. *)
Definition inet_ntop (addr : Z) : list Z :=
  match le_bytes 4 addr with
  | [a; b; c; d] => fmt_u a ++ [46] ++ fmt_u b ++ [46] ++ fmt_u c ++ [46] ++ fmt_u d
  | _ => []
  end.

(** [sprintf(ipset_fake_arg, "%s,%d,%s", ip1, port, ip2)] and its buffer. *)
Definition ipset_fake_arg (ip1 : list Z) (port : Z) (ip2 : list Z) : list Z :=
  ip1 ++ [44] ++ fmt_d port ++ [44] ++ ip2.
Definition INET_ADDRSTRLEN : Z := 16.
Definition ipset_fake_arg_size : Z := INET_ADDRSTRLEN * 2 + 5 + 1.

(** What libipset answers: [ipset_parse_setname], [ipset_type_get],
    [ipset_parse_elem], and the report of the session. *)
Record ipset_io := IpsetIO {
  setname_r : Z; type_found : bool; elem_r : Z; warning : bool; quiet : bool; error : bool }.

Definition handle_error (io : ipset_io) : outcome Z :=
  if warning io && negb (quiet io) then Ret 0 else
  if error io then Ret 1 else Exit (-1).


(** [ipset_cmd]: adding what is there, or deleting what is not, fails. *)
Definition ipset_cmd (block : Z) (e : list Z) (set : gset (list Z)) : Z * gset (list Z) :=
  if block =? 0
  then if decide (e ∈ set) then (0, set ∖ {[ e ]}) else (-1, set)
  else if decide (e ∈ set) then (-1, set) else (0, set ∪ {[ e ]}).

Definition add_ipportip (io : ipset_io) (set : gset (list Z)) (ip1 : list Z) (port : Z) (ip2 : list Z)
    (block : Z) : outcome (Z * gset (list Z)) :=
  let arg := ipset_fake_arg ip1 port ip2 in
  let fail := obind (handle_error io) (fun r => Ret (r, set)) in
  if setname_r io <? 0 then fail else
  if negb (type_found io) then fail else
  if elem_r io <? 0 then fail else
  if negb (elem_r io =? 0) then Ret (elem_r io, set) else
  let '(r, set') := ipset_cmd block arg set in
  if r <? 0 then obind (handle_error io) (fun _ => Ret (r, set')) else Ret (r, set').

(** [send_iptables_flow_command], which leaves [dport] out, and [telex_local_mod_flow]. *)
Definition send_iptables_flow_command (io : ipset_io) (set : gset (list Z)) (sip : list Z) (sport : Z)
    (dip : list Z) (dport : Z) (block : Z) : outcome (gset (list Z)) :=
  obind (add_ipportip io set dip sport sip block) (fun r => Ret (snd r)).

Definition telex_local_mod_flow (io : ipset_io) (set : gset (list Z)) (f : bflow) (block : Z) : outcome (gset (list Z)) :=
  send_iptables_flow_command io set (inet_ntop (addr1 f)) (ntohs (port1 f))
    (inet_ntop (addr2 f)) (ntohs (port2 f)) block.

(** The element of a flow. *)
Definition flow_elem (f : bflow) : list Z :=
  ipset_fake_arg (inet_ntop (addr2 f)) (ntohs (port1 f)) (inet_ntop (addr1 f)).

(** ** The daemon *)

Definition FLOW_TIMEOUT : Z := 30 * 60 * 60.
Definition UNBLOCK : Z := 0.

(** The clock, the kernel's set, and the scheduled [unblock_flow] events. *)
Record blocker := Blocker { clock : Z; kernel : gset (list Z); timers : list (Z * bflow) }.

Definition unblock_flow (io : ipset_io) (b : blocker) (f : bflow) : outcome blocker :=
  obind (telex_local_mod_flow io (kernel b) f UNBLOCK)
    (fun set => Ret (Blocker (clock b) set (timers b))).

(** [on_read_ready]: [recv] returned [status] and filled [msg]; the second result says
    whether the connection is kept. *)
Definition on_read_ready (io : ipset_io) (status : Z) (msg : list Z) (b : blocker)
    : outcome (blocker * bool) :=
  if status <? BLOCK_FLOW_MSG_LENGTH then Ret (b, negb (status <=? 0)) else
  let '(block, f) := decode_msg msg in
  obind (telex_local_mod_flow io (kernel b) f block)
    (fun set => Ret (Blocker (clock b) set (timers b ++ [(clock b + FLOW_TIMEOUT, f)]), true)).

(** The event loop at time [now]: the events that are due run in order; all have the
    same delay, so they are queued in the order they are due. *)
Fixpoint run_timers (io : ipset_io) (now : Z) (set : gset (list Z)) (ts : list (Z * bflow)) : outcome blocker :=
  match ts with
  | (due, f) :: r =>
      if due <=? now
      then obind (unblock_flow io (Blocker now set r) f) (fun b => run_timers io now (kernel b) r)
      else Ret (Blocker now set ts)
  | [] => Ret (Blocker now set [])
  end.

Definition tick (io : ipset_io) (now : Z) (b : blocker) : outcome blocker :=
  run_timers io now (kernel b) (timers b).

(** [main]: its return code, or the address and port it listens on. *)
Definition flow_blocker_main (argc : Z) (ip : option Z) (listen_port : Z)
    (sock_ok bind_ok listen_ok : bool) : Z + (Z * Z) :=
  if negb (argc =? 3) then inl 1 else
  match ip with
  | None => inl 1
  | Some a =>
      if (listen_port =? 0) || (65536 <=? listen_port) then inl 1 else
      if negb sock_ok then inl 2 else
      if negb bind_ok then inl 2 else
      if negb listen_ok then inl 2 else inr (a, listen_port)
  end.

(** ** The life of the daemon *)

(** Answers for which libipset works: errors are those of [ipset_cmd] only. *)
Definition io_fine (io : ipset_io) : Prop :=
  0 <= setname_r io /\ type_found io = true /\ elem_r io = 0 /\
  (warning io && negb (quiet io) = true \/ error io = true).

(** From an empty set: messages with any answers, time passing with good ones. *)
Inductive reachable : blocker -> Prop :=
| reach_start t : reachable (Blocker t ∅ [])
| reach_msg b io status msg b' keep :
    reachable b -> on_read_ready io status msg b = Ret (b', keep) -> reachable b'
| reach_tick b io now b' :
    reachable b -> clock b <= now -> io_fine io -> tick io now b = Ret b' -> reachable b'.

(** ** The message round trip *)

Definition flow_ok (f : bflow) : Prop :=
  in_width 32 (addr1 f) /\ in_width 16 (port1 f) /\ in_width 32 (addr2 f) /\ in_width 16 (port2 f).

Lemma flow_msg_length f block : length (flow_msg f block) = 13%nat.
Proof. reflexivity. Qed.

Lemma decode_flow_msg f block :
  flow_ok f -> decode_msg (flow_msg f block) = (if block =? 0 then 0 else 1, f).
Proof.
  intros (H1 & H2 & H3 & H4). unfold flow_msg, decode_msg. cbn [nth app]. rewrite skipn_cons, skipn_O.
  rewrite (firstn_exact 4), (skipn_exact 4) by apply le_bytes_length.
  rewrite (firstn_exact 2), (skipn_exact 2) by apply le_bytes_length.
  rewrite (firstn_exact 4), (skipn_exact 4) by apply le_bytes_length.
  rewrite (firstn_all2 (n := 2)) by now rewrite le_bytes_length.
  rewrite !le_value_bytes, !Z.mod_small by assumption.
  destruct (block =? 0), f; reflexivity.
Qed.

(** ** The element text *)

Lemma ntohs_width p : in_width 16 p -> 0 <= ntohs p < 65536.
Proof. unfold ntohs, in_width. intros H. pose proof (Z.mod_pos_bound p 256). pose proof (Z.mod_pos_bound (p / 256) 256). lia. Qed.

Lemma fmt_d_nonneg n : 0 <= n -> fmt_d n = fmt_u n.
Proof. intros H. unfold fmt_d. now rewrite (proj2 (Z.ltb_ge n 0)). Qed.

Lemma dec_digits_bound f n acc k :
  0 <= n < 10 ^ Z.of_nat (S k) -> (length (dec_digits f n acc) <= S k + length acc)%nat.
Proof.
  revert n acc k. induction f as [| f IH]; intros n acc k Hn; cbn [dec_digits]; [lia |].
  destruct (Z.eqb_spec (n / 10) 0) as [E | E]; [cbn; lia |].
  destruct k as [| k]; [cbn in Hn; rewrite Z.div_small in E; lia |].
  assert (0 <= n / 10 < 10 ^ Z.of_nat (S k)) as H.
  { split; [apply Z.div_pos; lia |]. apply Z.div_lt_upper_bound; [lia |].
    rewrite <- Z.pow_succ_r by lia. now rewrite <- Nat2Z.inj_succ. }
  specialize (IH (n / 10) ((48 + n mod 10) :: acc) k H). cbn [length] in IH. lia.
Qed.

Lemma fmt_u_bound n k : 0 <= n < 10 ^ Z.of_nat (S k) -> (length (fmt_u n) <= S k)%nat.
Proof. intros H. pose proof (dec_digits_bound 10 n [] k H). cbn [length] in *. unfold fmt_u. lia. Qed.

Lemma inet_ntop_split addr : exists a b c d, is_byte a /\ is_byte b /\ is_byte c /\ is_byte d /\
  le_bytes 4 addr = [a; b; c; d] /\
  inet_ntop addr = fmt_u a ++ [46] ++ fmt_u b ++ [46] ++ fmt_u c ++ [46] ++ fmt_u d.
Proof.
  pose proof (le_bytes_bytes 4 addr) as HB. unfold inet_ntop.
  destruct (le_bytes 4 addr) as [| a [| b [| c [| d [| e r]]]]] eqn:E; try discriminate.
  exists a, b, c, d. repeat match goal with H : Forall _ _ |- _ => inversion_clear H end. auto 7.
Qed.

Lemma inet_ntop_length addr : Z.of_nat (length (inet_ntop addr)) < INET_ADDRSTRLEN.
Proof.
  destruct (inet_ntop_split addr) as (a & b & c & d & Ha & Hb & Hc & Hd & _ & ->).
  assert (forall x, is_byte x -> (length (fmt_u x) <= 3)%nat) as K
    by (intros x Hx; apply fmt_u_bound; cbn; unfold is_byte in Hx; lia).
  pose proof (K _ Ha). pose proof (K _ Hb). pose proof (K _ Hc). pose proof (K _ Hd).
  rewrite !length_app. unfold INET_ADDRSTRLEN. cbn [length]. lia.
Qed.

(** Two texts that agree and are cut by a separator that neither first part contains. *)
Lemma cut_inj (sep : Z) u v u' v' :
  Forall (fun c => c <> sep) u -> Forall (fun c => c <> sep) u' ->
  u ++ [sep] ++ v = u' ++ [sep] ++ v' -> u = u' /\ v = v'.
Proof.
  intros H. revert u'. induction H as [| c u Hc _ IH]; intros u' H' E.
  - destruct H' as [| c' u' Hc' _]; cbn in E; injection E; [auto | congruence].
  - destruct H' as [| c' u' Hc' H']; cbn in E; [injection E; congruence |].
    injection E as -> E. destruct (IH u' H' E) as [-> ->]. auto.
Qed.

Lemma digits_no n sep : (sep < 48 \/ 57 < sep) -> Forall (fun c => c <> sep) (fmt_u n).
Proof. intros H. pose proof (fmt_u_digits n) as HD. induction HD; constructor; auto. lia. Qed.

Lemma fmt_u_inj m n : 0 <= m < 10 ^ 10 -> 0 <= n < 10 ^ 10 -> fmt_u m = fmt_u n -> m = n.
Proof. intros Hm Hn E. rewrite <- (strtol_fmt_u m Hm), <- (strtol_fmt_u n Hn). now rewrite E. Qed.

Lemma inet_ntop_no_comma addr : Forall (fun c => c <> 44) (inet_ntop addr).
Proof.
  destruct (inet_ntop_split addr) as (a & b & c & d & _ & _ & _ & _ & _ & ->).
  repeat (apply Forall_app; split); try (apply digits_no; lia); repeat constructor; lia.
Qed.

Lemma inet_ntop_inj a b : in_width 32 a -> in_width 32 b -> inet_ntop a = inet_ntop b -> a = b.
Proof.
  intros Ha Hb. destruct (inet_ntop_split a) as (a0 & a1 & a2 & a3 & A0 & A1 & A2 & A3 & LA & ->).
  destruct (inet_ntop_split b) as (b0 & b1 & b2 & b3 & B0 & B1 & B2 & B3 & LB & ->).
  unfold is_byte in *. intros E.
  apply cut_inj in E as [E0 E]; try (apply digits_no; lia).
  apply cut_inj in E as [E1 E]; try (apply digits_no; lia).
  apply cut_inj in E as [E2 E3]; try (apply digits_no; lia).
  apply fmt_u_inj in E0, E1, E2, E3; try lia. subst.
  rewrite <- LB in LA. apply (f_equal le_value) in LA.
  rewrite !le_value_bytes, !Z.mod_small in LA; assumption.
Qed.

Lemma ntohs_inj p q : in_width 16 p -> in_width 16 q -> ntohs p = ntohs q -> p = q.
Proof.
  unfold ntohs, in_width. intros Hp Hq E.
  assert (forall x, 0 <= x < 2 ^ 16 -> x / 256 mod 256 = x / 256) as K
    by (intros x Hx; apply Z.mod_small; split; [apply Z.div_pos; lia | apply Z.div_lt_upper_bound; lia]).
  rewrite !K in E by assumption.
  pose proof (div_mod_split p 256 ltac:(lia)). pose proof (div_mod_split q 256 ltac:(lia)).
  assert (p / 256 < 256 /\ q / 256 < 256) by (split; apply Z.div_lt_upper_bound; lia). lia.
Qed.

(** The element names the addresses and the client's port, and nothing else. *)
Lemma flow_elem_inj f g : flow_ok f -> flow_ok g ->
  flow_elem f = flow_elem g <-> addr1 f = addr1 g /\ port1 f = port1 g /\ addr2 f = addr2 g.
Proof.
  intros (F1 & F2 & F3 & _) (G1 & G2 & G3 & _). split; [| unfold flow_elem; now intros (-> & -> & ->)].
  unfold flow_elem, ipset_fake_arg. intros E.
  pose proof (ntohs_width _ F2). pose proof (ntohs_width _ G2).
  rewrite !fmt_d_nonneg in E by lia.
  apply cut_inj in E as [E0 E]; try apply inet_ntop_no_comma.
  apply cut_inj in E as [E1 E2]; try (apply digits_no; lia).
  apply inet_ntop_inj in E0, E2; try assumption. apply fmt_u_inj in E1; try lia.
  apply ntohs_inj in E1; auto.
Qed.

(** ** What a command does to the set *)

Lemma local_mod_cases io set f block set' :
  telex_local_mod_flow io set f block = Ret set' ->
  set' = set \/ (block = 0 /\ set' = set ∖ {[ flow_elem f ]}) \/ (block <> 0 /\ set' = set ∪ {[ flow_elem f ]}).
Proof.
  unfold telex_local_mod_flow, send_iptables_flow_command, add_ipportip, ipset_cmd.
  change (ipset_fake_arg _ _ _) with (flow_elem f). generalize (flow_elem f) as e. intros e.
  destruct (setname_r io <? 0), (type_found io), (elem_r io <? 0), (elem_r io =? 0), (handle_error io);
    cbn; try (intros [= <-]; now left); try discriminate;
    destruct (Z.eqb_spec block 0), (decide (e ∈ set)); cbn; try discriminate; intros [= <-]; auto.
Qed.

Lemma local_mod_fine io set f block :
  io_fine io ->
  telex_local_mod_flow io set f block =
  Ret (if block =? 0 then set ∖ {[ flow_elem f ]} else set ∪ {[ flow_elem f ]}).
Proof.
  intros (Hs & Ht & He & Hr). unfold telex_local_mod_flow, send_iptables_flow_command, add_ipportip, ipset_cmd.
  change (ipset_fake_arg _ _ _) with (flow_elem f).
  rewrite (proj2 (Z.ltb_ge _ _) Hs), Ht, He. cbn [negb Z.ltb Z.compare Z.eqb].
  assert (exists r, handle_error io = Ret r) as [r ->]
    by (unfold handle_error; destruct Hr as [-> | ->]; [eauto |]; case_match; eauto).
  clear Hs Ht He Hr. generalize (flow_elem f) as e. intros e.
  destruct (block =? 0), (decide (e ∈ set)) as [H | H]; cbn; try reflexivity; f_equal; apply set_eq; set_solver.
Qed.

Lemma run_timers_fine io now set ts :
  io_fine io -> exists b, run_timers io now set ts = Ret b /\ clock b = now /\
    kernel b ⊆ set /\
    (forall due f, In (due, f) ts -> In (due, f) (timers b) \/ (due <= now /\ flow_elem f ∉ kernel b)) /\
    (forall x, In x (timers b) -> In x ts) /\
    (forall e, e ∈ set -> (forall due f, In (due, f) ts -> flow_elem f = e -> now < due) -> e ∈ kernel b).
Proof.
  intros Hio. revert set. induction ts as [| [due f] ts IH]; intros set; cbn [run_timers].
  - eexists. split; [reflexivity |]. cbn. repeat split; auto.
  - destruct (Z.leb_spec due now) as [Hd | Hd].
    + unfold unblock_flow. cbn [kernel]. rewrite local_mod_fine by exact Hio.
      change (UNBLOCK =? 0) with true. cbv iota. cbn [obind kernel].
      destruct (IH (set ∖ {[ flow_elem f ]})) as (b & E & Hc & Hsub & Ht & Hin & Hkeep).
      exists b. rewrite E. repeat split; auto; [set_solver | | intros x Hx; right; now apply Hin |].
      * intros due' f' [[= <- <-] | Hf]; [right; split; [lia | set_solver] | now apply Ht].
      * intros e He Hn. apply Hkeep; [| intros due' f' Hin'; apply Hn; now right].
        apply elem_of_difference. split; [exact He |]. intros ->%elem_of_singleton.
        specialize (Hn due f (or_introl eq_refl) eq_refl). lia.
    + eexists. split; [reflexivity |]. cbn. repeat split; auto.
Qed.

Lemma run_timers_all io now set ts b :
  io_fine io -> run_timers io now set ts = Ret b -> (forall due f, In (due, f) ts -> due <= now) -> timers b = [].
Proof.
  intros Hio. revert set. induction ts as [| [due f] ts IH]; intros set E Ha; cbn [run_timers] in E.
  - now injection E as <-.
  - rewrite (proj2 (Z.leb_le due now)) in E by (apply (Ha due f); now left).
    unfold unblock_flow in E. rewrite local_mod_fine in E by exact Hio. cbn [obind kernel] in E.
    eapply IH; [exact E |]. intros due' f' Hd. apply (Ha due' f'). now right.
Qed.

Lemma run_timers_head io now set due f ts b :
  io_fine io -> due <= now -> run_timers io now set ((due, f) :: ts) = Ret b -> flow_elem f ∉ kernel b.
Proof.
  intros Hio Hd E. cbn [run_timers] in E. rewrite (proj2 (Z.leb_le due now) Hd) in E.
  unfold unblock_flow in E. rewrite local_mod_fine in E by exact Hio. cbn [obind kernel] in E.
  change (UNBLOCK =? 0) with true in E. cbv iota in E.
  destruct (run_timers_fine io now (set ∖ {[ flow_elem f ]}) ts Hio) as (b0 & E0 & _ & Hsub & _).
  rewrite E0 in E. injection E as ->. set_solver.
Qed.

(** ** Every block has a timer *)

Definition all_timed (b : blocker) : Prop :=
  (forall e, e ∈ kernel b -> exists due f, In (due, f) (timers b) /\ flow_elem f = e) /\
  (forall due f, In (due, f) (timers b) -> due <= clock b + FLOW_TIMEOUT).

Lemma msg_timed io status msg b b' keep :
  on_read_ready io status msg b = Ret (b', keep) -> all_timed b -> all_timed b'.
Proof.
  unfold on_read_ready. destruct (status <? BLOCK_FLOW_MSG_LENGTH); [now intros [= <- _] |].
  destruct (decode_msg msg) as [block f].
  destruct (telex_local_mod_flow io (kernel b) f block) as [set | |] eqn:E; cbn [obind]; [| discriminate..].
  intros [= <- _] [Hk Ht]. unfold all_timed. cbn [kernel timers clock]. split.
  - intros e He. apply local_mod_cases in E.
    assert (e ∈ kernel b \/ e = flow_elem f) as [K | ->] by set_solver.
    + destruct (Hk e K) as (due & g & Hin & Hg). exists due, g. rewrite in_app_iff. auto.
    + exists (clock b + FLOW_TIMEOUT), f. rewrite in_app_iff. split; [right; now left | reflexivity].
  - intros due g. rewrite in_app_iff. intros [Hin | [[= <- <-] | []]]; [now apply (Ht due g) | lia].
Qed.

Lemma tick_timed io now b b' :
  tick io now b = Ret b' -> io_fine io -> clock b <= now -> all_timed b -> all_timed b'.
Proof.
  intros E Hio Hn [Hk Ht]. unfold tick in E.
  destruct (run_timers_fine io now (kernel b) (timers b) Hio) as (b0 & E0 & Hc & Hsub & Hf & Hin & _).
  rewrite E0 in E. injection E as ->. split.
  - intros e He. destruct (Hk e (Hsub e He)) as (due & f & Hd & <-).
    destruct (Hf due f Hd) as [K | [_ K]]; [eauto | contradiction].
  - intros due f Hd. rewrite Hc. specialize (Ht due f (Hin _ Hd)). lia.
Qed.

Lemma reachable_timed b : reachable b -> all_timed b.
Proof.
  induction 1 as [t | b io status msg b' keep _ IH E | b io now b' _ IH Hn Hio E].
  - split; [set_solver | now intros ? ? []].
  - exact (msg_timed _ _ _ _ _ _ E IH).
  - exact (tick_timed _ _ _ _ E Hio Hn IH).
Qed.

(** ** A block lasts *)

(** Time passes, up to before [limit], and messages arrive for flows of other elements. *)
Inductive others (e : list Z) (limit : Z) : blocker -> blocker -> Prop :=
| others_none b : others e limit b b
| others_msg b b1 b2 io status msg keep :
    others e limit b b1 -> flow_elem (snd (decode_msg msg)) <> e ->
    on_read_ready io status msg b1 = Ret (b2, keep) -> others e limit b b2
| others_tick b b1 b2 io now :
    others e limit b b1 -> now < limit -> io_fine io -> tick io now b1 = Ret b2 -> others e limit b b2.

Lemma others_keep e limit b b' :
  others e limit b b' ->
  e ∈ kernel b -> (forall due f, In (due, f) (timers b) -> flow_elem f = e -> limit <= due) ->
  e ∈ kernel b' /\ (forall due f, In (due, f) (timers b') -> flow_elem f = e -> limit <= due).
Proof.
  induction 1 as [b | b b1 b2 io status msg keep _ IH Hne E | b b1 b2 io now _ IH Hn Hio E]; intros He Ht.
  - auto.
  - destruct (IH He Ht) as [He1 Ht1]. unfold on_read_ready in E.
    destruct (status <? BLOCK_FLOW_MSG_LENGTH); [injection E as <- _; auto |].
    destruct (decode_msg msg) as [block f]. cbn [snd] in Hne.
    destruct (telex_local_mod_flow io (kernel b1) f block) as [set | |] eqn:EL; cbn [obind] in E; [| discriminate..].
    injection E as <- _. cbn [kernel timers]. apply local_mod_cases in EL. split; [set_solver |].
    intros due g. rewrite in_app_iff. intros [Hin | [[= <- <-] | []]] Hg; [eauto | contradiction].
  - destruct (IH He Ht) as [He1 Ht1]. unfold tick in E.
    destruct (run_timers_fine io now (kernel b1) (timers b1) Hio) as (b0 & E0 & _ & _ & _ & Hin & Hkeep).
    rewrite E0 in E. injection E as ->. split; [| intros; eauto].
    apply Hkeep; [exact He1 |]. intros due f Hd Hf. specialize (Ht1 due f Hd Hf). lia.
Qed.

(** ** Theorems *)

(** Answers of a libipset that works. *)
Definition io_good : ipset_io := IpsetIO 0 true 0 false false true.

Lemma io_good_fine : io_fine io_good.
Proof. unfold io_fine. cbn. auto with zarith. Qed.

(** A message that arrives whole, with a libipset that works. *)
Lemma on_read_ready_msg io f block b :
  io_fine io -> flow_ok f ->
  on_read_ready io 13 (flow_msg f block) b =
  Ret (Blocker (clock b)
         (if block =? 0 then kernel b ∖ {[ flow_elem f ]} else kernel b ∪ {[ flow_elem f ]})
         (timers b ++ [(clock b + FLOW_TIMEOUT, f)]), true).
Proof.
  intros Hio Hf. unfold on_read_ready. change (13 <? BLOCK_FLOW_MSG_LENGTH) with false. cbv iota.
  rewrite decode_flow_msg by exact Hf. rewrite local_mod_fine by exact Hio. cbn [obind].
  destruct (block =? 0); reflexivity.
Qed.

(** C37: the station and the router agree on the message: 13 bytes, sent whole when
    [sendall] returns 0, and decoded to the flow and the command that were sent. *)
Theorem flow_message_roundtrip {sock} (send : sock -> list Z -> Z * sock)
    (send_spec : forall s buf, buf <> [] ->
       let n := fst (send s buf) in n < 0 \/ 0 < n <= Z.of_nat (length buf)) s f block :
  flow_ok f ->
  exists r wire s', telex_remote_mod_flow send s f AF_INET block = Ret (Some (r, wire, s')) /\
    (r = 0 -> Z.of_nat (length wire) = BLOCK_FLOW_MSG_LENGTH /\
              decode_msg wire = (if block =? 0 then 0 else 1, f)) /\
    (r <> 0 -> r = -1 /\ Z.of_nat (length wire) < BLOCK_FLOW_MSG_LENGTH).
Proof.
  intros Hf. unfold telex_remote_mod_flow. change (negb (AF_INET =? AF_INET)) with false. cbv iota zeta.
  rewrite flow_msg_length. change (negb (Z.of_nat 13 =? BLOCK_FLOW_MSG_LENGTH)) with false. cbv iota.
  destruct (sendall_result send send_spec 13 s (flow_msg f block)) as (r & taken & s' & E & HC);
    [now rewrite flow_msg_length |].
  rewrite E. exists r, taken, s'. split; [reflexivity |].
  destruct HC as [[-> ->] | (-> & rest & Hr & Hw)].
  - split; [| congruence]. intros _. split; [now rewrite flow_msg_length | now apply decode_flow_msg].
  - split; [discriminate |]. intros _. split; [reflexivity |].
    apply (f_equal (@length Z)) in Hw. rewrite flow_msg_length, length_app in Hw.
    destruct rest; [contradiction |]. cbn in Hw. unfold BLOCK_FLOW_MSG_LENGTH. lia.
Qed.

Definition flow_443 : bflow := BFlow 0x0100000a 0x39c2 0x04030201 0xbb01.

Lemma flow_443_ok : flow_ok flow_443.
Proof. unfold flow_ok, in_width. cbn. lia. Qed.

Lemma flow_message_roundtrip_witness :
  telex_remote_mod_flow toy_send 99 flow_443 AF_INET 1 =
    Ret (Some (0, [1; 10; 0; 0; 1; 0xc2; 0x39; 1; 2; 3; 4; 1; 0xbb], 86)) /\
  exists r wire s', telex_remote_mod_flow toy_send 99 flow_443 AF_INET 1 = Ret (Some (r, wire, s')) /\
    (r = 0 -> decode_msg wire = (1, flow_443)).
Proof.
  split; [reflexivity |].
  destruct (flow_message_roundtrip toy_send
    ltac:(intros s [| b buf] Hb; [contradiction |]; unfold toy_send;
          destruct (Z.leb_spec s 0); cbn [fst length]; lia)
    99 flow_443 1 flow_443_ok) as (r & wire & s' & E & D & _).
  exists r, wire, s'. split; [exact E |]. intros Hr. apply (D Hr).
Defined.

(** No flow stays blocked for ever: in every reachable state each blocked element
    has a scheduled unblock at most [FLOW_TIMEOUT] away, and once that time has passed
    without messages the kernel's set is empty. *)
Theorem blocked_flow_expires b :
  reachable b ->
  (forall e, e ∈ kernel b -> exists due f, In (due, f) (timers b) /\ flow_elem f = e /\
     due <= clock b + FLOW_TIMEOUT) /\
  (forall io now, io_fine io -> clock b + FLOW_TIMEOUT <= now ->
     exists b', tick io now b = Ret b' /\ kernel b' = ∅).
Proof.
  intros HR. destruct (reachable_timed b HR) as [Hk Ht]. split.
  - intros e He. destruct (Hk e He) as (due & f & Hin & Hf). exists due, f. eauto.
  - intros io now Hio Hn. destruct (run_timers_fine io now (kernel b) (timers b) Hio)
      as (b' & E & _ & Hsub & Hfire & Hin & _). exists b'. split; [exact E |].
    assert (timers b' = []) as Hnil.
    { apply (run_timers_all io now (kernel b) (timers b) b' Hio E).
      intros due f Hd. specialize (Ht due f Hd). lia. }
    apply set_eq. intros e. split; [| set_solver]. intros He.
    destruct (Hk e (Hsub e He)) as (due & f & Hd & <-).
    destruct (Hfire due f Hd) as [Hd' | [_ Hx]]; [now rewrite Hnil in Hd' | contradiction].
Qed.

Lemma blocked_flow_expires_witness :
  exists b', tick io_good (100 + FLOW_TIMEOUT)
    (Blocker 100 (∅ ∪ {[ flow_elem flow_443 ]}) [(100 + FLOW_TIMEOUT, flow_443)]) = Ret b' /\ kernel b' = ∅.
Proof.
  refine (proj2 (blocked_flow_expires (Blocker 100 (∅ ∪ {[ flow_elem flow_443 ]}) [(100 + FLOW_TIMEOUT, flow_443)]) _)
    io_good (100 + FLOW_TIMEOUT) io_good_fine _).
  - apply (reach_msg (Blocker 100 ∅ []) io_good 13 (flow_msg flow_443 1) _ true); [apply reach_start |].
    exact (on_read_ready_msg io_good flow_443 1 (Blocker 100 ∅ []) io_good_fine flow_443_ok).
  - cbn [clock]. lia.
Defined.

(** A flow that is blocked stays blocked for [FLOW_TIMEOUT] seconds, whatever messages
    arrive for other elements, when no unblock of its element is scheduled already. *)
Theorem block_lasts io f b b' keep b'' :
  io_fine io -> flow_ok f ->
  (forall due g, In (due, g) (timers b) -> flow_elem g <> flow_elem f) ->
  on_read_ready io 13 (flow_msg f 1) b = Ret (b', keep) ->
  others (flow_elem f) (clock b + FLOW_TIMEOUT) b' b'' ->
  flow_elem f ∈ kernel b''.
Proof.
  intros Hio Hf Hno E HO. rewrite on_read_ready_msg in E by assumption. injection E as <- _.
  eapply others_keep; [exact HO | apply elem_of_union_r, elem_of_singleton; reflexivity |].
  cbn [timers]. intros due g. rewrite in_app_iff.
  intros [Hin | [[= <- <-] | []]] Hg; [destruct (Hno due g Hin Hg) | lia].
Qed.

Lemma block_lasts_witness :
  flow_elem flow_443 ∈ kernel (Blocker 100 (∅ ∪ {[ flow_elem flow_443 ]}) [(100 + FLOW_TIMEOUT, flow_443)]).
Proof.
  apply (block_lasts io_good flow_443 (Blocker 100 ∅ [])
    (Blocker 100 (∅ ∪ {[ flow_elem flow_443 ]}) [(100 + FLOW_TIMEOUT, flow_443)]) true).
  - exact io_good_fine.
  - exact flow_443_ok.
  - now intros due g [].
  - exact (on_read_ready_msg io_good flow_443 1 (Blocker 100 ∅ []) io_good_fine flow_443_ok).
  - apply others_none.
Defined.

(** An unblock message does not cancel the timer of the block before it, and
    schedules one more: a flow that is blocked, unblocked and blocked again loses the
    second block when the first timer runs, before its time. *)
Theorem stale_timer_unblocks io f t0 t2 :
  io_fine io -> flow_ok f -> t0 <= t2 < t0 + FLOW_TIMEOUT ->
  obind (on_read_ready io 13 (flow_msg f 1) (Blocker t0 ∅ [])) (fun r =>
  obind (on_read_ready io 13 (flow_msg f 0) (fst r)) (fun r =>
  obind (tick io t2 (fst r)) (fun b =>
  obind (on_read_ready io 13 (flow_msg f 1) b) (fun r =>
  obind (tick io (t0 + FLOW_TIMEOUT) (fst r)) (fun b => Ret (kernel (fst r), kernel b)))))) =
  Ret ({[ flow_elem f ]}, ∅).
Proof.
  intros Hio Hf Ht. rewrite on_read_ready_msg by assumption. cbn [obind fst].
  rewrite on_read_ready_msg by assumption. cbn [obind fst]. unfold tick at 1.
  cbn [clock kernel timers app run_timers].
  rewrite (proj2 (Z.leb_gt (t0 + FLOW_TIMEOUT) t2)) by lia. cbn [obind].
  rewrite on_read_ready_msg by assumption. cbn [obind fst].
  match goal with |- context [tick io ?n ?b] =>
    destruct (run_timers_fine io n (kernel b) (timers b) Hio) as (b' & E & _ & Hsub & _) end.
  unfold tick. rewrite E. cbn [obind kernel clock timers app] in *.
  change (1 =? 0) with false in *. change (0 =? 0) with true in *. cbv iota in *.
  do 2 f_equal; [set_solver |]. apply set_eq. intros e. split; [| set_solver]. intros He.
  assert (e = flow_elem f) as -> by set_solver.
  exfalso. revert He. eapply run_timers_head; [exact Hio | reflexivity | exact E].
Qed.

Lemma stale_timer_unblocks_witness :
  obind (on_read_ready io_good 13 (flow_msg flow_443 1) (Blocker 0 ∅ [])) (fun r =>
  obind (on_read_ready io_good 13 (flow_msg flow_443 0) (fst r)) (fun r =>
  obind (tick io_good 107000 (fst r)) (fun b =>
  obind (on_read_ready io_good 13 (flow_msg flow_443 1) b) (fun r =>
  obind (tick io_good (0 + FLOW_TIMEOUT) (fst r)) (fun b => Ret (kernel (fst r), kernel b)))))) =
  Ret ({[ flow_elem flow_443 ]}, ∅).
Proof.
  apply (stale_timer_unblocks io_good flow_443 0 107000);
    [exact io_good_fine | exact flow_443_ok | unfold FLOW_TIMEOUT; lia].
Defined.

(** The element text of a flow always fits [ipset_fake_arg] with its terminator, and
    two flows have the same element exactly when they agree on the addresses and on the
    client's port: the server's port is not part of it. *)
Theorem flow_element_text f g :
  flow_ok f -> flow_ok g ->
  Z.of_nat (length (flow_elem f)) + 1 <= ipset_fake_arg_size /\
  (flow_elem f = flow_elem g <-> addr1 f = addr1 g /\ port1 f = port1 g /\ addr2 f = addr2 g).
Proof.
  intros Hf Hg. split; [| now apply flow_elem_inj].
  pose proof (inet_ntop_length (addr1 f)). pose proof (inet_ntop_length (addr2 f)).
  pose proof (ntohs_width (port1 f) ltac:(apply Hf)) as Hp.
  pose proof (fmt_u_bound (ntohs (port1 f)) 4 ltac:(cbn; lia)).
  unfold flow_elem, ipset_fake_arg. rewrite fmt_d_nonneg by lia. rewrite !length_app. cbn [length].
  unfold ipset_fake_arg_size, INET_ADDRSTRLEN in *. lia.
Qed.

Lemma flow_element_text_witness :
  flow_elem flow_443 = chars "1.2.3.4,49721,10.0.0.1" /\
  Z.of_nat (length (flow_elem flow_443)) + 1 <= ipset_fake_arg_size.
Proof.
  split; [reflexivity |]. exact (proj1 (flow_element_text flow_443 flow_443 flow_443_ok flow_443_ok)).
Defined.

(** On failure the result is [errno], which is positive, although the comment promises a
    negative code; the caller is saved by the error text. *)
Lemma connect_to_flow_blocker_positive fd connect_r errno :
  0 < errno -> fd = -1 \/ connect_r = -1 ->
  fst (telex_connect_to_flow_blocker 0 fd connect_r errno) > 0 /\
  snd (telex_connect_to_flow_blocker 0 fd connect_r errno) = true.
Proof.
  intros He H. unfold telex_connect_to_flow_blocker. cbn [Z.eqb negb].
  destruct (Z.eqb_spec fd (-1)); [cbn; split; [lia | reflexivity] |].
  destruct H as [H | ->]; [contradiction |]. cbn. split; [lia | reflexivity].
Qed.
