(* ===== verification/TelexTcp.v ===== *)
(** * Packet forging

    [common/telex_tcp.c]: the Internet checksum, the extrapolated TCP timestamp, the
    transmission of a payload as forged segments, and the forwarding of a packet.

    A packet is the list of its bytes.  Addresses and ports of a flow are in network
    order, so their bytes in memory are little-endian; the other fields are written
    with [htons] and [htonl].  The clock and the raw socket are inputs. *)
From S2P Require Import Prelude Bytes CLib TelexUtil.
From Stdlib Require Import ZArith Lia List Bool.
Import ListNotations.
Open Scope Z_scope.
Open Scope list_scope.

(** ** The checksum *)

(** [*(uint16_t * )p] *)
Definition load16 (p : list Z) : Z := nth 0 p 0 + 256 * nth 1 p 0.

Fixpoint csum_loop (buf : list Z) (nwords : nat) (sum : Z) : Z :=
  match nwords with
  | O => sum
  | S n => csum_loop (skipn 2 buf) n (sum + ntohs (load16 buf))%u32
  end.

Definition csum (buf : list Z) (nwords : nat) (init_sum : Z) : Z :=
  let sum := csum_loop buf nwords init_sum in
  let sum := ((sum >> 16) + (sum & 0xffff))%u32 in
  let sum := (sum + (sum >> 16))%u32 in
  wrap 16 (Z.lnot sum).

(** [htons] and [htonl] stored in memory. *)
Definition be2 (x : Z) : list Z := [x / 256 mod 256; x mod 256].
Definition be4 (x : Z) : list Z := be2 (x / 65536) ++ be2 x.

(** A [char] is signed. *)
Definition schar (b : Z) : Z := swrap 8 b.

(** Fields of the IP header at the start of a packet, [sizeof(struct iphdr)], and the
    offset of the TCP header. *)
Definition ip_ihl (pkt : list Z) : nat := Z.to_nat (nth 0 pkt 0 mod 16).
Definition ip_tot_len (pkt : list Z) : Z := ntohs (load16 (skipn 2 pkt)).
Definition sizeof_iphdr : nat := 20.
Definition IP_TCP (pkt : list Z) : nat := 4 * ip_ihl pkt.

(** [tcp_csum]: the checksum, and the packet with the TCP checksum field cleared. *)
Definition pseudo_sum (pkt : list Z) (tcp_size : Z) : Z :=
  let sum := (0 + (ntohs (load16 (skipn 12 pkt)) + ntohs (load16 (skipn 14 pkt))))%u32 in
  let sum := (sum + (ntohs (load16 (skipn 16 pkt)) + ntohs (load16 (skipn 18 pkt))))%u32 in
  let sum := (sum + 6)%u32 in
  (sum + tcp_size)%u32.

Definition tcp_csum (pkt : list Z) : Z * list Z :=
  let tcp_size := ip_tot_len pkt - Z.of_nat sizeof_iphdr in
  let sum := pseudo_sum pkt tcp_size in
  let pkt := overwrite (IP_TCP pkt + 16) [0; 0] pkt in
  let tcph := skipn (IP_TCP pkt) pkt in
  let sum := if negb (tcp_size mod 2 =? 0)
             then (sum + Z.shiftl (schar (nth (Z.to_nat (tcp_size - 1)) tcph 0)) 8)%u32
             else sum in
  (csum tcph (Z.to_nat (tcp_size / 2)) sum, pkt).

(** ** Timestamps *)

Record timeval := Timeval { tv_sec : Z; tv_usec : Z }.
Record telex_tcp_ts := Ts { tv : timeval; tsval : Z; tsecr : Z }.

(** [telex_get_tv_diff]: the differences are [int32_t], the result [uint64_t]. *)
Definition telex_get_tv_diff (a b : timeval) : Z :=
  let sec_diff := swrap 32 (tv_sec b - tv_sec a) in
  let usec_diff := swrap 32 (tv_usec b - tv_usec a) in
  wrap 64 (sec_diff * 1000000 + usec_diff).

(** [telex_get_next_tsval]: [None] is a division by zero. *)
Definition telex_get_next_tsval (now : timeval) (last cur : telex_tcp_ts) : option Z :=
  let tv_diff := telex_get_tv_diff (tv last) (tv cur) in
  let ts_diff := (tsval cur - tsval last)%u32 in
  if ts_diff =? 0 then Some (tsval cur) else
  let us_per_tsval := wrap 32 (tv_diff / ts_diff) in
  let tv_diff := telex_get_tv_diff (tv cur) now in
  if us_per_tsval =? 0 then None else Some (wrap 32 (tsval cur + tv_diff / us_per_tsval)).

(** ** Forging *)

(** [struct telex_tcp_info] and [struct flow], the fields the file uses. *)
Record tcp_info := TcpInfo {
  seq : Z; ack : Z; snd_window : Z; last_ts : telex_tcp_ts; cur_ts : telex_tcp_ts;
  option_ts : Z; flags : Z }.
Record tflow := TFlow {
  orig_h : Z; resp_h : Z; orig_p : Z; resp_p : Z; last_ttl : Z; last_ip_id : Z; tcp : tcp_info }.

Definition set_seq (s : Z) (fl : tflow) : tflow :=
  TFlow (orig_h fl) (resp_h fl) (orig_p fl) (resp_p fl) (last_ttl fl) (last_ip_id fl)
    (TcpInfo s (ack (tcp fl)) (snd_window (tcp fl)) (last_ts (tcp fl)) (cur_ts (tcp fl))
       (option_ts (tcp fl)) (flags (tcp fl))).
Definition set_ip_id (i : Z) (fl : tflow) : tflow :=
  TFlow (orig_h fl) (resp_h fl) (orig_p fl) (resp_p fl) (last_ttl fl) i (tcp fl).

(** [telex_fill_ts]: the twelve option bytes. *)
Definition telex_fill_ts (now : timeval) (t : tcp_info) : option (list Z) :=
  match telex_get_next_tsval now (last_ts t) (cur_ts t) with
  | None => None
  | Some next_tsval => Some ([1; 1; 8; 10] ++ be4 next_tsval ++ be4 (tsecr (cur_ts t)))
  end.

Definition TH_PUSH : Z := 8.
Definition TH_ACK : Z := 16.
Definition IPPROTO_TCP : Z := 6.
Definition sizeof_tcphdr : Z := 20.
Definition sizeof_tcp_option_ts : Z := 12.
Definition MAX_SEGMENT : nat := 1448.

Definition tcp_len_of (fl : tflow) : Z :=
  sizeof_tcphdr + (if option_ts (tcp fl) =? 0 then 0 else sizeof_tcp_option_ts).

Definition th_flags_of (fl : tflow) (len : Z) : Z :=
  let f := if len =? 0 then TH_ACK else Z.lor TH_ACK TH_PUSH in
  if flags (tcp fl) =? 0 then f else flags (tcp fl).

(** The packet before the checksums: its IP header, TCP header, options and data. *)
Definition ip_header (fl : tflow) (tot_len : Z) : list Z :=
  [0x45; 0] ++ be2 tot_len ++ be2 (last_ip_id fl + 1) ++ be2 0x4000 ++
  [last_ttl fl; IPPROTO_TCP] ++ [0; 0] ++ le_bytes 4 (resp_h fl) ++ le_bytes 4 (orig_h fl).

Definition tcp_header (fl : tflow) (len : Z) : list Z :=
  le_bytes 2 (resp_p fl) ++ le_bytes 2 (orig_p fl) ++ be4 (seq (tcp fl)) ++ be4 (ack (tcp fl)) ++
  [16 * (tcp_len_of fl / 4) mod 256; th_flags_of fl len] ++ be2 (snd_window (tcp fl)) ++ [0; 0] ++ [0; 0].

(** The packet that is sent for [data]; [None] is a division by zero. *)
Definition forge_packet (now : timeval) (fl : tflow) (data : list Z) : option (list Z) :=
  let len := Z.of_nat (length data) in
  let tot_len := len + tcp_len_of fl + Z.of_nat sizeof_iphdr in
  match (if option_ts (tcp fl) =? 0 then Some [] else telex_fill_ts now (tcp fl)) with
  | None => None
  | Some opt =>
      let pkt := ip_header fl tot_len ++ tcp_header fl len ++ opt ++ data in
      let '(c, pkt) := tcp_csum pkt in
      let pkt := overwrite 36 (be2 c) pkt in
      Some (overwrite 10 (be2 (csum pkt 10 0)) pkt)
  end.

(** What happens to the [k]-th segment: [malloc], [sendto] and the clock. *)
Record xmit_io := XmitIO { malloc_ok : bool; sent : Z; clock : timeval }.

Inductive xmit_end :=
| Returns (r : Z) (packets : list (list Z)) (fl : tflow)
| Crashes (packets : list (list Z))
| Unfinished.

(** [telex_tcp_forge_xmit] *)
Fixpoint telex_tcp_forge_xmit (fuel k : nat) (io : nat -> xmit_io) (fl : tflow) (payload : list Z)
    : xmit_end :=
  match fuel with
  | O => Unfinished
  | S n =>
      let data := firstn MAX_SEGMENT payload in
      let again := skipn MAX_SEGMENT payload in
      let len := Z.of_nat (length data) in
      if negb (malloc_ok (io k)) then Returns 1 [] fl else
      match forge_packet (clock (io k)) fl data with
      | None => Crashes []
      | Some pkt =>
          if (length payload <=? MAX_SEGMENT)%nat
          then Returns (if sent (io k) =? Z.of_nat (length pkt) then 0 else 1) [pkt] fl
          else
            let fl := set_ip_id (last_ip_id fl + 1)%u16 (set_seq (seq (tcp fl) + len)%u32 fl) in
            match telex_tcp_forge_xmit n (S k) io fl again with
            | Returns r pkts fl => Returns r (pkt :: pkts) (set_seq (seq (tcp fl) - len)%u32 fl)
            | Crashes pkts => Crashes (pkt :: pkts)
            | Unfinished => Unfinished
            end
      end
  end.

(** [telex_fwd_pkt]: the packet that is sent and the result. *)
Definition telex_fwd_pkt (pkt : list Z) (res : Z) : list Z * Z :=
  let pkt := overwrite 8 [(nth 8 pkt 0 + 1) mod 256] pkt in
  let pkt := overwrite 10 (be2 (csum pkt (2 * ip_ihl pkt) 0)) pkt in
  (pkt, if res =? Z.of_nat (length pkt) then 0 else 1).

(** [telex_tcp_init] *)
Definition telex_tcp_init (fd : Z) : outcome Z := if fd =? -1 then Exit 1 else Ret fd.

(** ** The one's complement sum *)

(** Sum of the big-endian words of a buffer, a last odd byte padded with zero. *)
Fixpoint words (b : list Z) : Z :=
  match b with
  | a :: c :: r => 256 * a + c + words r
  | [a] => 256 * a
  | [] => 0
  end.

(** What a receiver accepts: the sum, with the checksum in it, is all ones. *)
Definition sum_ok (s : Z) : Prop := 0 < s /\ s mod 65535 = 0.

Lemma words_app a b : Nat.Even (length a) -> words (a ++ b) = words a + words b.
Proof.
  intros [n E]. revert a E. induction n as [| n IH]; intros a E.
  - destruct a; [reflexivity | discriminate].
  - destruct a as [| x [| y a]]; cbn in E; try lia. cbn [app words]. rewrite IH; lia.
Qed.

Lemma words_bound b : Forall is_byte b -> 0 <= words b <= 65535 * ((Z.of_nat (length b) + 1) / 2).
Proof.
  intros H. remember (length b) as n eqn:E. revert b H E.
  induction n as [n IH] using lt_wf_ind. intros [| x [| y b]] H E; cbn [words length] in *; subst n.
  - cbn. lia.
  - inversion_clear H as [| ? ? Hx _]. unfold is_byte in Hx. change ((Z.of_nat 1 + 1) / 2) with 1. lia.
  - inversion_clear H as [| ? ? Hx H']. inversion_clear H' as [| ? ? Hy Hb]. unfold is_byte in *.
    specialize (IH (length b) ltac:(lia) b Hb eq_refl).
    replace (Z.of_nat (S (S (length b))) + 1) with (1 * 2 + (Z.of_nat (length b) + 1)) by lia.
    rewrite Z.div_add_l by lia. lia.
Qed.

Lemma ntohs_load16 a b r : is_byte a -> is_byte b -> ntohs (load16 (a :: b :: r)) = 256 * a + b.
Proof.
  unfold is_byte, load16, ntohs. cbn [nth]. intros Ha Hb.
  rewrite (Z.mul_comm 256 b), Z.mod_add, Z.mod_small by lia.
  rewrite Z.div_add, Z.div_small, Z.mod_small by lia. lia.
Qed.

Lemma csum_loop_words buf n s :
  Forall is_byte buf -> (2 * n <= length buf)%nat -> in_width 32 s ->
  csum_loop buf n s = wrap 32 (s + words (firstn (2 * n) buf)).
Proof.
  intros H. revert buf H s. induction n as [| n IH]; intros buf H s Hn Hs.
  - cbn. now rewrite Z.add_0_r, wrap_small.
  - destruct buf as [| a [| b buf]]; cbn [length] in Hn; try lia.
    inversion_clear H as [| ? ? Ha H']. inversion_clear H' as [| ? ? Hb Hbuf].
    cbn [csum_loop]. rewrite ntohs_load16 by assumption. cbn [skipn].
    rewrite IH; [| assumption | lia | apply wrap_in_width; lia].
    replace (2 * S n)%nat with (S (S (2 * n))) by lia. cbn [firstn words].
    unfold w_add, wrap. rewrite Zplus_mod_idemp_l. f_equal. lia.
Qed.

(** The folding at the end of [csum]. *)
Definition csum_fold (sum : Z) : Z :=
  let sum := ((sum >> 16) + (sum & 0xffff))%u32 in
  let sum := (sum + (sum >> 16))%u32 in
  wrap 16 (Z.lnot sum).

Lemma csum_fold_spec s :
  in_width 32 s -> exists r k, csum_fold s = 65535 - r /\ 0 <= r <= 65535 /\ s = r + 65535 * k /\ (r = 0 <-> s = 0).
Proof.
  unfold in_width. intros Hs. unfold csum_fold. change 0xffff with (2 ^ 16 - 1).
  rewrite land_mask, shiftr_div by lia.
  pose proof (div_mod_split s (2 ^ 16) ltac:(lia)) as [E B].
  assert (0 <= s / 2 ^ 16 < 2 ^ 16) as Bq by (split; [apply Z.div_pos; lia | apply Z.div_lt_upper_bound; lia]).
  set (q := s / 2 ^ 16) in *. set (m := s mod 2 ^ 16) in *.
  rewrite (w_add_small 32 q m) by (unfold in_width; lia). rewrite shiftr_div by lia.
  assert (forall r, 0 <= r <= 65535 -> wrap 16 (Z.lnot r) = 65535 - r) as K.
  { intros r Hr. unfold Z.lnot, wrap. rewrite <- (Z.mod_add _ 1) by lia. rewrite Z.mod_small; lia. }
  destruct (Z_lt_dec (q + m) (2 ^ 16)) as [L | L].
  - rewrite Z.div_small by lia.
    rewrite w_add_small by (unfold in_width; lia). rewrite Z.add_0_r, K by lia.
    exists (q + m), q. repeat split; lia.
  - replace ((q + m) / 2 ^ 16) with 1 by (apply Z.div_unique with (r := q + m - 2 ^ 16); lia).
    rewrite w_add_small by (unfold in_width; lia).
    replace (wrap 16 (Z.lnot (q + m + 1))) with (wrap 16 (Z.lnot (q + m - 65535))).
    2:{ unfold Z.lnot, Z.pred, wrap. rewrite <- (Z.mod_add (- (q + m + 1) + -1) 1 (2 ^ 16)) by lia. f_equal. lia. }
    rewrite K by lia. exists (q + m - 65535), (q + 1). repeat split; lia.
Qed.

(** Storing the checksum of [s] completes the sum. *)
Lemma csum_fold_completes s : in_width 32 s -> sum_ok (s + csum_fold s).
Proof.
  intros Hs. destruct (csum_fold_spec s Hs) as (r & k & -> & Hr & E & Hz). unfold in_width in Hs. split; [lia |].
  replace (s + (65535 - r)) with ((k + 1) * 65535) by lia. apply Z.mod_mul. lia.
Qed.

Lemma csum_fold_width s : in_width 32 s -> 0 <= csum_fold s <= 65535.
Proof. intros Hs. destruct (csum_fold_spec s Hs) as (r & k & -> & Hr & _). lia. Qed.

(** [csum] on a complete sum is 0, the receiver's test. *)
Lemma csum_fold_ok s : in_width 32 s -> csum_fold s = 0 <-> sum_ok s.
Proof.
  intros Hs. destruct (csum_fold_spec s Hs) as (r & k & -> & Hr & E & Hz). unfold sum_ok, in_width in *.
  rewrite E, (Z.mul_comm 65535 k), Z.mod_add by lia. split.
  - intros H. replace r with 65535 by lia. split; [lia | reflexivity].
  - intros [Hp Hm]. destruct (Z.eq_dec r 65535); [lia |]. rewrite Z.mod_small in Hm by lia. lia.
Qed.

(** ** The forged packet *)

(** The sums a receiver of a packet without IP options computes. *)
Definition ip_sum (pkt : list Z) : Z := words (firstn 20 pkt).
Definition tcp_sum (pkt : list Z) : Z :=
  words (firstn 8 (skipn 12 pkt)) + 6 + (Z.of_nat (length pkt) - 20) + words (skipn 20 pkt).

(** The last byte of the data is taken as a negative number. *)
Definition negative_tail (data : list Z) : bool :=
  Nat.odd (length data) && (128 <=? last data 0).

Lemma be2_bytes x : Forall is_byte (be2 x).
Proof. repeat constructor; apply Z.mod_pos_bound; lia. Qed.

Lemma be2_words x : 0 <= x < 65536 -> words (be2 x) = x.
Proof.
  intros H. unfold be2. cbn [words]. rewrite (Z.mod_small (x / 256)) by (split; [apply Z.div_pos; lia | apply Z.div_lt_upper_bound; lia]).
  pose proof (Z.div_mod x 256 ltac:(lia)). lia.
Qed.

Lemma ntohs_be2 x r : 0 <= x < 65536 -> ntohs (load16 (be2 x ++ r)) = x.
Proof.
  intros H. pose proof (be2_bytes x) as HB. unfold be2 in *. cbn [app].
  inversion_clear HB as [| ? ? H1 H']. inversion_clear H' as [| ? ? H2 _].
  rewrite ntohs_load16 by assumption. pose proof (be2_words x H) as E. unfold be2 in E. cbn [words] in E. lia.
Qed.

Lemma overwrite_field {A} (a c b d : list A) :
  length c = length b -> overwrite (length a) c (a ++ b ++ d) = a ++ c ++ d.
Proof.
  intros E. unfold overwrite. rewrite firstn_exact by reflexivity. do 2 f_equal.
  rewrite E, <- length_app. rewrite app_assoc. now apply skipn_exact.
Qed.

Lemma pseudo_sum_words pkt t :
  Forall is_byte pkt -> (20 <= length pkt)%nat -> 0 <= t < 2 ^ 20 ->
  pseudo_sum pkt t = words (firstn 8 (skipn 12 pkt)) + 6 + t.
Proof.
  intros HB HL Ht. unfold pseudo_sum.
  change (skipn 14 pkt) with (skipn (2 + 12) pkt). change (skipn 16 pkt) with (skipn (4 + 12) pkt).
  change (skipn 18 pkt) with (skipn (6 + 12) pkt). rewrite <- !skipn_skipn.
  assert (8 <= length (skipn 12 pkt))%nat as L by (rewrite length_skipn; lia).
  apply (Forall_skipn _ 12) in HB. revert HB L. generalize (skipn 12 pkt) as q. clear pkt HL.
  intros [| a [| b [| c [| d [| e [| f [| g [| h q]]]]]]]] HB L; cbn [length] in L; try lia.
  repeat match goal with H : Forall _ (_ :: _) |- _ => inversion_clear H end.
  cbn [skipn firstn words]. rewrite !ntohs_load16 by assumption. unfold is_byte in *.
  repeat match goal with |- context [w_add 32 ?x ?y] =>
    rewrite (w_add_small 32 x y) by (unfold in_width; lia) end.
  lia.
Qed.

(** A packet cut at the two checksum fields. *)
Record cut (pkt : list Z) := Cut {
  c_ip1 : list Z; c_ip2 : list Z; c_tcp1 : list Z; c_tcp2 : list Z;
  c_pkt : pkt = (c_ip1 ++ [0; 0] ++ c_ip2) ++ (c_tcp1 ++ [0; 0] ++ c_tcp2);
  c_l1 : length c_ip1 = 10%nat; c_l2 : length c_ip2 = 8%nat; c_l3 : length c_tcp1 = 16%nat;
  c_bytes : Forall is_byte pkt; c_len : Z.of_nat (length pkt) < 65536;
  c_ihl : ip_ihl pkt = 5%nat; c_tot : ip_tot_len pkt = Z.of_nat (length pkt)
}.
Arguments c_ip1 {pkt}. Arguments c_ip2 {pkt}. Arguments c_tcp1 {pkt}. Arguments c_tcp2 {pkt}.

Lemma cut_seg pkt (C : cut pkt) : skipn 20 pkt = c_tcp1 C ++ [0; 0] ++ c_tcp2 C.
Proof.
  destruct C as [i1 i2 t1 t2 E L1 L2 L3 ? ? ? ?]; cbn [c_tcp1 c_tcp2]. rewrite E.
  apply skipn_exact. rewrite !length_app, L1, L2. reflexivity.
Qed.

Lemma cut_length pkt (C : cut pkt) :
  length pkt = (20 + length (skipn 20 pkt))%nat /\ (18 <= length (skipn 20 pkt))%nat.
Proof.
  rewrite (cut_seg pkt C). destruct C as [i1 i2 t1 t2 E L1 L2 L3 ? ? ? ?]; cbn [c_tcp1 c_tcp2].
  rewrite E, !length_app, L1, L2, L3. cbn [length]. lia.
Qed.

Lemma half_nat n : Z.to_nat (Z.of_nat n / 2) = Nat.div2 n.
Proof. rewrite Nat.div2_div. change 2 with (Z.of_nat 2). now rewrite <- Nat2Z.inj_div, Nat2Z.id. Qed.

Lemma mod2_odd n : (Z.of_nat n mod 2 =? 0) = negb (Nat.odd n).
Proof.
  rewrite Nat.negb_odd. change 2 with (Z.of_nat 2). rewrite <- Nat2Z.inj_mod.
  destruct (Nat.even n) eqn:Ev.
  - apply Nat.even_spec in Ev as [m ->]. rewrite Nat.mul_comm, Nat.Div0.mod_mul. reflexivity.
  - rewrite <- Nat.negb_odd in Ev. apply negb_false_iff, Nat.odd_spec in Ev as [m ->].
    replace (2 * m + 1)%nat with (1 + m * 2)%nat by lia. now rewrite Nat.Div0.mod_add.
Qed.

Lemma schar_tail x : is_byte x -> schar x = x - (if 128 <=? x then 256 else 0).
Proof.
  intros H. unfold schar, swrap, is_byte in *. destruct (Z.leb_spec 128 x) as [G | G].
  - replace ((x + 2 ^ (8 - 1)) mod 2 ^ 8) with (x - 128) by (apply Z.mod_unique with (q := 1); [left |]; lia). lia.
  - rewrite Z.mod_small by lia. lia.
Qed.

(** The words of a segment, and its last odd byte as a signed one, on top of [P]. *)
Lemma segment_sum seg P :
  Forall is_byte seg -> (1 <= length seg)%nat -> Z.of_nat (length seg) < 65536 -> 0 <= P < 2 ^ 20 ->
  let n := Z.of_nat (length seg) in
  csum_loop seg (Z.to_nat (n / 2))
    (if negb (n mod 2 =? 0) then (P + Z.shiftl (schar (nth (Z.to_nat (n - 1)) seg 0)) 8)%u32 else P) =
  wrap 32 (P + words seg - (if negative_tail seg then 65536 else 0)).
Proof.
  cbv zeta. intros HB HS HN HP. rewrite half_nat, mod2_odd, negb_involutive. unfold negative_tail.
  pose proof (Nat.div2_odd (length seg)) as Hdiv. destruct (Nat.odd (length seg)); cbn [Nat.b2n andb] in *.
  - destruct (exists_last (l := seg)) as (l & x & El); [intros ->; cbn in HS; lia |].
    assert (length seg = S (length l)) as Hs by (rewrite El, length_app; cbn [length]; lia).
    assert (nth (Z.to_nat (Z.of_nat (length seg) - 1)) seg 0 = x) as ->.
    { replace (Z.to_nat _) with (length l) by lia. rewrite El, app_nth2, Nat.sub_diag by lia. reflexivity. }
    assert (last seg 0 = x) as -> by (rewrite El; apply last_last).
    assert (is_byte x) as Hx by (rewrite El in HB; apply Forall_app in HB as [_ HX]; now inversion_clear HX).
    rewrite csum_loop_words; [| exact HB | lia | apply wrap_in_width; lia].
    replace (2 * Nat.div2 (length seg))%nat with (length l) by lia.
    rewrite El, firstn_exact by reflexivity. rewrite words_app by (exists (Nat.div2 (length seg)); lia).
    cbn [words]. rewrite Z.shiftl_mul_pow2, schar_tail by (assumption || lia).
    unfold w_add, wrap. rewrite Zplus_mod_idemp_l. f_equal. destruct (128 <=? x); lia.
  - rewrite csum_loop_words; [| exact HB | lia | unfold in_width; lia].
    replace (2 * Nat.div2 (length seg))%nat with (length seg) by lia. rewrite firstn_all. f_equal. lia.
Qed.

(** [tcp_csum] on such a packet, whose last odd byte counts as a signed one. *)
Lemma tcp_csum_value pkt (C : cut pkt) :
  tcp_csum pkt = (csum_fold (wrap 32 (tcp_sum pkt - (if negative_tail (skipn 20 pkt) then 65536 else 0))), pkt).
Proof.
  pose proof (cut_length pkt C) as [HL HS]. unfold tcp_csum.
  rewrite (c_tot pkt C). unfold IP_TCP. rewrite (c_ihl pkt C). change (4 * 5 + 16)%nat with 36%nat.
  assert (overwrite 36 [0; 0] pkt = pkt) as ->.
  { destruct C as [i1 i2 t1 t2 E L1 L2 L3 ? ? ? ?]. rewrite E at 1. rewrite app_assoc.
    replace 36%nat with (length ((i1 ++ [0; 0] ++ i2) ++ t1)) by (rewrite !length_app, L1, L2, L3; reflexivity).
    rewrite overwrite_field by reflexivity. rewrite <- app_assoc. now symmetry. }
  rewrite (c_ihl pkt C). change (4 * 5)%nat with 20%nat.
  pose proof (c_bytes pkt C) as HB. pose proof (c_len pkt C) as HN.
  unfold tcp_sum. change (Z.of_nat sizeof_iphdr) with 20.
  replace (Z.of_nat (length pkt) - 20) with (Z.of_nat (length (skipn 20 pkt))) by lia.
  rewrite pseudo_sum_words by (assumption || lia).
  pose proof (words_bound (firstn 8 (skipn 12 pkt)) ltac:(now apply Forall_firstn, Forall_skipn)) as W.
  rewrite firstn_length_le in W by (rewrite length_skipn; lia). change ((Z.of_nat 8 + 1) / 2) with 4 in W.
  f_equal. change (csum ?b ?n ?s) with (csum_fold (csum_loop b n s)). f_equal.
  apply segment_sum; [now apply Forall_skipn | lia | lia | lia].
Qed.

Ltac bytes_tac :=
  repeat match goal with
  | |- Forall _ (_ ++ _) => apply Forall_app; split
  | |- Forall _ (be2 _) => apply be2_bytes
  | |- Forall _ (le_bytes _ _) => apply le_bytes_bytes
  | |- Forall _ (_ :: _) => apply Forall_cons
  | |- Forall _ [] => apply Forall_nil
  end; auto; try (unfold is_byte; lia); try (apply Z.mod_pos_bound; lia).

(** A flow whose byte fields are bytes. *)
Definition tflow_ok (fl : tflow) : Prop := is_byte (last_ttl fl) /\ is_byte (flags (tcp fl)).

(** The parts of the packet before the checksums. *)
Definition ip_front (fl : tflow) (tot_len : Z) : list Z :=
  [0x45; 0] ++ be2 tot_len ++ be2 (last_ip_id fl + 1) ++ be2 0x4000 ++ [last_ttl fl; IPPROTO_TCP].
Definition ip_back (fl : tflow) : list Z := le_bytes 4 (resp_h fl) ++ le_bytes 4 (orig_h fl).
Definition tcp_front (fl : tflow) (len : Z) : list Z :=
  le_bytes 2 (resp_p fl) ++ le_bytes 2 (orig_p fl) ++ be4 (seq (tcp fl)) ++ be4 (ack (tcp fl)) ++
  [16 * (tcp_len_of fl / 4) mod 256; th_flags_of fl len] ++ be2 (snd_window (tcp fl)).

Lemma fill_ts_shape now t opt : telex_fill_ts now t = Some opt -> length opt = 12%nat /\ Forall is_byte opt.
Proof.
  unfold telex_fill_ts. destruct (telex_get_next_tsval _ _ _); [| discriminate]. intros [= <-].
  split; [reflexivity |]. unfold be4. bytes_tac.
Qed.

Lemma th_flags_byte fl len : is_byte (flags (tcp fl)) -> is_byte (th_flags_of fl len).
Proof.
  intros H. unfold th_flags_of. destruct (flags (tcp fl) =? 0); [| exact H].
  destruct (len =? 0); now split.
Qed.

Lemma headers_bytes fl tot len :
  tflow_ok fl -> Forall is_byte (ip_front fl tot) /\ Forall is_byte (ip_back fl) /\ Forall is_byte (tcp_front fl len).
Proof.
  intros [Ht Hf]. pose proof (th_flags_byte fl len Hf). unfold ip_front, ip_back, tcp_front, be4, IPPROTO_TCP.
  repeat split; bytes_tac.
Qed.

(** Header lengths, the data length and the options of a packet that is sent. *)
Lemma tcp_len_opt now fl opt :
  (if option_ts (tcp fl) =? 0 then Some [] else telex_fill_ts now (tcp fl)) = Some opt ->
  tcp_len_of fl = 20 + Z.of_nat (length opt) /\ Forall is_byte opt /\ Nat.Even (length opt) /\ (length opt <= 12)%nat.
Proof.
  unfold tcp_len_of, sizeof_tcphdr, sizeof_tcp_option_ts. destruct (option_ts (tcp fl) =? 0).
  - intros [= <-]. repeat split; auto; [now exists 0%nat | cbn; lia].
  - intros [HL HB]%fill_ts_shape. rewrite HL. repeat split; auto; now exists 6%nat.
Qed.

Lemma forge_cut now fl data opt :
  tflow_ok fl -> Forall is_byte data -> (length data <= MAX_SEGMENT)%nat ->
  (if option_ts (tcp fl) =? 0 then Some [] else telex_fill_ts now (tcp fl)) = Some opt ->
  let len := Z.of_nat (length data) in
  let tot := len + tcp_len_of fl + Z.of_nat sizeof_iphdr in
  exists C : cut (ip_header fl tot ++ tcp_header fl len ++ opt ++ data),
    c_ip1 C = ip_front fl tot /\ c_ip2 C = ip_back fl /\ c_tcp1 C = tcp_front fl len /\ c_tcp2 C = [0; 0] ++ opt ++ data.
Proof.
  intros Hf Hd HL Ho len tot. destruct (tcp_len_opt now fl opt Ho) as (Hlen & HBo & _ & Hle).
  destruct (headers_bytes fl tot len Hf) as (B1 & B2 & B3). unfold MAX_SEGMENT in HL.
  set (pkt := ip_header fl tot ++ tcp_header fl len ++ opt ++ data).
  assert (pkt = (ip_front fl tot ++ [0; 0] ++ ip_back fl) ++ tcp_front fl len ++ [0; 0] ++ [0; 0] ++ opt ++ data) as E.
  { unfold pkt, ip_header, tcp_header, ip_front, ip_back, tcp_front. rewrite <- !app_assoc. reflexivity. }
  assert (length (ip_front fl tot) = 10 /\ length (ip_back fl) = 8 /\ length (tcp_front fl len) = 16)%nat
    as (L1 & L2 & L3) by (repeat split; reflexivity).
  assert (Z.of_nat (length pkt) = tot) as HN.
  { rewrite E, !length_app, L1, L2, L3. unfold tot, len. rewrite Hlen. change (Z.of_nat sizeof_iphdr) with 20. cbn [length]. lia. }
  assert (0 <= tot < 65536) as HT by (unfold tot, len; rewrite Hlen; change (Z.of_nat sizeof_iphdr) with 20; lia).
  unshelve eexists (Cut pkt (ip_front fl tot) (ip_back fl) (tcp_front fl len) ([0; 0] ++ opt ++ data) E L1 L2 L3 _ _ _ _);
    [.. | repeat split].
  - rewrite E. bytes_tac.
  - lia.
  - reflexivity.
  - unfold ip_tot_len. rewrite HN. unfold pkt, ip_header. cbn [app skipn]. now apply ntohs_be2.
Qed.

Lemma last_app_r {A} (a b : list A) d : b <> [] -> last (a ++ b) d = last b d.
Proof.
  intros H. destruct (exists_last H) as (l & x & ->). now rewrite app_assoc, !last_last.
Qed.

Lemma negative_tail_app a data : Nat.Even (length a) -> negative_tail (a ++ data) = negative_tail data.
Proof.
  intros [k E]. unfold negative_tail. rewrite length_app, E.
  replace (Nat.odd (2 * k + length data)) with (Nat.odd (length data)) by (rewrite Nat.add_comm; now rewrite Nat.odd_add_mul_2).
  destruct data as [| x data]; [reflexivity |]. now rewrite last_app_r by discriminate.
Qed.

(** Storing the two checksums. *)
Lemma overwrite_tcp {i1 i2 t1 t2 c : list Z} :
  length i1 = 10%nat -> length i2 = 8%nat -> length t1 = 16%nat -> length c = 2%nat ->
  overwrite 36 c ((i1 ++ [0; 0] ++ i2) ++ t1 ++ [0; 0] ++ t2) = (i1 ++ [0; 0] ++ i2) ++ t1 ++ c ++ t2.
Proof.
  intros L1 L2 L3 Lc. rewrite app_assoc.
  replace 36%nat with (length ((i1 ++ [0; 0] ++ i2) ++ t1)) by (rewrite !length_app, L1, L2, L3; reflexivity).
  rewrite overwrite_field by exact Lc. now rewrite <- app_assoc.
Qed.

Lemma overwrite_ip {i1 c r : list Z} : length i1 = 10%nat -> length c = 2%nat ->
  overwrite 10 c (i1 ++ [0; 0] ++ r) = i1 ++ c ++ r.
Proof. intros L1 Lc. rewrite <- L1. now apply overwrite_field. Qed.

(** The two sums of a packet, by its parts. *)
Lemma sums_by_parts i1 ci i2 t1 c t2 :
  length i1 = 10%nat -> length i2 = 8%nat -> length t1 = 16%nat -> length ci = 2%nat -> length c = 2%nat ->
  let pkt := (i1 ++ ci ++ i2) ++ t1 ++ c ++ t2 in
  ip_sum pkt = words i1 + words ci + words i2 /\
  tcp_sum pkt = words i2 + 6 + Z.of_nat (18 + length t2) + (words t1 + words c + words t2).
Proof.
  intros L1 L2 L3 Li Lc pkt.
  assert (Nat.Even (length i1) /\ Nat.Even (length i2) /\ Nat.Even (length t1) /\ Nat.Even (length c) /\ Nat.Even (length ci))
    as (V1 & V2 & V3 & V4 & V5).
  { rewrite L1, L2, L3, Li, Lc. repeat split; [now exists 5%nat | now exists 4%nat | now exists 8%nat | now exists 1%nat..]. }
  assert (length (i1 ++ ci ++ i2) = 20%nat) as LI by (rewrite !length_app, L1, L2, Li; reflexivity).
  unfold ip_sum, tcp_sum, pkt. split.
  - rewrite firstn_exact by exact LI. rewrite !words_app by assumption. lia.
  - replace (skipn 12 ((i1 ++ ci ++ i2) ++ t1 ++ c ++ t2)) with (i2 ++ t1 ++ c ++ t2).
    2:{ replace ((i1 ++ ci ++ i2) ++ t1 ++ c ++ t2) with ((i1 ++ ci) ++ i2 ++ t1 ++ c ++ t2) by now rewrite <- !app_assoc.
        symmetry. apply skipn_exact. rewrite length_app, L1, Li. reflexivity. }
    rewrite firstn_exact by exact L2. rewrite skipn_exact by exact LI.
    rewrite !words_app by assumption. rewrite (length_app (i1 ++ ci ++ i2)), LI, !length_app, L3, Lc. lia.
Qed.

Lemma Some_eq {A} (a b : A) : Some a = Some b -> a = b.
Proof. congruence. Qed.

Lemma csum_is_fold buf n s : csum buf n s = csum_fold (csum_loop buf n s).
Proof. reflexivity. Qed.

Lemma cut_bounds pkt (C : cut pkt) : 0 <= ip_sum pkt < 2 ^ 32 /\ 0 <= tcp_sum pkt < 2 ^ 32 - 65536.
Proof.
  pose proof (cut_length pkt C) as [HL HS]. pose proof (c_bytes pkt C) as HB. pose proof (c_len pkt C) as HN.
  rewrite length_skipn in *. unfold ip_sum, tcp_sum.
  pose proof (words_bound (firstn 20 pkt) ltac:(now apply Forall_firstn)) as W0.
  pose proof (words_bound (firstn 8 (skipn 12 pkt)) ltac:(now apply Forall_firstn, Forall_skipn)) as W1.
  pose proof (words_bound (skipn 20 pkt) ltac:(now apply Forall_skipn)) as W2.
  rewrite length_firstn in W0. rewrite length_firstn, length_skipn in W1. rewrite length_skipn in W2.
  assert ((Z.of_nat (Nat.min 20 (length pkt)) + 1) / 2 <= 11) by (apply Z.div_le_upper_bound; lia).
  assert ((Z.of_nat (length pkt - 20) + 1) / 2 <= 40000) by (apply Z.div_le_upper_bound; lia).
  assert ((Z.of_nat (Nat.min 8 (length pkt - 12)) + 1) / 2 <= 5) by (apply Z.div_le_upper_bound; lia). lia.
Qed.

(** Filling in both checksums, as [telex_tcp_forge_xmit] does. *)
Lemma fill_checksums pkt (C : cut pkt) :
  let c := fst (tcp_csum pkt) in
  let ci := csum_fold (ip_sum pkt) in
  let pkt1 := overwrite 36 (be2 c) (snd (tcp_csum pkt)) in
  overwrite 10 (be2 (csum pkt1 10 0)) pkt1 =
    (c_ip1 C ++ be2 ci ++ c_ip2 C) ++ c_tcp1 C ++ be2 c ++ c_tcp2 C.
Proof.
  cbv zeta. rewrite (tcp_csum_value pkt C). cbn [fst snd].
  generalize (csum_fold (wrap 32 (tcp_sum pkt - (if negative_tail (skipn 20 pkt) then 65536 else 0)))) as c. intros c.
  destruct (cut_bounds pkt C) as [HI _]. pose proof (c_bytes pkt C) as HB.
  destruct C as [i1 i2 t1 t2 E L1 L2 L3 ? ? ? ?]; cbn [c_ip1 c_ip2 c_tcp1 c_tcp2].
  assert (length (i1 ++ [0; 0] ++ i2) = 20%nat) as LI by (rewrite !length_app, L1, L2; reflexivity).
  assert (overwrite 36 (be2 c) pkt = (i1 ++ [0; 0] ++ i2) ++ t1 ++ be2 c ++ t2) as ->
    by (rewrite E; exact (overwrite_tcp L1 L2 L3 (c := be2 c) eq_refl)).
  set (pkt1 := (i1 ++ [0; 0] ++ i2) ++ t1 ++ be2 c ++ t2).
  assert (csum_loop pkt1 10 0 = ip_sum pkt) as Eip.
  { rewrite csum_loop_words; [| | unfold pkt1; rewrite length_app; lia | unfold in_width; lia].
    - change (2 * 10)%nat with 20%nat. rewrite Z.add_0_l, <- (wrap_small 32 (ip_sum pkt)) by exact HI.
      unfold ip_sum. rewrite E. unfold pkt1. now rewrite !firstn_exact by exact LI.
    - unfold pkt1. rewrite E in HB. rewrite !Forall_app in HB |- *.
      destruct HB as ((? & ? & ?) & ? & ? & ?). repeat split; auto. apply be2_bytes. }
  rewrite csum_is_fold, Eip. unfold pkt1. rewrite <- !app_assoc.
  now rewrite (overwrite_ip L1 (c := be2 (csum_fold (ip_sum pkt))) eq_refl).
Qed.

(** The whole packet from its headers. *)
Definition bare_packet (fl : tflow) (opt data : list Z) : list Z :=
  let len := Z.of_nat (length data) in
  ip_header fl (len + tcp_len_of fl + Z.of_nat sizeof_iphdr) ++ tcp_header fl len ++ opt ++ data.

Lemma forge_packet_eq now fl data pkt :
  forge_packet now fl data = Some pkt ->
  exists opt, (if option_ts (tcp fl) =? 0 then Some [] else telex_fill_ts now (tcp fl)) = Some opt /\
    let r := tcp_csum (bare_packet fl opt data) in
    let pkt1 := overwrite 36 (be2 (fst r)) (snd r) in
    overwrite 10 (be2 (csum pkt1 10 0)) pkt1 = pkt.
Proof.
  unfold forge_packet. destruct (if option_ts (tcp fl) =? 0 then _ else _) as [opt |]; [| discriminate].
  intros E. exists opt. split; [reflexivity |]. cbv zeta. unfold bare_packet.
  destruct (tcp_csum _) as [c p]. now apply Some_eq in E.
Qed.

(** The packet that is sent: the checksums in their fields. *)
Lemma forge_packet_shape now fl data pkt :
  tflow_ok fl -> Forall is_byte data -> (length data <= MAX_SEGMENT)%nat ->
  forge_packet now fl data = Some pkt ->
  exists h ci c s, pkt = (ip_front fl (Z.of_nat (length pkt)) ++ be2 ci ++ ip_back fl) ++
                         tcp_front fl (Z.of_nat (length data)) ++ be2 c ++ [0; 0] ++ h ++ data /\
    Z.of_nat (length h) = tcp_len_of fl - 20 /\
    sum_ok (ip_sum pkt) /\ tcp_sum pkt = s + c /\ 0 <= s < 2 ^ 32 - 65536 /\ 0 <= c <= 65535 /\
    c = csum_fold (wrap 32 (s - (if negative_tail data then 65536 else 0))).
Proof.
  intros Hf Hd HL E. destruct (forge_packet_eq now fl data pkt E) as (opt & Ho & <-). clear E.
  destruct (forge_cut now fl data opt Hf Hd HL Ho) as (C & C1 & C2 & C3 & C4).
  destruct (tcp_len_opt now fl opt Ho) as (Hlen & _ & Vo & Hle).
  fold (bare_packet fl opt data) in C, C1, C2, C3, C4.
  revert C C1 C2 C3 C4. generalize (bare_packet fl opt data) as pkt0. intros pkt0 C C1 C2 C3 C4.
  set (len := Z.of_nat (length data)) in *. set (tot := len + tcp_len_of fl + Z.of_nat sizeof_iphdr) in *.
  cbv zeta. rewrite (fill_checksums pkt0 C). pose proof (tcp_csum_value pkt0 C) as Et.
  apply (f_equal fst) in Et. cbn [fst] in Et. rewrite Et. set (c := csum_fold _) in *.
  pose proof (eq_refl c : c = csum_fold (wrap 32 (tcp_sum pkt0 - (if negative_tail (skipn 20 pkt0) then 65536 else 0)))) as Ec.
  clearbody c. clear Et.
  destruct (cut_bounds pkt0 C) as [HI HT]. pose proof (cut_seg pkt0 C) as Hseg.
  pose proof (csum_fold_completes (ip_sum pkt0) HI) as Hok. pose proof (csum_fold_width (ip_sum pkt0) HI) as Hci.
  destruct C as [i1 i2 t1 t2 E0 L1 L2 L3 ? ? ? ?]; cbn [c_ip1 c_ip2 c_tcp1 c_tcp2] in *.
  assert (negative_tail (skipn 20 pkt0) = negative_tail data) as Hneg.
  { rewrite Hseg, C4, !app_assoc. apply negative_tail_app.
    rewrite !length_app, L3. destruct Vo as [k ->]. exists (10 + k)%nat. cbn [length]. lia. }
  rewrite Hneg in Ec. assert (0 <= c <= 65535) as Hc by (rewrite Ec; apply csum_fold_width, wrap_in_width; lia).
  destruct (sums_by_parts i1 [0; 0] i2 t1 [0; 0] t2 L1 L2 L3 eq_refl eq_refl) as [S1 S2]. rewrite <- E0 in S1, S2.
  set (ci := csum_fold (ip_sum pkt0)) in *. clearbody ci.
  destruct (sums_by_parts i1 (be2 ci) i2 t1 (be2 c) t2 L1 L2 L3 eq_refl eq_refl) as [R1 R2].
  exists opt, ci, c, (tcp_sum pkt0).
  assert (Z.of_nat (length ((i1 ++ be2 ci ++ i2) ++ t1 ++ be2 c ++ t2)) = tot) as HN.
  { rewrite !length_app, L1, L2, L3, C4, !length_app. unfold tot, len. rewrite Hlen.
    change (Z.of_nat sizeof_iphdr) with 20. cbn [length be2]. lia. }
  rewrite HN, R1, R2, !be2_words by lia. change (words [0; 0]) with 0 in S1, S2.
  rewrite Z.add_0_r in S1. repeat split; auto; try lia.
  - rewrite C1, C2, C3, C4. reflexivity.
  - rewrite S1 in Hok. destruct Hok. lia.
  - rewrite S1 in Hok. destruct Hok as [_ Hok]. rewrite <- Hok. f_equal. lia.
Qed.

(** ** Segmentation *)

(** The data of a packet without IP options: what follows the TCP header. *)
Definition packet_data (pkt : list Z) : list Z := skipn (20 + 4 * Z.to_nat (nth 32 pkt 0 / 16)) pkt.
Definition packet_seq (pkt : list Z) : list Z := firstn 4 (skipn 24 pkt).
Definition packet_id (pkt : list Z) : list Z := firstn 2 (skipn 4 pkt).

Lemma forge_packet_fields now fl data pkt :
  tflow_ok fl -> Forall is_byte data -> (length data <= MAX_SEGMENT)%nat ->
  forge_packet now fl data = Some pkt ->
  packet_data pkt = data /\ packet_seq pkt = be4 (seq (tcp fl)) /\ packet_id pkt = be2 (last_ip_id fl + 1).
Proof.
  intros Hf Hd HL E. destruct (forge_packet_shape now fl data pkt Hf Hd HL E) as (h & ci & c & s & -> & Hh & _).
  split; [| split; reflexivity]. unfold packet_data.
  assert (tcp_len_of fl = 20 \/ tcp_len_of fl = 32) as HT
    by (unfold tcp_len_of, sizeof_tcphdr, sizeof_tcp_option_ts; destruct (option_ts (tcp fl) =? 0); auto).
  replace (nth 32 _ 0) with (16 * (tcp_len_of fl / 4) mod 256) by reflexivity.
  rewrite !app_assoc. apply skipn_exact. rewrite !length_app.
  change (length (ip_front _ _)) with 10%nat. change (length (ip_back fl)) with 8%nat.
  change (length (tcp_front _ _)) with 16%nat. cbn [length be2].
  destruct HT as [HT | HT]; rewrite HT in *.
  - change (16 * (20 / 4) mod 256 / 16) with 5. lia.
  - change (16 * (32 / 4) mod 256 / 16) with 8. lia.
Qed.

(** Every [malloc] succeeds and every timestamp can be computed. *)
Definition no_failure (io : nat -> xmit_io) (fl : tflow) : Prop :=
  forall k, malloc_ok (io k) = true /\
    (option_ts (tcp fl) = 0 \/ telex_get_next_tsval (clock (io k)) (last_ts (tcp fl)) (cur_ts (tcp fl)) <> None).

Lemma forge_packet_total now fl data :
  (option_ts (tcp fl) = 0 \/ telex_get_next_tsval now (last_ts (tcp fl)) (cur_ts (tcp fl)) <> None) ->
  exists pkt, forge_packet now fl data = Some pkt.
Proof.
  intros H. unfold forge_packet, telex_fill_ts.
  destruct (Z.eqb_spec (option_ts (tcp fl)) 0) as [_ | N].
  - destruct (tcp_csum _). eauto.
  - destruct H as [H | H]; [contradiction |]. destruct (telex_get_next_tsval _ _ _); [| congruence].
    destruct (tcp_csum _). eauto.
Qed.

(** The flow for the segment after one of [len] bytes. *)
Definition advance (len : Z) (fl : tflow) : tflow :=
  set_ip_id (last_ip_id fl + 1)%u16 (set_seq (seq (tcp fl) + len)%u32 fl).

(** The segments of a payload sent from [fl]: data, sequence numbers and identifiers. *)
Fixpoint segments (fl : tflow) (payload : list Z) (pkts : list (list Z)) : Prop :=
  match pkts with
  | [] => False
  | pkt :: rest =>
      let data := firstn MAX_SEGMENT payload in
      packet_data pkt = data /\ packet_seq pkt = be4 (seq (tcp fl)) /\
      packet_id pkt = be2 (last_ip_id fl + 1) /\
      sum_ok (ip_sum pkt) /\ (negative_tail data = false -> sum_ok (tcp_sum pkt)) /\
      match rest with
      | [] => (length payload <= MAX_SEGMENT)%nat
      | _ => (MAX_SEGMENT < length payload)%nat /\
             segments (advance (Z.of_nat MAX_SEGMENT) fl) (skipn MAX_SEGMENT payload) rest
      end
  end.

Lemma set_seq_seq s fl : seq (tcp (set_seq s fl)) = s.
Proof. reflexivity. Qed.

Lemma set_seq_back fl : set_seq (seq (tcp fl)) fl = fl.
Proof. now destruct fl as [? ? ? ? ? ? []]. Qed.

Lemma packet_checksums now fl data pkt :
  tflow_ok fl -> Forall is_byte data -> (length data <= MAX_SEGMENT)%nat -> forge_packet now fl data = Some pkt ->
  sum_ok (ip_sum pkt) /\ (negative_tail data = false -> sum_ok (tcp_sum pkt)) /\
  (negative_tail data = true -> 2 ^ 17 <= tcp_sum pkt -> ~ sum_ok (tcp_sum pkt)).
Proof.
  intros Hf Hd HL E. destruct (forge_packet_shape now fl data pkt Hf Hd HL E)
    as (h & ci & c & s & _ & _ & Hi & Ht & Hs & Hc & Ec). split; [exact Hi |]. rewrite Ht.
  split; intros Hn; rewrite Hn in Ec.
  - rewrite Z.sub_0_r, wrap_small in Ec by (unfold in_width; lia). subst c.
    apply csum_fold_completes. unfold in_width. lia.
  - intros Hbig [_ Hm]. rewrite wrap_small in Ec by (unfold in_width; lia).
    destruct (csum_fold_spec (s - 65536)) as (r & k & Er & _ & Es & _); [unfold in_width; lia |].
    rewrite <- Ec in Er. replace (s + c) with (1 + (k + 2) * 65535) in Hm by lia.
    rewrite Z.mod_add in Hm by lia. discriminate.
Qed.

Lemma forge_xmit_result fuel k io fl payload :
  tflow_ok fl -> Forall is_byte payload -> no_failure io fl -> (length payload < fuel)%nat ->
  in_width 32 (seq (tcp fl)) ->
  exists r pkts fl', telex_tcp_forge_xmit fuel k io fl payload = Returns r pkts fl' /\
    segments fl payload pkts /\ seq (tcp fl') = seq (tcp fl) /\
    (r = 0 <-> sent (io (k + length pkts - 1)%nat) = Z.of_nat (length (last pkts []))).
Proof.
  revert k fl payload. induction fuel as [| fuel IH]; intros k fl payload Hf Hp Hio HL Hs; [lia |].
  cbn [telex_tcp_forge_xmit]. destruct (Hio k) as [-> Hts]. cbn [negb].
  destruct (forge_packet_total (clock (io k)) fl (firstn MAX_SEGMENT payload) Hts) as [pkt Epkt]. rewrite Epkt.
  assert (Forall is_byte (firstn MAX_SEGMENT payload)) as Hd by now apply Forall_firstn.
  assert (length (firstn MAX_SEGMENT payload) <= MAX_SEGMENT)%nat as Hdl by (rewrite length_firstn; lia).
  destruct (forge_packet_fields _ fl _ pkt Hf Hd Hdl Epkt) as (P1 & P2 & P3).
  destruct (packet_checksums _ fl _ pkt Hf Hd Hdl Epkt) as (P4 & P5 & _).
  destruct (Nat.leb_spec (length payload) MAX_SEGMENT) as [Hle | Hgt].
  - exists (if sent (io k) =? Z.of_nat (length pkt) then 0 else 1), [pkt], fl.
    split; [reflexivity |]. split; [cbn [segments]; tauto |]. split; [reflexivity |].
    cbn [length last]. replace (k + 1 - 1)%nat with k by lia.
    destruct (Z.eqb_spec (sent (io k)) (Z.of_nat (length pkt))); split; congruence || discriminate.
  - rewrite firstn_length_le by lia. fold (advance (Z.of_nat MAX_SEGMENT) fl).
    destruct (IH (S k) (advance (Z.of_nat MAX_SEGMENT) fl) (skipn MAX_SEGMENT payload))
      as (r & pkts & fl' & -> & Hseg & Hseq & Hr); auto.
    + now apply Forall_skipn.
    + rewrite length_skipn. unfold MAX_SEGMENT in *. lia.
    + apply wrap_in_width. lia.
    + exists r, (pkt :: pkts), (set_seq (seq (tcp fl') - Z.of_nat MAX_SEGMENT)%u32 fl').
      split; [reflexivity |]. destruct pkts as [| p1 pkts]; [destruct Hseg |].
      split; [cbn [segments] in *; tauto |]. split.
      * rewrite set_seq_seq, Hseq. unfold advance. cbn [tcp set_ip_id set_seq seq].
        unfold w_sub, w_add, wrap. rewrite Zminus_mod_idemp_l, Z.add_simpl_r. now apply Z.mod_small.
      * rewrite Hr. cbn [length last]. now replace (S k + S (length pkts) - 1)%nat with (k + S (S (length pkts)) - 1)%nat by lia.
Qed.

(** ** Forwarding *)

Lemma fwd_pkt_sum (a b : list Z) ttl proto c :
  length a = 8%nat -> length b = 8%nat -> Forall is_byte (a ++ [ttl; proto] ++ be2 c ++ b) ->
  0 <= c <= 65535 -> ttl < 255 -> ip_ihl (a ++ [ttl; proto] ++ be2 c ++ b) = 5%nat -> forall data res,
  Forall is_byte data ->
  let old := a ++ [ttl; proto] ++ be2 c ++ b in
  let S := words old in
  fst (telex_fwd_pkt (old ++ data) res) =
    a ++ [ttl + 1; proto] ++ be2 (csum_fold (S + 256)) ++ b ++ data /\
  ip_sum (fst (telex_fwd_pkt (old ++ data) res)) = S + 256 - c + csum_fold (S + 256) /\
  0 <= S + 256 < 2 ^ 32.
Proof.
  intros La Lb HB Hc Ht Hihl data res Hd old S.
  assert (Nat.Even (length a) /\ Nat.Even (length b)) as [Va Vb] by (rewrite La, Lb; split; now exists 4%nat).
  assert (forall t, Nat.Even (length [t; proto])) as V2 by (intros t; now exists 1%nat).
  assert (forall x, Nat.Even (length (be2 x))) as V3 by (intros x; now exists 1%nat).
  assert (length old = 20%nat) as Lo by (unfold old; rewrite !length_app, La, Lb; reflexivity).
  assert (words (a ++ [ttl + 1; proto] ++ be2 c ++ b) = S + 256) as ES
    by (unfold S, old; rewrite !words_app by auto; cbn [words]; lia).
  pose proof (words_bound old HB) as WB. fold S in WB. rewrite Lo in WB. change ((Z.of_nat 20 + 1) / 2) with 10 in WB.
  rewrite !Forall_app in HB. destruct HB as (Ba & B2 & Bc & Bb).
  inversion_clear B2 as [| ? ? Bt B2']. inversion_clear B2' as [| ? ? Bp _].
  assert (overwrite 8 [(nth 8 (old ++ data) 0 + 1) mod 256] (old ++ data) =
          a ++ [ttl + 1; proto] ++ be2 c ++ b ++ data) as E1.
  { unfold old. rewrite <- !app_assoc. rewrite app_nth2 by lia. rewrite La. cbn [Nat.sub nth app].
    unfold is_byte in Bt. rewrite Z.mod_small by lia. rewrite <- La.
    exact (overwrite_field a [ttl + 1] [ttl] ([proto] ++ be2 c ++ b ++ data) eq_refl). }
  unfold telex_fwd_pkt. rewrite E1. cbn [fst].
  assert (ip_ihl (a ++ [ttl + 1; proto] ++ be2 c ++ b ++ data) = 5%nat) as ->.
  { unfold ip_ihl in *. rewrite app_nth1 in Hihl |- * by lia. exact Hihl. }
  rewrite csum_is_fold, csum_loop_words;
    [| bytes_tac; unfold is_byte in *; lia | rewrite !length_app, La, Lb; cbn [length be2]; lia | unfold in_width; lia].
  change (2 * (2 * 5))%nat with 20%nat.
  replace (a ++ [ttl + 1; proto] ++ be2 c ++ b ++ data) with ((a ++ [ttl + 1; proto] ++ be2 c ++ b) ++ data)
    by now rewrite <- !app_assoc.
  rewrite firstn_exact by (rewrite !length_app, La, Lb; reflexivity).
  rewrite ES, Z.add_0_l, wrap_small by (unfold in_width; lia).
  replace ((a ++ [ttl + 1; proto] ++ be2 c ++ b) ++ data) with ((a ++ [ttl + 1; proto]) ++ be2 c ++ b ++ data)
    by now rewrite <- !app_assoc.
  replace 10%nat with (length (a ++ [ttl + 1; proto])) by (rewrite length_app, La; reflexivity).
  rewrite overwrite_field by reflexivity. rewrite <- !app_assoc. split; [reflexivity | split; [| lia]].
  unfold ip_sum. rewrite !app_assoc. rewrite firstn_exact by (rewrite !length_app, La, Lb; reflexivity).
  rewrite <- !app_assoc, !words_app by auto.
  pose proof (csum_fold_width (S + 256) ltac:(unfold in_width; lia)) as W. rewrite be2_words by lia.
  revert ES. rewrite !words_app, be2_words by (auto || lia). lia.
Qed.

(** ** Theorems *)

(** C40: [telex_tcp_forge_xmit] cuts the payload into segments of at most 1448 bytes that
    together are the payload, with consecutive sequence numbers and IP identifiers and
    valid IP checksums, and gives the flow its sequence number back; its result only
    tells whether the last segment was sent. *)
Theorem forge_xmit_segments io fl payload :
  tflow_ok fl -> Forall is_byte payload -> no_failure io fl -> in_width 32 (seq (tcp fl)) ->
  exists r pkts fl', telex_tcp_forge_xmit (S (length payload)) 0 io fl payload = Returns r pkts fl' /\
    segments fl payload pkts /\ concat (map packet_data pkts) = payload /\
    seq (tcp fl') = seq (tcp fl) /\
    (r = 0 <-> sent (io (length pkts - 1)%nat) = Z.of_nat (length (last pkts []))).
Proof.
  intros Hf Hp Hio Hs.
  destruct (forge_xmit_result (S (length payload)) 0 io fl payload Hf Hp Hio ltac:(lia) Hs)
    as (r & pkts & fl' & E & Hseg & Hseq & Hr).
  exists r, pkts, fl'. repeat split; auto; try (apply Hr). clear - Hseg. revert fl payload Hseg.
  induction pkts as [| p pkts IH]; intros fl payload Hseg; [destruct Hseg |].
  cbn [segments map concat] in *. destruct Hseg as (-> & _ & _ & _ & _ & Hrest). destruct pkts as [| p' pkts].
  - cbn [map concat]. rewrite app_nil_r. now apply firstn_all2.
  - destruct Hrest as [_ Hrest]. rewrite (IH _ _ Hrest). apply firstn_skipn.
Qed.

Definition ts0 : telex_tcp_ts := Ts (Timeval 100 0) 5000 77.
Definition ts1 : telex_tcp_ts := Ts (Timeval 101 0) 5250 78.
Definition toy_flow : tflow :=
  TFlow 0x0100000a 0x04030201 0x39c2 0xbb01 64 9 (TcpInfo 4294967000 1000 8192 ts0 ts1 1 0).
Definition toy_io (k : nat) : xmit_io := XmitIO true 1500 (Timeval 102 0).

Lemma forge_xmit_segments_witness :
  exists r pkts fl', telex_tcp_forge_xmit 1601 0 toy_io toy_flow (repeat 65 1600) = Returns r pkts fl' /\
    concat (map packet_data pkts) = repeat 65 1600.
Proof.
  destruct (forge_xmit_segments toy_io toy_flow (repeat 65 1600)) as (r & pkts & fl' & E & _ & C & _).
  - unfold tflow_ok, is_byte. cbn. lia.
  - apply Forall_forall. intros x Hx. apply repeat_spec in Hx as ->. unfold is_byte. lia.
  - intros k. split; [reflexivity |]. right. vm_compute. discriminate.
  - now split.
  - rewrite repeat_length in E. exists r, pkts, fl'. split; [exact E | exact C].
Defined.

(** The checksums of a forged packet: the IP header's is always right; TCP's is right
    unless the data has odd length and ends in a byte above 127, which the code reads as
    a negative [char], and then the packet is one that its receiver rejects. *)
Theorem forged_checksums now fl data pkt :
  tflow_ok fl -> Forall is_byte data -> (length data <= MAX_SEGMENT)%nat -> forge_packet now fl data = Some pkt ->
  sum_ok (ip_sum pkt) /\ (negative_tail data = false -> sum_ok (tcp_sum pkt)) /\
  (negative_tail data = true -> 2 ^ 17 <= tcp_sum pkt -> ~ sum_ok (tcp_sum pkt)).
Proof. apply packet_checksums. Qed.

Lemma forged_checksums_witness :
  match forge_packet (Timeval 102 0) toy_flow [65; 66; 200] with
  | Some pkt => ~ sum_ok (tcp_sum pkt)
  | None => False
  end.
Proof.
  destruct (forge_packet (Timeval 102 0) toy_flow [65; 66; 200]) as [pkt |] eqn:E; [| vm_compute in E; discriminate].
  refine (proj2 (proj2 (forged_checksums (Timeval 102 0) toy_flow [65; 66; 200] pkt _ _ _ E)) eq_refl _).
  - unfold tflow_ok, is_byte. cbn. lia.
  - bytes_tac.
  - unfold MAX_SEGMENT. cbn. lia.
  - vm_compute in E. apply Some_eq in E as <-. vm_compute. discriminate.
Defined.

(** The extrapolated timestamp: with two samples [k] microseconds per tick apart, the
    value [m] ticks and a part of one later is the current value plus [m], modulo 2^32;
    and the computation divides by zero exactly when the samples are less than a
    microsecond per tick apart. *)
Theorem next_tsval_extrapolates now last cur k m r d :
  tsval cur = (tsval last + d) mod 2 ^ 32 -> 0 < d < 2 ^ 32 -> in_width 32 (tsval last) ->
  0 <= k < 2 ^ 32 -> 0 <= m -> 0 <= r -> (0 < k -> r < k) ->
  telex_get_tv_diff (tv last) (tv cur) = k * d -> telex_get_tv_diff (tv cur) now = m * k + r ->
  telex_get_next_tsval now last cur =
    if k =? 0 then None else Some ((tsval last + d + m) mod 2 ^ 32).
Proof.
  intros Ec Hd Hl Hk Hm Hr Hrk E1 E2. unfold telex_get_next_tsval. rewrite E1, E2, Ec.
  assert (((tsval last + d) mod 2 ^ 32 - tsval last)%u32 = d) as ->.
  { unfold w_sub, wrap. rewrite Zminus_mod_idemp_l. rewrite Z.add_simpl_l. apply Z.mod_small. lia. }
  destruct (Z.eqb_spec d 0); [lia |]. rewrite Z.div_mul, wrap_small by (assumption || lia).
  destruct (Z.eqb_spec k 0); [reflexivity |]. rewrite Z.div_add_l, (Z.div_small r), Z.add_0_r by lia.
  unfold wrap. now rewrite Zplus_mod_idemp_l.
Qed.

Lemma next_tsval_extrapolates_witness :
  telex_get_next_tsval (Timeval 102 5000) ts0 ts1 = Some 5501 /\
  telex_get_next_tsval (Timeval 102 5000) ts0 ts1 =
    if 4000 =? 0 then None else Some ((tsval ts0 + 250 + 251) mod 2 ^ 32).
Proof.
  split; [reflexivity |].
  apply (next_tsval_extrapolates (Timeval 102 5000) ts0 ts1 4000 251 1000 250);
    try reflexivity; unfold in_width; cbn; lia.
Defined.

(** [telex_fwd_pkt] increments the TTL but sums the header without clearing the old
    checksum: a header that was valid is forwarded with an invalid one, unless its
    checksum field was all zeros or all ones. *)
Theorem fwd_pkt_breaks_checksum a b ttl proto c data res :
  length a = 8%nat -> length b = 8%nat -> Forall is_byte (a ++ [ttl; proto] ++ be2 c ++ b) ->
  0 <= c <= 65535 -> ttl < 255 -> ip_ihl (a ++ [ttl; proto] ++ be2 c ++ b) = 5%nat ->
  Forall is_byte data -> sum_ok (ip_sum ((a ++ [ttl; proto] ++ be2 c ++ b) ++ data)) ->
  sum_ok (ip_sum (fst (telex_fwd_pkt ((a ++ [ttl; proto] ++ be2 c ++ b) ++ data) res))) <->
  c = 0 \/ c = 65535.
Proof.
  intros La Lb HB Hc Ht Hihl Hd Hok.
  destruct (fwd_pkt_sum a b ttl proto c La Lb HB Hc Ht Hihl data res Hd) as (_ & -> & HS).
  unfold ip_sum in Hok. rewrite firstn_exact in Hok by (rewrite !length_app, La, Lb; reflexivity).
  set (S := words _) in *. destruct Hok as [HP HM].
  destruct (csum_fold_completes (S + 256) HS) as [HP' HM']. pose proof (csum_fold_width (S + 256) HS).
  replace (S + 256 - c + csum_fold (S + 256)) with ((S + 256 + csum_fold (S + 256)) - c) by lia.
  rewrite (Z.mod_divide _ 65535 ltac:(lia)) in HM'. destruct HM' as [q Eq]. unfold sum_ok. rewrite Eq.
  replace (q * 65535 - c) with (- c + q * 65535) by lia. rewrite Z.mod_add by lia. split.
  - intros [_ HX]. apply Z.mod_divide in HX as [p Ep]; [| lia]. lia.
  - intros [-> | ->]; [split; [lia | reflexivity] |]. split; [| reflexivity].
    assert (q <> 1); [| lia]. intros ->. destruct (csum_fold_spec (S + 256) HS) as (r & k & Er & Hr & Es & Hz).
    rewrite Z.mod_divide in HM by lia. destruct HM as [p Ep]. lia.
Qed.

Lemma fwd_pkt_breaks_checksum_witness :
  sum_ok (ip_sum (fst (telex_fwd_pkt (([0x45; 0; 0; 20; 0; 0; 0x40; 0] ++ [64; 6] ++ be2 0x2cde ++ [10; 0; 0; 1; 1; 2; 3; 4]) ++ []) 20))) <->
  0x2cde = 0 \/ 0x2cde = 65535.
Proof.
  apply (fwd_pkt_breaks_checksum [0x45; 0; 0; 20; 0; 0; 0x40; 0] [10; 0; 0; 1; 1; 2; 3; 4] 64 6 0x2cde [] 20);
    try reflexivity; try lia; bytes_tac. split; reflexivity.
Defined.
