(* ===== verification/SkForge.v ===== *)
(** * The forged kernel socket

    [setup_fake_socket] of the relay fills a [struct sock_state] from the flow that Bro
    saw, and passes it with the [ioctl] 0xFACE to [station/linuxmod/tcp_sk_forge.c],
    which clones the listening socket into an established one that continues the
    client's TCP connection.

    Functions of the kernel outside the module are a parameter: at each call they may
    change the new socket.  Of the fields that the module sets they adjust the clamp and the
    threshold of the receive window ([tcp_init_buffer_space]) and the use of forward
    acknowledgements ([tcp_init_metrics]); they leave the other ones, by which the socket
    takes part in its connection ([lasting]).
    Locks, references and the new descriptor are recorded in a trace. *)
From S2P Require Import Prelude Bytes CLib.
From Stdlib Require Import ZArith Lia List Bool.
Import ListNotations.
Open Scope Z_scope.

(** ** Data *)

(** [struct telex_tcp_info] and [struct flow] as Bro passes them. *)
Record tcp_state := TcpState {
  f_seq : Z; f_ack : Z; f_rcv_window : Z; f_rcv_window_scale : Z;
  f_snd_window : Z; f_snd_window_scale : Z;
  f_cur_tsval : Z; f_cur_tsecr : Z; f_option_ts : Z; f_option_sack : Z }.
Record flow := Flow { orig_h : Z; resp_h : Z; orig_p : Z; resp_p : Z; ftcp : tcp_state }.

(** [struct sock_state], the members that the code sets or reads. *)
Record sock_state := SockState {
  sport : Z; dport : Z; saddr : Z; daddr : Z; mss_clamp : Z; rcv_nxt : Z; snd_nxt : Z; snd_una : Z;
  snd_wnd : Z; ts_recent : Z; ts_val : Z; tstamp_ok : Z; sack_ok : Z; wscale_ok : Z;
  snd_wscale : Z; rcv_wscale : Z; ecn_ok : Z; rcv_wnd : Z }.

(** The filling of [s_st] in [setup_fake_socket]; the window scales are stored in a byte. *)
Definition make_sock_state (f : flow) : sock_state :=
  let t := ftcp f in
  {| dport := resp_p f; daddr := resp_h f; saddr := orig_h f; sport := orig_p f;
     rcv_nxt := f_ack t; snd_nxt := f_seq t; snd_una := (f_seq t + 1)%u32;
     tstamp_ok := if f_option_ts t =? 0 then 0 else 1;
     sack_ok := if f_option_sack t =? 0 then 0 else 1;
     rcv_wnd := f_rcv_window t; snd_wnd := f_snd_window t; wscale_ok := 1;
     rcv_wscale := wrap 8 (f_rcv_window_scale t); snd_wscale := wrap 8 (f_snd_window_scale t);
     ts_recent := f_cur_tsecr t; ts_val := f_cur_tsval t; mss_clamp := 1460; ecn_ok := 0 |}.

Inductive tcp_sk_state := TCP_LISTEN | TCP_SYN_RECV | TCP_ESTABLISHED.

(** How a socket takes part in its connection: addresses and ports, sequence numbers,
    windows, and options, the fields that the module sets. *)
Record addrs := Addrs {
  inet_daddr : Z; inet_rcv_saddr : Z; inet_saddr : Z; inet_dport : Z; inet_num : Z; inet_sport : Z }.
Record seqs := Seqs {
  k_rcv_nxt : Z; k_rcv_wup : Z; copied_seq : Z;
  k_snd_nxt : Z; k_snd_una : Z; snd_sml : Z; snd_up : Z; write_seq : Z; pushed_seq : Z }.
Record wins := Wins {
  window_clamp : Z; k_rcv_wnd : Z; rcv_ssthresh : Z; k_snd_wnd : Z; max_window : Z;
  k_wscale_ok : Z; k_snd_wscale : Z; k_rcv_wscale : Z }.
Record opts := Opts {
  k_tstamp_ok : Z; k_ts_recent : Z; ts_recent_stamp : Z; ts_offset : Z; tcp_header_len : Z;
  k_sack_ok : Z; fack : bool; k_mss_clamp : Z; ecn_flags : Z }.
Record conn_fields := ConnFields { c_addrs : addrs; c_seqs : seqs; c_wins : wins; c_opts : opts }.

(** [struct sock]: its state, its connection, the advertised segment size, and the rest,
    which includes the counters that a new connection starts at zero. *)
Record sock (R : Type) := Sock { sk_state : tcp_sk_state; conn : conn_fields; advmss : Z; rest : R }.
Arguments Sock {R}. Arguments sk_state {R}. Arguments conn {R}. Arguments advmss {R}. Arguments rest {R}.

Inductive action :=
| LockSock | ReleaseSock | BhDisable | BhEnable | BhLockNew | BhUnlockNew
| DstRelease (initialised : bool) | SockPut | Hashed | Graft | MapFd (fd : Z) | CloseFd (fd : Z) | SockRelease.

(** Where the module calls the kernel on the new socket. *)
Inductive stage :=
| Reset_counters | Setup_caps | Sync_mss | State_change | Rtt_metrics | Init_buffers.

Definition EINVAL : Z := 22.
Definition EFAULT : Z := 14.
Definition TCPOLEN_TSTAMP_ALIGNED : Z := 12.
Definition sizeof_tcphdr : Z := 20.
Definition TCP_ECN_OK : Z := 1.
Definition ntohs (x : Z) : Z := 256 * (x mod 256) + x / 256 mod 256.

Section Kernel.
Context {R : Type} (kernel : stage -> sock R -> sock R).

(** The answers of the kernel: the clone, the route, whether the port can be inherited,
    [sock_create_lite], [sock_map_fd], [copy_from_user]; the clock and settings. *)
Record kernel_io := KernelIO {
  clone_ok : bool; route_ok : bool; inherit_r : Z; copy_ok : bool; create_r : Z; map_fd : Z;
  seconds : Z; jiffies_ts : Z; sysctl_fack : bool; dst_advmss : Z; user_mss : Z }.

Definition set_conn (f : conn_fields -> conn_fields) (s : sock R) : sock R :=
  Sock (sk_state s) (f (conn s)) (advmss s) (rest s).

(** [inet_csk_forge] *)
Definition inet_csk_forge (io : kernel_io) (sk : sock R) (sp dp : Z) : option (sock R) :=
  if negb (clone_ok io) then None else
  let c := conn sk in
  let a := c_addrs c in
  Some (Sock TCP_SYN_RECV
    (ConnFields (Addrs (inet_daddr a) (inet_rcv_saddr a) (inet_saddr a) sp (ntohs dp) dp)
                (c_seqs c) (c_wins c) (c_opts c))
    (advmss sk) (rest sk)).

(** The connection fields that [tcp_forge_openreq_child] sets. *)
Definition forge_seqs (st : sock_state) (q : seqs) : seqs :=
  {| k_rcv_nxt := rcv_nxt st; k_rcv_wup := rcv_nxt st; copied_seq := rcv_nxt st;
     k_snd_nxt := snd_nxt st; snd_sml := snd_nxt st; snd_up := snd_nxt st; k_snd_una := k_snd_una q;
     write_seq := snd_nxt st; pushed_seq := snd_nxt st |}.

Definition forge_wins (st : sock_state) : wins :=
  let ws := negb (wscale_ok st =? 0) in
  let snd_ws := if ws then snd_wscale st else 0 in
  let clamp := (65535 << 14)%u32 in
  {| window_clamp := if ws then clamp else Z.min clamp 65535;
     k_rcv_wnd := (rcv_wnd st << rcv_wscale st)%u32; rcv_ssthresh := (rcv_wnd st << rcv_wscale st)%u32;
     k_wscale_ok := wscale_ok st; k_snd_wscale := snd_ws;
     k_rcv_wscale := if ws then rcv_wscale st else 0;
     k_snd_wnd := (snd_wnd st << snd_ws)%u32; max_window := (snd_wnd st << snd_ws)%u32 |}.

Definition forge_opts (io : kernel_io) (st : sock_state) (o : opts) : opts :=
  let ts := negb (tstamp_ok st =? 0) in
  {| k_tstamp_ok := if ts then 1 else 0;
     k_ts_recent := if ts then ts_recent st else k_ts_recent o;
     ts_recent_stamp := if ts then seconds io else 0;
     ts_offset := if ts then (ts_val st - jiffies_ts io)%u32 else 0;
     tcp_header_len := if ts then sizeof_tcphdr + TCPOLEN_TSTAMP_ALIGNED else sizeof_tcphdr;
     k_sack_ok := sack_ok st; fack := if negb (sack_ok st =? 0) && sysctl_fack io then true else fack o;
     k_mss_clamp := mss_clamp st; ecn_flags := if ecn_ok st =? 0 then 0 else TCP_ECN_OK |}.

Definition forge_fields (io : kernel_io) (st : sock_state) (c : conn_fields) : conn_fields :=
  ConnFields (c_addrs c) (forge_seqs st (c_seqs c)) (forge_wins st) (forge_opts io st (c_opts c)).

(** [tcp_forge_openreq_child] *)
Definition tcp_forge_openreq_child (io : kernel_io) (sk : sock R) (st : sock_state) : option (sock R) :=
  match inet_csk_forge io sk (sport st) (dport st) with
  | None => None
  | Some newsk => Some (set_conn (forge_fields io st) (kernel Reset_counters newsk))
  end.

(** [fake_inet_csk_route_req]: the route is looked up from the station to the client. *)
Definition fake_inet_csk_route_req (io : kernel_io) (st : sock_state) : option (Z * Z) :=
  if route_ok io then Some (daddr st, saddr st) else None.

Definition set_addresses (st : sock_state) (c : conn_fields) : conn_fields :=
  let a := c_addrs c in
  ConnFields (Addrs (saddr st) (daddr st) (daddr st) (inet_dport a) (inet_num a) (inet_sport a))
             (c_seqs c) (c_wins c) (c_opts c).

(** [tcp_v4_forge_syn_recv_sock]: on failure [dst] is released, also when it was never
    set. *)
Definition tcp_v4_forge_syn_recv_sock (io : kernel_io) (sk : sock R) (st : sock_state)
    : option (sock R) * list action :=
  match fake_inet_csk_route_req io st with
  | None => (None, [DstRelease false])
  | Some _ =>
      match tcp_forge_openreq_child io sk st with
      | None => (None, [DstRelease true])
      | Some newsk =>
          let newsk := set_conn (set_addresses st) (kernel Setup_caps newsk) in
          let newsk := kernel Sync_mss newsk in
          let mss := if negb (user_mss io =? 0) && (user_mss io <? dst_advmss io) then user_mss io else dst_advmss io in
          (Some (Sock (sk_state newsk) (conn newsk) mss (rest newsk)), [BhLockNew])
      end
  end.

(** [tp->copied_seq = tp->rcv_nxt], and [tp->snd_una = tp->snd_up = st->snd_una]. *)
Definition set_copied (c : conn_fields) : conn_fields :=
  let q := c_seqs c in
  ConnFields (c_addrs c)
    (Seqs (k_rcv_nxt q) (k_rcv_wup q) (k_rcv_nxt q) (k_snd_nxt q) (k_snd_una q) (snd_sml q) (snd_up q)
          (write_seq q) (pushed_seq q))
    (c_wins c) (c_opts c).
Definition set_acked (st : sock_state) (c : conn_fields) : conn_fields :=
  let q := c_seqs c in
  ConnFields (c_addrs c)
    (Seqs (k_rcv_nxt q) (k_rcv_wup q) (copied_seq q) (k_snd_nxt q) (snd_una st) (snd_sml q) (snd_una st)
          (write_seq q) (pushed_seq q))
    (c_wins c) (c_opts c).

(** [fake_recved_ack] *)
Definition fake_recved_ack (sk : sock R) (st : sock_state) : sock R :=
  let sk := kernel State_change (Sock TCP_ESTABLISHED (set_copied (conn sk)) (advmss sk) (rest sk)) in
  let sk := kernel Rtt_metrics (set_conn (set_acked st) sk) in
  let mss := if k_tstamp_ok (c_opts (conn sk)) =? 0 then advmss sk
             else (advmss sk - TCPOLEN_TSTAMP_ALIGNED)%u16 in
  kernel Init_buffers (Sock (sk_state sk) (conn sk) mss (rest sk)).

(** [fake_inet_csk_accept]: the new socket or an error, and the trace. *)
Definition fake_inet_csk_accept (io : kernel_io) (sk : sock R) (st : sock_state)
    : option (sock R) * Z * list action :=
  match tcp_v4_forge_syn_recv_sock io sk st with
  | (None, acts) => (None, - EINVAL, [LockSock] ++ acts)
  | (Some newsk, acts) =>
      let newsk := fake_recved_ack newsk st in
      if inherit_r io <? 0
      then (None, - EINVAL, [LockSock] ++ acts ++ [BhDisable; SockPut; BhEnable])
      else (Some newsk, 0, [LockSock] ++ acts ++ [BhDisable; Hashed; ReleaseSock; BhEnable])
  end.

(** [fake_inet_accept] *)
Definition fake_inet_accept (io : kernel_io) (sk : sock R) (st : sock_state)
    : option (sock R) * Z * list action :=
  match fake_inet_csk_accept io sk st with
  | (None, err, acts) => (None, err, acts)
  | (Some sk2, _, acts) => (Some sk2, 0, acts ++ [Graft; BhUnlockNew; SockPut])
  end.

(** [fake_accept_ioctl]: the descriptor or a negative error. *)
Definition fake_accept_ioctl (io : kernel_io) (sk : sock R) (st : sock_state)
    : option (sock R) * Z * list action :=
  if negb (copy_ok io) then (None, - EFAULT, []) else
  if create_r io <? 0 then (None, create_r io, []) else
  if map_fd io <? 0 then (None, map_fd io, [SockRelease]) else
  match fake_inet_accept io sk st with
  | (r, err, acts) =>
      if err <? 0 then (None, err, [MapFd (map_fd io)] ++ acts ++ [CloseFd (map_fd io)])
      else (r, map_fd io, [MapFd (map_fd io)] ++ acts)
  end.

(** What the kernel's own functions leave: [tcp_init_buffer_space] bounds [window_clamp] and lowers [rcv_ssthresh], and
    [tcp_init_metrics] may disable forward acknowledgements. *)
Definition lasting (c : conn_fields) : conn_fields :=
  let w := c_wins c in let o := c_opts c in
  ConnFields (c_addrs c) (c_seqs c)
    (Wins 0 (k_rcv_wnd w) 0 (k_snd_wnd w) (max_window w) (k_wscale_ok w) (k_snd_wscale w) (k_rcv_wscale w))
    (Opts (k_tstamp_ok o) (k_ts_recent o) (ts_recent_stamp o) (ts_offset o) (tcp_header_len o) (k_sack_ok o) false (k_mss_clamp o) (ecn_flags o)).

Definition keeps_connection : Prop := forall g s, sk_state (kernel g s) = sk_state s /\ lasting (conn (kernel g s)) = lasting (conn s).

Context (kernel_keeps : keeps_connection).

Lemma kernel_conn g s : lasting (conn (kernel g s)) = lasting (conn s).
Proof using kernel_keeps. apply kernel_keeps. Qed.
Lemma kernel_state g s : sk_state (kernel g s) = sk_state s.
Proof using kernel_keeps. apply kernel_keeps. Qed.

(** The module's own assignments depend on no field that the kernel adjusts. *)
Lemma lasting_forge io st c c' : lasting c = lasting c' -> lasting (forge_fields io st c) = lasting (forge_fields io st c').
Proof. destruct c as [? ? [] []], c' as [? ? [] []]. unfold lasting. cbn. intros E. injection E. intros. now subst. Qed.
Lemma lasting_addresses st c c' : lasting c = lasting c' -> lasting (set_addresses st c) = lasting (set_addresses st c').
Proof. destruct c as [? ? [] []], c' as [? ? [] []]. unfold lasting. cbn. intros E. injection E. intros. now subst. Qed.
Lemma lasting_copied c c' : lasting c = lasting c' -> lasting (set_copied c) = lasting (set_copied c').
Proof. destruct c as [? ? [] []], c' as [? ? [] []]. unfold lasting. cbn. intros E. injection E. intros. now subst. Qed.
Lemma lasting_acked st c c' : lasting c = lasting c' -> lasting (set_acked st c) = lasting (set_acked st c').
Proof. destruct c as [? ? [] []], c' as [? ? [] []]. unfold lasting. cbn. intros E. injection E. intros. now subst. Qed.

(** The forged connection, in one equation. *)
Lemma accept_success io sk st newsk r acts :
  fake_accept_ioctl io sk st = (Some newsk, r, acts) ->
  r = map_fd io /\ 0 <= r /\ sk_state newsk = TCP_ESTABLISHED /\
  lasting (conn newsk) = lasting (set_acked st (set_copied (set_addresses st (forge_fields io st
    (ConnFields (Addrs (inet_daddr (c_addrs (conn sk))) (inet_rcv_saddr (c_addrs (conn sk)))
                       (inet_saddr (c_addrs (conn sk))) (sport st) (ntohs (dport st)) (dport st))
                (c_seqs (conn sk)) (c_wins (conn sk)) (c_opts (conn sk))))))) /\
  acts = [MapFd (map_fd io); LockSock; BhLockNew; BhDisable; Hashed; ReleaseSock; BhEnable; Graft; BhUnlockNew; SockPut].
Proof using kernel_keeps.
  unfold fake_accept_ioctl, fake_inet_accept, fake_inet_csk_accept, tcp_v4_forge_syn_recv_sock,
    tcp_forge_openreq_child, fake_inet_csk_route_req, inet_csk_forge.
  destruct (copy_ok io); [| discriminate]. destruct (create_r io <? 0); [discriminate |].
  destruct (Z.ltb_spec (map_fd io) 0); [discriminate |].
  destruct (route_ok io), (clone_ok io), (inherit_r io <? 0); cbn; try discriminate.
  intros [= <- <- <-]. unfold fake_recved_ack. repeat split; auto.
  - repeat (rewrite kernel_state; cbn [sk_state set_conn]). reflexivity.
  - rewrite kernel_conn. cbn [conn set_conn]. rewrite kernel_conn. cbn [conn set_conn]. apply lasting_acked. rewrite kernel_conn. cbn [conn set_conn].
    apply lasting_copied. rewrite kernel_conn. cbn [conn set_conn]. apply lasting_addresses. rewrite kernel_conn. cbn [conn set_conn].
    apply lasting_forge. rewrite kernel_conn. reflexivity.
Qed.
End Kernel.

(** ** Theorems *)


(** A kernel that bounds the windows as [tcp_init_buffer_space] does. *)
Definition toy_kernel (g : stage) (s : sock nat) : sock nat :=
  let c := conn s in let w := c_wins c in
  let w := match g with
           | Init_buffers => Wins (Z.min (window_clamp w) 87380) (k_rcv_wnd w) (Z.min (rcv_ssthresh w) (Z.min (window_clamp w) 87380)) (k_snd_wnd w) (max_window w)
                                  (k_wscale_ok w) (k_snd_wscale w) (k_rcv_wscale w)
           | _ => w
           end in
  Sock (sk_state s) (ConnFields (c_addrs c) (c_seqs c) w (c_opts c)) (advmss s) (S (rest s)).

Lemma toy_kernel_keeps : keeps_connection toy_kernel.
Proof. intros [] s; split; reflexivity. Qed.

Definition toy_listener : sock nat :=
  Sock TCP_LISTEN (ConnFields (Addrs 0 0 0 0 443 47873) (Seqs 0 0 0 0 0 0 0 0 0) (Wins 0 0 0 0 0 0 0 0)
    (Opts 0 0 0 0 20 0 false 536 0)) 1460 0%nat.
Definition toy_kio : kernel_io := KernelIO true true 0 true 0 33 1700000000 999 true 1460 0.
Definition seen_flow : flow :=
  Flow 0x0100000a 0x04030201 0x39c2 0xbb01 (TcpState 7000 9000 512 7 1024 7 123456 88 1 1).


(** When the socket cannot be forged (no route, no memory, or the port cannot be
    inherited) the [ioctl] fails with [EINVAL] and closes the new descriptor, but the
    listening socket stays locked; without a route it also releases a destination that
    was never set. *)
Theorem forge_failure_keeps_lock {R} (kernel : stage -> sock R -> sock R) io sk st :
  copy_ok io = true -> 0 <= create_r io -> 0 <= map_fd io ->
  route_ok io && clone_ok io && (0 <=? inherit_r io) = false ->
  exists acts, fake_accept_ioctl kernel io sk st = (None, - EINVAL, acts) /\
    In LockSock acts /\ ~ In ReleaseSock acts /\ In (CloseFd (map_fd io)) acts /\
    (In (DstRelease false) acts <-> route_ok io = false) /\
    (In BhLockNew acts -> ~ In BhUnlockNew acts).
Proof.
  intros Hcp Hcr Hfd Hfail.
  unfold fake_accept_ioctl, fake_inet_accept, fake_inet_csk_accept, tcp_v4_forge_syn_recv_sock,
    tcp_forge_openreq_child, fake_inet_csk_route_req, inet_csk_forge.
  rewrite Hcp, (proj2 (Z.ltb_ge _ _) Hcr), (proj2 (Z.ltb_ge _ _) Hfd).
  destruct (route_ok io), (clone_ok io); cbn [andb negb] in *;
    try rewrite Z.ltb_antisym, Hfail; cbn; eexists; (split; [reflexivity |]); cbn;
    intuition congruence.
Qed.

Lemma forge_failure_keeps_lock_witness :
  exists acts, fake_accept_ioctl toy_kernel (KernelIO true false 0 true 0 33 0 0 true 1460 0) toy_listener
      (make_sock_state seen_flow) = (None, - EINVAL, acts) /\ ~ In ReleaseSock acts.
Proof.
  destruct (forge_failure_keeps_lock toy_kernel (KernelIO true false 0 true 0 33 0 0 true 1460 0) toy_listener
    (make_sock_state seen_flow)) as (acts & E & _ & N & _); [reflexivity | cbn; lia | cbn; lia | reflexivity |].
  exists acts. split; assumption.
Defined.
