(* ===== verification/Httpd.v ===== *)
(** * The station's statistics

    [station/net/httpd.c]: the users and connections per port of the open connections,
    the statistics line that is logged every five seconds, the query parameters of the
    charts, the sampling of the log for a chart and the rows of the charts per port.

    The connections are those of [Bronnect]; a hash table is a finite map, iterated in
    the order [elements] and [map_to_list] give.  Text is a list of character codes. *)
From S2P Require Import Prelude Bytes CLib Logger Client Bronnect.
From Stdlib Require Import String ZArith Lia List Bool.
From stdpp Require Import gmap list sorting.
Import ListNotations.
Open Scope Z_scope.
Open Scope list_scope.

(** ** Users and connections per port *)

(** [struct port_stats] in the tables: the client addresses seen and the connections. *)
Record usage := Usage { users : gset Z; connections : Z }.

(** [update_port_usage] *)
Definition update_port_usage (t : gmap Z usage) (key_port client_ip : Z) : gmap Z usage :=
  let pstats := match t !! key_port with Some p => p | None => Usage ∅ 0 end in
  <[ key_port := Usage (users pstats ∪ {[ client_ip ]}) (connections pstats + 1)%u64 ]> t.

(** The loop over the open connections, in [httpd_log] and [httpd_handler]. *)
Definition count_ports (conns : list ConnectionState) : gmap Z usage :=
  fold_left (fun t st => update_port_usage t (key_port st) (orig_h (flow_state st))) conns ∅.

Definition unique_clients (conns : list ConnectionState) : gset Z :=
  fold_left (fun s st => s ∪ {[ orig_h (flow_state st) ]}) conns ∅.

(** ** The statistics line *)

Definition MAX_PORTS : Z := 15.
Definition MAX_HTTPD_LINE_SIZE : Z := 125 + MAX_PORTS * 20.
Definition HTTPD_LOG_INTERVAL : Z := 5.

(** [struct port_stats] in the array that is sorted and printed. *)
Record port_stats := PortStats { port : Z; users_size : Z; ps_connections : Z }.

(** [port_stat_cmp] and [qsort] with it. *)
Definition port_stat_cmp (p1 p2 : port_stats) : Z :=
  if port p1 <? port p2 then -1 else if port p2 <? port p1 then 1 else 0.

Fixpoint insert_port (p : port_stats) (l : list port_stats) : list port_stats :=
  match l with
  | [] => [p]
  | q :: r => if port_stat_cmp p q <=? 0 then p :: l else q :: insert_port p r
  end.
Definition qsort (l : list port_stats) : list port_stats := fold_right insert_port [] l.

Definition port_array (t : gmap Z usage) : list port_stats :=
  qsort (map (fun e => PortStats (fst e) (Z.of_nat (size (users (snd e)))) (connections (snd e)))
             (map_to_list t)).

(** [%ld] of a 64-bit and [%d] of a 32-bit value, read as signed; each field of the line
    is followed by a blank. *)
Definition fmt_ld (n : Z) : list Z :=
  let n := swrap 64 n in if n <? 0 then 45 :: dec_digits 19 (- n) [] else dec_digits 19 n [].
Definition field_ld (n : Z) : list Z := fmt_ld n ++ [32].
Definition field_d (n : Z) : list Z := fmt_ld (swrap 32 n) ++ [32].

(** [offset += snprintf(&msg[offset], MAX - offset, ...)] where the guard allows it: the
    characters of the string so far, cut to the room, and the new offset. *)
Definition append_piece (acc : list Z * Z) (piece : list Z) : list Z * Z :=
  let '(msg, offset) := acc in
  if offset <=? MAX_HTTPD_LINE_SIZE
  then (msg ++ firstn (Z.to_nat (MAX_HTTPD_LINE_SIZE - offset - 1)) piece, offset + Z.of_nat (length piece))
  else acc.

Definition port_piece (p : port_stats) : list Z :=
  field_d (port p) ++ field_ld (users_size p) ++ field_ld (ps_connections p).

(** [static uint64_t last_up_bytes, last_down_bytes] *)
Record log_static := LogStatic { last_up : Z; last_down : Z }.

(** The numbers of the first [snprintf] of [httpd_log]. *)
Definition head_piece (now : Z) (s : bstats) (l : log_static) (conns : list ConnectionState) : list Z :=
  field_d now ++ field_d (Z.of_nat (length conns)) ++ field_d (Z.of_nat (size (unique_clients conns))) ++
  field_ld (up_bytes s - last_up l)%u64 ++ field_ld (down_bytes s - last_down l)%u64 ++
  field_d (active_connections s) ++ field_ld (up_bytes s) ++ field_ld (down_bytes s) ++
  field_d (total_connections s).

(** A run of the timer's callback: the message given to [syslog], the new static
    variables, and the seconds after which the timer fires again. *)
Record log_call := LogCall { syslog_msg : list Z; next_static : log_static; timeout : Z }.

(** [httpd_log] *)
Definition httpd_log (now : Z) (s : bstats) (l : log_static) (conns : list ConnectionState) : log_call :=
  let acc := append_piece ([], 0) (head_piece now s l conns) in
  let pstats := port_array (count_ports conns) in
  let acc := append_piece acc (field_d (Z.of_nat (length pstats))) in
  let acc := fold_left append_piece (map port_piece pstats) acc in
  LogCall (fst acc) (LogStatic (up_bytes s) (down_bytes s)) HTTPD_LOG_INTERVAL.

(** ** Query parameters *)

(** [httpd_parse_int]: the parameter's [atoi] if it is there, or the default. *)
Definition httpd_parse_int (param : option Z) (ret : Z) : Z := match param with Some v => v | None => ret end.
Definition httpd_parse_time_ago (t : option Z) : Z := httpd_parse_int t (60 * 30).
Definition httpd_parse_every (e : option Z) : Z :=
  let ret := httpd_parse_int e 1 in if ret <? 1 then 1 else ret.
Definition httpd_parse_width (w : option Z) : Z :=
  let ret := httpd_parse_int w 1200 in if (ret <? 0) || (10000 <? ret) then 1200 else ret.
Definition httpd_parse_height (h : option Z) : Z :=
  let ret := httpd_parse_int h 800 in if (ret <? 0) || (10000 <? ret) then 800 else ret.

(** ** Charts *)

(** A conversion of [fscanf]: blanks, a sign, digits. *)
Inductive conversion := Value (v : Z) (rest : list Z) | NoMatch (rest : list Z) | AtEof.

Fixpoint digits_rest (s : list Z) : list Z :=
  match s with c :: r => if is_digit c then digits_rest r else s | [] => [] end.

Definition scan_int (s : list Z) : conversion :=
  match skip_space s with
  | [] => AtEof
  | c :: r =>
      let t := if (c =? 45) || (c =? 43) then r else c :: r in
      match t with
      | d :: _ => if is_digit d then Value (strtol (c :: r)) (digits_rest t) else NoMatch t
      | [] => NoMatch []
      end
  end.

(** [fscanf] of [n] numbers: those converted, the rest of the file, and whether it
    returned [EOF]. *)
Fixpoint fscanf (n : nat) (s : list Z) : list Z * list Z * bool :=
  match n with
  | O => ([], s, false)
  | S n => match scan_int s with
           | Value v rest => let '(vs, rest, _) := fscanf n rest in (v :: vs, rest, false)
           | NoMatch rest => ([], rest, false)
           | AtEof => ([], [], true)
           end
  end.

(** The variables of [httpd_log_to_js]: [utime] to [num_ports]. *)
Record log_vars := LogVars {
  v_utime : Z; v_tot_conns : Z; v_unique_clients : Z; v_up_bytes : Z; v_down_bytes : Z;
  v_active_conns : Z; v_tot_up : Z; v_tot_down : Z; v_total_connections : Z; v_num_ports : Z
}.

(** Storing the conversions that succeeded; the other variables keep their values. *)
Definition store_vars (vs : list Z) (v : log_vars) : log_vars :=
  let get i w old := match nth_error vs i with Some x => wrap w x | None => old end in
  LogVars (get 0%nat 32 (v_utime v)) (get 1%nat 32 (v_tot_conns v)) (get 2%nat 32 (v_unique_clients v))
    (get 3%nat 32 (v_up_bytes v)) (get 4%nat 32 (v_down_bytes v)) (get 5%nat 32 (v_active_conns v))
    (get 6%nat 64 (v_tot_up v)) (get 7%nat 64 (v_tot_down v)) (get 8%nat 32 (v_total_connections v))
    (get 9%nat 32 (v_num_ports v)).

Definition store_port (vs : list Z) (p : port_stats) : port_stats :=
  let get i f old := match nth_error vs i with Some x => f x | None => old end in
  PortStats (get 0%nat (swrap 32) (port p)) (get 1%nat (wrap 64) (users_size p))
    (get 2%nat (wrap 64) (ps_connections p)).

(** The inner loop, over [pstats] with the contents [mem] that [malloc] left there;
    nothing when it returns from the function. *)
Fixpoint scan_ports (mem : nat -> port_stats) (n i : nat) (s : list Z) : option (list port_stats * list Z) :=
  match n with
  | O => Some ([], s)
  | S n =>
      let '(vs, rest, eof) := fscanf 3 s in
      if eof then None else
      match scan_ports mem n (S i) rest with
      | None => None
      | Some (ps, rest) => Some (store_port vs (mem i) :: ps, rest)
      end
  end.

(** [httpd_log_to_js] on the file [s]: the arguments of the calls of [fmt_func].  [mem]
    gives the uninitialised memory of each call of [malloc], by the place in the file. *)
Fixpoint log_to_js (fuel : nat) (mem : list Z -> nat -> port_stats) (now time_diff every count : Z)
    (v : log_vars) (s : list Z) : option (list (log_vars * list port_stats)) :=
  match fuel with
  | O => None
  | S fuel =>
      let '(vs, rest, eof) := fscanf 10 s in
      if eof then Some [] else
      let v := store_vars vs v in
      match scan_ports (mem rest) (Z.to_nat (v_num_ports v)) 0 rest with
      | None => Some []
      | Some (pstats, rest) =>
          if v_utime v <? (now - time_diff)%u32 then log_to_js fuel mem now time_diff every count v rest else
          let count := count + 1 in
          if count <? every then log_to_js fuel mem now time_diff every count v rest
          else match log_to_js fuel mem now time_diff every 0 v rest with
               | None => None
               | Some out => Some ((v, pstats) :: out)
               end
      end
  end.
Definition httpd_log_to_js (fuel : nat) (mem : list Z -> nat -> port_stats) (uninit : log_vars)
    (now time_diff every : Z) (s : list Z) : option (list (log_vars * list port_stats)) :=
  log_to_js fuel mem now time_diff every 0 uninit s.

(** The inner loop of [httpd_log_fmt_port]: the zeros it prints, the new [added], and
    whether the function returns.  [port_list] is the array, [len] its used length. *)
Fixpoint skip_ports (fuel : nat) (port_list : list Z) (len : Z) (p i added : Z) : list Z * Z * bool :=
  match fuel with
  | O => ([], added, false)
  | S n =>
      if nth (Z.to_nat (i + added)) port_list 0 <? p then
        let added := added + 1 in
        if len <? i + added then (chars ",0", added, true) else
        let '(out, added, stop) := skip_ports n port_list len p i added in (chars ",0" ++ out, added, stop)
      else ([], added, false)
  end.

(** The outer loop of [httpd_log_fmt_port] over [pstats], from index [i]. *)
Fixpoint port_cells (port_list : list Z) (len : Z) (fn : port_stats -> Z) (ps : list port_stats) (i added : Z)
    : list Z :=
  match ps with
  | [] => []
  | p :: ps =>
      if len <=? i + added then [] else
      let '(zeros, added, stop) := skip_ports (Z.to_nat (len - i - added) + 1) port_list len (port p) i added in
      if stop then zeros else
      if negb (port p =? nth (Z.to_nat (i + added)) port_list 0)
      then zeros ++ port_cells port_list len fn ps (i + 1) added
      else zeros ++ chars "," ++ fmt_ld (fn p) ++ port_cells port_list len fn ps (i + 1) added
  end.

Definition httpd_log_fmt_port (port_list : list Z) (len : Z) (utime_str : list Z) (ps : list port_stats)
    (fn : port_stats -> Z) : list Z :=
  chars "     data.addRow(['" ++ utime_str ++ chars "'" ++ port_cells port_list len fn ps 0 0 ++
  chars "]);" ++ [10].

Definition httpd_log_fmt_port_users (pl : list Z) (len : Z) (u : list Z) (ps : list port_stats) : list Z :=
  httpd_log_fmt_port pl len u ps users_size.
Definition httpd_log_fmt_port_conns (pl : list Z) (len : Z) (u : list Z) (ps : list port_stats) : list Z :=
  httpd_log_fmt_port pl len u ps ps_connections.

(** The other format functions: a row of the numbers [vals]; [%d] and [%ld] as above. *)
Definition add_row (utime_str : list Z) (vals : list (list Z)) : list Z :=
  chars "    data.addRow(['" ++ utime_str ++ chars "'" ++ concat (map (fun v => chars "," ++ v) vals) ++
  chars "]);" ++ [10].
Definition fmt_int (n : Z) : list Z := fmt_ld (swrap 32 n).

Definition httpd_log_fmt_bw_down_tot (u : list Z) (v : log_vars) : list Z := add_row u [fmt_ld (v_tot_down v / 1024)].
Definition httpd_log_fmt_bw_up_tot (u : list Z) (v : log_vars) : list Z := add_row u [fmt_ld (v_tot_up v / 1024)].
Definition httpd_log_fmt_tot_conns (u : list Z) (v : log_vars) : list Z := add_row u [fmt_int (v_total_connections v)].
Definition httpd_log_fmt_bw (u : list Z) (v : log_vars) : list Z :=
  add_row u [fmt_int (v_up_bytes v / (1024 * HTTPD_LOG_INTERVAL)); fmt_int (v_down_bytes v / (1024 * HTTPD_LOG_INTERVAL))].
Definition httpd_log_fmt_chart (u : list Z) (v : log_vars) : list Z :=
  add_row u [fmt_int (v_active_conns v); fmt_int (v_unique_clients v)].

(** [httpd_init]: the paths and their handlers, the handler of all other paths, and the
    seconds to the first [httpd_log]; nothing for a port that is out of range. *)
Definition httpd_init (p : Z) : option (list (string * string) * string * Z) :=
  if (p <? 0) || (65535 <? p) then None else
  Some ([("/users", "httpd_port_users_handler"); ("/conns", "httpd_port_conns_handler");
         ("/chart", "httpd_chart_handler"); ("/bw", "httpd_bandwidth_handler");
         ("/total_down", "httpd_bw_total_down_handler"); ("/total_up", "httpd_bw_total_up_handler");
         ("/total_conn", "httpd_total_connections_handler"); ("/all", "httpd_showall_handler")]%string,
        "httpd_handler"%string, HTTPD_LOG_INTERVAL).

(** * Properties *)

(** ** The table of ports *)

Definition on_port (p : Z) (conns : list ConnectionState) : list ConnectionState :=
  List.filter (fun st => key_port st =? p) conns.
Definition clients (conns : list ConnectionState) : list Z := map (fun st => orig_h (flow_state st)) conns.

(** What the table holds for the connections [cs] of a port. *)
Definition usage_of (cs : list ConnectionState) : option usage :=
  match cs with [] => None | _ => Some (Usage (list_to_set (clients cs)) (wrap 64 (Z.of_nat (length cs)))) end.

Lemma usage_of_some cs u :
  usage_of cs = Some u <->
  cs <> [] /\ u = Usage (list_to_set (clients cs)) (wrap 64 (Z.of_nat (length cs))).
Proof. unfold usage_of. destruct cs; split; [discriminate | tauto | | ]; intuition congruence. Qed.

Lemma usage_snoc cs st :
  usage_of (cs ++ [st]) =
  let u := match usage_of cs with Some u => u | None => Usage ∅ 0 end in
  Some (Usage (users u ∪ {[ orig_h (flow_state st) ]}) (connections u + 1)%u64).
Proof.
  unfold usage_of. destruct (cs ++ [st]) as [| c r] eqn:E; [now destruct cs |]. rewrite <- E. clear E.
  unfold clients. rewrite map_app, list_to_set_app_L, length_app. cbn [map list_to_set length].
  rewrite union_empty_r_L. destruct cs as [| c' cs]; [reflexivity |]. cbn [users connections].
  do 2 f_equal. unfold w_add, wrap. rewrite Zplus_mod_idemp_l. f_equal. lia.
Qed.

Lemma update_port_lookup t k ip p :
  update_port_usage t k ip !! p =
  if k =? p then let u := match t !! p with Some u => u | None => Usage ∅ 0 end in
                 Some (Usage (users u ∪ {[ ip ]}) (connections u + 1)%u64)
  else t !! p.
Proof.
  unfold update_port_usage. destruct (Z.eqb_spec k p) as [<- | N]; [apply lookup_insert_eq |].
  now apply lookup_insert_ne.
Qed.

Lemma count_ports_lookup conns p : count_ports conns !! p = usage_of (on_port p conns).
Proof.
  unfold count_ports. induction conns as [| st conns IH] using rev_ind; [apply lookup_empty |].
  rewrite fold_left_app. cbn [fold_left]. rewrite update_port_lookup, IH. unfold on_port.
  rewrite List.filter_app. cbn [List.filter].
  destruct (_ =? p); [now rewrite usage_snoc | now rewrite app_nil_r].
Qed.

Lemma size_dups (l : list Z) : size (list_to_set l : gset Z) = length (remove_dups l).
Proof.
  rewrite <- (size_list_to_set (C := gset Z) _ (NoDup_remove_dups l)). f_equal.
  apply set_eq. intros x. rewrite !elem_of_list_to_set. symmetry. apply elem_of_remove_dups.
Qed.

Definition port_lt (a b : port_stats) : Prop := port a < port b.

Lemma insert_port_perm p l : insert_port p l ≡ₚ p :: l.
Proof.
  induction l as [| q r IH]; [reflexivity |]. cbn [insert_port]. destruct (_ <=? 0); [reflexivity |].
  rewrite IH. apply Permutation_swap.
Qed.

Lemma qsort_perm l : qsort l ≡ₚ l.
Proof. induction l as [| p l IH]; [reflexivity |]. cbn. rewrite insert_port_perm. now apply perm_skip. Qed.

Lemma insert_port_sorted p l :
  StronglySorted port_lt l -> Forall (fun q => port q <> port p) l -> StronglySorted port_lt (insert_port p l).
Proof.
  induction 1 as [| q r Hr IH Hq]; intros Hn; cbn [insert_port]; [repeat constructor |].
  inversion Hn as [| ? ? Hqp Hrp]; subst. unfold port_stat_cmp.
  destruct (Z.ltb_spec (port p) (port q)).
  - cbn [Z.leb Z.compare]. constructor; [now constructor |]. constructor; [assumption |].
    eapply Forall_impl; [exact Hq |]. unfold port_lt. intros. lia.
  - rewrite (proj2 (Z.ltb_lt (port q) (port p))) by lia. cbn [Z.leb Z.compare].
    constructor; [now apply IH |]. rewrite insert_port_perm. constructor; [unfold port_lt; lia | assumption].
Qed.

Lemma qsort_sorted l : NoDup (map port l) -> StronglySorted port_lt (qsort l).
Proof.
  induction l as [| p l IH]; [constructor |]. cbn. intros [Hp Hl]%NoDup_cons.
  apply insert_port_sorted; [now apply IH |]. apply Forall_forall. intros q Hq E.
  rewrite qsort_perm in Hq. apply Hp. rewrite <- E. now apply list_elem_of_fmap_2.
Qed.

(** The table that is logged has one entry per port with open connections, in
    increasing order of the ports; it gives the port, how many different client addresses
    have connections on it, and how many connections there are. *)
Theorem port_table_exact conns :
  let table := port_array (count_ports conns) in
  StronglySorted port_lt table /\
  (forall e, e ∈ table <->
     exists p, on_port p conns <> [] /\
       e = PortStats p (Z.of_nat (length (remove_dups (clients (on_port p conns)))))
                     (wrap 64 (Z.of_nat (length (on_port p conns))))).
Proof.
  cbn zeta. unfold port_array. split.
  - apply qsort_sorted. rewrite map_map. cbn [port]. apply NoDup_fst_map_to_list.
  - intros e. rewrite qsort_perm, list_elem_of_fmap. split.
    + intros ([p u] & -> & Hu%elem_of_map_to_list). exists p. rewrite count_ports_lookup in Hu.
      apply usage_of_some in Hu as [Hne ->]. cbn [fst snd users connections]. now rewrite size_dups.
    + intros (p & Hne & ->). exists (p, Usage (list_to_set (clients (on_port p conns)))
        (wrap 64 (Z.of_nat (length (on_port p conns))))).
      split; [cbn [fst snd users connections]; now rewrite size_dups |].
      apply elem_of_map_to_list. rewrite count_ports_lookup. now apply usage_of_some.
Qed.

(** ** The statistics line *)

(** The line without the limit of the buffer. *)
Definition httpd_text (now : Z) (s : bstats) (l : log_static) (conns : list ConnectionState) : list Z :=
  let pstats := port_array (count_ports conns) in
  head_piece now s l conns ++ field_d (Z.of_nat (length pstats)) ++ concat (map port_piece pstats).

Definition cut_at (full : list Z) (acc : list Z * Z) : Prop :=
  fst acc = firstn (Z.to_nat (MAX_HTTPD_LINE_SIZE - 1)) full /\
  (snd acc = Z.of_nat (length full) \/ MAX_HTTPD_LINE_SIZE < snd acc <= Z.of_nat (length full)).

Lemma append_piece_cut full acc piece : cut_at full acc -> cut_at (full ++ piece) (append_piece acc piece).
Proof.
  destruct acc as [msg offset]. intros [Hm Ho]. cbn [fst snd] in *. unfold append_piece.
  destruct (Z.leb_spec offset MAX_HTTPD_LINE_SIZE) as [L | L]; split; cbn [fst snd];
    rewrite ?firstn_app, ?length_app.
  - destruct Ho as [-> | Ho]; [| lia]. rewrite Hm. do 2 f_equal. lia.
  - left. lia.
  - rewrite Hm. replace (_ - length full)%nat with O by lia. cbn. now rewrite app_nil_r.
  - right. lia.
Qed.

Lemma append_pieces_cut pieces full acc :
  cut_at full acc -> cut_at (full ++ concat pieces) (fold_left append_piece pieces acc).
Proof.
  revert full acc. induction pieces as [| p pieces IH]; intros full acc H; cbn [concat fold_left].
  - now rewrite app_nil_r.
  - rewrite app_assoc. now apply IH, append_piece_cut.
Qed.

Lemma httpd_log_firstn now s l conns :
  syslog_msg (httpd_log now s l conns) = firstn 424 (httpd_text now s l conns).
Proof.
  unfold httpd_log, httpd_text. cbn [syslog_msg]. rewrite app_assoc. apply append_pieces_cut, append_piece_cut.
  change (head_piece now s l conns) with ([] ++ head_piece now s l conns) at 1. apply append_piece_cut.
  split; [reflexivity | now left].
Qed.

(** ** Reading the line back *)

Lemma dec_digits_app f n acc t : dec_digits f n acc ++ t = dec_digits f n (acc ++ t).
Proof.
  revert n acc. induction f as [| f IH]; intros n acc; cbn [dec_digits]; [reflexivity |].
  destruct (_ =? 0); [reflexivity |]. now rewrite IH.
Qed.

Lemma digits_rest_app ds t :
  Forall (fun c => 48 <= c <= 57) ds -> digits_rest (ds ++ 32 :: t) = 32 :: t.
Proof.
  induction 1 as [| c ds Hc _ IH]; [reflexivity |]. cbn [app digits_rest]. unfold is_digit.
  now rewrite (proj2 (Z.leb_le 48 c)), (proj2 (Z.leb_le c 57)) by lia.
Qed.

Definition blank (pre : list Z) : Prop := Forall (fun c => is_space c = true) pre.

Lemma skip_blank pre s : blank pre -> skip_space (pre ++ s) = skip_space s.
Proof. induction 1 as [| c pre Hc _ IH]; [reflexivity |]. cbn [app skip_space]. now rewrite Hc. Qed.

Lemma swrap_bound w x : 0 < w -> - 2 ^ (w - 1) <= swrap w x < 2 ^ (w - 1).
Proof.
  intros H. unfold swrap. pose proof (Z.mod_pos_bound (x + 2 ^ (w - 1)) (2 ^ w) ltac:(apply Z.pow_pos_nonneg; lia)).
  replace (2 ^ w) with (2 * 2 ^ (w - 1)) in * by (rewrite <- Z.pow_succ_r by lia; f_equal; lia). lia.
Qed.

(** The digits of a number, read by [strtol] and passed by [fscanf]. *)
Lemma scan_digits n t :
  0 <= n < 10 ^ 19 ->
  exists d ds, dec_digits 19 n [] = d :: ds /\ 48 <= d <= 57 /\
    digits_rest ((d :: ds) ++ 32 :: t) = 32 :: t /\ digits_value ((d :: ds) ++ 32 :: t) 0 = n.
Proof.
  intros Hn. pose proof (dec_digits_digits 19 n [] (List.Forall_nil _)) as HD.
  destruct (dec_digits 19 n []) as [| d ds] eqn:E; [now apply dec_digits_nonempty in E; [| right; lia] |].
  exists d, ds. split; [reflexivity |]. split; [now inversion HD |]. split; [now apply digits_rest_app |].
  rewrite <- E, dec_digits_app, digits_value_dec by assumption. reflexivity.
Qed.

Lemma scan_fmt_ld pre n t :
  blank pre -> scan_int (pre ++ fmt_ld n ++ 32 :: t) = Value (swrap 64 n) (32 :: t).
Proof.
  intros Hp. unfold scan_int. rewrite skip_blank by assumption. unfold fmt_ld.
  pose proof (swrap_bound 64 n ltac:(lia)) as B. set (m := swrap 64 n) in *. change (64 - 1) with 63 in B.
  destruct (Z.ltb_spec m 0) as [N | N].
  - destruct (scan_digits (- m) t ltac:(lia)) as (d & ds & E & Hd & HR & HV). rewrite E.
    cbn [app skip_space]. change (is_space 45) with false. cbv iota. cbn [Z.eqb Pos.eqb orb].
    unfold is_digit at 1. rewrite (proj2 (Z.leb_le 48 d)), (proj2 (Z.leb_le d 57)) by lia. cbn [andb].
    f_equal; [| exact HR]. unfold strtol. cbn [skip_space]. change (is_space 45) with false. cbv iota.
    cbn [Z.eqb Pos.eqb]. rewrite app_comm_cons, HV. lia.
  - destruct (scan_digits m t ltac:(lia)) as (d & ds & E & Hd & HR & HV). rewrite E. cbn [app skip_space].
    assert (is_space d = false) as HS by (unfold is_space; lia). rewrite HS.
    assert ((d =? 45) = false) as H45 by lia. assert ((d =? 43) = false) as H43 by lia.
    rewrite H45, H43. cbn [orb].
    unfold is_digit at 1. rewrite (proj2 (Z.leb_le 48 d)), (proj2 (Z.leb_le d 57)) by lia. cbn [andb].
    f_equal; [| exact HR]. unfold strtol. cbn [skip_space]. rewrite HS, H45, H43, app_comm_cons, HV. lia.
Qed.

Lemma fscanf_fields vs pre t :
  vs <> [] -> blank pre ->
  fscanf (length vs) (pre ++ concat (map field_ld vs) ++ t) = (map (swrap 64) vs, 32 :: t, false).
Proof.
  revert pre. induction vs as [| v vs IH]; intros pre Hne Hp; [easy |]. cbn [map concat length fscanf].
  unfold field_ld at 1. rewrite <- !app_assoc. cbn [app]. rewrite scan_fmt_ld by assumption.
  destruct vs as [| w vs]; [reflexivity |].
  change (32 :: concat (map field_ld (w :: vs)) ++ t) with ([32] ++ concat (map field_ld (w :: vs)) ++ t).
  rewrite IH; [reflexivity | easy | now repeat constructor].
Qed.

Lemma wrap_swrap w w' x : 0 < w <= w' -> wrap w (swrap w' x) = wrap w x.
Proof.
  intros H. unfold wrap, swrap.
  assert (2 ^ w' = 2 ^ w * 2 ^ (w' - w)) as E by (rewrite <- Z.pow_add_r by lia; f_equal; lia).
  rewrite (Z.mod_eq _ (2 ^ w')) by (pose proof (Z.pow_pos_nonneg 2 w'); lia). rewrite E.
  replace (_ - _ - _) with
    (x + - (2 ^ (w' - w) * ((x + 2 ^ (w' - 1)) / (2 ^ w * 2 ^ (w' - w)))) * 2 ^ w) by ring.
  apply Z_mod_plus_full.
Qed.

Lemma swrap_wrap w x : 0 < w -> swrap w (wrap w x) = swrap w x.
Proof. intros H. unfold swrap, wrap. now rewrite Zplus_mod_idemp_l. Qed.

Lemma swrap_swrap w w' x : 0 < w <= w' -> swrap w (swrap w' x) = swrap w x.
Proof. intros H. rewrite <- swrap_wrap, wrap_swrap, swrap_wrap by lia. reflexivity. Qed.

(** What is read back for one line: the numbers, cut to the variables they are read into. *)
Definition read_port (p : port_stats) : port_stats :=
  PortStats (swrap 32 (port p)) (wrap 64 (users_size p)) (wrap 64 (ps_connections p)).

Record log_input := LogInput { li_now : Z; li_stats : bstats; li_static : log_static; li_conns : list ConnectionState }.
Definition input_ports (i : log_input) : list port_stats := port_array (count_ports (li_conns i)).
Definition input_text (i : log_input) : list Z := httpd_text (li_now i) (li_stats i) (li_static i) (li_conns i).
Definition input_line (i : log_input) : list Z := syslog_msg (httpd_log (li_now i) (li_stats i) (li_static i) (li_conns i)).

Definition logged (i : log_input) : log_vars * list port_stats :=
  let s := li_stats i in
  (LogVars (wrap 32 (li_now i)) (wrap 32 (Z.of_nat (length (li_conns i))))
     (wrap 32 (Z.of_nat (length (remove_dups (clients (li_conns i))))))
     (wrap 32 (up_bytes s - last_up (li_static i))) (wrap 32 (down_bytes s - last_down (li_static i)))
     (wrap 32 (active_connections s)) (wrap 64 (up_bytes s)) (wrap 64 (down_bytes s))
     (wrap 32 (total_connections s)) (wrap 32 (Z.of_nat (length (input_ports i)))),
   map read_port (input_ports i)).

Lemma unique_clients_size conns :
  size (unique_clients conns) = length (remove_dups (clients conns)).
Proof.
  rewrite <- size_dups. f_equal. unfold unique_clients.
  induction conns as [| st conns IH] using rev_ind; [reflexivity |].
  rewrite fold_left_app, IH. unfold clients. rewrite map_app, list_to_set_app_L. cbn. set_solver.
Qed.

Lemma store_port_read p mem :
  store_port (map (swrap 64) [swrap 32 (port p); users_size p; ps_connections p]) mem = read_port p.
Proof.
  unfold store_port, read_port. cbn [map nth_error].
  now rewrite !wrap_swrap, (swrap_swrap 32 64), swrap_swrap by lia.
Qed.

Lemma scan_ports_pieces mem ps i pre t :
  blank pre -> exists pre', blank pre' /\
  scan_ports mem (length ps) i (pre ++ concat (map port_piece ps) ++ t) = Some (map read_port ps, pre' ++ t).
Proof.
  revert i pre. induction ps as [| p ps IH]; intros i pre Hp; [exists pre; now cbn |].
  cbn [map concat length scan_ports].
  replace (pre ++ (port_piece p ++ concat (map port_piece ps)) ++ t) with
    (pre ++ concat (map field_ld [swrap 32 (port p); users_size p; ps_connections p]) ++
     (concat (map port_piece ps) ++ t))
    by (cbn [map concat]; unfold port_piece, field_d, field_ld; now rewrite app_nil_r, <- !app_assoc).
  change 3%nat with (length [swrap 32 (port p); users_size p; ps_connections p]) at 1.
  rewrite fscanf_fields by easy. cbv beta iota.
  destruct (IH (S i) [32] ltac:(now repeat constructor)) as (pre' & Hp' & E). exists pre'. split; [exact Hp' |].
  cbn [app] in E. rewrite E. now rewrite store_port_read.
Qed.

(** The ten numbers at the start of a line. *)
Definition head_values (i : log_input) : list Z :=
  let s := li_stats i in
  [swrap 32 (li_now i); swrap 32 (Z.of_nat (length (li_conns i)));
   swrap 32 (Z.of_nat (size (unique_clients (li_conns i))));
   (up_bytes s - last_up (li_static i))%u64; (down_bytes s - last_down (li_static i))%u64;
   swrap 32 (active_connections s); up_bytes s; down_bytes s; swrap 32 (total_connections s);
   swrap 32 (Z.of_nat (length (input_ports i)))].

Lemma input_text_fields i :
  input_text i = concat (map field_ld (head_values i)) ++ concat (map port_piece (input_ports i)).
Proof.
  unfold input_text, httpd_text, head_piece, head_values. fold (input_ports i).
  cbn [map concat]. unfold field_d, field_ld. now rewrite app_nil_r, <- !app_assoc.
Qed.

Lemma store_vars_read i v : store_vars (map (swrap 64) (head_values i)) v = fst (logged i).
Proof.
  unfold store_vars, head_values, logged. cbn [map nth_error fst].
  rewrite unique_clients_size, !wrap_swrap by lia. unfold w_sub. now rewrite !wrap_narrow by lia.
Qed.

Lemma port_piece_nonempty p : (1 <= length (port_piece p))%nat.
Proof. unfold port_piece, field_d. rewrite !length_app. cbn [length]. lia. Qed.

Lemma input_ports_few i : (length (input_ports i) <= length (input_text i))%nat.
Proof.
  rewrite input_text_fields, length_app. induction (input_ports i) as [| p ps IH]; cbn [map concat length]; [lia |].
  rewrite length_app. pose proof (port_piece_nonempty p). lia.
Qed.

Definition fits (i : log_input) : Prop := (length (input_text i) < Z.to_nat MAX_HTTPD_LINE_SIZE)%nat.

Lemma fits_line i : fits i -> input_line i = input_text i.
Proof.
  intros H. unfold input_line. rewrite httpd_log_firstn. apply firstn_all2. unfold fits in H.
  fold (input_text i). change (Z.to_nat MAX_HTTPD_LINE_SIZE) with 425%nat in H. lia.
Qed.

(** One turn of the loop of [httpd_log_to_js] on a line of the log. *)
Lemma read_line i pre t mem v :
  fits i -> blank pre -> exists rest pre', blank pre' /\
  fscanf 10 (pre ++ (input_line i ++ [10]) ++ t) = (map (swrap 64) (head_values i), rest, false) /\
  store_vars (map (swrap 64) (head_values i)) v = fst (logged i) /\
  scan_ports (mem rest) (Z.to_nat (v_num_ports (fst (logged i)))) 0 rest = Some (snd (logged i), pre' ++ t).
Proof.
  intros Hf Hp. rewrite fits_line, input_text_fields, <- !app_assoc by assumption.
  change 10%nat with (length (head_values i)). rewrite fscanf_fields by easy.
  destruct (scan_ports_pieces (mem (32 :: concat (map port_piece (input_ports i)) ++ [10] ++ t))
              (input_ports i) 0 [32] ([10] ++ t) ltac:(now repeat constructor)) as (pre' & Hp' & E).
  eexists _, (pre' ++ [10]). split; [apply Forall_app; split; [exact Hp' | now repeat constructor] |].
  split; [reflexivity |]. split; [apply store_vars_read |]. cbn [fst snd logged v_num_ports].
  rewrite wrap_small, Nat2Z.id, <- app_assoc; [exact E |]. pose proof (input_ports_few i). unfold fits in Hf.
  change (Z.to_nat MAX_HTTPD_LINE_SIZE) with 425%nat in Hf. unfold in_width. lia.
Qed.

(** The lines of a log file, and the calls made for them: of the recent ones, every
    [every]-th. *)
Definition log_file (js : list log_input) : list Z := concat (map (fun i => input_line i ++ [10]) js).
Definition recent (cutoff : Z) (rs : list (log_vars * list port_stats)) : list (log_vars * list port_stats) :=
  List.filter (fun r => cutoff <=? v_utime (fst r)) rs.

Lemma fscanf_blank pre : blank pre -> fscanf 10 pre = ([], [], true).
Proof.
  intros H. cbn [fscanf]. unfold scan_int. rewrite <- (app_nil_r pre), skip_blank by assumption. reflexivity.
Qed.

Lemma log_to_js_reads mem now time_diff every js : 1 <= every -> Forall fits js ->
  forall fuel pre count v, (length js < fuel)%nat -> blank pre -> 0 <= count < every ->
  exists out, log_to_js fuel mem now time_diff every count v (pre ++ log_file js) = Some out /\
  forall k, out !! k = recent (now - time_diff)%u32 (map logged js) !! Z.to_nat ((Z.of_nat k + 1) * every - 1 - count).
Proof.
  intros He. induction 1 as [| i js Hi Hjs IH]; intros fuel pre count v Hfu Hp Hc;
    (destruct fuel as [| fuel]; [easy |]); cbn [length log_to_js] in *.
  { exists []. unfold log_file. cbn [map concat]. rewrite app_nil_r, fscanf_blank by assumption. now split. }
  unfold log_file. cbn [map concat]. fold (log_file js).
  destruct (read_line i pre (log_file js) mem v Hi Hp) as (rest & pre' & Hp' & -> & -> & ->). cbv iota.
  cbn [recent map List.filter]. rewrite Z.leb_antisym. fold (recent (now - time_diff)%u32 (map logged js)).
  destruct (_ <? _); cbn [negb]; [apply IH; (lia || assumption) |].
  destruct (Z.ltb_spec (count + 1) every).
  - destruct (IH fuel pre' (count + 1) (fst (logged i)) ltac:(lia) Hp' ltac:(lia)) as (out & -> & H').
    exists out. split; [reflexivity |]. intros k. rewrite H'.
    replace (Z.to_nat ((Z.of_nat k + 1) * every - 1 - count))
      with (S (Z.to_nat ((Z.of_nat k + 1) * every - 1 - (count + 1)))) by nia. reflexivity.
  - destruct (IH fuel pre' 0 (fst (logged i)) ltac:(lia) Hp' ltac:(lia)) as (out & -> & H').
    eexists. split; [reflexivity |]. intros [| k].
    + replace (Z.to_nat _) with O by lia. now destruct (logged i).
    + cbn [lookup list_lookup]. rewrite H'.
      replace (Z.to_nat ((Z.of_nat (S k) + 1) * every - 1 - count))
        with (S (Z.to_nat ((Z.of_nat k + 1) * every - 1 - 0))) by nia. reflexivity.
Qed.

(** A chart reads back from the log what the station logged.  On a file of lines that
    fit the buffer the loop ends at the end of the file, and the format function is called
    for the lines of the last [t] seconds, each [e]-th of them, with the numbers that were
    logged: times and counts cut to 32 bits, the totals to 64. *)
Theorem stats_log_roundtrip mem uninit now t e js :
  Forall fits js ->
  exists out,
    httpd_log_to_js (S (length js)) mem uninit now (httpd_parse_time_ago t) (httpd_parse_every e) (log_file js)
      = Some out /\
    forall k, out !! k =
      recent (now - httpd_parse_time_ago t)%u32 (map logged js)
        !! Z.to_nat ((Z.of_nat k + 1) * httpd_parse_every e - 1).
Proof.
  intros Hf.
  assert (1 <= httpd_parse_every e) as He by (unfold httpd_parse_every; destruct (Z.ltb_spec (httpd_parse_int e 1) 1); lia).
  destruct (log_to_js_reads mem now (httpd_parse_time_ago t) _ js He Hf (S (length js)) [] 0 uninit
              ltac:(lia) ltac:(constructor) ltac:(lia)) as (out & E & H).
  exists out. split; [exact E |]. intros k. rewrite H. do 2 f_equal. lia.
Qed.

(** A connection of the client [ip] with the key of port [p]. *)
Definition example_conn (n p ip : Z) : ConnectionState :=
  St n 5 6 7 1 (Flow ip 0 0 0) EvNull EvNull EvNull EvNull EvNull EvNull true true true true true
     ERROR_NONE 4 p 0 0 0 0.

Lemma stats_log_roundtrip_witness :
  let i := LogInput 1000 (Stats 3 9 5000 70000) (LogStatic 1000 10000)
             [example_conn 1 443 7; example_conn 2 80 8; example_conn 3 443 9] in
  exists out,
    httpd_log_to_js 3 (fun _ _ => PortStats 1 2 3) (LogVars 9 9 9 9 9 9 9 9 9 9) 1010
      (httpd_parse_time_ago (Some 60)) (httpd_parse_every (Some 2)) (log_file [i; i]) = Some out /\
    out !! 0%nat = Some (LogVars 1000 3 3 4000 60000 3 5000 70000 9 2,
                         [PortStats 80 1 1; PortStats 443 2 2]).
Proof.
  set (i := LogInput _ _ _ _).
  destruct (stats_log_roundtrip (fun _ _ => PortStats 1 2 3) (LogVars 9 9 9 9 9 9 9 9 9 9) 1010 (Some 60) (Some 2)
              [i; i]) as (out & E & H).
  - assert (fits i) as F by (unfold fits; apply (proj1 (Nat.ltb_lt _ _)); vm_compute; reflexivity).
    apply Forall_cons; split; [exact F |]. apply Forall_cons; split; [exact F | constructor].
  - exists out. split; [exact E |]. rewrite H. vm_compute. reflexivity.
Defined.

(** ** The rows of the charts per port *)

Definition value_of (fn : port_stats -> Z) (ps : list port_stats) (c : Z) : Z :=
  match List.find (fun e => port e =? c) ps with Some e => fn e | None => 0 end.
Definition row_cells (fn : port_stats -> Z) (ps : list port_stats) (cols : list Z) : list Z :=
  concat (map (fun c => chars "," ++ fmt_ld (value_of fn ps c)) cols).

Lemma nth_middle (pre rest junk : list Z) c : nth (length pre) ((pre ++ c :: rest) ++ junk) 0 = c.
Proof. rewrite <- app_assoc, app_nth2, Nat.sub_diag by lia. reflexivity. Qed.

Lemma skip_ports_zeros junk len p l2 l1 : forall fuel pre i added,
  Forall (fun c => c < p) l1 -> (length l1 < fuel)%nat ->
  Z.of_nat (length pre) = i + added -> len = Z.of_nat (length (pre ++ l1 ++ p :: l2)) ->
  skip_ports fuel ((pre ++ l1 ++ p :: l2) ++ junk) len p i added =
  (concat (map (fun _ => chars ",0") l1), added + Z.of_nat (length l1), false).
Proof.
  induction l1 as [| c l1 IH]; intros fuel pre i added Hl Hf Hq Hlen;
    (destruct fuel as [| fuel]; [cbn in Hf; lia |]); cbn [skip_ports length app map concat];
    rewrite <- Hq, Nat2Z.id, nth_middle.
  - rewrite (proj2 (Z.ltb_ge p p)), Z.add_0_r by lia. reflexivity.
  - inversion Hl as [| ? ? Hc Hl']; subst. rewrite (proj2 (Z.ltb_lt c p)) by lia.
    rewrite ?length_app in *. cbn [length] in *. rewrite ?length_app in *. cbn [length] in *.
    rewrite (proj2 (Z.ltb_ge _ (i + (added + 1)))) by lia.
    replace (pre ++ c :: l1 ++ p :: l2) with ((pre ++ [c]) ++ l1 ++ p :: l2) by now rewrite <- app_assoc.
    rewrite (IH fuel (pre ++ [c]) i (added + 1)); try assumption; try lia.
    + do 2 f_equal. lia.
    + rewrite length_app. cbn [length]. lia.
    + rewrite ?length_app. cbn [length]. rewrite ?length_app. cbn [length]. lia.
Qed.

Lemma value_of_none fn ps c : Forall (fun e => port e <> c) ps -> value_of fn ps c = 0.
Proof.
  unfold value_of. induction 1 as [| e ps He _ IH]; [reflexivity |]. cbn [List.find].
  now rewrite (proj2 (Z.eqb_neq _ _)).
Qed.

Lemma row_cells_zero fn ps l :
  Forall (fun c => Forall (fun e => port e <> c) ps) l -> row_cells fn ps l = concat (map (fun _ => chars ",0") l).
Proof.
  induction 1 as [| c l Hc _ IH]; [reflexivity |]. unfold row_cells in *. cbn [map concat].
  now rewrite IH, value_of_none.
Qed.

Lemma row_cells_tail fn p ps l :
  Forall (fun c => c <> port p) l -> row_cells fn (p :: ps) l = row_cells fn ps l.
Proof.
  unfold row_cells. induction 1 as [| c l Hc _ IH]; [reflexivity |]. cbn [map concat]. rewrite IH.
  unfold value_of at 1. cbn [List.find]. now rewrite (proj2 (Z.eqb_neq (port p) c)) by congruence.
Qed.

Definition increasing (l : list Z) : Prop := StronglySorted Z.lt l.

Lemma increasing_split l1 c l2 :
  increasing (l1 ++ c :: l2) -> Forall (fun x => x < c) l1 /\ Forall (fun x => c < x) l2 /\ increasing l2.
Proof.
  induction l1 as [| a l1 IH]; cbn [app]; intros H; inversion H as [| ? ? H1 H2]; subst.
  - now split; [constructor |].
  - destruct (IH H1) as (I1 & I2 & I3). split; [| tauto]. constructor; [| assumption].
    rewrite Forall_forall in H2. apply H2. rewrite elem_of_app, elem_of_cons. tauto.
Qed.

Lemma row_cells_step fn p ps l1 l2 :
  Forall (fun x => x < port p) l1 -> Forall (fun x => port p < x) l2 -> Forall (port_lt p) ps ->
  row_cells fn (p :: ps) (l1 ++ port p :: l2) =
  concat (map (fun _ => chars ",0") l1) ++ chars "," ++ fmt_ld (fn p) ++ row_cells fn ps l2.
Proof.
  intros H1 H2 Hp. rewrite <- (row_cells_zero fn (p :: ps)), <- (row_cells_tail fn p ps l2).
  - unfold row_cells. rewrite map_app, concat_app. cbn [map concat]. unfold value_of at 2. cbn [List.find].
    now rewrite Z.eqb_refl, <- app_assoc.
  - eapply Forall_impl; [exact H2 |]. cbn. lia.
  - eapply Forall_impl; [exact H1 |]. cbn. intros c Hc. constructor; [lia |].
    eapply Forall_impl; [exact Hp |]. unfold port_lt. lia.
Qed.

Lemma port_cells_row fn junk cols ps : forall pre rest i added,
  cols = pre ++ rest -> increasing rest -> Z.of_nat (length pre) = i + added ->
  StronglySorted port_lt ps -> Forall (fun e => port e ∈ rest) ps ->
  exists k, port_cells (cols ++ junk) (Z.of_nat (length cols)) fn ps i added = row_cells fn ps (firstn k rest) /\
            Forall (fun c => Forall (fun e => port e <> c) ps) (skipn k rest).
Proof.
  induction ps as [| p ps IH]; intros pre rest i added Ec Hr Hq Hs Hin.
  { exists O. split; [reflexivity |]. apply Forall_forall. intros. constructor. }
  inversion Hs as [| ? ? Hs' Hp]; inversion Hin as [| ? ? Hpin Hin']; subst.
  apply list_elem_of_split in Hpin as (l1 & l2 & ->).
  destruct (increasing_split _ _ _ Hr) as (Hl1 & Hl2 & Hr2). cbn [port_cells].
  rewrite (proj2 (Z.leb_gt _ _)) by (rewrite !length_app; cbn [length]; lia).
  rewrite skip_ports_zeros; try assumption; try reflexivity; [| rewrite !length_app; cbn [length]; lia].
  assert (Z.to_nat (i + (added + Z.of_nat (length l1))) = length (pre ++ l1)) as -> by (rewrite length_app; lia).
  rewrite (app_assoc pre), nth_middle, Z.eqb_refl. cbn [negb].
  assert (Forall (fun e => port e ∈ l2) ps) as Hin2.
  { rewrite Forall_forall in *. intros e He. specialize (Hin' e He). specialize (Hp e He). unfold port_lt in Hp.
    rewrite elem_of_app, elem_of_cons in Hin'. destruct Hin' as [Hx | [Hx | Hx]]; [| lia | exact Hx].
    rewrite Forall_forall in Hl1. specialize (Hl1 _ Hx). lia. }
  destruct (IH (pre ++ l1 ++ [port p]) l2 (i + 1) (added + Z.of_nat (length l1))) as (k & E & Hk).
  - now rewrite <- !app_assoc.
  - assumption.
  - rewrite !length_app. cbn [length]. lia.
  - assumption.
  - assumption.
  - exists (length l1 + S k)%nat.
    rewrite take_app_add, drop_app_add. cbn [firstn skipn].
    rewrite row_cells_step; [| assumption | now apply Forall_take | assumption].
    split; [now rewrite <- E, <- !app_assoc |].
    rewrite Forall_forall in *. intros c Hc. constructor; [| now apply Hk].
    specialize (Hl2 c). apply (subseteq_drop k) in Hc. specialize (Hl2 Hc). lia.
Qed.

(** In a chart per port, a line of the log all of whose ports have a column gives the
    cells of the first columns, in their order, each with the port's value or 0 where the
    line has no such port; the columns without a cell are those past the line's last port. *)
Theorem port_row_correct fn utime_str junk cols ps :
  increasing cols -> StronglySorted port_lt ps -> Forall (fun e => port e ∈ cols) ps ->
  exists k,
    httpd_log_fmt_port (cols ++ junk) (Z.of_nat (length cols)) utime_str ps fn =
      chars "     data.addRow(['" ++ utime_str ++ chars "'" ++ row_cells fn ps (firstn k cols) ++ chars "]);" ++ [10] /\
    Forall (fun c => Forall (fun e => port e <> c) ps) (skipn k cols).
Proof.
  intros Hc Hs Hin. destruct (port_cells_row fn junk cols ps [] cols 0 0) as (k & E & Hk); try easy.
  exists k. split; [| exact Hk]. unfold httpd_log_fmt_port. now rewrite E.
Qed.

Lemma port_row_correct_witness :
  exists k,
    httpd_log_fmt_port ([22; 80; 443; 8080] ++ [0; 0]) 4 (chars "12:00:00")
      [PortStats 80 1 5; PortStats 443 2 6] users_size =
      chars "     data.addRow(['" ++ chars "12:00:00" ++ chars "'" ++
      row_cells users_size [PortStats 80 1 5; PortStats 443 2 6] (firstn k [22; 80; 443; 8080]) ++
      chars "]);" ++ [10] /\
    Forall (fun c => Forall (fun e => port e <> c) [PortStats 80 1 5; PortStats 443 2 6])
      (skipn k [22; 80; 443; 8080]).
Proof.
  apply (port_row_correct users_size (chars "12:00:00") [0; 0] [22; 80; 443; 8080]).
  - repeat constructor.
  - repeat constructor.
  - repeat constructor.
Defined.

(** A port without a column is not skipped alone: the columns move on with the line's
    ports, and the values of the ports that follow are lost. *)
Lemma port_row_unlisted :
  httpd_log_fmt_port [80; 443; 0] 2 (chars "t") [PortStats 25 1 1; PortStats 80 2 2; PortStats 443 3 3] users_size =
  chars "     data.addRow(['t']);" ++ [10].
Proof. reflexivity. Qed.

(** The statistics line is the text of all its numbers cut to 424 characters, which
    fits [syslog_msg] with its terminator, and the counters since the last line restart
    from the totals of this one. *)
Theorem httpd_log_line now s l conns :
  let call := httpd_log now s l conns in
  syslog_msg call = firstn 424 (httpd_text now s l conns) /\
  (length (syslog_msg call) + 1 <= Z.to_nat (MAX_HTTPD_LINE_SIZE + 2))%nat /\
  next_static call = LogStatic (up_bytes s) (down_bytes s) /\ timeout call = HTTPD_LOG_INTERVAL.
Proof.
  cbv zeta. rewrite httpd_log_firstn. repeat split. rewrite length_firstn.
  change (Z.to_nat (MAX_HTTPD_LINE_SIZE + 2)) with 427%nat. lia.
Qed.
