(* ===== verification/Charts.v ===== *)
(** * The chart pages

    The rest of [station/net/httpd.c]: [set_port_list], which takes the columns of a chart
    per port from the last line of the log, and the handlers of the charts, which put a page
    together from the header, the rows of [Httpd] and the footer.

    The log file is its contents; [localtime] and [strftime] are a parameter, the text of a
    time.  A variable that is used although no conversion stored it makes the result
    [Undefined]. *)
From S2P Require Import Prelude Bytes CLib Logger Client Bronnect Httpd.
From Stdlib Require Import String ZArith Lia List Bool.
From stdpp Require Import list sorting.
Import ListNotations.
Open Scope Z_scope.
Open Scope list_scope.

(** ** [set_port_list] *)

(** [fgets(line, n + 1, fp)]: up to [n] characters, to the end of the line; the second part
    is the rest of the file. *)
Fixpoint take_line (n : nat) (s : list Z) : list Z * list Z :=
  match n, s with
  | S n, c :: r => if c =? 10 then ([c], r) else let '(a, b) := take_line n r in (c :: a, b)
  | _, _ => ([], s)
  end.

(** [while (fgets(line, MAX_HTTPD_LINE_SIZE, fp));] leaves the last text that was read. *)
Fixpoint last_line (fuel : nat) (line s : list Z) : option (list Z) :=
  match s with
  | [] => Some line
  | _ => match fuel with
         | O => None
         | S fuel => let '(line, s) := take_line (Z.to_nat MAX_HTTPD_LINE_SIZE - 1) s in last_line fuel line s
         end
  end.

(** [fseek(fp, -MAX_HTTPD_LINE_SIZE, SEEK_END)], which fails on a shorter file. *)
Definition seek_end (s : list Z) : list Z :=
  if (Z.to_nat MAX_HTTPD_LINE_SIZE <=? length s)%nat then skipn (length s - Z.to_nat MAX_HTTPD_LINE_SIZE) s else s.

(** The loop of [sscanf]s: port and [new_offset] of each column, nothing if they were not stored. *)
Fixpoint port_columns (n : nat) (line : list Z) : option (list (Z * Z)) :=
  match n with
  | O => Some []
  | S n =>
      let '(vs, rest, _) := fscanf 3 line in
      match vs with
      | [port; _; _] =>
          let rest := skip_space rest in
          match port_columns n rest with
          | None => None
          | Some cols => Some ((swrap 32 port, Z.of_nat (length line) - Z.of_nat (length rest)) :: cols)
          end
      | _ => None
      end
  end.

(** The globals [port_list] and [port_list_len]. *)
Record port_globals := PortGlobals { port_list : list Z; port_list_len : Z }.

Inductive page_result := Undefined | AssertFails | Page (text : list Z) (g : port_globals).

Definition add_column (ty title : list Z) : list Z :=
  chars "    data.addColumn('" ++ ty ++ chars "', '" ++ title ++ chars "');".
Definition port_column (c : Z * Z) : list Z :=
  add_column (chars "number") (fmt_int (fst c)) ++ chars " // " ++ fmt_int (snd c) ++ [10].

(** [set_port_list]; [line0] is what the buffer held before. *)
Definition set_port_list (line0 file : list Z) (g : port_globals) : page_result :=
  match last_line (length file) line0 (seek_end file) with
  | None => Undefined
  | Some line =>
      let '(vs, rest, _) := fscanf 10 line in
      match nth_error vs 9 with
      | None => Undefined
      | Some n =>
          let num_ports := swrap 32 n in
          if negb (num_ports <? MAX_PORTS) then AssertFails else
          match port_columns (Z.to_nat num_ports) (skip_space rest) with
          | None => Undefined
          | Some cols =>
              Page (concat (map port_column cols)) (PortGlobals (overwrite 0 (map fst cols) (port_list g)) num_ports)
          end
      end
  end.

(** ** The pages *)

Definition nl (s : list Z) : list Z := s ++ [10].
Definition quoted (s : string) : list Z := 34 :: chars s ++ [34].

(** [httpd_add_google_chart_header]: a column per character of [type_list]. *)
Definition column_type (c : Z) : list Z :=
  if c =? 115 then chars "string" else if c =? 110 then chars "number" else chars "unknown".
Definition httpd_add_google_chart_header (type_list : list Z) (titles : list (list Z)) : list Z :=
  nl (chars "<html>") ++ nl (chars "<head>") ++
  nl (chars "<style type=" ++ quoted "text/css" ++ chars " src=" ++ quoted "https://telex.cc/stats.css" ++ chars "></style>") ++
  nl (chars "<script type=" ++ quoted "text/javascript" ++ chars " src=" ++ quoted "https://www.google.com/jsapi" ++
      chars "></script>") ++
  nl (chars "<script type=" ++ quoted "text/javascript" ++ chars ">") ++
  nl (chars "  google.load(" ++ quoted "visualization" ++ chars ", " ++ quoted "1" ++ chars ", {packages:[" ++
      quoted "corechart" ++ chars "]});") ++
  nl (chars "  google.setOnLoadCallback(drawChart)") ++ nl (chars "  function drawChart() {") ++
  nl (chars "    var data = new google.visualization.DataTable();") ++
  concat (map (fun ct => nl (add_column (column_type (fst ct)) (snd ct))) (combine type_list titles)).

(** [httpd_add_google_chart_footer] *)
Definition httpd_add_google_chart_footer (width height : Z) (title : list Z) : list Z :=
  nl (chars "    var chart = new google.visualization.LineChart(document.getElementById('chart_div'));") ++
  nl (chars "    chart.draw(data, {width: " ++ fmt_int width ++ chars ", height: " ++ fmt_int height ++
      chars ", title: '" ++ title ++ chars "'});") ++
  nl (chars "  }") ++ nl (chars "</script>") ++ nl (chars "</head>") ++
  nl (chars "<body><div id=" ++ quoted "chart_div" ++ chars "></div></body>") ++ nl (chars "</html>").

(** The parameters of a request: t, e, w and h. *)
Record query := Query { q_t : option Z; q_e : option Z; q_w : option Z; q_h : option Z }.

Section Pages.
Context (utime_str : Z -> list Z) (scratch : list Z -> nat -> port_stats) (uninit : log_vars) (now : Z).

(** The rows of a chart. *)
Definition chart_rows (q : query) (fmt : list Z -> log_vars -> list port_stats -> list Z) (file : list Z)
    : option (list Z) :=
  match httpd_log_to_js (S (length file)) scratch uninit now (httpd_parse_time_ago (q_t q)) (httpd_parse_every (q_e q)) file with
  | None => None
  | Some calls => Some (concat (map (fun c => fmt (utime_str (v_utime (fst c))) (fst c) (snd c)) calls))
  end.

Definition footer (q : query) (title : string) : list Z :=
  httpd_add_google_chart_footer (httpd_parse_width (q_w q)) (httpd_parse_height (q_h q)) (chars title).

(** [HTTPD_CHART_HANDLER_PORT]: the page and the globals. *)
Definition chart_handler_port (title : string) (fn : port_stats -> Z) (q : query) (line0 file : list Z) (g : port_globals)
    : page_result :=
  match set_port_list line0 file g with
  | Page cols g =>
      match chart_rows q (fun u _ ps => httpd_log_fmt_port (port_list g) (port_list_len g) u ps fn) file with
      | Some rows =>
          Page (httpd_add_google_chart_header (chars "s") [chars "Time"] ++ cols ++ rows ++ footer q title) g
      | None => Undefined
      end
  | r => r
  end.
Definition httpd_port_users_handler := chart_handler_port "Unique Telex users" users_size.
Definition httpd_port_conns_handler := chart_handler_port "Telex connections" ps_connections.

(** [HTTPD_CHART_HANDLER] *)
Definition chart_handler (title : string) (fmt : list Z -> log_vars -> list Z) (col_fmt : string) (titles : list string)
    (q : query) (file : list Z) : option (list Z) :=
  match chart_rows q (fun u v _ => fmt u v) file with
  | Some rows =>
      Some (httpd_add_google_chart_header (chars col_fmt) (map chars titles) ++ rows ++ footer q title)
  | None => None
  end.
Definition httpd_bw_total_down_handler :=
  chart_handler "Telex Bandwidth (aggregate)" httpd_log_fmt_bw_down_tot "sn" ["Time"; "Bandwidth Down (KB)"]%string.
Definition httpd_bw_total_up_handler :=
  chart_handler "Telex Bandwidth (aggregate)" httpd_log_fmt_bw_up_tot "sn" ["Time"; "Bandwidth Up (KB)"]%string.
Definition httpd_total_connections_handler :=
  chart_handler "Telex connections" httpd_log_fmt_tot_conns "sn" ["Time"; "Total connections"]%string.
Definition httpd_bandwidth_handler :=
  chart_handler "Telex Bandwidth" httpd_log_fmt_bw "snn" ["Time"; "Bandwidth Up (KBps)"; "Bandwidth Down (KBps)"]%string.
Definition httpd_chart_handler :=
  chart_handler "Telex users" httpd_log_fmt_chart "snn" ["Time"; "Active connections"; "Unique clients"]%string.
End Pages.

(** * Properties *)

(** ** The last line *)

Definition ends_line (a : list Z) : Prop := a = [] \/ exists b, a = b ++ [10].

Lemma ends_line_suffix n a : ends_line a -> ends_line (skipn n a).
Proof.
  intros [-> | [b ->]]; [left; now destruct n |].
  destruct (Nat.le_gt_cases n (length b)) as [H | H].
  - right. exists (skipn n b). now rewrite skipn_app, (proj2 (Nat.sub_0_le _ _) H).
  - left. apply skipn_all2. rewrite length_app. cbn [length]. lia.
Qed.

(** What [fgets] reads where a line ends: a part of it, and not nothing. *)
Lemma take_line_part n a s : a <> [] -> ends_line a ->
  exists k, (0 < k <= length a)%nat /\ take_line (S n) (a ++ s) = (firstn k a, skipn k a ++ s).
Proof.
  revert a. induction n as [| n IH]; intros a Hne He; destruct a as [| c a]; try easy.
  - exists 1%nat. split; [cbn [length]; lia |]. cbn. now destruct (c =? 10).
  - cbn [app]. change (take_line (S (S n)) (c :: a ++ s)) with
      (if c =? 10 then ([c], a ++ s) else let '(x, y) := take_line (S n) (a ++ s) in (c :: x, y)).
    destruct (Z.eqb_spec c 10) as [-> | Hc]; [exists 1%nat; split; [cbn [length]; lia | reflexivity] |].
    destruct a as [| c' a].
    { destruct He as [He | [b He]]; [easy |]. destruct b as [| ? [|]]; cbn in He; try easy. now injection He as ->. }
    destruct (IH (c' :: a)) as (k & Hk & ->); [easy | exact (ends_line_suffix 1 _ He) |].
    exists (S k). split; [cbn [length] in *; lia | reflexivity].
Qed.

Lemma take_line_whole n l : Forall (fun c => c <> 10) l -> (length l < n)%nat -> take_line n (l ++ [10]) = (l ++ [10], []).
Proof.
  intros H. revert n. induction H as [| c l Hc _ IH]; intros n Hn; (destruct n as [| n]; [easy |]); [reflexivity |].
  cbn [app take_line]. rewrite (proj2 (Z.eqb_neq _ _) Hc), IH by (cbn [length] in Hn; lia). reflexivity.
Qed.

Lemma last_line_found l : Forall (fun c => c <> 10) l -> (length l < 424)%nat ->
  forall fuel a line0, ends_line a -> (length a < fuel)%nat -> last_line fuel line0 (a ++ l ++ [10]) = Some (l ++ [10]).
Proof.
  intros Hl Hn. induction fuel as [| fuel IH]; intros a line0 He Hf; [easy |]. cbn [last_line].
  change (Z.to_nat MAX_HTTPD_LINE_SIZE - 1)%nat with 424%nat.
  destruct (a ++ l ++ [10]) as [| c r] eqn:E; [now apply app_eq_nil in E as [_ [_ ?]%app_eq_nil] |]. rewrite <- E. clear E c r.
  destruct a as [| c a].
  - cbn [app]. rewrite take_line_whole by assumption. now destruct fuel.
  - destruct (take_line_part 423 (c :: a) (l ++ [10])) as (k & Hk & ->); [easy | exact He |].
    apply IH; [now apply ends_line_suffix |]. rewrite length_skipn. cbn [length] in *. lia.
Qed.

Lemma seek_end_app a l : (length l <= 425)%nat -> exists k, seek_end (a ++ l) = skipn k a ++ l.
Proof.
  intros H. unfold seek_end. change (Z.to_nat MAX_HTTPD_LINE_SIZE) with 425%nat. rewrite length_app.
  destruct (_ <=? _)%nat; [| now exists O]. exists (length a + length l - 425)%nat.
  rewrite skipn_app. replace (length a + length l - 425 - length a)%nat with O by lia. reflexivity.
Qed.

(** The characters of a line. *)
Definition field_char (c : Z) : Prop := 48 <= c <= 57 \/ c = 45 \/ c = 32.

Lemma fmt_ld_chars n : Forall field_char (fmt_ld n).
Proof.
  assert (forall m, Forall field_char (dec_digits 19 m [])) as H.
  { intros m. eapply Forall_impl; [apply (dec_digits_digits 19 m [] (List.Forall_nil _)) |]. now left. }
  unfold fmt_ld. destruct (_ <? 0); [constructor; [unfold field_char; lia |] |]; apply H.
Qed.

Lemma fields_chars vs : Forall field_char (concat (map field_ld vs)).
Proof.
  induction vs as [| v vs IH]; [constructor |]. cbn [map concat]. apply Forall_app; split; [| exact IH].
  apply Forall_app; split; [apply fmt_ld_chars |]. constructor; [unfold field_char; lia | constructor].
Qed.

Lemma port_piece_fields p : port_piece p = concat (map field_ld [swrap 32 (port p); users_size p; ps_connections p]).
Proof. unfold port_piece, field_d, field_ld. cbn [map concat]. now rewrite app_nil_r, <- !app_assoc. Qed.

Lemma text_chars i : Forall field_char (input_text i).
Proof.
  rewrite input_text_fields. apply Forall_app; split; [apply fields_chars |].
  induction (input_ports i) as [| p ps IH]; [constructor |]. cbn [map concat].
  apply Forall_app; split; [rewrite port_piece_fields; apply fields_chars | exact IH].
Qed.

Lemma log_file_snoc js i : log_file (js ++ [i]) = log_file js ++ input_line i ++ [10].
Proof. unfold log_file. rewrite map_app, concat_app. cbn [map concat]. now rewrite app_nil_r. Qed.

Lemma log_file_ends js : ends_line (log_file js).
Proof.
  induction js as [| i js _] using rev_ind; [now left |]. rewrite log_file_snoc, app_assoc. right. eauto.
Qed.

Lemma last_log_line js i line0 : (length (input_text i) < 424)%nat ->
  last_line (length (log_file (js ++ [i]))) line0 (seek_end (log_file (js ++ [i]))) = Some (input_text i ++ [10]).
Proof.
  intros H. rewrite log_file_snoc.
  rewrite fits_line by (unfold fits; change (Z.to_nat MAX_HTTPD_LINE_SIZE) with 425%nat; lia).
  destruct (seek_end_app (log_file js) (input_text i ++ [10])) as [k ->]; [rewrite length_app; cbn [length]; lia |].
  apply last_line_found; [| exact H | apply ends_line_suffix, log_file_ends |].
  - eapply Forall_impl; [apply text_chars |]. unfold field_char. lia.
  - rewrite !length_app, length_skipn. cbn [length]. lia.
Qed.

(** ** The columns *)

Lemma skip_space_idem s : skip_space (skip_space s) = skip_space s.
Proof.
  induction s as [| c s IH]; [reflexivity |]. cbn [skip_space]. destruct (is_space c) eqn:E; [exact IH |].
  cbn [skip_space]. now rewrite E.
Qed.

Lemma fscanf_skip n s : fscanf (S n) (skip_space s) = fscanf (S n) s.
Proof. cbn [fscanf]. unfold scan_int. now rewrite skip_space_idem. Qed.

Lemma port_columns_read ps : exists cols,
  port_columns (length ps) (skip_space (32 :: concat (map port_piece ps) ++ [10])) = Some cols /\
  map fst cols = map (fun p => swrap 32 (port p)) ps.
Proof.
  induction ps as [| p ps (cols & E & Ef)]; [now exists [] |].
  cbn [length port_columns map concat]. rewrite fscanf_skip.
  replace (32 :: (port_piece p ++ concat (map port_piece ps)) ++ [10]) with
    ([32] ++ concat (map field_ld [swrap 32 (port p); users_size p; ps_connections p]) ++
     (concat (map port_piece ps) ++ [10])) by (rewrite <- port_piece_fields; now rewrite <- app_assoc).
  change 3%nat with (length [swrap 32 (port p); users_size p; ps_connections p]) at 1.
  rewrite fscanf_fields by (easy || now repeat constructor). cbn [map]. rewrite E.
  eexists. split; [reflexivity |]. cbn [map fst]. rewrite Ef. f_equal.
  now rewrite (swrap_swrap 32 64), swrap_swrap by lia.
Qed.

Lemma columns_found js i line0 g :
  (length (input_text i) < 424)%nat -> Z.of_nat (length (input_ports i)) < MAX_PORTS ->
  exists cols, set_port_list line0 (log_file (js ++ [i])) g =
      Page (concat (map port_column cols))
        (PortGlobals (overwrite 0 (map fst cols) (port_list g)) (Z.of_nat (length (input_ports i)))) /\
    map fst cols = map (fun p => swrap 32 (port p)) (input_ports i).
Proof.
  intros Hl Hp. unfold set_port_list. rewrite last_log_line by exact Hl.
  rewrite input_text_fields, <- app_assoc. change 10%nat with (length (head_values i)) at 1.
  change (concat (map field_ld (head_values i)) ++ concat (map port_piece (input_ports i)) ++ [10])
    with ([] ++ concat (map field_ld (head_values i)) ++ concat (map port_piece (input_ports i)) ++ [10]).
  rewrite fscanf_fields by (easy || constructor).
  change (nth_error (map (swrap 64) (head_values i)) 9) with (Some (swrap 64 (swrap 32 (Z.of_nat (length (input_ports i)))))).
  cbv beta iota zeta. rewrite (swrap_swrap 32 64), swrap_swrap by lia.
  assert (swrap 32 (Z.of_nat (length (input_ports i))) = Z.of_nat (length (input_ports i))) as ->.
  { unfold swrap. unfold MAX_PORTS in Hp. rewrite Z.mod_small by lia. lia. }
  rewrite (proj2 (Z.ltb_lt _ _) Hp). cbn [negb]. rewrite Nat2Z.id.
  destruct (port_columns_read (input_ports i)) as (cols & -> & E). now exists cols.
Qed.

(** The row of a line whose ports are the columns. *)
Lemma own_row fn junk ps : forall pre,
  port_cells (map port (pre ++ ps) ++ junk) (Z.of_nat (length (pre ++ ps))) fn ps (Z.of_nat (length pre)) 0 =
  concat (map (fun p => chars "," ++ fmt_ld (fn p)) ps).
Proof.
  induction ps as [| p ps IH]; intros pre; [reflexivity |]. cbn [port_cells map concat]. rewrite Z.add_0_r.
  assert (nth (length pre) (map port (pre ++ p :: ps) ++ junk) 0 = port p) as E.
  { rewrite map_app. cbn [map]. rewrite <- (length_map port pre). apply Httpd.nth_middle. }
  rewrite length_app. cbn [length]. rewrite (proj2 (Z.leb_gt _ _)) by lia.
  replace (Z.to_nat _ + 1)%nat with (S (Z.to_nat (Z.of_nat (length pre + S (length ps)) - Z.of_nat (length pre) - 0))) by lia.
  cbn [skip_ports]. rewrite Z.add_0_r, Nat2Z.id, E, Z.ltb_irrefl. cbv beta iota.
  rewrite Z.add_0_r, Nat2Z.id, E, Z.eqb_refl. cbn [negb app].
  specialize (IH (pre ++ [p])). rewrite !length_app, <- app_assoc in IH. cbn [length app] in IH.
  replace (length pre + 1 + length ps)%nat with (length pre + S (length ps))%nat in IH by lia.
  replace (Z.of_nat (length pre) + 1) with (Z.of_nat (length pre + 1)) by lia.
  rewrite IH. now rewrite <- !app_assoc.
Qed.

(** The columns of a chart per port are the ports of the newest line of the log,
    whatever was logged before it, if that line leaves room for its newline in the buffer and
    has fewer ports than the array; and the row of that line then has the value of each
    column's port, in their order. *)
Theorem newest_line_columns js i line0 g fn utime :
  (length (input_text i) < 424)%nat -> Z.of_nat (length (input_ports i)) < MAX_PORTS ->
  exists cols g', set_port_list line0 (log_file (js ++ [i])) g = Page (concat (map port_column cols)) g' /\
    map fst cols = map (fun p => swrap 32 (port p)) (input_ports i) /\
    port_list_len g' = Z.of_nat (length cols) /\ firstn (length cols) (port_list g') = map fst cols /\
    httpd_log_fmt_port (port_list g') (port_list_len g') utime (snd (logged i)) fn =
      chars "     data.addRow(['" ++ utime ++ chars "'" ++
      concat (map (fun p => chars "," ++ fmt_ld (fn p)) (snd (logged i))) ++ chars "]);" ++ [10].
Proof.
  intros Hl Hp. destruct (columns_found js i line0 g Hl Hp) as (cols & E & Ef).
  assert (length cols = length (input_ports i)) as Hn by (apply (f_equal length) in Ef; now rewrite !length_map in Ef).
  exists cols. eexists. split; [exact E |]. split; [exact Ef |]. cbn [port_list port_list_len].
  split; [now rewrite Hn |]. split; [apply overwrite_prefix, length_map |].
  unfold httpd_log_fmt_port. do 3 f_equal. f_equal. cbn [snd logged].
  pose proof (own_row fn (skipn (length (map fst cols)) (port_list g)) (map read_port (input_ports i)) []) as R.
  cbn [app length] in R. rewrite map_map, (length_map read_port) in R. cbn [read_port port] in R. rewrite <- Ef in R. exact R.
Qed.

Lemma newest_line_columns_witness :
  let i := LogInput 1000 (Stats 3 9 5000 70000) (LogStatic 1000 10000)
             [example_conn 1 443 7; example_conn 2 80 8; example_conn 3 443 9] in
  exists cols g', set_port_list [] (log_file ([i; i] ++ [i])) (PortGlobals (repeat 0 15) 0) =
    Page (concat (map port_column cols)) g' /\ map fst cols = [80; 443].
Proof.
  cbv zeta. set (i := LogInput _ _ _ _).
  destruct (newest_line_columns [i; i] i [] (PortGlobals (repeat 0 15) 0) users_size []) as (cols & g' & E & F & _).
  - apply (proj1 (Nat.ltb_lt _ _)). vm_compute. reflexivity.
  - vm_compute. reflexivity.
  - exists cols, g'. split; [exact E |]. rewrite F. vm_compute. reflexivity.
Defined.

(** A line that fills the buffer is lost: [fgets] returns its newline alone as the last line. *)
Lemma full_line_undefined l line0 : length l = 424%nat -> Forall (fun c => c <> 10) l ->
  last_line 425 line0 (seek_end (l ++ [10])) = Some [10].
Proof.
  intros Hl Hn. destruct (seek_end_app [] (l ++ [10])) as [k E]; [rewrite length_app, Hl; reflexivity |].
  assert (take_line 424 (l ++ [10]) = (l, [10])) as T.
  { rewrite <- Hl. clear Hl E. induction Hn as [| c l Hc _ IH]; [reflexivity |]. cbn [length app take_line].
    now rewrite (proj2 (Z.eqb_neq _ _) Hc), IH. }
  cbn [app] in E. rewrite E, skipn_nil. cbn [app]. destruct l as [| c l]; [easy |].
  cbn [last_line app]. change (Z.to_nat MAX_HTTPD_LINE_SIZE - 1)%nat with 424%nat.
  change (c :: l ++ [10]) with ((c :: l) ++ [10]). rewrite T. reflexivity.
Qed.

(** Text in the log that is not a number makes a chart's request run for ever:
    [fscanf] neither consumes it nor reports the end of the file. *)
Theorem garbage_never_ends scratch uninit now time_diff every c s :
  is_space c = false -> is_digit c = false -> c <> 45 -> c <> 43 ->
  forall fuel, httpd_log_to_js fuel scratch uninit now time_diff every (c :: s) = None.
Proof.
  intros Hs Hd H1 H2 fuel. unfold httpd_log_to_js. generalize 0 as count. generalize uninit as v.
  assert (scan_int (c :: s) = NoMatch (c :: s)) as E.
  { unfold scan_int. cbn [skip_space]. rewrite Hs.
    rewrite (proj2 (Z.eqb_neq _ _) H1), (proj2 (Z.eqb_neq _ _) H2). cbn [orb]. now rewrite Hd. }
  assert (forall mem n i, exists ps, scan_ports mem n i (c :: s) = Some (ps, c :: s)) as P.
  { intros mem n. induction n as [| n IH]; intros i; cbn [scan_ports fscanf]; [eauto |]. rewrite E.
    destruct (IH (S i)) as [ps ->]. eauto. }
  induction fuel as [| fuel IH]; intros v count; [reflexivity |]. cbn [log_to_js fscanf]. rewrite E.
  destruct (P (scratch (c :: s)) (Z.to_nat (v_num_ports (store_vars [] v))) O) as [ps ->].
  destruct (_ <? _); [apply IH |]. destruct (_ <? _); [apply IH |]. now rewrite IH.
Qed.

Lemma garbage_never_ends_witness :
  httpd_log_to_js 1000 (fun _ _ => PortStats 1 2 3) (LogVars 9 9 9 9 9 9 9 9 9 9) 1010 60 1 (chars "Jan 1") = None.
Proof. apply (garbage_never_ends _ _ _ _ _ 74 (chars "an 1")); (reflexivity || discriminate). Defined.

(** ** A page *)

Lemma log_file_lines js : (length js <= length (log_file js))%nat.
Proof.
  induction js as [| i js IH]; [reflexivity |]. unfold log_file in *. cbn [map concat length].
  rewrite !length_app. cbn [length]. lia.
Qed.

(** The page of a chart per port, for a log of lines that fit: a column for the time and one
    per port of the newest line, then the rows of the recent lines, every [e]-th of them. *)
Theorem port_chart_page utime_str scratch uninit now title fn q line0 js i g :
  Forall fits (js ++ [i]) -> (length (input_text i) < 424)%nat -> Z.of_nat (length (input_ports i)) < MAX_PORTS ->
  exists cols rows g',
    chart_handler_port utime_str scratch uninit now title fn q line0 (log_file (js ++ [i])) g =
      Page (httpd_add_google_chart_header (chars "s") [chars "Time"] ++ concat (map port_column cols) ++
            concat rows ++ footer q title) g' /\
    map fst cols = map (fun p => swrap 32 (port p)) (input_ports i) /\
    forall k, rows !! k =
      (fun c => httpd_log_fmt_port (port_list g') (port_list_len g') (utime_str (v_utime (fst c))) (snd c) fn) <$>
      (recent (now - httpd_parse_time_ago (q_t q))%u32 (map logged (js ++ [i]))
         !! Z.to_nat ((Z.of_nat k + 1) * httpd_parse_every (q_e q) - 1 - 0)).
Proof.
  intros Hf Hl Hp. destruct (columns_found js i line0 g Hl Hp) as (cols & E & Ef).
  assert (1 <= httpd_parse_every (q_e q)) as He
    by (unfold httpd_parse_every; destruct (Z.ltb_spec (httpd_parse_int (q_e q) 1) 1); lia).
  pose proof (log_file_lines (js ++ [i])) as HL.
  destruct (log_to_js_reads scratch now (httpd_parse_time_ago (q_t q)) _ (js ++ [i]) He Hf
              (S (length (log_file (js ++ [i])))) [] 0 uninit ltac:(lia) ltac:(constructor) ltac:(lia)) as (out & Eo & Ho).
  exists cols. eexists. eexists. split; [| split; [exact Ef |]].
  - unfold chart_handler_port. rewrite E. unfold chart_rows, httpd_log_to_js. cbn [app] in Eo. rewrite Eo. reflexivity.
  - intros k. rewrite <- Ho. apply list_lookup_fmap.
Qed.
