(* ===== verification/Station.v ===== *)
(** * From the relay's clean-up to the router's kernel

    The calls of [telex_remote_mod_flow] that a connection makes ([Bronnect], action
    [Unblock]), carried by [sendall] over the socket to the router and handled by the flow
    blocker's [on_read_ready] ([FlowBlock]): what the clean-up of a connection does to the
    set of blocked flows. *)
From S2P Require Import Prelude CLib TelexUtil Bronnect FlowBlock Relay.
From stdpp Require Import gmap list.
From Stdlib Require Import ZArith Lia List Bool.
Import ListNotations.
Open Scope Z_scope.
Open Scope list_scope.

(** The arguments of the call in [cleanup_connection_after_ssl]: [addr1] and [addr2] are
    filled from the flow, the ports are passed as they are. *)
Definition unblock_args (f : flow) : bflow := BFlow (orig_h f) (orig_p f) (resp_h f) (resp_p f).

(** The flows of the calls, in order. *)
Definition unblocks (tr : list action) : list bflow :=
  flat_map (fun a => match a with Unblock f => [unblock_args f] | _ => [] end) tr.

Section Link.
Context {sock : Type} (send : sock -> list Z -> Z * sock).

(** Each call sends its message on the socket; the router reads what was sent of it.  The
    station does not look at the result of the call. *)
Definition station_unblock (io : ipset_io) (st : outcome (sock * blocker)) (f : bflow) : outcome (sock * blocker) :=
  obind st (fun '(s, b) =>
  obind (telex_remote_mod_flow send s f AF_INET UNBLOCK) (fun sent =>
  match sent with
  | None => Ret (s, b)
  | Some (_, wire, s') =>
      obind (FlowBlock.on_read_ready io (Z.of_nat (length wire)) wire b) (fun '(b', _) => Ret (s', b'))
  end)).

Definition station_unblocks (io : ipset_io) (s : sock) (b : blocker) (tr : list action) : outcome (sock * blocker) :=
  fold_left (station_unblock io) (unblocks tr) (Ret (s, b)).
End Link.

(** ** The calls of a clean-up *)

Lemma unblocks_app a b : unblocks (a ++ b) = unblocks a ++ unblocks b.
Proof. apply flat_map_app. Qed.

Lemma unblocks_cons a l : is_unblock a = false -> unblocks (a :: l) = unblocks l.
Proof. now destruct a. Qed.

Lemma unblocks_drop e ev skip : unblocks (drop_acts e ev skip) = [].
Proof. unfold drop_acts. now destruct (is_null ev), skip. Qed.

Lemma unblocks_opt c a : is_unblock a = false -> unblocks (opt_act c a) = [].
Proof. now destruct c, a. Qed.

Lemma unblocks_final u st : unblocks (final_actions u st) = if u then [unblock_args (flow_state st)] else [].
Proof.
  unfold final_actions. rewrite !unblocks_app, !unblocks_drop, (unblocks_opt _ SslFree) by reflexivity.
  rewrite !(unblocks_opt _ (Close _)) by reflexivity. now destruct u.
Qed.

Lemma unblocks_close_telex st : unblocks (close_telex_acts st) = [].
Proof. unfold close_telex_acts. now rewrite unblocks_app, unblocks_opt, unblocks_drop. Qed.

Lemma stamped_flow i st : flow_state (stamped i st) = flow_state st.
Proof. unfold stamped, closed_telex. cbn. now destruct (0 <=? telex_conn st). Qed.

(** [cleanup_connection] asks for its own flow, once, if the connection had TLS or had
    got its flow; a clean-up that has to wait for TLS asks for nothing yet. *)
Lemma cleanup_unblocks i st tr s w :
  cleanup_connection i (alive st tr s) = Ok tt w ->
  unblocks (trace w) = unblocks tr ++
    (if cleans i st && (ssl st || (0 <? state st)) then [unblock_args (flow_state st)] else []).
Proof.
  rewrite cleanup_run. cbv zeta. unfold cleans.
  destruct (ssl st), (shutdown_ret i =? 0), (must_wait i); cbn [andb negb orb]; intros [= <-];
    unfold alive; cbn [trace]; rewrite !unblocks_app, unblocks_close_telex, ?unblocks_cons, ?unblocks_final by reflexivity;
    rewrite ?(eq_refl : flow_state (set_ssl false (stamped i st)) = flow_state (stamped i st));
    rewrite ?stamped_flow, ?app_nil_r; reflexivity.
Qed.

Section Delivery.
Context {sock : Type} (send : sock -> list Z -> Z * sock).
Hypothesis send_spec : forall s buf, buf <> [] ->
  let n := fst (send s buf) in n < 0 \/ 0 < n <= Z.of_nat (length buf).

(** One call: the router's set loses the flow's element, or the link failed and the
    router's state is as before. *)
Lemma station_unblock_result io s b f :
  io_fine io -> flow_ok f ->
  exists s' b', station_unblock send io (Ret (s, b)) f = Ret (s', b') /\
    ((kernel b' = kernel b ∖ {[ flow_elem f ]} /\ clock b' = clock b) \/
     (b' = b /\ exists wire, telex_remote_mod_flow send s f AF_INET UNBLOCK = Ret (Some (-1, wire, s')))).
Proof using send_spec.
  intros Hio Hf. unfold station_unblock. cbn [obind]. unfold telex_remote_mod_flow.
  change (negb (AF_INET =? AF_INET)) with false. cbv iota zeta. rewrite flow_msg_length.
  change (negb (Z.of_nat 13 =? BLOCK_FLOW_MSG_LENGTH)) with false. cbv iota. cbn [obind].
  destruct (sendall_result send send_spec 13 s (flow_msg f UNBLOCK)) as (r & wire & s' & -> & HC);
    [now rewrite flow_msg_length |].
  destruct HC as [[-> ->] | (-> & rest & Hr & Hw)].
  - rewrite flow_msg_length. change (Z.of_nat 13) with 13.
    rewrite (on_read_ready_msg io f UNBLOCK b) by assumption. cbn [obind].
    do 2 eexists. split; [reflexivity | now left].
  - apply (f_equal (@length Z)) in Hw. rewrite flow_msg_length, length_app in Hw.
    destruct rest; [contradiction |]. cbn [length] in Hw. unfold FlowBlock.on_read_ready.
    rewrite (proj2 (Z.ltb_lt _ _)) by (unfold BLOCK_FLOW_MSG_LENGTH; lia). cbn [obind].
    do 2 eexists. split; [reflexivity |]. right. split; [reflexivity |]. now exists wire.
Qed.

(** C38: the clean-up of a connection, followed to the router.  A connection that had TLS
    or its flow asks for its flow once: the router's kernel set then has all it had but
    that flow's element, or the link broke inside the message and the router is as it
    was.  A connection without a flow, and one that still waits for TLS, ask for nothing. *)
Theorem cleanup_unblocks_flow io i st s0 w s b :
  let f := BFlow (orig_h (flow_state st)) (orig_p (flow_state st)) (resp_h (flow_state st)) (resp_p (flow_state st)) in
  io_fine io -> flow_ok f -> cleanup_connection i (alive st [] s0) = Ok tt w ->
  exists s' b', station_unblocks send io s b (trace w) = Ret (s', b') /\
    if cleans i st && (ssl st || (0 <? state st)) then
      kernel b' = kernel b ∖ {[ flow_elem f ]} \/
      (b' = b /\ exists wire, telex_remote_mod_flow send s f AF_INET UNBLOCK = Ret (Some (-1, wire, s')))
    else b' = b /\ s' = s.
Proof using send_spec.
  intros f Hio Hf E. unfold station_unblocks. rewrite (cleanup_unblocks _ _ _ _ _ E).
  destruct (cleans i st && _); cbn [unblocks flat_map app fold_left]; [| now exists s, b].
  destruct (station_unblock_result io s b f Hio Hf) as (s' & b' & E' & H). exists s', b'.
  split; [exact E' |]. destruct H as [[H _] | H]; [now left | now right].
Qed.
End Delivery.

(** The relay of [session], up and with its flow blocked, is closed by the client. *)
Lemma cleanup_unblocks_flow_witness :
  let f := unblock_args (flow_state relay_up) in
  let b := Blocker 0 {[ flow_elem f ]} [] in
  exists w s' b',
    cleanup_connection io_close (alive relay_up [] (Stats 1 1 0 0)) = Ok tt w /\
    station_unblocks toy_send io_good 20 b (trace w) = Ret (s', b') /\
    (kernel b' = kernel b ∖ {[ flow_elem f ]} \/
     (b' = b /\ exists wire, telex_remote_mod_flow toy_send 20 f AF_INET UNBLOCK = Ret (Some (-1, wire, s')))).
Proof.
  cbv zeta. destruct (cleanup_connection io_close (alive relay_up [] (Stats 1 1 0 0))) as [[] w |] eqn:E;
    [| vm_compute in E; discriminate].
  destruct (cleanup_unblocks_flow toy_send
    ltac:(intros s [| c buf] Hb; [contradiction |]; unfold toy_send;
          destruct (Z.leb_spec s 0); cbn [fst length]; lia)
    io_good io_close relay_up (Stats 1 1 0 0) w 20
    (Blocker 0 {[ flow_elem (unblock_args (flow_state relay_up)) ]} []) io_good_fine) as (s' & b' & E' & H).
  - unfold flow_ok, in_width. cbn. lia.
  - exact E.
  - exists w, s', b'. split; [reflexivity |]. split; [exact E' | exact H].
Defined.
