(* ===== verification/Detect.v ===== *)
(** * The station's detector

    The Telex functions that the station adds to Bro ([bro-1.5.1/src/bro.bif]) and the
    policy that drives them ([brohome/site/telex-ssl.bro]): the client hello is checked for
    a tag, the flow is blocked, the TLS handshake is followed, and the connection is handed
    to the relay with its TCP state and keys, or released.

    Bro's table is modelled at the one connection whose events arrive; times are whole
    microseconds.  What the policy does to the outside is a trace of actions; the results of
    sockets are inputs.  A Bro string or field that was never assigned is [None], and using
    it is a crash. *)
From S2P Require Import Prelude Bytes CLib.
From S2P Require Import Felem FelemPow Prime168 Curve Fp Group PtPoint PtMul Ptwist PtwistThms.
From S2P Require Import Tag TelexSsl TelexUtil FlowBlock TelexTcp.
From Stdlib Require Import ZArith Lia List Bool.
Import ListNotations.
Open Scope Z_scope.
Open Scope list_scope.

(** ** Keys *)

(** [struct telex_priv_keys] *)
Record telex_priv_key := PrivKey { pk_key : list Z; pk_port : Z }.

(** [fread] of up to [n] entries. *)
Fixpoint read_keys (n : nat) (fp : list Z) : list telex_priv_key :=
  match n with
  | O => []
  | S n => match fread (PTWIST_BYTES + 2) fp with
           | None => []
           | Some (e, fp) => PrivKey (firstn PTWIST_BYTES e) (le_value (skipn PTWIST_BYTES e)) :: read_keys n fp
           end
  end.

(** [telex_init]: the key list.  [file] is the contents of the key file, if it opens;
    [uninit] what the list's memory holds; then the raw socket and the result of
    [telex_connect_to_flow_blocker]. *)
Definition telex_init (file : option (list Z)) (uninit : list telex_priv_key) (raw_fd blocker_r : Z)
    : outcome (list telex_priv_key) :=
  match file with
  | None => Exit 1
  | Some fp =>
      match fread 2 fp with
      | None => Exit 1
      | Some (num, fp) =>
          let n := Z.to_nat (le_value num) in
          let read := read_keys n fp in
          if (length read =? 0)%nat then Exit 1 else
          obind (telex_tcp_init raw_fd) (fun _ =>
          if blocker_r <? 0 then Exit 1 else
          Ret (read ++ firstn (n - length read) uninit))
      end
  end.

(** [tag/package_keys.py]: the first line of each key file, and its port. *)
Fixpoint first_line (f : list Z) : list Z :=
  match f with [] => [] | c :: r => if c =? 10 then [c] else c :: first_line r end.
Definition package_keys (files : list (list Z * Z)) : list Z :=
  le_bytes 2 (Z.of_nat (length files)) ++
  flat_map (fun f => first_line (fst f) ++ le_bytes 2 (snd f)) files.

(** ** Tags *)

(** [telex_get_context] *)
Definition telex_get_context (server_ip : Z) (timestamp session_id : list Z) : list Z :=
  le_bytes 4 server_ip ++ firstn 4 timestamp ++ firstn 1 session_id.

Section Check.
Context (pm : env -> list Z -> list Z -> list Z) (SHA256 : list Z -> list Z).

(** The loop of [telex_tag_get_key] over the keys; [tag_key] is the global that
    [check_tag] writes. *)
Fixpoint try_keys (jk : coord) (tag_key : list Z) (keys : list telex_priv_key) (hello context : list Z)
    : option (list Z * Z) * list Z :=
  match keys with
  | [] => (None, tag_key)
  | k :: keys =>
      let '(r, tag_key) := check_tag pm SHA256 jk tag_key (pk_key k) hello context in
      if r =? 0 then (Some (firstn 16 tag_key, pk_port k), tag_key)
      else try_keys jk tag_key keys hello context
  end.

(** [telex_tag_get_key]: the shared key and port if it returns true. *)
Definition telex_tag_get_key (jk : coord) (tag_key : list Z) (keys : list telex_priv_key) (hello context : list Z)
    : option (list Z * Z) * list Z :=
  if negb (length hello =? PTWIST_TAG_BYTES)%nat then (None, tag_key)
  else try_keys jk tag_key keys hello context.
End Check.

(** [extract_tcp_timestamp]: [TSecr] if [ecr], or [TSval], of a ten-byte option. *)
Definition extract_tcp_timestamp (s : list Z) (ecr : bool) : Z :=
  if negb (length s =? 10)%nat || negb (nth 0 s 0 =? 8) || negb (nth 1 s 0 =? 10) then 0
  else be_value (firstn 4 (skipn (if ecr then 6 else 2) s)).

(** [get_ssl_nonce_timestamp], in microseconds. *)
Definition get_ssl_nonce_timestamp (nonce : list Z) : Z := be_value (firstn 4 nonce) * 1000000.

(** ** Bro's records *)

Record conn_id := ConnId { id_orig_h : Z; id_orig_p : Z; id_resp_h : Z; id_resp_p : Z }.

(** [tcp_ts_info], [tcp_info], [dh_params] and [telex_info] of bro.init. *)
Record ts_info := TsInfo { recv_time : option Z; ti_tsval : Z; ti_tsecr : Z }.
Record tcp_rec := TcpRec {
  r_seq : Z; r_ack : Z; r_rcv_window : Z; r_rcv_window_scale : Z; r_snd_window : Z; r_snd_window_scale : Z;
  r_cur_ts : ts_info; r_last_ts : ts_info; ts_option : bool; sack_option : bool }.
Record dh_rec := DhRec {
  dh_p : option (list Z); dh_g : option (list Z); dh_pub_key : option (list Z);
  dh_client_random : option (list Z); dh_server_random : option (list Z);
  dh_client_iv : option (list Z); dh_server_iv : option (list Z) }.
Record telex_info := Te {
  key_info : list Z * Z; te_last_ttl : Z; te_tcp : tcp_rec; te_last_ip_id : Z; do_fwd : bool;
  fwd_time : Z; te_sock : Z; te_state : Z; te_dh : dh_rec }.

Definition set_te_state (s : Z) (t : telex_info) : telex_info :=
  Te (key_info t) (te_last_ttl t) (te_tcp t) (te_last_ip_id t) (do_fwd t) (fwd_time t) (te_sock t) s (te_dh t).
Definition set_do_fwd (b : bool) (t : telex_info) : telex_info :=
  Te (key_info t) (te_last_ttl t) (te_tcp t) (te_last_ip_id t) b (fwd_time t) (te_sock t) (te_state t) (te_dh t).
Definition set_te_tcp (c : tcp_rec) (ttl ip_id : Z) (t : telex_info) : telex_info :=
  Te (key_info t) ttl c ip_id (do_fwd t) (fwd_time t) (te_sock t) (te_state t) (te_dh t).
Definition set_te_dh (d : dh_rec) (t : telex_info) : telex_info :=
  Te (key_info t) (te_last_ttl t) (te_tcp t) (te_last_ip_id t) (do_fwd t) (fwd_time t) (te_sock t) (te_state t) d.

(** ** The flow record *)

(** [struct telex_tcp_info] and [struct flow], whole. *)
Record wtcp := WTcp {
  w_seq : Z; w_ack : Z; w_rcv_window : Z; w_rcv_window_scale : Z; w_snd_window : Z; w_snd_window_scale : Z;
  w_last_ts : telex_tcp_ts; w_cur_ts : telex_tcp_ts; w_option_ts : Z; w_option_sack : Z; w_flags : Z }.
Record wflow := WFlow {
  w_orig_h : Z; w_resp_h : Z; w_orig_p : Z; w_resp_p : Z; w_last_ttl : Z; w_last_ip_id : Z; w_tcp : wtcp }.

Definition timeval_of (t : Z) : timeval := Timeval (t / 1000000) (t mod 1000000).

(** A timestamp of [telex_fill_flow], or what was there if it was never received. *)
Definition fill_ts (t : ts_info) (old : telex_tcp_ts) : telex_tcp_ts :=
  match recv_time t with
  | Some r => Ts (timeval_of r) (wrap 32 (ti_tsval t)) (wrap 32 (ti_tsecr t))
  | None => old
  end.

(** [telex_fill_flow] over the memory [fl]. *)
Definition telex_fill_flow (cid : conn_id) (te : telex_info) (fl : wflow) (to_orig : bool) : wflow :=
  let tcp := te_tcp te in
  let old := w_tcp fl in
  let pick (a b : Z) := if to_orig then a else b in
  WFlow (pick (id_orig_h cid) (id_resp_h cid)) (pick (id_resp_h cid) (id_orig_h cid))
    (ntohs (pick (id_orig_p cid) (id_resp_p cid))) (ntohs (pick (id_resp_p cid) (id_orig_p cid)))
    (wrap 8 (te_last_ttl te)) (wrap 16 (te_last_ip_id te))
    (WTcp (wrap 32 (pick (r_seq tcp) (r_ack tcp))) (wrap 32 (pick (r_ack tcp) (r_seq tcp)))
       (wrap 16 (pick (r_rcv_window tcp) (r_snd_window tcp)))
       (wrap 16 (pick (r_rcv_window_scale tcp) (r_snd_window_scale tcp)))
       (wrap 16 (pick (r_snd_window tcp) (r_rcv_window tcp)))
       (wrap 16 (pick (r_snd_window_scale tcp) (r_rcv_window_scale tcp)))
       (if ts_option tcp then fill_ts (r_last_ts tcp) (w_last_ts old) else w_last_ts old)
       (if ts_option tcp then fill_ts (r_cur_ts tcp) (w_cur_ts old) else w_cur_ts old)
       (if ts_option tcp then 1 else w_option_ts old)
       (if sack_option tcp then 1 else w_option_sack old) 0).

Definition flow_zero : wflow :=
  WFlow 0 0 0 0 0 0 (WTcp 0 0 0 0 0 0 (Ts (Timeval 0 0) 0 0) (Ts (Timeval 0 0) 0 0) 0 0 0).

(** ** Messages to the relay *)

Definition RECORD_TYPE_INIT : Z := 0.
Definition RECORD_TYPE_RAW_PKT : Z := 2.
Definition sizeof_flow : Z := 15 + 16 + 24 + 24 + 3.
Definition sizeof_dh_params : Z := 3 * (2 + 128) + 32 + 32 + 16 + 16 + 1.
Definition sizeof_bro_init_data : Z := sizeof_flow + 16 + 2 + sizeof_dh_params.

(** [struct bro_init_data], with the fields of its [struct dh_params]. *)
Record init_data := InitData {
  i_flow : wflow; i_shared_secret : list Z; i_port : Z;
  i_p_len : Z; i_p : list Z; i_pub_key_len : Z; i_pub_key : list Z;
  i_client_random : list Z; i_server_random : list Z; i_client_iv : list Z; i_server_iv : list Z }.

(** [struct bro_record_hdr] and what follows it. *)
Inductive message :=
| MsgInit (hdr_type hdr_len : Z) (d : init_data)
| MsgRaw (hdr_type hdr_len : Z) (pkt : list Z).

(** The Diffie-Hellman part of [telex_send_init_data]: [inl] is a record, [inr] the
    result 1; a missing string other than [p] is a crash. *)
Definition fill_dh (dh : dh_rec) (d : init_data) : outcome (init_data + Z) :=
  match dh_p dh with
  | None => Ret (inr 1)
  | Some p =>
      match dh_g dh, dh_pub_key dh, dh_client_random dh, dh_server_random dh, dh_client_iv dh, dh_server_iv dh with
      | Some _, Some pub, Some cr, Some sr, Some civ, Some siv =>
          if ((128 <? length p) || (128 <? length pub) || (32 <? length cr) || (32 <? length sr) ||
              (16 <? length civ) || (16 <? length siv))%nat then Ret (inr 1) else
          Ret (inl (InitData (i_flow d) (i_shared_secret d) (i_port d)
            (Z.of_nat (length p)) (overwrite 0 p (i_p d)) (Z.of_nat (length pub)) (overwrite 0 pub (i_pub_key d))
            (overwrite 0 cr (i_client_random d)) (overwrite 0 sr (i_server_random d))
            (overwrite 0 civ (i_client_iv d)) (overwrite 0 siv (i_server_iv d))))
      | _, _, _, _, _, _ => Abrt
      end
  end.

(** [telex_send_init_data]: the message and whether the result is 0; [mem] is the contents
    of the allocated buffer, [sent] what [send] returns. *)
Definition telex_send_init_data (mem : init_data) (sent : Z) (cid : conn_id) (te : telex_info)
    : outcome (option message * Z) :=
  if te_sock te =? -1 then Ret (None, 1) else
  let '(shared_key, port) := key_info te in
  let fl := telex_fill_flow cid te flow_zero true in
  let fl := WFlow (w_orig_h fl) (w_resp_h fl) (w_orig_p fl) (w_resp_p fl) (wrap 8 (w_last_ttl fl + 1))
                  (w_last_ip_id fl) (w_tcp fl) in
  let full := (length shared_key =? 16)%nat in
  let d := InitData fl (if full then shared_key else repeat 0 16) (if full then wrap 16 port else i_port mem)
    (i_p_len mem) (i_p mem) (i_pub_key_len mem) (i_pub_key mem) (i_client_random mem) (i_server_random mem)
    (i_client_iv mem) (i_server_iv mem) in
  obind (fill_dh (te_dh te) d) (fun r =>
  match r with
  | inr e => Ret (None, e)
  | inl d =>
      if sent <? 0 then Ret (None, 1)
      else Ret (Some (MsgInit RECORD_TYPE_INIT sizeof_bro_init_data d), 0)
  end).

(** [telex_send_bronnect_raw_pkt]; [sent] is what [sendall] returns. *)
Definition telex_send_bronnect_raw_pkt (sent : Z) (te : telex_info) (pkt : list Z) : option message * Z :=
  if te_sock te =? -1 then (None, 1) else
  if sent <? 0 then (None, 1)
  else (Some (MsgRaw RECORD_TYPE_RAW_PKT (wrap 16 (Z.of_nat (length pkt))) pkt), 0).

(** [telex_mod_block]: [tries] says of each failed attempt whether the reconnection
    worked, until an attempt succeeds. *)
Definition telex_mod_block (tries : list bool) : outcome unit :=
  if forallb (fun b => b) tries then Ret tt else Exit 1.

(** The flow that it blocks or unblocks, as [telex_mod_flow] passes it on. *)
Definition mod_block_args (cid : conn_id) : bflow :=
  BFlow (id_orig_h cid) (ntohs (id_orig_p cid)) (id_resp_h cid) (ntohs (id_resp_p cid)).

(** [telex_init_bronnect]: [path_len] is the length of the socket's path; the new [sock]
    and the result. *)
Definition telex_init_bronnect (sock path_len new_sock connect_r : Z) : outcome (Z * Z) :=
  if negb (sock =? -1) then Ret (sock, 1) else
  if new_sock <? 0 then Exit 1 else
  if 108 <=? path_len then Exit 1 else
  if connect_r <? 0 then Ret (sock, 1) else Ret (new_sock, 0).

Definition TH_RST : Z := 4.

(** The fields of a flow that [telex_tcp_forge_xmit] reads. *)
Definition forge_view (fl : wflow) (fl_flags : Z) : tflow :=
  let t := w_tcp fl in
  TFlow (w_orig_h fl) (w_resp_h fl) (w_orig_p fl) (w_resp_p fl) (w_last_ttl fl) (w_last_ip_id fl)
    (TcpInfo (w_seq t) (w_ack t) (w_snd_window t) (w_last_ts t) (w_cur_ts t) (w_option_ts t) fl_flags).

(** The flows of [telex_send_ack] and [telex_send_rst], over uninitialised memory. *)
Definition telex_send_ack (cid : conn_id) (te : telex_info) (stack : wflow) : tflow :=
  forge_view (telex_fill_flow cid te stack true) 0.
Definition telex_send_rst (cid : conn_id) (te : telex_info) (stack : wflow) : tflow :=
  forge_view (telex_fill_flow cid te stack false) TH_RST.

(** ** The policy *)

(** What Bro keeps of each side of a connection. *)
Record endpoint := Endpoint {
  last_seq : Z; last_window : Z; last_window_scale : Z; last_IP_ID : Z; last_TTL : Z }.

Inductive action :=
| Block | Unblock                       (** [telex_mod_block] with T and F *)
| CloseSock (fd : Z) | Connected (fd : Z)
| ToRelay (m : message) | Rst (fl : tflow) | Forward (pkt : list Z) | SkipConnection.

(** The events of telex-ssl.bro for one connection, each with what its calls meet. *)
Inductive event :=
| ClientHello (rand client_random : list Z) (jk : coord) (now : Z) (tries : list bool)
    (path_len new_sock connect_r : Z)
| ServerHello (server_random : list Z)
| KeyExchange (p g pub_key : list Z)
| Alert (is_orig : bool)
| StateRemove (tries : list bool)       (** [connection_state_remove] *)
| Expire (tries : list bool)            (** 23 seconds without access *)
| SslRecord (is_orig : bool) (typ : Z) (data : list Z) (orig resp : endpoint) (mem : init_data) (sent : Z)
    (tries : list bool)
| TcpOption (is_orig : bool) (opt : Z) (option : list Z) (network_time : Z)
| FinalPacket (raw : list Z) (network_time : Z) (sent : Z) (stack : wflow) (tries : list bool).

(** The connection's entry of [telex_table], the global [telex_tag_key], the calls made. *)
Record det := Det { entry : option telex_info; tag_key : list Z; acts : list action }.

Definition track (te : telex_info) (d : det) : det := Det (Some te) (tag_key d) (acts d).
Definition act (a : list action) (d : det) : det := Det (entry d) (tag_key d) (acts d ++ a).

(** [cleanup_connection] of the policy: the entry goes, nothing is unblocked. *)
Definition cleanup_connection (te : telex_info) (d : det) : det :=
  Det None (tag_key d) (acts d ++ [CloseSock (te_sock te)]).

(** [do_expire], and [cleanup_and_unblock_connection], which calls it. *)
Definition do_expire (tries : list bool) (te : telex_info) (d : det) : outcome det :=
  obind (telex_mod_block tries) (fun _ => Ret (cleanup_connection te (act [Unblock] d))).

(** [purge_telex_table] at this entry, five seconds after the block. *)
Definition purge_telex_table (now : Z) (tries : list bool) (te : telex_info) (d : det) : outcome det :=
  if (te_state te <? 4) && (5000000 <? now - fwd_time te) then do_expire tries te d else Ret d.

(** The entry of a tagged connection. *)
Definition new_te (key : list Z * Z) (client_random : list Z) (now sock : Z) : telex_info :=
  Te key 0 (TcpRec 0 0 0 0 0 0 (TsInfo None 0 0) (TsInfo None 0 0) false false) 0 true now sock 1
     (DhRec None None None (Some client_random) None None None).

(** [sub_bytes(data, byte_len(data)-15, 16)] *)
Definition get_iv_from_handshake (data : list Z) : list Z :=
  if (length data <? 15)%nat then [] else firstn 16 (skipn (length data - 16) data).

(** [ssl_change_cipher] *)
Definition ssl_change_cipher (is_orig : bool) (tries : list bool) (te : telex_info) (d : det) : outcome det :=
  if te_state te =? 1 then
    if is_orig then Ret (track (set_te_state 2 te) d) else do_expire tries te d
  else if (te_state te =? 2) && negb is_orig then Ret (track (set_te_state 4 te) d)
  else do_expire tries te d.

(** The client's side of [ssl_handshake]: the IV and the state of the connection. *)
Definition note_client (data : list Z) (orig resp : endpoint) (te : telex_info) : telex_info :=
  let t := te_tcp te in let h := te_dh te in
  set_te_tcp (TcpRec (last_seq resp) (last_seq orig)
      (Z.shiftr (last_window orig) (last_window_scale orig)) (last_window_scale orig)
      (Z.shiftr (last_window resp) (last_window_scale resp)) (last_window_scale resp)
      (r_cur_ts t) (r_last_ts t) (ts_option t) (sack_option t))
    (last_TTL resp) (last_IP_ID resp)
    (set_te_dh (DhRec (dh_p h) (dh_g h) (dh_pub_key h) (dh_client_random h) (dh_server_random h)
                      (Some (get_iv_from_handshake data)) (dh_server_iv h)) te).
Definition note_server (data : list Z) (te : telex_info) : telex_info :=
  let h := te_dh te in
  set_te_dh (DhRec (dh_p h) (dh_g h) (dh_pub_key h) (dh_client_random h) (dh_server_random h)
                   (dh_client_iv h) (Some (get_iv_from_handshake data))) te.

Section Policy.
Context (pm : env -> list Z -> list Z -> list Z) (SHA256 : list Z -> list Z).
Context (keys : list telex_priv_key) (cid : conn_id).

(** [ssl_handshake] *)
Definition ssl_handshake (is_orig : bool) (data : list Z) (orig resp : endpoint) (mem : init_data) (sent : Z)
    (tries : list bool) (te : telex_info) (d : det) : outcome det :=
  let te := if (2 <=? te_state te) && is_orig then note_client data orig resp te
            else if (3 <=? te_state te) && negb is_orig then note_server data te else te in
  if te_state te =? 4 then
    obind (telex_send_init_data mem sent cid te) (fun '(m, r) =>
    let d := act (match m with Some m => [ToRelay m] | None => [] end) d in
    if negb (r =? 0) then do_expire tries te d else Ret (track (set_te_state 5 te) d))
  else Ret (track te d).

(** [ssl_conn_attempt] of a connection that is not in the table; its two reads of the clock,
    for the age of the hello and for [fwd_time], are one value [now]. *)
Definition ssl_conn_attempt (rand client_random : list Z) (jk : coord) (now : Z) (tries : list bool)
    (path_len new_sock connect_r : Z) (d : det) : outcome det :=
  let tag_context := telex_get_context (id_resp_h cid) (firstn 4 client_random) [0] in
  let '(found, tag_key) := telex_tag_get_key pm SHA256 jk (tag_key d) keys rand tag_context in
  let d := Det (entry d) tag_key (acts d) in
  let diff := get_ssl_nonce_timestamp client_random - now in
  match found with
  | None => Ret (act [SkipConnection] d)
  | Some key =>
      if (60000000 <? diff) || (diff <? -60000000) then Ret (act [SkipConnection] d) else
      obind (telex_mod_block tries) (fun _ =>
      let d := act [Block] d in
      obind (telex_init_bronnect (-1) path_len new_sock connect_r) (fun '(sock, r) =>
      Ret (track (new_te key client_random now sock) (act (if r =? 0 then [Connected sock] else []) d))))
  end.

(** [new_packet_final] *)
Definition new_packet_final (raw : list Z) (network_time sent : Z) (stack : wflow) (tries : list bool)
    (te : telex_info) (d : det) : outcome det :=
  if negb (do_fwd te) then Ret d else
  if fwd_time te <? network_time then
    if te_state te =? 5 then
      let te := set_do_fwd false te in
      let m := fst (telex_send_bronnect_raw_pkt sent te raw) in
      let te := set_te_state 6 te in
      let d := act (match m with Some m => [ToRelay m] | None => [] end ++ [Rst (telex_send_rst cid te stack)]) d in
      Ret (cleanup_connection te d)
    else Ret (act [Forward raw] d)
  else if te_state te =? 5 then do_expire tries (set_te_state 7 (set_do_fwd false te)) d
  else Ret d.

(** [tcp_option] *)
Definition tcp_option (is_orig : bool) (opt : Z) (option : list Z) (network_time : Z) (te : telex_info) : telex_info :=
  let t := te_tcp te in
  let put cur last ts sack :=
    set_te_tcp (TcpRec (r_seq t) (r_ack t) (r_rcv_window t) (r_rcv_window_scale t) (r_snd_window t)
                  (r_snd_window_scale t) cur last ts sack) (te_last_ttl te) (te_last_ip_id te) te in
  if opt =? 8 then
    if is_orig then te else
    let tsval := extract_tcp_timestamp option false in
    if ti_tsval (r_cur_ts t) =? tsval then put (r_cur_ts t) (r_last_ts t) true (sack_option t)
    else put (TsInfo (Some network_time) tsval (extract_tcp_timestamp option true)) (r_cur_ts t) true (sack_option t)
  else if (opt =? 4) && is_orig then put (r_cur_ts t) (r_last_ts t) (ts_option t) true
  else te.

(** One event of the connection. *)
Definition on_event (e : event) (d : det) : outcome det :=
  match e, entry d with
  | ClientHello rand cr jk now tries pl ns cn, None => ssl_conn_attempt rand cr jk now tries pl ns cn d
  | _, None => Ret d
  | ClientHello _ _ _ _ _ _ _ _, Some _ => Ret d
  | ServerHello sr, Some te =>
      let h := te_dh te in
      Ret (track (set_te_dh (DhRec (dh_p h) (dh_g h) (dh_pub_key h) (dh_client_random h) (Some sr)
                                   (dh_client_iv h) (dh_server_iv h)) te) d)
  | KeyExchange p g pub, Some te =>
      let h := te_dh te in
      Ret (track (set_te_dh (DhRec (Some p) (Some g) (Some pub) (dh_client_random h) (dh_server_random h)
                                   (dh_client_iv h) (dh_server_iv h)) te) d)
  | Alert is_orig, Some te => Ret (if is_orig then cleanup_connection te d else d)
  | StateRemove tries, Some te | Expire tries, Some te => do_expire tries te d
  | SslRecord is_orig typ data orig resp mem sent tries, Some te =>
      if typ =? 23 then (if te_sock te =? -1 then Ret d else do_expire tries te d)
      else if typ =? 20 then ssl_change_cipher is_orig tries te d
      else if typ =? 22 then ssl_handshake is_orig data orig resp mem sent tries te d
      else Ret d
  | TcpOption is_orig opt option t, Some te => Ret (track (tcp_option is_orig opt option t te) d)
  | FinalPacket raw t sent stack tries, Some te => new_packet_final raw t sent stack tries te d
  end.

Fixpoint on_events (es : list event) (d : det) : outcome det :=
  match es with [] => Ret d | e :: es => obind (on_event e d) (on_events es) end.
End Policy.

(** ** The key file *)

Definition packable (f : list Z * Z) : Prop :=
  length (fst f) = PTWIST_BYTES /\ first_line (fst f) = fst f /\ in_width 16 (snd f).

Lemma read_packed files rest : Forall packable files ->
  read_keys (length files) (flat_map (fun f => first_line (fst f) ++ le_bytes 2 (snd f)) files ++ rest) =
  map (fun f => PrivKey (fst f) (snd f)) files.
Proof.
  induction 1 as [| [k p] files (Hl & Hk & Hp) _ IH]; [reflexivity |]. cbn [fst snd] in *.
  cbn [length read_keys flat_map map fst snd]. rewrite Hk, <- app_assoc.
  rewrite fread_app by (rewrite length_app, Hl, le_bytes_length; reflexivity).
  rewrite (firstn_exact PTWIST_BYTES), (skipn_exact PTWIST_BYTES), IH by exact Hl.
  rewrite le_value_bytes, Z.mod_small by exact Hp. reflexivity.
Qed.

(** The station reads back from the packaged key file the keys and ports that were put
    into it, in their order; for keys whose first newline, if any, is their last byte. *)
Theorem key_file_roundtrip files uninit raw_fd blocker_r :
  Forall packable files -> 0 < Z.of_nat (length files) < 65536 -> raw_fd <> -1 -> 0 <= blocker_r ->
  telex_init (Some (package_keys files)) uninit raw_fd blocker_r = Ret (map (fun f => PrivKey (fst f) (snd f)) files).
Proof.
  intros HF HL Hr Hb. unfold telex_init, package_keys. rewrite fread_app by apply le_bytes_length.
  rewrite le_value_bytes, Z.mod_small, Nat2Z.id by (change (256 ^ Z.of_nat 2) with 65536; lia).
  rewrite <- (app_nil_r (flat_map _ files)), read_packed, length_map by exact HF.
  rewrite (proj2 (Nat.eqb_neq _ _)) by lia. unfold telex_tcp_init.
  rewrite (proj2 (Z.eqb_neq _ _) Hr). cbn [obind]. rewrite (proj2 (Z.ltb_ge _ _) Hb).
  now rewrite Nat.sub_diag, app_nil_r.
Qed.

Lemma key_file_roundtrip_witness :
  telex_init (Some (package_keys [(repeat 3 21, 3128); (repeat 4 20 ++ [10], 3129)])) [] 3 4 =
  Ret [PrivKey (repeat 3 21) 3128; PrivKey (repeat 4 20 ++ [10]) 3129].
Proof.
  apply (key_file_roundtrip [(repeat 3 21, 3128); (repeat 4 20 ++ [10], 3129)]); [| cbn; lia | lia | lia].
  repeat (apply Forall_cons || apply Forall_nil); repeat split; cbn; lia.
Defined.

(** A newline inside a key cuts it short, and the keys are read at the wrong places. *)
Lemma key_file_newline :
  telex_init (Some (package_keys [(10 :: repeat 3 20, 3128); (repeat 4 21, 3129)])) [] 3 4 <>
  Ret [PrivKey (10 :: repeat 3 20) 3128; PrivKey (repeat 4 21) 3129].
Proof. vm_compute. discriminate. Qed.

(** ** The tag in the hello *)

Lemma try_keys_first pm SHA256 jk keys1 k keys2 hello context secret : forall tk,
  Forall (fun k' => forall tk, fst (check_tag pm SHA256 jk tk (pk_key k') hello context) <> 0) keys1 ->
  (forall tk, check_tag pm SHA256 jk tk (pk_key k) hello context = (0, secret)) -> length secret = 16%nat ->
  try_keys pm SHA256 jk tk (keys1 ++ k :: keys2) hello context = (Some (secret, pk_port k), secret).
Proof.
  intros tk H1 Hk HL. revert tk. induction H1 as [| k' keys1 Hk' _ IH]; intros tk; cbn [app try_keys].
  - rewrite Hk. cbn. now rewrite firstn_all2 by lia.
  - specialize (Hk' tk). destruct (check_tag _ _ _ _ (pk_key k') _ _) as [r tk']. cbn [fst] in Hk'.
    rewrite (proj2 (Z.eqb_neq r 0) Hk'). apply IH.
Qed.

Lemma nonce_timestamp now tag : 0 <= now < 2 ^ 32 ->
  get_ssl_nonce_timestamp (rev (le_bytes 4 now) ++ tag) = now * 1000000.
Proof.
  intros H. unfold get_ssl_nonce_timestamp. rewrite firstn_exact by now rewrite length_rev, le_bytes_length.
  unfold be_value. rewrite rev_involutive, le_value_bytes, Z.mod_small; [reflexivity | exact H].
Qed.

Lemma context_of_wire ip now tag :
  telex_get_context ip (firstn 4 (rev (le_bytes 4 now) ++ tag)) [0] = tag_context ip now.
Proof. reflexivity. Qed.

(** The event of a tagged hello. *)
Lemma hello_detected SHA256 HMAC e1 e2 ek1 ek2 j1 j2 st0 random privkey pubkey st now r1 seckey
    keys1 port keys2 cid jk tk snow tries path_len sock :
  (forall m, length (SHA256 m) = 32%nat) ->
  (forall k m, Forall is_byte (HMAC k m)) -> (forall k m, length (HMAC k m) = 32%nat) ->
  length j1 = 128%nat -> length j2 = 128%nat ->
  genkeys_main ptwist_pm ek1 ek2 random = Ret (privkey, pubkey) ->
  tag_load_pubkey (Some pubkey) (tag_init st0) = Ret st ->
  ptwist_usable (gen_of st r1) seckey privkey ->
  0 <= now < 2 ^ 32 -> Z.abs (now * 1000000 - snow) <= 60000000 ->
  forallb (fun b => b) tries = true -> path_len < 108 -> 0 <= sock ->
  exists h, ssl_new_telex ptwist_pm SHA256 HMAC true e1 e2 j1 st now (id_resp_h cid) r1 seckey = Ret (0, Some h) /\
    let wire := telex_client_random h in
    (Forall (fun k => forall tk, fst (check_tag ptwist_pm SHA256 jk tk (pk_key k) (skipn 4 wire)
                                        (tag_context (id_resp_h cid) now)) <> 0) keys1 ->
     exists secret,
       on_event ptwist_pm SHA256 (keys1 ++ PrivKey privkey port :: keys2) cid
         (ClientHello (skipn 4 wire) wire jk snow tries path_len sock 0) (Det None tk []) =
       Ret (Det (Some (new_te (secret, port) wire snow sock)) secret [Block; Connected sock]) /\
       length secret = 16%nat /\ station_dh_key HMAC j2 secret = Ret (telex_dh_priv_key h)).
Proof.
  intros HS HB HL J1 J2 Hk Hl Hu Hn Hd Ht Hpl Hso.
  destruct (hello_recovered SHA256 HMAC e1 e2 ek1 ek2 j1 j2 st0 random privkey pubkey st now (id_resp_h cid) r1 seckey
              HS HB HL J1 J2 Hk Hl Hu) as (h & tag & secret & E & W & L & R & LS & D).
  exists h. split; [exact E |]. cbv zeta. rewrite W.
  assert (length (rev (le_bytes 4 now)) = 4%nat) as Lt by now rewrite length_rev, le_bytes_length.
  rewrite (skipn_exact 4) by exact Lt. intros HF. exists secret. split; [| exact (conj LS D)].
  cbn [on_event entry]. unfold ssl_conn_attempt, telex_tag_get_key. rewrite L. cbn [negb tag_key].
  rewrite context_of_wire.
  rewrite Nat.eqb_refl. cbn [negb].
  rewrite (try_keys_first ptwist_pm SHA256 jk keys1 (PrivKey privkey port) keys2 tag _ secret tk HF
             (fun tk => R jk tk) LS).
  rewrite nonce_timestamp by exact Hn.
  rewrite (proj2 (Z.ltb_ge _ _)), (proj2 (Z.ltb_ge _ (-60000000))) by lia. cbn [orb].
  unfold telex_mod_block. rewrite Ht. cbn [obind]. unfold telex_init_bronnect. cbn [Z.eqb Pos.eqb negb].
  rewrite (proj2 (Z.ltb_ge sock 0)), (proj2 (Z.leb_gt 108 path_len)) by lia. reflexivity.
Qed.

(** A client's tagged hello is detected.  The station's key list has the client's key,
    no key before it takes the tag for its own, and the clocks agree within a minute: the
    flow is blocked, a connection to the relay is opened, and the new entry holds the
    key's port and a secret from which the relay derives the Diffie-Hellman key that the
    client uses. *)
Theorem tagged_hello_detected SHA256 HMAC e1 e2 ek1 ek2 j1 j2 st0 random privkey pubkey st now r1 seckey
    keys1 port keys2 cid jk tk snow tries path_len sock :
  (forall m, length (SHA256 m) = 32%nat) ->
  (forall k m, Forall is_byte (HMAC k m)) -> (forall k m, length (HMAC k m) = 32%nat) ->
  length j1 = 128%nat -> length j2 = 128%nat ->
  genkeys_main ptwist_pm ek1 ek2 random = Ret (privkey, pubkey) ->
  tag_load_pubkey (Some pubkey) (tag_init st0) = Ret st ->
  ptwist_usable (gen_of st r1) seckey privkey ->
  0 <= now < 2 ^ 32 -> Z.abs (now * 1000000 - snow) <= 60000000 ->
  forallb (fun b => b) tries = true -> path_len < 108 -> 0 <= sock ->
  exists h, ssl_new_telex ptwist_pm SHA256 HMAC true e1 e2 j1 st now (id_resp_h cid) r1 seckey = Ret (0, Some h) /\
    let wire := telex_client_random h in
    (Forall (fun k => forall tk, fst (check_tag ptwist_pm SHA256 jk tk (pk_key k) (skipn 4 wire)
                                        (tag_context (id_resp_h cid) now)) <> 0) keys1 ->
     exists secret,
       on_event ptwist_pm SHA256 (keys1 ++ PrivKey privkey port :: keys2) cid
         (ClientHello (skipn 4 wire) wire jk snow tries path_len sock 0) (Det None tk []) =
       Ret (Det (Some (new_te (secret, port) wire snow sock)) secret [Block; Connected sock]) /\
       length secret = 16%nat /\ station_dh_key HMAC j2 secret = Ret (telex_dh_priv_key h)).
Proof. exact (hello_detected SHA256 HMAC e1 e2 ek1 ek2 j1 j2 st0 random privkey pubkey st now r1 seckey
    keys1 port keys2 cid jk tk snow tries path_len sock). Qed.

(** ** What an event can do *)

Definition is_init_of (key : list Z * Z) (m : message) : Prop :=
  exists d, m = MsgInit RECORD_TYPE_INIT sizeof_bro_init_data d /\
    (length (fst key) = 16%nat -> i_shared_secret d = fst key /\ i_port d = wrap 16 (snd key)).

Definition next_state (s s' : Z) : Prop := s' = s \/ (s = 1 /\ s' = 2) \/ (s = 2 /\ s' = 4).

(** From an entry to an entry with the calls in between; the flag is a client's alert. *)
Inductive move : bool -> option telex_info -> list action -> option telex_info -> Prop :=
| M_skip al o a : a = [] \/ a = [SkipConnection] \/ (exists p, a = [Forward p]) -> move al o a o
| M_start al te a : te_state te = 1 -> a = [Block] \/ (exists fd, a = [Block; Connected fd]) -> move al None a (Some te)
| M_update al te te' : key_info te' = key_info te -> next_state (te_state te) (te_state te') ->
    move al (Some te) [] (Some te')
| M_init al te te' m : te_state te = 4 -> te_state te' = 5 -> key_info te' = key_info te ->
    is_init_of (key_info te) m -> move al (Some te) [ToRelay m] (Some te')
| M_release al te fd : move al (Some te) [Unblock; CloseSock fd] None
| M_handover al te m fl fd : te_state te = 5 ->
    (m = [] \/ exists pkt, m = [ToRelay (MsgRaw RECORD_TYPE_RAW_PKT (wrap 16 (Z.of_nat (length pkt))) pkt)]) ->
    move al (Some te) (m ++ [Rst fl; CloseSock fd]) None
| M_alert te fd : move true (Some te) [CloseSock fd] None.

Definition moves (al : bool) (d d' : det) : Prop :=
  exists a, acts d' = acts d ++ a /\ move al (entry d) a (entry d').

Lemma moves_quiet al d d' : acts d' = acts d -> entry d' = entry d -> moves al d d'.
Proof. intros Ha He. exists []. rewrite Ha, He, app_nil_r. split; [reflexivity | apply M_skip; now left]. Qed.

Lemma moves_track al te te' d :
  entry d = Some te -> key_info te' = key_info te -> next_state (te_state te) (te_state te') -> moves al d (track te' d).
Proof. intros E Hk Hs. exists []. cbn. rewrite E, app_nil_r. split; [reflexivity | now apply M_update]. Qed.

Lemma moves_expire al tries te te0 d d' : entry d = Some te0 -> do_expire tries te d = Ret d' -> moves al d d'.
Proof.
  intros E H. unfold do_expire in H. apply obind_ret in H as (_ & _ & [= <-]).
  exists [Unblock; CloseSock (te_sock te)]. cbn. rewrite <- app_assoc, E. split; [reflexivity | constructor].
Qed.

Lemma same_state s : next_state s s.
Proof. now left. Qed.

Create HintDb moves.
#[export] Hint Resolve moves_quiet moves_track moves_expire same_state : moves.

Lemma send_init_message mem sent cid te m r :
  telex_send_init_data mem sent cid te = Ret (m, r) ->
  (r = 0 /\ exists m', m = Some m' /\ is_init_of (key_info te) m') \/ (r <> 0 /\ m = None).
Proof.
  unfold telex_send_init_data. destruct (te_sock te =? -1); [intros [= <- <-]; right; now split |].
  destruct (key_info te) as [sk port] eqn:Ek. intros H. apply obind_ret in H as (x & Hx & H).
  destruct x as [d' | e].
  - destruct (sent <? 0); injection H as <- <-; [right; now split |]. left. split; [reflexivity |].
    eexists. split; [reflexivity |]. exists d'. split; [reflexivity |]. cbn [fst snd]. intros HL.
    rewrite HL in Hx. unfold fill_dh in Hx.
    repeat match type of Hx with context [match ?o with Some _ => _ | None => _ end] => destruct o; try discriminate end.
    destruct (_ || _)%nat; [discriminate |]. injection Hx as <-. now split.
  - injection H as <- <-. right. split; [| reflexivity]. unfold fill_dh in Hx.
    repeat match type of Hx with context [match ?o with Some _ => _ | None => _ end] => destruct o; try discriminate end;
      try (destruct (_ || _)%nat; [| discriminate]); injection Hx as <-; discriminate.
Qed.

Lemma handshake_moves al cid is_orig data orig resp mem sent tries te d d' :
  entry d = Some te -> ssl_handshake cid is_orig data orig resp mem sent tries te d = Ret d' -> moves al d d'.
Proof.
  intros E. unfold ssl_handshake.
  set (te' := if (2 <=? te_state te) && is_orig then _ else _).
  assert (key_info te' = key_info te /\ te_state te' = te_state te) as [Hk Hs]
    by (unfold te'; destruct (_ && is_orig); [now split |]; now destruct (_ && _)).
  clearbody te'. destruct (Z.eqb_spec (te_state te') 4) as [H4 |].
  - intros H. apply obind_ret in H as ([m r] & Hm & H).
    destruct (send_init_message _ _ _ _ _ _ Hm) as [(-> & m' & -> & Hi) | [Hr ->]].
    + cbn [Z.eqb negb] in H. injection H as <-. exists [ToRelay m']. cbn. split; [reflexivity |]. rewrite E.
      rewrite Hk in Hi. apply M_init; [congruence | reflexivity | exact Hk | exact Hi].
    + rewrite (proj2 (Z.eqb_neq r 0) Hr) in H. cbn [negb] in H. unfold act in H. rewrite app_nil_r in H.
      destruct d. eapply moves_expire; [exact E | exact H].
  - intros [= <-]. apply (moves_track al te); auto. rewrite Hs. apply same_state.
Qed.

Lemma cipher_moves al is_orig tries te d d' :
  entry d = Some te -> ssl_change_cipher is_orig tries te d = Ret d' -> moves al d d'.
Proof.
  intros E. unfold ssl_change_cipher. destruct (Z.eqb_spec (te_state te) 1) as [H1 |].
  - destruct is_orig; [| exact (moves_expire al _ _ te d d' E)]. intros [= <-]. apply (moves_track al te); auto. right. now left.
  - destruct (Z.eqb_spec (te_state te) 2) as [H2 |]; cbn [andb]; [| exact (moves_expire al _ _ te d d' E)].
    destruct is_orig; cbn [negb]; [exact (moves_expire al _ _ te d d' E) |].
    intros [= <-]. apply (moves_track al te); auto. right. now right.
Qed.

Lemma final_moves al cid raw t sent stack tries te d d' :
  entry d = Some te -> new_packet_final cid raw t sent stack tries te d = Ret d' -> moves al d d'.
Proof.
  intros E. unfold new_packet_final. destruct (negb (do_fwd te)); [intros [= <-]; now apply moves_quiet |].
  destruct (fwd_time te <? t).
  - destruct (Z.eqb_spec (te_state te) 5) as [H5 |]; intros [= <-].
    + eexists. unfold cleanup_connection, act. cbn [acts entry]. rewrite <- !app_assoc. split; [reflexivity |].
      rewrite E. apply M_handover; [exact H5 |]. unfold telex_send_bronnect_raw_pkt.
      destruct (_ =? -1); [now left |]. destruct (_ <? 0); [now left |]. right. now exists raw.
    + exists [Forward raw]. cbn. split; [reflexivity |]. apply M_skip. right. right. now exists raw.
  - destruct (te_state te =? 5); [exact (moves_expire al _ _ te d d' E) |]. intros [= <-]. now apply moves_quiet.
Qed.

Lemma attempt_moves al pm SHA256 keys cid rand cr jk now tries pl ns cn d d' :
  entry d = None -> ssl_conn_attempt pm SHA256 keys cid rand cr jk now tries pl ns cn d = Ret d' -> moves al d d'.
Proof.
  intros E. unfold ssl_conn_attempt. destruct (telex_tag_get_key _ _ _ _ _ _ _) as [[key |] tk].
  - destruct (_ || _).
    + intros [= <-]. exists [SkipConnection]. cbn. split; [reflexivity |]. apply M_skip. auto.
    + intros H. apply obind_ret in H as (_ & _ & H). apply obind_ret in H as ([sock r] & _ & [= <-]).
      exists ([Block] ++ if r =? 0 then [Connected sock] else []). cbn. rewrite <- app_assoc, E. split; [reflexivity |].
      apply M_start; [reflexivity |]. destruct (r =? 0); [right; now exists sock | now left].
  - intros [= <-]. exists [SkipConnection]. cbn. split; [reflexivity |]. apply M_skip. auto.
Qed.

Lemma option_moves al is_orig opt option t te d : entry d = Some te -> moves al d (track (tcp_option is_orig opt option t te) d).
Proof.
  intros E. apply (moves_track al te); [exact E | |]; unfold tcp_option;
    destruct (opt =? 8), is_orig, (opt =? 4); cbn [andb]; auto using same_state; now destruct (_ =? _); auto using same_state.
Qed.

Definition is_client_alert (e : event) : bool := match e with Alert true => true | _ => false end.

Lemma on_event_moves pm SHA256 keys cid e d d' :
  on_event pm SHA256 keys cid e d = Ret d' -> moves (is_client_alert e) d d'.
Proof.
  unfold on_event. destruct (entry d) as [te |] eqn:E.
  - destruct e; try (intros [= <-]; now eauto with moves); try (now eauto with moves).
    + destruct is_orig; intros [= <-]; [| now apply moves_quiet].
      exists [CloseSock (te_sock te)]. cbn. rewrite E. split; [reflexivity | constructor].
    + destruct (typ =? 23); [destruct (_ =? -1); [intros [= <-] |]; now eauto with moves |].
      destruct (typ =? 20); [now apply cipher_moves |].
      destruct (typ =? 22); [now apply handshake_moves | intros [= <-]; now apply moves_quiet].
    + intros [= <-]. now apply option_moves.
    + now apply final_moves.
  - destruct e; try (intros [= <-]; now apply moves_quiet). now apply attempt_moves.
Qed.

Lemma on_events_keep pm SHA256 keys cid (C : event -> Prop) (P : det -> Prop) es :
  (forall e d d', C e -> on_event pm SHA256 keys cid e d = Ret d' -> P d -> P d') ->
  Forall C es -> forall d d', on_events pm SHA256 keys cid es d = Ret d' -> P d -> P d'.
Proof.
  intros HP. induction 1 as [| e es He _ IH]; intros d d' H Hd; cbn [on_events] in H; [now injection H as <- |].
  apply obind_ret in H as (d1 & H1 & H). eauto.
Qed.

(** ** Blocks and unblocks *)

Definition n_acts (f : action -> bool) (l : list action) : nat := length (filter f l).
Definition is_block (a : action) : bool := match a with Block => true | _ => false end.
Definition is_unblock (a : action) : bool := match a with Unblock => true | _ => false end.
Definition is_close (a : action) : bool := match a with CloseSock _ => true | _ => false end.
Definition is_rst (a : action) : bool := match a with Rst _ => true | _ => false end.
Definition tracked (d : det) : nat := match entry d with Some _ => 1 | None => 0 end.

Lemma n_acts_app f a b : n_acts f (a ++ b) = (n_acts f a + n_acts f b)%nat.
Proof. unfold n_acts. now rewrite filter_app, length_app. Qed.

(** Each block ends in a removal of the entry; [strict] if no client's alert was one. *)
Definition ledger (strict : bool) (d : det) : Prop :=
  n_acts is_block (acts d) = (n_acts is_close (acts d) + tracked d)%nat /\
  (n_acts is_unblock (acts d) + n_acts is_rst (acts d) <= n_acts is_close (acts d))%nat /\
  (strict = true -> n_acts is_unblock (acts d) + n_acts is_rst (acts d) = n_acts is_close (acts d))%nat.

Lemma ledger_move strict al d d' : (strict = true -> al = false) -> moves al d d' -> ledger strict d -> ledger strict d'.
Proof.
  intros Hal (a & Ha & Hm) (H1 & H2 & H3). unfold ledger, tracked in *. rewrite Ha, !n_acts_app.
  destruct Hm as [? ? ? [-> | [-> | [p ->]]] | ? ? ? ? [-> | [fd ->]] | | | | ? ? ? ? ? ? [-> | [pkt ->]] |];
    cbn [n_acts filter app is_block is_unblock is_close is_rst length] in *; repeat split; try lia;
    intros Hs; specialize (H3 Hs); try lia. specialize (Hal Hs). discriminate.
Qed.

Lemma run_ledger pm SHA256 keys cid es tk d :
  on_events pm SHA256 keys cid es (Det None tk []) = Ret d -> ledger (negb (existsb is_client_alert es)) d.
Proof.
  intros H. set (strict := negb (existsb is_client_alert es)).
  eapply (on_events_keep _ _ _ _ (fun e => strict = true -> is_client_alert e = false) (ledger strict) es);
    [| | exact H | now repeat split].
  - intros e d0 d1 Hs He. apply (ledger_move strict (is_client_alert e)); [exact Hs |]. now apply on_event_moves in He.
  - apply Forall_forall. intros e He Hs. unfold strict in Hs. apply negb_true_iff in Hs.
    destruct (is_client_alert e) eqn:Ea; [| reflexivity].
    rewrite <- Hs. symmetry. apply existsb_exists. now exists e.
Qed.

(** C26: the bookkeeping of blocks, over any sequence of events of a connection.  It is
    blocked exactly once for each time it is tracked; every entry that is removed has its
    connection to the relay closed, and either the flow is unblocked or the server is reset
    because the relay took over, except for entries removed by an alert of the client. *)
Theorem block_ledger pm SHA256 keys cid es tk d :
  on_events pm SHA256 keys cid es (Det None tk []) = Ret d ->
  n_acts is_block (acts d) = (n_acts is_close (acts d) + tracked d)%nat /\
  (n_acts is_unblock (acts d) + n_acts is_rst (acts d) <= n_acts is_close (acts d))%nat /\
  (existsb is_client_alert es = false ->
   n_acts is_unblock (acts d) + n_acts is_rst (acts d) = n_acts is_close (acts d))%nat.
Proof.
  intros H. destruct (run_ledger _ _ _ _ _ _ _ H) as (L1 & L2 & L3).
  repeat split; [exact L1 | exact L2 |]. intros Ha. apply L3. now rewrite Ha.
Qed.

(** ** The messages to the relay *)

(** Those since the last block. *)
Definition session_step (s : list message) (a : action) : list message :=
  match a with Block => [] | ToRelay m => s ++ [m] | _ => s end.
Definition session_of (l : list action) : list message := fold_left session_step l [].

Definition raw_message (pkt : list Z) : message := MsgRaw RECORD_TYPE_RAW_PKT (wrap 16 (Z.of_nat (length pkt))) pkt.

(** Nothing, or the initial data, or the initial data and the last packet. *)
Definition well_ordered (s : list message) : Prop :=
  s = [] \/ exists key m, is_init_of key m /\ (s = [m] \/ exists pkt, s = [m; raw_message pkt]).

Definition in_step (d : det) : Prop :=
  match entry d with
  | None => well_ordered (session_of (acts d))
  | Some te =>
      if te_state te =? 5 then exists m, session_of (acts d) = [m] /\ is_init_of (key_info te) m
      else In (te_state te) [1; 2; 4] /\ session_of (acts d) = []
  end.

Lemma in_step_ordered d : in_step d -> well_ordered (session_of (acts d)).
Proof.
  unfold in_step, well_ordered. destruct (entry d) as [te |]; [| auto]. destruct (_ =? 5); [| intros [_ ->]; now left].
  intros (m & -> & Hm). right. eauto.
Qed.

Lemma in_step_move al d d' : moves al d d' -> in_step d -> in_step d'.
Proof.
  intros (a & Ha & Hm) Hd. pose proof (in_step_ordered d Hd) as Ho. revert Hd. unfold in_step. rewrite Ha.
  unfold session_of in *. rewrite fold_left_app. set (s := fold_left _ (acts d) _) in *.
  destruct Hm as [? o ? [-> | [-> | [p ->]]] | ? te ? Hs [-> | [fd ->]] | ? te te' Hk Hs | ? te te' m H4 H5 Hk Hi |
                  | ? te ? ? ? H5 [-> | [pkt ->]] |]; cbn [fold_left session_step app]; try (intros; assumption);
    try (rewrite Hs; cbn; tauto).
  - destruct Hs as [-> | [[-> ->] | [-> ->]]]; [rewrite Hk; auto | |]; cbn; intros [_ ->]; tauto.
  - rewrite H4, H5. cbn [Z.eqb Pos.eqb]. intros [_ ->]. exists m. rewrite Hk. now split.
  - rewrite H5. cbn [Z.eqb Pos.eqb]. intros (m' & E & Hi). rewrite E. right. eauto 6.
Qed.

Lemma run_in_step pm SHA256 keys cid es tk d :
  on_events pm SHA256 keys cid es (Det None tk []) = Ret d -> in_step d.
Proof.
  intros H. eapply (on_events_keep _ _ _ _ (fun _ => True) in_step es); [| now apply Forall_forall | exact H | now left].
  intros e d0 d1 _ He. eapply in_step_move, on_event_moves, He.
Qed.

(** What the relay is told.  Since the last block of a connection the detector has sent
    it nothing, or the initial data once, or the initial data and then the packet that ends
    the handshake; nothing before both sides have changed their cipher; and in state 5 it
    has sent exactly the initial data, with the secret and the port that the tag gave. *)
Theorem relay_told_in_order pm SHA256 keys cid es tk d :
  on_events pm SHA256 keys cid es (Det None tk []) = Ret d ->
  well_ordered (session_of (acts d)) /\
  (forall te, entry d = Some te ->
     (te_state te = 5 -> exists m, session_of (acts d) = [m] /\ is_init_of (key_info te) m) /\
     (te_state te <> 5 -> In (te_state te) [1; 2; 4] /\ session_of (acts d) = [])).
Proof.
  intros H. pose proof (run_in_step _ _ _ _ _ _ _ H) as Hd.
  split; [now apply in_step_ordered |]. intros te E. unfold in_step in Hd. rewrite E in Hd.
  split; intros Hs; [now rewrite Hs in Hd |]. now rewrite (proj2 (Z.eqb_neq _ _) Hs) in Hd.
Qed.

(** ** A complete session *)

Definition demo_pm (_ : env) (x _ : list Z) : list Z := x.
Definition demo_keys : list telex_priv_key := [PrivKey (repeat 3 21) 8888].
Definition demo_cid : conn_id := ConnId 0x0100000a 49716 0x04030201 443.
Definition demo_time : list Z := rev (le_bytes 4 1300000000).
Definition demo_tag : list Z :=
  repeat 5 21 ++ firstn 7 (toy_hash (repeat 5 21 ++ telex_get_context 0x04030201 demo_time [0])).
Definition demo_mem : init_data :=
  InitData flow_zero (repeat 1 16) 77 0 (repeat 1 128) 0 (repeat 1 128) (repeat 1 32) (repeat 1 32) (repeat 1 16) (repeat 1 16).
Definition demo_orig : endpoint := Endpoint 9000 65536 7 11 64.
Definition demo_resp : endpoint := Endpoint 7000 131072 7 500 57.
Definition demo_record (is_orig : bool) (typ : Z) (data : list Z) : event :=
  SslRecord is_orig typ data demo_orig demo_resp demo_mem 591 [].

(** Hello, the server's replies, the client's cipher change and finished message, the
    server's cipher change and finished message, and the packet that held it. *)
Definition demo_hello : event :=
  ClientHello demo_tag (demo_time ++ demo_tag) coord0 1300000010000000 [true] 20 9 0.
Definition demo_handshake : list event :=
  [ demo_hello; TcpOption false 8 [8; 10; 0; 0; 1; 0; 0; 0; 2; 0] 1300000011000000;
    ServerHello (repeat 4 32); KeyExchange (repeat 7 128) [2] (repeat 6 128);
    FinalPacket [1; 2; 3] 1300000012000000 0 flow_zero [];
    demo_record true 20 [1]; demo_record true 22 (repeat 8 40); demo_record false 20 [1];
    demo_record false 22 (repeat 9 40) ].
Definition demo_last : event := FinalPacket [69; 0; 0; 40] 1300000013000000 0 flow_zero [].
Definition demo_twice : list event := demo_handshake ++ [demo_last; demo_hello; Expire [true]].
Abbreviation demo_run es := (on_events demo_pm toy_hash demo_keys demo_cid es (Det None [] [])).

(** A check of the state that a run ends in. *)
Definition ends (r : outcome det) (f : det -> bool) : bool := match r with Ret d => f d | _ => false end.

Lemma relay_told_in_order_witness :
  exists d te m, demo_run demo_handshake = Ret d /\ entry d = Some te /\ te_state te = 5 /\
    session_of (acts d) = [m] /\ is_init_of (key_info te) m.
Proof.
  assert (ends (demo_run demo_handshake)
            (fun d => match entry d with Some te => te_state te =? 5 | None => false end) = true) as C
    by (vm_compute; reflexivity).
  destruct (demo_run demo_handshake) as [d | |] eqn:E; [| discriminate C ..].
  destruct (relay_told_in_order demo_pm toy_hash demo_keys demo_cid demo_handshake [] d E) as [_ H].
  cbn [ends] in C. destruct (entry d) as [te |] eqn:Ee; [| discriminate C]. apply Z.eqb_eq in C.
  destruct (proj1 (H te eq_refl) C) as (m & Hm & Hi). exists d, te, m.
  exact (conj eq_refl (conj Ee (conj C (conj Hm Hi)))).
Defined.

Lemma block_ledger_witness :
  exists d, demo_run demo_twice = Ret d /\ entry d = None /\
    n_acts is_block (acts d) = 2%nat /\ (n_acts is_unblock (acts d) + n_acts is_rst (acts d) = 2)%nat.
Proof.
  assert (ends (demo_run demo_twice) (fun d => (n_acts is_block (acts d) =? 2)%nat && (tracked d =? 0)%nat) = true) as C
    by (vm_compute; reflexivity).
  destruct (demo_run demo_twice) as [d | |] eqn:E; [| discriminate C ..].
  destruct (block_ledger demo_pm toy_hash demo_keys demo_cid demo_twice [] d E) as (H1 & _ & H3). specialize (H3 eq_refl).
  cbn [ends] in C. apply andb_true_iff in C as [C1 C2]. apply Nat.eqb_eq in C1, C2.
  assert (entry d = None) as En by (clear - C2; unfold tracked in C2; destruct (entry d); [discriminate C2 | reflexivity]).
  exists d. refine (conj eq_refl (conj En (conj C1 _))). clear - H1 H3 C1 C2. lia.
Defined.

Lemma tagged_hello_detected_witness :
  let e := Env 0 coord0 in
  exists st h secret, on_event ptwist_pm toy_hash [PrivKey (bin21 3) 8888] demo_cid
      (ClientHello (skipn 4 (telex_client_random h)) (telex_client_random h) coord0 1300000010000000 [] 20 9 0)
      (Det None [] []) =
    Ret (Det (Some (new_te (secret, 8888) (telex_client_random h) 1300000010000000 9)) secret [Block; Connected 9]) /\
    ssl_new_telex ptwist_pm toy_hash toy_hmac true e e (repeat 0 128) st 1300000000 (id_resp_h demo_cid) 0 (bin21 2)
      = Ret (0, Some h).
Proof.
  intros e. destruct (load_generated (KA := ptwist_agreement) e e (bin21 3) (bin21 3)
    (ptwist_pm e (bin21 2) (bin21 3) ++ ptwist_pm e (repeat 0 21) (bin21 3))
    (tag_init (TagState [] [] [] [])) eq_refl) as (_ & E & _).
  eexists. destruct (tagged_hello_detected toy_hash toy_hmac e e e e (repeat 0 128) (repeat 0 128)
    (TagState [] [] [] []) (bin21 3) (bin21 3)
    (ptwist_pm e (bin21 2) (bin21 3) ++ ptwist_pm e (repeat 0 21) (bin21 3))
    _ 1300000000 0 (bin21 2) [] 8888 [] demo_cid coord0 [] 1300000010000000 [] 20 9
    toy_hash_len toy_hmac_bytes toy_hmac_len
    (repeat_length _ _) (repeat_length _ _) eq_refl E usable_2_3 ltac:(lia) ltac:(lia) eq_refl ltac:(lia) ltac:(lia))
    as (h & Hh & Hd).
  destruct (Hd (List.Forall_nil _)) as (secret & He & _). exists h, secret. split; [exact He | exact Hh].
Defined.
