(* ===== verification/Handover.v ===== *)
(** * From the detector to the relay

    The messages of the detector ([Detect]) as the relay receives them ([Bronnect]), the
    flow record they carry as the kernel module uses it ([SkForge]), and what becomes of a
    connection that the detector drops before the relay knows its flow. *)
From S2P Require Import Prelude Bytes CLib.
From S2P Require Import Felem FelemPow Prime168 Curve Fp Group PtPoint PtMul Ptwist PtwistThms Tag.
From S2P Require Import Bronnect TelexUtil FlowBlock SkForge TelexTcp Detect Station.
From Stdlib Require Import ZArith Lia List Bool.
Import ListNotations.
Open Scope Z_scope.
Open Scope list_scope.

(** ** The record of a flow *)

(** [st->flow_state = init_data.flow_state]: the fields that [Bronnect] and [SkForge] use. *)
Definition relay_flow (f : wflow) : Bronnect.flow := Bronnect.Flow (w_orig_h f) (w_resp_h f) (w_orig_p f) (w_resp_p f).
Definition sock_flow (f : wflow) : SkForge.flow :=
  let t := w_tcp f in
  SkForge.Flow (w_orig_h f) (w_resp_h f) (w_orig_p f) (w_resp_p f)
    (TcpState (w_seq t) (w_ack t) (w_rcv_window t) (w_rcv_window_scale t) (w_snd_window t) (w_snd_window_scale t)
       (tsval (w_cur_ts t)) (tsecr (w_cur_ts t)) (w_option_ts t) (w_option_sack t)).

(** [recv_msg_header], [recv_init_data] and the [recv] of a packet, on a message that arrived
    whole; with what [init_service_connection], the derivation of the secret, the raw socket
    and [setup_fake_socket] meet. *)
Definition receive (m : message) (c : connect_result) (secret_len : Z) (sent : bool) (f : fake_io) : bro_record :=
  match m with
  | MsgInit ty len d =>
      if ty =? RECORD_TYPE_INIT
      then RecInit (len =? sizeof_bro_init_data) true (relay_flow (i_flow d)) (i_port d) c secret_len else RecOther
  | MsgRaw ty len pkt =>
      if ty =? RECORD_TYPE_RAW_PKT
      then RecRawPkt (len =? Z.of_nat (length (firstn (Z.to_nat len) pkt))) (firstn (Z.to_nat len) pkt) sent f
      else RecOther
  end.

(** ** The relay takes over *)

Lemma init_flow mem sent cid te m :
  telex_send_init_data mem sent cid te = Ret (Some m, 0) ->
  exists d, m = MsgInit RECORD_TYPE_INIT sizeof_bro_init_data d /\
    relay_flow (i_flow d) = Bronnect.Flow (id_orig_h cid) (id_resp_h cid) (ntohs (id_orig_p cid)) (ntohs (id_resp_p cid)) /\
    (length (fst (key_info te)) = 16%nat -> i_port d = wrap 16 (snd (key_info te))).
Proof.
  unfold telex_send_init_data. destruct (te_sock te =? -1); [discriminate |].
  destruct (key_info te) as [sk port] eqn:Ek. intros H. apply obind_ret in H as (x & Hx & H).
  destruct x as [d |]; [| discriminate]. destruct (sent <? 0); [discriminate |]. injection H as <-.
  exists d. split; [reflexivity |]. unfold fill_dh in Hx.
  repeat match type of Hx with context [match ?o with Some _ => _ | None => _ end] => destruct o; try discriminate end.
  destruct (_ || _)%nat; [discriminate |]. injection Hx as <-. cbn [i_flow i_port fst snd].
  split; [reflexivity |]. now intros ->.
Qed.

Lemma raw_received pkt c secret_len sent f :
  Z.of_nat (length pkt) < 65536 -> receive (raw_message pkt) c secret_len sent f = RecRawPkt true pkt sent f.
Proof.
  intros H. cbn [receive raw_message]. rewrite Z.eqb_refl, wrap_small by (unfold in_width; lia).
  rewrite Nat2Z.id, firstn_all, Z.eqb_refl. reflexivity.
Qed.

(** The relay after the initial data: waiting for the packet. *)
Definition awaiting (f : Bronnect.flow) (port fd : Z) (st : ConnectionState) : Prop :=
  flow_state st = f /\ key_port st = port /\ service_conn st = fd /\ ssl st = true /\ state st = 1 /\
  ev_client_read st = EvNull /\ ev_client_write st = EvNull /\ ev_telex_read st = Ev Cb_telex_read true /\
  exists cb, ev_watchdog st = Ev cb true.

Definition fresh (n conn t : Z) : ConnectionState :=
  St n conn (-1) (-1) 1 (Bronnect.Flow 0 0 0 0) (Ev Cb_telex_read true) EvNull EvNull EvNull EvNull
     (Ev Cb_watchdog true) false false false false false ERROR_NONE 0 (-1) t 0 0 0.

Lemma handle_result n conn t s : exists s', handle_bro_connection n conn t s =
  Ok tt (alive (fresh n conn t) [HashInsert; EventAdd EvTelexRead; EventAdd EvWatchdog] s').
Proof. eexists. reflexivity. Qed.

Lemma pet_run st tr s cb : ev_watchdog st = Ev cb true ->
  exists st' tr', pet_watchdog (alive st tr s) = Ok tt (alive st' (tr ++ tr') s) /\
    st' = set_ev EvWatchdog (Ev cb true) (set_ev EvWatchdog (Ev cb false) st).
Proof.
  intros E. unfold pet_watchdog. rewrite run_get_at, E. cbn [is_null negb when].
  rewrite (run_event_del EvWatchdog cb true) by exact E.
  unfold event_add, get_st, put_st, emit, bind, alive. cbn. do 2 eexists. split; [now rewrite <- app_assoc | reflexivity].
Qed.

Lemma relay_init i f port fd slen n conn t s0 :
  0 < port -> 0 <= fd -> 0 <= slen ->
  exists w0 st tr s, handle_bro_connection n conn t s0 = Ok tt w0 /\
    run (InTelex i (RecInit true true f port (InProgress fd) slen)) w0 = Ok tt (alive st tr s) /\ awaiting f port fd st.
Proof.
  intros Hp Hfd Hsl. apply Z.ltb_lt in Hp. apply Z.ltb_ge in Hfd, Hsl.
  destruct (handle_result n conn t s0) as (s & E0). eexists (alive (fresh n conn t) _ s).
  cbn [run]. unfold on_telex_read. rewrite run_get. cbn [fresh state Z.ltb Z.compare].
  rewrite run_assert by reflexivity. cbn [negb]. rewrite run_modify.
  match goal with |- context [bind initialize_watchdog ?k (alive ?st ?tr s)] =>
    destruct (run_init_watchdog k st tr s) as (cb & tr1 & ->) end.
  rewrite run_get.
  match goal with |- context [if 0 <=? client_conn ?st then _ else _] => change (0 <=? client_conn st) with false end.
  cbv iota.
  rewrite run_modify, run_assert by exact Hp. unfold init_service_connection, event_set.
  rewrite !run_assoc, run_modify, !run_assoc.
  rewrite (run_event_add EvServiceWrite Cb_finish_connect false) by reflexivity.
  change (bind (ret fd) ?k ?w) with (k fd w). cbv beta. rewrite run_modify, Hfd, run_modify, Hsl, run_modify.
  match goal with |- context [pet_watchdog (alive ?st ?tr s)] =>
    destruct (pet_run st tr s cb eq_refl) as (st' & tr' & -> & ->) end.
  do 3 eexists. split; [exact E0 |]. split; [reflexivity |].
  repeat (split; [reflexivity |]). exists cb. reflexivity.
Qed.

Lemma relay_raw i f port fd pkt fk st tr s :
  awaiting f port fd st -> listen_fd fk <> -1 -> bind_ok fk = true -> 0 <= fake_fd fk ->
  exists st' tr', run (InTelex i (RecRawPkt true pkt true fk)) (alive st tr s) = Ok tt (alive st' tr' s) /\
    flow_state st' = f /\ key_port st' = port /\ service_conn st' = fd /\ client_conn st' = fake_fd fk /\
    ssl st' = true /\ state st' = 2 /\ In (RawToClient pkt) tr'.
Proof.
  intros (E1 & E2 & E3 & E4 & E5 & E6 & E7 & E8 & cb & E9) Hl Hb Hf.
  apply Z.eqb_neq in Hl. apply Z.ltb_ge in Hf.
  cbn [run]. unfold on_telex_read. rewrite run_get, E5. cbn [Z.ltb Z.compare Pos.compare Pos.compare_cont Z.eqb Pos.eqb negb].
  rewrite run_modify. unfold setup_fake_socket. rewrite run_assoc, run_get, Hl, Hb. cbn [negb].
  rewrite run_assoc, run_modify, Hf, run_assoc, run_emit, run_assoc, run_get, run_assoc, run_assert by (cbn; now rewrite E6).
  unfold event_set. rewrite !run_assoc, run_modify, !run_assoc.
  rewrite (run_event_add EvClientRead Cb_read_ready false), run_assoc, run_get, run_assoc, run_assert
    by (reflexivity || (cbn; now rewrite E7)).
  rewrite !run_assoc, run_modify, (run_event_add EvClientWrite Cb_write_ready false), run_get_at, run_when_emit by reflexivity.
  rewrite close_telex_run.
  match goal with |- context [pet_watchdog (alive ?st' ?tr' s)] =>
    destruct (pet_run st' tr' s cb) as (st2 & tr2 & -> & ->) end.
  { unfold closed_telex. cbn. now destruct (0 <=? telex_conn st). }
  do 2 eexists. split; [reflexivity |]. unfold closed_telex. cbn.
  destruct (0 <=? telex_conn st); cbn; repeat split; auto; rewrite !in_app_iff; cbn; tauto.
Qed.

(** The two messages, received. *)
Lemma takes_over mem sent cid te m pkt n conn t s0 i1 i2 fd slen fk :
  telex_send_init_data mem sent cid te = Ret (Some m, 0) ->
  length (fst (key_info te)) = 16%nat -> 0 < snd (key_info te) < 65536 ->
  0 <= fd -> 0 <= slen -> Z.of_nat (length pkt) < 65536 ->
  listen_fd fk <> -1 -> bind_ok fk = true -> 0 <= fake_fd fk ->
  exists w0 w st, handle_bro_connection n conn t s0 = Ok tt w0 /\
    run_all [InTelex i1 (receive m (InProgress fd) slen true fk);
             InTelex i2 (receive (raw_message pkt) (InProgress fd) slen true fk)] w0 = w /\
    cell w = Some st /\
    unblock_args (flow_state st) = mod_block_args cid /\
    key_port st = snd (key_info te) /\ service_conn st = fd /\ client_conn st = fake_fd fk /\
    ssl st = true /\ state st = 2 /\ In (RawToClient pkt) (trace w).
Proof.
  intros Hm Hk Hp Hfd Hsl Hpkt Hlf Hb Hff. destruct (init_flow _ _ _ _ _ Hm) as (d & -> & Hf & Hport).
  specialize (Hport Hk). rewrite wrap_small in Hport by (unfold in_width; lia).
  rewrite raw_received by assumption. cbn [receive]. rewrite !Z.eqb_refl, Hf, Hport.
  destruct (relay_init i1 (Bronnect.Flow (id_orig_h cid) (id_resp_h cid) (ntohs (id_orig_p cid)) (ntohs (id_resp_p cid)))
              (snd (key_info te)) fd slen n conn t s0) as (w0 & st & tr & s & E0 & E1 & A); [lia.. |].
  destruct (relay_raw i2 _ _ _ pkt fk st tr s A Hlf Hb Hff) as (st' & tr' & E2 & R).
  exists w0, (alive st' tr' s), st'. split; [exact E0 |]. split; [cbn [run_all]; now rewrite E1, E2 |].
  destruct R as (R1 & R). split; [reflexivity |]. split; [now rewrite R1 | exact R].
Qed.

(** The relay takes the connection over.  A new connection of the relay that receives
    the detector's initial data and then its packet, with calls that succeed, ends with the
    flow that the detector blocked as the one it will unblock, connected to the port that belongs to the key,
    with TLS and a socket to the client, and the packet has gone to the client. *)
Theorem relay_takes_over mem sent cid te m pkt n conn t s0 i1 i2 fd slen fk :
  telex_send_init_data mem sent cid te = Ret (Some m, 0) ->
  length (fst (key_info te)) = 16%nat -> 0 < snd (key_info te) < 65536 ->
  0 <= fd -> 0 <= slen -> Z.of_nat (length pkt) < 65536 ->
  listen_fd fk <> -1 -> bind_ok fk = true -> 0 <= fake_fd fk ->
  exists w0 w st, handle_bro_connection n conn t s0 = Ok tt w0 /\
    run_all [InTelex i1 (receive m (InProgress fd) slen true fk);
             InTelex i2 (receive (raw_message pkt) (InProgress fd) slen true fk)] w0 = w /\
    cell w = Some st /\
    unblock_args (flow_state st) = mod_block_args cid /\
    key_port st = snd (key_info te) /\ service_conn st = fd /\ client_conn st = fake_fd fk /\
    ssl st = true /\ state st = 2 /\ In (RawToClient pkt) (trace w).
Proof. exact (takes_over mem sent cid te m pkt n conn t s0 i1 i2 fd slen fk). Qed.

Lemma relay_takes_over_witness :
  let te := new_te (repeat 3 16, 8888) [] 0 9 in
  let te := set_te_dh (DhRec (Some [7]) (Some [2]) (Some [5]) (Some []) (Some []) (Some []) (Some [])) te in
  exists m w0 w st,
    telex_send_init_data demo_mem 591 demo_cid te = Ret (Some m, 0) /\
    handle_bro_connection 0 5 9 (Stats 0 0 0 0) = Ok tt w0 /\
    run_all [InTelex (IO 10 [] ERROR_WANT_READ true (-1) [] true ERROR_NONE 1 1 ERROR_NONE)
                     (receive m (InProgress 7) 128 true (FakeIO 8 true 9));
             InTelex (IO 11 [] ERROR_WANT_READ true (-1) [] true ERROR_NONE 1 1 ERROR_NONE)
                     (receive (raw_message [22; 3; 1]) (InProgress 7) 128 true (FakeIO 8 true 9))] w0 = w /\
    cell w = Some st /\ key_port st = 8888 /\ client_conn st = 9.
Proof.
  cbv zeta. set (te := set_te_dh _ _).
  destruct (telex_send_init_data demo_mem 591 demo_cid te) as [[[m |] r] | |] eqn:E; try (vm_compute in E; discriminate).
  assert (r = 0) as -> by (vm_compute in E; congruence).
  destruct (relay_takes_over demo_mem 591 demo_cid te m [22; 3; 1] 0 5 9 (Stats 0 0 0 0)
    (IO 10 [] ERROR_WANT_READ true (-1) [] true ERROR_NONE 1 1 ERROR_NONE)
    (IO 11 [] ERROR_WANT_READ true (-1) [] true ERROR_NONE 1 1 ERROR_NONE) 7 128 (FakeIO 8 true 9) E)
    as (w0 & w & st & E0 & E1 & E2 & _ & E4 & _ & E6 & _); try (cbn; lia); try reflexivity.
  exists m, w0, w, st. repeat split; assumption.
Defined.

(** ** The forged socket *)

(** C27: the socket that the kernel module forges from the flow that the detector recorded
    when the client finished its handshake continues the connection that Bro saw: it talks
    to the client in the server's name, expects the client's next byte, and continues the
    server's bytes, with the server's clock if the connection has timestamps.  The kernel's
    functions may do anything to the socket but to the fields of [SkForge.lasting]. *)
Theorem forged_socket_is_bros {R} (kernel : stage -> sock R -> sock R)
    (kernel_keeps : keeps_connection kernel)
    io sk cid te data orig resp newsk r acts :
  let fl := telex_fill_flow cid (note_client data orig resp te) flow_zero true in
  fake_accept_ioctl kernel io sk (make_sock_state (sock_flow fl)) = (Some newsk, r, acts) ->
  let c := SkForge.conn newsk in
  sk_state newsk = TCP_ESTABLISHED /\
  (inet_daddr (c_addrs c), inet_dport (c_addrs c)) = (id_orig_h cid, ntohs (id_orig_p cid)) /\
  (inet_saddr (c_addrs c), inet_sport (c_addrs c)) = (id_resp_h cid, ntohs (id_resp_p cid)) /\
  k_rcv_nxt (c_seqs c) = wrap 32 (last_seq orig) /\ copied_seq (c_seqs c) = wrap 32 (last_seq orig) /\
  k_snd_nxt (c_seqs c) = wrap 32 (last_seq resp) /\ write_seq (c_seqs c) = wrap 32 (last_seq resp) /\
  (ts_option (te_tcp te) = true -> recv_time (r_cur_ts (te_tcp te)) <> None ->
   (jiffies_ts io + ts_offset (c_opts c)) mod 2 ^ 32 = wrap 32 (ti_tsval (r_cur_ts (te_tcp te)))).
Proof.
  intros fl E c. destruct (accept_success kernel kernel_keeps io sk _ newsk r acts E) as (_ & _ & Hs & Hc & _).
  rewrite Hs. unfold c. destruct (SkForge.conn newsk) as [[] [] [] []]. unfold lasting, make_sock_state, sock_flow, fl in Hc. cbn -[Z.pow Z.modulo wrap w_shl] in Hc.
  injection Hc. intros. subst. cbn -[Z.pow Z.modulo wrap w_sub].
  repeat split; auto. intros Hts Hrt. rewrite Hts. unfold fill_ts. cbn -[Z.pow Z.modulo wrap].
  destruct (recv_time _) as [t |]; [| contradiction]. cbn -[Z.pow Z.modulo wrap].
  unfold w_sub, wrap. rewrite Zplus_mod_idemp_r, Zplus_minus. apply Z.mod_mod. lia.
Qed.

Lemma forged_socket_is_bros_witness :
  let te := new_te (repeat 3 16, 8888) [] 0 9 in
  match fake_accept_ioctl toy_kernel toy_kio toy_listener
          (make_sock_state (sock_flow (telex_fill_flow demo_cid (note_client [] demo_orig demo_resp te) flow_zero true))) with
  | (Some newsk, _, _) => k_rcv_nxt (c_seqs (SkForge.conn newsk)) = 9000 /\ k_snd_nxt (c_seqs (SkForge.conn newsk)) = 7000
  | _ => False
  end.
Proof.
  cbv zeta. destruct (fake_accept_ioctl _ _ _ _) as [[[newsk |] r] acts] eqn:E; [| vm_compute in E; discriminate].
  destruct (forged_socket_is_bros toy_kernel toy_kernel_keeps toy_kio toy_listener demo_cid
              (new_te (repeat 3 16, 8888) [] 0 9) [] demo_orig demo_resp newsk r acts E) as (_ & _ & _ & H1 & _ & H2 & _).
  split; [exact H1 | exact H2].
Defined.

(** ** A connection dropped too early *)

Lemma no_record_unblocks i n conn t s0 :
  exists w0 w, handle_bro_connection n conn t s0 = Ok tt w0 /\ run (InTelex i NoRecord) w0 = Ok tt w /\
    cell w = None /\ count Bronnect.is_unblock (trace w) = 1%nat /\ In (Bronnect.Unblock (Bronnect.Flow 0 0 0 0)) (trace w).
Proof.
  destruct (handle_result n conn t s0) as (s & E0). eexists _, _. split; [exact E0 |].
  cbn [run]. unfold on_telex_read. rewrite run_get. cbn [fresh state ssl Z.ltb Z.compare].
  change (bind (when false ?m) ?k ?w) with (k tt w). cbv beta. rewrite after_ssl_run.
  split; [reflexivity |]. split; [reflexivity |]. cbn [trace].
  destruct (final_counts true (fresh n conn t)) as (_ & _ & F3). split; [now rewrite count_app, F3 |].
  apply in_app_iff. right. unfold final_actions. rewrite !in_app_iff. cbn. tauto.
Qed.

(** C28: an alert of the client before the initial data leaves the flow blocked.  The
    detector removes the entry and closes its connection to the relay without unblocking,
    and it has told the relay nothing; the relay sees the connection closed and unblocks
    the flow it knows, which is still all zeros. *)
Theorem early_alert_leaves_block pm SHA256 keys cid es tk d te i n conn t s0 :
  on_events pm SHA256 keys cid es (Det None tk []) = Ret d -> existsb is_client_alert es = false ->
  entry d = Some te -> te_state te <> 5 ->
  (exists d', on_event pm SHA256 keys cid (Alert true) d = Ret d' /\ entry d' = None /\ session_of (acts d') = [] /\
     n_acts is_block (acts d') = S (n_acts is_unblock (acts d') + n_acts is_rst (acts d'))) /\
  (exists w0 w, handle_bro_connection n conn t s0 = Ok tt w0 /\ run (InTelex i NoRecord) w0 = Ok tt w /\
     cell w = None /\ count Bronnect.is_unblock (trace w) = 1%nat /\
     In (Bronnect.Unblock (Bronnect.Flow 0 0 0 0)) (trace w)).
Proof.
  intros H Ha He Hs. split; [| apply no_record_unblocks].
  destruct (run_ledger _ _ _ _ _ _ _ H) as (L1 & _ & L3). specialize (L3 ltac:(now rewrite Ha)).
  pose proof (run_in_step _ _ _ _ _ _ _ H) as HI. unfold in_step in HI. rewrite He in HI.
  rewrite (proj2 (Z.eqb_neq _ _) Hs) in HI. destruct HI as [_ HI]. unfold tracked in L1. rewrite He in L1.
  exists (cleanup_connection te d). unfold on_event. rewrite He. split; [reflexivity |]. split; [reflexivity |].
  unfold cleanup_connection. cbn [acts]. rewrite !n_acts_app. split.
  - unfold session_of in *. now rewrite fold_left_app, HI.
  - cbn. lia.
Qed.

Lemma early_alert_leaves_block_witness :
  exists d d', demo_run (firstn 6 demo_handshake) = Ret d /\
    on_event demo_pm toy_hash demo_keys demo_cid (Alert true) d = Ret d' /\
    n_acts is_block (acts d') = S (n_acts is_unblock (acts d') + n_acts is_rst (acts d')).
Proof.
  assert (ends (demo_run (firstn 6 demo_handshake))
            (fun d => match entry d with Some te => te_state te =? 2 | None => false end) = true) as C
    by (vm_compute; reflexivity).
  destruct (demo_run (firstn 6 demo_handshake)) as [d | |] eqn:E; [| discriminate C ..].
  cbn [ends] in C. destruct (entry d) as [te |] eqn:Ee; [| discriminate C]. apply Z.eqb_eq in C.
  destruct (early_alert_leaves_block demo_pm toy_hash demo_keys demo_cid (firstn 6 demo_handshake) [] d te
    (IO 10 [] ERROR_WANT_READ true (-1) [] true ERROR_NONE 1 1 ERROR_NONE) 0 5 9 (Stats 0 0 0 0) E eq_refl Ee
    ltac:(clear - C; lia)) as ((d' & E1 & _ & _ & E2) & _).
  exists d, d'. exact (conj eq_refl (conj E1 E2)).
Defined.
