(* ===== verification/LiveSsl.v ===== *)
(** * The TLS connection that the relay takes over

    The relay continues a TLS connection whose handshake it took no part in.  It computes
    the client's Diffie-Hellman secret from the tag ([telex_get_shared_secret]), builds an
    OpenSSL object that looks as if it had finished the handshake ([get_live_ssl_obj] and
    [switch_to_telex_crypto] of [net/ssl_api.c]), and sets the initialisation vectors
    ([on_telex_read] of [net/bronnect.c]).

    OpenSSL's key derivation is the class [TlsLib]; its laws are those of RFC 2246.  The
    plain members of an SSL object are a function from their names, a pointer is 0 for NULL;
    the members that hold keys are a record.  Buffers set up by [ssl3_setup_buffers] and the
    rest of the session made by [ssl_get_new_session] are not part of it. *)
From S2P Require Import Prelude Bytes CLib.
From S2P Require Import Felem FelemPow Prime168 Curve Fp Group PtPoint PtMul Ptwist PtwistThms.
From S2P Require Import Tag TelexSsl TelexUtil FlowBlock TelexTcp Detect.
From Stdlib Require Import String ZArith Zpow_facts Lia List Bool.
Import ListNotations.
Open Scope Z_scope.
Open Scope list_scope.

(** ** The object *)

(** The members of [SSL], [SSL3_STATE] and its [tmp] that the two functions use. *)
Inductive member :=
| type_ | method | rwstate | in_handshake | handshake_func | server | new_session | quiet_shutdown | shutdown
| state_ | rstate | init_buf | init_msg | init_num | init_off
| packet | packet_length | read_ahead | msg_callback | hit | cipher_list | cipher_list_by_id
| enc_read_ctx | read_hash | expand | enc_write_ctx | write_hash | compress
| info_callback | error | error_code | ctx | verify_result | client_CA | references | version | client_version
| tlsext_status_type | tlsext_status_expected | servername_done | tlsext_ocsp_resplen | tlsext_ticket_expected
| initial_ctx | need_empty_fragments | wpend_buf
| message_size | message_type | next_state | new_sym_enc | new_hash | rbio | wbio
| previous_client_finished_len | previous_server_finished_len | finish_md_len.

Scheme Boolean Equality for member.

Definition members := member -> Z.
Definition upd (k : member) (v : Z) (f : members) : members := fun k' => if member_beq k k' then v else f k'.
Definition set_members (l : list (member * Z)) (f : members) : members := fold_left (fun f kv => upd (fst kv) (snd kv) f) l f.
Definition asserts (l : list (member * Z)) (f : members) : bool := forallb (fun kv => f (fst kv) =? snd kv) l.

(** One direction: the MAC secret and the cipher context's key and vector. *)
Record cipher_ctx := CipherCtx { mac_secret : list Z; enc_key : list Z; enc_iv : list Z }.

Record tls := Tls {
  client_random : list Z; server_random : list Z; new_cipher : Z; session_cipher : Z;
  master_key : list Z; key_block : list Z; read_ctx : option cipher_ctx; write_ctx : option cipher_ctx;
  read_sequence : list Z; write_sequence : list Z;
  previous_client_finished : list Z; previous_server_finished : list Z; finish_md : list Z }.
Record SSL := Ssl { mem : members; keys : tls }.

(** The [which] of [tls1_change_cipher_state]. *)
Inductive change := CLIENT_WRITE | CLIENT_READ | SERVER_WRITE | SERVER_READ.
Definition is_read (w : change) : bool := match w with CLIENT_READ | SERVER_READ => true | _ => false end.
(** Whose keys: the client writes and the server reads with the client's. *)
Definition client_keys (w : change) : bool := match w with CLIENT_WRITE | SERVER_READ => true | _ => false end.

(** A new cipher for one direction, its sequence number starting at zero. *)
Definition install (w : change) (c : cipher_ctx) (t : tls) : tls :=
  let z := repeat 0 8 in
  Tls (client_random t) (server_random t) (new_cipher t) (session_cipher t) (master_key t) (key_block t)
    (if is_read w then Some c else read_ctx t) (if is_read w then write_ctx t else Some c)
    (if is_read w then z else read_sequence t) (if is_read w then write_sequence t else z)
    (previous_client_finished t) (previous_server_finished t) (finish_md t).

(** OpenSSL's part: the Diffie-Hellman computation, the pseudo-random function's two uses,
    and the change of a cipher, which takes the writer's keys out of the key block. *)
Class TlsLib := {
  DH_compute_key : Z -> Z -> Z -> option (list Z);                (** p, private key, peer's public key *)
  generate_master_secret : list Z -> list Z -> list Z -> list Z;  (** secret, the two randoms *)
  setup_key_block : Z -> list Z -> list Z -> list Z -> option (list Z);  (** cipher, master, the two randoms *)
  write_keys : bool -> list Z -> cipher_ctx;                      (** of client or server, from the key block *)
  change_cipher_state : change -> tls -> option tls;
  DH_law : forall p x1 y1 x2 y2, 1 < p -> y1 ^ x1 mod p = y2 ^ x2 mod p ->
    DH_compute_key p x1 y1 = DH_compute_key p x2 y2;
  change_law : forall w t t', change_cipher_state w t = Some t' ->
    t' = install w (write_keys (client_keys w) (key_block t)) t }.

(** Constants of ssl.h, ssl3.h and x509_vfy.h *)
Definition SSL_ST_CONNECT : Z := 0x1000.
Definition SSL_ST_ACCEPT : Z := 0x2000.
Definition SSL_NOTHING : Z := 1.
Definition SSL_ST_OK : Z := 3.
Definition SSL_ST_READ_HEADER : Z := 0xF0.
Definition X509_V_OK : Z := 0.

Section Live.
Context {L : TlsLib}.
(** Addresses of functions, and the table of ciphers *)
Context (TLSv1_server_method TLSv1_client_method ssl3_connect : Z) (ssl3_get_cipher_by_char : Z -> Z).

Definition role (is_server : bool) : list (member * Z) :=
  if is_server then [(type_, SSL_ST_ACCEPT); (method, TLSv1_server_method)]
  else [(type_, SSL_ST_CONNECT); (method, TLSv1_client_method)].

(** ** [telex_get_shared_secret]: the result and the secret *)
Definition telex_get_shared_secret (DH_new_ok : bool) (client_dh_priv_key p server_dh_pub_key : Z) : Z * list Z :=
  if negb DH_new_ok then (-1, []) else
  match DH_compute_key p client_dh_priv_key server_dh_pub_key with
  | None => (-1, [])
  | Some secret => (Z.of_nat (length secret), secret)
  end.

(** The eighth byte of a sequence number set to one. *)
Definition seq_one (s : list Z) : list Z := overwrite 7 [1] s.

Definition with_seqs (r w : list Z) (t : tls) : tls :=
  Tls (client_random t) (server_random t) (new_cipher t) (session_cipher t) (master_key t) (key_block t)
    (read_ctx t) (write_ctx t) r w (previous_client_finished t) (previous_server_finished t) (finish_md t).
Definition with_finished (c s md : list Z) (t : tls) : tls :=
  Tls (client_random t) (server_random t) (new_cipher t) (session_cipher t) (master_key t) (key_block t)
    (read_ctx t) (write_ctx t) (read_sequence t) (write_sequence t) c s md.
Definition with_master (cipher : Z) (m : list Z) (t : tls) : tls :=
  Tls (client_random t) (server_random t) cipher cipher m (key_block t)
    (read_ctx t) (write_ctx t) (read_sequence t) (write_sequence t)
    (previous_client_finished t) (previous_server_finished t) (finish_md t).
Definition with_new_cipher (cipher : Z) (t : tls) : tls :=
  Tls (client_random t) (server_random t) cipher (session_cipher t) (master_key t) (key_block t)
    (read_ctx t) (write_ctx t) (read_sequence t) (write_sequence t)
    (previous_client_finished t) (previous_server_finished t) (finish_md t).
Definition with_key_block (kb : list Z) (t : tls) : tls :=
  Tls (client_random t) (server_random t) (new_cipher t) (session_cipher t) (master_key t) kb
    (read_ctx t) (write_ctx t) (read_sequence t) (write_sequence t)
    (previous_client_finished t) (previous_server_finished t) (finish_md t).
Definition with_randoms (cr sr : list Z) (t : tls) : tls :=
  Tls cr sr (new_cipher t) (session_cipher t) (master_key t) (key_block t)
    (read_ctx t) (write_ctx t) (read_sequence t) (write_sequence t)
    (previous_client_finished t) (previous_server_finished t) (finish_md t).
Definition with_ctxs (r w : option cipher_ctx) (t : tls) : tls :=
  Tls (client_random t) (server_random t) (new_cipher t) (session_cipher t) (master_key t) (key_block t)
    r w (read_sequence t) (write_sequence t) (previous_client_finished t) (previous_server_finished t) (finish_md t).

(** ** [switch_to_telex_crypto]: the result, the object and the caller's secret afterwards *)
Definition switch_to_telex_crypto (ssl : SSL) (telex_secret : list Z) (is_server : bool) : outcome (Z * SSL * list Z) :=
  let f := set_members (role is_server) (mem ssl) in
  let t := with_seqs (repeat 0 8) (repeat 0 8) (keys ssl) in
  let t := with_finished (overwrite 0 (firstn 12 (chars "somefinishedbusiness,ya"%string)) (previous_client_finished t))
             (overwrite 0 (firstn 12 (chars "jsadfkjwefjaewmfamsawe"%string)) (previous_server_finished t))
             (overwrite 0 (firstn 12 (chars "akjwemawmefmawe"%string)) (finish_md t)) t in
  let f := set_members [(previous_client_finished_len, 12); (previous_server_finished_len, 12); (finish_md_len, 12)] f in
  let cipher := ssl3_get_cipher_by_char 0x0039 in
  let t := with_master cipher (generate_master_secret telex_secret (client_random t) (server_random t)) t in
  let telex_secret := repeat 0 (length telex_secret) in
  match setup_key_block (session_cipher t) (master_key t) (client_random t) (server_random t) with
  | None => Exit (-1)
  | Some kb =>
      let t := with_key_block kb t in
      match change_cipher_state (if is_server then SERVER_WRITE else CLIENT_WRITE) t with
      | None => Ret (0, Ssl f t, telex_secret)
      | Some t =>
          match change_cipher_state (if is_server then SERVER_READ else CLIENT_READ) t with
          | None => Ret (0, Ssl f t, telex_secret)
          | Some t => Ret (1, Ssl f (with_seqs (seq_one (read_sequence t)) (seq_one (write_sequence t)) t), telex_secret)
          end
      end
  end.

(** ** [get_live_ssl_obj] *)

Definition start_members : list (member * Z) :=
  [(rwstate, SSL_NOTHING); (in_handshake, 0); (handshake_func, ssl3_connect); (server, 0); (new_session, 0);
   (quiet_shutdown, 0); (shutdown, 0); (state_, SSL_ST_OK); (rstate, SSL_ST_READ_HEADER);
   (init_msg, 0); (init_buf, 0); (init_off, 0); (init_num, 0)].
Definition checks1 : list (member * Z) :=
  [(packet, 0); (packet_length, 0); (read_ahead, 0); (msg_callback, 0); (hit, 0); (cipher_list, 0);
   (cipher_list_by_id, 0); (enc_read_ctx, 0); (read_hash, 0); (expand, 0); (enc_write_ctx, 0); (write_hash, 0);
   (compress, 0)].
Definition checks2 : list (member * Z) := [(info_callback, 0); (error, 0); (error_code, 0)].
Definition checks3 : list (member * Z) := [(client_CA, 0); (references, 1)].
Definition checks4 : list (member * Z) :=
  [(tlsext_status_type, -1); (tlsext_status_expected, 0); (servername_done, 0); (tlsext_ocsp_resplen, -1);
   (tlsext_ticket_expected, 0)].
Definition tmp_members : list (member * Z) :=
  [(need_empty_fragments, 1); (wpend_buf, 0); (message_size, 12); (message_type, 20); (next_state, 4576);
   (new_sym_enc, 0); (new_hash, 0)].

(** [SSL_new] on a context, the two calls of [ssl_get_new_session], the two memory BIOs, and
    the static context with what [SSL_CTX_new] returns; the object, the context and the
    caller's secret. *)
Definition get_live_ssl_obj (SSL_new : Z -> option SSL) (sess1 sess2 : bool) (bio1 bio2 static_ctx new_ctx : Z)
    (telex_secret client_rand server_rand : list Z) (is_server : bool) : outcome (SSL * Z * list Z) :=
  let the_ctx := if static_ctx =? 0 then new_ctx else static_ctx in
  match SSL_new the_ctx with
  | None => Exit (-1)
  | Some ssl =>
      let f := set_members start_members (set_members (role is_server) (mem ssl)) in
      if negb (asserts checks1 f) then Abrt else
      if negb sess1 then Exit (-1) else
      if negb (asserts checks2 f) || (f ctx =? 0) then Abrt else
      let f := upd verify_result X509_V_OK f in
      if negb (asserts checks3 f) then Abrt else
      let f := upd client_version (f version) f in
      if negb (asserts checks4 f) then Abrt else
      let f := set_members tmp_members (upd initial_ctx (f ctx) f) in
      let t := with_new_cipher 0 (keys ssl) in
      if negb sess2 then Exit (-1) else
      let f := set_members [(rbio, bio1); (wbio, bio2)] f in
      let t := with_randoms (firstn 32 client_rand) (firstn 32 server_rand) t in
      obind (switch_to_telex_crypto (Ssl f t) telex_secret is_server) (fun '(r, ssl, secret) =>
      if r =? 0 then Exit (-1) else Ret (ssl, the_ctx, secret))
  end.

(** ** The relay: [on_telex_read] from [BN_bin2bn] to the vectors

    [leaked_len] and, if it is not negative, [st->ssl]. *)
Definition with_iv (iv : list Z) (c : cipher_ctx) : cipher_ctx := CipherCtx (mac_secret c) (enc_key c) (firstn 16 iv).

Definition leak_key (HMAC : list Z -> list Z -> list Z) (junk : list Z) (DH_new_ok : bool) (SSL_new : Z -> option SSL)
    (sess1 sess2 : bool) (bio1 bio2 static_ctx new_ctx : Z) (d : init_data) : outcome (Z * option SSL) :=
  let dh_p := be_value (firstn (Z.to_nat (i_p_len d)) (i_p d)) in
  let srvr_pub_key := be_value (firstn (Z.to_nat (i_pub_key_len d)) (i_pub_key d)) in
  obind (station_dh_key HMAC junk (i_shared_secret d)) (fun client_priv =>
  let '(leaked_len, secret) := telex_get_shared_secret DH_new_ok client_priv dh_p srvr_pub_key in
  if leaked_len <? 0 then Ret (leaked_len, None) else
  obind (get_live_ssl_obj SSL_new sess1 sess2 bio1 bio2 static_ctx new_ctx secret
           (i_client_random d) (i_server_random d) true) (fun '(ssl, _, _) =>
  match read_ctx (keys ssl), write_ctx (keys ssl) with
  | Some r, Some w =>
      Ret (leaked_len, Some (Ssl (mem ssl) (with_ctxs (Some (with_iv (i_client_iv d) r)) (Some (with_iv (i_server_iv d) w)) (keys ssl))))
  | _, _ => Abrt
  end)).

(** ** What OpenSSL hands over and what comes out *)

(** An object of [SSL_new] that passes the assertions. *)
Definition fresh_object (o : SSL) : bool :=
  asserts (checks1 ++ checks2 ++ checks3 ++ checks4) (mem o) && negb (mem o ctx =? 0).

(** The members that the code sets, afterwards. *)
Definition live_members (is_server : bool) (bio1 bio2 : Z) (o : SSL) : list (member * Z) :=
  role is_server ++ start_members ++ tmp_members ++
  [(verify_result, X509_V_OK); (client_version, mem o version); (initial_ctx, mem o ctx); (rbio, bio1); (wbio, bio2);
   (previous_client_finished_len, 12); (previous_server_finished_len, 12); (finish_md_len, 12)].

Lemma asserts_app a b f : asserts (a ++ b) f = asserts a f && asserts b f.
Proof. apply forallb_app. Qed.

(** A cipher context and its sequence number. *)
Record half := Half { h_mac : list Z; h_key : list Z; h_iv : list Z; h_seq : list Z }.
Definition half_of (c : option cipher_ctx) (seq : list Z) : option half :=
  match c with Some c => Some (Half (mac_secret c) (enc_key c) (enc_iv c) seq) | None => None end.
Definition reads (s : SSL) : option half := half_of (read_ctx (keys s)) (read_sequence (keys s)).
Definition writes (s : SSL) : option half := half_of (write_ctx (keys s)) (write_sequence (keys s)).

(** The two directions of a TLS 1.0 connection after the handshake: the keys come from the
    secret, each side has sent one record under them, and the vector of a direction is the
    last block sent. *)
Definition after_handshake (cipher : Z) (secret cr sr client_iv server_iv : list Z) : option (half * half) :=
  match setup_key_block cipher (generate_master_secret secret cr sr) cr sr with
  | None => None
  | Some kb =>
      let c := write_keys true kb in let s := write_keys false kb in
      let one := [0; 0; 0; 0; 0; 0; 0; 1] in
      Some (Half (mac_secret c) (enc_key c) client_iv one, Half (mac_secret s) (enc_key s) server_iv one)
  end.

Lemma switch_result f t secret is_server kb :
  (forall w t, change_cipher_state w t <> None) ->
  setup_key_block (ssl3_get_cipher_by_char 0x0039)
    (generate_master_secret secret (client_random t) (server_random t)) (client_random t) (server_random t) = Some kb ->
  exists t', switch_to_telex_crypto (Ssl f t) secret is_server =
      Ret (1, Ssl (set_members [(previous_client_finished_len, 12); (previous_server_finished_len, 12); (finish_md_len, 12)]
                     (set_members (role is_server) f)) t', repeat 0 (length secret)) /\
    read_ctx t' = Some (write_keys is_server kb) /\ write_ctx t' = Some (write_keys (negb is_server) kb) /\
    read_sequence t' = [0; 0; 0; 0; 0; 0; 0; 1] /\ write_sequence t' = [0; 0; 0; 0; 0; 0; 0; 1] /\
    client_random t' = client_random t /\ server_random t' = server_random t.
Proof.
  intros HC HK. unfold switch_to_telex_crypto.
  cbn [keys mem with_seqs with_finished with_master session_cipher master_key client_random server_random] in *.
  rewrite HK.
  match goal with |- context [change_cipher_state ?w ?u] => destruct (change_cipher_state w u) as [t1 |] eqn:E1; [| now destruct (HC w u)] end.
  match goal with |- context [change_cipher_state ?w t1] => destruct (change_cipher_state w t1) as [t2 |] eqn:E2; [| now destruct (HC w t1)] end.
  apply change_law in E1, E2. subst. eexists. split; [reflexivity |].
  destruct is_server; repeat split; reflexivity.
Qed.

Lemma live_result SSL_new bio1 bio2 static_ctx new_ctx secret cr sr is_server o kb :
  (forall w t, change_cipher_state w t <> None) ->
  SSL_new (if static_ctx =? 0 then new_ctx else static_ctx) = Some o -> fresh_object o = true ->
  setup_key_block (ssl3_get_cipher_by_char 0x0039)
    (generate_master_secret secret (firstn 32 cr) (firstn 32 sr)) (firstn 32 cr) (firstn 32 sr) = Some kb ->
  exists f t, get_live_ssl_obj SSL_new true true bio1 bio2 static_ctx new_ctx secret cr sr is_server =
      Ret (Ssl f t, if static_ctx =? 0 then new_ctx else static_ctx, repeat 0 (length secret)) /\
    asserts (live_members is_server bio1 bio2 o) f = true /\
    read_ctx t = Some (write_keys is_server kb) /\ write_ctx t = Some (write_keys (negb is_server) kb) /\
    read_sequence t = [0; 0; 0; 0; 0; 0; 0; 1] /\ write_sequence t = [0; 0; 0; 0; 0; 0; 0; 1].
Proof.
  intros HC HN HF HK. unfold get_live_ssl_obj. rewrite HN.
  unfold fresh_object in HF. rewrite !asserts_app in HF. apply andb_prop in HF as [HF Hctx].
  apply andb_prop in HF as [H1 HF]. apply andb_prop in HF as [H2 HF]. apply andb_prop in HF as [H3 H4].
  apply negb_true_iff in Hctx.
  set (f1 := set_members start_members _).
  assert (asserts checks1 f1 = true) as -> by (destruct is_server; exact H1).
  assert (asserts checks2 f1 = true) as -> by (destruct is_server; exact H2).
  assert (f1 ctx = mem o ctx) as E by (destruct is_server; reflexivity). rewrite E, Hctx. cbn [negb orb].
  set (f2 := upd verify_result _ _).
  assert (asserts checks3 f2 = true) as -> by (destruct is_server; exact H3). cbn [negb].
  set (f3 := upd client_version _ _).
  assert (asserts checks4 f3 = true) as -> by (destruct is_server; exact H4). cbn [negb].
  match goal with |- context [switch_to_telex_crypto (Ssl ?f ?t) _ _] =>
    destruct (switch_result f t secret is_server kb HC HK) as (t' & -> & R1 & R2 & R3 & R4 & _) end.
  cbn [obind Z.eqb]. do 2 eexists. split; [reflexivity |]. split; [| auto].
  destruct is_server; cbn -[Z.eqb]; rewrite !Z.eqb_refl; reflexivity.
Qed.
End Live.

(** ** Diffie-Hellman *)

Lemma exchange_commutes p g x y : 1 < p -> 0 <= x -> 0 <= y -> (g ^ y mod p) ^ x mod p = (g ^ x mod p) ^ y mod p.
Proof.
  intros Hp Hx Hy. rewrite <- !Zpower_mod by lia. rewrite <- !Z.pow_mul_r by assumption. now rewrite Z.mul_comm.
Qed.

(** The fields of the initial data that the relay's TLS needs. *)
Lemma init_dh mem sent cid te m p g pub cr sr civ siv :
  te_dh te = DhRec (Some p) g (Some pub) (Some cr) (Some sr) (Some civ) (Some siv) ->
  length (fst (key_info te)) = 16%nat ->
  telex_send_init_data mem sent cid te = Ret (Some m, 0) ->
  exists d, m = MsgInit RECORD_TYPE_INIT sizeof_bro_init_data d /\
    firstn (Z.to_nat (i_p_len d)) (i_p d) = p /\ firstn (Z.to_nat (i_pub_key_len d)) (i_pub_key d) = pub /\
    i_shared_secret d = fst (key_info te) /\
    (length cr = 32%nat -> firstn 32 (i_client_random d) = cr) /\
    (length sr = 32%nat -> firstn 32 (i_server_random d) = sr) /\
    (length civ = 16%nat -> firstn 16 (i_client_iv d) = civ) /\
    (length siv = 16%nat -> firstn 16 (i_server_iv d) = siv).
Proof.
  intros HD HL. unfold telex_send_init_data. destruct (te_sock te =? -1); [discriminate |].
  destruct (key_info te) as [sk port]. cbn [fst] in *. rewrite HL, HD. intros H.
  apply obind_ret in H as (x & Hx & H). destruct x as [d |]; [| discriminate].
  destruct (sent <? 0); [discriminate |]. injection H as <-. exists d. split; [reflexivity |].
  unfold fill_dh in Hx. cbn [dh_p dh_g dh_pub_key dh_client_random dh_server_random dh_client_iv dh_server_iv] in Hx.
  destruct g; [| discriminate]. destruct (_ || _)%nat; [discriminate |]. injection Hx as <-.
  cbn [i_p i_p_len i_pub_key i_pub_key_len i_shared_secret i_client_random i_server_random i_client_iv i_server_iv].
  rewrite !Nat2Z.id. repeat split; intros; now apply overwrite_prefix.
Qed.

(** The object that the relay makes of the initial data. *)
Lemma tls_continued {L : TlsLib} srv cli conn ciphers HMAC junk SSL_new bio1 bio2 static_ctx new_ctx o
    mem sent cid te m p g pub cr sr civ siv x y secret c2s s2c :
  te_dh te = DhRec (Some p) (Some g) (Some pub) (Some cr) (Some sr) (Some civ) (Some siv) ->
  length (fst (key_info te)) = 16%nat -> length cr = 32%nat -> length sr = 32%nat ->
  length civ = 16%nat -> length siv = 16%nat ->
  telex_send_init_data mem sent cid te = Ret (Some m, 0) ->
  station_dh_key HMAC junk (fst (key_info te)) = Ret x -> 0 <= x -> 0 <= y ->
  1 < be_value p -> be_value pub = be_value g ^ y mod be_value p ->
  DH_compute_key (be_value p) y (be_value g ^ x mod be_value p) = Some secret ->
  after_handshake (ciphers 0x0039) secret cr sr civ siv = Some (c2s, s2c) ->
  SSL_new (if static_ctx =? 0 then new_ctx else static_ctx) = Some o -> fresh_object o = true ->
  (forall w t, change_cipher_state w t <> None) ->
  exists d s, m = MsgInit RECORD_TYPE_INIT sizeof_bro_init_data d /\
    leak_key srv cli conn ciphers HMAC junk true SSL_new true true bio1 bio2 static_ctx new_ctx d =
      Ret (Z.of_nat (length secret), Some s) /\
    reads s = Some c2s /\ writes s = Some s2c /\
    asserts (live_members srv cli conn true bio1 bio2 o) (LiveSsl.mem s) = true.
Proof.
  intros HD HL Lc Ls Lci Lsi HM HX Hx Hy Hp Hpub HS HA HN HF HC.
  destruct (init_dh _ _ _ _ _ _ _ _ _ _ _ _ HD HL HM) as (d & -> & D1 & D2 & D3 & D4 & D5 & D6 & D7).
  rewrite (DH_law _ y _ x (be_value pub)) in HS
    by (try assumption; rewrite Hpub; symmetry; now apply exchange_commutes).
  unfold after_handshake in HA. destruct (setup_key_block _ _ cr sr) as [kb |] eqn:HK; [| discriminate].
  injection HA as <- <-. exists d.
  destruct (live_result srv cli conn ciphers SSL_new bio1 bio2 static_ctx new_ctx secret
              (i_client_random d) (i_server_random d) true o kb HC HN HF) as (f & t & E & R1 & R2 & R3 & R4 & R5).
  { rewrite D4, D5 by assumption. exact HK. }
  eexists. split; [reflexivity |]. unfold leak_key. rewrite D1, D2, D3, HX. cbn [obind].
  unfold telex_get_shared_secret. rewrite HS. cbn [negb]. rewrite (proj2 (Z.ltb_ge _ 0)) by lia. rewrite E.
  cbn [obind keys LiveSsl.mem]. rewrite R2, R3. split; [reflexivity |].
  unfold reads, writes. cbn. rewrite R4, R5, D6, D7 by assumption. repeat split; auto.
Qed.

(** C8: the relay continues the TLS connection.  A server with private key [y] finished its
    handshake with a client whose private key [x] is the one derived from the tag's secret.
    From the initial data that the detector recorded of it, the relay computes the secret
    that client and server share, and its object reads exactly where the client writes
    and writes exactly where the server left off: keys, sequence numbers and vectors. *)
Theorem relay_continues_tls {L : TlsLib} srv cli conn ciphers HMAC junk SSL_new bio1 bio2 static_ctx new_ctx o
    mem sent cid te m p g pub cr sr civ siv x y secret c2s s2c :
  te_dh te = DhRec (Some p) (Some g) (Some pub) (Some cr) (Some sr) (Some civ) (Some siv) ->
  length (fst (key_info te)) = 16%nat -> length cr = 32%nat -> length sr = 32%nat ->
  length civ = 16%nat -> length siv = 16%nat ->
  telex_send_init_data mem sent cid te = Ret (Some m, 0) ->
  station_dh_key HMAC junk (fst (key_info te)) = Ret x -> 0 <= x -> 0 <= y ->
  1 < be_value p -> be_value pub = be_value g ^ y mod be_value p ->
  DH_compute_key (be_value p) y (be_value g ^ x mod be_value p) = Some secret ->
  after_handshake (ciphers 0x0039) secret cr sr civ siv = Some (c2s, s2c) ->
  SSL_new (if static_ctx =? 0 then new_ctx else static_ctx) = Some o -> fresh_object o = true ->
  (forall w t, change_cipher_state w t <> None) ->
  exists d s, m = MsgInit RECORD_TYPE_INIT sizeof_bro_init_data d /\
    leak_key srv cli conn ciphers HMAC junk true SSL_new true true bio1 bio2 static_ctx new_ctx d =
      Ret (Z.of_nat (length secret), Some s) /\
    reads s = Some c2s /\ writes s = Some s2c /\
    asserts (live_members srv cli conn true bio1 bio2 o) (LiveSsl.mem s) = true.
Proof. exact (tls_continued srv cli conn ciphers HMAC junk SSL_new bio1 bio2 static_ctx new_ctx o
    mem sent cid te m p g pub cr sr civ siv x y secret c2s s2c). Qed.

(** A library for the instances: sums for the pseudo-random function, and the layout of the
    key block for AES-256 with SHA-1. *)
Definition toy_dh (p x y : Z) : option (list Z) := Some (le_bytes 2 (Zpow_mod y x p)).
Definition toy_write_keys (client : bool) (kb : list Z) : cipher_ctx :=
  let cut off n := firstn n (skipn off kb) in
  if client then CipherCtx (cut 0 20)%nat (cut 40 32)%nat (cut 104 16)%nat
  else CipherCtx (cut 20 20)%nat (cut 72 32)%nat (cut 120 16)%nat.

Lemma toy_dh_law p x1 y1 x2 y2 : 1 < p -> y1 ^ x1 mod p = y2 ^ x2 mod p -> toy_dh p x1 y1 = toy_dh p x2 y2.
Proof. intros Hp E. unfold toy_dh. now rewrite !Zpow_mod_correct, E by lia. Qed.

Definition toy_tls : TlsLib := {|
  DH_compute_key := toy_dh;
  generate_master_secret s c r := le_bytes 48 (le_value s + 3 * le_value c + 7 * le_value r);
  setup_key_block cipher m c r := Some (le_bytes 136 (cipher + 5 * le_value m + le_value c * le_value r));
  write_keys := toy_write_keys;
  change_cipher_state w t := Some (install w (toy_write_keys (client_keys w) (key_block t)) t);
  DH_law := toy_dh_law;
  change_law w t t' E := ltac:(now injection E as <-) |}.

Definition toy_ssl : SSL :=
  Ssl (fun k => match k with
                | ctx | references => 1 | tlsext_status_type | tlsext_ocsp_resplen => -1 | version => 0x301
                | _ => 0 end)
      (Tls [] [] 0 0 [] [] None None [] [] (repeat 0 64) (repeat 0 64) (repeat 0 128)).

Lemma relay_continues_tls_witness :
  let te := set_te_dh (DhRec (Some [23]) (Some [5]) (Some [8]) (Some (repeat 1 32)) (Some (repeat 2 32))
                             (Some (repeat 3 16)) (Some (repeat 4 16))) (new_te (repeat 9 16, 8888) [] 0 9) in
  exists m d s, telex_send_init_data demo_mem 591 demo_cid te = Ret (Some m, 0) /\
    m = MsgInit RECORD_TYPE_INIT sizeof_bro_init_data d /\
    leak_key (L := toy_tls) 11 12 13 (fun c => c) toy_hmac (repeat 9 128) true (fun _ => Some toy_ssl) true true 5 6 0 1 d =
      Ret (2, Some s) /\ reads s <> None.
Proof.
  cbv zeta. set (te := set_te_dh _ _).
  assert (exists m, telex_send_init_data demo_mem 591 demo_cid te = Ret (Some m, 0)) as [m HM]
    by (eexists; vm_compute; reflexivity).
  assert (exists x, station_dh_key toy_hmac (repeat 9 128) (fst (key_info te)) = Ret x /\ 0 <= x) as (x & HX & Hx)
    by (eexists; split; [vm_compute; reflexivity | vm_compute; discriminate]).
  destruct (relay_continues_tls (L := toy_tls) 11 12 13 (fun c => c) toy_hmac (repeat 9 128) (fun _ => Some toy_ssl) 5 6 0 1
    toy_ssl demo_mem 591 demo_cid te m [23] [5] [8] (repeat 1 32) (repeat 2 32) (repeat 3 16) (repeat 4 16) x 6
    (le_bytes 2 (Zpow_mod (be_value [5] ^ x mod be_value [23]) 6 (be_value [23]))) _ _
    eq_refl eq_refl eq_refl eq_refl eq_refl eq_refl HM HX Hx ltac:(lia) eq_refl eq_refl eq_refl eq_refl eq_refl eq_refl
    ltac:(discriminate)) as (d & s & E1 & E2 & E3 & _).
  exists m, d, s. repeat split; [exact HM | exact E1 | exact E2 | rewrite E3; discriminate].
Defined.

Lemma live_state srv cli conn is_server bio1 bio2 o f :
  asserts (live_members srv cli conn is_server bio1 bio2 o) f = true ->
  map f [state_; rstate; server; handshake_func] = [SSL_ST_OK; SSL_ST_READ_HEADER; 0; conn] /\
  f type_ = if is_server then SSL_ST_ACCEPT else SSL_ST_CONNECT.
Proof.
  intros H. assert (forall k v, In (k, v) (live_members srv cli conn is_server bio1 bio2 o) -> f k = v) as G
    by (intros k v HI; apply Z.eqb_eq; now apply (proj1 (forallb_forall _ _) H (k, v))).
  cbn [map]. rewrite (G state_ SSL_ST_OK), (G rstate SSL_ST_READ_HEADER), (G server 0), (G handshake_func conn)
    by (destruct is_server; cbn; tauto).
  split; [reflexivity |]. apply G. destruct is_server; cbn; tauto.
Qed.

(** The objects built for the two roles from one secret are a connection: each reads
    what the other writes.  The caller's secret is overwritten with zeros, and both objects
    say that they are in the state after a handshake; the one for a server too has
    [server] 0 and the client's handshake function. *)
Theorem live_objects_mirror {L : TlsLib} srv cli conn ciphers SSL_new bio1 bio2 bio3 bio4 static_ctx new_ctx secret cr sr o kb :
  (forall w t, change_cipher_state w t <> None) ->
  SSL_new (if static_ctx =? 0 then new_ctx else static_ctx) = Some o -> fresh_object o = true ->
  setup_key_block (ciphers 0x0039) (generate_master_secret secret (firstn 32 cr) (firstn 32 sr))
    (firstn 32 cr) (firstn 32 sr) = Some kb ->
  exists c s, get_live_ssl_obj srv cli conn ciphers SSL_new true true bio1 bio2 static_ctx new_ctx secret cr sr false =
      Ret (c, if static_ctx =? 0 then new_ctx else static_ctx, repeat 0 (length secret)) /\
    get_live_ssl_obj srv cli conn ciphers SSL_new true true bio3 bio4 static_ctx new_ctx secret cr sr true =
      Ret (s, if static_ctx =? 0 then new_ctx else static_ctx, repeat 0 (length secret)) /\
    reads c = writes s /\ writes c = reads s /\ reads s <> None /\ writes s <> None /\
    map (mem c) [state_; rstate; server; handshake_func] = [SSL_ST_OK; SSL_ST_READ_HEADER; 0; conn] /\
    map (mem s) [state_; rstate; server; handshake_func] = [SSL_ST_OK; SSL_ST_READ_HEADER; 0; conn] /\
    (mem c type_, mem s type_) = (SSL_ST_CONNECT, SSL_ST_ACCEPT).
Proof.
  intros HC HN HF HK.
  destruct (live_result srv cli conn ciphers SSL_new bio1 bio2 static_ctx new_ctx secret cr sr false o kb HC HN HF HK)
    as (f & t & E & M & R1 & R2 & R3 & R4).
  destruct (live_result srv cli conn ciphers SSL_new bio3 bio4 static_ctx new_ctx secret cr sr true o kb HC HN HF HK)
    as (f' & t' & E' & M' & R1' & R2' & R3' & R4').
  exists (Ssl f t), (Ssl f' t'). split; [exact E |]. split; [exact E' |]. unfold reads, writes. cbn [keys mem].
  rewrite R1, R2, R3, R4, R1', R2', R3', R4'. repeat (split; [reflexivity || discriminate |]).
  apply live_state in M as [M T], M' as [M' T']. rewrite M, M', T, T'. now repeat split.
Qed.

Lemma live_objects_mirror_witness :
  exists c s, get_live_ssl_obj (L := toy_tls) 11 12 13 (fun c => c) (fun _ => Some toy_ssl) true true 5 6 0 1 [7; 8]
      (repeat 1 32) (repeat 2 32) false = Ret (c, 1, [0; 0]) /\
    get_live_ssl_obj (L := toy_tls) 11 12 13 (fun c => c) (fun _ => Some toy_ssl) true true 7 8 0 1 [7; 8]
      (repeat 1 32) (repeat 2 32) true = Ret (s, 1, [0; 0]) /\ reads c = writes s.
Proof.
  destruct (live_objects_mirror (L := toy_tls) 11 12 13 (fun c => c) (fun _ => Some toy_ssl) 5 6 7 8 0 1 [7; 8]
    (repeat 1 32) (repeat 2 32) toy_ssl _ ltac:(discriminate) eq_refl eq_refl eq_refl) as (c & s & E1 & E2 & E3 & _).
  exists c, s. exact (conj E1 (conj E2 E3)).
Defined.
