(* ===== verification/Covert.v ===== *)
(** * A Telex session from the client's hello to the relay

    The components in sequence: the client's tagged hello ([TelexSsl]), its detection and
    the policy's run over the handshake ([Detect]), the relay's takeover ([Handover]) and
    its TLS object ([LiveSsl]). *)
From S2P Require Import Prelude Bytes CLib.
From S2P Require Import Felem FelemPow Prime168 Curve Fp Group PtPoint PtMul Ptwist PtwistThms.
From S2P Require Import Tag TelexSsl TelexUtil FlowBlock TelexTcp Detect Bronnect Station Handover LiveSsl.
From Stdlib Require Import ZArith Zpow_facts Lia List Bool.
Import ListNotations.
Open Scope Z_scope.
Open Scope list_scope.

(** What passes between client and server after the client's hello, as Bro reports it: the
    server's flight with its key exchange, the client's, the two cipher changes and finished
    messages, and the packet that held the server's. *)
Record handshake := Handshake {
  hs_server_random : list Z; hs_p : list Z; hs_g : list Z; hs_pub_key : list Z;
  hs_client_finished : list Z; hs_server_finished : list Z; hs_orig : endpoint; hs_resp : endpoint;
  hs_packet : list Z; hs_packet_time : Z }.

Definition handshake_events (h : handshake) (flight1 flight2 ccs : list Z) (buf : init_data) (sent : Z) (stack : wflow)
    : list Detect.event :=
  let record o ty data := SslRecord o ty data (hs_orig h) (hs_resp h) buf sent [] in
  [ServerHello (hs_server_random h); record false 22 flight1; KeyExchange (hs_p h) (hs_g h) (hs_pub_key h);
   record true 22 flight2; record true 20 ccs; record true 22 (hs_client_finished h);
   record false 20 ccs; record false 22 (hs_server_finished h); FinalPacket (hs_packet h) (hs_packet_time h) 0 stack []].

(** The entry when both ciphers have changed, and when both finished messages have been seen. *)
Definition changed_te (h : handshake) (te : telex_info) : telex_info :=
  let d := te_dh te in
  let te := set_te_dh (DhRec (Some (hs_p h)) (Some (hs_g h)) (Some (hs_pub_key h)) (dh_client_random d)
                             (Some (hs_server_random h)) (dh_client_iv d) (dh_server_iv d)) te in
  set_te_state 4 (note_client (hs_client_finished h) (hs_orig h) (hs_resp h) (set_te_state 2 te)).
Definition finished_te (h : handshake) (te : telex_info) : telex_info :=
  note_server (hs_server_finished h) (changed_te h te).

(** The sizes that fit [struct dh_params]. *)
Definition fits_dh (h : handshake) : Prop :=
  (length (hs_p h) <= 128)%nat /\ (length (hs_pub_key h) <= 128)%nat /\ length (hs_server_random h) = 32%nat /\
  (16 <= length (hs_client_finished h))%nat /\ (16 <= length (hs_server_finished h))%nat.

Lemma iv_length data : (16 <= length data)%nat -> length (get_iv_from_handshake data) = 16%nat.
Proof.
  intros H. unfold get_iv_from_handshake. rewrite (proj2 (Nat.ltb_ge _ _)) by lia.
  rewrite length_firstn, length_skipn. lia.
Qed.

Lemma finished_sends h buf sent cid key wire now sock :
  fits_dh h -> length wire = 32%nat -> 0 <= sock -> 0 <= sent ->
  exists m, telex_send_init_data buf sent cid (finished_te h (new_te key wire now sock)) = Ret (Some m, 0).
Proof.
  intros (H1 & H2 & H3 & H4 & H5) Hw Hs Hn. unfold telex_send_init_data. destruct key as [k port].
  change (te_sock (finished_te h (new_te (k, port) wire now sock))) with sock.
  rewrite (proj2 (Z.eqb_neq sock (-1))) by lia. cbn [key_info finished_te changed_te new_te note_server note_client set_te_dh set_te_state set_te_tcp].
  unfold fill_dh. cbn [te_dh dh_p dh_g dh_pub_key dh_client_random dh_server_random dh_client_iv dh_server_iv
    finished_te changed_te note_server note_client set_te_dh set_te_state set_te_tcp new_te].
  rewrite !iv_length, Hw, H3 by assumption.
  rewrite (proj2 (Nat.ltb_ge 128 (length (hs_p h)))), (proj2 (Nat.ltb_ge 128 (length (hs_pub_key h)))) by assumption.
  cbn [orb Nat.ltb Nat.leb obind]. rewrite (proj2 (Z.ltb_ge sent 0)) by assumption. eauto.
Qed.

Lemma on_events_step pm SHA256 ks cid e es d d' :
  on_event pm SHA256 ks cid e d = Ret d' -> on_events pm SHA256 ks cid (e :: es) d = on_events pm SHA256 ks cid es d'.
Proof. intros E. cbn [on_events]. now rewrite E. Qed.

Lemma server_finished cid sfin orig resp buf sent te d m :
  te_state te = 4 -> telex_send_init_data buf sent cid (note_server sfin te) = Ret (Some m, 0) ->
  ssl_handshake cid false sfin orig resp buf sent [] te d =
  Ret (track (set_te_state 5 (note_server sfin te)) (act [ToRelay m] d)).
Proof.
  intros H4 Hm. unfold ssl_handshake. rewrite H4. cbn [Z.leb Z.compare Pos.compare Pos.compare_cont andb negb].
  change (te_state (note_server sfin te)) with (te_state te). rewrite H4, Hm. reflexivity.
Qed.

Lemma last_packet cid pkt t stack te d :
  do_fwd te = true -> te_state te = 5 -> fwd_time te < t -> 0 <= te_sock te ->
  exists fl, new_packet_final cid pkt t 0 stack [] te d =
    Ret (Det None (tag_key d) (acts d ++ [ToRelay (raw_message pkt); Rst fl; CloseSock (te_sock te)])).
Proof.
  intros Hd H5 Ht Hs. unfold new_packet_final. rewrite Hd, (proj2 (Z.ltb_lt _ _) Ht), H5. cbn [negb Z.eqb Pos.eqb].
  unfold telex_send_bronnect_raw_pkt. cbn [te_sock set_do_fwd]. rewrite (proj2 (Z.eqb_neq (te_sock te) (-1))) by lia.
  eexists. unfold Detect.cleanup_connection, act. cbn. now rewrite <- app_assoc.
Qed.

(** The policy over the handshake: the initial data, the packet, the reset of the server. *)
Lemma handshake_run pm SHA256 ks cid h f1 f2 ccs buf sent stack key wire now sock tk acts m :
  0 <= sock -> now < hs_packet_time h ->
  telex_send_init_data buf sent cid (finished_te h (new_te key wire now sock)) = Ret (Some m, 0) ->
  exists fl, on_events pm SHA256 ks cid (handshake_events h f1 f2 ccs buf sent stack)
               (Det (Some (new_te key wire now sock)) tk acts) =
             Ret (Det None tk (acts ++ [ToRelay m; ToRelay (raw_message (hs_packet h)); Rst fl; CloseSock sock])).
Proof.
  intros Hs Ht Hm. unfold handshake_events. set (te := new_te key wire now sock) in *.
  set (d7 := Det (Some (changed_te h te)) tk acts).
  destruct (last_packet cid (hs_packet h) (hs_packet_time h) stack (set_te_state 5 (finished_te h te))
    (track (set_te_state 5 (finished_te h te)) (act [ToRelay m] d7)))
    as (fl & E); [reflexivity | reflexivity | exact Ht | exact Hs |].
  exists fl.
  do 6 (etransitivity; [apply on_events_step; reflexivity |]).
  etransitivity; [apply (on_events_step pm SHA256 ks cid _ _ _ d7); reflexivity |].
  etransitivity; [apply on_events_step; apply (server_finished cid _ _ _ buf sent (changed_te h te)); [reflexivity | exact Hm] |].
  etransitivity; [apply on_events_step; exact E |]. cbn [on_events track act d7 Detect.acts Detect.tag_key].
  now rewrite <- app_assoc.
Qed.

Lemma station_key_nonneg HMAC junk secret x :
  (forall k m, Forall is_byte (HMAC k m)) -> (forall k m, length (HMAC k m) = 32%nat) -> length junk = 128%nat ->
  station_dh_key HMAC junk secret = Ret x -> 0 <= x.
Proof.
  intros HB HL HJ. unfold station_dh_key. change (128 / SHA256_DIGEST_LENGTH)%nat with 4%nat.
  rewrite station_client_prg, client_prg_stream by assumption. intros [= <-].
  destruct (prg_stream_bytes HMAC HB HL (firstn 16 secret)) as [B1 B2].
  pose proof (dh_key_range _ B1 B2). lia.
Qed.

Section Session.
Context {L : TlsLib} (SHA256 : list Z -> list Z) (HMAC : list Z -> list Z -> list Z).
Context (sha_len : forall m, length (SHA256 m) = 32%nat).
Context (hmac_bytes : forall k m, Forall is_byte (HMAC k m)) (hmac_len : forall k m, length (HMAC k m) = 32%nat).
Context (change_ok : forall w t, change_cipher_state w t <> None).

(** The client: its key comes from the station's key file, and its hello is [hello]; the
    connection is [cid]. *)
Context (e1 e2 ek1 ek2 : env) (j1 j2 : list Z) (st0 : tag_state) (random privkey pubkey : list Z) (st : tag_state)
        (now r1 : Z) (seckey : list Z) (hello : telex_hello) (cid : conn_id).
Context (len_j1 : length j1 = 128%nat) (len_j2 : length j2 = 128%nat).
Context (key_made : genkeys_main ptwist_pm ek1 ek2 random = Ret (privkey, pubkey)).
Context (key_loaded : tag_load_pubkey (Some pubkey) (tag_init st0) = Ret st).
Context (key_usable : ptwist_usable (gen_of st r1) seckey privkey).
Context (hello_made : ssl_new_telex ptwist_pm SHA256 HMAC true e1 e2 j1 st now (id_resp_h cid) r1 seckey = Ret (0, Some hello)).
Context (now_width : 0 <= now < 2 ^ 32).

Abbreviation wire := (telex_client_random hello).

(** The station: its keys, of which no earlier one takes the tag, its clock and its sockets. *)
Context (keys1 keys2 : list telex_priv_key) (port : Z) (jk : coord) (tk : list Z) (snow path_len sock : Z).
Context (no_other : Forall (fun k => forall tk, fst (check_tag ptwist_pm SHA256 jk tk (pk_key k) (skipn 4 wire)
                                                       (tag_context (id_resp_h cid) now)) <> 0) keys1).
Context (clocks_agree : Z.abs (now * 1000000 - snow) <= 60000000) (path_short : path_len < 108) (sock_ok : 0 <= sock).

(** The handshake with a server whose private key is [y], and what it leaves to the two sides. *)
Context (hs : handshake) (f1 f2 ccs : list Z) (buf : init_data) (sent : Z) (stack : wflow).
Context (y : Z) (secret : list Z) (ciphers : Z -> Z) (c2s s2c : half).
Context (hs_fits : fits_dh hs) (sent_ok : 0 <= sent) (block_in_time : snow < hs_packet_time hs).
Context (y_nonneg : 0 <= y) (p_large : 1 < be_value (hs_p hs)).
Context (server_pub : be_value (hs_pub_key hs) = be_value (hs_g hs) ^ y mod be_value (hs_p hs)).
Context (server_secret : DH_compute_key (be_value (hs_p hs)) y
                           (be_value (hs_g hs) ^ telex_dh_priv_key hello mod be_value (hs_p hs)) = Some secret).
Context (server_tls : after_handshake (ciphers 0x0039) secret wire (hs_server_random hs)
                        (get_iv_from_handshake (hs_client_finished hs)) (get_iv_from_handshake (hs_server_finished hs)) =
                      Some (c2s, s2c)).

(** OpenSSL at the relay. *)
Context (srv cli conn : Z) (SSL_new : Z -> option SSL) (bio1 bio2 static_ctx new_ctx : Z) (o : SSL).
Context (object_made : SSL_new (if static_ctx =? 0 then new_ctx else static_ctx) = Some o) (object_fresh : fresh_object o = true).

(** The detector over the whole handshake of a tagged connection, and the relay's TLS. *)
Lemma session_seen : exists te d fl s,
  on_events ptwist_pm SHA256 (keys1 ++ PrivKey privkey port :: keys2) cid
    (ClientHello (skipn 4 wire) wire jk snow [] path_len sock 0 :: handshake_events hs f1 f2 ccs buf sent stack)
    (Det None tk []) =
  Ret (Det None (fst (key_info te))
         [Detect.Block; Detect.Connected sock; ToRelay (MsgInit RECORD_TYPE_INIT sizeof_bro_init_data d);
          ToRelay (raw_message (hs_packet hs)); Rst fl; CloseSock sock]) /\
  telex_send_init_data buf sent cid te = Ret (Some (MsgInit RECORD_TYPE_INIT sizeof_bro_init_data d), 0) /\
  length (fst (key_info te)) = 16%nat /\ snd (key_info te) = port /\
  leak_key srv cli conn ciphers HMAC j2 true SSL_new true true bio1 bio2 static_ctx new_ctx d =
    Ret (Z.of_nat (length secret), Some s) /\
  reads s = Some c2s /\ writes s = Some s2c.
Proof using All.
  destruct (hello_recovered SHA256 HMAC e1 e2 ek1 ek2 j1 j2 st0 random privkey pubkey st now (id_resp_h cid) r1 seckey
              sha_len hmac_bytes hmac_len len_j1 len_j2 key_made key_loaded key_usable) as (h' & tag & _ & E & W & Lt & _).
  rewrite hello_made in E. injection E as <-.
  assert (length wire = 32%nat) as Lw by (rewrite W, length_app, length_rev, le_bytes_length, Lt; reflexivity).
  destruct (hello_detected SHA256 HMAC e1 e2 ek1 ek2 j1 j2 st0 random privkey pubkey st now r1 seckey keys1 port keys2 cid jk
              tk snow [] path_len sock sha_len hmac_bytes hmac_len len_j1 len_j2 key_made key_loaded key_usable now_width
              clocks_agree eq_refl path_short sock_ok) as (h' & E & F).
  rewrite hello_made in E. injection E as <-. destruct (F no_other) as (key & E1 & Lk & D).
  set (te := finished_te hs (new_te (key, port) wire snow sock)).
  destruct (finished_sends hs buf sent cid (key, port) wire snow sock hs_fits Lw sock_ok sent_ok) as (m & Hm).
  destruct (handshake_run ptwist_pm SHA256 (keys1 ++ PrivKey privkey port :: keys2) cid hs f1 f2 ccs buf sent stack
              (key, port) wire snow sock key [Detect.Block; Detect.Connected sock] m sock_ok block_in_time Hm) as (fl & E2).
  destruct hs_fits as (_ & _ & H3 & H4 & H5).
  destruct (tls_continued srv cli conn ciphers HMAC j2 SSL_new bio1 bio2 static_ctx new_ctx o buf sent cid te m
              (hs_p hs) (hs_g hs) (hs_pub_key hs) wire (hs_server_random hs)
              (get_iv_from_handshake (hs_client_finished hs)) (get_iv_from_handshake (hs_server_finished hs))
              (telex_dh_priv_key hello) y secret c2s s2c eq_refl Lk Lw H3 (iv_length _ H4) (iv_length _ H5) Hm D
              (station_key_nonneg HMAC j2 _ _ hmac_bytes hmac_len len_j2 D) y_nonneg p_large server_pub server_secret
              server_tls object_made object_fresh change_ok) as (d & s & -> & E3 & E4 & E5 & _).
  exists te, d, fl, s. split; [etransitivity; [apply on_events_step; exact E1 | exact E2] |].
  split; [exact Hm |]. repeat split; assumption.
Qed.

(** The relay's calls. *)
Context (n bro_conn t : Z) (s0 : bstats) (i1 i2 : io) (fd : Z) (fk : fake_io).
Context (port_ok : 0 < port < 65536) (fd_ok : 0 <= fd) (packet_short : Z.of_nat (length (hs_packet hs)) < 65536).
Context (listens : listen_fd fk <> -1) (binds : bind_ok fk = true) (fake_ok : 0 <= fake_fd fk).

(** C5: a Telex session from end to end.  A client sends its tagged hello to a server and
    finishes the handshake with it; the calls of the station succeed.  The detector blocks
    the flow, sends the relay the initial data and the last packet, and resets the server.
    The relay that receives them will unblock the flow that was blocked, is connected to the
    service of the key, has a socket to the client and has sent it the packet; and its TLS
    object, made of the initial data, holds the server's side of the client's connection. *)
Theorem telex_session : exists key d fl s w0 w cst,
  on_events ptwist_pm SHA256 (keys1 ++ PrivKey privkey port :: keys2) cid
    (ClientHello (skipn 4 wire) wire jk snow [] path_len sock 0 :: handshake_events hs f1 f2 ccs buf sent stack)
    (Det None tk []) =
  Ret (Det None key
         [Detect.Block; Detect.Connected sock; ToRelay (MsgInit RECORD_TYPE_INIT sizeof_bro_init_data d);
          ToRelay (raw_message (hs_packet hs)); Rst fl; CloseSock sock]) /\
  handle_bro_connection n bro_conn t s0 = Ok tt w0 /\
  run_all [InTelex i1 (receive (MsgInit RECORD_TYPE_INIT sizeof_bro_init_data d) (InProgress fd)
                         (Z.of_nat (length secret)) true fk);
           InTelex i2 (receive (raw_message (hs_packet hs)) (InProgress fd) (Z.of_nat (length secret)) true fk)] w0 = w /\
  cell w = Some cst /\ unblock_args (flow_state cst) = mod_block_args cid /\ key_port cst = port /\
  service_conn cst = fd /\ client_conn cst = fake_fd fk /\ Bronnect.state cst = 2 /\
  In (RawToClient (hs_packet hs)) (trace w) /\
  leak_key srv cli conn ciphers HMAC j2 true SSL_new true true bio1 bio2 static_ctx new_ctx d =
    Ret (Z.of_nat (length secret), Some s) /\
  reads s = Some c2s /\ writes s = Some s2c.
Proof using All.
  destruct session_seen as (te & d & fl & s & E1 & E2 & Lk & Hp & E3 & R1 & R2).
  destruct (takes_over buf sent cid te _ (hs_packet hs) n bro_conn t s0 i1 i2 fd (Z.of_nat (length secret)) fk E2 Lk)
    as (w0 & w & cst & A1 & A2 & A3 & A4 & A5 & A6 & A7 & _ & A9 & A10);
    [now rewrite Hp | assumption | lia | assumption.. |].
  exists (fst (key_info te)), d, fl, s, w0, w, cst. rewrite Hp in A5. repeat (split; [assumption |]). assumption.
Qed.
End Session.

Lemma telex_session_witness :
  let e := Env 0 coord0 in
  let hs := Handshake (repeat 2 32) [23] [5] [8] (repeat 3 40) (repeat 4 40) demo_orig demo_resp [22; 3; 1] 1300000012000000 in
  exists st hello key d fl, ssl_new_telex ptwist_pm toy_hash toy_hmac true e e (repeat 0 128) st 1300000000
      (id_resp_h demo_cid) 0 (bin21 2) = Ret (0, Some hello) /\
    on_events ptwist_pm toy_hash ([] ++ PrivKey (bin21 3) 8888 :: []) demo_cid
      (ClientHello (skipn 4 (telex_client_random hello)) (telex_client_random hello) coord0 1300000010000000 [] 20 9 0 ::
       handshake_events hs [1] [2] [1] demo_mem 591 flow_zero) (Det None [] []) =
    Ret (Det None key [Detect.Block; Detect.Connected 9; ToRelay (MsgInit RECORD_TYPE_INIT sizeof_bro_init_data d);
                       ToRelay (raw_message [22; 3; 1]); Rst fl; CloseSock 9]).
Proof.
  intros e hs. destruct (load_generated (KA := ptwist_agreement) e e (bin21 3) (bin21 3)
    (ptwist_pm e (bin21 2) (bin21 3) ++ ptwist_pm e (repeat 0 21) (bin21 3))
    (tag_init (TagState [] [] [] [])) eq_refl) as (_ & E & _).
  destruct (hello_recovered toy_hash toy_hmac e e e e (repeat 0 128) (repeat 0 128) (TagState [] [] [] []) (bin21 3) (bin21 3)
    (ptwist_pm e (bin21 2) (bin21 3) ++ ptwist_pm e (repeat 0 21) (bin21 3)) _ 1300000000 (id_resp_h demo_cid) 0 (bin21 2)
    toy_hash_len toy_hmac_bytes toy_hmac_len (repeat_length _ _) (repeat_length _ _) eq_refl E usable_2_3)
    as (hello & _ & _ & Hh & _).
  eexists _, hello.
  assert (fits_dh hs) as F by (unfold fits_dh; cbn; lia).
  set (secret := le_bytes 2 (Zpow_mod (be_value [5] ^ telex_dh_priv_key hello mod be_value [23]) 6 (be_value [23]))).
  assert (exists c2s s2c, after_handshake (L := toy_tls) 0x0039 secret (telex_client_random hello) (hs_server_random hs)
            (get_iv_from_handshake (hs_client_finished hs)) (get_iv_from_handshake (hs_server_finished hs)) = Some (c2s, s2c))
    as (c2s & s2c & HA) by (do 2 eexists; reflexivity).
  destruct (telex_session (L := toy_tls) toy_hash toy_hmac toy_hash_len toy_hmac_bytes toy_hmac_len ltac:(discriminate)
    e e e e (repeat 0 128) (repeat 0 128) (TagState [] [] [] []) (bin21 3) (bin21 3)
    (ptwist_pm e (bin21 2) (bin21 3) ++ ptwist_pm e (repeat 0 21) (bin21 3)) _ 1300000000 0 (bin21 2) hello demo_cid
    (repeat_length _ _) (repeat_length _ _) eq_refl E usable_2_3 Hh ltac:(lia)
    [] [] 8888 coord0 [] 1300000010000000 20 9 (List.Forall_nil _) ltac:(lia) ltac:(lia) ltac:(lia)
    hs [1] [2] [1] demo_mem 591 flow_zero 6 secret (fun c => c) c2s s2c F ltac:(lia) ltac:(reflexivity) ltac:(lia)
    ltac:(reflexivity) eq_refl eq_refl HA
    11 12 13 (fun _ => Some toy_ssl) 5 6 0 1 toy_ssl eq_refl eq_refl 0 5 9 (Stats 0 0 0 0)
    (IO 10 [] ERROR_WANT_READ true (-1) [] true ERROR_NONE 1 1 ERROR_NONE)
    (IO 11 [] ERROR_WANT_READ true (-1) [] true ERROR_NONE 1 1 ERROR_NONE) 7 (FakeIO 8 true 9)
    ltac:(lia) ltac:(lia) ltac:(reflexivity) ltac:(discriminate) eq_refl ltac:(discriminate))
    as (key & d & fl & _ & _ & _ & _ & R & _).
  exists key, d, fl. split; [exact Hh | exact R].
Defined.
