(* ===== verification/Reassem.v ===== *)
(** * Bro's stream reassembly

    The station sees TLS through Bro: [Reassem.cc] keeps the segments of one direction of a
    connection as a list of blocks, [TCP_Reassembler.cc] passes the bytes on to the protocol
    analyzers in order.  Sequence numbers are relative to the SYN, so that the first byte
    of the stream has number 1; they are C [int]s and compared by [seq_delta].

    [last_block] of the source is the last block of the list, and every assignment of it
    keeps it so; here it is computed from the list.  [ACTIVE_MAPPING] is not configured.
    What a call makes visible is a list of [Out]; what it reads of the endpoints and of
    Bro's options is an [REnv]. *)
From S2P Require Import Prelude Bytes CLib.
From Stdlib Require Import String ZArith Lia List Bool.
Import ListNotations.
Open Scope Z_scope.
Open Scope list_scope.

(** [EndpointState] of [TCP_Endpoint.h]. *)
Inductive EndpointState :=
  | TCP_ENDPOINT_INACTIVE | TCP_ENDPOINT_SYN_SENT | TCP_ENDPOINT_SYN_ACK_SENT
  | TCP_ENDPOINT_PARTIAL | TCP_ENDPOINT_ESTABLISHED | TCP_ENDPOINT_CLOSED | TCP_ENDPOINT_RESET.

Definition EndpointState_eq_dec (a b : EndpointState) : {a = b} + {a <> b}.
Proof. decide equality. Defined.

Definition state_eqb (a b : EndpointState) : bool := if EndpointState_eq_dec a b then true else false.

(** [seq_delta]: the distance in the sequence space, an [int] of the unsigned difference. *)
Definition seq_delta (a b : Z) : Z := swrap 32 (a - b).

(** Sums of [int]s. *)
Definition int_add (a b : Z) : Z := swrap 32 (a + b).

(** [DataBlock] *)
Record DataBlock := Block { db_seq : Z; db_upper : Z; db_block : list Z }.

(** The constructor copies [size] bytes of [data]. *)
Definition new_DataBlock (data : list Z) (size seq : Z) : DataBlock :=
  {| db_seq := seq; db_upper := int_add seq size; db_block := firstn (Z.to_nat size) data |}.

Definition Size (b : DataBlock) : Z := int_add (db_upper b) (- db_seq b).

Definition last_block (bs : list DataBlock) : option DataBlock :=
  match rev bs with [] => None | b :: _ => Some b end.

(** ** [AddAndCheck] *)

(** The search for the first block that does not come completely before the new data: the
    blocks passed, and the rest, of which at least the last remains. *)
Fixpoint find_block (seq : Z) (bs : list DataBlock) : list DataBlock * list DataBlock :=
  match bs with
  | b :: ((_ :: _) as next) =>
      if seq_delta (db_upper b) seq <=? 0
      then let '(before, rest) := find_block seq next in (b :: before, rest)
      else ([], bs)
  | _ => ([], bs)
  end.

(** What an insertion leaves: the blocks, the index of the block returned, and the pairs of
    byte strings given to [Overlap]. *)
Record Added := { ad_blocks : list DataBlock; ad_start : nat; ad_overlaps : list (list Z * list Z) }.

(** [AddAndCheck] at the list that starts with its argument [b].  One unit of fuel per
    recursive call. *)
Fixpoint AddAndCheck (fuel : nat) (bs : list DataBlock) (seq upper : Z) (data : list Z) : option Added :=
  match fuel with
  | O => None
  | S fuel =>
      if match last_block bs with Some lb => seq =? db_upper lb | None => false end
      then Some {| ad_blocks := bs ++ [new_DataBlock data (int_add upper (- seq)) seq];
                   ad_start := length bs; ad_overlaps := [] |}
      else
        match find_block seq bs with
        | (_, []) => None
        | (before, b :: rest) =>
            if seq_delta (db_upper b) seq <=? 0
            then Some {| ad_blocks := bs ++ [new_DataBlock data (int_add upper (- seq)) seq];
                         ad_start := length bs; ad_overlaps := [] |}
            else if seq_delta upper (db_seq b) <=? 0
            then Some {| ad_blocks := before ++ new_DataBlock data (seq_delta upper seq) seq :: b :: rest;
                         ad_start := length before; ad_overlaps := [] |}
            else
              let has_prefix := seq_delta seq (db_seq b) <? 0 in
              let prefix_len := if has_prefix then seq_delta (db_seq b) seq else 0 in
              let prefix := if has_prefix then [new_DataBlock data prefix_len seq] else [] in
              let data := skipn (Z.to_nat prefix_len) data in
              let seq := int_add seq prefix_len in
              let overlap_offset := seq_delta seq (db_seq b) in
              let new_b_len := seq_delta upper seq in
              let b_len := seq_delta (db_upper b) seq in
              let overlap_len := Z.min new_b_len b_len in
              let overlap := (firstn (Z.to_nat overlap_len) (skipn (Z.to_nat overlap_offset) (db_block b)),
                              firstn (Z.to_nat overlap_len) data) in
              if overlap_len <? new_b_len
              then match AddAndCheck fuel (b :: rest) (int_add seq overlap_len) upper
                                     (skipn (Z.to_nat overlap_len) data) with
                   | None => None
                   | Some a =>
                       Some {| ad_blocks := before ++ prefix ++ ad_blocks a;
                               ad_start := if has_prefix then length before else length before + ad_start a;
                               ad_overlaps := overlap :: ad_overlaps a |}
                   end
              else Some {| ad_blocks := before ++ prefix ++ b :: rest;
                           ad_start := length before; ad_overlaps := [overlap] |}
        end
  end.

(** ** The reassembler of a TCP endpoint *)

Record Reassembler := {
  blocks : list DataBlock;
  last_reassem_seq : Z;
  trim_seq : Z;
  had_gap : bool;
  did_EOF : bool;
  skip_deliveries : bool;
  seq_to_skip : Z }.

(** [TCP_Reassembler::TCP_Reassembler] starts after the SYN. *)
Definition new_Reassembler : Reassembler :=
  {| blocks := []; last_reassem_seq := 1; trim_seq := 1; had_gap := false; did_EOF := false;
     skip_deliveries := false; seq_to_skip := 0 |}.

Definition set_blocks (bs : list DataBlock) (r : Reassembler) : Reassembler :=
  {| blocks := bs; last_reassem_seq := last_reassem_seq r; trim_seq := trim_seq r; had_gap := had_gap r;
     did_EOF := did_EOF r; skip_deliveries := skip_deliveries r; seq_to_skip := seq_to_skip r |}.

Definition set_last_reassem_seq (s : Z) (r : Reassembler) : Reassembler :=
  {| blocks := blocks r; last_reassem_seq := s; trim_seq := trim_seq r; had_gap := had_gap r;
     did_EOF := did_EOF r; skip_deliveries := skip_deliveries r; seq_to_skip := seq_to_skip r |}.

Definition set_trim_seq (s : Z) (r : Reassembler) : Reassembler :=
  {| blocks := blocks r; last_reassem_seq := last_reassem_seq r; trim_seq := s; had_gap := had_gap r;
     did_EOF := did_EOF r; skip_deliveries := skip_deliveries r; seq_to_skip := seq_to_skip r |}.

Definition set_had_gap (r : Reassembler) : Reassembler :=
  {| blocks := blocks r; last_reassem_seq := last_reassem_seq r; trim_seq := trim_seq r; had_gap := true;
     did_EOF := did_EOF r; skip_deliveries := skip_deliveries r; seq_to_skip := seq_to_skip r |}.

Definition set_did_EOF (r : Reassembler) : Reassembler :=
  {| blocks := blocks r; last_reassem_seq := last_reassem_seq r; trim_seq := trim_seq r; had_gap := had_gap r;
     did_EOF := true; skip_deliveries := skip_deliveries r; seq_to_skip := seq_to_skip r |}.

Definition set_skip_deliveries (r : Reassembler) : Reassembler :=
  {| blocks := blocks r; last_reassem_seq := last_reassem_seq r; trim_seq := trim_seq r; had_gap := had_gap r;
     did_EOF := did_EOF r; skip_deliveries := true; seq_to_skip := seq_to_skip r |}.

Definition set_seq_to_skip (s : Z) (r : Reassembler) : Reassembler :=
  {| blocks := blocks r; last_reassem_seq := last_reassem_seq r; trim_seq := trim_seq r; had_gap := had_gap r;
     did_EOF := did_EOF r; skip_deliveries := skip_deliveries r; seq_to_skip := s |}.

(** What the calls make visible. *)
Inductive Out :=
  | Deliver (data : list Z)                    (* ForwardStream, to the analyzers *)
  | tcp_contents (seq : Z) (data : list Z)     (* the event of that name *)
  | content_gap (seq len : Z)
  | ForwardUndelivered (seq len : Z)
  | rexmit_inconsistency (b1 b2 : list Z)
  | Record_ (data : list Z)                    (* to the contents file *)
  | RecordGap (n : Z)
  | Match (data : list Z)                      (* the signature matcher *)
  | ack_above_hole
  | gap_report (devents dbytes dgaps dgap_bytes : Z)
  | EndpointEOF
  | Weird (name : string).

(** What the reassembler reads of its endpoint, of the peer, of the analyzer and of Bro's
    options.  [r_skip_request] is what the analyzers ask for while they are given bytes: a
    call of [SkipToSeq] from within the delivery. *)
Record REnv := {
  endp_state : EndpointState; endp_FIN_cnt : Z; endp_RST_cnt : Z; endp_FIN_seq : Z;
  endp_StartSeq : Z; endp_LastSeq : Z; endp_AckSeq : Z;
  endp_Size : Z; endp_NoDataAcked : bool;
  peer_state : EndpointState; peer_FIN_cnt : Z; peer_RST_cnt : Z;
  peer_HasContents : bool; peer_HasUndeliveredData : bool; peer_HasDoneSomething : bool;
  IsPartial : bool; Skipping : bool;
  recording : bool; deliver_tcp_contents : bool; has_rule_matcher : bool;
  handles_content_gap : bool; handles_rexmit_inconsistency : bool;
  tcp_match_undelivered : bool;
  tcp_max_initial_window : Z; tcp_max_above_hole_without_any_acks : Z;
  tcp_excessive_data_without_further_acks : Z;
  r_skip_request : Z -> list Z -> option Z }.

Section Operations.

Context (env : REnv).

(** [TCP_Reassembler::Overlap]: an event if a retransmission differs. *)
Definition Overlap (b1 b2 : list Z) : list Out :=
  if handles_rexmit_inconsistency env && (if list_eq_dec Z.eq_dec b1 b2 then false else true)
     && ((1 <? Z.of_nat (length b1)) || peer_HasDoneSomething env)
  then [rexmit_inconsistency b1 b2] else [].

(** [SkipToSeq] while bytes are being delivered ([in_delivery]). *)
Definition SkipToSeq_in_delivery (seq : Z) (r : Reassembler) : Reassembler :=
  if 0 <? seq_delta seq (seq_to_skip r) then set_seq_to_skip seq r else r.

(** [DeliverBlock], with [Deliver].  Its last statement, [SkipToSeq(seq_to_skip)] when the
    analyzers asked for a skip, has no effect: see [SkipToSeq_again]. *)
Definition DeliverBlock (seq len : Z) (data : list Z) (r : Reassembler) : Reassembler * list Out :=
  if seq_delta (int_add seq len) (seq_to_skip r) <=? 0 then (r, [])
  else
    let to_skip := if seq_delta seq (seq_to_skip r) <? 0 then seq_delta (seq_to_skip r) seq else 0 in
    let len := len - to_skip in
    let data := firstn (Z.to_nat len) (skipn (Z.to_nat to_skip) data) in
    let seq := if seq_delta seq (seq_to_skip r) <? 0 then seq_to_skip r else seq in
    let contents := if deliver_tcp_contents env then [tcp_contents seq data] else [] in
    if skip_deliveries r then (r, contents)
    else
      let r := match r_skip_request env seq data with Some s => SkipToSeq_in_delivery s r | None => r end in
      (r, contents ++ [Deliver data]).

(** [MatchUndelivered].  The loop matches the blocks that it skips. *)
Fixpoint match_blocks (last : Z) (bs : list DataBlock) : list Out :=
  match bs with
  | b :: bs => if seq_delta (db_upper b) last <=? 0 then Match (db_block b) :: match_blocks last bs else []
  | [] => []
  end.

Definition MatchUndelivered (up_to_seq : Z) (r : Reassembler) : list Out :=
  match last_block (blocks r) with
  | None => []
  | Some lb =>
      if negb (has_rule_matcher env) then []
      else
        let up_to_seq := if up_to_seq =? -1 then db_upper lb else up_to_seq in
        if (seq_delta up_to_seq (last_reassem_seq r) <=? 0)
           || (seq_delta (db_upper lb) (last_reassem_seq r) <=? 0)
        then []
        else match_blocks (last_reassem_seq r) (blocks r)
  end.

(** [RecordToSeq]: its first loop, then its second with the final gap. *)
Fixpoint skip_recorded (start_seq : Z) (bs : list DataBlock) : list DataBlock :=
  match bs with
  | b :: next => if seq_delta (db_upper b) start_seq <=? 0 then skip_recorded start_seq next else bs
  | [] => []
  end.

Fixpoint record_blocks (last_seq stop_seq : Z) (bs : list DataBlock) : list Out :=
  match bs with
  | [] => []
  | b :: next =>
      if seq_delta (db_upper b) stop_seq <=? 0
      then (if 0 <? seq_delta (db_seq b) last_seq then [RecordGap (seq_delta (db_seq b) last_seq)] else [])
           ++ Record_ (db_block b) :: record_blocks (db_upper b) stop_seq next
      else if seq_delta last_seq stop_seq <? 0 then [RecordGap (seq_delta stop_seq last_seq)] else []
  end.

Definition RecordToSeq (start_seq stop_seq : Z) (r : Reassembler) : list Out :=
  record_blocks start_seq stop_seq (skip_recorded start_seq (blocks r)).

(** [Undelivered]: bytes that were acknowledged and never seen are given up. *)
Definition Undelivered (up_to_seq : Z) (r : Reassembler) : Reassembler * list Out :=
  if (up_to_seq <=? 2) && IsPartial env then (r, [])
  else if seq_delta up_to_seq (last_reassem_seq r) <=? 0 then (r, [])
  else
    let len := seq_delta up_to_seq (last_reassem_seq r) in
    let '(r1, out) :=
      if (last_reassem_seq r =? 1)
         && ((0 <? endp_FIN_cnt env) || (0 <? endp_RST_cnt env) || (0 <? peer_FIN_cnt env) || (0 <? peer_RST_cnt env))
      then (set_skip_deliveries r, [])
      else
        (set_had_gap r,
         if skip_deliveries r then []
         else (if handles_content_gap env && state_eqb (endp_state env) TCP_ENDPOINT_ESTABLISHED
                  && state_eqb (peer_state env) TCP_ENDPOINT_ESTABLISHED
               then [content_gap (last_reassem_seq r) len] else [])
              ++ [ForwardUndelivered (last_reassem_seq r) len]) in
    let out := out ++ (if recording env then RecordToSeq (last_reassem_seq r) up_to_seq r1 else [])
                   ++ (if tcp_match_undelivered env then MatchUndelivered up_to_seq r1 else []) in
    (set_last_reassem_seq up_to_seq r1, out).

(** The delivery loop of [BlockInserted], at the block it has reached. *)
Fixpoint deliver_blocks (bs : list DataBlock) (r : Reassembler) : Reassembler * list Out :=
  match bs with
  | [] => (r, [])
  | b :: next =>
      if seq_delta (db_seq b) (last_reassem_seq r) <=? 0 then
        if db_seq b =? last_reassem_seq r then
          let seq := last_reassem_seq r in
          let r := set_last_reassem_seq (int_add seq (Size b)) r in
          let rec_out := if recording env then [Record_ (db_block b)] else [] in
          let '(r, out1) := DeliverBlock seq (Size b) (db_block b) r in
          let '(r, out2) := deliver_blocks next r in
          (r, rec_out ++ out1 ++ out2)
        else deliver_blocks next r
      else (r, [])
  end.

(** The loop of [TrimToSeq]: the blocks kept, and the bytes found missing. *)
Fixpoint trim_blocks (seq : Z) (bs : list DataBlock) : list DataBlock * Z :=
  match bs with
  | [] => ([], 0)
  | b :: next =>
      if seq_delta (db_upper b) seq <=? 0 then
        let at_end := if negb (db_upper b =? seq) && negb (db_upper b =? int_add seq (-1))
                      then seq_delta seq (db_upper b) else 0 in
        let missing := match next with
                       | n :: _ => if seq_delta (db_seq n) seq <=? 0
                                   then if negb (db_upper b =? db_seq n) then seq_delta (db_seq n) (db_upper b) else 0
                                   else at_end
                       | [] => at_end
                       end in
        let '(kept, more) := trim_blocks seq next in (kept, missing + more)
      else (bs, 0)
  end.

(** The bytes missing before the first block. *)
Definition initial_hole (seq : Z) (r : Reassembler) : Z :=
  match blocks r with
  | b :: _ => Z.max 0 (seq_delta (db_seq b) (last_reassem_seq r))
  | [] => Z.max 0 (seq_delta seq (last_reassem_seq r))
  end.

(** [BlockInserted] and [TrimToSeq] call each other; the fuel is the depth of the calls.
    [TrimToSeq] returns the number of missing bytes as well. *)
Fixpoint BlockInserted (fuel : nat) (start_block : nat) (r : Reassembler) : option (Reassembler * list Out) :=
  match fuel with
  | O => None
  | S fuel =>
      match nth_error (blocks r) start_block with
      | None => None
      | Some b =>
          if (0 <? seq_delta (db_seq b) (last_reassem_seq r))
             || (seq_delta (db_upper b) (last_reassem_seq r) <=? 0)
          then Some (r, [])
          else
            let '(r, out) := deliver_blocks (skipn start_block (blocks r)) r in
            if negb (peer_HasContents env)
               || (endp_NoDataAcked env && negb (tcp_max_initial_window env =? 0)
                   && (tcp_max_initial_window env <? endp_Size env))
            then match TrimToSeq fuel (last_reassem_seq r) r with
                 | None => None
                 | Some (r, out2, _) => Some (r, out ++ out2)
                 end
            else Some (r, out)
      end
  end
with TrimToSeq (fuel : nat) (seq : Z) (r : Reassembler) : option (Reassembler * list Out * Z) :=
  match fuel with
  | O => None
  | S fuel =>
      let num_missing := initial_hole seq r in
      let '(r, out1) := if 0 <? seq_delta seq (last_reassem_seq r) then Undelivered seq r else (r, []) in
      let '(kept, missing) := trim_blocks seq (blocks r) in
      let r := set_blocks kept r in
      match (match kept with
             | b :: _ => if db_seq b =? last_reassem_seq r then BlockInserted fuel 0 r else Some (r, [])
             | [] => Some (r, [])
             end) with
      | None => None
      | Some (r, out2) =>
          let r := if 0 <? seq_delta seq (trim_seq r) then set_trim_seq seq r else r in
          Some (r, out1 ++ out2, num_missing + missing)
      end
  end.

(** The depth that is always enough. *)
Definition call_depth : nat := 4.

(** [SkipToSeq] outside of a delivery. *)
Definition SkipToSeq (seq : Z) (r : Reassembler) : option (Reassembler * list Out) :=
  if 0 <? seq_delta seq (seq_to_skip r)
  then match TrimToSeq call_depth seq (set_seq_to_skip seq r) with
       | Some (r, out, _) => Some (r, out)
       | None => None
       end
  else Some (r, []).

(** Asking for the skip that is already set does nothing. *)
Lemma SkipToSeq_again r : SkipToSeq (seq_to_skip r) r = Some (r, []).
Proof.
  unfold SkipToSeq, seq_delta. rewrite Z.sub_diag. reflexivity.
Qed.

(** The block made by [NewBlock] when there is none, and the insertion else. *)
Definition insert_block (bs : list DataBlock) (seq upper_seq len : Z) (data : list Z) : option Added :=
  match bs with
  | [] => Some {| ad_blocks := [new_DataBlock data len seq]; ad_start := 0; ad_overlaps := [] |}
  | _ :: _ => AddAndCheck (S (length bs)) bs seq upper_seq data
  end.

(** [NewBlock] *)
Definition NewBlock (seq len : Z) (data : list Z) (r : Reassembler) : option (Reassembler * list Out) :=
  if len =? 0 then Some (r, [])
  else
    let upper_seq := int_add seq len in
    if seq_delta upper_seq (trim_seq r) <=? 0 then Some (r, [])
    else
      let amount_old := if seq_delta seq (trim_seq r) <? 0 then seq_delta (trim_seq r) seq else 0 in
      let data := skipn (Z.to_nat amount_old) data in
      let seq := int_add seq amount_old in
      let len := int_add len (- amount_old) in
      match insert_block (blocks r) seq upper_seq len data with
      | None => None
      | Some a =>
          let out1 := concat (map (fun o => Overlap (fst o) (snd o)) (ad_overlaps a)) in
          match BlockInserted call_depth (ad_start a) (set_blocks (ad_blocks a) r) with
          | None => None
          | Some (r, out2) => Some (r, out1 ++ out2)
          end
      end.

(** [NumUndeliveredBytes] *)
Definition NumUndeliveredBytes (r : Reassembler) : Z :=
  match last_block (blocks r) with
  | Some b => int_add (db_upper b) (- last_reassem_seq r)
  | None => 0
  end.

(** [ClearBlocks] *)
Definition ClearBlocks (r : Reassembler) : Reassembler := set_blocks [] r.

(** One of the two limits at the end of [DataSent]. *)
Definition too_much_held (limit : Z) (name : string) (r : Reassembler) : Reassembler * list Out :=
  if negb (limit =? 0) && (limit <? NumUndeliveredBytes r)
  then (set_skip_deliveries (ClearBlocks r), [Weird name])
  else (r, []).

(** [DataSent] *)
Definition DataSent (replaying : bool) (seq len : Z) (data : list Z) (r : Reassembler)
    : option (Reassembler * list Out * Z) :=
  let ack := seq_delta (endp_AckSeq env) (endp_StartSeq env) in
  let upper_seq := int_add seq len in
  if skip_deliveries r then Some (r, [], 0)
  else if (seq_delta seq ack <? 0) && negb replaying && (seq_delta upper_seq ack <=? 0) then Some (r, [], 0)
  else
    let amount_acked := if (seq_delta seq ack <? 0) && negb replaying then seq_delta ack seq else 0 in
    match NewBlock (int_add seq amount_acked) (int_add len (- amount_acked))
                   (skipn (Z.to_nat amount_acked) data) r with
    | None => None
    | Some (r, out1) =>
        let '(r, out2) := if endp_NoDataAcked env
                          then too_much_held (tcp_max_above_hole_without_any_acks env)
                                       "above_hole_data_without_any_acks" r
                          else (r, []) in
        let '(r, out3) := too_much_held (tcp_excessive_data_without_further_acks env)
                                  "excessive_data_without_further_acks" r in
        Some (r, out1 ++ out2 ++ out3, 1)
    end.

(** [DataPending] *)
Definition DataPending (r : Reassembler) : bool :=
  if skip_deliveries r then false
  else
    let delivered_seq := wrap 32 (endp_StartSeq env + last_reassem_seq r) in
    if negb (delivered_seq =? wrap 32 (endp_LastSeq env - 1)) && negb (delivered_seq =? endp_LastSeq env)
    then true
    else negb (state_eqb (endp_state env) TCP_ENDPOINT_RESET) && peer_HasUndeliveredData env.

(** [CheckEOF] *)
Definition CheckEOF (r : Reassembler) : Reassembler * list Out :=
  if negb (did_EOF r)
     && ((0 <? endp_FIN_cnt env) || state_eqb (endp_state env) TCP_ENDPOINT_CLOSED
         || state_eqb (endp_state env) TCP_ENDPOINT_RESET)
     && negb (DataPending r)
  then (set_did_EOF r, [EndpointEOF])
  else (r, []).

(** Bro's counters of acknowledgements and gaps, over all connections. *)
Record GapStats := {
  tot_ack_events : Z; tot_ack_bytes : Z; tot_gap_events : Z; tot_gap_bytes : Z;
  last_ack_events : Z; last_ack_bytes : Z; last_gap_events : Z; last_gap_bytes : Z }.

(** [AckReceived].  [report_due]: a [gap_report] event is wanted and its time has come. *)
Definition AckReceived (report_due : bool) (seq : Z) (r : Reassembler) (g : GapStats)
    : option (Reassembler * GapStats * list Out) :=
  let seq := if (0 <? endp_FIN_cnt env) && (0 <=? seq_delta seq (endp_FIN_seq env))
             then int_add (endp_FIN_seq env) (-1) else seq in
  let bytes_covered := seq_delta seq (trim_seq r) in
  if bytes_covered <=? 0 then Some (r, g, [])
  else
    let test_active := negb (skip_deliveries r) && negb (Skipping env)
                       && state_eqb (endp_state env) TCP_ENDPOINT_ESTABLISHED
                       && state_eqb (peer_state env) TCP_ENDPOINT_ESTABLISHED in
    match TrimToSeq call_depth seq r with
    | None => None
    | Some (r, out1, num_missing) =>
        let '(g, out2) :=
          if test_active then
            let gap := 0 <? num_missing in
            let g := {| tot_ack_events := wrap 32 (tot_ack_events g + 1);
                        tot_ack_bytes := wrap 32 (tot_ack_bytes g + bytes_covered);
                        tot_gap_events := if gap then wrap 32 (tot_gap_events g + 1) else tot_gap_events g;
                        tot_gap_bytes := if gap then wrap 32 (tot_gap_bytes g + num_missing) else tot_gap_bytes g;
                        last_ack_events := last_ack_events g; last_ack_bytes := last_ack_bytes g;
                        last_gap_events := last_gap_events g; last_gap_bytes := last_gap_bytes g |} in
            let above := if gap then [ack_above_hole] else [] in
            if report_due then
              ({| tot_ack_events := tot_ack_events g; tot_ack_bytes := tot_ack_bytes g;
                  tot_gap_events := tot_gap_events g; tot_gap_bytes := tot_gap_bytes g;
                  last_ack_events := tot_ack_events g; last_ack_bytes := tot_ack_bytes g;
                  last_gap_events := tot_gap_events g; last_gap_bytes := tot_gap_bytes g |},
               above ++ [gap_report (seq_delta (tot_ack_events g) (last_ack_events g))
                                    (seq_delta (tot_ack_bytes g) (last_ack_bytes g))
                                    (seq_delta (tot_gap_events g) (last_gap_events g))
                                    (seq_delta (tot_gap_bytes g) (last_gap_bytes g))])
            else (g, above)
          else (g, []) in
        let '(r, out3) := CheckEOF r in
        Some (r, g, out1 ++ out2 ++ out3)
    end.

(** [SizeBufferedData]: the bytes waiting on a hole, and those waiting on an ack. *)
Definition SizeBufferedData (r : Reassembler) : Z * Z :=
  fold_left (fun '(hole, ack) b =>
               if seq_delta (db_seq b) (last_reassem_seq r) <=? 0
               then (hole, int_add ack (Size b)) else (int_add hole (Size b), ack)) (blocks r) (0, 0).

(** [TotalSize] *)
Definition TotalSize (r : Reassembler) : Z :=
  fold_left (fun size b => int_add size (Size b)) (blocks r) 0.

(** [SetContentsFile], of a file that is open: what it writes. *)
Definition SetContentsFile (r : Reassembler) : list Out :=
  if recording env then []
  else match blocks r with
       | b :: _ => RecordToSeq (db_seq b) (last_reassem_seq r) r
       | [] => []
       end.

(** [Done] *)
Definition Done (r : Reassembler) : list Out :=
  MatchUndelivered (-1) r ++
  (if recording env then
     match last_block (blocks r) with
     | Some lb => if seq_delta (last_reassem_seq r) (db_upper lb) <? 0
                  then RecordToSeq (last_reassem_seq r) (db_upper lb) r else []
     | None => []
     end
   else []).

End Operations.
