(* ===== verification/ReassemThms.v ===== *)
(** * Reassembly is exact

    Theorems on [Reassem]: whatever the order of the segments, their overlaps and their
    duplicates, the analyzers are given the bytes of the stream in order up to the first
    that is missing; where two copies differ, the first wins. *)
From S2P Require Import Prelude Bytes CLib Reassem.
From Stdlib Require Import String ZArith Lia List Bool.
Import ListNotations.
Open Scope Z_scope.
Open Scope list_scope.

(** ** Streams of less than 2 GB

    While all numbers are below 2^31, [seq_delta] is the difference. *)

Abbreviation SEQ_LIMIT := 2147483648.

Lemma swrap_small x : - SEQ_LIMIT <= x < SEQ_LIMIT -> swrap 32 x = x.
Proof. intros H. unfold swrap. rewrite Z.mod_small; change (2 ^ (32 - 1)) with SEQ_LIMIT; change (2 ^ 32) with (2 * SEQ_LIMIT); lia. Qed.

Lemma seq_delta_small a b : 0 <= a < SEQ_LIMIT -> 0 <= b < SEQ_LIMIT -> seq_delta a b = a - b.
Proof. intros Ha Hb. apply swrap_small. lia. Qed.

Lemma int_add_small a b : 0 <= a + b < SEQ_LIMIT -> int_add a b = a + b.
Proof. intros H. apply swrap_small. lia. Qed.

Ltac seqs := repeat (first [rewrite seq_delta_small by lia | rewrite int_add_small by lia]).

(** *** Parts of a stream

    [slice s a c] holds the bytes numbered [a] up to [c], the first byte having number 1. *)
Definition slice (s : list Z) (a c : Z) : list Z := firstn (Z.to_nat (c - a)) (skipn (Z.to_nat (a - 1)) s).

Definition stream_end (s : list Z) : Z := 1 + Z.of_nat (length s).

#[global] Arguments slice : simpl never.
#[global] Arguments stream_end : simpl never.
#[global] Arguments seq_delta : simpl never.
#[global] Arguments int_add : simpl never.

Lemma slice_length s a c : 1 <= a <= c -> c <= stream_end s -> Z.of_nat (length (slice s a c)) = c - a.
Proof. unfold stream_end, slice. intros. rewrite length_firstn, length_skipn. lia. Qed.

Lemma slice_skip s a c n : 1 <= a -> 0 <= n -> skipn (Z.to_nat n) (slice s a c) = slice s (a + n) c.
Proof.
  intros Ha Hn. unfold slice. rewrite skipn_firstn_comm, skipn_skipn. f_equal; [lia|]. f_equal. lia.
Qed.

Lemma slice_take s a c n : 0 <= n <= c - a -> firstn (Z.to_nat n) (slice s a c) = slice s a (a + n).
Proof. intros Hn. unfold slice. rewrite firstn_firstn. f_equal. lia. Qed.

Lemma slice_full s a c n : n = c - a -> firstn (Z.to_nat n) (slice s a c) = slice s a c.
Proof. intros ->. unfold slice. rewrite firstn_firstn. f_equal. lia. Qed.

Lemma slice_app s a b c : 1 <= a <= b -> b <= c -> slice s a b ++ slice s b c = slice s a c.
Proof.
  intros Ha Hb. unfold slice. replace (Z.to_nat (b - 1)) with (Z.to_nat (b - a) + Z.to_nat (a - 1))%nat by lia.
  rewrite <- skipn_skipn. set (t := skipn (Z.to_nat (a - 1)) s).
  replace (Z.to_nat (c - a)) with (Z.to_nat (b - a) + Z.to_nat (c - b))%nat by lia.
  rewrite <- (firstn_skipn (Z.to_nat (b - a)) (firstn (Z.to_nat (b - a) + Z.to_nat (c - b)) t)).
  rewrite firstn_firstn, skipn_firstn_comm. f_equal; f_equal; lia.
Qed.

Lemma slice_empty s a : slice s a a = [].
Proof. unfold slice. now rewrite Z.sub_diag. Qed.

Lemma slice_prefix s n : 1 <= n -> slice s 1 n = firstn (Z.to_nat (n - 1)) s.
Proof. intros. reflexivity. Qed.

(** *** Blocks in order *)

Fixpoint ordered (lo : Z) (bs : list DataBlock) (hi : Z) : Prop :=
  match bs with
  | [] => lo <= hi
  | b :: next => lo <= db_seq b /\ db_seq b < db_upper b /\ ordered (db_upper b) next hi
  end.

Definition holds (p : Z) (b : DataBlock) : Prop := db_seq b <= p < db_upper b.
Definition covered (bs : list DataBlock) (p : Z) : Prop := Exists (holds p) bs.

(** The block holds the stream's bytes. *)
Definition block_of (s : list Z) (b : DataBlock) : Prop := db_block b = slice s (db_seq b) (db_upper b).

Lemma ordered_bounds lo bs hi : ordered lo bs hi -> lo <= hi.
Proof. revert lo. induction bs as [|b bs IH]; simpl; intros lo H; [exact H|]. destruct H as (? & ? & H). apply IH in H. lia. Qed.

Lemma ordered_weaken lo lo' bs hi : ordered lo bs hi -> lo' <= lo -> ordered lo' bs hi.
Proof. destruct bs; simpl; intuition lia. Qed.

Lemma ordered_app lo a b hi mid : ordered lo a mid -> ordered mid b hi -> ordered lo (a ++ b) hi.
Proof.
  revert lo. induction a as [|x a IH]; simpl; intros lo Ha Hb.
  - now apply ordered_weaken with mid.
  - intuition.
Qed.

Lemma ordered_split lo a b hi : ordered lo (a ++ b) hi -> exists mid, ordered lo a mid /\ ordered mid b hi.
Proof.
  revert lo. induction a as [|x a IH]; simpl; intros lo H.
  - exists lo. split; [lia|assumption].
  - destruct H as (H1 & H2 & H3). destruct (IH _ H3) as (mid & ? & ?). exists mid. auto.
Qed.

Lemma covered_app a b p : covered (a ++ b) p <-> covered a p \/ covered b p.
Proof. apply Exists_app. Qed.

Lemma covered_cons b bs p : covered (b :: bs) p <-> holds p b \/ covered bs p.
Proof. apply Exists_cons. Qed.

Lemma covered_nil p : covered [] p <-> False.
Proof. apply Exists_nil. Qed.

Lemma covered_bounds lo bs hi p : ordered lo bs hi -> covered bs p -> lo <= p < hi.
Proof.
  revert lo. induction bs as [|b bs IH]; simpl; intros lo H C.
  - now apply covered_nil in C.
  - destruct H as (H1 & H2 & H3). pose proof (ordered_bounds _ _ _ H3). apply covered_cons in C as [C|C].
    + unfold holds in C. lia.
    + specialize (IH _ H3 C). lia.
Qed.

Lemma find_block_spec seq bs before rest :
  find_block seq bs = (before, rest) -> bs <> [] ->
  bs = before ++ rest /\ (exists b next, rest = b :: next /\ (next = [] \/ 0 < seq_delta (db_upper b) seq)) /\
  Forall (fun b => seq_delta (db_upper b) seq <= 0) before /\
  (before = [] -> forall b b' next, rest = b :: b' :: next -> 0 < seq_delta (db_upper b) seq).
Proof.
  revert before rest. induction bs as [|b bs IH]; intros before rest E N; [easy|].
  destruct bs as [|b' bs].
  { injection E as <- <-. repeat split; eauto. discriminate. }
  change (find_block seq (b :: b' :: bs)) with
    (if seq_delta (db_upper b) seq <=? 0
     then let '(before, rest) := find_block seq (b' :: bs) in (b :: before, rest) else ([], b :: b' :: bs)) in E.
  destruct (Z.leb_spec (seq_delta (db_upper b) seq) 0) as [Hle|Hgt].
  - destruct (find_block seq (b' :: bs)) as [bf r] eqn:F. injection E as <- <-.
    destruct (IH _ _ eq_refl ltac:(discriminate)) as (H1 & H2 & H3 & _).
    rewrite H1. repeat split; auto. discriminate.
  - injection E as <- <-. repeat split; auto.
    + exists b, (b' :: bs). auto.
    + intros _ x y z [= <- <- <-]. assumption.
Qed.

Lemma last_block_snoc bs b : last_block (bs ++ [b]) = Some b.
Proof. unfold last_block. now rewrite rev_app_distr. Qed.

Lemma ordered_last lo bs hi b : ordered lo bs hi -> last_block bs = Some b -> ordered lo bs (db_upper b) /\ db_upper b <= hi.
Proof.
  intros H L. destruct bs as [|x bs _] using rev_ind; [discriminate|].
  rewrite last_block_snoc in L. injection L as ->.
  apply ordered_split in H as (mid & H1 & H2). simpl in H2. split; [|lia].
  apply ordered_app with mid; [assumption|]. simpl. lia.
Qed.

Lemma ordered_until lo bs hi x : ordered lo bs hi -> Forall (fun b => db_upper b <= x) bs -> lo <= x -> ordered lo bs x.
Proof.
  revert lo. induction bs as [|b bs IH]; simpl; intros lo H F L; [assumption|].
  inversion F; subst. intuition.
Qed.

Lemma ordered_Forall lo bs hi : ordered lo bs hi -> Forall (fun b => lo <= db_seq b /\ db_seq b < db_upper b /\ db_upper b <= hi) bs.
Proof.
  revert lo. induction bs as [|b bs IH]; simpl; intros lo H; [constructor|].
  destruct H as (H1 & H2 & H3). pose proof (ordered_bounds _ _ _ H3). constructor; [lia|].
  eapply Forall_impl; [|apply (IH _ H3)]. simpl. lia.
Qed.

Lemma new_block_slice s a c n :
  0 <= n <= c - a -> 0 <= a -> a + n < SEQ_LIMIT ->
  new_DataBlock (slice s a c) n a = Block a (a + n) (slice s a (a + n)).
Proof. intros. unfold new_DataBlock. rewrite slice_take by lia. seqs. reflexivity. Qed.

(** What an insertion of the bytes [seq] up to [upper] achieves. *)
Definition inserted (s : list Z) (lo hi : Z) (bs : list DataBlock) (seq upper : Z) (a : Added) : Prop :=
  ordered lo (ad_blocks a) hi /\
  Forall (block_of s) (ad_blocks a) /\
  (forall p, covered (ad_blocks a) p <-> covered bs p \/ seq <= p < upper) /\
  Forall (fun o => fst o = snd o) (ad_overlaps a) /\
  Forall (fun b => In b bs \/ seq <= db_seq b) (ad_blocks a) /\
  exists b, nth_error (ad_blocks a) (ad_start a) = Some b /\
    forall l, seq <= l < upper -> ~ covered bs l -> (forall p, seq <= p < l -> covered bs p) -> db_seq b = l.

(** A new block in the gap between two parts of the list. *)
Lemma inserted_between s lo hi before rest seq upper :
  ordered lo before seq -> ordered upper rest hi -> seq < upper ->
  Forall (block_of s) (before ++ rest) ->
  inserted s lo hi (before ++ rest) seq upper
    {| ad_blocks := before ++ Block seq upper (slice s seq upper) :: rest;
       ad_start := length before; ad_overlaps := [] |}.
Proof.
  intros Hb Hr Hs F. apply Forall_app in F as [F1 F2].
  unfold inserted; cbn [ad_blocks ad_start ad_overlaps]. repeat split.
  - apply ordered_app with seq; [assumption|]. cbn [ordered db_seq db_upper]. repeat split; [lia|lia|assumption].
  - apply Forall_app. split; [assumption|]. now constructor.
  - rewrite !covered_app, covered_cons. unfold holds at 1. cbn. tauto.
  - rewrite !covered_app, covered_cons. unfold holds at 1. cbn. tauto.
  - constructor.
  - apply Forall_forall. intros b. rewrite !in_app_iff. intros [?|[<-|?]]; cbn; auto with zarith.
  - exists (Block seq upper (slice s seq upper)). split.
    + rewrite nth_error_app2, Nat.sub_diag by lia. reflexivity.
    + cbn. intros l Hl _ Hc. destruct (Z.eq_dec seq l); [assumption|].
      specialize (Hc seq ltac:(lia)). apply covered_app in Hc as [Hc|Hc].
      * pose proof (covered_bounds _ _ _ _ Hb Hc). lia.
      * pose proof (covered_bounds _ _ _ _ Hr Hc). lia.
Qed.

(** The overlapping bytes of a block are the same. *)
Lemma overlap_same s b seq upper n :
  block_of s b -> 1 <= db_seq b -> db_seq b <= seq -> 0 <= n -> seq + n <= db_upper b -> seq + n <= upper ->
  firstn (Z.to_nat n) (skipn (Z.to_nat (seq - db_seq b)) (db_block b)) = firstn (Z.to_nat n) (slice s seq upper).
Proof.
  unfold block_of. intros -> H1 H2 Hn Hb Hu. rewrite slice_skip, !slice_take by lia. f_equal; lia.
Qed.

Definition passed (bs : list DataBlock) (seq : Z) : nat :=
  match bs with b :: _ => if db_upper b <=? seq then 0 else 1 | [] => 0 end.

(** The new data ends within the block [b], possibly after a prefix of its own. *)
Lemma inserted_within s lo hi before b rest seq upper :
  ordered lo before seq -> ordered lo (before ++ b :: rest) hi -> seq < upper -> lo <= seq ->
  seq < db_upper b -> db_seq b < upper <= db_upper b -> Forall (block_of s) (before ++ b :: rest) ->
  forall o, fst o = snd o ->
  inserted s lo hi (before ++ b :: rest) seq upper
    {| ad_blocks := before ++ (if seq <? db_seq b then [Block seq (db_seq b) (slice s seq (db_seq b))] else []) ++ b :: rest;
       ad_start := length before; ad_overlaps := [o] |}.
Proof.
  intros Hb Ho Hs Hlo Hsb Hub F o Eo.
  pose proof (ordered_split _ _ _ _ Ho) as (mid & Ho1 & Ho2). destruct (Z.ltb_spec seq (db_seq b)).
  - assert (Hr : ordered (db_seq b) (b :: rest) hi) by (cbn in *; intuition lia).
    pose proof (inserted_between s lo hi before (b :: rest) seq (db_seq b) Hb Hr ltac:(lia) F) as I.
    destruct I as (I1 & I2 & I3 & _ & I4 & x & I5 & I6). cbn [ad_blocks ad_start] in *.
    unfold inserted; cbn [ad_blocks ad_start ad_overlaps app]. repeat split; auto.
    + rewrite I3. intros [C|C]; [now left|right; lia].
    + rewrite I3. intros [C|C]; [now left|]. destruct (Z_lt_dec p (db_seq b)); [right; lia|].
      left. apply covered_app. right. apply covered_cons. left. unfold holds. lia.
    + exists x. split; [assumption|]. intros l Hl Hn Hc. apply I6; auto. split; [lia|].
      destruct (Z_lt_dec l (db_seq b)); [assumption|]. exfalso. apply Hn.
      apply covered_app. right. apply covered_cons. left. unfold holds. lia.
  - unfold inserted; cbn [ad_blocks ad_start ad_overlaps app]. repeat split; auto.
    + intros [C|C]; [assumption|]. apply covered_app. right. apply covered_cons. left. unfold holds. lia.
    + apply Forall_forall. auto.
    + exists b. split.
      * rewrite nth_error_app2, Nat.sub_diag by lia. reflexivity.
      * intros l Hl Hn. exfalso. apply Hn. apply covered_app. right. apply covered_cons. left. unfold holds. lia.
Qed.

(** The new data goes on beyond the block [b], and its rest is inserted after [b]. *)
Lemma inserted_beyond s lo hi before b rest seq upper a :
  ordered lo before seq -> ordered lo (before ++ b :: rest) hi -> lo <= seq ->
  seq < db_upper b < upper -> Forall (block_of s) (before ++ b :: rest) ->
  inserted s (db_seq b) hi (b :: rest) (db_upper b) upper a ->
  forall o, fst o = snd o ->
  inserted s lo hi (before ++ b :: rest) seq upper
    {| ad_blocks := before ++ (if seq <? db_seq b then [Block seq (db_seq b) (slice s seq (db_seq b))] else [])
                           ++ ad_blocks a;
       ad_start := if seq <? db_seq b then length before else length before + ad_start a;
       ad_overlaps := o :: ad_overlaps a |}.
Proof.
  intros Hb Ho Hlo Hs F (A1 & A2 & A3 & A4 & A7 & x & A5 & A6) o Eo.
  pose proof (ordered_split _ _ _ _ Ho) as (mid & Ho1 & O1 & O2 & O3). apply Forall_app in F as [F1 F2].
  assert (Hcov : forall p, covered before p -> p < seq) by (intros p C; pose proof (covered_bounds _ _ _ _ Hb C); lia).
  assert (Hbp : forall p, db_seq b <= p < db_upper b -> covered (before ++ b :: rest) p)
    by (intros p Hp; apply covered_app; right; apply covered_cons; left; exact Hp).
  assert (Ain : forall x, In x before \/ In x (ad_blocks a) -> In x (before ++ b :: rest) \/ seq <= db_seq x).
  { intros y [Hy|Hy]; rewrite in_app_iff; [auto|]. rewrite Forall_forall in A7. destruct (A7 y Hy); [auto|right; lia]. }
  unfold inserted; cbn [ad_blocks ad_start ad_overlaps]. destruct (Z.ltb_spec seq (db_seq b)) as [Hp|Hp].
  - split; [|split; [|split; [|split; [|split]]]].
    + apply ordered_app with seq; [assumption|]. cbn. repeat split; [lia|lia|assumption].
    + apply Forall_app. split; [assumption|]. now constructor.
    + intros p. cbn [app]. rewrite !covered_app, (covered_cons _ (ad_blocks a)), A3. unfold holds. cbn [db_seq db_upper].
      specialize (Hbp p). rewrite covered_app in Hbp.
      split; [intros [C|[C|[C|C]]]; [auto|right; lia|now left; right|right; lia]|]. intros [[C|C]|C]; auto.
      destruct (Z_lt_dec p (db_seq b)); [right; left; lia|]. destruct (Z_lt_dec p (db_upper b)).
      * destruct Hbp as [C'|C']; [lia|auto|auto].
      * right. right. right. lia.
    + now constructor.
    + apply Forall_forall. intros y. rewrite in_app_iff. intros [?|[<-|?]]; [auto|cbn; auto with zarith|auto].
    + exists (Block seq (db_seq b) (slice s seq (db_seq b))). split.
      * rewrite nth_error_app2, Nat.sub_diag by lia. reflexivity.
      * cbn. intros l Hl Hn Hc. destruct (Z.eq_dec seq l); [assumption|]. specialize (Hc seq ltac:(lia)).
        apply covered_app in Hc as [Hc|Hc]; [apply Hcov in Hc; lia|].
        apply (covered_bounds (db_seq b) (b :: rest) hi) in Hc; [lia|]. cbn. repeat split; [lia|lia|assumption].
  - cbn [app]. split; [|split; [|split; [|split; [|split]]]].
    + apply ordered_app with mid; [assumption|]. now apply ordered_weaken with (db_seq b).
    + now apply Forall_app.
    + intros p. rewrite !covered_app, A3. specialize (Hbp p). rewrite covered_app in Hbp.
      split; [intros [C|[C|C]]; [auto|auto|right; lia]|]. intros [[C|C]|C]; auto. destruct (Z_lt_dec p (db_upper b)).
      * destruct Hbp as [C'|C']; [lia|auto|auto].
      * right. right. lia.
    + now constructor.
    + apply Forall_forall. intros y. rewrite in_app_iff. auto.
    + exists x. split.
      * rewrite nth_error_app2 by lia. rewrite Nat.add_comm, Nat.add_sub. assumption.
      * intros l Hl Hn Hc. apply A6.
        -- destruct (Z_lt_dec l (db_upper b)); [|lia]. exfalso. apply Hn, Hbp. lia.
        -- intros C. apply Hn. apply covered_app. now right.
        -- intros p Hpl. specialize (Hc p ltac:(lia)). apply covered_app in Hc as [Hc|Hc]; [|assumption].
           apply Hcov in Hc. lia.
Qed.

(** Where [find_block] stops in a list in order. *)
Lemma find_block_ordered lo bs hi seq :
  hi < SEQ_LIMIT -> bs <> [] -> ordered lo bs hi -> 1 <= lo <= seq -> seq < SEQ_LIMIT ->
  exists before b next, find_block seq bs = (before, b :: next) /\ bs = before ++ b :: next /\
    ordered lo before seq /\ ordered (db_seq b) (b :: next) hi /\
    1 <= db_seq b < db_upper b /\ db_upper b <= hi /\
    (db_upper b <= seq -> next = [] /\ ordered lo bs seq) /\ (before = [] -> next <> [] -> seq < db_upper b).
Proof.
  intros Hhi N Ho Hlo Hs. destruct (find_block seq bs) as [before rest] eqn:Fb.
  destruct (find_block_spec _ _ _ _ Fb N) as (-> & (b & next & -> & Hnext) & Hbefore & Hpassed).
  pose proof (ordered_Forall _ _ _ Ho) as HoF. apply Forall_app in HoF as [HoF1 HoF2].
  inversion HoF2 as [|? ? Hbb _]; subst. pose proof (ordered_split _ _ _ _ Ho) as (mid & Ho1 & O1 & O2 & O3).
  assert (Hb : ordered lo before seq).
  { apply ordered_until with mid; [assumption| |lia]. rewrite Forall_forall in *. intros x Hx.
    specialize (Hbefore x Hx). specialize (HoF1 x Hx). rewrite seq_delta_small in Hbefore by lia. lia. }
  rewrite (seq_delta_small (db_upper b) seq) in * by lia.
  exists before, b, next. repeat split; auto; try lia.
  - destruct Hnext; [assumption|lia].
  - destruct Hnext as [->|]; [|lia]. apply ordered_app with mid; [assumption|]. cbn. lia.
  - intros Hb0 Hn. destruct next as [|b' next]; [easy|]. specialize (Hpassed Hb0 _ _ _ eq_refl).
    rewrite seq_delta_small in Hpassed by lia. lia.
Qed.

(** The part of the new data before a block that it overlaps. *)
Definition prefix_before (b : DataBlock) (seq : Z) (data : list Z) : list DataBlock :=
  if seq <? db_seq b then [new_DataBlock data (db_seq b - seq) seq] else [].

(** The overlapping case of [AddAndCheck], with the differences written out. *)
Lemma AddAndCheck_overlap fuel bs lo hi seq upper data before b next :
  hi < SEQ_LIMIT -> 1 <= lo <= seq -> seq < upper <= hi -> ordered lo bs hi ->
  (match last_block bs with Some lb => seq =? db_upper lb | None => false end) = false ->
  find_block seq bs = (before, b :: next) -> 1 <= db_seq b < db_upper b -> db_upper b <= hi ->
  seq < db_upper b -> db_seq b < upper ->
  let seq' := Z.max seq (db_seq b) in
  let data' := skipn (Z.to_nat (seq' - seq)) data in
  let n := Z.min upper (db_upper b) - seq' in
  let overlap := (firstn (Z.to_nat n) (skipn (Z.to_nat (seq' - db_seq b)) (db_block b)), firstn (Z.to_nat n) data') in
  AddAndCheck (S fuel) bs seq upper data =
  if db_upper b <? upper
  then match AddAndCheck fuel (b :: next) (db_upper b) upper (skipn (Z.to_nat n) data') with
       | None => None
       | Some a => Some {| ad_blocks := before ++ prefix_before b seq data ++ ad_blocks a;
                           ad_start := if seq <? db_seq b then length before else length before + ad_start a;
                           ad_overlaps := overlap :: ad_overlaps a |}
       end
  else Some {| ad_blocks := before ++ prefix_before b seq data ++ b :: next;
               ad_start := length before; ad_overlaps := [overlap] |}.
Proof.
  intros Hhi Hlo Hs Ho E Fb Hb1 Hb2 Hb3 Hb4 seq' data' n overlap. cbn [AddAndCheck]. rewrite E, Fb.
  rewrite (seq_delta_small (db_upper b) seq), (seq_delta_small upper (db_seq b)) by lia.
  rewrite (proj2 (Z.leb_gt (db_upper b - seq) 0)), (proj2 (Z.leb_gt (upper - db_seq b) 0)) by lia.
  assert (Hlt : (seq_delta seq (db_seq b) <? 0) = (seq <? db_seq b)).
  { seqs. destruct (Z.ltb_spec seq (db_seq b)), (Z.ltb_spec (seq - db_seq b) 0); lia || reflexivity. }
  assert (Hp : (if seq_delta seq (db_seq b) <? 0 then seq_delta (db_seq b) seq else 0) = seq' - seq).
  { rewrite Hlt. seqs. destruct (Z.ltb_spec seq (db_seq b)); lia. }
  rewrite Hp, Hlt, (int_add_small seq (seq' - seq)) by lia. replace (seq + (seq' - seq)) with seq' by lia.
  assert (Hpre : (if seq <? db_seq b then [new_DataBlock data (seq' - seq) seq] else []) = prefix_before b seq data).
  { unfold prefix_before. destruct (Z.ltb_spec seq (db_seq b)); [|reflexivity]. do 3 f_equal. lia. }
  rewrite Hpre. fold data'. seqs.
  replace (Z.min (upper - seq') (db_upper b - seq')) with n by lia. fold overlap.
  assert (Hc : (n <? upper - seq') = (db_upper b <? upper)).
  { destruct (Z.ltb_spec n (upper - seq')), (Z.ltb_spec (db_upper b) upper); lia || reflexivity. }
  rewrite Hc. destruct (Z.ltb_spec (db_upper b) upper); [|reflexivity].
  now replace (seq' + n) with (db_upper b) by lia.
Qed.

(** [AddAndCheck] inserts the new bytes, keeps the order, and finds every overlap equal. *)
Lemma AddAndCheck_spec s hi fuel bs lo seq upper :
  hi < SEQ_LIMIT -> bs <> [] -> (length bs + passed bs seq <= fuel)%nat ->
  ordered lo bs hi -> 1 <= lo <= seq -> seq < upper <= hi -> Forall (block_of s) bs ->
  exists a, AddAndCheck fuel bs seq upper (slice s seq upper) = Some a /\ inserted s lo hi bs seq upper a.
Proof.
  intros Hhi. revert bs lo seq. induction fuel as [|fuel IH]; intros bs lo seq N Hf Ho Hlo Hs F.
  { destruct bs; cbn in Hf; [easy|lia]. }
  assert (App : ordered lo bs seq -> exists a,
      Some {| ad_blocks := bs ++ [new_DataBlock (slice s seq upper) (int_add upper (- seq)) seq];
              ad_start := length bs; ad_overlaps := [] |} = Some a /\ inserted s lo hi bs seq upper a).
  { intros Hb. eexists. split; [reflexivity|]. seqs. rewrite new_block_slice by lia.
    replace (seq + (upper + - seq)) with upper by lia.
    pose proof (inserted_between s lo hi bs [] seq upper Hb ltac:(cbn; lia) ltac:(lia)) as I.
    rewrite app_nil_r in I. now apply I. }
  destruct (find_block_ordered lo bs hi seq) as (before & b & next & Fb & Ebs & Hb & Hbn & Hb1 & Hb2 & Hend & Hpass); auto; [lia|].
  destruct (match last_block bs with Some lb => seq =? db_upper lb | None => false end) eqn:E.
  { cbn [AddAndCheck]. rewrite E. apply App. destruct (last_block bs) as [lb|] eqn:L; [|discriminate].
    apply Z.eqb_eq in E. subst. now apply (ordered_last _ _ _ _ Ho L). }
  assert (Fb0 : block_of s b) by (subst bs; apply Forall_app in F as [_ F]; now inversion F).
  destruct (Z_lt_dec seq (db_upper b)) as [Hsb|Hsb]; [destruct (Z_lt_dec (db_seq b) upper) as [Hbu|Hbu]|].
  - rewrite (AddAndCheck_overlap fuel bs lo hi seq upper _ before b next) by (auto || lia).
    assert (Hpre : prefix_before b seq (slice s seq upper)
                   = if seq <? db_seq b then [Block seq (db_seq b) (slice s seq (db_seq b))] else []).
    { unfold prefix_before. destruct (Z.ltb_spec seq (db_seq b)); [|reflexivity].
      rewrite new_block_slice by lia. now replace (seq + (db_seq b - seq)) with (db_seq b) by lia. }
    rewrite Hpre, !slice_skip by lia. set (seq' := Z.max seq (db_seq b)). replace (seq + (seq' - seq)) with seq' by lia.
    subst bs. destruct (Z.ltb_spec (db_upper b) upper) as [Hrec|Hin].
    + rewrite Z.min_r by lia. replace (seq' + (db_upper b - seq')) with (db_upper b) by lia.
      destruct (IH (b :: next) (db_seq b) (db_upper b)) as (a & -> & Ha); auto; try lia; [discriminate| |now apply Forall_app in F|].
      * unfold passed in *. rewrite Z.leb_refl. rewrite length_app in Hf. destruct before; cbn in Hf |- *; [|lia].
        rewrite (proj2 (Z.leb_gt _ _)) in Hf by lia. lia.
      * eexists. split; [reflexivity|]. apply inserted_beyond; auto; try lia. cbn. apply overlap_same; auto; lia.
    + eexists. split; [reflexivity|]. apply inserted_within; auto; try lia. cbn. apply overlap_same; auto; lia.
  - cbn [AddAndCheck]. rewrite E, Fb. seqs.
    rewrite (proj2 (Z.leb_gt (db_upper b - seq) 0)), (proj2 (Z.leb_le (upper - db_seq b) 0)) by lia.
    eexists. split; [reflexivity|]. rewrite new_block_slice by lia.
    replace (seq + (upper - seq)) with upper by lia. subst bs. apply inserted_between; auto; [|lia].
    cbn in Hbn |- *. intuition lia.
  - cbn [AddAndCheck]. rewrite E, Fb, (seq_delta_small (db_upper b) seq) by lia.
    rewrite (proj2 (Z.leb_le (db_upper b - seq) 0)) by lia. apply App. apply Hend. lia.
Qed.

(** *** Differing copies

    Two byte strings for the same place that agree wherever no block is. *)
Definition agree (bs : list DataBlock) (seq upper : Z) (d1 d2 : list Z) : Prop :=
  Z.of_nat (length d1) = upper - seq /\ length d2 = length d1 /\
  forall i, (i < length d1)%nat -> ~ covered bs (seq + Z.of_nat i) -> nth i d1 0 = nth i d2 0.

Lemma nth_skip n i (d : list Z) : nth i (skipn n d) 0 = nth (n + i) d 0.
Proof. revert d. induction n as [|n IH]; intros [|x d]; cbn; auto. now destruct i. Qed.

Lemma nth_take n i (d : list Z) : (i < n)%nat -> nth i (firstn n d) 0 = nth i d 0.
Proof. revert i d. induction n as [|n IH]; intros [|i] [|x d] H; cbn; auto; try lia. apply IH. lia. Qed.

Lemma agree_skip bs seq upper n d1 d2 :
  0 <= n <= upper - seq -> agree bs seq upper d1 d2 ->
  agree bs (seq + n) upper (skipn (Z.to_nat n) d1) (skipn (Z.to_nat n) d2).
Proof.
  intros Hn (A1 & A2 & A3). unfold agree. rewrite !length_skipn. repeat split; [lia|lia|].
  intros i Hi C. rewrite !nth_skip. apply A3; [lia|]. now replace (seq + Z.of_nat (Z.to_nat n + i)) with (seq + n + Z.of_nat i) by lia.
Qed.

(** They agree at a prefix where no block is. *)
Lemma agree_take bs seq upper n d1 d2 :
  n <= upper - seq -> (forall p, seq <= p < seq + n -> ~ covered bs p) -> agree bs seq upper d1 d2 ->
  firstn (Z.to_nat n) d1 = firstn (Z.to_nat n) d2.
Proof.
  intros Hn Hc (A1 & A2 & A3). apply nth_ext with 0 0; rewrite !length_firstn; [lia|].
  intros i Hi. rewrite !nth_take by lia. apply A3; [lia|]. apply Hc. lia.
Qed.

Lemma agree_sub bs bs' seq upper d1 d2 :
  (forall p, seq <= p < upper -> covered bs p -> covered bs' p) -> agree bs seq upper d1 d2 -> agree bs' seq upper d1 d2.
Proof.
  intros H (A1 & A2 & A3). repeat split; auto. intros i Hi C. apply A3; auto. intros C'. apply C, H; auto. lia.
Qed.

Definition placed (a : option Added) : option (list DataBlock * nat) :=
  option_map (fun a => (ad_blocks a, ad_start a)) a.

(** Only the bytes at free places are stored. *)
Lemma AddAndCheck_agree hi fuel bs lo seq upper d1 d2 :
  hi < SEQ_LIMIT -> ordered lo bs hi -> 1 <= lo <= seq -> seq < upper <= hi -> agree bs seq upper d1 d2 ->
  placed (AddAndCheck fuel bs seq upper d1) = placed (AddAndCheck fuel bs seq upper d2).
Proof.
  intros Hhi. revert bs lo seq d1 d2. induction fuel as [|fuel IH]; intros bs lo seq d1 d2 Ho Hlo Hs A; [reflexivity|].
  destruct (list_eq_dec Z.eq_dec d1 d2) as [->|Hne]; [reflexivity|].
  assert (Hnew : forall n, (forall p, seq <= p < seq + n -> ~ covered bs p) -> n <= upper - seq ->
    new_DataBlock d1 n seq = new_DataBlock d2 n seq).
  { intros n Hc Hn. unfold new_DataBlock. f_equal. now apply (agree_take bs seq upper). }
  assert (App : ordered lo bs seq -> new_DataBlock d1 (int_add upper (- seq)) seq = new_DataBlock d2 (int_add upper (- seq)) seq).
  { intros H. seqs. apply Hnew; [|lia]. intros p Hp C. pose proof (covered_bounds _ _ _ _ H C). lia. }
  destruct bs as [|b0 bs0]; [reflexivity|]. remember (b0 :: bs0) as bs eqn:Ebs0.
  destruct (find_block_ordered lo bs hi seq) as (before & b & next & Fb & Ebs & Hb & Hbn & Hb1 & Hb2 & Hend & _); auto;
    [now subst|lia|].
  destruct (match last_block bs with Some lb => seq =? db_upper lb | None => false end) eqn:E.
  { cbn [AddAndCheck]. rewrite E. cbn. rewrite App; [reflexivity|].
    destruct (last_block bs) as [lb|] eqn:L; [|discriminate]. apply Z.eqb_eq in E. subst.
    now apply (ordered_last _ _ _ _ Ho L). }
  assert (Hfree : forall p, seq <= p < db_seq b -> ~ covered bs p).
  { intros p Hp C. rewrite Ebs in C. apply covered_app in C as [C|C];
      [pose proof (covered_bounds _ _ _ _ Hb C)|pose proof (covered_bounds _ _ _ _ Hbn C)]; lia. }
  destruct (Z_lt_dec seq (db_upper b)) as [Hsb|Hsb]; [destruct (Z_lt_dec (db_seq b) upper) as [Hbu|Hbu]|].
  - rewrite !(AddAndCheck_overlap fuel bs lo hi seq upper _ before b next) by (auto || lia).
    assert (Hpre : prefix_before b seq d1 = prefix_before b seq d2).
    { unfold prefix_before. destruct (Z.ltb_spec seq (db_seq b)); [|reflexivity]. rewrite Hnew; [reflexivity| |lia].
      intros p Hp. apply Hfree. lia. }
    rewrite Hpre. destruct (Z.ltb_spec (db_upper b) upper) as [Hrec|Hin]; [|reflexivity].
    rewrite Z.min_r by lia. set (seq' := Z.max seq (db_seq b)).
    rewrite !skipn_skipn. replace (Z.to_nat (db_upper b - seq') + Z.to_nat (seq' - seq))%nat with (Z.to_nat (db_upper b - seq)) by lia.
    assert (Ab : agree (b :: next) (db_upper b) upper (skipn (Z.to_nat (db_upper b - seq)) d1)
                                                      (skipn (Z.to_nat (db_upper b - seq)) d2)).
    { apply agree_sub with bs.
      - intros p Hp C. rewrite Ebs in C. apply covered_app in C as [C|C]; [|assumption].
        pose proof (covered_bounds _ _ _ _ Hb C). lia.
      - replace (db_upper b) with (seq + (db_upper b - seq)) at 1 by lia. apply agree_skip; [lia|assumption]. }
    specialize (IH _ _ (db_upper b) _ _ Hbn ltac:(lia) ltac:(lia) Ab). unfold placed in *.
    destruct (AddAndCheck _ _ _ _ (skipn _ d1)), (AddAndCheck _ _ _ _ (skipn _ d2)); try discriminate; [|reflexivity].
    cbn in IH |- *. injection IH as -> ->. reflexivity.
  - cbn [AddAndCheck]. rewrite E, Fb. seqs.
    rewrite (proj2 (Z.leb_gt (db_upper b - seq) 0)), (proj2 (Z.leb_le (upper - db_seq b) 0)) by lia.
    cbn. rewrite Hnew; [reflexivity| |lia]. intros p Hp. apply Hfree. lia.
  - cbn [AddAndCheck]. rewrite E, Fb, (seq_delta_small (db_upper b) seq) by lia.
    rewrite (proj2 (Z.leb_le (db_upper b - seq) 0)) by lia. cbn. rewrite App; [reflexivity|]. apply Hend. lia.
Qed.

(** *** The bytes given to the analyzers *)

Definition delivered (out : list Out) : list Z :=
  concat (map (fun o => match o with Deliver d => d | _ => [] end) out).

#[global] Arguments delivered : simpl never.

(** Deliveries and copies of them, and reports of differing copies: no gap, nothing given up. *)
Definition harmless (o : Out) : Prop :=
  match o with
  | Deliver _ | tcp_contents _ _ | Record_ _ | EndpointEOF | gap_report _ _ _ _ | rexmit_inconsistency _ _ => True
  | _ => False
  end.

Definition is_rexmit (o : Out) : bool := match o with rexmit_inconsistency _ _ => true | _ => false end.
Definition is_deliver (o : Out) : bool := match o with Deliver _ => true | _ => false end.

Lemma delivered_app a b : delivered (a ++ b) = delivered a ++ delivered b.
Proof. unfold delivered. now rewrite map_app, concat_app. Qed.

Lemma delivered_record (c : bool) d : delivered (if c then [Record_ d] else []) = [].
Proof. now destruct c. Qed.

Lemma delivered_contents (c : bool) a d : delivered (if c then [tcp_contents a d] else []) = [].
Proof. now destruct c. Qed.

(** The reassembler of a stream [s] while nothing had to be given up: blocks in order with
    the stream's bytes, and everything from [trim_seq] to [last_reassem_seq] still held. *)
Record synced (s : list Z) (r : Reassembler) : Prop := {
  sy_ordered : ordered 1 (blocks r) (stream_end s);
  sy_blocks : Forall (block_of s) (blocks r);
  sy_trim : 1 <= trim_seq r <= last_reassem_seq r;
  sy_last : last_reassem_seq r <= stream_end s;
  sy_held : forall p, trim_seq r <= p < last_reassem_seq r -> covered (blocks r) p;
  sy_above : Forall (fun b => trim_seq r < db_upper b) (blocks r);
  sy_deliver : skip_deliveries r = false;
  sy_skip : seq_to_skip r = 0 }.

(** The bytes that have arrived. *)
Definition received (r : Reassembler) (p : Z) : Prop := p < trim_seq r \/ covered (blocks r) p.

(** Nothing can be delivered. *)
Definition settled (r : Reassembler) : Prop := ~ covered (blocks r) (last_reassem_seq r).

Section Stream.

Context (s : list Z) (Hlimit : stream_end s < SEQ_LIMIT).
Context (env : REnv) (Hskip : forall seq d, r_skip_request env seq d = None).

Lemma DeliverBlock_all a c r :
  1 <= a < c -> c <= stream_end s -> skip_deliveries r = false -> seq_to_skip r = 0 ->
  DeliverBlock env a (c - a) (slice s a c) r =
  (r, (if deliver_tcp_contents env then [tcp_contents a (slice s a c)] else []) ++ [Deliver (slice s a c)]).
Proof.
  intros Ha Hc Hd Hs. unfold DeliverBlock. rewrite Hs, Hd. seqs.
  rewrite (proj2 (Z.leb_gt _ _)), (proj2 (Z.ltb_ge _ _)), Hskip by lia.
  cbn [Z.to_nat skipn]. rewrite Z.sub_0_r, slice_full by reflexivity. reflexivity.
Qed.

(** The run of a delivery over the blocks [bs] that leaves [last_reassem_seq] at [last]. *)
Definition delivers (bs : list DataBlock) (r : Reassembler) (last : Z) (out : list Out) : Prop :=
  last_reassem_seq r <= last <= stream_end s /\
  delivered out = slice s (last_reassem_seq r) last /\ Forall harmless out /\
  (forall p, last_reassem_seq r <= p < last -> covered bs p) /\ ~ covered bs last /\ existsb is_rexmit out = false.

Lemma delivers_none bs r :
  last_reassem_seq r <= stream_end s -> ~ covered bs (last_reassem_seq r) -> delivers bs r (last_reassem_seq r) [].
Proof. intros H1 H2. unfold delivers. rewrite slice_empty. repeat split; auto; lia. Qed.

Lemma deliver_blocks_spec bs r :
  ordered (last_reassem_seq r) bs (stream_end s) -> 1 <= last_reassem_seq r -> Forall (block_of s) bs ->
  skip_deliveries r = false -> seq_to_skip r = 0 ->
  exists last out,
    deliver_blocks env bs r = (set_last_reassem_seq last r, out) /\ delivers bs r last out.
Proof.
  revert r. induction bs as [|b bs IH]; intros r Ho Hl F Hd Hs.
  - exists (last_reassem_seq r), []. cbn [deliver_blocks]. cbn [ordered] in Ho.
    split; [now destruct r|]. apply delivers_none; [assumption|]. now rewrite covered_nil.
  - destruct Ho as (O1 & O2 & O3). inversion F as [|? ? Fb Fbs]; subst.
    pose proof (ordered_bounds _ _ _ O3) as Hup. cbn [deliver_blocks]. seqs.
    destruct (Z.leb_spec (db_seq b - last_reassem_seq r) 0) as [Hle|Hgt].
    + assert (E : db_seq b = last_reassem_seq r) by lia. rewrite E, Z.eqb_refl. unfold Size. rewrite E.
      assert (S1 : int_add (db_upper b) (- last_reassem_seq r) = db_upper b - last_reassem_seq r)
        by (rewrite int_add_small; lia).
      rewrite S1, int_add_small by lia.
      replace (last_reassem_seq r + (db_upper b - last_reassem_seq r)) with (db_upper b) by lia.
      unfold block_of in Fb. rewrite Fb, E. rewrite DeliverBlock_all by (auto || lia).
      destruct (IH (set_last_reassem_seq (db_upper b) r)) as (last & out & D & Hlast & Hout & Hh & Hc & Hn & X); auto.
      { cbn. lia. }
      rewrite D. cbn [last_reassem_seq set_last_reassem_seq] in *.
      eexists last, _. split; [reflexivity|]. split; [lia|]. split; [|split; [|split; [|split]]].
      * rewrite !delivered_app, Hout. rewrite <- (slice_app s (last_reassem_seq r) (db_upper b) last) by lia.
        rewrite delivered_record, delivered_contents.
        unfold delivered at 1. cbn. now rewrite app_nil_r.
      * rewrite !Forall_app. repeat split; auto.
        -- now destruct (recording env); repeat constructor.
        -- now destruct (deliver_tcp_contents env); repeat constructor.
        -- repeat constructor.
      * intros p Hp. apply covered_cons. destruct (Z_lt_dec p (db_upper b)); [left; unfold holds; lia|right; apply Hc; lia].
      * rewrite covered_cons. intros [C|C]; [unfold holds in C; lia|auto].
      * rewrite !existsb_app, X. now destruct (recording env), (deliver_tcp_contents env).
    + exists (last_reassem_seq r), []. split; [now destruct r|]. apply delivers_none; [lia|]. intros C. apply (covered_bounds (db_seq b) (b :: bs) (stream_end s)) in C; [lia|].
      cbn. repeat split; [lia|lia|assumption].
Qed.

Lemma trim_blocks_spec lo x bs :
  ordered lo bs (stream_end s) -> 1 <= lo -> 1 <= x <= stream_end s -> Forall (block_of s) bs ->
  let kept := fst (trim_blocks x bs) in
  ordered lo kept (stream_end s) /\ Forall (block_of s) kept /\ Forall (fun b => x < db_upper b) kept /\
  (forall p, covered kept p -> covered bs p) /\ (forall p, x <= p -> covered bs p -> covered kept p).
Proof.
  intros Ho Hlo Hx F. revert lo Ho Hlo F. induction bs as [|b bs IH]; intros lo (* *).
  { intros Ho _ _. cbn. repeat split; auto. }
  intros (O1 & O2 & O3) Hlo F. inversion F as [|? ? Fb Fbs]; subst. pose proof (ordered_bounds _ _ _ O3).
  specialize (IH _ O3 ltac:(lia) Fbs). cbn [trim_blocks]. seqs.
  destruct (Z.leb_spec (db_upper b - x) 0) as [Hle|Hgt].
  - destruct (trim_blocks x bs) as [kept m]. cbn [fst] in *. destruct IH as (I1 & I2 & I3 & I4 & I5).
    repeat split; auto.
    + apply ordered_weaken with (db_upper b); [assumption|lia].
    + intros p C. apply covered_cons. auto.
    + intros p Hp C. apply covered_cons in C as [C|C]; [unfold holds in C; lia|auto].
  - cbn [fst]. repeat split; auto. constructor; [lia|].
    eapply Forall_impl; [|apply (ordered_Forall _ _ _ O3)]. cbn beta. lia.
Qed.

(** Nothing is missing while the acknowledged bytes are held. *)
Lemma trim_blocks_none_missing lo t l x bs :
  ordered lo bs (stream_end s) -> 1 <= lo -> 1 <= x <= l -> l <= stream_end s ->
  (forall p, t <= p < l -> covered bs p) -> Forall (fun b => t < db_upper b) bs ->
  snd (trim_blocks x bs) = 0.
Proof.
  revert lo t. induction bs as [|b bs IH]; intros lo t Ho Hlo Hx Hl Hc Ht; [reflexivity|].
  destruct Ho as (O1 & O2 & O3). inversion Ht as [|? ? Htb Hts]; subst.
  pose proof (ordered_bounds _ _ _ O3). cbn [trim_blocks]. seqs.
  destruct (Z.leb_spec (db_upper b - x) 0) as [Hle|Hgt]; [|reflexivity].
  assert (Hc' : forall p, db_upper b <= p < l -> covered bs p).
  { intros p Hp. specialize (Hc p ltac:(lia)). apply covered_cons in Hc as [C|C]; [unfold holds in C; lia|assumption]. }
  assert (Hend : db_upper b < x -> covered bs (db_upper b)) by (intros; apply Hc'; lia).
  specialize (IH (db_upper b) (db_upper b) O3 ltac:(lia) Hx Hl Hc').
  destruct (trim_blocks x bs) as [kept m]. cbn [snd] in *. rewrite IH.
  2:{ eapply Forall_impl; [|apply (ordered_Forall _ _ _ O3)]. cbn beta. lia. }
  destruct bs as [|n bs].
  - destruct (Z.eqb_spec (db_upper b) x); [reflexivity|]. exfalso. apply (covered_nil (db_upper b)), Hend. lia.
  - destruct O3 as (O4 & O5 & O6). pose proof (ordered_bounds _ _ _ O6).
    assert (Hn : db_upper b < x -> db_seq n = db_upper b).
    { intros Hlt. specialize (Hend Hlt).
      apply (covered_bounds (db_seq n) (n :: bs) (stream_end s)) in Hend; [lia|]. cbn. repeat split; [lia|lia|assumption]. }
    seqs. destruct (Z.leb_spec (db_seq n - x) 0).
    + destruct (Z.eqb_spec (db_upper b) (db_seq n)); [reflexivity|]. exfalso.
      destruct (Z_lt_dec (db_upper b) x) as [Hlt|]; [specialize (Hn Hlt); lia|lia].
    + destruct (Z.eqb_spec (db_upper b) x); [reflexivity|]. specialize (Hn ltac:(lia)). lia.
Qed.

(** [TrimToSeq] of bytes that have all been delivered. *)
Lemma TrimToSeq_delivered n x r :
  synced s r -> settled r -> trim_seq r < x <= last_reassem_seq r ->
  exists r', TrimToSeq env (S n) x r = Some (r', [], 0) /\ synced s r' /\ settled r' /\
    last_reassem_seq r' = last_reassem_seq r /\ trim_seq r' = x /\ (forall p, received r' p <-> received r p).
Proof.
  intros [S1 S2 S3 S4 S5 S6 S7 S8] Hset Hx. unfold settled in Hset. cbn [TrimToSeq].
  assert (Hhole : initial_hole x r = 0).
  { unfold initial_hole. specialize (S5 (trim_seq r) ltac:(lia)). destruct (blocks r) as [|b bs].
    - now apply covered_nil in S5.
    - pose proof S1 as (O1 & O2 & O3). pose proof (ordered_bounds _ _ _ O3).
      apply (covered_bounds (db_seq b) (b :: bs) (stream_end s)) in S5; [seqs; lia|].
      cbn. repeat split; [lia|lia|assumption]. }
  seqs. rewrite (proj2 (Z.ltb_ge _ _)), Hhole by lia.
  pose proof (trim_blocks_spec 1 x (blocks r) S1 ltac:(lia) ltac:(lia) S2) as K.
  pose proof (trim_blocks_none_missing 1 (trim_seq r) (last_reassem_seq r) x (blocks r) S1 ltac:(lia) ltac:(lia) S4 S5 S6) as M.
  destruct (trim_blocks x (blocks r)) as [kept m]. cbn [fst snd] in *. subst m.
  destruct K as (K1 & K2 & K3 & K4 & K5).
  assert (Hkept : ~ covered kept (last_reassem_seq r)) by auto.
  assert (E : match kept with
              | b :: _ => if db_seq b =? last_reassem_seq (set_blocks kept r) then BlockInserted env n 0 (set_blocks kept r)
                          else Some (set_blocks kept r, [])
              | [] => Some (set_blocks kept r, [])
              end = Some (set_blocks kept r, [])).
  { destruct kept as [|b kept]; [reflexivity|]. cbn [last_reassem_seq set_blocks].
    destruct (Z.eqb_spec (db_seq b) (last_reassem_seq r)) as [E|]; [|reflexivity].
    exfalso. apply Hkept, covered_cons. left. destruct K1 as (? & ? & _). unfold holds. lia. }
  rewrite E. cbn [trim_seq set_blocks]. seqs. rewrite (proj2 (Z.ltb_lt _ _)) by lia.
  eexists. split; [reflexivity|]. repeat split; cbn; auto; try lia.
  - intros p Hp. apply K5; [lia|]. apply S5. lia.
  - unfold received. cbn. intros [C|C]; [|auto]. destruct (Z_lt_dec p (trim_seq r)); [auto|]. right. apply S5. lia.
  - unfold received. cbn. intros [C|C]; [left; lia|]. destruct (Z_lt_dec p x); [now left|]. right. apply K5; [lia|assumption].
Qed.

(** The step from [r] to [r'] delivers the bytes up to the first that is missing. *)
Definition advances (r r' : Reassembler) (out : list Out) : Prop :=
  synced s r' /\ settled r' /\ last_reassem_seq r <= last_reassem_seq r' /\
  delivered out = slice s (last_reassem_seq r) (last_reassem_seq r') /\ Forall harmless out.

Lemma deliver_from r i b :
  synced s r -> nth_error (blocks r) i = Some b -> db_seq b = last_reassem_seq r ->
  exists last out, deliver_blocks env (skipn i (blocks r)) r = (set_last_reassem_seq last r, out) /\
    trim_seq r < last /\ advances r (set_last_reassem_seq last r) out /\ existsb is_rexmit out = false.
Proof.
  intros [S1 S2 S3 S4 S5 S6 S7 S8] Hi Hb.
  destruct (nth_error_split _ _ Hi) as (pre & post & E & Hlen).
  assert (Hsk : skipn i (blocks r) = b :: post) by (rewrite E, <- Hlen; now apply skipn_exact).
  pose proof S1 as S1'. rewrite E in S1'. apply ordered_split in S1' as (mid & P1 & P2).
  assert (P3 : ordered (last_reassem_seq r) (b :: post) (stream_end s)) by (cbn in *; intuition lia).
  assert (F : Forall (block_of s) (b :: post)) by (rewrite E in S2; now apply Forall_app in S2).
  destruct (deliver_blocks_spec (b :: post) r P3 ltac:(lia) F S7 S8) as (last & out & D & Hl & Hd & Hh & Hc & Hn & X).
  assert (Hlt : last_reassem_seq r < last).
  { destruct (Z_lt_dec (last_reassem_seq r) last); [assumption|]. exfalso. apply Hn, covered_cons. left.
    unfold holds. destruct P3 as (? & ? & _). lia. }
  exists last, out. rewrite Hsk. split; [assumption|]. split; [lia|]. repeat split; cbn; auto; try lia.
  - intros p Hp. destruct (Z_lt_dec p (last_reassem_seq r)); [apply S5; lia|].
    rewrite E. apply covered_app. right. apply Hc. lia.
  - unfold settled. cbn. rewrite E, covered_app. intros [C|C]; [|auto].
    pose proof (covered_bounds _ _ _ _ P1 C). destruct P2. lia.
Qed.

Lemma advances_none r : synced s r -> settled r -> advances r r [].
Proof. intros H1 H2. unfold advances. rewrite slice_empty. auto with zarith. Qed.

Lemma BlockInserted_spec n r i b :
  synced s r -> nth_error (blocks r) i = Some b ->
  (covered (blocks r) (last_reassem_seq r) -> db_seq b = last_reassem_seq r) ->
  exists r' out, BlockInserted env (S (S n)) i r = Some (r', out) /\ advances r r' out /\
    (forall p, received r' p <-> received r p) /\ existsb is_rexmit out = false.
Proof.
  intros Sy Hi Hb. pose proof Sy as [S1 S2 S3 S4 S5 S6 S7 S8].
  assert (Bb : 1 <= db_seq b /\ db_seq b < db_upper b /\ db_upper b <= stream_end s).
  { pose proof (ordered_Forall _ _ _ S1) as F. rewrite Forall_forall in F. apply F. eapply nth_error_In; eassumption. }
  cbn [BlockInserted]. rewrite Hi. seqs.
  destruct (Z.ltb_spec 0 (db_seq b - last_reassem_seq r)); cbn [orb].
  { exists r, []. split; [reflexivity|]. split; [|split; [tauto|reflexivity]]. apply advances_none; [assumption|].
    intros C. specialize (Hb C). lia. }
  destruct (Z.leb_spec (db_upper b - last_reassem_seq r) 0).
  { exists r, []. split; [reflexivity|]. split; [|split; [tauto|reflexivity]]. apply advances_none; [assumption|].
    intros C. specialize (Hb C). lia. }
  assert (Hs : db_seq b = last_reassem_seq r).
  { apply Hb. apply Exists_exists. exists b. split; [eapply nth_error_In; eassumption|]. unfold holds. lia. }
  destruct (deliver_from r i b Sy Hi Hs) as (last & out & -> & Hlt & A & X).
  match goal with |- exists _ _, (if ?c then _ else _) = _ /\ _ => destruct c end.
  - destruct A as (A1 & A2 & A3 & A4 & A5). cbn [last_reassem_seq set_last_reassem_seq] in *.
    destruct (TrimToSeq_delivered n last _ A1 A2) as (r' & T & T1 & T2 & T3 & T4 & T5); [cbn; lia|].
    cbn [TrimToSeq] in T |- *. rewrite T. cbn [last_reassem_seq set_last_reassem_seq] in T3.
    exists r', out. rewrite app_nil_r. split; [reflexivity|]. split.
    + unfold advances. rewrite T3. auto.
    + split; [intros p; now rewrite T5|assumption].
  - exists (set_last_reassem_seq last r), out. split; [reflexivity|]. split; [assumption|]. split; [reflexivity|assumption].
Qed.

Lemma insert_block_spec bs seq upper len :
  ordered 1 bs (stream_end s) -> Forall (block_of s) bs -> 1 <= seq < upper -> upper <= stream_end s -> len = upper - seq ->
  exists a, insert_block bs seq upper len (slice s seq upper) = Some a /\
            inserted s 1 (stream_end s) bs seq upper a.
Proof.
  intros Ho F Hs Hu ->. destruct bs as [|b0 bs]; unfold insert_block.
  - eexists. split; [reflexivity|]. rewrite new_block_slice by lia.
    replace (seq + (upper - seq)) with upper by lia. apply (inserted_between s 1 (stream_end s) [] []); cbn; auto; lia.
  - apply AddAndCheck_spec; auto; try lia; [discriminate|]. unfold passed. destruct (db_upper b0 <=? seq); cbn; lia.
Qed.

Lemma insert_block_agree bs seq upper len d1 d2 :
  ordered 1 bs (stream_end s) -> 1 <= seq < upper -> upper <= stream_end s -> len = upper - seq ->
  agree bs seq upper d1 d2 -> placed (insert_block bs seq upper len d1) = placed (insert_block bs seq upper len d2).
Proof.
  intros Ho Hs Hu -> A. destruct bs as [|b bs]; unfold insert_block.
  - cbn. unfold new_DataBlock. rewrite (agree_take [] seq upper (upper - seq) d1 d2); auto; [lia|].
    intros p _. now rewrite covered_nil.
  - apply (AddAndCheck_agree (stream_end s) _ _ 1); auto; lia.
Qed.

(** Equal overlaps raise no event. *)
Lemma Overlap_same os :
  Forall (fun o => fst o = snd o) os -> concat (map (fun o => Overlap env (fst o) (snd o)) os) = [].
Proof.
  induction 1 as [|[o1 o2] os Heq Hos IHo]; [reflexivity|]. cbn in Heq |- *. subst o2. rewrite IHo.
  unfold Overlap. destruct (list_eq_dec Z.eq_dec o1 o1); [|easy]. now rewrite andb_false_r.
Qed.

Lemma Overlap_harmless (os : list (list Z * list Z)) :
  let out := concat (map (fun o => Overlap env (fst o) (snd o)) os) in delivered out = [] /\ Forall harmless out.
Proof.
  induction os as [|[o1 o2] os [I1 I2]]; cbn in *; [now split|]. rewrite delivered_app, I1, Forall_app.
  unfold Overlap. destruct (_ && _ && _); repeat split; auto. repeat constructor.
Qed.

Lemma slice_nth a c i : (Z.of_nat i < c - a) -> nth i (slice s a c) 0 = nth (Z.to_nat (a - 1) + i) s 0.
Proof. intros. unfold slice. rewrite nth_take, nth_skip by lia. reflexivity. Qed.

(** The bytes [d] offered from number [seq] on are the stream's, at least where nothing
    has been received yet. *)
Definition offers (r : Reassembler) (seq : Z) (d : list Z) : Prop :=
  forall i, (i < length d)%nat -> ~ received r (seq + Z.of_nat i) ->
  nth i d 0 = nth (Z.to_nat (seq + Z.of_nat i - 1)) s 0.

Lemma offers_agree r seq d :
  1 <= seq -> trim_seq r <= seq -> offers r seq d -> seq + Z.of_nat (length d) <= stream_end s ->
  agree (blocks r) seq (seq + Z.of_nat (length d)) d (slice s seq (seq + Z.of_nat (length d))).
Proof.
  intros Hs Ht Ho He. pose proof (slice_length s seq (seq + Z.of_nat (length d)) ltac:(lia) He) as L.
  repeat split; [lia|lia|]. intros i Hi C. rewrite Ho; auto.
  - rewrite slice_nth by lia. f_equal. lia.
  - intros [R|R]; [lia|auto].
Qed.

Lemma offers_skip r seq d n :
  0 <= n -> offers r seq d -> offers r (seq + n) (skipn (Z.to_nat n) d).
Proof.
  intros Hn Ho i Hi Hr. rewrite length_skipn in Hi. rewrite nth_skip, Ho; [f_equal; lia|lia|].
  now replace (seq + Z.of_nat (Z.to_nat n + i)) with (seq + n + Z.of_nat i) by lia.
Qed.

(** The insertion of offered bytes. *)
Lemma insert_offered r seq d :
  synced s r -> 1 <= seq -> trim_seq r <= seq -> d <> [] -> seq + Z.of_nat (length d) <= stream_end s -> offers r seq d ->
  exists a a', insert_block (blocks r) seq (seq + Z.of_nat (length d)) (Z.of_nat (length d)) d = Some a /\
    inserted s 1 (stream_end s) (blocks r) seq (seq + Z.of_nat (length d)) a' /\
    ad_blocks a = ad_blocks a' /\ ad_start a = ad_start a' /\
    (d = slice s seq (seq + Z.of_nat (length d)) -> a = a').
Proof.
  intros [S1 S2 S3 S4 S5 S6 S7 S8] Hs Ht Hd He Ho. assert (0 < length d)%nat by (destruct d; [easy|cbn; lia]).
  pose proof (offers_agree r seq d Hs Ht Ho He) as A. set (upper := seq + Z.of_nat (length d)) in *.
  destruct (insert_block_spec (blocks r) seq upper (Z.of_nat (length d))) as (a' & Ea & I); auto; try lia.
  pose proof (insert_block_agree (blocks r) seq upper (Z.of_nat (length d)) _ _ S1 ltac:(lia) He ltac:(lia) A) as P. rewrite Ea in P.
  destruct (insert_block (blocks r) seq upper _ d) as [a|] eqn:E; [|discriminate].
  injection P as P1 P2. exists a, a'. split; [reflexivity|]. split; [assumption|]. split; [assumption|]. split; [assumption|].
  intros Hd'. rewrite <- Hd', E in Ea. now injection Ea.
Qed.

(** After an insertion what can be delivered is delivered. *)
Lemma insert_settles r a seq upper b :
  synced s r -> settled r -> trim_seq r <= seq ->
  ordered 1 (ad_blocks a) (stream_end s) -> Forall (block_of s) (ad_blocks a) ->
  (forall p, covered (ad_blocks a) p <-> covered (blocks r) p \/ seq <= p < upper) ->
  Forall (fun b => In b (blocks r) \/ seq <= db_seq b) (ad_blocks a) ->
  nth_error (ad_blocks a) (ad_start a) = Some b ->
  (forall l, seq <= l < upper -> ~ covered (blocks r) l -> (forall p, seq <= p < l -> covered (blocks r) p) -> db_seq b = l) ->
  exists r' out, BlockInserted env call_depth (ad_start a) (set_blocks (ad_blocks a) r) = Some (r', out) /\
    advances r r' out /\
    (forall p, received r' p <-> p < trim_seq r \/ covered (blocks r) p \/ seq <= p < upper) /\
    existsb is_rexmit out = false.
Proof.
  intros [S1 S2 S3 S4 S5 S6 S7 S8] Hset Ht I1 I2 I3 I5 I6 I7.
  assert (Sy' : synced s (set_blocks (ad_blocks a) r)).
  { split; cbn; auto.
    - intros p Hp. apply I3. left. now apply S5.
    - apply Forall_forall. intros y Hy. rewrite Forall_forall in I5. destruct (I5 y Hy) as [Hin|Hin].
      + rewrite Forall_forall in S6. auto.
      + pose proof (ordered_Forall _ _ _ I1) as F. rewrite Forall_forall in F. specialize (F y Hy). lia. }
  change call_depth with 4%nat. destruct (BlockInserted_spec 2 _ _ b Sy' I6) as (r' & out & -> & A & R & X).
  { cbn. intros C. apply I3 in C as [C|C]; [now apply Hset in C|]. apply I7; auto.
    intros p Hp. apply S5. lia. }
  exists r', out. split; [reflexivity|]. split; [exact A|]. split; [|assumption].
  intros p. rewrite R. unfold received. cbn. now rewrite I3.
Qed.

(** [NewBlock] of bytes of the stream: they are received, and what can be delivered is. *)
Lemma NewBlock_spec r seq d :
  synced s r -> settled r -> 1 <= seq -> seq + Z.of_nat (length d) <= stream_end s -> offers r seq d ->
  exists r' out, NewBlock env seq (Z.of_nat (length d)) d r = Some (r', out) /\ advances r r' out /\
    (forall p, 1 <= p -> received r' p <-> received r p \/ seq <= p < seq + Z.of_nat (length d)) /\
    (d = slice s seq (seq + Z.of_nat (length d)) -> existsb is_rexmit out = false).
Proof.
  intros Sy Hset Hseq Hend Hoff. pose proof Sy as [S1 S2 S3 S4 S5 S6 S7 S8].
  set (len := Z.of_nat (length d)) in *.
  assert (Same : (forall p, 1 <= p -> seq <= p < seq + len -> received r p) ->
    exists r' out, Some (r, []) = Some (r', out) /\ advances r r' out /\
    (forall p, 1 <= p -> received r' p <-> received r p \/ seq <= p < seq + len) /\
    (d = slice s seq (seq + len) -> existsb is_rexmit out = false)).
  { intros H. exists r, []. split; [reflexivity|]. split; [now apply advances_none|]. split; [intuition|reflexivity]. }
  unfold NewBlock. destruct (Z.eqb_spec len 0); [apply Same; lia|]. seqs.
  destruct (Z.leb_spec (seq + len - trim_seq r) 0); [apply Same; intros; left; lia|].
  set (old := if seq - trim_seq r <? 0 then trim_seq r - seq else 0).
  assert (Hold : 0 <= old /\ seq + old = Z.max seq (trim_seq r)).
  { unfold old. destruct (Z.ltb_spec (seq - trim_seq r) 0); lia. }
  clearbody old. destruct Hold as [Ho1 Ho2]. seqs.
  set (d' := skipn (Z.to_nat old) d). assert (Hl : Z.of_nat (length d') = len - old) by (unfold d'; rewrite length_skipn; lia).
  destruct (insert_offered r (seq + old) d') as (a & a' & Ea & I & B1 & B2 & Same'); auto; try lia.
  { destruct d'; [cbn in Hl; lia|discriminate]. }
  { now apply offers_skip. }
  rewrite Hl in *. replace (seq + old + (len - old)) with (seq + len) in * by lia.
  replace (len + - old) with (len - old) by lia. rewrite Ea, B1, B2.
  destruct I as (I1 & I2 & I3 & I4 & I5 & b & I6 & I7).
  destruct (Overlap_harmless (ad_overlaps a)) as [V1 V2].
  destruct (insert_settles r a' (seq + old) (seq + len) b) as (r' & out & -> & A & R & X); auto; try lia.
  eexists r', _. split; [reflexivity|]. split; [|split].
  - destruct A as (A1 & A2 & A3 & A4 & A5). unfold advances. rewrite delivered_app, V1, A4, Forall_app. intuition.
  - intros p Hp. rewrite R. unfold received. split.
    + intros [H1|[H1|H1]]; auto. right. lia.
    + intros [[H1|H1]|H1]; auto. destruct (Z_lt_dec p (trim_seq r)); [now left|]. right. right. lia.
  - intros Hd. rewrite Same', Overlap_same; auto. unfold d'. rewrite Hd at 1. rewrite slice_skip by lia. reflexivity.
Qed.

(** The limits on undelivered data are off, or the stream is shorter. *)
Definition roomy : Prop :=
  (endp_NoDataAcked env = true -> tcp_max_above_hole_without_any_acks env = 0 \/
                                  stream_end s - 1 <= tcp_max_above_hole_without_any_acks env) /\
  (tcp_excessive_data_without_further_acks env = 0 \/ stream_end s - 1 <= tcp_excessive_data_without_further_acks env).

Lemma not_too_much limit name r :
  synced s r -> limit = 0 \/ stream_end s - 1 <= limit -> too_much_held limit name r = (r, []).
Proof.
  intros [S1 S2 S3 S4 S5 S6 S7 S8] H. unfold too_much_held.
  assert (N : NumUndeliveredBytes r <= stream_end s - 1).
  { unfold NumUndeliveredBytes. destruct (last_block (blocks r)) as [b|] eqn:E; [|lia].
    destruct (ordered_last _ _ _ _ S1 E) as [O1 O2]. pose proof (ordered_bounds _ _ _ O1).
    unfold int_add. rewrite swrap_small by lia. lia. }
  destruct (Z.eqb_spec limit 0); [reflexivity|]. destruct (Z.ltb_spec limit (NumUndeliveredBytes r)); [lia|reflexivity].
Qed.

Lemma DataSent_spec r seq d :
  roomy -> synced s r -> settled r -> 1 <= seq -> seq + Z.of_nat (length d) <= stream_end s -> offers r seq d ->
  exists r' out, DataSent env true seq (Z.of_nat (length d)) d r = Some (r', out, 1) /\ advances r r' out /\
    (forall p, 1 <= p -> received r' p <-> received r p \/ seq <= p < seq + Z.of_nat (length d)) /\
    (d = slice s seq (seq + Z.of_nat (length d)) -> existsb is_rexmit out = false).
Proof.
  intros [R1 R2] Sy Hset Hs He Hoff. unfold DataSent. rewrite (sy_deliver _ _ Sy), andb_false_r.
  cbn [andb Z.to_nat skipn]. rewrite !int_add_small by lia. rewrite Z.add_0_r. cbn [Z.opp]. rewrite Z.add_0_r.
  destruct (NewBlock_spec r seq d) as (r' & out & -> & A & R); auto.
  assert (G1 : (if endp_NoDataAcked env
                then too_much_held (tcp_max_above_hole_without_any_acks env) "above_hole_data_without_any_acks" r'
                else (r', [])) = (r', [])).
  { destruct (endp_NoDataAcked env); [|reflexivity]. apply not_too_much; [apply A|auto]. }
  rewrite G1, not_too_much by (apply A || assumption). exists r', out. rewrite !app_nil_r. auto.
Qed.

Lemma CheckEOF_spec r :
  exists r' out, CheckEOF env r = (r', out) /\ (synced s r -> settled r -> advances r r' out) /\
    (forall p, received r' p <-> received r p) /\ existsb is_rexmit out = false.
Proof.
  unfold CheckEOF. match goal with |- context [if ?c then _ else _] => destruct c end; eexists _, _;
    (split; [reflexivity|]); (split; [|split; reflexivity]).
  - intros [S1 S2 S3 S4 S5 S6 S7 S8] H. unfold advances. cbn. rewrite slice_empty.
    split; [now split|]. repeat split; auto with zarith. repeat constructor.
  - apply advances_none.
Qed.

Lemma AckReceived_spec due seq r g :
  synced s r -> settled r -> 0 <= seq <= last_reassem_seq r ->
  (0 < endp_FIN_cnt env -> 1 <= endp_FIN_seq env < SEQ_LIMIT) ->
  exists r' g' out, AckReceived env due seq r g = Some (r', g', out) /\ advances r r' out /\
    (forall p, received r' p <-> received r p) /\ existsb is_rexmit out = false.
Proof.
  intros Sy Hset Hs HF. pose proof Sy as [S1 S2 S3 S4 S5 S6 S7 S8]. unfold AckReceived.
  set (x := if (0 <? endp_FIN_cnt env) && _ then int_add (endp_FIN_seq env) (-1) else seq).
  assert (Hx : 0 <= x <= last_reassem_seq r).
  { unfold x. destruct (Z.ltb_spec 0 (endp_FIN_cnt env)); [|exact Hs]. specialize (HF ltac:(assumption)). seqs.
    destruct (Z.leb_spec 0 (seq - endp_FIN_seq env)); cbn; seqs; lia. }
  clearbody x. seqs. destruct (Z.leb_spec (x - trim_seq r) 0).
  { exists r, g, []. split; [reflexivity|]. split; [now apply advances_none|split; reflexivity]. }
  change call_depth with 4%nat.
  destruct (TrimToSeq_delivered 3 x r Sy Hset) as (r1 & -> & T1 & T2 & T3 & T4 & T5); [lia|].
  destruct (CheckEOF_spec r1) as (r2 & out & -> & A & R & X). specialize (A T1 T2).
  destruct A as (A1 & A2 & A3 & A4 & A5). rewrite T3 in *.
  match goal with |- context [let '(_, _) := ?c in _] => destruct c as [g2 out2] eqn:E end.
  exists r2, g2, (out2 ++ out). split; [reflexivity|].
  assert (Ho : delivered out2 = [] /\ Forall harmless out2 /\ existsb is_rexmit out2 = false).
  { revert E. match goal with |- context [if ?c then _ else _] => destruct c end.
    - cbn. destruct due; intros [= _ <-]; repeat constructor.
    - intros [= _ <-]. repeat constructor. }
  destruct Ho as (O1 & O2 & O3). split; [|split].
  - unfold advances. rewrite delivered_app, O1, Forall_app. intuition.
  - intros p. now rewrite R, T5.
  - now rewrite existsb_app, O3, X.
Qed.

(** An acknowledgement delivers nothing. *)
Lemma AckReceived_silent due seq r g r' g' out :
  synced s r -> settled r -> 0 <= seq <= last_reassem_seq r -> endp_FIN_cnt env = 0 ->
  AckReceived env due seq r g = Some (r', g', out) -> existsb is_deliver out = false.
Proof.
  intros Sy Hset Hs HF. pose proof Sy as [S1 S2 S3 S4 S5 S6 S7 S8]. unfold AckReceived. rewrite HF. cbn [Z.ltb Z.compare andb].
  seqs. destruct (Z.leb_spec (seq - trim_seq r) 0); [intros [= <- <- <-]; reflexivity|]. change call_depth with 4%nat.
  destruct (TrimToSeq_delivered 3 seq r Sy Hset) as (r1 & -> & _); [lia|].
  destruct (CheckEOF env r1) as [r2 out3] eqn:E3.
  assert (D3 : existsb is_deliver out3 = false) by (revert E3; unfold CheckEOF; destruct (_ && _); intros [= <- <-]; reflexivity).
  match goal with |- context [let '(_, _) := ?c in _] => destruct c as [g2 out2] eqn:E end. intros [= <- <- <-].
  cbn [app]. rewrite existsb_app, D3, orb_false_r. revert E. match goal with |- context [if ?c then _ else _] => destruct c end.
  - cbn. destruct due; intros [= _ <-]; reflexivity.
  - intros [= _ <-]. reflexivity.
Qed.

End Stream.

(** ** Whole connections *)

(** What the TCP analyzer asks of the reassembler of one direction: a segment of data, or
    an acknowledgement from the other side. *)
Inductive Op :=
  | Segment (seq : Z) (data : list Z)
  | Ack (report_due : bool) (seq : Z).

Definition step (env : REnv) (op : Op) (r : Reassembler) (g : GapStats) : option (Reassembler * GapStats * list Out) :=
  match op with
  | Segment seq data =>
      match DataSent env true seq (Z.of_nat (length data)) data r with
      | Some (r, out, _) => Some (r, g, out)
      | None => None
      end
  | Ack due seq => AckReceived env due seq r g
  end.

Fixpoint run (ops : list (REnv * Op)) (r : Reassembler) (g : GapStats) : option (Reassembler * GapStats * list Out) :=
  match ops with
  | [] => Some (r, g, [])
  | (env, op) :: ops =>
      match step env op r g with
      | None => None
      | Some (r, g, out) =>
          match run ops r g with
          | None => None
          | Some (r, g, out') => Some (r, g, out ++ out')
          end
      end
  end.

(** The specification: the byte numbered [p] of the first segment that has one. *)
Fixpoint first_copy (ops : list (REnv * Op)) (p : Z) : option Z :=
  match ops with
  | [] => None
  | (_, Segment seq data) :: ops =>
      if (seq <=? p) && (p <? seq + Z.of_nat (length data)) then nth_error data (Z.to_nat (p - seq)) else first_copy ops p
  | _ :: ops => first_copy ops p
  end.

(** Segments start after the SYN, analyzers do not skip, the limits are not reached, and
    an acknowledgement covers only bytes that have been seen. *)
Fixpoint regular (s : list Z) (before ops : list (REnv * Op)) : Prop :=
  match ops with
  | [] => True
  | (env, op) :: rest =>
      (forall seq d, r_skip_request env seq d = None) /\ roomy s env /\
      match op with
      | Segment seq data => 1 <= seq /\ data <> []
      | Ack _ seq => 0 <= seq /\ (forall p, 1 <= p < seq -> first_copy before p <> None) /\
                     (0 < endp_FIN_cnt env -> 1 <= endp_FIN_seq env < SEQ_LIMIT)
      end /\ regular s (before ++ [(env, op)]) rest
  end.

Lemma first_copy_app a b p :
  first_copy (a ++ b) p = match first_copy a p with Some v => Some v | None => first_copy b p end.
Proof.
  induction a as [|[env [seq d|due seq]] a IH]; cbn [app first_copy]; auto.
  destruct ((seq <=? p) && (p <? seq + Z.of_nat (length d))) eqn:E; [|assumption].
  destruct (nth_error d (Z.to_nat (p - seq))) eqn:N; [reflexivity|].
  apply nth_error_None in N. lia.
Qed.

Lemma first_copy_segment env seq d p :
  first_copy [(env, Segment seq d)] p <> None <-> seq <= p < seq + Z.of_nat (length d).
Proof.
  cbn. destruct ((seq <=? p) && (p <? seq + Z.of_nat (length d))) eqn:E.
  - rewrite nth_error_Some. lia.
  - split; [easy|lia].
Qed.

(** The state matches the segments that have arrived. *)
Definition matches (s : list Z) (before : list (REnv * Op)) (r : Reassembler) : Prop :=
  synced s r /\ settled r /\ forall p, 1 <= p -> received r p <-> first_copy before p <> None.

Definition extends (s : list Z) (ops : list (REnv * Op)) : Prop :=
  forall p v, 1 <= p -> first_copy ops p = Some v -> nth_error s (Z.to_nat (p - 1)) = Some v.

(** A whole segment lies in the stream. *)
Lemma extends_segment s before env seq d rest :
  1 <= seq -> d <> [] -> extends s (before ++ (env, Segment seq d) :: rest) ->
  seq + Z.of_nat (length d) <= stream_end s /\
  forall i, (i < length d)%nat -> first_copy before (seq + Z.of_nat i) = None ->
            nth i d 0 = nth (Z.to_nat (seq + Z.of_nat i - 1)) s 0.
Proof.
  intros Hs Hd Hx. assert (Hlen : (0 < length d)%nat) by (destruct d; [easy|cbn; lia]). split.
  - set (p := seq + Z.of_nat (length d) - 1).
    destruct (first_copy (before ++ (env, Segment seq d) :: rest) p) as [v|] eqn:E.
    + specialize (Hx p v ltac:(lia) E). assert (Hn : nth_error s (Z.to_nat (p - 1)) <> None) by congruence.
      apply nth_error_Some in Hn. unfold stream_end. lia.
    + rewrite first_copy_app in E. destruct (first_copy before p); [discriminate|]. cbn in E.
      rewrite (proj2 (Z.leb_le _ _)), (proj2 (Z.ltb_lt _ _)) in E by lia. apply nth_error_None in E. lia.
  - intros i Hi Hn. set (p := seq + Z.of_nat i) in *.
    assert (E : first_copy (before ++ (env, Segment seq d) :: rest) p = Some (nth i d 0)).
    { rewrite first_copy_app, Hn. cbn. rewrite (proj2 (Z.leb_le _ _)), (proj2 (Z.ltb_lt _ _)) by lia. cbn.
      replace (Z.to_nat (p - seq)) with i by lia. now apply nth_error_nth'. }
    apply Hx in E; [|lia]. symmetry. apply nth_error_nth. exact E.
Qed.

Lemma step_spec s before env op rest r g :
  stream_end s < SEQ_LIMIT -> matches s before r -> regular s before ((env, op) :: rest) ->
  extends s (before ++ (env, op) :: rest) ->
  exists r' g' out, step env op r g = Some (r', g', out) /\ matches s (before ++ [(env, op)]) r' /\
    last_reassem_seq r <= last_reassem_seq r' /\
    delivered out = slice s (last_reassem_seq r) (last_reassem_seq r') /\ Forall harmless out /\
    (match op with
     | Segment seq d => d = slice s seq (seq + Z.of_nat (length d))
     | Ack _ _ => True
     end -> existsb is_rexmit out = false).
Proof.
  intros Hlim (Sy & Hset & R) (E1 & E2 & E3 & _) Hx. destruct op as [seq d|due seq]; cbn [step].
  - destruct E3 as [Hs Hd]. destruct (extends_segment _ _ _ _ _ _ Hs Hd Hx) as [He Ho].
    destruct (DataSent_spec s Hlim env E1 r seq d) as (r' & out & -> & A & R' & X); auto.
    { intros i Hi Hr. apply Ho; [assumption|]. rewrite R in Hr by lia. now destruct (first_copy before _); [exfalso; apply Hr|]. }
    exists r', g, out. destruct A as (A1 & A2 & A3). split; [reflexivity|]. split; [|tauto].
    split; [assumption|]. split; [assumption|]. intros p Hp. rewrite R', R, first_copy_app by assumption.
    rewrite <- (first_copy_segment env seq d p). destruct (first_copy before p); [|tauto]. split; [discriminate|]. intros _. now left.
  - destruct E3 as (Hs & Hseen & Hfin).
    assert (Hle : seq <= last_reassem_seq r).
    { destruct (Z_le_dec seq (last_reassem_seq r)) as [|Hn]; [assumption|]. exfalso.
      pose proof (sy_trim _ _ Sy). specialize (Hseen (last_reassem_seq r) ltac:(lia)). rewrite <- R in Hseen by lia.
      destruct Hseen as [H1|H1]; [lia|now apply Hset in H1]. }
    destruct (AckReceived_spec s Hlim env due seq r g) as (r' & g' & out & -> & A & R' & X); auto.
    exists r', g', out. destruct A as (A1 & A2 & A3). split; [reflexivity|]. split; [|tauto].
    split; [assumption|]. split; [assumption|]. intros p Hp. rewrite R', R, first_copy_app by assumption.
    cbn. now destruct (first_copy before p).
Qed.

Lemma run_spec s ops before r g :
  stream_end s < SEQ_LIMIT -> matches s before r -> regular s before ops -> extends s (before ++ ops) ->
  exists r' g' out, run ops r g = Some (r', g', out) /\ matches s (before ++ ops) r' /\
    last_reassem_seq r <= last_reassem_seq r' /\
    delivered out = slice s (last_reassem_seq r) (last_reassem_seq r') /\ Forall harmless out /\
    (Forall (fun eo => match snd eo with
                       | Segment seq d => d = slice s seq (seq + Z.of_nat (length d))
                       | Ack _ _ => True
                       end) ops -> existsb is_rexmit out = false).
Proof.
  intros Hlim. revert before r g. induction ops as [|[env op] ops IH]; intros before r g M Hreg Hx.
  - exists r, g, []. rewrite app_nil_r, slice_empty. split; [reflexivity|]. split; [assumption|]. repeat split; auto; lia.
  - destruct (step_spec s before env op ops r g Hlim M Hreg Hx) as (r1 & g1 & out1 & E1 & M1 & L1 & D1 & H1 & X1).
    destruct Hreg as (_ & _ & _ & Hreg). destruct (IH (before ++ [(env, op)]) r1 g1 M1 Hreg) as (r2 & g2 & out2 & E2 & M2 & L2 & D2 & H2 & X2).
    { now rewrite <- app_assoc. }
    cbn [run]. rewrite E1, E2. exists r2, g2, (out1 ++ out2). rewrite <- app_assoc in M2.
    pose proof (sy_trim _ _ (proj1 M)). split; [reflexivity|]. split; [assumption|]. split; [lia|]. split; [|split].
    + rewrite delivered_app, D1, D2. apply slice_app; lia.
    + apply Forall_app. now split.
    + intros F. inversion F; subst. rewrite existsb_app, X1, X2; auto.
Qed.

Lemma matches_new s : matches s [] new_Reassembler.
Proof.
  repeat split; cbn; auto; unfold stream_end; try lia; try (intros; lia).
  - unfold settled. cbn. now rewrite covered_nil.
  - unfold received. cbn. rewrite covered_nil. lia.
  - unfold received. easy.
Qed.



(** *** Instances *)

(** Bro's options as [policy/bro.init] has them, for an established connection of which
    both sides are reassembled. *)
Definition usual_env (acked : bool) : REnv :=
  {| endp_state := TCP_ENDPOINT_ESTABLISHED; endp_FIN_cnt := 0; endp_RST_cnt := 0; endp_FIN_seq := 0;
     endp_StartSeq := 1000; endp_LastSeq := 1000; endp_AckSeq := 1001; endp_Size := 0; endp_NoDataAcked := negb acked;
     peer_state := TCP_ENDPOINT_ESTABLISHED; peer_FIN_cnt := 0; peer_RST_cnt := 0; peer_HasContents := true;
     peer_HasUndeliveredData := false; peer_HasDoneSomething := true; IsPartial := false; Skipping := false;
     recording := false; deliver_tcp_contents := false; has_rule_matcher := false; handles_content_gap := true;
     handles_rexmit_inconsistency := true; tcp_match_undelivered := true; tcp_max_initial_window := 4096;
     tcp_max_above_hole_without_any_acks := 4096; tcp_excessive_data_without_further_acks := 10 * 1024 * 1024;
     r_skip_request := fun _ _ => None |}.

Definition no_gaps : GapStats :=
  {| tot_ack_events := 0; tot_ack_bytes := 0; tot_gap_events := 0; tot_gap_bytes := 0;
     last_ack_events := 0; last_ack_bytes := 0; last_gap_events := 0; last_gap_bytes := 0 |}.

(** Eight bytes: the end first, then the middle with a differing copy of the end, then an
    acknowledgement after the beginning. *)
Definition sample_stream : list Z := [10; 20; 30; 40; 50; 60; 70; 80].
Definition sample_ops : list (REnv * Op) :=
  [(usual_env false, Segment 5 [50; 60; 70; 80]); (usual_env false, Segment 3 [30; 40; 99; 98]);
   (usual_env false, Segment 1 [10; 20]); (usual_env true, Ack false 4)].

Lemma usual_roomy s acked : stream_end s <= 4096 -> roomy s (usual_env acked).
Proof. intros H. unfold roomy. cbn. lia. Qed.

(** The numbers of a stream of eight bytes. *)
Ltac eight p :=
  let C := fresh in
  assert (C : p = 1 \/ p = 2 \/ p = 3 \/ p = 4 \/ p = 5 \/ p = 6 \/ p = 7 \/ p = 8) by lia;
  destruct C as [->|[->|[->|[->|[->|[->|[->| ->]]]]]]].

Lemma sample_regular : regular sample_stream [] sample_ops.
Proof.
  unfold sample_ops. cbn [regular]. repeat match goal with |- _ /\ _ => split end; try easy; try lia;
    try (apply usual_roomy; discriminate).
  intros p Hp. eight p; discriminate || lia.
Qed.

Lemma sample_extends : extends sample_stream sample_ops.
Proof.
  intros p v Hp H. destruct (Z_lt_dec p 9) as [Hlt|Hge].
  - eight p; exact H.
  - exfalso. cbn in H. repeat (rewrite (proj2 (Z.ltb_ge p _)), andb_false_r in H by lia). discriminate.
Qed.


Definition consistent_ops : list (REnv * Op) :=
  [(usual_env false, Segment 5 [50; 60; 70; 80]); (usual_env false, Segment 1 [10; 20; 30; 40; 50])].


(** ** The end of the stream is reported by [CheckEOF] only *)

Definition no_eof (o : list Out) : Prop := Forall (fun x => x <> EndpointEOF) o.

Create HintDb eof.

Lemma no_eof_app a b : no_eof a -> no_eof b -> no_eof (a ++ b).
Proof. intros A B. apply Forall_app. now split. Qed.

Lemma no_eof_nil : no_eof [].
Proof. constructor. Qed.

Lemma no_eof_cons x o : x <> EndpointEOF -> no_eof o -> no_eof (x :: o).
Proof. now constructor. Qed.

Lemma no_eof_if (b : bool) x y : no_eof x -> no_eof y -> no_eof (if b then x else y).
Proof. now destruct b. Qed.

#[export] Hint Resolve no_eof_app no_eof_nil no_eof_cons no_eof_if : eof.
#[export] Hint Extern 1 (_ <> EndpointEOF) => discriminate : eof.

Lemma no_eof_Overlap env a b : no_eof (Overlap env a b).
Proof. unfold Overlap. auto with eof. Qed.

Lemma no_eof_DeliverBlock env seq len d r : no_eof (snd (DeliverBlock env seq len d r)).
Proof. unfold DeliverBlock. cbv zeta. repeat match goal with |- context [if ?b then _ else _] => destruct b end; cbn [snd]; auto with eof. Qed.

Lemma no_eof_match last bs : no_eof (match_blocks last bs).
Proof. induction bs; cbn [match_blocks]; auto with eof. Qed.

Lemma no_eof_record stop bs : forall last, no_eof (record_blocks last stop bs).
Proof. induction bs as [|b bs IH]; intros last; cbn [record_blocks]; auto 10 with eof. Qed.

#[export] Hint Resolve no_eof_Overlap no_eof_DeliverBlock no_eof_match no_eof_record : eof.

Lemma no_eof_MatchUndelivered env n r : no_eof (MatchUndelivered env n r).
Proof. unfold MatchUndelivered. destruct (last_block _); auto with eof. Qed.

#[export] Hint Resolve no_eof_MatchUndelivered : eof.

Lemma no_eof_Undelivered env n r : no_eof (snd (Undelivered env n r)).
Proof.
  unfold Undelivered, RecordToSeq. cbv zeta. do 3 (match goal with |- context [if ?b then _ else _] => destruct b end; cbn [snd]; auto with eof).
  all: match goal with |- no_eof (_ ++ _) => auto 12 with eof end.
Qed.

Lemma no_eof_deliver_blocks env bs : forall r, no_eof (snd (deliver_blocks env bs r)).
Proof.
  induction bs as [|b bs IH]; intros r; cbn [deliver_blocks]; [constructor|]. destruct (_ <=? _); [|constructor]. destruct (_ =? _); [|apply IH].
  cbv zeta. match goal with |- context [DeliverBlock env ?a ?b ?c ?d] => pose proof (no_eof_DeliverBlock env a b c d) as H1; destruct (DeliverBlock env a b c d) as [r1 o1] end.
  pose proof (IH r1) as H2. destruct (deliver_blocks env bs r1) as [r2 o2]. cbn [snd] in *. auto with eof.
Qed.

Lemma no_eof_calls env fuel :
  (forall n r r' o, BlockInserted env fuel n r = Some (r', o) -> no_eof o) /\
  (forall s r r' o m, TrimToSeq env fuel s r = Some (r', o, m) -> no_eof o).
Proof.
  induction fuel as [|fuel [IH1 IH2]]; [split; discriminate|]. split.
  - intros n r r' o. cbn [BlockInserted]. destruct (nth_error _ _) as [b|]; [|discriminate]. destruct (_ || _); [intros [= _ <-]; constructor|].
    pose proof (no_eof_deliver_blocks env (skipn n (blocks r)) r) as D. destruct (deliver_blocks env _ r) as [r1 o1]. cbn [snd] in D.
    destruct (_ || _); [|now intros [= _ <-]]. destruct (TrimToSeq env fuel _ r1) as [[[r2 o2] m]|] eqn:T; [|discriminate].
    intros [= _ <-]. apply IH2 in T. auto with eof.
  - intros s r r' o m. cbn [TrimToSeq]. cbv zeta.
    match goal with |- context [let '(_, _) := ?x in _] => assert (U : no_eof (snd x)) by (destruct (0 <? _); [apply no_eof_Undelivered|constructor]); destruct x as [r1 o1] end.
    cbn [snd] in U. destruct (trim_blocks s (blocks r1)) as [kept miss].
    match goal with |- context [match ?x with Some _ => _ | None => None end] => destruct x as [[r2 o2]|] eqn:E end; [|discriminate].
    intros [= _ <- _]. apply no_eof_app; [exact U|]. destruct kept as [|b kept]; [injection E as _ <-; constructor|].
    destruct (_ =? _); [now apply IH1 in E|injection E as _ <-; constructor].
Qed.

Lemma no_eof_DataSent env rep seq len d r r' o v : DataSent env rep seq len d r = Some (r', o, v) -> no_eof o.
Proof.
  unfold DataSent. cbv zeta. destruct (skip_deliveries r); [intros [= _ <- _]; constructor|]. destruct (_ && _ && _); [intros [= _ <- _]; constructor|].
  destruct (NewBlock env _ _ _ r) as [[r1 o1]|] eqn:N; [|discriminate].
  assert (H1 : no_eof o1).
  { revert N. unfold NewBlock. destruct (_ =? 0); [intros [= _ <-]; constructor|]. cbv zeta. destruct (_ <=? 0); [intros [= _ <-]; constructor|].
    destruct (insert_block _ _ _ _ _) as [a|]; [|discriminate]. destruct (BlockInserted env _ _ _) as [[r2 o2]|] eqn:B; [|discriminate].
    intros [= _ <-]. apply (proj1 (no_eof_calls env _)) in B. apply no_eof_app; [|exact B]. induction (ad_overlaps a) as [|x l IH]; cbn; auto with eof. }
  assert (G : forall l n r, no_eof (snd (too_much_held l n r))).
  { intros l n r0. unfold too_much_held. match goal with |- context [if ?b then _ else _] => destruct b end; cbn [snd]; auto with eof. }
  match goal with |- context [if endp_NoDataAcked env then ?x else ?y] => assert (H2 : no_eof (snd (if endp_NoDataAcked env then x else y)))
    by (destruct (endp_NoDataAcked env); [apply G|constructor]); destruct (if endp_NoDataAcked env then x else y) as [r2 o2] end.
  match goal with |- context [too_much_held ?l ?n ?r] => pose proof (G l n r) as H3; destruct (too_much_held l n r) as [r3 o3] end. cbn [snd] in *.
  intros [= _ <- _]. auto with eof.
Qed.

Lemma no_eof_AckReceived env due seq r g r' g' o :
  endp_FIN_cnt env = 0 -> endp_state env = TCP_ENDPOINT_ESTABLISHED -> AckReceived env due seq r g = Some (r', g', o) -> no_eof o.
Proof.
  intros F S. unfold AckReceived. cbv zeta. destruct (_ <=? 0); [intros [= _ _ <-]; constructor|].
  destruct (TrimToSeq env _ _ r) as [[[r1 o1] m]|] eqn:T; [|discriminate]. apply (proj2 (no_eof_calls env _)) in T.
  match goal with |- context [let '(_, _) := ?x in _] => assert (H2 : no_eof (snd x)) by
    (repeat match goal with |- context [if ?b then _ else _] => destruct b end; cbn [snd]; auto with eof); destruct x as [g2 o2] end. cbn [snd] in H2.
  assert (C : CheckEOF env r1 = (r1, [])) by (unfold CheckEOF; rewrite F, S; destruct (did_EOF r1); reflexivity). rewrite C.
  intros [= _ _ <-]. auto with eof.
Qed.
