(* ===== verification/ReassemGaps.v ===== *)
(** * Reassembly with losses

    Theorems on [Reassem] for arbitrary traffic: segments whose copies differ, and
    acknowledgements of bytes that were never seen: any insertion keeps the blocks in order,
    and what becomes of a block that an acknowledgement ends in. *)
From S2P Require Import Prelude Bytes CLib Reassem ReassemThms.
From Stdlib Require Import String ZArith Lia List Bool.
Import ListNotations.
Open Scope Z_scope.
Open Scope list_scope.

(** ** Well-formed states *)

Definition full_block (b : DataBlock) : Prop := Z.of_nat (length (db_block b)) = db_upper b - db_seq b.

(** Blocks in order below [hi], each with all its bytes, and positions within [hi]. *)
Record tame (hi : Z) (r : Reassembler) : Prop := {
  ta_ordered : ordered 1 (blocks r) hi;
  ta_full : Forall full_block (blocks r);
  ta_last : 1 <= last_reassem_seq r <= hi;
  ta_trim : 1 <= trim_seq r <= hi }.

(** A stream that holds what the blocks hold, and else the bytes [d] from number [seq] on. *)
Fixpoint content (bs : list DataBlock) (p : Z) : option Z :=
  match bs with
  | [] => None
  | b :: bs => if (db_seq b <=? p) && (p <? db_upper b) then Some (nth (Z.to_nat (p - db_seq b)) (db_block b) 0)
               else content bs p
  end.

Definition merged (bs : list DataBlock) (seq : Z) (d : list Z) (hi : Z) : list Z :=
  map (fun i => match content bs (1 + Z.of_nat i) with
                | Some v => v
                | None => nth (Z.to_nat (1 + Z.of_nat i - seq)) d 0
                end) (List.seq 0 (Z.to_nat (hi - 1))).

Lemma merged_end bs seq d hi : 1 <= hi -> stream_end (merged bs seq d hi) = hi.
Proof. intros H. unfold stream_end, merged. rewrite length_map, length_seq. lia. Qed.

Lemma merged_nth bs seq d hi i :
  1 + Z.of_nat i < hi ->
  nth i (merged bs seq d hi) 0 = match content bs (1 + Z.of_nat i) with
                                 | Some v => v
                                 | None => nth (Z.to_nat (1 + Z.of_nat i - seq)) d 0
                                 end.
Proof.
  intros H. apply nth_error_nth. unfold merged. rewrite nth_error_map, nth_error_seq.
  rewrite (proj2 (Nat.ltb_lt _ _)) by lia. reflexivity.
Qed.

Lemma content_covered bs p : content bs p <> None <-> covered bs p.
Proof.
  induction bs as [|b bs IH]; cbn [content]; [rewrite covered_nil; tauto|]. rewrite covered_cons. unfold holds.
  destruct ((db_seq b <=? p) && (p <? db_upper b)) eqn:E.
  - split; [intros _; left; lia|discriminate].
  - rewrite IH. split; [tauto|]. intros [C|C]; [lia|assumption].
Qed.

(** At a place of its own a block gives its byte. *)
Lemma content_in lo bs hi b p :
  ordered lo bs hi -> In b bs -> holds p b -> content bs p = Some (nth (Z.to_nat (p - db_seq b)) (db_block b) 0).
Proof.
  revert lo. induction bs as [|c bs IH]; intros lo; [easy|]. intros (O1 & O2 & O3) [->|Hin] Hp; cbn [content].
  - unfold holds in Hp. rewrite (proj2 (Z.leb_le _ _)), (proj2 (Z.ltb_lt _ _)) by lia. reflexivity.
  - pose proof (ordered_Forall _ _ _ O3) as F. rewrite Forall_forall in F. specialize (F b Hin). unfold holds in Hp.
    rewrite (proj2 (Z.ltb_ge p (db_upper c))), andb_false_r by lia. now apply (IH (db_upper c)).
Qed.

Lemma merged_block bs seq d hi b :
  1 <= hi -> ordered 1 bs hi -> In b bs -> full_block b -> block_of (merged bs seq d hi) b.
Proof.
  intros Hhi Ho Hin Hf. unfold block_of, full_block in *.
  pose proof (ordered_Forall _ _ _ Ho) as F. rewrite Forall_forall in F. specialize (F b Hin).
  pose proof (slice_length (merged bs seq d hi) (db_seq b) (db_upper b) ltac:(lia)) as L. rewrite merged_end in L by lia.
  apply nth_ext with 0 0; [lia|]. intros i Hi. rewrite slice_nth by lia. rewrite merged_nth by lia.
  rewrite (content_in 1 bs hi b); [f_equal; lia|assumption|assumption|]. unfold holds. lia.
Qed.

(** Any insertion keeps the blocks in order and full, and covers the new bytes. *)
Lemma insert_block_tame hi bs seq d :
  hi < SEQ_LIMIT -> ordered 1 bs hi -> Forall full_block bs -> 1 <= seq -> d <> [] -> seq + Z.of_nat (length d) <= hi ->
  exists a b, insert_block bs seq (seq + Z.of_nat (length d)) (Z.of_nat (length d)) d = Some a /\
    ordered 1 (ad_blocks a) hi /\ Forall full_block (ad_blocks a) /\ nth_error (ad_blocks a) (ad_start a) = Some b /\
    (forall p, covered (ad_blocks a) p <-> covered bs p \/ seq <= p < seq + Z.of_nat (length d)).
Proof.
  intros Hhi Ho F Hs Hd He. assert (0 < length d)%nat by (destruct d; [easy|cbn; lia]).
  set (s := merged bs seq d hi). pose proof (merged_end bs seq d hi ltac:(lia)) as Hend. fold s in Hend.
  set (r := {| blocks := bs; last_reassem_seq := 1; trim_seq := 1; had_gap := false; did_EOF := false;
               skip_deliveries := false; seq_to_skip := 0 |}).
  assert (A : agree bs seq (seq + Z.of_nat (length d)) d (slice s seq (seq + Z.of_nat (length d)))).
  { apply (offers_agree s r); cbn; try lia. intros i Hi Hr. unfold s. rewrite merged_nth by lia.
    replace (1 + Z.of_nat (Z.to_nat (seq + Z.of_nat i - 1))) with (seq + Z.of_nat i) by lia.
    destruct (content bs (seq + Z.of_nat i)) eqn:C; [|f_equal; lia].
    exfalso. apply Hr. right. cbn. apply content_covered. congruence. }
  destruct (insert_block_spec s ltac:(lia) bs seq (seq + Z.of_nat (length d)) (Z.of_nat (length d))) as (a' & Ea & I);
    try rewrite Hend; auto; try lia.
  { rewrite Forall_forall in *. intros b Hb. apply merged_block; auto; lia. }
  pose proof (insert_block_agree s ltac:(lia) bs seq (seq + Z.of_nat (length d)) (Z.of_nat (length d)) _ _
                ltac:(rewrite Hend; assumption) ltac:(lia) ltac:(lia) ltac:(lia) A) as P. rewrite Ea in P.
  destruct (insert_block bs seq _ _ d) as [a|]; [|discriminate]. injection P as P1 P2.
  destruct I as (I1 & I2 & I3 & I4 & I5 & b & I6 & I7). rewrite Hend in I1.
  exists a, b. rewrite P1, P2. repeat split; auto; try apply I3.
  pose proof (ordered_Forall _ _ _ I1) as Fo. rewrite Forall_forall in *. intros x Hx. unfold full_block.
  rewrite (I2 x Hx). specialize (Fo x Hx). apply slice_length; lia.
Qed.

(** ** Deliveries *)

(** What a delivery leaves alone. *)
Definition same_blocks (r r' : Reassembler) : Prop := blocks r' = blocks r /\ trim_seq r' = trim_seq r.

Lemma DeliverBlock_same env seq len d r :
  let r' := fst (DeliverBlock env seq len d r) in same_blocks r r' /\ last_reassem_seq r' = last_reassem_seq r.
Proof.
  unfold DeliverBlock, same_blocks. destruct (_ <=? 0); [cbn; auto|]. destruct (skip_deliveries r); [cbn; auto|].
  destruct (r_skip_request env _ _) as [x|]; [|cbn; auto]. cbn [fst]. unfold SkipToSeq_in_delivery.
  destruct (0 <? _); cbn; auto.
Qed.

(** ** An acknowledgement that ends in a block

    [TrimToSeq] gives up the bytes before the acknowledged number; the block it points
    into is then neither removed nor delivered, since the delivery looks for a block that
    begins at [last_reassem_seq]. *)

Lemma record_blocks_quiet last stop bs : delivered (record_blocks last stop bs) = [].
Proof.
  revert last. induction bs as [|b bs IH]; intros last; [reflexivity|]. cbn [record_blocks].
  destruct (_ <=? 0); [|now destruct (_ <? 0)]. rewrite delivered_app.
  change (Record_ (db_block b) :: record_blocks (db_upper b) stop bs) with ([Record_ (db_block b)] ++ record_blocks (db_upper b) stop bs).
  rewrite delivered_app, IH. now destruct (0 <? _).
Qed.

Lemma match_blocks_quiet last bs : delivered (match_blocks last bs) = [].
Proof.
  induction bs as [|b bs IH]; [reflexivity|]. cbn [match_blocks]. destruct (_ <=? 0); [|reflexivity]. exact IH.
Qed.

Lemma MatchUndelivered_quiet env x r : delivered (MatchUndelivered env x r) = [].
Proof.
  unfold MatchUndelivered. destruct (last_block (blocks r)); [|reflexivity]. destruct (negb _); [reflexivity|].
  destruct (_ || _); [reflexivity|]. apply match_blocks_quiet.
Qed.

(** Bytes are given up without being delivered. *)
Lemma Undelivered_quiet env x r : delivered (snd (Undelivered env x r)) = [].
Proof.
  unfold Undelivered. destruct (_ && IsPartial env); [reflexivity|]. destruct (_ <=? 0); [reflexivity|].
  match goal with |- context [let '(_, _) := ?c in _] => destruct c as [r1 out] eqn:E end. cbn [snd].
  assert (Ho : delivered out = []).
  { destruct ((last_reassem_seq r =? 1) && _); injection E as _ <-; [reflexivity|].
    destruct (skip_deliveries r); [reflexivity|]. now destruct (handles_content_gap env && _ && _). }
  unfold RecordToSeq. rewrite !delivered_app, Ho. destruct (tcp_match_undelivered env), (recording env);
    now rewrite ?MatchUndelivered_quiet, ?record_blocks_quiet.
Qed.

(** Acknowledged up to inside a block above a hole: the rest of that block, which has been
    seen, is not delivered, and neither is the segment that follows the last block. *)
Theorem ack_inside_block_stalls env hi b bs x r :
  hi < SEQ_LIMIT -> tame hi r -> blocks r = b :: bs -> trim_seq r <= last_reassem_seq r < db_seq b ->
  db_seq b < x < db_upper b -> 2 < x ->
  exists r1 out1 m,
    TrimToSeq env call_depth x r = Some (r1, out1, m) /\
    blocks r1 = b :: bs /\ last_reassem_seq r1 = x /\ delivered out1 = [] /\
    forall lb d, last_block (b :: bs) = Some lb -> d <> [] -> db_upper lb + Z.of_nat (length d) <= hi ->
    exists r2 out2, NewBlock env (db_upper lb) (Z.of_nat (length d)) d r1 = Some (r2, out2) /\
                    delivered out2 = [] /\ last_reassem_seq r2 = x.
Proof.
  intros Hhi [T1 T2 T3 T4] Hb Hlast Hx Hx2. rewrite Hb in *.
  pose proof T1 as (O1 & O2 & O3). pose proof (ordered_bounds _ _ _ O3).
  change call_depth with 4%nat. cbn [TrimToSeq]. seqs. rewrite (proj2 (Z.ltb_lt _ _)) by lia.
  pose proof (Undelivered_quiet env x r) as Q.
  assert (U : exists r1 out, Undelivered env x r = (r1, out) /\ blocks r1 = b :: bs /\ last_reassem_seq r1 = x /\ trim_seq r1 = trim_seq r).
  { unfold Undelivered. rewrite (proj2 (Z.leb_gt x 2)) by lia. cbn [andb]. seqs. rewrite (proj2 (Z.leb_gt _ _)) by lia.
    destruct ((last_reassem_seq r =? 1) && _); eexists _, _; (split; [reflexivity|]); cbn; auto. }
  destruct U as (r1 & out & U & B1 & L1 & M1). rewrite U in *. cbn [snd] in Q. rewrite B1. cbn [trim_blocks]. seqs.
  rewrite (proj2 (Z.leb_gt _ _)) by lia. cbn [last_reassem_seq set_blocks]. rewrite L1.
  rewrite (proj2 (Z.eqb_neq _ _)) by lia. cbn [trim_seq set_blocks]. rewrite M1.
  set (r2 := if 0 <? seq_delta x (trim_seq r) then _ else _). eexists r2, _, _. split; [reflexivity|].
  assert (B2 : blocks r2 = b :: bs) by (unfold r2; now destruct (0 <? _)).
  assert (L2 : last_reassem_seq r2 = x) by (unfold r2; now destruct (0 <? _)).
  assert (M2 : 1 <= trim_seq r2 <= x) by (unfold r2; seqs; destruct (Z.ltb_spec 0 (x - trim_seq r)); cbn; lia).
  clearbody r2. rewrite app_nil_r. split; [assumption|]. split; [assumption|]. split; [assumption|].
  intros lb d Hlb Hd He. assert (0 < length d)%nat by (destruct d; [easy|cbn; lia]).
  destruct (ordered_last _ _ _ _ T1 Hlb) as [Lo Lu]. pose proof Lo as (_ & _ & Lo'). apply ordered_bounds in Lo'.
  unfold NewBlock. rewrite (proj2 (Z.eqb_neq (Z.of_nat (length d)) 0)) by lia. seqs.
  rewrite (proj2 (Z.leb_gt _ _)), (proj2 (Z.ltb_ge _ _)) by lia. cbn [Z.to_nat skipn]. seqs. rewrite B2.
  rewrite !Z.add_0_r. cbn [insert_block AddAndCheck]. rewrite Hlb, Z.eqb_refl. cbn [ad_overlaps ad_start ad_blocks map concat].
  change call_depth with 4%nat. set (nb := new_DataBlock d _ _).
  assert (N : nth_error ((b :: bs) ++ [nb]) (length (b :: bs)) = Some nb)
    by (rewrite nth_error_app2, Nat.sub_diag by reflexivity; reflexivity).
  cbn [BlockInserted blocks set_blocks]. rewrite N. cbn [last_reassem_seq set_blocks]. rewrite L2.
  change (db_seq nb) with (db_upper lb). seqs. rewrite (proj2 (Z.ltb_lt 0 (db_upper lb - x))) by lia.
  eexists _, _. split; [reflexivity|]. split; [reflexivity|assumption].
Qed.

(** The first segment was lost; the server's peer acknowledges into the second. *)
Definition stalled : Reassembler :=
  {| blocks := [Block 11 21 (repeat 5 10)]; last_reassem_seq := 1; trim_seq := 1; had_gap := false; did_EOF := false;
     skip_deliveries := false; seq_to_skip := 0 |}.

Lemma ack_inside_block_stalls_witness :
  exists r1 out1 m, TrimToSeq (usual_env true) call_depth 15 stalled = Some (r1, out1, m) /\ delivered out1 = [] /\
    exists r2 out2, NewBlock (usual_env true) 21 3 [1; 2; 3] r1 = Some (r2, out2) /\ delivered out2 = [].
Proof.
  destruct (ack_inside_block_stalls (usual_env true) 100 (Block 11 21 (repeat 5 10)) [] 15 stalled)
    as (r1 & out1 & m & E & _ & _ & D & N); cbn; try lia; try reflexivity.
  - split; cbn; try lia. repeat constructor.
  - exists r1, out1, m. split; [exact E|]. split; [exact D|].
    destruct (N (Block 11 21 (repeat 5 10)) [1; 2; 3] eq_refl ltac:(discriminate) ltac:(cbn; lia)) as (r2 & out2 & E2 & D2 & _).
    exists r2, out2. split; [exact E2|exact D2].
Defined.

(** An acknowledgement within the hole before the first block counts the whole hole as
    missing, more than it acknowledges. *)
Lemma gap_overcounted env hi b bs x r r' out m :
  hi < SEQ_LIMIT -> tame hi r -> blocks r = b :: bs -> last_reassem_seq r < x < db_seq b -> 2 < x ->
  TrimToSeq env call_depth x r = Some (r', out, m) -> x - last_reassem_seq r < m.
Proof.
  intros Hhi [T1 T2 T3 T4] Hb Hx Hx2. rewrite Hb in *. pose proof T1 as (O1 & O2 & O3). pose proof (ordered_bounds _ _ _ O3).
  change call_depth with 4%nat. cbn [TrimToSeq]. unfold initial_hole. rewrite Hb. seqs. rewrite (proj2 (Z.ltb_lt 0 (x - _))) by lia.
  assert (U : exists r1 out, Undelivered env x r = (r1, out) /\ blocks r1 = b :: bs /\ last_reassem_seq r1 = x).
  { unfold Undelivered. rewrite (proj2 (Z.leb_gt x 2)) by lia. cbn [andb]. seqs. rewrite (proj2 (Z.leb_gt _ _)) by lia.
    destruct ((last_reassem_seq r =? 1) && _); eexists _, _; (split; [reflexivity|]); cbn; auto. }
  destruct U as (r1 & out1 & -> & B1 & L1). rewrite B1. cbn [trim_blocks]. seqs.
  rewrite (proj2 (Z.leb_gt _ _)) by lia. cbn [last_reassem_seq set_blocks]. rewrite L1.
  rewrite (proj2 (Z.eqb_neq _ _)) by lia. intros [= _ _ <-]. lia.
Qed.

(** The signature matcher is given blocks that have been delivered, and no others. *)
Lemma MatchUndelivered_delivered env x r d :
  In (Match d) (MatchUndelivered env x r) ->
  exists b, In b (blocks r) /\ d = db_block b /\ seq_delta (db_upper b) (last_reassem_seq r) <= 0.
Proof.
  unfold MatchUndelivered. destruct (last_block (blocks r)); [|easy]. destruct (negb _); [easy|]. destruct (_ || _); [easy|].
  induction (blocks r) as [|b bs IH]; [easy|]. cbn [match_blocks].
  destruct (Z.leb_spec (seq_delta (db_upper b) (last_reassem_seq r)) 0) as [Hle|]; [|easy]. intros [[= <-]|Hin].
  - exists b. cbn. auto.
  - destruct (IH Hin) as (c & Hc & E). exists c. cbn. auto.
Qed.

(** A skip that the analyzers ask for during a delivery is noted and never carried out:
    nothing is trimmed, not by the delivery nor by the request repeated after it. *)
Lemma skip_in_delivery_lost env seq len d r :
  let r' := fst (DeliverBlock env seq len d r) in
  trim_seq r' = trim_seq r /\ last_reassem_seq r' = last_reassem_seq r /\ blocks r' = blocks r /\
  SkipToSeq env (seq_to_skip r') r' = Some (r', []).
Proof.
  pose proof (DeliverBlock_same env seq len d r) as D. cbn zeta in *. destruct D as ((D1 & D2) & D3).
  repeat split; auto. apply SkipToSeq_again.
Qed.
