(* ===== verification/ReassemWrap.v ===== *)
(** * Reassembly at any sequence numbers

    Theorems on [Reassem] for arbitrary traffic: segments and acknowledgements with any
    numbers, also before the SYN, beyond all that was seen or past the wrap-around of the
    sequence space, and copies that differ.  The blocks are in order when their positions
    are measured from [trim_seq], which is what keeps the recursion of [AddAndCheck] within
    the number of blocks and the calls of [BlockInserted] and [TrimToSeq] shallow. *)
From S2P Require Import Prelude Bytes CLib Reassem ReassemThms ReassemGaps.
From Stdlib Require Import String ZArith Lia List Bool.
Import ListNotations.
Open Scope Z_scope.
Open Scope list_scope.

(** ** Distances in the sequence space *)

Definition is_int (x : Z) : Prop := -2147483648 <= x < 2147483648.

Lemma swrap_cases x : exists k, swrap 32 x = x + k * 4294967296 /\ is_int (swrap 32 x).
Proof.
  unfold swrap, is_int. change (2 ^ (32 - 1)) with 2147483648. change (2 ^ 32) with 4294967296.
  pose proof (Z.mod_pos_bound (x + 2147483648) 4294967296 ltac:(lia)).
  pose proof (Z.div_mod (x + 2147483648) 4294967296 ltac:(lia)).
  exists (- ((x + 2147483648) / 4294967296)). lia.
Qed.

Lemma int_add_int a n : is_int (int_add a n).
Proof. unfold int_add. now destruct (swrap_cases (a + n)) as (k & _ & H). Qed.

Lemma seq_delta_int a b : is_int (seq_delta a b).
Proof. unfold seq_delta. now destruct (swrap_cases (a - b)) as (k & _ & H). Qed.

(** Distances from a common point, where their difference fits. *)
Lemma delta_from t a b :
  is_int (seq_delta a t - seq_delta b t) -> seq_delta a b = seq_delta a t - seq_delta b t.
Proof.
  unfold seq_delta, is_int. destruct (swrap_cases (a - t)) as (i & -> & _), (swrap_cases (b - t)) as (j & -> & _),
    (swrap_cases (a - b)) as (k & -> & K). unfold is_int in K. lia.
Qed.

(** In any case they are equal up to the size of the space. *)
Lemma delta_wraps t a b : exists k, seq_delta a b = seq_delta a t - seq_delta b t + k * 4294967296.
Proof.
  unfold seq_delta. destruct (swrap_cases (a - t)) as (i & -> & _), (swrap_cases (b - t)) as (j & -> & _),
    (swrap_cases (a - b)) as (k & -> & _). exists (k - i + j). lia.
Qed.

Lemma delta_add t a n : is_int (seq_delta a t + n) -> seq_delta (int_add a n) t = seq_delta a t + n.
Proof.
  unfold seq_delta, int_add, is_int. destruct (swrap_cases (a - t)) as (i & -> & _), (swrap_cases (a + n)) as (j & -> & _).
  destruct (swrap_cases (a + n + j * 4294967296 - t)) as (k & -> & K). unfold is_int in K. lia.
Qed.

Lemma delta_inj t a b : is_int a -> is_int b -> seq_delta a t = seq_delta b t -> a = b.
Proof.
  unfold seq_delta, is_int. destruct (swrap_cases (a - t)) as (i & -> & _), (swrap_cases (b - t)) as (j & -> & _). lia.
Qed.

(** An [int] is reached by its distance. *)
Lemma add_delta a b : is_int a -> int_add b (seq_delta a b) = a.
Proof.
  unfold seq_delta, int_add, is_int. destruct (swrap_cases (a - b)) as (i & -> & _), (swrap_cases (b + (a - b + i * 4294967296))) as (j & -> & J).
  unfold is_int in J. lia.
Qed.

Lemma Size_delta b : Size b = seq_delta (db_upper b) (db_seq b).
Proof. unfold Size, int_add, seq_delta. f_equal. Qed.

Ltac ints := unfold is_int in *; lia.

(** ** Blocks in order *)

(** The largest number of bytes of one segment; an IP packet has less than 65536. *)
Definition SEGMENT_LIMIT : Z := 1073741824.

(** A block has all its bytes. *)
Definition sized (b : DataBlock) : Prop :=
  is_int (db_seq b) /\ is_int (db_upper b) /\ Z.of_nat (length (db_block b)) = seq_delta (db_upper b) (db_seq b) /\
  0 < seq_delta (db_upper b) (db_seq b) < SEGMENT_LIMIT.

(** Seen from [t], the blocks end after it, and each starts where the one before has ended
    or later; the first not before [lo]. *)
Fixpoint in_order (t lo : Z) (bs : list DataBlock) : Prop :=
  match bs with
  | [] => True
  | b :: bs => lo <= seq_delta (db_upper b) t - seq_delta (db_upper b) (db_seq b) /\ 0 < seq_delta (db_upper b) t /\
               in_order t (seq_delta (db_upper b) t) bs
  end.

Fixpoint end_of (t lo : Z) (bs : list DataBlock) : Z :=
  match bs with [] => lo | b :: bs => end_of t (seq_delta (db_upper b) t) bs end.

Lemma in_order_app t lo bs cs : in_order t lo (bs ++ cs) <-> in_order t lo bs /\ in_order t (end_of t lo bs) cs.
Proof. revert lo. induction bs as [|b bs IH]; intros lo; cbn [app in_order end_of]; [tauto|]. rewrite IH. tauto. Qed.

Lemma in_order_weaken t lo lo' bs : in_order t lo bs -> lo' <= lo -> in_order t lo' bs.
Proof. destruct bs as [|b bs]; cbn; [auto|]. intros (H1 & H2 & H3) H. repeat split; auto. lia. Qed.

(** Where a block starts, seen from [t]. *)
Lemma start_delta t b : sized b -> 0 < seq_delta (db_upper b) t ->
  seq_delta (db_seq b) t = seq_delta (db_upper b) t - seq_delta (db_upper b) (db_seq b).
Proof.
  intros (_ & _ & _ & Hs) Hu. unfold SEGMENT_LIMIT in Hs. pose proof (seq_delta_int (db_upper b) t). pose proof (seq_delta_int (db_seq b) t).
  destruct (delta_wraps t (db_upper b) (db_seq b)) as (k & E). ints.
Qed.

Lemma find_block_order t seq bs : forall lo,
  bs <> [] -> in_order t lo bs -> 0 <= seq_delta seq t -> lo <= seq_delta seq t ->
  exists before b rest, find_block seq bs = (before, b :: rest) /\ bs = before ++ b :: rest /\
    end_of t lo before <= seq_delta seq t /\ (seq_delta (db_upper b) seq <= 0 -> rest = []).
Proof.
  induction bs as [|b bs IH]; intros lo Hn O Hs Hlo; [easy|]. destruct O as (O1 & O2 & O3).
  destruct bs as [|c bs]; [exists [], b, []; cbn; auto|].
  change (find_block seq (b :: c :: bs)) with
    (if seq_delta (db_upper b) seq <=? 0 then let '(before, rest) := find_block seq (c :: bs) in (b :: before, rest) else ([], b :: c :: bs)).
  pose proof (seq_delta_int (db_upper b) t). pose proof (seq_delta_int seq t).
  pose proof (delta_from t (db_upper b) seq ltac:(ints)) as E.
  destruct (Z.leb_spec (seq_delta (db_upper b) seq) 0) as [Hle|Hgt].
  - destruct (IH (seq_delta (db_upper b) t) ltac:(discriminate) O3 Hs ltac:(lia)) as (before & x & rest & Ef & Eb & H1 & H2).
    rewrite Ef. exists (b :: before), x, rest. rewrite Eb. auto.
  - exists [], b, (c :: bs). cbn. repeat split; auto. lia.
Qed.

(** A new block at [seq]. *)
Lemma new_block t seq n d :
  is_int seq -> 0 < n <= Z.of_nat (length d) -> n < SEGMENT_LIMIT -> is_int (seq_delta seq t + n) ->
  let nb := new_DataBlock d n seq in
  sized nb /\ seq_delta (db_upper nb) t = seq_delta seq t + n /\ seq_delta (db_upper nb) (db_seq nb) = n.
Proof.
  intros Hi Hn Hl Hf nb. unfold nb, sized, SEGMENT_LIMIT in *. cbn.
  assert (E : seq_delta (int_add seq n) seq = n).
  { rewrite delta_add; unfold seq_delta; rewrite Z.sub_diag; change (swrap 32 0) with 0; ints. }
  rewrite E, length_firstn, (delta_add t) by assumption. pose proof (int_add_int seq n). repeat split; try ints.
Qed.

(** What an insertion at [lo] or later gives. *)
Definition inserted (t lo : Z) (r : option Added) : Prop :=
  exists a, r = Some a /\ Forall sized (ad_blocks a) /\ in_order t lo (ad_blocks a) /\ (ad_start a < length (ad_blocks a))%nat.

(** What the new bytes satisfy: from [seq] to [upper], not before [t]. *)
Definition fits (t seq upper : Z) (d : list Z) : Prop :=
  is_int seq /\ is_int upper /\ 0 <= seq_delta seq t < seq_delta upper t /\
  seq_delta upper t - seq_delta seq t <= Z.of_nat (length d) /\ seq_delta upper t - seq_delta seq t < SEGMENT_LIMIT.

Lemma fits_delta t seq upper d : fits t seq upper d -> seq_delta upper seq = seq_delta upper t - seq_delta seq t.
Proof.
  intros (_ & _ & H1 & _). pose proof (seq_delta_int upper t). rewrite (delta_from t); ints.
Qed.

Lemma last_block_end t lo bs lb : last_block bs = Some lb -> end_of t lo bs = seq_delta (db_upper lb) t.
Proof.
  unfold last_block. destruct (rev bs) as [|x l] eqn:E; [discriminate|]. intros [= ->].
  rewrite <- (rev_involutive bs), E. cbn [rev]. generalize (rev l). intros m. revert lo.
  induction m as [|c m IH]; intros lo; cbn [app end_of]; auto.
Qed.

Lemma append_order t lo bs seq upper d :
  Forall sized bs -> in_order t lo bs -> end_of t lo bs <= seq_delta seq t -> fits t seq upper d ->
  inserted t lo (Some {| ad_blocks := bs ++ [new_DataBlock d (int_add upper (- seq)) seq];
                         ad_start := length bs; ad_overlaps := [] |}).
Proof.
  intros F O He Hf. pose proof (fits_delta _ _ _ _ Hf) as E. destruct Hf as (H1 & H2 & H3 & H4 & H5).
  change (int_add upper (- seq)) with (seq_delta upper seq). rewrite E. pose proof (seq_delta_int upper t).
  destruct (new_block t seq (seq_delta upper t - seq_delta seq t) d) as (N1 & N2 & N3); [assumption|lia|lia|ints|].
  eexists. split; [reflexivity|]. cbn [ad_blocks ad_start]. split; [apply Forall_app; auto|].
  split; [|rewrite length_app; cbn; lia]. apply in_order_app. split; [assumption|]. cbn [in_order]. rewrite N2, N3. repeat split; lia.
Qed.

(** Put before the block [b]. *)
Lemma between_order t lo before b rest seq n d :
  Forall sized (before ++ b :: rest) -> in_order t lo (before ++ b :: rest) -> end_of t lo before <= seq_delta seq t -> is_int seq ->
  0 <= seq_delta seq t -> 0 < n <= Z.of_nat (length d) -> n < SEGMENT_LIMIT -> seq_delta seq t + n <= seq_delta (db_seq b) t ->
  forall cs, Forall sized cs -> in_order t (seq_delta (db_seq b) t) cs ->
  Forall sized (before ++ new_DataBlock d n seq :: cs) /\ in_order t lo (before ++ new_DataBlock d n seq :: cs).
Proof.
  intros F O He Hi Hs Hn Hl Hb cs Fc Oc. apply Forall_app in F as [F1 F2]. apply in_order_app in O as [O1 O2].
  pose proof (seq_delta_int (db_seq b) t).
  destruct (new_block t seq n d) as (N1 & N2 & N3); [assumption..|ints|].
  split; [apply Forall_app; auto|]. apply in_order_app. split; [assumption|]. cbn [in_order]. rewrite N2, N3.
  repeat split; [lia|lia|]. now apply in_order_weaken with (seq_delta (db_seq b) t).
Qed.

Lemma find_block_length seq bs : (length (snd (find_block seq bs)) <= length bs)%nat.
Proof.
  induction bs as [|b [|c bs] IH]; [cbn; lia|cbn; lia|].
  change (find_block seq (b :: c :: bs)) with
    (if seq_delta (db_upper b) seq <=? 0 then let '(before, rest) := find_block seq (c :: bs) in (b :: before, rest) else ([], b :: c :: bs)).
  destruct (_ <=? 0); [|cbn; lia]. destruct (find_block seq (c :: bs)) as [x y]. cbn [snd] in *. cbn [length] in *. lia.
Qed.

Lemma delta_self a : seq_delta a a = 0.
Proof. unfold seq_delta. now rewrite Z.sub_diag. Qed.

(** Every insertion within [fuel]. *)
Definition inserts (t : Z) (fuel : nat) : Prop := forall lo bs seq upper d,
  bs <> [] -> Forall sized bs -> in_order t lo bs -> lo <= seq_delta seq t -> fits t seq upper d ->
  (length (snd (find_block seq bs)) < fuel)%nat -> inserted t lo (AddAndCheck fuel bs seq upper d).

(** The bytes past the end of [b] go into the blocks after it. *)
Lemma beyond_order t fuel lo b rest seq upper d :
  inserts t fuel -> Forall sized (b :: rest) -> in_order t lo (b :: rest) -> fits t seq upper d -> (length rest < fuel)%nat ->
  seq_delta seq t < seq_delta (db_upper b) t < seq_delta upper t ->
  let n := seq_delta (db_upper b) seq in
  inserted t lo (AddAndCheck fuel (b :: rest) (int_add seq n) upper (skipn (Z.to_nat n) d)).
Proof.
  intros IH F O (Hi & Hiu & Hse & Hl & Hll) Hfuel Hu n. pose proof F as F'. apply Forall_cons_iff in F' as [(_ & Hib & _ & Hsz) _].
  pose proof O as (O1 & O2 & O3). pose proof (seq_delta_int (db_upper b) t). pose proof (seq_delta_int seq t).
  assert (En : n = seq_delta (db_upper b) t - seq_delta seq t) by (apply delta_from; ints).
  assert (Es : int_add seq n = db_upper b) by now apply add_delta. clearbody n. rewrite Es.
  assert (Hf : fits t (db_upper b) upper (skipn (Z.to_nat n) d)) by (unfold fits; rewrite length_skipn; ints).
  destruct rest as [|c rest].
  - destruct fuel as [|fuel]; [cbn in Hfuel; lia|]. cbn [AddAndCheck last_block rev app]. rewrite Z.eqb_refl.
    apply (append_order t lo [b]); auto. cbn. lia.
  - apply IH; auto; [discriminate|lia|].
    change (find_block (db_upper b) (b :: c :: rest)) with
      (if seq_delta (db_upper b) (db_upper b) <=? 0 then let '(x, y) := find_block (db_upper b) (c :: rest) in (b :: x, y) else ([], b :: c :: rest)).
    rewrite delta_self. cbn [Z.leb Z.compare]. pose proof (find_block_length (db_upper b) (c :: rest)).
    destruct (find_block (db_upper b) (c :: rest)). cbn [snd] in *. lia.
Qed.

Definition overlapped (t lo : Z) (before prefix : list DataBlock) (start : nat -> nat) (r : option Added) (o : list Z * list Z) : Prop :=
  inserted t lo (match r with
                 | None => None
                 | Some a => Some {| ad_blocks := before ++ prefix ++ ad_blocks a; ad_start := start (ad_start a);
                                     ad_overlaps := o :: ad_overlaps a |}
                 end).

(** The new bytes start in [b]. *)
Lemma start_inside t lo before r o :
  Forall sized before -> in_order t lo before -> inserted t (end_of t lo before) r ->
  overlapped t lo before [] (fun n => length before + n)%nat r o.
Proof.
  intros F O (a & -> & A1 & A2 & A3). eexists. split; [reflexivity|]. cbn [ad_blocks ad_start app].
  split; [apply Forall_app; auto|]. split; [apply in_order_app; auto|]. rewrite length_app. lia.
Qed.

(** They start before [b], and a block is made of those that do. *)
Lemma start_before t lo before b rest seq n d r o :
  Forall sized (before ++ b :: rest) -> in_order t lo (before ++ b :: rest) -> end_of t lo before <= seq_delta seq t -> is_int seq ->
  0 <= seq_delta seq t -> 0 < n <= Z.of_nat (length d) -> n < SEGMENT_LIMIT -> seq_delta seq t + n <= seq_delta (db_seq b) t ->
  inserted t (seq_delta (db_seq b) t) r ->
  overlapped t lo before [new_DataBlock d n seq] (fun _ => length before) r o.
Proof.
  intros F O He Hi Hs Hn Hl Hb (a & -> & A1 & A2 & A3). eexists. split; [reflexivity|]. cbn [ad_blocks ad_start app].
  destruct (between_order t lo before b rest seq n d F O He Hi Hs Hn Hl Hb (ad_blocks a) A1 A2) as [B1 B2].
  repeat split; auto. rewrite length_app. cbn. lia.
Qed.

(** The block that the search ends at. *)
Lemma AddAndCheck_found t fuel lo before b rest seq upper d :
  inserts t fuel -> Forall sized (before ++ b :: rest) -> in_order t lo (before ++ b :: rest) -> fits t seq upper d ->
  find_block seq (before ++ b :: rest) = (before, b :: rest) -> end_of t lo before <= seq_delta seq t < seq_delta (db_upper b) t ->
  (length rest < fuel)%nat ->
  match last_block (before ++ b :: rest) with Some lb => seq =? db_upper lb | None => false end = false ->
  inserted t lo (AddAndCheck (S fuel) (before ++ b :: rest) seq upper d).
Proof.
  intros IH F O Hf Ef He Hfuel El. pose proof Hf as (Hi & Hiu & Hse & Hl & Hll). pose proof (fits_delta _ _ _ _ Hf) as Ed.
  cbn [AddAndCheck]. rewrite El, Ef. clear El Ef.
  pose proof F as F'. apply Forall_app in F' as [F1 F2]. apply in_order_app in O as O'. destruct O' as [O1 O2].
  pose proof F2 as F2'. apply Forall_cons_iff in F2' as [Sb F3]. pose proof O2 as (O3 & O4 & O5).
  pose proof (start_delta t b Sb O4) as Est. pose proof Sb as (Ib & Iub & Hlb & Hsz). unfold SEGMENT_LIMIT in *.
  pose proof (seq_delta_int (db_upper b) t). pose proof (seq_delta_int upper t).
  assert (O' : in_order t (seq_delta (db_seq b) t) (b :: rest)) by (cbn [in_order]; repeat split; auto; lia).
  rewrite (delta_from t (db_upper b) seq), (proj2 (Z.leb_gt _ 0)) by ints.
  pose proof (delta_from t upper (db_seq b) ltac:(ints)) as Ee. rewrite Ee.
  destruct (Z.leb_spec (seq_delta upper t - seq_delta (db_seq b) t) 0) as [Hle|Hgt].
  { rewrite Ed. destruct (between_order t lo before b rest seq (seq_delta upper t - seq_delta seq t) d) with (cs := b :: rest) as [B1 B2];
      auto; unfold SEGMENT_LIMIT; try lia.
    eexists. split; [reflexivity|]. cbn [ad_blocks ad_start]. repeat split; auto. rewrite length_app. cbn. lia. }
  rewrite (delta_from t seq (db_seq b)) by ints.
  destruct (Z.ltb_spec (seq_delta seq t - seq_delta (db_seq b) t) 0) as [Hp|Hp].
  - rewrite add_delta by assumption. rewrite (delta_from t (db_seq b) seq), Ee by ints.
    set (n := seq_delta (db_seq b) t - seq_delta seq t).
    assert (Hn : n = seq_delta (db_seq b) t - seq_delta seq t) by reflexivity. clearbody n.
    assert (Hf' : fits t (db_seq b) upper (skipn (Z.to_nat n) d)) by (unfold fits, SEGMENT_LIMIT; rewrite length_skipn; ints).
    destruct (Z.ltb_spec (Z.min (seq_delta upper t - seq_delta (db_seq b) t) (seq_delta (db_upper b) (db_seq b)))
                (seq_delta upper t - seq_delta (db_seq b) t)) as [Hm|Hm].
    + rewrite Z.min_r by lia. apply start_before with b rest; auto; unfold SEGMENT_LIMIT; try lia. apply beyond_order; auto; lia.
    + apply (start_before t lo before b rest seq n d (Some {| ad_blocks := b :: rest; ad_start := 0; ad_overlaps := [] |})); auto;
        unfold SEGMENT_LIMIT; try lia. eexists. split; [reflexivity|]. cbn. repeat split; auto; lia.
  - cbn [Z.to_nat skipn]. assert (E0 : int_add seq 0 = seq) by (rewrite <- (delta_self seq); now apply add_delta). rewrite E0, Ed.
    destruct (Z.ltb_spec (Z.min (seq_delta upper t - seq_delta seq t) (seq_delta (db_upper b) seq)) (seq_delta upper t - seq_delta seq t)) as [Hm|Hm].
    + pose proof (delta_from t (db_upper b) seq ltac:(ints)). rewrite Z.min_r by lia. apply start_inside; auto. apply beyond_order; auto; lia.
    + eexists. split; [reflexivity|]. cbn [ad_blocks ad_start app]. repeat split; auto. rewrite length_app. cbn. lia.
Qed.

Lemma AddAndCheck_order t fuel : inserts t fuel.
Proof.
  induction fuel as [|fuel IH]; intros lo bs seq upper d Hn F O Hlo Hf Hfuel; [lia|].
  pose proof Hf as (Hi & Hiu & Hse & _).
  destruct (match last_block bs with Some lb => seq =? db_upper lb | None => false end) eqn:El.
  { cbn [AddAndCheck]. rewrite El. destruct (last_block bs) as [lb|] eqn:Elb; [|discriminate]. apply Z.eqb_eq in El. subst seq.
    apply append_order; auto. rewrite (last_block_end t lo bs lb Elb). lia. }
  destruct (find_block_order t seq bs lo Hn O ltac:(lia) Hlo) as (before & b & rest & Ef & Eb & He & Hr).
  rewrite Ef in Hfuel. cbn [snd length] in Hfuel. subst bs. apply in_order_app in O as O'. destruct O' as [_ (_ & O4 & _)].
  pose proof (seq_delta_int (db_upper b) t). pose proof (seq_delta_int upper t).
  pose proof (delta_from t (db_upper b) seq ltac:(ints)) as Eu. rewrite Eu in Hr.
  destruct (Z.leb_spec (seq_delta (db_upper b) t) (seq_delta seq t)) as [Hle|Hgt].
  - cbn [AddAndCheck]. rewrite El, Ef, Eu, (proj2 (Z.leb_le _ 0)) by lia. rewrite Hr in * by lia.
    apply append_order; auto. rewrite (last_block_end t lo _ b); [lia|]. unfold last_block. now rewrite rev_app_distr.
  - apply AddAndCheck_found; auto; lia.
Qed.

(** The insertion that [NewBlock] makes. *)
Lemma insert_block_order t lo bs seq upper d :
  Forall sized bs -> in_order t lo bs -> lo <= seq_delta seq t -> fits t seq upper d ->
  inserted t lo (insert_block bs seq upper (seq_delta upper seq) d).
Proof.
  intros F O Hlo Hf. destruct bs as [|b bs].
  - apply (append_order t lo [] seq upper d); auto.
  - apply AddAndCheck_order; auto; [discriminate|]. pose proof (find_block_length seq (b :: bs)). lia.
Qed.

(** ** Deliveries and trims *)

(** The state: blocks with all their bytes, in order and apart when seen from [trim_seq],
    all of them with bytes after it. *)
Record orderly (r : Reassembler) : Prop := {
  or_sized : Forall sized (blocks r);
  or_order : in_order (trim_seq r) (- SEGMENT_LIMIT) (blocks r);
  or_trim : is_int (trim_seq r);
  or_last : is_int (last_reassem_seq r) }.

(** The rest of a list in order. *)
Lemma in_order_rest t bs cs : forall lo, Forall sized (bs ++ cs) -> in_order t lo (bs ++ cs) -> in_order t lo cs.
Proof.
  induction bs as [|b bs IH]; intros lo F O; [assumption|]. cbn [app] in *. apply Forall_cons_iff in F as [(_ & _ & _ & Hs) F].
  destruct O as (O1 & O2 & O3). apply in_order_weaken with (seq_delta (db_upper b) t); [now apply IH|lia].
Qed.

(** Where the blocks of a list in order begin and end. *)
Lemma in_order_starts t bs : forall lo, Forall sized bs -> in_order t lo bs ->
  Forall (fun b => lo <= seq_delta (db_seq b) t < seq_delta (db_upper b) t) bs.
Proof.
  induction bs as [|b bs IH]; intros lo F O; [constructor|]. apply Forall_cons_iff in F as [Sb F]. destruct O as (O1 & O2 & O3).
  pose proof (start_delta t b Sb O2). destruct Sb as (_ & _ & _ & Hs). constructor; [lia|].
  eapply Forall_impl; [|apply (IH _ F O3)]. cbn beta. lia.
Qed.

(** Where the blocks before a point end. *)
Lemma in_order_ends t bs : forall lo, Forall sized bs -> in_order t lo bs -> lo <= end_of t lo bs /\
  Forall (fun b => seq_delta (db_upper b) t <= end_of t lo bs) bs.
Proof.
  induction bs as [|b bs IH]; intros lo F O; [cbn; split; [lia|constructor]|]. apply Forall_cons_iff in F as [(_ & _ & _ & Hs) F].
  destruct O as (O1 & O2 & O3). destruct (IH _ F O3) as [I1 I2]. cbn [end_of]. split; [lia|]. now constructor.
Qed.

(** Seen from a later point [x], before which no block ends. *)
Lemma in_order_from t x b bs : forall lo, Forall sized (b :: bs) -> in_order t lo (b :: bs) ->
  0 < seq_delta x t < seq_delta (db_upper b) t -> in_order x (lo - seq_delta x t) (b :: bs).
Proof.
  revert b. induction bs as [|c bs IH]; intros b lo F O Hx; pose proof O as (O1 & O2 & O3); pose proof (seq_delta_int (db_upper b) t);
    (assert (E : seq_delta (db_upper b) x = seq_delta (db_upper b) t - seq_delta x t) by (apply delta_from; ints)); cbn [in_order]; rewrite E.
  - repeat split; lia.
  - split; [lia|]. split; [lia|]. apply Forall_cons_iff in F as [_ F]. destruct O3 as (O4 & O5 & O6).
    pose proof F as F'. apply Forall_cons_iff in F' as [(_ & _ & _ & Hs) _]. apply IH; [assumption|cbn; auto|lia].
Qed.

Section Calls.

Context (env : REnv).

(** No block begins at the position: nothing is delivered. *)
Lemma deliver_nothing bs r : Forall (fun b => db_seq b <> last_reassem_seq r) bs -> fst (deliver_blocks env bs r) = r.
Proof.
  induction 1 as [|b bs Hb F IH]; [reflexivity|]. cbn [deliver_blocks]. destruct (_ <=? 0); [|reflexivity].
  now rewrite (proj2 (Z.eqb_neq _ _)).
Qed.

(** The block at the position is delivered, and the loop goes on behind it. *)
Lemma deliver_block b bs r : sized b -> db_seq b = last_reassem_seq r ->
  exists r1, same_blocks r r1 /\ last_reassem_seq r1 = db_upper b /\ fst (deliver_blocks env (b :: bs) r) = fst (deliver_blocks env bs r1).
Proof.
  intros (_ & Hu & _) E. cbn [deliver_blocks]. rewrite E, delta_self, Z.eqb_refl. cbn [Z.leb Z.compare].
  rewrite Size_delta, <- E, add_delta by assumption.
  pose proof (DeliverBlock_same env (db_seq b) (seq_delta (db_upper b) (db_seq b)) (db_block b) (set_last_reassem_seq (db_upper b) r)) as D.
  destruct (DeliverBlock env _ _ (db_block b) _) as [r1 o1]. cbn [fst] in D. destruct D as ((D1 & D2) & D3).
  exists r1. destruct (deliver_blocks env bs r1). repeat split; auto.
Qed.

(** The delivery ends where no further block begins. *)
Lemma deliver_all t bs : forall r, Forall sized bs -> 0 <= seq_delta (last_reassem_seq r) t ->
  in_order t (seq_delta (last_reassem_seq r) t) bs -> is_int (last_reassem_seq r) ->
  let r' := fst (deliver_blocks env bs r) in
  same_blocks r r' /\ is_int (last_reassem_seq r') /\ seq_delta (last_reassem_seq r) t <= seq_delta (last_reassem_seq r') t /\
  Forall (fun b => db_seq b <> last_reassem_seq r') bs.
Proof.
  induction bs as [|b bs IH]; intros r F Hl O Hi; [cbn; repeat split; auto; try apply Hi; lia|].
  pose proof F as F'. apply Forall_cons_iff in F' as [Sb F']. pose proof (in_order_starts t (b :: bs) _ F O) as St. pose proof O as (O1 & O2 & O3).
  destruct (Z.eq_dec (db_seq b) (last_reassem_seq r)) as [E|N].
  - destruct (deliver_block b bs r Sb E) as (r1 & (S1 & S2) & L1 & ->). pose proof Sb as (_ & Hu & _ & Hs).
    specialize (IH r1). rewrite L1 in IH. destruct (IH F' ltac:(lia) O3 Hu) as ((I1 & I2) & I3 & I4 & I5).
    pose proof (start_delta t b Sb O2). rewrite E in *. repeat split; try congruence; try apply I3; try lia.
    constructor; [|assumption]. intros C. rewrite <- C in *. rewrite E in *. lia.
  - assert (D : Forall (fun b => db_seq b <> last_reassem_seq r) (b :: bs)).
    { constructor; [assumption|]. pose proof (in_order_starts t bs _ F' O3) as St'. pose proof (start_delta t b Sb O2).
      destruct Sb as (_ & _ & _ & Hs). eapply Forall_impl; [|exact St']. cbn beta. intros c Hc C. rewrite C in Hc. lia. }
    rewrite deliver_nothing by assumption. cbn zeta. repeat split; auto; try apply Hi; lia.
Qed.

(** What a trim keeps. *)
Lemma trim_blocks_order t lo x bs : Forall sized bs -> in_order t lo bs ->
  let kept := fst (trim_blocks x bs) in
  (exists gone, bs = gone ++ kept) /\ (0 < seq_delta x t -> - SEGMENT_LIMIT <= lo -> in_order x (- SEGMENT_LIMIT) kept).
Proof.
  revert lo. induction bs as [|b bs IH]; intros lo F O; [cbn; split; [now exists []|auto]|].
  pose proof F as F'. apply Forall_cons_iff in F' as [Sb F']. pose proof O as (O1 & O2 & O3). pose proof Sb as (_ & _ & _ & Hs).
  cbn [trim_blocks]. destruct (Z.leb_spec (seq_delta (db_upper b) x) 0) as [Hle|Hgt].
  - destruct (IH _ F' O3) as ((gone & G) & K). destruct (trim_blocks x bs) as [kept m]. cbn [fst] in *.
    split; [exists (b :: gone); cbn; congruence|]. intros Hx Hlo. apply K; [assumption|lia].
  - cbn [fst]. split; [now exists []|]. intros Hx Hlo. pose proof (seq_delta_int (db_upper b) t). pose proof (seq_delta_int x t).
    assert (E : seq_delta (db_upper b) x = seq_delta (db_upper b) t - seq_delta x t) by (apply delta_from; ints).
    pose proof (in_order_from t x b bs lo F O ltac:(lia)) as (P1 & P2 & P3). cbn [in_order]. repeat split; auto. lia.
Qed.

(** A trim where no block begins at the position calls nothing. *)
Lemma trim_quiet n x r : orderly r -> is_int x -> seq_delta x (last_reassem_seq r) <= 0 ->
  Forall (fun b => db_seq b <> last_reassem_seq r) (blocks r) ->
  exists r' m gone, TrimToSeq env (S n) x r = Some (r', [], m) /\ orderly r' /\ blocks r = gone ++ blocks r'.
Proof.
  intros [R1 R2 R3 R4] Hx Hl F. cbn [TrimToSeq]. rewrite (proj2 (Z.ltb_ge _ _)) by lia.
  destruct (trim_blocks_order (trim_seq r) (- SEGMENT_LIMIT) x (blocks r) R1 R2) as ((gone & G) & K).
  destruct (trim_blocks x (blocks r)) as [kept m]. cbn [fst] in *. rewrite G in R1, R2, F.
  apply Forall_app in F as [_ F]. pose proof (in_order_rest _ _ _ _ R1 R2) as O. apply Forall_app in R1 as [_ R1].
  assert (E : match kept with
              | b :: _ => if db_seq b =? last_reassem_seq (set_blocks kept r) then BlockInserted env n 0 (set_blocks kept r)
                          else Some (set_blocks kept r, [])
              | [] => Some (set_blocks kept r, [])
              end = Some (set_blocks kept r, [])).
  { destruct kept as [|b kept]; [reflexivity|]. cbn [last_reassem_seq set_blocks]. apply Forall_cons_iff in F as [Hb _].
    now rewrite (proj2 (Z.eqb_neq _ _)). }
  rewrite E. cbn [trim_seq set_blocks]. eexists _, _, gone. split; [reflexivity|].
  destruct (Z.ltb_spec 0 (seq_delta x (trim_seq r))); (split; [split; cbn; auto using Z.le_refl|assumption]).
Qed.

(** The block [b] that a delivery starts from has bytes from the position on: when the
    delivery has ended, no block begins at the new position. *)
Lemma deliver_inside r pre b post : orderly r -> blocks r = pre ++ b :: post ->
  seq_delta (db_seq b) (last_reassem_seq r) <= 0 -> 0 < seq_delta (db_upper b) (last_reassem_seq r) ->
  let r' := fst (deliver_blocks env (b :: post) r) in
  same_blocks r r' /\ is_int (last_reassem_seq r') /\ Forall (fun b => db_seq b <> last_reassem_seq r') (blocks r).
Proof.
  intros [R1 R2 R3 R4] Eb C1 C2. set (t := trim_seq r) in *. rewrite Eb in *. pose proof (in_order_rest _ _ _ _ R1 R2) as O.
  apply Forall_app in R1 as [F1 F2]. pose proof F2 as F2'. apply Forall_cons_iff in F2' as [Sb F3]. apply in_order_app in R2 as [O1 O2].
  pose proof (in_order_ends t pre _ F1 O1) as [_ Pe]. pose proof (in_order_starts t pre _ F1 O1) as Ps.
  pose proof O2 as (O3 & O4 & O5). pose proof (start_delta t b Sb O4) as Est. pose proof (in_order_starts t post _ F3 O5) as Qs.
  pose proof Sb as (_ & Iu & _ & Hs). unfold SEGMENT_LIMIT in Hs. pose proof (seq_delta_int (db_upper b) t).
  pose proof (seq_delta_int (last_reassem_seq r) t). pose proof (seq_delta_int (db_seq b) (last_reassem_seq r)).
  pose proof (seq_delta_int (db_upper b) (last_reassem_seq r)).
  assert (Hl : seq_delta (db_seq b) t <= seq_delta (last_reassem_seq r) t < seq_delta (db_upper b) t).
  { destruct (delta_wraps t (db_upper b) (last_reassem_seq r)) as (k & Ek), (delta_wraps t (db_seq b) (last_reassem_seq r)) as (j & Ej). ints. }
  assert (Pn : forall x, seq_delta (db_seq b) t <= seq_delta x t -> Forall (fun c => db_seq c <> x) pre).
  { intros x Hx. rewrite Forall_forall in *. intros c Hc <-. specialize (Pe c Hc). specialize (Ps c Hc). cbn beta in *. lia. }
  destruct (Z.eq_dec (db_seq b) (last_reassem_seq r)) as [E|N].
  - destruct (deliver_block b post r Sb E) as (r1 & (S1 & S2) & L1 & ->).
    destruct (deliver_all t post r1 F3) as ((I1 & I2) & I3 & I4 & I5); rewrite ?L1; auto; [lia|]. rewrite L1 in I4.
    split; [split; congruence|]. split; [assumption|]. apply Forall_app. split; [apply Pn; lia|]. constructor; [|assumption].
    intros C. cbn zeta in C. rewrite <- C in I4. lia.
  - assert (D : Forall (fun c => db_seq c <> last_reassem_seq r) (b :: post)).
    { constructor; [assumption|]. eapply Forall_impl; [|exact Qs]. cbn beta. intros c Hc C. rewrite C in Hc. lia. }
    rewrite deliver_nothing by assumption. split; [split; reflexivity|]. split; [assumption|]. apply Forall_app. split; [apply Pn; lia|assumption].
Qed.

(** [BlockInserted] calls [TrimToSeq] at most, which then calls nothing. *)
Lemma BlockInserted_orderly n i r : orderly r -> (i < length (blocks r))%nat ->
  exists r' out gone, BlockInserted env (S (S n)) i r = Some (r', out) /\ orderly r' /\ blocks r = gone ++ blocks r'.
Proof.
  intros Or Hi. pose proof Or as [R1 R2 R3 R4]. destruct (nth_error (blocks r) i) as [b|] eqn:E; [|apply nth_error_None in E; lia].
  cbn [BlockInserted]. rewrite E. destruct (_ || _) eqn:C; [exists r, [], []; auto|]. apply orb_false_iff in C as [C1 C2].
  apply Z.ltb_ge in C1. apply Z.leb_gt in C2. destruct (nth_error_split _ _ E) as (pre & post & Eb & Hlen).
  assert (Hsk : skipn i (blocks r) = b :: post) by (rewrite Eb, <- Hlen; now apply skipn_exact). rewrite Hsk.
  destruct (deliver_inside r pre b post Or Eb C1 C2) as ((D1 & D2) & D3 & D4).
  destruct (deliver_blocks env (b :: post) r) as [r1 out]. cbn [fst] in *.
  assert (Or1 : orderly r1) by (split; rewrite ?D1, ?D2; assumption).
  destruct (negb (peer_HasContents env) || _); [|exists r1, out, []; rewrite D1; auto].
  destruct (trim_quiet n (last_reassem_seq r1) r1 Or1 D3) as (r2 & m & gone & T & Or2 & G); [now rewrite delta_self|now rewrite D1|].
  cbn [TrimToSeq] in T |- *. rewrite T. exists r2, (out ++ []), gone. rewrite <- D1. auto.
Qed.
Lemma Undelivered_orderly x r : orderly r -> is_int x ->
  let r' := fst (Undelivered env x r) in orderly r' /\ blocks r' = blocks r /\ trim_seq r' = trim_seq r.
Proof.
  intros Or Hx. pose proof Or as [R1 R2 R3 R4]. unfold Undelivered. destruct (_ && IsPartial env); [auto|]. destruct (_ <=? 0); [auto|].
  destruct ((last_reassem_seq r =? 1) && _); (split; [split; cbn; assumption|auto]).
Qed.

(** An acknowledgement: [TrimToSeq] calls [BlockInserted] at most once. *)
Lemma TrimToSeq_orderly n x r : orderly r -> is_int x -> 0 < seq_delta x (trim_seq r) ->
  exists r' out m, TrimToSeq env (S (S (S n))) x r = Some (r', out, m) /\ orderly r'.
Proof.
  intros Or Hx Ht. cbn [TrimToSeq].
  assert (U : let u := if 0 <? seq_delta x (last_reassem_seq r) then Undelivered env x r else (r, []) in
              orderly (fst u) /\ blocks (fst u) = blocks r /\ trim_seq (fst u) = trim_seq r).
  { destruct (0 <? _); [now apply Undelivered_orderly|auto]. }
  cbn zeta in U. destruct (if 0 <? _ then _ else _) as [r1 out1]. cbn [fst] in U. destruct U as ([R1 R2 R3 R4] & _ & Et).
  destruct (trim_blocks_order (trim_seq r1) (- SEGMENT_LIMIT) x (blocks r1) R1 R2) as ((gone & G) & K).
  destruct (trim_blocks x (blocks r1)) as [kept m]. cbn [fst] in *. rewrite Et in K. specialize (K Ht ltac:(lia)). rewrite G in R1, R2.
  pose proof (in_order_rest _ _ _ _ R1 R2) as O. apply Forall_app in R1 as [_ R1].
  assert (Ok : orderly (set_blocks kept r1)) by now split.
  assert (E : exists r2 out2 gone2, match kept with
              | b :: _ => if db_seq b =? last_reassem_seq (set_blocks kept r1)
                          then BlockInserted env (S (S n)) 0 (set_blocks kept r1) else Some (set_blocks kept r1, [])
              | [] => Some (set_blocks kept r1, [])
              end = Some (r2, out2) /\ orderly r2 /\ kept = gone2 ++ blocks r2).
  { destruct kept as [|b kept]; [eexists _, _, []; auto|]. destruct (_ =? _); [|eexists _, _, []; auto].
    apply (BlockInserted_orderly n 0 (set_blocks (b :: kept) r1)); [assumption|cbn; lia]. }
  destruct E as (r2 & out2 & gone2 & -> & [P1 P2 P3 P4] & G2). eexists _, _, _. split; [reflexivity|].
  destruct (0 <? _); split; cbn; auto. rewrite G2 in R1, K. now apply in_order_rest in K.
Qed.

(** Where a segment ends, if it ends after [t]. *)
Lemma segment_end t seq len : 0 < len < SEGMENT_LIMIT -> 0 < seq_delta (int_add seq len) t ->
  seq_delta (int_add seq len) t = seq_delta seq t + len.
Proof.
  unfold SEGMENT_LIMIT. intros Hl He. pose proof (seq_delta_int (int_add seq len) t). pose proof (seq_delta_int seq t).
  destruct (delta_wraps t (int_add seq len) seq) as (k & E). rewrite (delta_add seq) in E by (rewrite delta_self; ints).
  rewrite delta_self in E. ints.
Qed.

Lemma NewBlock_orderly seq len d r : orderly r -> is_int seq -> 0 <= len < SEGMENT_LIMIT -> len <= Z.of_nat (length d) ->
  exists r' out, NewBlock env seq len d r = Some (r', out) /\ orderly r'.
Proof.
  intros Or Hi Hlen Hd. pose proof Or as [R1 R2 R3 R4]. unfold NewBlock. destruct (Z.eqb_spec len 0); [eauto|]. set (t := trim_seq r) in *.
  destruct (Z.leb_spec (seq_delta (int_add seq len) t) 0) as [|He]; [eauto|].
  pose proof (segment_end t seq len ltac:(lia) He) as Ee. pose proof (seq_delta_int seq t). pose proof (seq_delta_int (int_add seq len) t).
  set (old := if seq_delta seq t <? 0 then seq_delta t seq else 0).
  assert (Ho : old = Z.max 0 (- seq_delta seq t)).
  { unfold old. destruct (Z.ltb_spec (seq_delta seq t) 0); [|lia]. unfold SEGMENT_LIMIT in Hlen. rewrite (delta_from t); rewrite delta_self; ints. }
  clearbody old. pose proof (delta_add t seq old ltac:(ints)) as Es. set (upper := int_add seq len) in *.
  assert (Hf : fits t (int_add seq old) upper (skipn (Z.to_nat old) d)).
  { pose proof (int_add_int seq old). pose proof (int_add_int seq len) as Hu. fold upper in Hu. unfold fits. rewrite length_skipn, Es. ints. }
  assert (En : int_add len (- old) = seq_delta upper (int_add seq old)).
  { rewrite (fits_delta _ _ _ _ Hf), Es. unfold SEGMENT_LIMIT in Hlen. rewrite int_add_small by lia. lia. }
  rewrite En. destruct (insert_block_order t (- SEGMENT_LIMIT) (blocks r) (int_add seq old) upper (skipn (Z.to_nat old) d) R1 R2 ltac:(unfold SEGMENT_LIMIT; rewrite Es; lia) Hf) as (a & -> & A1 & A2 & A3).
  destruct (BlockInserted_orderly 2 (ad_start a) (set_blocks (ad_blocks a) r)) as (r' & out & gone & E & Or' & _).
  - now split.
  - assumption.
  - change call_depth with 4%nat. rewrite E. eauto.
Qed.

Lemma held_orderly limit name r : orderly r -> orderly (fst (too_much_held limit name r)).
Proof.
  intros Or. pose proof Or as [R1 R2 R3 R4]. unfold too_much_held. destruct (_ && _); [|assumption]. split; cbn; auto.
Qed.

(** The calls that the analyzer makes return. *)
Lemma DataSent_orderly seq len d r : orderly r -> is_int seq -> 0 <= len < SEGMENT_LIMIT -> len <= Z.of_nat (length d) ->
  exists r' out n, DataSent env true seq len d r = Some (r', out, n) /\ orderly r'.
Proof.
  intros Or Hi Hlen Hd. unfold DataSent. destruct (skip_deliveries r); [eauto|]. rewrite andb_false_r. cbn [andb Z.to_nat skipn Z.opp].
  assert (E0 : int_add seq 0 = seq) by (rewrite <- (delta_self seq); now apply add_delta).
  rewrite E0, (int_add_small len 0), Z.add_0_r by (unfold SEGMENT_LIMIT in Hlen; lia).
  destruct (NewBlock_orderly seq len d r Or Hi Hlen Hd) as (r1 & out1 & -> & Or1).
  match goal with |- context [let '(_, _) := ?c in _] => destruct c as [r2 out2] eqn:E2 end.
  assert (Or2 : orderly r2).
  { destruct (endp_NoDataAcked env); [|now injection E2 as <- _]. change r2 with (fst (r2, out2)). rewrite <- E2. now apply held_orderly. }
  match goal with |- context [let '(_, _) := ?c in _] => destruct c as [r3 out3] eqn:E3 end.
  eexists r3, _, _. split; [reflexivity|]. change r3 with (fst (r3, out3)). rewrite <- E3. now apply held_orderly.
Qed.

Lemma CheckEOF_orderly r : orderly r -> orderly (fst (CheckEOF env r)).
Proof. intros [R1 R2 R3 R4]. unfold CheckEOF. destruct (_ && _); split; cbn; assumption. Qed.

Lemma AckReceived_orderly due seq r g : orderly r -> is_int seq ->
  exists r' g' out, AckReceived env due seq r g = Some (r', g', out) /\ orderly r'.
Proof.
  intros Or Hi. unfold AckReceived.
  set (x := if (0 <? endp_FIN_cnt env) && _ then int_add (endp_FIN_seq env) (-1) else seq).
  assert (Hx : is_int x) by (unfold x; destruct (_ && _); [apply int_add_int|assumption]). clearbody x.
  destruct (Z.leb_spec (seq_delta x (trim_seq r)) 0); [eauto|].
  change call_depth with 4%nat. destruct (TrimToSeq_orderly 1 x r Or Hx) as (r1 & out1 & m & -> & Or1); [assumption|].
  match goal with |- context [let '(_, _) := ?c in _] => destruct c as [g2 out2] end.
  pose proof (CheckEOF_orderly r1 Or1) as Or2. destruct (CheckEOF env r1) as [r2 out3]. eauto.
Qed.

End Calls.

Lemma new_orderly : orderly new_Reassembler.
Proof. split; cbn; auto; ints. Qed.

(** A call of the analyzer: its number an [int], its bytes those of a packet. *)
Definition call_ok (eo : REnv * Op) : Prop :=
  match snd eo with
  | Segment seq d => is_int seq /\ Z.of_nat (length d) < SEGMENT_LIMIT
  | Ack _ seq => is_int seq
  end.

Lemma step_orderly env op r g : orderly r -> call_ok (env, op) -> exists r' g' out, step env op r g = Some (r', g', out) /\ orderly r'.
Proof.
  intros Or W. destruct op as [seq d|due seq]; cbn [step call_ok snd] in *.
  - destruct (DataSent_orderly env seq (Z.of_nat (length d)) d r Or) as (r' & out & n & -> & Or'); [apply W|lia|lia|eauto].
  - now apply AckReceived_orderly.
Qed.

(** C13: Whatever segments of less than 2^30 bytes and acknowledgements arrive, with any
    numbers of the type [int] (before the SYN, beyond everything seen, around the end of the
    sequence space), any options and any state of the endpoints, with copies that differ and
    bytes that were never seen: every call returns, at the recursion depth [call_depth] and
    without [AddAndCheck] running out of blocks; and the blocks held have all their bytes
    and, measured from [trim_seq], end after it, are in order and do not overlap. *)
Theorem reassembler_total ops g :
  Forall call_ok ops -> exists r g' out, run ops new_Reassembler g = Some (r, g', out) /\ orderly r.
Proof.
  intros F. pose proof new_orderly as T. revert T g. generalize new_Reassembler.
  induction F as [|[env op] ops W F IH]; intros r T g; [cbn; eauto|].
  destruct (step_orderly env op r g T W) as (r1 & g1 & out1 & E1 & T1).
  destruct (IH r1 T1 g1) as (r2 & g2 & out2 & E2 & T2). cbn [run]. rewrite E1, E2. eauto.
Qed.

(** Segments that disagree, one before the SYN, acknowledgements beyond all of them up to
    the end of the positive numbers, and data that goes on past it. *)
Definition wild_ops : list (REnv * Op) :=
  [(usual_env false, Segment 11 [1; 2; 3]); (usual_env false, Segment 8 [9; 9; 9; 9; 9; 9; 9]);
   (usual_env true, Segment (-2) [4; 4; 4; 7]); (usual_env true, Ack true 12); (usual_env true, Ack false 60);
   (usual_env true, Ack false 2147483640); (usual_env true, Segment 2147483645 [1; 2; 3; 4; 5; 6]);
   (usual_env true, Ack false (-2147483646))].

Lemma reassembler_total_witness :
  exists r g' out, run wild_ops new_Reassembler no_gaps = Some (r, g', out) /\ orderly r /\ trim_seq r = -2147483646.
Proof.
  destruct (reassembler_total wild_ops no_gaps) as (r & g' & out & E & O).
  - unfold wild_ops. repeat apply Forall_cons; try apply Forall_nil; cbn; unfold SEGMENT_LIMIT, is_int; lia.
  - exists r, g', out. split; [exact E|]. split; [exact O|].
    assert (X : option_map (fun p => trim_seq (fst (fst p))) (run wild_ops new_Reassembler no_gaps) = Some (-2147483646))
      by (vm_compute; reflexivity).
    rewrite E in X. cbn in X. now injection X.
Defined.
