(* ===== verification/FlowBuffer.v ===== *)
(** * The input buffers of Bro's protocol parsers

    [aux/binpac/lib/binpac_buffer.cc]: a parser asks for a frame or for a line, and bytes
    arrive in pieces of any size.  Bytes are copied only when a piece ends inside a frame.
    The flows that the parser generator emits around it ([aux/binpac/src/pac_flow.cc] and
    [pac_type.cc]) are modelled for types with a [&length]: a header of known size, then the
    length computed from it.

    [orig_data_begin_] to [orig_data_end_] is the list of the bytes between them, [buffer_]
    the list of its [buffer_n_] bytes.  A failed [BINPAC_ASSERT] is [None]. *)
From S2P Require Import Prelude Bytes CLib.
From Stdlib Require Import ZArith Lia List Bool.
Import ListNotations.
Open Scope Z_scope.
Open Scope list_scope.

Definition CR : Z := 13.
Definition LF : Z := 10.

(** [CR_LF_NUL] is declared and handled nowhere. *)
Inductive LineBreakStyle := CR_OR_LF | STRICT_CRLF | CR_LF_NUL.
Inductive Mode := UNKNOWN_MODE | LINE_MODE | FRAME_MODE.
Inductive LineState := CR_OR_LF_0 | CR_OR_LF_1 | STRICT_CRLF_0 | STRICT_CRLF_1 | FRAME_0.

Record FlowBuffer := {
  buffer : list Z;
  message_complete : bool;
  frame_length : Z;
  chunked : bool;
  orig_data : list Z;
  linebreak_style : LineBreakStyle;
  mode : Mode;
  line_state : LineState;
  data_seq_at_orig_data_end : Z;
  eof : bool;
  have_pending_request : bool }.

(** What the operations change: the two byte strings, the completion, the request. *)
Definition with_data (b o : list Z) (c : bool) (fb : FlowBuffer) : FlowBuffer :=
  {| buffer := b; message_complete := c; frame_length := frame_length fb; chunked := chunked fb; orig_data := o;
     linebreak_style := linebreak_style fb; mode := mode fb; line_state := line_state fb;
     data_seq_at_orig_data_end := data_seq_at_orig_data_end fb; eof := eof fb;
     have_pending_request := have_pending_request fb |}.

Definition with_request (m : Mode) (len : Z) (ch pending : bool) (fb : FlowBuffer) : FlowBuffer :=
  {| buffer := buffer fb; message_complete := message_complete fb; frame_length := len; chunked := ch;
     orig_data := orig_data fb; linebreak_style := linebreak_style fb; mode := m; line_state := line_state fb;
     data_seq_at_orig_data_end := data_seq_at_orig_data_end fb; eof := eof fb; have_pending_request := pending |}.

Definition with_line_state (st : LineState) (fb : FlowBuffer) : FlowBuffer :=
  {| buffer := buffer fb; message_complete := message_complete fb; frame_length := frame_length fb;
     chunked := chunked fb; orig_data := orig_data fb; linebreak_style := linebreak_style fb; mode := mode fb;
     line_state := st; data_seq_at_orig_data_end := data_seq_at_orig_data_end fb; eof := eof fb;
     have_pending_request := have_pending_request fb |}.

Definition with_position (seq : Z) (e : bool) (fb : FlowBuffer) : FlowBuffer :=
  {| buffer := buffer fb; message_complete := message_complete fb; frame_length := frame_length fb;
     chunked := chunked fb; orig_data := orig_data fb; linebreak_style := linebreak_style fb; mode := mode fb;
     line_state := line_state fb; data_seq_at_orig_data_end := seq; eof := e;
     have_pending_request := have_pending_request fb |}.

Definition buffer_n (fb : FlowBuffer) : Z := Z.of_nat (length (buffer fb)).
Definition orig_n (fb : FlowBuffer) : Z := Z.of_nat (length (orig_data fb)).

(** [ResetLineState] *)
Definition ResetLineState (fb : FlowBuffer) : option FlowBuffer :=
  match linebreak_style fb with
  | CR_OR_LF => Some (with_line_state CR_OR_LF_0 fb)
  | STRICT_CRLF => Some (with_line_state STRICT_CRLF_0 fb)
  | CR_LF_NUL => None
  end.

(** [NewMessage]: past the message that was complete. *)
Definition NewMessage (fb : FlowBuffer) : option FlowBuffer :=
  if frame_length fb <? 0 then None
  else
    let bytes_to_advance :=
      if buffer_n fb =? 0 then
        match mode fb with
        | LINE_MODE => frame_length fb + (match linebreak_style fb with STRICT_CRLF => 2 | _ => 1 end)
        | FRAME_MODE => frame_length fb
        | UNKNOWN_MODE => 0
        end
      else 0 in
    if orig_n fb <? bytes_to_advance then None
    else Some (with_data [] (skipn (Z.to_nat bytes_to_advance) (orig_data fb)) false fb).

(** The constructor. *)
Definition new_FlowBuffer (style : LineBreakStyle) : option FlowBuffer :=
  match ResetLineState {| buffer := []; message_complete := false; frame_length := 0; chunked := false; orig_data := [];
                          linebreak_style := style; mode := UNKNOWN_MODE; line_state := FRAME_0;
                          data_seq_at_orig_data_end := 0; eof := false; have_pending_request := false |} with
  | Some fb => NewMessage fb
  | None => None
  end.

(** [AppendToBuffer]: the first [len] bytes of the piece.  [ExpandBuffer] is taken to get
    its memory. *)
Definition AppendToBuffer (len : Z) (fb : FlowBuffer) : option FlowBuffer :=
  if len <=? 0 then Some fb
  else if chunked fb then None
  else if orig_n fb <? len then None
  else Some (with_data (buffer fb ++ firstn (Z.to_nat len) (orig_data fb)) (skipn (Z.to_nat len) (orig_data fb))
                       (message_complete fb) fb).

Definition set_complete (c : bool) (fb : FlowBuffer) : FlowBuffer := with_data (buffer fb) (orig_data fb) c fb.

(** [MarkOrCopyFrame] *)
Definition MarkOrCopyFrame (fb : FlowBuffer) : option FlowBuffer :=
  let fb :=
    match mode fb, line_state fb, orig_data fb with
    | FRAME_MODE, CR_OR_LF_1, c :: rest =>
        with_line_state FRAME_0 (if c =? LF then with_data (buffer fb) rest (message_complete fb) fb else fb)
    | _, _, _ => fb
    end in
  if buffer_n fb =? 0 then
    if (0 <=? frame_length fb) && (frame_length fb <=? orig_n fb) then Some (set_complete true fb)
    else
      match (if chunked fb then Some fb else AppendToBuffer (orig_n fb) fb) with
      | Some fb => Some (set_complete false fb)
      | None => None
      end
  else if chunked fb then None
  else
    let enough := (0 <=? frame_length fb) && (frame_length fb <=? buffer_n fb + orig_n fb) in
    let bytes_to_copy := if enough then frame_length fb - buffer_n fb else orig_n fb in
    AppendToBuffer bytes_to_copy (set_complete enough fb).

(** The scan of [MarkOrCopyLine_CR_OR_LF]: the length of the line, and the new state. *)
Fixpoint scan_CR_OR_LF (data : list Z) (st : LineState) : option nat * LineState :=
  match data with
  | [] => (None, st)
  | c :: data =>
      if c =? CR then (Some O, CR_OR_LF_1)
      else if c =? LF then (Some O, st)
      else let '(n, st) := scan_CR_OR_LF data st in (option_map S n, st)
  end.

Definition MarkOrCopyLine_CR_OR_LF (fb : FlowBuffer) : option FlowBuffer :=
  let fb :=
    match line_state fb, orig_data fb with
    | CR_OR_LF_1, c :: rest =>
        if c =? LF then with_line_state CR_OR_LF_0 (with_data (buffer fb) rest (message_complete fb) fb) else fb
    | _, _ => fb
    end in
  let '(found, st) := scan_CR_OR_LF (orig_data fb) (line_state fb) in
  let fb := with_line_state st fb in
  match found with
  | None => AppendToBuffer (orig_n fb) fb
  | Some n =>
      if buffer_n fb =? 0
      then Some (set_complete true (with_request (mode fb) (Z.of_nat n) (chunked fb) (have_pending_request fb) fb))
      else
        match AppendToBuffer (Z.of_nat n + 1) fb with
        | None => None
        | Some fb => Some (with_data (firstn (length (buffer fb) - 1) (buffer fb)) (orig_data fb) true fb)
        end
  end.

(** The scan of [MarkOrCopyLine_STRICT_CRLF]: the place of the LF, and the new state. *)
Fixpoint scan_STRICT_CRLF (data : list Z) (st : LineState) : option nat * LineState :=
  match data with
  | [] => (None, st)
  | c :: data =>
      let next st := let '(n, st) := scan_STRICT_CRLF data st in (option_map S n, st) in
      if c =? CR then next STRICT_CRLF_1
      else if c =? LF then
        match st with STRICT_CRLF_1 => (Some O, STRICT_CRLF_0) | _ => next st end
      else next STRICT_CRLF_0
  end.

Definition MarkOrCopyLine_STRICT_CRLF (fb : FlowBuffer) : option FlowBuffer :=
  let '(found, st) := scan_STRICT_CRLF (orig_data fb) (line_state fb) in
  let fb := with_line_state st fb in
  match found with
  | None => AppendToBuffer (orig_n fb) fb
  | Some n =>
      if buffer_n fb =? 0
      then Some (set_complete true (with_request (mode fb) (Z.of_nat n - 1) (chunked fb) (have_pending_request fb) fb))
      else
        match AppendToBuffer (Z.of_nat n + 1) fb with
        | None => None
        | Some fb => Some (with_data (firstn (length (buffer fb) - 2) (buffer fb)) (orig_data fb) true fb)
        end
  end.

Definition MarkOrCopyLine (fb : FlowBuffer) : option FlowBuffer :=
  match linebreak_style fb with
  | CR_OR_LF => MarkOrCopyLine_CR_OR_LF fb
  | STRICT_CRLF => MarkOrCopyLine_STRICT_CRLF fb
  | CR_LF_NUL => None
  end.

Definition MarkOrCopy (fb : FlowBuffer) : option FlowBuffer :=
  if message_complete fb then Some fb
  else match mode fb with
       | LINE_MODE => MarkOrCopyLine fb
       | FRAME_MODE => MarkOrCopyFrame fb
       | UNKNOWN_MODE => Some fb
       end.

(** [NewLine] *)
Definition NewLine (fb : FlowBuffer) : option FlowBuffer :=
  match NewMessage fb with
  | None => None
  | Some fb =>
      let fb := with_request LINE_MODE 0 false true fb in
      match (match line_state fb with FRAME_0 => ResetLineState fb | _ => Some fb end) with
      | None => None
      | Some fb => MarkOrCopyLine fb
      end
  end.

(** [NewFrame] *)
Definition NewFrame (len : Z) (ch : bool) (fb : FlowBuffer) : option FlowBuffer :=
  match NewMessage fb with
  | None => None
  | Some fb => MarkOrCopyFrame (with_request FRAME_MODE len ch true fb)
  end.

(** [GrowFrame] *)
Definition GrowFrame (len : Z) (fb : FlowBuffer) : option FlowBuffer :=
  if frame_length fb <? 0 then None
  else if len <=? frame_length fb then Some fb
  else if chunked fb && negb (frame_length fb =? 0) then None
  else MarkOrCopyFrame (with_request FRAME_MODE len (chunked fb) (have_pending_request fb) fb).

(** [DiscardData] *)
Definition DiscardData (fb : FlowBuffer) : FlowBuffer :=
  with_data [] [] false (with_request UNKNOWN_MODE 0 (chunked fb) false fb).

(** [set_eof] *)
Definition set_eof (fb : FlowBuffer) : FlowBuffer :=
  let len := if chunked fb then orig_n fb else frame_length fb in
  with_position (data_seq_at_orig_data_end fb) true
    (with_request (mode fb) (if len <? 0 then 0 else len) (chunked fb) (have_pending_request fb) fb).

(** [ClearPreviousData] *)
Definition ClearPreviousData (fb : FlowBuffer) : option FlowBuffer :=
  match orig_data fb with
  | [] => Some fb
  | _ :: _ =>
      if negb (buffer_n fb =? 0) then None
      else if chunked fb then
        let len := if 0 <? frame_length fb then frame_length fb - orig_n fb else frame_length fb in
        Some (with_data (buffer fb) [] (message_complete fb)
                (with_request (mode fb) len (chunked fb) (have_pending_request fb) fb))
      else Some fb
  end.

(** [NewData] *)
Definition NewData (data : list Z) (fb : FlowBuffer) : option FlowBuffer :=
  match ClearPreviousData fb with
  | None => None
  | Some fb =>
      if ((buffer_n fb =? 0) && message_complete fb) || (orig_n fb =? 0)
      then MarkOrCopy (with_position (swrap 32 (data_seq_at_orig_data_end fb + Z.of_nat (length data))) (eof fb)
                         (with_data (buffer fb) data (message_complete fb) fb))
      else None
  end.

(** [NewGap] *)
Definition NewGap (len : Z) (fb : FlowBuffer) : option FlowBuffer :=
  match ClearPreviousData fb with
  | None => None
  | Some fb =>
      let flen := if chunked fb && (0 <=? frame_length fb) then Z.max 0 (frame_length fb - len) else frame_length fb in
      MarkOrCopy (with_data (buffer fb) [] (message_complete fb)
                    (with_request (mode fb) flen (chunked fb) (have_pending_request fb) fb))
  end.

(** [ready], [data_available], and the bytes from [begin] to [end]. *)
Definition ready (fb : FlowBuffer) : bool :=
  message_complete fb || match mode fb with UNKNOWN_MODE => true | _ => false end.

Definition data_available (fb : FlowBuffer) : bool := (0 <? buffer_n fb) || (0 <? orig_n fb).

Definition begin_to_end (fb : FlowBuffer) : option (list Z) :=
  if negb (ready fb) then None
  else if buffer_n fb =? 0
  then if (frame_length fb <? 0) || (orig_n fb <? frame_length fb) then None
       else Some (firstn (Z.to_nat (frame_length fb)) (orig_data fb))
  else Some (buffer fb).

(** [data_length] and [data_seq] *)
Definition data_length (fb : FlowBuffer) : Z :=
  if 0 <? buffer_n fb then buffer_n fb
  else if (frame_length fb <? 0) || (orig_n fb <? frame_length fb) then orig_n fb else frame_length fb.

Definition data_seq (fb : FlowBuffer) : Z :=
  let at_begin := swrap 32 (data_seq_at_orig_data_end fb - orig_n fb) in
  if 0 <? buffer_n fb then at_begin else swrap 32 (at_begin + data_length fb).

(** ** Flows

    The code that is generated for a flow whose units have a header of [initial] bytes and a
    [&length] computed from it.  [on_unit] is the parser of a unit's bytes with what it
    sets off: it may throw away the buffered input ([discard_data]) or throw. *)

Inductive UnitResult (A : Type) := Parsed (a : A) (discard : bool) | Thrown (a : A).
Arguments Parsed {A}.
Arguments Thrown {A}.

Record Flow := { flow_buffer : FlowBuffer; dataunit : option Z (* its buffering state *) }.

Inductive UnitEnd := Complete | Waiting | Threw.

Section Flows.

Context {A : Type} (initial : Z) (total_length : list Z -> Z) (on_unit : list Z -> A -> UnitResult A).

(** [ParseBuffer] of the unit's type (from [GenParseBuffer]): one step of its buffering. *)
Definition ParseBuffer (st : Z) (fb : FlowBuffer) (a : A) : option (FlowBuffer * Z * A * UnitEnd) :=
  match begin_to_end fb with
  | None => None
  | Some data =>
      if st =? 0 then
        match NewFrame initial false fb with Some fb => Some (fb, 1, a, Waiting) | None => None end
      else if st =? 1 then
        match GrowFrame (total_length data) fb with Some fb => Some (fb, 2, a, Waiting) | None => None end
      else
        match on_unit data a with
        | Parsed a discard => Some (if discard then DiscardData fb else fb, 0, a, Complete)
        | Thrown a => Some (fb, st, a, Threw)
        end
  end.

(** The loop of [GenBufferingLoop]; a unit has three states. *)
Fixpoint buffering_loop (fuel : nat) (st : Z) (fb : FlowBuffer) (a : A) : option (FlowBuffer * Z * A * UnitEnd) :=
  if negb (ready fb) then Some (fb, st, a, Waiting)
  else
    match fuel with
    | O => None
    | S fuel =>
        match ParseBuffer st fb a with
        | Some (fb, st, a, Waiting) => buffering_loop fuel st fb a
        | r => r
        end
    end.

(** The loop of [GenCodeFlowUnit]; one round per unit. *)
Fixpoint flow_loop (fuel : nat) (fl : Flow) (a : A) : option (Flow * A * UnitEnd) :=
  if data_available (flow_buffer fl) && (negb (have_pending_request (flow_buffer fl)) || ready (flow_buffer fl)) then
    match fuel with
    | O => None
    | S fuel =>
        match (match dataunit fl with
               | Some st => Some (flow_buffer fl, st)
               | None => option_map (fun fb => (fb, 0)) (NewFrame 0 false (flow_buffer fl))
               end) with
        | None => None
        | Some (fb, st) =>
            match buffering_loop 3 st fb a with
            | None => None
            | Some (fb, st, a, Complete) => flow_loop fuel {| flow_buffer := fb; dataunit := None |} a
            | Some (fb, st, a, Waiting) =>
                (* BINPAC_ASSERT(! ready()) *)
                if ready fb then None else Some ({| flow_buffer := fb; dataunit := Some st |}, a, Waiting)
            | Some (fb, st, a, Threw) => Some ({| flow_buffer := DiscardData fb; dataunit := None |}, a, Threw)
            end
        end
    end
  else Some (fl, a, Waiting).

(** [NewData] of the flow (from [GenProcessFunc]); [Threw] when an exception leaves it. *)
Definition flow_NewData (data : list Z) (fl : Flow) (a : A) : option (Flow * A * UnitEnd) :=
  match NewData data (flow_buffer fl) with
  | None => None
  | Some fb => flow_loop (S (length (buffer fb) + length (orig_data fb))) {| flow_buffer := fb; dataunit := dataunit fl |} a
  end.

(** [FlowEOF] and [NewGap] of the flow. *)
Definition flow_NewGap (len : Z) (fl : Flow) : option Flow :=
  option_map (fun fb => {| flow_buffer := fb; dataunit := dataunit fl |}) (NewGap len (flow_buffer fl)).

Definition flow_EOF (fl : Flow) (a : A) : option (Flow * A * UnitEnd) :=
  flow_NewData [] {| flow_buffer := set_eof (flow_buffer fl); dataunit := dataunit fl |} a.

(** Pieces one after the other, up to the first exception. *)
Fixpoint flow_feed (pieces : list (list Z)) (fl : Flow) (a : A) : option (Flow * A * UnitEnd) :=
  match pieces with
  | [] => Some (fl, a, Waiting)
  | d :: pieces =>
      match flow_NewData d fl a with
      | Some (fl, a, Threw) => Some (fl, a, Threw)
      | Some (fl, a, _) => flow_feed pieces fl a
      | None => None
      end
  end.

(** ** Framing does not depend on the pieces

    The specification: a unit takes its header and what the length says, and units follow
    each other. *)

Definition unit_length (s : list Z) : Z := Z.max initial (total_length (firstn (Z.to_nat initial) s)).

Fixpoint units (fuel : nat) (s : list Z) : list (list Z) * list Z :=
  match fuel with
  | O => ([], s)
  | S fuel =>
      let n := Z.of_nat (length s) in
      if (initial <=? n) && (unit_length s <=? n)
      then let '(us, rest) := units fuel (skipn (Z.to_nat (unit_length s)) s) in
           (firstn (Z.to_nat (unit_length s)) s :: us, rest)
      else ([], s)
  end.

(** A frame of [n] bytes is asked for, of the bytes [c] at hand. *)
Definition requested (n : Z) (c : list Z) (fb : FlowBuffer) : Prop :=
  mode fb = FRAME_MODE /\ chunked fb = false /\ frame_length fb = n /\ have_pending_request fb = true /\
  line_state fb <> CR_OR_LF_1 /\
  if Z.of_nat (length c) <? n
  then message_complete fb = false /\ buffer fb = c /\ orig_data fb = []
  else message_complete fb = true /\
       ((buffer fb = [] /\ orig_data fb = c) \/
        (0 < n /\ buffer fb = firstn (Z.to_nat n) c /\ orig_data fb = skipn (Z.to_nat n) c)).

End Flows.
