(* ===== verification/FlowThms.v ===== *)
(** * Framing does not depend on the pieces

    Theorems on [FlowBuffer]: the units that a flow parses are those of the bytes put
    together, whatever the pieces they arrive in; and what a gap does. *)
From S2P Require Import Prelude Bytes CLib FlowBuffer.
From Stdlib Require Import ZArith Lia List Bool.
Import ListNotations.
Open Scope Z_scope.
Open Scope list_scope.

Lemma buffer_n_zero fb : (buffer_n fb =? 0) = match buffer fb with [] => true | _ => false end.
Proof. unfold buffer_n. destruct (buffer fb); reflexivity. Qed.

Lemma AppendToBuffer_spec len fb :
  chunked fb = false -> len <= orig_n fb ->
  AppendToBuffer len fb = Some (with_data (buffer fb ++ firstn (Z.to_nat len) (orig_data fb))
                                          (skipn (Z.to_nat len) (orig_data fb)) (message_complete fb) fb).
Proof.
  intros Hc Hl. unfold AppendToBuffer. destruct (Z.leb_spec len 0).
  - replace (Z.to_nat len) with O by lia. cbn. rewrite app_nil_r. now destruct fb.
  - rewrite Hc. destruct (Z.ltb_spec (orig_n fb) len); [lia|reflexivity].
Qed.

(** [MarkOrCopyFrame] meets a request for [n] bytes. *)
Lemma MarkOrCopyFrame_requested n fb :
  mode fb = FRAME_MODE -> chunked fb = false -> frame_length fb = n -> have_pending_request fb = true ->
  line_state fb <> CR_OR_LF_1 -> 0 <= n -> buffer_n fb <= n ->
  exists fb', MarkOrCopyFrame fb = Some fb' /\ requested n (buffer fb ++ orig_data fb) fb'.
Proof.
  intros Hm Hch Hf Hp Hl Hn Hb. unfold MarkOrCopyFrame. rewrite Hm.
  replace (match line_state fb with CR_OR_LF_1 => _ | _ => fb end) with fb by (destruct (line_state fb); congruence).
  rewrite buffer_n_zero, Hf, Hch, (proj2 (Z.leb_le 0 n) Hn). cbn [andb].
  unfold requested. rewrite length_app. destruct (buffer fb) as [|b0 bs] eqn:Eb.
  - cbn [app length Nat.add]. destruct (Z.leb_spec n (orig_n fb)) as [Hle|Hgt]; unfold orig_n in *.
    + eexists. split; [reflexivity|]. rewrite (proj2 (Z.ltb_ge _ _)) by lia. cbn. auto 10.
    + rewrite AppendToBuffer_spec by (auto; unfold orig_n; lia). eexists. split; [reflexivity|].
      rewrite (proj2 (Z.ltb_lt _ _)) by lia. cbn. rewrite Nat2Z.id, firstn_all, skipn_all, Eb. auto 10.
  - set (b := b0 :: bs) in *. unfold buffer_n, orig_n in *. rewrite Eb in *. rewrite AppendToBuffer_spec.
    2: assumption.
    2:{ unfold orig_n, set_complete. cbn [orig_data with_data]. destruct (Z.leb_spec n (Z.of_nat (length b) + Z.of_nat (length (orig_data fb)))); lia. }
    eexists. split; [reflexivity|].
    destruct (Z.leb_spec n (Z.of_nat (length b) + Z.of_nat (length (orig_data fb)))) as [Hle|Hgt].
    + rewrite (proj2 (Z.ltb_ge _ _)) by lia. cbn [mode chunked frame_length have_pending_request line_state with_data set_complete
        message_complete buffer orig_data]. repeat split; auto. right. rewrite Eb. split; [subst b; cbn in *; lia|].
      rewrite firstn_app, skipn_app. rewrite (firstn_all2 b), (skipn_all2 b) by lia. cbn [app].
      split; repeat f_equal; lia.
    + rewrite (proj2 (Z.ltb_lt _ _)) by lia. cbn [mode chunked frame_length have_pending_request line_state with_data set_complete
        message_complete buffer orig_data]. rewrite Nat2Z.id, firstn_all, skipn_all, Eb. auto 10.
Qed.

(** A complete frame is read between [begin] and [end]. *)
Lemma requested_bytes n c fb :
  requested n c fb -> 0 <= n <= Z.of_nat (length c) ->
  ready fb = true /\ begin_to_end fb = Some (firstn (Z.to_nat n) c).
Proof.
  intros (_ & _ & Hf & _ & _ & R) Hn. rewrite (proj2 (Z.ltb_ge _ _)) in R by lia. destruct R as [Hc R].
  unfold begin_to_end, ready. rewrite Hc. cbn. split; [reflexivity|]. rewrite buffer_n_zero, Hf.
  destruct R as [[-> Ho]|(Hp & Hb & Ho)]; unfold orig_n; rewrite Ho.
  - rewrite (proj2 (Z.ltb_ge n 0)), (proj2 (Z.ltb_ge _ n)) by lia. reflexivity.
  - rewrite Hb. assert (length (firstn (Z.to_nat n) c) = Z.to_nat n) as L by (rewrite length_firstn; lia).
    destruct (firstn (Z.to_nat n) c); [cbn in L; lia|reflexivity].
Qed.

Lemma requested_not_ready n c fb : requested n c fb -> Z.of_nat (length c) < n -> ready fb = false.
Proof.
  intros (Hm & _ & _ & _ & _ & R) Hn. rewrite (proj2 (Z.ltb_lt _ _)) in R by lia. destruct R as [Hc _].
  unfold ready. now rewrite Hc, Hm.
Qed.

Lemma requested_available n c fb : requested n c fb -> 0 <= n -> data_available fb = negb (match c with [] => true | _ => false end).
Proof.
  intros (_ & _ & _ & _ & _ & R) Hn. unfold data_available, buffer_n, orig_n.
  destruct (Z.ltb_spec (Z.of_nat (length c)) n) as [Hlt|Hge].
  - destruct R as (_ & -> & ->). destruct c; reflexivity.
  - destruct R as [_ [[-> ->]|(Hp & -> & ->)]]; [destruct c; reflexivity|].
    rewrite length_firstn, length_skipn. destruct c; [cbn in Hge; lia|]. cbn [negb length] in *.
    rewrite (proj2 (Z.ltb_lt 0 (Z.of_nat (Nat.min (Z.to_nat n) (S (length c)))))) by lia. reflexivity.
Qed.

(** The next frame begins after one that is complete. *)
Lemma NewFrame_requested n m c fb :
  requested n c fb -> 0 <= n <= Z.of_nat (length c) -> 0 <= m ->
  exists fb', NewFrame m false fb = Some fb' /\ requested m (skipn (Z.to_nat n) c) fb'.
Proof.
  intros (Hm & Hch & Hf & Hp & Hl & R) Hn Hm0. rewrite (proj2 (Z.ltb_ge _ _)) in R by lia. destruct R as [Hc R].
  unfold NewFrame, NewMessage. rewrite Hf, (proj2 (Z.ltb_ge n 0)) by lia. rewrite buffer_n_zero, Hm.
  destruct R as [[Eb Eo]|(Hpos & Eb & Eo)]; rewrite Eb.
  - unfold orig_n. rewrite Eo. rewrite (proj2 (Z.ltb_ge _ n)) by lia.
    edestruct (MarkOrCopyFrame_requested m) as (fb' & E & Q); [..|exists fb'; split; [exact E|exact Q]]; cbn; auto.
  - assert (length (firstn (Z.to_nat n) c) = Z.to_nat n) as L by (rewrite length_firstn; lia).
    destruct (firstn (Z.to_nat n) c); [cbn in L; lia|]. unfold orig_n.
    rewrite (proj2 (Z.ltb_ge (Z.of_nat (length (orig_data fb))) 0)) by lia. cbn [skipn Z.to_nat]. rewrite Eo.
    edestruct (MarkOrCopyFrame_requested m) as (fb' & E & Q); [..|exists fb'; split; [exact E|exact Q]]; cbn; auto.
Qed.

Lemma GrowFrame_requested n m c fb :
  requested n c fb -> 0 <= n <= Z.of_nat (length c) ->
  exists fb', GrowFrame m fb = Some fb' /\ requested (Z.max n m) c fb'.
Proof.
  intros Q Hn. pose proof Q as (Hm & Hch & Hf & Hp & Hl & R). unfold GrowFrame.
  rewrite Hf, Hch, (proj2 (Z.ltb_ge n 0)) by lia. destruct (Z.leb_spec m n).
  - exists fb. split; [reflexivity|]. now rewrite Z.max_l.
  - rewrite Z.max_r by lia. cbn [andb]. rewrite (proj2 (Z.ltb_ge _ _)) in R by lia. destruct R as [Hc R].
    edestruct (MarkOrCopyFrame_requested m (with_request FRAME_MODE m false (have_pending_request fb) fb)) as (fb' & E & Q');
      cbn; auto; try lia.
    { unfold buffer_n. cbn. destruct R as [[-> _]|(_ & -> & _)]; [cbn; lia|]. rewrite length_firstn. lia. }
    exists fb'. split; [exact E|]. cbn [buffer orig_data with_request] in Q'.
    destruct R as [[E1 E2]|(_ & E1 & E2)]; rewrite E1, E2 in Q'; [exact Q'|]. now rewrite firstn_skipn in Q'.
Qed.

(** A piece of input for a frame that is not complete. *)
Lemma NewData_requested n c d fb :
  requested n c fb -> Z.of_nat (length c) < n ->
  exists fb', NewData d fb = Some fb' /\ requested n (c ++ d) fb'.
Proof.
  intros (Hm & Hch & Hf & Hp & Hl & R) Hn. rewrite (proj2 (Z.ltb_lt _ _)) in R by lia. destruct R as (Hc & Eb & Eo).
  unfold NewData, ClearPreviousData. rewrite Eo. unfold orig_n at 1. rewrite Eo. cbn [length Z.of_nat Z.eqb]. rewrite orb_true_r.
  unfold MarkOrCopy. cbn [message_complete mode with_position with_data]. rewrite Hc, Hm.
  edestruct (MarkOrCopyFrame_requested n) as (fb' & E & Q); [..|exists fb'; split; [exact E|]]; cbn; auto; try lia.
  - unfold buffer_n. cbn. rewrite Eb. lia.
  - cbn [buffer orig_data with_data with_position] in Q. now rewrite Eb in Q.
Qed.

Section Framing.

Context {A : Type} (initial : Z) (total_length : list Z -> Z) (on_unit : list Z -> A -> UnitResult A).
Context (Hinitial : 1 <= initial).

Abbreviation unit_length := (unit_length initial total_length).
Abbreviation units := (units initial total_length).
Abbreviation buffering_loop := (buffering_loop initial total_length on_unit).
Abbreviation flow_loop := (flow_loop initial total_length on_unit).

Lemma unit_length_initial c : initial <= unit_length c.
Proof. unfold FlowBuffer.unit_length. lia. Qed.

Lemma units_fuel k s us rest k' :
  units k s = (us, rest) -> (length s <= k)%nat -> (length s <= k')%nat -> units k' s = (us, rest).
Proof.
  revert s us rest k'. induction k as [|k IH]; intros s us rest k' E Hk Hk'.
  - destruct s; [|cbn in Hk; lia]. cbn in E. rewrite <- E. destruct k'; [reflexivity|]. cbn [FlowBuffer.units].
    rewrite (proj2 (Z.leb_gt initial _)) by (cbn; lia). reflexivity.
  - destruct k' as [|k'].
    + destruct s; [|cbn in Hk'; lia]. cbn [FlowBuffer.units] in E.
      rewrite (proj2 (Z.leb_gt initial _)) in E by (cbn; lia). exact E.
    + cbn [FlowBuffer.units] in *. destruct (Z.leb_spec initial (Z.of_nat (length s))); cbn [andb] in *; [|assumption].
      destruct (Z.leb_spec (unit_length s) (Z.of_nat (length s))); [|assumption]. pose proof (unit_length_initial s).
      destruct (units k (skipn (Z.to_nat (unit_length s)) s)) as [us' rest'] eqn:E'.
      rewrite (IH _ _ _ k' E'); [exact E| |]; rewrite length_skipn; lia.
Qed.

(** The parser takes the unit [u], or the units [us], as [f] says. *)
Definition accepts (f : list Z -> A -> A) (u : list Z) (a : A) : Prop := on_unit u a = Parsed (f u a) false.

Fixpoint accepted (f : list Z -> A -> A) (us : list (list Z)) (a : A) : Prop :=
  match us with
  | [] => True
  | u :: us => accepts f u a /\ accepted f us (f u a)
  end.

Lemma accepted_app f us vs : forall a,
  accepted f (us ++ vs) a <-> accepted f us a /\ accepted f vs (fold_left (fun a u => f u a) us a).
Proof. induction us as [|u us IH]; intros a; cbn [app accepted fold_left]; [tauto|]. rewrite IH. tauto. Qed.

(** Where the loop over one unit ends, at the bytes [c] from the unit's beginning on. *)
Definition unit_outcome (f : list Z -> A -> A) (c : list Z) (a : A) (r : option (FlowBuffer * Z * A * UnitEnd)) : Prop :=
  let n := Z.of_nat (length c) in
  exists fb, if n <? initial then r = Some (fb, 1, a, Waiting) /\ requested initial c fb
             else if n <? unit_length c then r = Some (fb, 2, a, Waiting) /\ requested (unit_length c) c fb
             else r = Some (fb, 0, f (firstn (Z.to_nat (unit_length c)) c) a, Complete) /\ requested (unit_length c) c fb.

Context (f : list Z -> A -> A).

Lemma buffering_from_2 fuel c fb a :
  initial <= Z.of_nat (length c) -> requested (unit_length c) c fb ->
  (unit_length c <= Z.of_nat (length c) -> accepts f (firstn (Z.to_nat (unit_length c)) c) a) ->
  unit_outcome f c a (buffering_loop (S fuel) 2 fb a).
Proof.
  intros Hc R Hok. pose proof (unit_length_initial c). unfold unit_outcome. rewrite (proj2 (Z.ltb_ge _ _)) by lia.
  exists fb. cbn [FlowBuffer.buffering_loop]. destruct (Z.ltb_spec (Z.of_nat (length c)) (unit_length c)) as [Hlt|Hge].
  - rewrite (requested_not_ready _ _ _ R) by lia. now split.
  - destruct (requested_bytes _ _ _ R ltac:(lia)) as [-> B]. cbn [negb]. unfold ParseBuffer. rewrite B.
    cbn [Z.eqb]. rewrite (Hok Hge). now split.
Qed.

Lemma buffering_from_1 fuel c fb a :
  requested initial c fb ->
  (initial <= Z.of_nat (length c) -> unit_length c <= Z.of_nat (length c) -> accepts f (firstn (Z.to_nat (unit_length c)) c) a) ->
  unit_outcome f c a (buffering_loop (S (S fuel)) 1 fb a).
Proof.
  intros R Hok. remember (S fuel) as fuel1. cbn [FlowBuffer.buffering_loop].
  destruct (Z_lt_dec (Z.of_nat (length c)) initial) as [Hlt|Hge].
  - rewrite (requested_not_ready _ _ _ R Hlt). cbn. exists fb. rewrite (proj2 (Z.ltb_lt _ _)) by lia. now split.
  - destruct (requested_bytes _ _ _ R ltac:(lia)) as [-> B]. cbn [negb]. unfold ParseBuffer. rewrite B. cbn [Z.eqb].
    destruct (GrowFrame_requested initial (total_length (firstn (Z.to_nat initial) c)) c fb R ltac:(lia)) as (fb2 & -> & R2).
    subst fuel1. apply buffering_from_2; [lia|exact R2|]. intros. apply Hok; lia.
Qed.

Lemma buffering_from_0 fuel c fb a :
  requested 0 c fb ->
  (initial <= Z.of_nat (length c) -> unit_length c <= Z.of_nat (length c) -> accepts f (firstn (Z.to_nat (unit_length c)) c) a) ->
  unit_outcome f c a (buffering_loop (S (S (S fuel))) 0 fb a).
Proof.
  intros R Hok. remember (S (S fuel)) as fuel2. cbn [FlowBuffer.buffering_loop].
  destruct (requested_bytes _ _ _ R ltac:(lia)) as [-> B]. cbn [negb]. unfold ParseBuffer. rewrite B. cbn [Z.eqb].
  destruct (NewFrame_requested 0 initial c fb R ltac:(lia) ltac:(lia)) as (fb1 & -> & R1). cbn [skipn Z.to_nat] in R1.
  subst fuel2. now apply buffering_from_1.
Qed.

(** The flow between two pieces, with the bytes [p] of a unit that is not complete. *)
Definition waiting (p : list Z) (fl : Flow) : Prop :=
  (dataunit fl = Some 1 /\ requested initial p (flow_buffer fl) /\ Z.of_nat (length p) < initial) \/
  (dataunit fl = Some 2 /\ requested (unit_length p) p (flow_buffer fl) /\ initial <= Z.of_nat (length p) < unit_length p).

(** A run of the flow's loop over the bytes [c]: the units among them are parsed. *)
Definition parses (c : list Z) (a : A) (r : option (Flow * A * UnitEnd)) : Prop :=
  forall k us rest, (length c <= k)%nat -> units k c = (us, rest) -> accepted f us a ->
  exists fl, r = Some (fl, fold_left (fun a u => f u a) us a, Waiting) /\ waiting rest fl.

(** The end of a round, given what the loop does after a complete unit. *)
Lemma round_parses fuel c a r :
  (Z.of_nat (length c) < initial \/ Z.of_nat (length c) < unit_length c \/ accepts f (firstn (Z.to_nat (unit_length c)) c) a ->
   unit_outcome f c a r) ->
  (forall fb a, initial <= unit_length c <= Z.of_nat (length c) -> requested (unit_length c) c fb ->
   parses (skipn (Z.to_nat (unit_length c)) c) a (flow_loop fuel {| flow_buffer := fb; dataunit := None |} a)) ->
  parses c a (match r with
              | None => None
              | Some (fb, st, a, Complete) => flow_loop fuel {| flow_buffer := fb; dataunit := None |} a
              | Some (fb, st, a, Waiting) =>
                  if ready fb then None else Some ({| flow_buffer := fb; dataunit := Some st |}, a, Waiting)
              | Some (fb, st, a, Threw) => Some ({| flow_buffer := DiscardData fb; dataunit := None |}, a, Threw)
              end).
Proof.
  intros HO Hrec k us rest Hk E Hok. pose proof (unit_length_initial c) as Hi.
  assert (Ek : (Z.of_nat (length c) < unit_length c /\ us = [] /\ rest = c) \/
               (unit_length c <= Z.of_nat (length c) /\ exists k', (length (skipn (Z.to_nat (unit_length c)) c) <= k')%nat /\
                exists us', units k' (skipn (Z.to_nat (unit_length c)) c) = (us', rest) /\
                            us = firstn (Z.to_nat (unit_length c)) c :: us')).
  { destruct k as [|k].
    - destruct c; [|cbn in Hk; lia]. cbn in E. injection E as <- <-. left. cbn [length Z.of_nat]. split; [lia|auto].
    - cbn [FlowBuffer.units] in E. destruct (Z.leb_spec initial (Z.of_nat (length c))); cbn [andb] in E.
      + destruct (Z.leb_spec (unit_length c) (Z.of_nat (length c))).
        * right. split; [assumption|]. exists k. rewrite length_skipn. split; [lia|].
          destruct (units k (skipn (Z.to_nat (unit_length c)) c)) as [us' rest']. injection E as <- <-. eauto.
        * injection E as <- <-. left. auto.
      + injection E as <- <-. left. split; [lia|auto]. }
  destruct Ek as [(Hlt & -> & ->)|(Hge & k' & Hk' & us' & E' & ->)].
  - destruct HO as [fb O]; [auto|]. rewrite (proj2 (Z.ltb_lt _ _) Hlt) in O.
    destruct (Z.ltb_spec (Z.of_nat (length c)) initial) as [H1|H1]; destruct O as [-> O].
    + rewrite (requested_not_ready _ _ _ O H1). eexists. split; [reflexivity|]. left. cbn. auto.
    + rewrite (requested_not_ready _ _ _ O Hlt). eexists. split; [reflexivity|]. right. cbn. auto.
  - destruct Hok as [Hu Hus]. destruct HO as [fb O]; [auto|].
    rewrite (proj2 (Z.ltb_ge _ initial)), (proj2 (Z.ltb_ge _ (unit_length c))) in O by lia. destruct O as [-> O].
    apply (Hrec fb _ ltac:(lia) O k' us' rest Hk' E' Hus).
Qed.

(** After a complete unit the loop goes on with the next. *)
Lemma loop_after fuel n c fb a :
  requested n c fb -> 1 <= n <= Z.of_nat (length c) -> (length (skipn (Z.to_nat n) c) < fuel)%nat ->
  parses (skipn (Z.to_nat n) c) a (flow_loop fuel {| flow_buffer := fb; dataunit := None |} a).
Proof.
  revert n c fb a. induction fuel as [|fuel IH]; intros n c fb a R Hn Hf; [lia|].
  cbn [FlowBuffer.flow_loop flow_buffer dataunit].
  rewrite (requested_available _ _ _ R) by lia. destruct (requested_bytes _ _ _ R ltac:(lia)) as [Hr _].
  rewrite Hr, orb_true_r. assert (Hc : match c with [] => true | _ => false end = false) by (destruct c; [cbn in Hn; lia|reflexivity]).
  rewrite Hc. cbn [negb andb].
  destruct (NewFrame_requested n 0 c fb R ltac:(lia) ltac:(lia)) as (fb0 & -> & R0). cbn [option_map].
  set (c' := skipn (Z.to_nat n) c) in *. apply round_parses.
  - intros O. apply buffering_from_0; [assumption|]. intros. destruct O as [O|[O|O]]; [lia|lia|assumption].
  - intros fb1 a1 Hu R1. pose proof (unit_length_initial c'). apply IH; [assumption|lia|]. rewrite length_skipn. lia.
Qed.

(** The loop at the bytes [c] of a unit that has been started. *)
Lemma loop_started fuel c fl a :
  (dataunit fl = Some 1 /\ requested initial c (flow_buffer fl)) \/
  (dataunit fl = Some 2 /\ requested (unit_length c) c (flow_buffer fl) /\ initial <= Z.of_nat (length c)) ->
  (length c < fuel)%nat -> parses c a (flow_loop fuel fl a).
Proof.
  intros St Hf. destruct fuel as [|fuel]; [lia|]. cbn [FlowBuffer.flow_loop].
  pose proof (unit_length_initial c) as Hi.
  assert (Rec : forall fb a, initial <= unit_length c <= Z.of_nat (length c) -> requested (unit_length c) c fb ->
     parses (skipn (Z.to_nat (unit_length c)) c) a (flow_loop fuel {| flow_buffer := fb; dataunit := None |} a)).
  { intros fb a1 Hu R1. apply loop_after; [assumption|lia|]. rewrite length_skipn. lia. }
  assert (Stop : forall n, (n = initial \/ n = unit_length c) -> requested n c (flow_buffer fl) -> Z.of_nat (length c) < n ->
     waiting c fl -> parses c a (Some (fl, a, Waiting))).
  { intros n Hn R Hlt W k us rest Hk E Hok. exists fl. destruct k as [|k]; cbn [FlowBuffer.units] in E.
    - injection E as <- <-. auto.
    - rewrite (proj2 (Z.leb_gt (unit_length c) _)), andb_false_r in E by (destruct Hn; lia). injection E as <- <-. auto. }
  assert (Enter : forall n, 1 <= n -> requested n c (flow_buffer fl) -> n <= Z.of_nat (length c) ->
     data_available (flow_buffer fl) && (negb (have_pending_request (flow_buffer fl)) || ready (flow_buffer fl)) = true).
  { intros n Hn R Hle. rewrite (requested_available _ _ _ R) by lia. destruct (requested_bytes _ _ _ R ltac:(lia)) as [-> _].
    rewrite orb_true_r. destruct c; [cbn in Hle; lia|reflexivity]. }
  assert (Quiet : forall n, requested n c (flow_buffer fl) -> Z.of_nat (length c) < n ->
     data_available (flow_buffer fl) && (negb (have_pending_request (flow_buffer fl)) || ready (flow_buffer fl)) = false).
  { intros n R Hlt. rewrite (requested_not_ready _ _ _ R Hlt). destruct R as (_ & _ & _ & -> & _). cbn. apply andb_false_r. }
  destruct St as [[Hd R]|(Hd & R & Hge)]; rewrite Hd.
  - destruct (Z_lt_dec (Z.of_nat (length c)) initial) as [Hlt|Hge].
    + rewrite (Quiet _ R Hlt). apply (Stop initial); auto. left. auto.
    + rewrite (Enter _ Hinitial R) by lia. apply round_parses; [|assumption].
      intros O. apply buffering_from_1; [assumption|]. intros. destruct O as [O|[O|O]]; [lia|lia|assumption].
  - destruct (Z_lt_dec (Z.of_nat (length c)) (unit_length c)) as [Hlt|Hge2].
    + rewrite (Quiet _ R Hlt). apply (Stop (unit_length c)); auto. right. auto.
    + rewrite (Enter (unit_length c) ltac:(lia) R) by lia. apply round_parses; [|assumption].
      intros O. apply buffering_from_2; [assumption|assumption|]. intros. destruct O as [O|[O|O]]; [lia|lia|assumption].
Qed.

(** A flow that has been asked for nothing yet. *)
Definition idle (fl : Flow) : Prop :=
  let fb := flow_buffer fl in
  dataunit fl = None /\ buffer fb = [] /\ orig_data fb = [] /\ mode fb = UNKNOWN_MODE /\ frame_length fb = 0 /\
  message_complete fb = false /\ have_pending_request fb = false /\ chunked fb = false /\ line_state fb <> CR_OR_LF_1.

Definition resting (p : list Z) (fl : Flow) : Prop := (p = [] /\ idle fl) \/ waiting p fl.

Lemma idle_NewData d fl a :
  idle fl -> d <> [] -> parses d a (flow_NewData initial total_length on_unit d fl a).
Proof.
  destruct fl as [[b c len ch o style m ls seq e pr] du]. intros (Hd & Hb & Ho & Hm & Hf & Hc & Hp & Hk & Hl) Hne.
  cbn in Hd, Hb, Ho, Hm, Hf, Hc, Hp, Hk, Hl. subst.
  assert (Hlen : 0 < Z.of_nat (length d)) by (destruct d; [easy|cbn; lia]).
  unfold flow_NewData, NewData, ClearPreviousData. cbn [orig_data flow_buffer].
  unfold buffer_n, orig_n. cbn [buffer orig_data message_complete length Z.of_nat Z.eqb andb orb].
  unfold MarkOrCopy. cbn [with_position with_data message_complete mode buffer orig_data length Nat.add].
  cbn [FlowBuffer.flow_loop flow_buffer]. unfold data_available, buffer_n, orig_n.
  cbn [with_position with_data have_pending_request mode buffer orig_data length negb orb].
  rewrite (proj2 (Z.ltb_lt 0 (Z.of_nat (length d)))) by lia. cbn [Z.of_nat Z.ltb Z.compare orb andb dataunit].
  unfold NewFrame, NewMessage, buffer_n, orig_n. cbn [with_position with_data frame_length mode buffer orig_data length Z.of_nat Z.eqb Z.ltb Z.compare].
  rewrite (proj2 (Z.ltb_ge (Z.of_nat (length d)) 0)) by lia. cbn [Z.to_nat skipn].
  edestruct (MarkOrCopyFrame_requested 0) as (fb0 & -> & R0); [..|cbn [option_map]]; try reflexivity; try exact Hl; try lia.
  cbn [buffer orig_data with_data with_request app] in R0. apply round_parses.
  - intros O. apply buffering_from_0; [assumption|]. intros. destruct O as [O|[O|O]]; [lia|lia|assumption].
  - intros fb1 a1 Hu R1. pose proof (unit_length_initial d). apply loop_after; [assumption|lia|]. rewrite length_skipn. lia.
Qed.

Lemma waiting_NewData p d fl a :
  waiting p fl -> parses (p ++ d) a (flow_NewData initial total_length on_unit d fl a).
Proof.
  intros W. unfold flow_NewData. pose proof (unit_length_initial p).
  assert (Size : forall n c fb, requested n c fb -> (length (buffer fb) + length (orig_data fb) = length c)%nat).
  { intros n c fb (_ & _ & _ & _ & _ & R). destruct (_ <? n).
    - destruct R as (_ & -> & ->). cbn. lia.
    - destruct R as [_ [[-> ->]|(_ & -> & ->)]]; [reflexivity|]. rewrite <- length_app, firstn_skipn. reflexivity. }
  destruct W as [(Hd & R & Hp)|(Hd & R & Hp)].
  - destruct (NewData_requested _ _ d _ R Hp) as (fb & -> & R'). apply loop_started; cbn [dataunit flow_buffer]; [auto|].
    rewrite (Size _ _ _ R'). lia.
  - destruct (NewData_requested _ _ d _ R ltac:(lia)) as (fb & -> & R').
    assert (E : unit_length (p ++ d) = unit_length p).
    { unfold FlowBuffer.unit_length. f_equal. f_equal. rewrite firstn_app. replace (Z.to_nat initial - length p)%nat with O by lia.
      cbn. now rewrite app_nil_r. }
    apply loop_started; cbn [dataunit flow_buffer]; [|rewrite (Size _ _ _ R'); lia].
    right. rewrite E, length_app. split; [assumption|]. split; [assumption|lia].
Qed.

Lemma resting_units p fl : resting p fl -> units (length p) p = ([], p).
Proof.
  intros [[-> _]|[(_ & _ & H)|(_ & _ & H)]]; [reflexivity|..]; destruct p as [|x p]; try reflexivity; cbn [FlowBuffer.units length].
  - rewrite (proj2 (Z.leb_gt initial _)) by exact H. reflexivity.
  - rewrite (proj2 (Z.leb_gt (unit_length (x :: p)) _)), andb_false_r by apply H. reflexivity.
Qed.

(** A piece of input to a flow at rest. *)
Lemma resting_NewData p d fl a us rest :
  resting p fl -> units (length (p ++ d)) (p ++ d) = (us, rest) -> accepted f us a ->
  exists fl', flow_NewData initial total_length on_unit d fl a = Some (fl', fold_left (fun a u => f u a) us a, Waiting) /\
              resting rest fl'.
Proof.
  intros [[-> I]|W] E Hok; [destruct d as [|x d]|].
  - cbn in E. injection E as <- <-.
    destruct fl as [[b c len ch o style m ls seq e pr] du]. destruct I as (Hd & Hb & Ho & Hm & Hf & Hc & Hp & Hk & Hl).
    cbn in Hd, Hb, Ho, Hm, Hf, Hc, Hp, Hk, Hl. subst. eexists. split; [reflexivity|]. left. repeat split. exact Hl.
  - destruct (idle_NewData (x :: d) fl a I ltac:(discriminate) _ _ _ (le_n _) E Hok) as (fl' & -> & W).
    exists fl'. split; [reflexivity|now right].
  - destruct (waiting_NewData p d fl a W _ _ _ (le_n _) E Hok) as (fl' & -> & W').
    exists fl'. split; [reflexivity|now right].
Qed.

(** Units of bytes that go on. *)
Lemma units_app k s d us rest k2 us2 rest2 :
  units k s = (us, rest) -> (length s <= k)%nat -> (length (rest ++ d) <= k2)%nat -> units k2 (rest ++ d) = (us2, rest2) ->
  forall k3, (length (s ++ d) <= k3)%nat -> units k3 (s ++ d) = (us ++ us2, rest2).
Proof.
  revert s us rest. induction k as [|k IH]; intros s us rest E Hk Hk2 E2 k3 Hk3.
  - cbn in E. injection E as <- <-. destruct s; [|cbn in Hk; lia]. cbn [app] in *. eapply units_fuel; eassumption.
  - cbn [FlowBuffer.units] in E. pose proof (unit_length_initial s) as Hi.
    destruct (Z.leb_spec initial (Z.of_nat (length s))); cbn [andb] in E; [destruct (Z.leb_spec (unit_length s) (Z.of_nat (length s)))|].
    2,3: injection E as <- <-; eapply units_fuel; eassumption.
    destruct (units k (skipn (Z.to_nat (unit_length s)) s)) as [us' rest'] eqn:E'. injection E as <- <-.
    assert (Eu : unit_length (s ++ d) = unit_length s).
    { unfold FlowBuffer.unit_length. f_equal. f_equal. rewrite firstn_app. replace (Z.to_nat initial - length s)%nat with O by lia.
      cbn. now rewrite app_nil_r. }
    destruct k3 as [|k3]; [rewrite length_app in Hk3; lia|]. cbn [FlowBuffer.units]. rewrite Eu. rewrite (length_app s d) in *.
    rewrite (proj2 (Z.leb_le initial _)), (proj2 (Z.leb_le (unit_length s) _)) by lia. cbn [andb].
    rewrite firstn_app, skipn_app. replace (Z.to_nat (unit_length s) - length s)%nat with O by lia. cbn [firstn skipn].
    rewrite app_nil_r. erewrite (IH _ _ _ E'); [reflexivity| |exact Hk2|exact E2|]; rewrite ?length_app, length_skipn; lia.
Qed.

Lemma NewGap_requested n len p fb :
  requested n p fb -> Z.of_nat (length p) < n -> exists fb', NewGap len fb = Some fb' /\ requested n p fb'.
Proof.
  intros (Hm & Hch & Hf & Hp & Hl & R) Hn. rewrite (proj2 (Z.ltb_lt _ _)) in R by lia. destruct R as (Hc & Eb & Eo).
  unfold NewGap, ClearPreviousData. rewrite Eo, Hch. cbn [andb]. unfold MarkOrCopy. cbn [message_complete mode with_data with_request].
  rewrite Hc, Hm. edestruct (MarkOrCopyFrame_requested n) as (fb' & E & Q); [..|exists fb'; split; [exact E|]]; cbn; auto; try lia.
  - unfold buffer_n. cbn. rewrite Eb. lia.
  - cbn [buffer orig_data with_data with_request] in Q. now rewrite Eb, app_nil_r in Q.
Qed.

(** A gap changes nothing. *)
Lemma resting_NewGap p len fl : resting p fl -> exists fl', flow_NewGap len fl = Some fl' /\ resting p fl'.
Proof.
  intros [[-> I]|W].
  - destruct fl as [[b c l ch o style m ls seq e pr] du]. destruct I as (Hd & Hb & Ho & Hm & Hf & Hc & Hp & Hk & Hl).
    cbn in Hd, Hb, Ho, Hm, Hf, Hc, Hp, Hk, Hl. subst. eexists. split; [reflexivity|]. left. repeat split. exact Hl.
  - pose proof (unit_length_initial p). unfold flow_NewGap. destruct W as [(Hd & R & Hp)|(Hd & R & Hp)].
    + destruct (NewGap_requested _ len _ _ R Hp) as (fb & -> & R'). eexists. split; [reflexivity|]. right. left. auto.
    + destruct (NewGap_requested _ len _ _ R ltac:(lia)) as (fb & -> & R'). eexists. split; [reflexivity|]. right. right. auto.
Qed.

(** The units of an idle flow's bytes and what it keeps; see [framing_exact]. *)
Lemma feed_resting pieces : forall p fl a us rest,
  resting p fl -> units (length (p ++ concat pieces)) (p ++ concat pieces) = (us, rest) -> accepted f us a ->
  exists fl', flow_feed initial total_length on_unit pieces fl a =
              Some (fl', fold_left (fun a u => f u a) us a, Waiting) /\ resting rest fl'.
Proof.
  induction pieces as [|d pieces IH]; intros p fl a us rest R E Hok.
  - cbn [concat app] in E. rewrite app_nil_r in E. pose proof (resting_units p fl R) as U.
    rewrite (units_fuel _ _ _ _ (length p) U) in E by lia. injection E as <- <-. cbn. eauto.
  - cbn [flow_feed]. destruct (units (length (p ++ d)) (p ++ d)) as [us1 rest1] eqn:E1.
    destruct (units (length (rest1 ++ concat pieces)) (rest1 ++ concat pieces)) as [us2 rest2] eqn:E2.
    pose proof (units_app _ _ (concat pieces) _ _ _ _ _ E1 (le_n _) (le_n _) E2 _ (le_n _)) as E3.
    cbn [concat] in E. rewrite app_assoc, E3 in E. injection E as <- <-. apply accepted_app in Hok as [Hok1 Hok2].
    destruct (resting_NewData p d fl a us1 rest1 R E1 Hok1) as (fl1 & -> & R1).
    destruct (IH rest1 fl1 (fold_left (fun a u => f u a) us1 a) us2 rest2 R1 E2 Hok2) as (fl2 & -> & R2).
    exists fl2. now rewrite fold_left_app.
Qed.

(** C23: The units that a flow parses are those of all bytes put together, in order, whatever
    the pieces they arrive in; no assertion of the buffer fails, and the bytes of a unit
    that is not complete are kept. *)
Theorem framing_exact pieces fl a us rest :
  idle fl -> units (length (concat pieces)) (concat pieces) = (us, rest) -> accepted f us a ->
  exists fl', flow_feed initial total_length on_unit pieces fl a =
              Some (fl', fold_left (fun a u => f u a) us a, Waiting) /\ resting rest fl'.
Proof. intros Hi E Hok. apply (feed_resting pieces [] fl a us rest); auto. now left. Qed.

(** Bytes that were lost leave no trace in the framing: a unit is put together from the
    bytes before a gap and the bytes after it, of whatever length the gap was. *)
Theorem gap_joins_units before len after fl a us1 p us2 rest :
  idle fl -> units (length (concat before)) (concat before) = (us1, p) ->
  units (length (p ++ concat after)) (p ++ concat after) = (us2, rest) -> accepted f (us1 ++ us2) a ->
  exists fl1 fl2 fl3,
    flow_feed initial total_length on_unit before fl a = Some (fl1, fold_left (fun a u => f u a) us1 a, Waiting) /\
    flow_NewGap len fl1 = Some fl2 /\
    flow_feed initial total_length on_unit after fl2 (fold_left (fun a u => f u a) us1 a) =
      Some (fl3, fold_left (fun a u => f u a) (us1 ++ us2) a, Waiting).
Proof.
  intros Hi E1 E2 Hok. apply accepted_app in Hok as [Hok1 Hok2].
  destruct (feed_resting before [] fl a us1 p) as (fl1 & F1 & R1); auto; [now left|].
  destruct (resting_NewGap p len fl1 R1) as (fl2 & G & R2).
  destruct (feed_resting after p fl2 (fold_left (fun a u => f u a) us1 a) us2 rest R2 E2 Hok2) as (fl3 & F3 & _).
  exists fl1, fl2, fl3. rewrite fold_left_app. auto.
Qed.

End Framing.

(** *** Instances *)

Definition fresh_buffer : FlowBuffer :=
  {| buffer := []; message_complete := false; frame_length := 0; chunked := false; orig_data := [];
     linebreak_style := CR_OR_LF; mode := UNKNOWN_MODE; line_state := CR_OR_LF_0; data_seq_at_orig_data_end := 0;
     eof := false; have_pending_request := false |}.

Definition fresh_flow : Flow := {| flow_buffer := fresh_buffer; dataunit := None |}.

Lemma fresh_flow_idle : idle fresh_flow.
Proof. repeat split. discriminate. Qed.

Lemma fresh_flow_new : new_FlowBuffer CR_OR_LF = Some (flow_buffer fresh_flow).
Proof. reflexivity. Qed.

(** Units of a length byte and that many bytes; the parser collects them. *)
Definition sample_length (h : list Z) : Z := 1 + nth 0 h 0.
Definition collect (u : list Z) (a : list (list Z)) : UnitResult (list (list Z)) := Parsed (a ++ [u]) false.

Lemma framing_exact_witness :
  exists fl', flow_feed 1 sample_length collect [[2; 7]; []; [8; 0; 3]; [9]] fresh_flow [] =
              Some (fl', [[2; 7; 8]; [0]], Waiting) /\ resting 1 sample_length [3; 9] fl'.
Proof.
  apply (framing_exact 1 sample_length collect ltac:(lia) (fun u a => a ++ [u])
           [[2; 7]; []; [8; 0; 3]; [9]] fresh_flow [] [[2; 7; 8]; [0]] [3; 9] fresh_flow_idle eq_refl).
  repeat constructor.
Defined.

Lemma gap_joins_units_witness :
  exists fl1 fl2 fl3,
    flow_feed 1 sample_length collect [[2; 7]] fresh_flow [] = Some (fl1, [], Waiting) /\
    flow_NewGap 1000 fl1 = Some fl2 /\
    flow_feed 1 sample_length collect [[8]] fl2 [] = Some (fl3, [[2; 7; 8]], Waiting).
Proof.
  apply (gap_joins_units 1 sample_length collect ltac:(lia) (fun u a => a ++ [u])
           [[2; 7]] 1000 [[8]] fresh_flow [] [] [2; 7] [[2; 7; 8]] [] fresh_flow_idle eq_refl eq_refl).
  repeat constructor.
Defined.

(** ** Lines

    The comment above [MarkOrCopyLine_CR_OR_LF] gives an automaton that forgets a CR at the
    next byte that is not a LF; the code keeps [CR_OR_LF_1]. *)

(** A line that is ended by the LF at the beginning of a piece, and that began after a CR,
    is not ended: the LF is taken for the second half of the CR's line end. *)
Lemma line_end_swallowed fb rest :
  linebreak_style fb = CR_OR_LF -> mode fb = LINE_MODE -> line_state fb = CR_OR_LF_1 -> message_complete fb = false ->
  chunked fb = false -> orig_data fb = [] -> buffer fb <> [] -> Forall (fun c => c <> CR /\ c <> LF) rest ->
  exists fb', NewData (LF :: rest) fb = Some fb' /\ message_complete fb' = false /\ buffer fb' = buffer fb ++ rest.
Proof.
  intros Hs Hm Hl Hc Hch Ho Hb Hr. unfold NewData, ClearPreviousData. rewrite Ho. unfold orig_n at 1. rewrite Ho.
  cbn [length Z.of_nat Z.eqb]. rewrite orb_true_r. unfold MarkOrCopy. cbn [message_complete mode with_position with_data].
  rewrite Hc, Hm. unfold MarkOrCopyLine. cbn [linebreak_style with_position with_data]. rewrite Hs.
  unfold MarkOrCopyLine_CR_OR_LF. cbn [line_state orig_data with_position with_data]. rewrite Hl. cbn [Z.eqb LF Pos.eqb].
  cbn [orig_data line_state with_line_state with_data].
  assert (Hscan : forall st, scan_CR_OR_LF rest st = (None, st)).
  { intros st. induction Hr as [|c rest [H1 H2] Hr IH]; [reflexivity|]. cbn.
    rewrite (proj2 (Z.eqb_neq c CR) H1), (proj2 (Z.eqb_neq c LF) H2), IH. reflexivity. }
  rewrite Hscan. rewrite AppendToBuffer_spec; [|assumption|lia]. eexists. split; [reflexivity|].
  unfold orig_n. cbn. rewrite Nat2Z.id, firstn_all. auto.
Qed.
