(* ===== verification/SslRecords.v ===== *)
(** * Bro's TLS parser

    The record layer ([src/ssl-record-layer.pac]), the messages ([src/ssl-protocol.pac]) and
    their analyzer ([src/ssl-analyzer.pac]), from the bytes of a connection's two directions
    to the events that the station's policy handles; [SSL-binpac.cc] is where the bytes come
    in.  Events are collected in the state, the latest last.

    A message that does not end in the record it began in is not followed: the state is
    marked [fragmented] and nothing is claimed of it.  The events of a certificate, which
    OpenSSL decodes, are a parameter. *)
From S2P Require Import Prelude Bytes CLib FlowBuffer.
From Stdlib Require Import String ZArith Lia List Bool.
Import ListNotations.
Open Scope Z_scope.
Open Scope list_scope.

(** [ContentType] and [SSLVersions] of [ssl-defs.pac]. *)
Definition CHANGE_CIPHER_SPEC : Z := 20.
Definition ALERT : Z := 21.
Definition HANDSHAKE : Z := 22.
Definition APPLICATION_DATA : Z := 23.
Definition V2_ERROR : Z := 300.
Definition V2_CLIENT_HELLO : Z := 301.
Definition V2_CLIENT_MASTER_KEY : Z := 302.
Definition V2_SERVER_HELLO : Z := 304.
Definition UNKNOWN_OR_V2_ENCRYPTED : Z := 400.

Definition UNKNOWN_VERSION : Z := 0x0000.
Definition SSLv20 : Z := 0x0002.
Definition SSLv30 : Z := 0x0300.
Definition TLSv10 : Z := 0x0301.
Definition TLSv11 : Z := 0x0302.

Inductive AnalyzerState :=
  | STATE_INITIAL | STATE_CLIENT_HELLO_RCVD | STATE_IN_SERVER_HELLO | STATE_SERVER_HELLO_DONE
  | STATE_CLIENT_CERT | STATE_CLIENT_KEY_WITH_CERT | STATE_CLIENT_KEY_NO_CERT | STATE_CLIENT_CERT_VERIFIED
  | STATE_CLIENT_ENCRYPTED | STATE_CLIENT_FINISHED | STATE_ABBREV_SERVER_ENCRYPTED | STATE_ABBREV_SERVER_FINISHED
  | STATE_COMM_ENCRYPTED | STATE_CONN_ESTABLISHED | STATE_V2_CL_MASTER_KEY_EXPECTED | STATE_TRACK_LOST | STATE_ANY.

Definition AnalyzerState_eq_dec (a b : AnalyzerState) : {a = b} + {a <> b}.
Proof. decide equality. Defined.

Definition astate_eqb (a b : AnalyzerState) : bool := if AnalyzerState_eq_dec a b then true else false.

(** [state_label] *)
Definition state_label (s : AnalyzerState) : string :=
  match s with
  | STATE_INITIAL => "INITIAL"
  | STATE_CLIENT_HELLO_RCVD => "CLIENT_HELLO_RCVD"
  | STATE_IN_SERVER_HELLO => "IN_SERVER_HELLO"
  | STATE_SERVER_HELLO_DONE => "SERVER_HELLO_DONE"
  | STATE_CLIENT_CERT => "CLIENT_CERT"
  | STATE_CLIENT_KEY_WITH_CERT => "CLIENT_KEY_WITH_CERT"
  | STATE_CLIENT_KEY_NO_CERT => "CLIENT_KEY_NO_CERT"
  | STATE_CLIENT_CERT_VERIFIED => "CLIENT_CERT_VERIFIED"
  | STATE_CLIENT_ENCRYPTED => "CLIENT_ENCRYPTED"
  | STATE_CLIENT_FINISHED => "CLIENT_FINISHED"
  | STATE_ABBREV_SERVER_ENCRYPTED => "ABBREV_SERVER_ENCRYPTED"
  | STATE_ABBREV_SERVER_FINISHED => "ABBREV_SERVER_FINISHED"
  | STATE_COMM_ENCRYPTED => "COMM_ENCRYPTED"
  | STATE_CONN_ESTABLISHED => "CONN_ESTABLISHED"
  | STATE_V2_CL_MASTER_KEY_EXPECTED => "STATE_V2_CL_MASTER_KEY_EXPECTED"
  | STATE_TRACK_LOST => "TRACK_LOST"
  | STATE_ANY => "ANY"
  end.

(** The events, and the calls of [ProtocolViolation] and [ProtocolConfirmation]. *)
Inductive SslEvent :=
  | ssl_record (is_orig : bool) (type : Z) (data : list Z)
  | ssl_state_change (old new : string)
  | ssl_conn_attempt (version : Z) (ciphers : list Z) (rand client_random : list Z)
  | ssl_conn_server_reply (version : Z) (ciphers : list Z) (server_random : list Z) (compression : Z)
  | ssl_server_key_exchange (p g pub_key : list Z)
  | ssl_client_key_exchange (cont : list Z)
  | ssl_change_cipher_spec
  | ssl_application_data (cont : list Z)
  | ssl_conn_alert (version level description : Z) (is_orig : bool)
  | ssl_conn_established (version cipher : Z)
  | ssl_conn_reused (session_id : list Z)
  | ssl_session_insertion (session_id : list Z)
  | ssl_certificates (certs : list (list Z)) (is_orig : bool)
  | ProtocolViolation (what : string)
  | ProtocolConfirmation.

(** [SSLAnalyzer]: its members, and the events so far. *)
Record SSLAnalyzer := {
  current_record_type : Z; current_record_version : Z; current_record_length : Z; current_record_is_orig : bool;
  state : AnalyzerState; old_state : AnalyzerState; hello_requested_ : bool;
  client_session_id : option (list Z); advertised_ciphers : list Z;
  version_ : Z; cipher_ : Z; compression_ : Z;
  events : list SslEvent; fragmented : bool }.

Definition new_SSLAnalyzer : SSLAnalyzer :=
  {| current_record_type := -1; current_record_version := -1; current_record_length := -1;
     current_record_is_orig := false; state := STATE_INITIAL; old_state := STATE_INITIAL; hello_requested_ := false;
     client_session_id := None; advertised_ciphers := []; version_ := -1; cipher_ := -1; compression_ := -1;
     events := []; fragmented := false |}.

Definition set_record (type version len : Z) (is_orig : bool) (s : SSLAnalyzer) : SSLAnalyzer :=
  {| current_record_type := type; current_record_version := version; current_record_length := len;
     current_record_is_orig := is_orig; state := state s; old_state := old_state s; hello_requested_ := hello_requested_ s;
     client_session_id := client_session_id s; advertised_ciphers := advertised_ciphers s; version_ := version_ s;
     cipher_ := cipher_ s; compression_ := compression_ s; events := events s; fragmented := fragmented s |}.

Definition set_state (old new : AnalyzerState) (s : SSLAnalyzer) : SSLAnalyzer :=
  {| current_record_type := current_record_type s; current_record_version := current_record_version s;
     current_record_length := current_record_length s; current_record_is_orig := current_record_is_orig s;
     state := new; old_state := old; hello_requested_ := hello_requested_ s;
     client_session_id := client_session_id s; advertised_ciphers := advertised_ciphers s; version_ := version_ s;
     cipher_ := cipher_ s; compression_ := compression_ s; events := events s; fragmented := fragmented s |}.

Definition set_hello_requested (v : bool) (s : SSLAnalyzer) : SSLAnalyzer :=
  {| current_record_type := current_record_type s; current_record_version := current_record_version s;
     current_record_length := current_record_length s; current_record_is_orig := current_record_is_orig s;
     state := state s; old_state := old_state s; hello_requested_ := v;
     client_session_id := client_session_id s; advertised_ciphers := advertised_ciphers s; version_ := version_ s;
     cipher_ := cipher_ s; compression_ := compression_ s; events := events s; fragmented := fragmented s |}.

Definition set_session (sid : option (list Z)) (ciphers : list Z) (version cipher compression : Z) (s : SSLAnalyzer) : SSLAnalyzer :=
  {| current_record_type := current_record_type s; current_record_version := current_record_version s;
     current_record_length := current_record_length s; current_record_is_orig := current_record_is_orig s;
     state := state s; old_state := old_state s; hello_requested_ := hello_requested_ s;
     client_session_id := sid; advertised_ciphers := ciphers; version_ := version;
     cipher_ := cipher; compression_ := compression; events := events s; fragmented := fragmented s |}.

(** An event is queued. *)
Definition emit (e : list SslEvent) (s : SSLAnalyzer) : SSLAnalyzer :=
  {| current_record_type := current_record_type s; current_record_version := current_record_version s;
     current_record_length := current_record_length s; current_record_is_orig := current_record_is_orig s;
     state := state s; old_state := old_state s; hello_requested_ := hello_requested_ s;
     client_session_id := client_session_id s; advertised_ciphers := advertised_ciphers s; version_ := version_ s;
     cipher_ := cipher_ s; compression_ := compression_ s; events := events s ++ e; fragmented := fragmented s |}.

Definition set_fragmented (s : SSLAnalyzer) : SSLAnalyzer :=
  {| current_record_type := current_record_type s; current_record_version := current_record_version s;
     current_record_length := current_record_length s; current_record_is_orig := current_record_is_orig s;
     state := state s; old_state := old_state s; hello_requested_ := hello_requested_ s;
     client_session_id := client_session_id s; advertised_ciphers := advertised_ciphers s; version_ := version_ s;
     cipher_ := cipher_ s; compression_ := compression_ s; events := events s; fragmented := true |}.

(** [transition] *)
Definition transition (olds news : AnalyzerState) (is_orig : bool) (s : SSLAnalyzer) : option SSLAnalyzer :=
  if (negb (astate_eqb olds STATE_ANY) && negb (astate_eqb olds (state s)))
     || negb (Bool.eqb (current_record_is_orig s) is_orig)
  then None
  else Some (emit [ssl_state_change (state_label (state s)) (state_label news)] (set_state (state s) news s)).

(** [lost_track] *)
Definition lost_track (s : SSLAnalyzer) : SSLAnalyzer := set_state (old_state s) STATE_TRACK_LOST s.

(** A chain of transitions joined by [||], ending in [lost_track()]. *)
Fixpoint transitions (ts : list (AnalyzerState * AnalyzerState * bool)) (s : SSLAnalyzer) : SSLAnalyzer :=
  match ts with
  | [] => lost_track s
  | (o, n, d) :: ts => match transition o n d s with Some s => s | None => transitions ts s end
  end.

(** [hello_requested]: the flag is read and cleared; the chain of a client hello. *)
Definition client_hello_state (s : SSLAnalyzer) : SSLAnalyzer :=
  match transition STATE_INITIAL STATE_CLIENT_HELLO_RCVD true s with
  | Some s => s
  | None =>
      let requested := hello_requested_ s in
      let s := set_hello_requested false s in
      if requested
      then match transition STATE_ANY STATE_CLIENT_HELLO_RCVD true s with Some s => s | None => lost_track s end
      else lost_track s
  end.

Definition unexpected (what : string) (s : SSLAnalyzer) : SSLAnalyzer :=
  if astate_eqb (state s) STATE_TRACK_LOST then emit [ProtocolViolation what] s else s.

(** [version_ok] *)
Definition version_ok (v : Z) : bool := (v =? SSLv20) || (v =? SSLv30) || (v =? TLSv10) || (v =? TLSv11).

(** ** Messages

    A parser takes bytes from the front; [None] is the exception of a field that ends
    beyond the message.  The [&check]s of the grammar are not among the parsers: binpac
    reads the attribute and generates nothing for it. *)

Definition parser (A : Type) : Type := list Z -> option (A * list Z).
Definition pret {A} (x : A) : parser A := fun bs => Some (x, bs).
Definition pbind {A B} (p : parser A) (k : A -> parser B) : parser B :=
  fun bs => match p bs with Some (x, bs) => k x bs | None => None end.

Declare Scope parser_scope.
Delimit Scope parser_scope with parser.
Notation "x <- p ;; k" := (pbind p (fun x => k)) (at level 100, p at next level, right associativity) : parser_scope.
Open Scope parser_scope.

Definition bytestring (n : Z) : parser (list Z) :=
  fun bs => if Z.of_nat (List.length bs) <? n then None else Some (firstn (Z.to_nat n) bs, skipn (Z.to_nat n) bs).
Definition uint (n : Z) : parser Z := x <- bytestring n ;; pret (be_value x).
Definition uint8 : parser Z := uint 1.
Definition uint16 : parser Z := uint 2.
Definition uint24 : parser Z := uint 3.
Definition uint32 : parser Z := uint 4.
Definition restofdata : parser (list Z) := fun bs => Some (bs, []).

Fixpoint array {A} (n : nat) (p : parser A) : parser (list A) :=
  match n with
  | O => pret []
  | S n => x <- p ;; xs <- array n p ;; pret (x :: xs)
  end.

Record ClientHelloMsg := {
  client_version : Z; gmt_unix_time : Z; random_bytes : list Z; session_id : list Z; csuits : list Z; cmeths : list Z }.

Definition parse_ClientHello : parser ClientHelloMsg :=
  version <- uint16 ;; time <- uint32 ;; random <- bytestring 28 ;;
  session_len <- uint8 ;; sid <- array (Z.to_nat session_len) uint8 ;;
  csuit_len <- uint16 ;; suits <- array (Z.to_nat (csuit_len / 2)) uint16 ;;
  cmeth_len <- uint8 ;; meths <- array (Z.to_nat cmeth_len) uint8 ;;
  pret {| client_version := version; gmt_unix_time := time; random_bytes := random; session_id := sid;
          csuits := suits; cmeths := meths |}.

Record ServerHelloMsg := {
  server_version : Z; s_gmt_unix_time : Z; s_random_bytes : list Z; s_session_id : list Z; cipher_suite : list Z;
  compression_method : Z }.

Definition parse_ServerHello : parser ServerHelloMsg :=
  version <- uint16 ;; time <- uint32 ;; random <- bytestring 28 ;;
  session_len <- uint8 ;; sid <- array (Z.to_nat session_len) uint8 ;;
  suite <- array 1 uint16 ;; meth <- uint8 ;;
  pret {| server_version := version; s_gmt_unix_time := time; s_random_bytes := random; s_session_id := sid;
          cipher_suite := suite; compression_method := meth |}.

(** [ServerKeyExchange]: prime, generator, public key; the rest is the signature. *)
Definition parse_ServerKeyExchange : parser (list Z * list Z * list Z) :=
  p_len <- uint16 ;; p <- bytestring p_len ;;
  g_len <- uint16 ;; g <- bytestring g_len ;;
  pub_key_len <- uint16 ;; pub_key <- bytestring pub_key_len ;;
  cont <- restofdata ;; pret (p, g, pub_key).

(** [CertificateList], until its input is used up. *)
Fixpoint parse_certs (fuel : nat) (bs : list Z) : option (list (list Z)) :=
  match bs, fuel with
  | [], _ => Some []
  | _, O => None
  | _, S fuel =>
      match (n <- uint24 ;; bytestring n) bs with
      | Some (c, rest) => option_map (cons c) (parse_certs fuel rest)
      | None => None
      end
  end.

Definition parse_Certificate : parser (list (list Z)) :=
  n <- uint24 ;; l <- bytestring n ;;
  fun bs => match parse_certs (List.length l) l with Some cs => Some (cs, bs) | None => None end.

(** [to_table_val]: one entry for four bytes, with the first of them. *)
Fixpoint to_table_val (fuel : nat) (data : list Z) : list Z :=
  match fuel, data with
  | S fuel, x :: _ => x :: to_table_val fuel (skipn 4 data)
  | _, _ => []
  end.

(** ** The analyzer *)

Section Analyzer.

(** Bro's options [ssl_compare_cipherspecs] and [ssl_analyze_certificates]; and the memory
    that follows a version 2 challenge or connection id. *)
Context (ssl_compare_cipherspecs ssl_analyze_certificates : bool) (beyond : list Z).

(** [check_cipher] *)
Definition check_cipher (cipher : Z) (s : SSLAnalyzer) : SSLAnalyzer :=
  if ssl_compare_cipherspecs && negb (existsb (Z.eqb cipher) (advertised_ciphers s))
  then emit [ProtocolViolation "chosen cipher not advertised before"] s else s.

(** The 32 random bytes, from the time and 28 bytes at [random]. *)
Definition random32 (time : Z) (random : list Z) : list Z :=
  rev (le_bytes 4 time) ++ firstn 28 (random ++ beyond).

Definition check_version (v : Z) (s : SSLAnalyzer) : SSLAnalyzer :=
  if version_ok v then s else emit [ProtocolViolation "unsupported SSL version"] s.

(** [proc_client_hello] *)
Definition proc_client_hello (version : Z) (sid suits : list Z) (time : Z) (random : list Z) (s : SSLAnalyzer) : SSLAnalyzer :=
  let s := check_version version (unexpected "client hello" s) in
  let s := set_session (Some sid) (advertised_ciphers s) (version_ s) (cipher_ s) (compression_ s) s in
  let s := emit [ssl_conn_attempt version suits random (random32 time random)] s in
  if ssl_compare_cipherspecs
  then set_session (client_session_id s) suits (version_ s) (cipher_ s) (compression_ s) s else s.

(** [proc_server_hello] *)
Definition proc_server_hello (version : Z) (sid ciphers : list Z) (v2_sess_hit : Z) (time : Z) (random : list Z)
    (compression : Z) (s : SSLAnalyzer) : SSLAnalyzer :=
  let s := check_version version (unexpected "server hello" s) in
  let s := set_session (client_session_id s) (advertised_ciphers s) version (cipher_ s) compression s in
  let s := emit [ssl_conn_server_reply version ciphers (random32 time random) compression] s in
  let s :=
    if v2_sess_hit <? 0 then
      let cipher := nth 0 ciphers 0 in
      let s := set_session (client_session_id s) (advertised_ciphers s) (version_ s) cipher (compression_ s) s in
      let s := check_cipher cipher s in
      let tv := to_table_val (List.length sid) sid in
      if match client_session_id s with Some c => if list_eq_dec Z.eq_dec c sid then true else false | None => false end
      then emit [ssl_conn_reused tv] s else emit [ssl_session_insertion tv] s
    else if 0 <? v2_sess_hit then
      let s := match client_session_id s with
               | Some c => emit [ssl_conn_reused (to_table_val (List.length c) c)] s
               | None => s
               end in
      emit [ssl_conn_established (version_ s) 0xffffffff] s
    else if ssl_compare_cipherspecs
    then set_session (client_session_id s) ciphers (version_ s) (cipher_ s) (compression_ s) s else s in
  emit [ProtocolConfirmation] s.

(** [proc_certificate]: [ssl_certificates] stands for [ssl_certificate_seen] and the events of
    the decoded certificate. *)
Definition proc_certificate (certs : list (list Z)) (s : SSLAnalyzer) : SSLAnalyzer :=
  let s := unexpected "certificate" s in
  match certs with
  | _ :: _ => if ssl_analyze_certificates then emit [ssl_certificates certs (current_record_is_orig s)] s else s
  | [] => s
  end.

(** [proc_change_cipher_spec], [proc_application_data], [proc_alert], [proc_ciphertext_record],
    [proc_v2_client_master_key] *)
Definition proc_change_cipher_spec (s : SSLAnalyzer) : SSLAnalyzer :=
  if astate_eqb (state s) STATE_TRACK_LOST then emit [ProtocolViolation "ChangeCipherSpec"] s
  else emit [ssl_change_cipher_spec] s.

Definition proc_application_data (cont : list Z) (s : SSLAnalyzer) : SSLAnalyzer :=
  let s := if astate_eqb (state s) STATE_CONN_ESTABLISHED then s else emit [ProtocolViolation "ApplicationData"] s in
  emit [ssl_application_data cont] s.

Definition proc_alert (level description : Z) (s : SSLAnalyzer) : SSLAnalyzer :=
  emit [ssl_conn_alert (current_record_version s) level description (current_record_is_orig s)] s.

Definition proc_ciphertext_record (s : SSLAnalyzer) : SSLAnalyzer :=
  let s := unexpected "ciphertext record" s in
  if astate_eqb (state s) STATE_CONN_ESTABLISHED && astate_eqb (old_state s) STATE_COMM_ENCRYPTED
  then emit [ssl_conn_established (version_ s) (cipher_ s)] s else s.

Definition proc_v2_client_master_key (cipher : Z) (s : SSLAnalyzer) : SSLAnalyzer :=
  let s := check_cipher cipher (unexpected "v2 client master key" s) in
  emit [ssl_conn_established (version_ s) cipher] s.

(** ** What each message does *)

(** [ChangeCipherSpec] *)
Definition ccs_chain : list (AnalyzerState * AnalyzerState * bool) :=
  [(STATE_CLIENT_FINISHED, STATE_COMM_ENCRYPTED, false);
   (STATE_IN_SERVER_HELLO, STATE_ABBREV_SERVER_ENCRYPTED, false);
   (STATE_CLIENT_KEY_NO_CERT, STATE_CLIENT_ENCRYPTED, true);
   (STATE_CLIENT_CERT_VERIFIED, STATE_CLIENT_ENCRYPTED, true);
   (STATE_CLIENT_KEY_WITH_CERT, STATE_CLIENT_ENCRYPTED, true);
   (STATE_ABBREV_SERVER_FINISHED, STATE_COMM_ENCRYPTED, true)].

Definition on_ChangeCipherSpec (s : SSLAnalyzer) : SSLAnalyzer := proc_change_cipher_spec (transitions ccs_chain s).

(** The chain of [ApplicationData] and of [CiphertextRecord]. *)
Definition encrypted_chain : list (AnalyzerState * AnalyzerState * bool) :=
  [(STATE_ABBREV_SERVER_ENCRYPTED, STATE_ABBREV_SERVER_FINISHED, false);
   (STATE_CLIENT_ENCRYPTED, STATE_CLIENT_FINISHED, true);
   (STATE_COMM_ENCRYPTED, STATE_CONN_ESTABLISHED, false);
   (STATE_COMM_ENCRYPTED, STATE_CONN_ESTABLISHED, true);
   (STATE_CONN_ESTABLISHED, STATE_CONN_ESTABLISHED, false);
   (STATE_CONN_ESTABLISHED, STATE_CONN_ESTABLISHED, true)].

(** [Handshake]'s body, by its type; [None] is an exception. *)
Definition on_handshake_body (msg_type : Z) (body : list Z) (s : SSLAnalyzer) : option SSLAnalyzer :=
  let in_hello := [(STATE_IN_SERVER_HELLO, STATE_IN_SERVER_HELLO, false)] in
  if msg_type =? 0 then Some (set_hello_requested true s)
  else if msg_type =? 1 then
    match parse_ClientHello body with
    | Some (m, _) => Some (proc_client_hello (client_version m) (session_id m) (csuits m) (gmt_unix_time m) (random_bytes m)
                                             (client_hello_state s))
    | None => None
    end
  else if msg_type =? 2 then
    match parse_ServerHello body with
    | Some (m, _) =>
        Some (proc_server_hello (server_version m) (s_session_id m) (cipher_suite m) (-1) (s_gmt_unix_time m)
                                (s_random_bytes m) (compression_method m)
                                (transitions [(STATE_CLIENT_HELLO_RCVD, STATE_IN_SERVER_HELLO, false)] s))
    | None => None
    end
  else if msg_type =? 11 then
    match parse_Certificate body with
    | Some (certs, _) =>
        Some (proc_certificate certs
                (transitions (in_hello ++ [(STATE_SERVER_HELLO_DONE, STATE_CLIENT_CERT, true)]) s))
    | None => None
    end
  else if msg_type =? 12 then
    match parse_ServerKeyExchange body with
    | Some ((p, g, pub_key), _) => Some (emit [ssl_server_key_exchange p g pub_key] (transitions in_hello s))
    | None => None
    end
  else if msg_type =? 13 then Some (transitions in_hello s)
  else if msg_type =? 14 then Some (transitions [(STATE_IN_SERVER_HELLO, STATE_SERVER_HELLO_DONE, false)] s)
  else if msg_type =? 15 then Some (transitions [(STATE_CLIENT_KEY_WITH_CERT, STATE_CLIENT_CERT_VERIFIED, true)] s)
  else if msg_type =? 16 then
    Some (emit [ssl_client_key_exchange body]
            (transitions [(STATE_SERVER_HELLO_DONE, STATE_CLIENT_KEY_NO_CERT, true);
                          (STATE_CLIENT_CERT, STATE_CLIENT_KEY_WITH_CERT, true)] s))
  else Some (emit [ProtocolViolation "unknown handshake message"] (lost_track s)).

(** [Handshake], with [proc_handshake] *)
Definition on_Handshake (msg_type : Z) (body : list Z) (s : SSLAnalyzer) : option SSLAnalyzer :=
  option_map (unexpected "Handshake message") (on_handshake_body msg_type body s).

(** *** Version 2 messages *)

Record V2ClientHelloMsg := { v2_client_version : Z; v2_ciphers : list Z; v2_session_id : list Z; v2_challenge : list Z }.

Definition parse_V2ClientHello : parser V2ClientHelloMsg :=
  version <- uint16 ;; csuit_len <- uint16 ;; session_len <- uint16 ;; chal_len <- uint16 ;;
  ciphers <- array (Z.to_nat (csuit_len / 3)) uint24 ;; sid <- array (Z.to_nat session_len) uint8 ;;
  challenge <- bytestring chal_len ;;
  pret {| v2_client_version := version; v2_ciphers := ciphers; v2_session_id := sid; v2_challenge := challenge |}.

Definition V2ClientHello_length (head : list Z) : Z :=
  8 + be_value (firstn 2 (skipn 2 head)) + be_value (firstn 2 (skipn 4 head)) + be_value (firstn 2 (skipn 6 head)).

Record V2ServerHelloMsg := {
  session_id_hit : Z; v2_server_version : Z; cert_data : list Z; v2_s_ciphers : list Z; conn_id_data : list Z }.

Definition parse_V2ServerHello : parser V2ServerHelloMsg :=
  hit <- uint8 ;; cert_type <- uint8 ;; version <- uint16 ;; cert_len <- uint16 ;; ciph_len <- uint16 ;;
  conn_id_len <- uint16 ;; cert <- bytestring cert_len ;; ciphers <- array (Z.to_nat (ciph_len / 3)) uint24 ;;
  conn_id <- bytestring conn_id_len ;;
  pret {| session_id_hit := hit; v2_server_version := version; cert_data := cert; v2_s_ciphers := ciphers;
          conn_id_data := conn_id |}.

Definition V2ServerHello_length (head : list Z) : Z :=
  10 + be_value (firstn 2 (skipn 4 head)) + be_value (firstn 2 (skipn 6 head)) + be_value (firstn 2 (skipn 8 head)).

Definition V2ClientMasterKey_length (head : list Z) : Z :=
  9 + be_value (firstn 2 (skipn 3 head)) + be_value (firstn 2 (skipn 5 head)) + be_value (firstn 2 (skipn 7 head)).

Definition on_V2ClientHello (m : list Z) (s : SSLAnalyzer) : option SSLAnalyzer :=
  match parse_V2ClientHello m with
  | Some (h, _) => Some (proc_client_hello (v2_client_version h) (v2_session_id h) (v2_ciphers h) 0 (v2_challenge h)
                                           (client_hello_state s))
  | None => None
  end.

Definition on_V2ServerHello (m : list Z) (s : SSLAnalyzer) : option SSLAnalyzer :=
  match parse_V2ServerHello m with
  | Some (h, _) =>
      let news := if 0 <? session_id_hit h then STATE_CONN_ESTABLISHED else STATE_V2_CL_MASTER_KEY_EXPECTED in
      Some (proc_certificate [cert_data h]
              (proc_server_hello (v2_server_version h) [] (v2_s_ciphers h) (session_id_hit h) 0 (conn_id_data h) 0
                 (transitions [(STATE_CLIENT_HELLO_RCVD, news, false)] s)))
  | None => None
  end.

Definition on_V2ClientMasterKey (m : list Z) (s : SSLAnalyzer) : SSLAnalyzer :=
  proc_v2_client_master_key (be_value (firstn 3 m))
    (transitions [(STATE_V2_CL_MASTER_KEY_EXPECTED, STATE_CONN_ESTABLISHED, true)] s).

(** ** Units of a record *)

(** What becomes of the bytes of a record: a unit is done and the rest follows, a unit goes
    on beyond the record, an exception, or the rest is thrown away. *)
Inductive Unit :=
  | UDone (s : SSLAnalyzer) (rest : list Z) | UPartial | UThrow | UDiscard (s : SSLAnalyzer).

(** A unit with a header of [head] bytes and a length computed from it. *)
Definition sized (head : nat) (len : list Z -> Z) (k : list Z -> option SSLAnalyzer) (bs : list Z) : Unit :=
  if (List.length bs <? head)%nat then UPartial
  else
    let n := Z.to_nat (len (firstn head bs)) in
    if (List.length bs <? n)%nat then UPartial
    else match k (firstn n bs) with Some s => UDone s (skipn n bs) | None => UThrow end.

(** [SSLPDU] of [ssl-protocol.pac] *)
Definition ssl_unit (bs : list Z) (s : SSLAnalyzer) : Unit :=
  let record_length := Z.to_nat (current_record_length s) in
  match state s with
  | STATE_ABBREV_SERVER_ENCRYPTED | STATE_CLIENT_ENCRYPTED | STATE_COMM_ENCRYPTED | STATE_CONN_ESTABLISHED =>
      sized record_length (fun _ => current_record_length s)
            (fun _ => Some (proc_ciphertext_record (transitions encrypted_chain s))) bs
  | _ =>
      let t := current_record_type s in
      if t =? CHANGE_CIPHER_SPEC then sized 1 (fun _ => 1) (fun _ => Some (on_ChangeCipherSpec s)) bs
      else if t =? ALERT then sized 2 (fun _ => 2) (fun m => Some (proc_alert (nth 0 m 0) (nth 1 m 0) s)) bs
      else if t =? HANDSHAKE then
        sized 4 (fun h => 4 + be_value (skipn 1 h)) (fun m => on_Handshake (nth 0 m 0) (skipn 4 m) s) bs
      else if t =? APPLICATION_DATA then
        sized record_length (fun _ => current_record_length s)
              (fun m => Some (proc_application_data m (transitions encrypted_chain s))) bs
      else if t =? V2_ERROR then sized 2 (fun _ => 2) (fun m => Some (proc_alert (-1) (be_value m) s)) bs
      else if t =? V2_CLIENT_HELLO then sized 8 V2ClientHello_length (fun m => on_V2ClientHello m s) bs
      else if t =? V2_CLIENT_MASTER_KEY then sized 9 V2ClientMasterKey_length (fun m => Some (on_V2ClientMasterKey m s)) bs
      else if t =? V2_SERVER_HELLO then sized 10 V2ServerHello_length (fun m => on_V2ServerHello m s) bs
      else if t =? UNKNOWN_OR_V2_ENCRYPTED
      then UDiscard (emit [ProtocolViolation "unknown SSL record type"] (lost_track s))
      else UThrow
  end.

(** [NewData] of the flow for one direction: units while there are bytes.  The second
    component tells of an exception. *)
Fixpoint ssl_NewData (fuel : nat) (bs : list Z) (s : SSLAnalyzer) : SSLAnalyzer * bool :=
  match bs, fuel with
  | [], _ => (s, false)
  | _, O => (s, false)
  | _, S fuel =>
      match ssl_unit bs s with
      | UDone s rest => ssl_NewData fuel rest s
      | UPartial => (set_fragmented s, false)
      | UThrow => (s, true)
      | UDiscard s => (s, false)
      end
  end.

(** [next_record] *)
Definition next_record (rec : list Z) (type version : Z) (is_orig : bool) (s : SSLAnalyzer) : SSLAnalyzer * bool :=
  if fragmented s then (s, false)
  else
    let s := set_record type version (Z.of_nat (List.length rec)) is_orig s in
    ssl_NewData (List.length rec) rec (emit [ssl_record is_orig type rec] s).

(** ** The record layer *)

(** [determine_ssl_version] *)
Definition determine_ssl_version (head0 head1 head2 : Z) : Z :=
  if (20 <=? head0) && (head0 <=? 23) && (head1 =? 0x03) && (head2 <? 0x03) then Z.lor (Z.shiftl head1 8) head2
  else if (128 <=? head0) && (head2 <? 5) && negb (head2 =? 3) then SSLv20
  else UNKNOWN_VERSION.

(** [SSLPDU] of [ssl-record-layer.pac]: its length, and what it forwards. *)
Definition head (i : nat) (data : list Z) : Z := nth i data 0.

Definition pdu_length (data : list Z) : Z :=
  let version := determine_ssl_version (head 0 data) (head 1 data) (head 2 data) in
  if version =? UNKNOWN_VERSION then 0
  else if version =? SSLv20 then Z.lor (Z.shiftl (Z.land (head 0 data) 0x7f) 8) (head 1 data) - 3
  else Z.lor (Z.shiftl (head 3 data) 8) (head 4 data).

Definition pdu_total_length (data : list Z) : Z := 5 + pdu_length data.

Definition on_pdu (is_orig : bool) (data : list Z) (s : SSLAnalyzer) : UnitResult SSLAnalyzer :=
  let version := determine_ssl_version (head 0 data) (head 1 data) (head 2 data) in
  let fragment := skipn 5 data in
  let '(s, threw, discard) :=
    if version =? UNKNOWN_VERSION
    then (next_record [] UNKNOWN_OR_V2_ENCRYPTED UNKNOWN_VERSION is_orig s, true)
    else if version =? SSLv20
    then (next_record (head 3 data :: head 4 data :: fragment) (300 + head 2 data) SSLv20 is_orig s, false)
    else (next_record fragment (head 0 data) (Z.lor (Z.shiftl (head 1 data) 8) (head 2 data)) is_orig s, false) in
  if threw : bool then Thrown s else Parsed s discard.

(** ** The two directions *)

Record SslConn := { upflow : Flow; downflow : Flow; ssl : SSLAnalyzer }.

Definition flow_of (orig : bool) (c : SslConn) : Flow := if orig then upflow c else downflow c.
Definition set_flow (orig : bool) (fl : Flow) (s : SSLAnalyzer) (c : SslConn) : SslConn :=
  if orig then {| upflow := fl; downflow := downflow c; ssl := s |}
  else {| upflow := upflow c; downflow := fl; ssl := s |}.

(** [SSL_Analyzer_binpac::DeliverStream]; [NextStream] catches the exceptions.  [None] is a
    failed assertion. *)
Definition DeliverStream (is_partial orig : bool) (data : list Z) (c : SslConn) : option SslConn :=
  if is_partial then Some c
  else match flow_NewData 5 pdu_total_length (on_pdu orig) data (flow_of orig c) (ssl c) with
       | Some (fl, s, _) => Some (set_flow orig fl s c)
       | None => None
       end.

(** [SSL_Analyzer_binpac::Undelivered] *)
Definition ssl_Undelivered (len : Z) (orig : bool) (c : SslConn) : option SslConn :=
  option_map (fun fl => set_flow orig fl (ssl c) c) (flow_NewGap len (flow_of orig c)).

(** [SSL_Analyzer_binpac::EndpointEOF]; the inner flow has no bytes between two records. *)
Definition ssl_EndpointEOF (orig : bool) (c : SslConn) : option SslConn :=
  match flow_EOF 5 pdu_total_length (on_pdu orig) (flow_of orig c) (ssl c) with
  | Some (fl, s, _) => Some (set_flow orig fl s c)
  | None => None
  end.

End Analyzer.
