(* ===== verification/SslThms.v ===== *)
(** * What Bro's TLS parser reports

    Theorems on [SslRecords]: the messages of the TLS specification are read back, a
    handshake is reported in order whatever the pieces its bytes arrive in, and the
    places where the parser reads or drops more than it should. *)
From S2P Require Import Prelude Bytes CLib FlowBuffer FlowThms SslRecords.
From Stdlib Require Import String ZArith Lia List Bool.
Import ListNotations.
Open Scope Z_scope.
Open Scope list_scope.

(** ** The wire format *)

(** [n] bytes in network order. *)
Definition be (n : nat) (v : Z) : list Z := rev (le_bytes n v).

Lemma be_length n v : List.length (be n v) = n.
Proof. unfold be. now rewrite length_rev, le_bytes_length. Qed.

Lemma be_value_be n v : 0 <= v < 256 ^ Z.of_nat n -> be_value (be n v) = v.
Proof. intros H. unfold be_value, be. rewrite rev_involutive, le_value_bytes. now apply Z.mod_small. Qed.

Lemma be_be_value bs : Forall is_byte bs -> be (List.length bs) (be_value bs) = bs.
Proof.
  intros H. unfold be, be_value. rewrite <- length_rev, le_bytes_value by now apply Forall_rev. apply rev_involutive.
Qed.

Lemma bytestring_app n a rest : Z.of_nat (List.length a) = n -> bytestring n (a ++ rest) = Some (a, rest).
Proof.
  intros <-. unfold bytestring. rewrite length_app, (proj2 (Z.ltb_ge _ _)) by lia.
  rewrite Nat2Z.id. now rewrite firstn_exact, skipn_exact.
Qed.

Lemma uint_be n v rest : 0 <= v < 256 ^ Z.of_nat n -> uint (Z.of_nat n) (be n v ++ rest) = Some (v, rest).
Proof.
  intros H. unfold uint, pbind. rewrite bytestring_app by now rewrite be_length. unfold pret. now rewrite be_value_be.
Qed.

Lemma uint8_byte b rest : uint8 (b :: rest) = Some (b, rest).
Proof.
  unfold uint8, uint, pbind. change (b :: rest) with ([b] ++ rest). rewrite bytestring_app by reflexivity.
  unfold pret, be_value. cbn. now rewrite Z.add_0_r.
Qed.

Lemma uint16_be v rest : 0 <= v < 65536 -> uint16 (be 2 v ++ rest) = Some (v, rest).
Proof. intros H. now apply (uint_be 2). Qed.

Lemma uint24_be v rest : 0 <= v < 16777216 -> uint24 (be 3 v ++ rest) = Some (v, rest).
Proof. intros H. now apply (uint_be 3). Qed.

Lemma uint32_be v rest : 0 <= v < 4294967296 -> uint32 (be 4 v ++ rest) = Some (v, rest).
Proof. intros H. now apply (uint_be 4). Qed.

Lemma array_uint8 l rest : array (List.length l) uint8 (l ++ rest) = Some (l, rest).
Proof.
  induction l as [|b l IH]; [reflexivity|]. cbn [List.length array app]. unfold pbind. now rewrite uint8_byte, IH.
Qed.

Lemma array_uint16 l rest :
  Forall (fun v => 0 <= v < 65536) l -> array (List.length l) uint16 (concat (map (be 2) l) ++ rest) = Some (l, rest).
Proof.
  induction 1 as [|v l Hv Hl IH]; [reflexivity|]. cbn [List.length array map concat]. unfold pbind.
  now rewrite <- app_assoc, uint16_be, IH.
Qed.

(** A hello of either side: version, 32 random bytes, session id; then the suites and
    methods that a client offers, or the one suite and method of the server. *)
Definition enc_client_hello (version : Z) (random sid suits meths extensions : list Z) : list Z :=
  be 2 version ++ random ++ Z.of_nat (List.length sid) :: sid ++
  be 2 (2 * Z.of_nat (List.length suits)) ++ concat (map (be 2) suits) ++
  Z.of_nat (List.length meths) :: meths ++ extensions.

Definition enc_server_hello (version : Z) (random sid : list Z) (suite meth : Z) (extensions : list Z) : list Z :=
  be 2 version ++ random ++ Z.of_nat (List.length sid) :: sid ++ be 2 suite ++ meth :: extensions.

Definition enc_key_exchange (p g pub signature : list Z) : list Z :=
  be 2 (Z.of_nat (List.length p)) ++ p ++ be 2 (Z.of_nat (List.length g)) ++ g ++
  be 2 (Z.of_nat (List.length pub)) ++ pub ++ signature.

Definition enc_handshake (type : Z) (body : list Z) : list Z := type :: be 3 (Z.of_nat (List.length body)) ++ body.

Definition enc_record (type version : Z) (fragment : list Z) : list Z :=
  type :: be 2 version ++ be 2 (Z.of_nat (List.length fragment)) ++ fragment.

(** 32 random bytes are a time and 28 bytes. *)
Definition random_ok (random : list Z) : Prop := List.length random = 32%nat /\ Forall is_byte random.

Lemma random_split random :
  random_ok random -> random = be 4 (be_value (firstn 4 random)) ++ skipn 4 random /\
  0 <= be_value (firstn 4 random) < 4294967296 /\ List.length (skipn 4 random) = 28%nat.
Proof.
  intros [Hl Hb]. assert (L : List.length (firstn 4 random) = 4%nat) by (rewrite length_firstn; lia).
  pose proof (Forall_firstn _ 4 _ Hb) as Hf. split; [|split].
  - rewrite <- L at 1. rewrite be_be_value by assumption. now rewrite firstn_skipn.
  - pose proof (be_value_bound _ Hf) as B. rewrite L in B. exact B.
  - rewrite length_skipn. lia.
Qed.

(** The parts of a hello up to the session id, for both sides. *)
Lemma parse_hello_head {A} (k : Z -> Z -> list Z -> list Z -> parser A) version random sid rest :
  0 <= version < 65536 -> random_ok random ->
  (v <- uint16 ;; t <- uint32 ;; r <- bytestring 28 ;; n <- uint8 ;; i <- array (Z.to_nat n) uint8 ;; k v t r i)%parser
    (be 2 version ++ random ++ Z.of_nat (List.length sid) :: sid ++ rest) =
  k version (be_value (firstn 4 random)) (skipn 4 random) sid rest.
Proof.
  intros Hv Hr. destruct (random_split random Hr) as (E & Ht & Hl). unfold pbind. rewrite uint16_be by assumption.
  rewrite E at 1. rewrite <- app_assoc, uint32_be by assumption. rewrite bytestring_app by (rewrite Hl; reflexivity).
  rewrite uint8_byte, Nat2Z.id, array_uint8. reflexivity.
Qed.

Lemma client_hello_read version random sid suits meths extensions :
  0 <= version < 65536 -> random_ok random -> 2 * Z.of_nat (List.length suits) < 65536 ->
  Forall (fun v => 0 <= v < 65536) suits ->
  parse_ClientHello (enc_client_hello version random sid suits meths extensions) =
  Some ({| client_version := version; gmt_unix_time := be_value (firstn 4 random); random_bytes := skipn 4 random;
           session_id := sid; csuits := suits; cmeths := meths |}, extensions).
Proof.
  intros Hv Hr Hs Fs. unfold parse_ClientHello, enc_client_hello. rewrite parse_hello_head by assumption.
  unfold pbind. rewrite uint16_be by lia. replace (2 * Z.of_nat (List.length suits) / 2) with (Z.of_nat (List.length suits)).
  - rewrite Nat2Z.id, array_uint16 by assumption. rewrite uint8_byte, Nat2Z.id, array_uint8. reflexivity.
  - rewrite Z.mul_comm, Z.div_mul; lia.
Qed.

Lemma server_hello_read version random sid suite meth extensions :
  0 <= version < 65536 -> random_ok random -> 0 <= suite < 65536 ->
  parse_ServerHello (enc_server_hello version random sid suite meth extensions) =
  Some ({| server_version := version; s_gmt_unix_time := be_value (firstn 4 random); s_random_bytes := skipn 4 random;
           s_session_id := sid; cipher_suite := [suite]; compression_method := meth |}, extensions).
Proof.
  intros Hv Hr Hs. unfold parse_ServerHello, enc_server_hello. rewrite parse_hello_head by assumption.
  unfold pbind, array, pbind. rewrite uint16_be by lia. unfold pret. rewrite uint8_byte. reflexivity.
Qed.

Lemma key_exchange_read p g pub signature :
  Z.of_nat (List.length p) < 65536 -> Z.of_nat (List.length g) < 65536 -> Z.of_nat (List.length pub) < 65536 ->
  parse_ServerKeyExchange (enc_key_exchange p g pub signature) = Some ((p, g, pub), []).
Proof.
  intros Hp Hg Hb. unfold parse_ServerKeyExchange, enc_key_exchange, pbind.
  rewrite uint16_be, bytestring_app by (lia || reflexivity). rewrite uint16_be, bytestring_app by (lia || reflexivity).
  rewrite uint16_be, bytestring_app by (lia || reflexivity). reflexivity.
Qed.

(** C22: The hellos of both sides and the server's Diffie-Hellman key exchange of the TLS
    specification, whatever extensions or signature follow, are read back field by field. *)
Theorem messages_roundtrip version crandom srandom csid ssid suits suite meths meth ext sext p g pub signature :
  0 <= version < 65536 -> random_ok crandom -> random_ok srandom -> 2 * Z.of_nat (List.length suits) < 65536 ->
  Forall (fun v => 0 <= v < 65536) suits -> 0 <= suite < 65536 ->
  Z.of_nat (List.length p) < 65536 -> Z.of_nat (List.length g) < 65536 -> Z.of_nat (List.length pub) < 65536 ->
  parse_ClientHello (enc_client_hello version crandom csid suits meths ext) =
    Some ({| client_version := version; gmt_unix_time := be_value (firstn 4 crandom); random_bytes := skipn 4 crandom;
             session_id := csid; csuits := suits; cmeths := meths |}, ext) /\
  parse_ServerHello (enc_server_hello version srandom ssid suite meth sext) =
    Some ({| server_version := version; s_gmt_unix_time := be_value (firstn 4 srandom); s_random_bytes := skipn 4 srandom;
             s_session_id := ssid; cipher_suite := [suite]; compression_method := meth |}, sext) /\
  parse_ServerKeyExchange (enc_key_exchange p g pub signature) = Some ((p, g, pub), []).
Proof.
  intros. repeat split; [apply client_hello_read|apply server_hello_read|apply key_exchange_read]; assumption.
Qed.

Lemma messages_roundtrip_witness :
  parse_ClientHello (enc_client_hello 769 (repeat 7 32) [1; 2] [57; 53] [0] [9; 9]) =
    Some ({| client_version := 769; gmt_unix_time := be_value (repeat 7 4); random_bytes := repeat 7 28;
             session_id := [1; 2]; csuits := [57; 53]; cmeths := [0] |}, [9; 9]) /\
  parse_ServerHello (enc_server_hello 769 (repeat 8 32) [3] 57 0 []) =
    Some ({| server_version := 769; s_gmt_unix_time := be_value (repeat 8 4); s_random_bytes := repeat 8 28;
             s_session_id := [3]; cipher_suite := [57]; compression_method := 0 |}, []) /\
  parse_ServerKeyExchange (enc_key_exchange [23] [5] [8] [1; 1]) = Some (([23], [5], [8]), []).
Proof.
  apply (messages_roundtrip 769 (repeat 7 32) (repeat 8 32) [1; 2] [3] [57; 53] 57 [0] 0 [9; 9] [] [23] [5] [8] [1; 1]);
    try (cbn; lia).
  - split; [reflexivity|]. apply Forall_forall. intros b Hb. apply repeat_spec in Hb. subst. unfold is_byte. lia.
  - split; [reflexivity|]. apply Forall_forall. intros b Hb. apply repeat_spec in Hb. subst. unfold is_byte. lia.
  - repeat constructor; lia.
Defined.

(** ** Records *)

(** A record of the versions that the parser knows. *)
Definition record_ok (r : Z * Z * list Z) : Prop :=
  let '(type, version, fragment) := r in
  20 <= type <= 23 /\ (version = SSLv30 \/ version = TLSv10 \/ version = TLSv11) /\ Z.of_nat (List.length fragment) < 65536.

Definition enc (r : Z * Z * list Z) : list Z := let '(type, version, fragment) := r in enc_record type version fragment.

Lemma enc_bytes type version fragment rest :
  record_ok (type, version, fragment) ->
  enc (type, version, fragment) ++ rest =
  [type; 3; version - 768; Z.of_nat (List.length fragment) / 256; Z.of_nat (List.length fragment) mod 256] ++ fragment ++ rest.
Proof.
  intros (Ht & Hv & Hl). unfold enc, enc_record, be. cbn [le_bytes rev app].
  rewrite !(Z.mod_small (Z.of_nat (List.length fragment) / 256)) by (split; [apply Z.div_pos; lia|apply Z.div_lt_upper_bound; lia]).
  destruct Hv as [->|[->| ->]]; cbn; rewrite <- ?app_assoc; reflexivity.
Qed.

Lemma enc_version type version fragment rest :
  record_ok (type, version, fragment) ->
  let data := enc (type, version, fragment) ++ rest in
  determine_ssl_version (SslRecords.head 0 data) (SslRecords.head 1 data) (SslRecords.head 2 data) = version /\
  Z.lor (Z.shiftl (SslRecords.head 1 data) 8) (SslRecords.head 2 data) = version /\ SslRecords.head 0 data = type.
Proof.
  intros Hr. cbn zeta. rewrite enc_bytes by assumption. destruct Hr as (Ht & Hv & Hl). unfold SslRecords.head. cbn [nth app].
  unfold determine_ssl_version. rewrite (proj2 (Z.leb_le 20 type)), (proj2 (Z.leb_le type 23)) by lia.
  destruct Hv as [->|[->| ->]]; repeat split; reflexivity.
Qed.

Lemma known_version version : version = SSLv30 \/ version = TLSv10 \/ version = TLSv11 ->
  (version =? UNKNOWN_VERSION) = false /\ (version =? SSLv20) = false.
Proof. intros [->|[->| ->]]; split; reflexivity. Qed.

Lemma enc_total type version fragment rest :
  record_ok (type, version, fragment) ->
  pdu_total_length (enc (type, version, fragment) ++ rest) = 5 + Z.of_nat (List.length fragment).
Proof.
  intros Hr. unfold pdu_total_length, pdu_length. destruct (enc_version type version fragment rest Hr) as (-> & _ & _).
  pose proof Hr as (_ & Hv & Hl). destruct (known_version version Hv) as [-> ->]. f_equal.
  rewrite enc_bytes by assumption. unfold SslRecords.head. cbn [nth app].
  rewrite lor_shift by (apply Z.mod_pos_bound; lia). symmetry. apply Z.div_mod. lia.
Qed.

Lemma enc_length r : List.length (enc r) = (5 + List.length (snd r))%nat.
Proof. destruct r as [[t v] f]. unfold enc, enc_record. cbn [List.length app snd]. rewrite !length_app, !be_length. lia. Qed.

Lemma enc_unit_length r rest :
  record_ok r -> unit_length 5 pdu_total_length (enc r ++ rest) = Z.of_nat (List.length (enc r)).
Proof.
  intros Hr. destruct r as [[t v] f]. unfold unit_length. rewrite enc_bytes by assumption.
  change (firstn (Z.to_nat 5) ([t; 3; v - 768; Z.of_nat (List.length f) / 256; Z.of_nat (List.length f) mod 256] ++ f ++ rest))
    with ([t; 3; v - 768; Z.of_nat (List.length f) / 256; Z.of_nat (List.length f) mod 256]).
  assert (E : pdu_total_length [t; 3; v - 768; Z.of_nat (List.length f) / 256; Z.of_nat (List.length f) mod 256] =
              pdu_total_length (enc (t, v, f) ++ [])) by (rewrite enc_bytes by assumption; reflexivity).
  rewrite E, enc_total, enc_length by assumption. cbn [snd]. lia.
Qed.

(** Records one after the other are the units of their bytes. *)
Lemma units_records rs :
  Forall record_ok rs ->
  units 5 pdu_total_length (List.length (concat (map enc rs))) (concat (map enc rs)) = (map enc rs, []).
Proof.
  intros F. enough (H : forall k, (List.length (concat (map enc rs)) <= k)%nat ->
    units 5 pdu_total_length k (concat (map enc rs)) = (map enc rs, [])) by now apply H.
  induction F as [|r rs Hr F IH]; intros k Hk.
  - cbn. destruct k; reflexivity.
  - cbn [map concat] in *. rewrite length_app, enc_length in Hk. destruct k as [|k]; [lia|]. cbn [units].
    rewrite enc_unit_length by assumption. rewrite length_app, !enc_length.
    rewrite (proj2 (Z.leb_le 5 _)), (proj2 (Z.leb_le (Z.of_nat (5 + _)) _)) by lia. cbn [andb].
    rewrite <- enc_length, Nat2Z.id, firstn_exact, skipn_exact by reflexivity. rewrite IH by lia. reflexivity.
Qed.

(** *** Handshake messages *)

Definition enc_msg (m : Z * list Z) : list Z := enc_handshake (fst m) (snd m).

(** A body that its parser accepts; types without a parser take any body. *)
Definition readable (m : Z * list Z) : bool :=
  let '(t, body) := m in
  if t =? 1 then match parse_ClientHello body with Some _ => true | None => false end
  else if t =? 2 then match parse_ServerHello body with Some _ => true | None => false end
  else if t =? 11 then match parse_Certificate body with Some _ => true | None => false end
  else if t =? 12 then match parse_ServerKeyExchange body with Some _ => true | None => false end
  else true.

Definition msg_ok (m : Z * list Z) : Prop := Z.of_nat (List.length (snd m)) < 16777216 /\ readable m = true.

(** The states in which the bytes of a record are not looked at. *)
Definition encrypted (st : AnalyzerState) : bool :=
  match st with
  | STATE_ABBREV_SERVER_ENCRYPTED | STATE_CLIENT_ENCRYPTED | STATE_COMM_ENCRYPTED | STATE_CONN_ESTABLISHED => true
  | _ => false
  end.

(** The members that a message leaves alone. *)
Definition same_record (s s' : SSLAnalyzer) : Prop :=
  current_record_type s' = current_record_type s /\ current_record_version s' = current_record_version s /\
  current_record_length s' = current_record_length s /\ current_record_is_orig s' = current_record_is_orig s /\
  fragmented s' = fragmented s.

Lemma same_record_refl s : same_record s s.
Proof. repeat split. Qed.

Lemma same_record_trans a b c : same_record a b -> same_record b c -> same_record a c.
Proof. unfold same_record. intuition congruence. Qed.

(** A step that keeps the record and does not begin encryption. *)
Definition plain (s s' : SSLAnalyzer) : Prop :=
  same_record s s' /\ (encrypted (state s) = false -> encrypted (state s') = false).

Lemma plain_same s s' : same_record s s' -> state s' = state s -> plain s s'.
Proof. intros H E. split; [assumption|]. now rewrite E. Qed.

Lemma plain_trans a b c : plain a b -> plain b c -> plain a c.
Proof. intros [H1 E1] [H2 E2]. split; [eapply same_record_trans; eassumption|auto]. Qed.

Lemma plain_emit e s : plain s (emit e s).
Proof. apply plain_same; [repeat split|reflexivity]. Qed.

Lemma plain_set_session a b c d e s : plain s (set_session a b c d e s).
Proof. apply plain_same; [repeat split|reflexivity]. Qed.

Lemma plain_set_hello_requested v s : plain s (set_hello_requested v s).
Proof. apply plain_same; [repeat split|reflexivity]. Qed.

Lemma plain_transition o n d s s' : transition o n d s = Some s' -> encrypted n = false -> plain s s'.
Proof.
  unfold transition. intros E Hn. destruct (_ || _); [discriminate|]. injection E as <-. split; [repeat split|]. now intros _.
Qed.

Lemma plain_lost_track s : plain s (lost_track s).
Proof. split; [repeat split|]. reflexivity. Qed.

Lemma plain_transitions ts s : Forall (fun t => encrypted (snd (fst t)) = false) ts -> plain s (transitions ts s).
Proof.
  induction 1 as [|[[o n] d] ts Hn _ IH]; [apply plain_lost_track|]. cbn [transitions].
  destruct (transition o n d s) eqn:E; [|assumption]. now apply (plain_transition o n d).
Qed.

Create HintDb tls.
#[export] Hint Resolve plain_emit plain_set_session plain_set_hello_requested plain_lost_track same_record_refl : tls.

(** Reduces a chain of updates to its innermost state. *)
Ltac plain_chain :=
  repeat first
    [ match goal with |- plain ?s ?s => apply plain_same; [apply same_record_refl|reflexivity] end
    | apply plain_emit | apply plain_set_session | apply plain_lost_track | apply plain_set_hello_requested
    | apply plain_transitions; repeat constructor
    | match goal with
      | |- plain _ (emit _ _) => eapply plain_trans; [|apply plain_emit]
      | |- plain _ (set_session _ _ _ _ _ _) => eapply plain_trans; [|apply plain_set_session]
      | |- plain _ (if ?b then _ else _) => destruct b
      | |- plain _ (match ?x with _ => _ end) => destruct x eqn:?
      end ].

Lemma plain_unexpected w s : plain s (unexpected w s).
Proof. unfold unexpected. plain_chain. Qed.

Lemma plain_client_hello_state s : plain s (client_hello_state s).
Proof.
  unfold client_hello_state. destruct (transition STATE_INITIAL _ _ s) eqn:E1; [eapply plain_transition; [eassumption|reflexivity]|].
  destruct (hello_requested_ s); [|eapply plain_trans; [apply (plain_set_hello_requested false)|apply plain_lost_track]].
  destruct (transition STATE_ANY _ _ _) eqn:E2; (eapply plain_trans; [apply (plain_set_hello_requested false)|]).
  - eapply plain_transition; [eassumption|reflexivity].
  - apply plain_lost_track.
Qed.

Section Reports.

Context (ssl_compare_cipherspecs ssl_analyze_certificates : bool) (beyond : list Z).

Abbreviation on_Handshake := (on_Handshake ssl_compare_cipherspecs ssl_analyze_certificates beyond).
Abbreviation ssl_NewData := (ssl_NewData ssl_compare_cipherspecs ssl_analyze_certificates beyond).
Abbreviation next_record := (next_record ssl_compare_cipherspecs ssl_analyze_certificates beyond).
Abbreviation on_pdu := (on_pdu ssl_compare_cipherspecs ssl_analyze_certificates beyond).
Abbreviation DeliverStream := (DeliverStream ssl_compare_cipherspecs ssl_analyze_certificates beyond).

Lemma plain_client_hello v sid cs t r s : plain s (proc_client_hello ssl_compare_cipherspecs beyond v sid cs t r s).
Proof.
  unfold proc_client_hello, check_version. eapply plain_trans; [apply (plain_unexpected "client hello")|]. plain_chain.
Qed.

Lemma plain_server_hello v sid cs hit t r m s : plain s (proc_server_hello ssl_compare_cipherspecs beyond v sid cs hit t r m s).
Proof.
  unfold proc_server_hello, check_version, check_cipher. eapply plain_trans; [apply (plain_unexpected "server hello")|]. plain_chain.
Qed.

Lemma plain_certificate cs s : plain s (proc_certificate ssl_analyze_certificates cs s).
Proof. unfold proc_certificate. eapply plain_trans; [apply (plain_unexpected "certificate")|]. plain_chain. Qed.

Ltac is_bool b := match type of b with bool => idtac end.

(** A message that can be read is handled in every state, and leaves encryption to
    [ChangeCipherSpec]. *)
Lemma on_Handshake_total t body s :
  readable (t, body) = true -> exists s', on_Handshake t body s = Some s' /\ plain s s'.
Proof.
  intros R. unfold SslRecords.on_Handshake, on_handshake_body. unfold readable in R.
  destruct (t =? 0); [eexists; split; [reflexivity|eapply plain_trans; [apply plain_set_hello_requested|apply plain_unexpected]]|].
  repeat match goal with
  | H : match ?x with Some _ => true | None => false end = true |- _ => destruct x as [[? ?]|]; [|discriminate H]
  | H : (if ?b then _ else _) = true |- _ => is_bool b; destruct b
  | |- context [let '(_, _) := ?x in _] => destruct x as [[? ?] ?]
  | |- exists _, option_map _ (if ?b then _ else _) = _ /\ _ => is_bool b; destruct b
  end; cbn [option_map];
  (eexists; split; [reflexivity|]; eapply plain_trans; [|apply plain_unexpected]);
  try (eapply plain_trans; [|apply plain_client_hello]; apply plain_client_hello_state);
  try (eapply plain_trans; [|apply plain_server_hello]; plain_chain);
  try (eapply plain_trans; [|apply plain_certificate]; plain_chain); plain_chain.
Qed.

(** The messages of a record, one after the other. *)
Fixpoint handle_all (ms : list (Z * list Z)) (s : SSLAnalyzer) : SSLAnalyzer :=
  match ms with
  | [] => s
  | (t, body) :: ms => match on_Handshake t body s with Some s => handle_all ms s | None => s end
  end.

Lemma sized_handshake t body rest (k : list Z -> option SSLAnalyzer) :
  Z.of_nat (List.length body) < 16777216 ->
  sized 4 (fun h => 4 + be_value (skipn 1 h)) k (enc_handshake t body ++ rest) =
  match k (enc_handshake t body) with Some s => UDone s rest | None => UThrow end.
Proof.
  intros Hl. assert (L : List.length (enc_handshake t body) = (4 + List.length body)%nat).
  { unfold enc_handshake. cbn [List.length]. rewrite length_app, be_length. lia. }
  unfold sized. rewrite length_app, L. rewrite (proj2 (Nat.ltb_ge _ 4)) by lia.
  replace (firstn 4 (enc_handshake t body ++ rest)) with (t :: be 3 (Z.of_nat (List.length body))).
  2:{ unfold enc_handshake. cbn [app]. rewrite <- app_assoc. rewrite firstn_cons. rewrite ?firstn_exact; [reflexivity|apply be_length]. }
  cbn [skipn]. rewrite be_value_be by (cbn; lia).
  replace (Z.to_nat (4 + Z.of_nat (List.length body))) with (List.length (enc_handshake t body)) by lia.
  rewrite (proj2 (Nat.ltb_ge _ _)) by lia. rewrite firstn_exact, skipn_exact by reflexivity. reflexivity.
Qed.

Lemma ssl_unit_plain bs s :
  encrypted (state s) = false -> current_record_type s = HANDSHAKE ->
  ssl_unit ssl_compare_cipherspecs ssl_analyze_certificates beyond bs s =
  sized 4 (fun h => 4 + be_value (skipn 1 h)) (fun m => on_Handshake (nth 0 m 0) (skipn 4 m) s) bs.
Proof. intros He Ht. unfold ssl_unit. rewrite Ht. destruct (state s); reflexivity || discriminate He. Qed.

Lemma NewData_messages ms : forall fuel s,
  Forall msg_ok ms -> encrypted (state s) = false -> current_record_type s = HANDSHAKE ->
  (List.length (concat (map enc_msg ms)) <= fuel)%nat ->
  ssl_NewData fuel (concat (map enc_msg ms)) s = (handle_all ms s, false) /\ plain s (handle_all ms s).
Proof.
  induction ms as [|[t body] ms IH]; intros fuel s F He Ht Hf.
  - split; [destruct fuel; reflexivity|]. apply plain_same; [apply same_record_refl|reflexivity].
  - apply Forall_cons_iff in F as [[Hl Hr] F]. cbn [map concat handle_all enc_msg fst snd] in *.
    destruct (on_Handshake_total t body s Hr) as (s1 & E & P). rewrite E.
    rewrite length_app in Hf. unfold enc_msg at 1 in Hf. cbn [fst snd] in Hf.
    assert (L : (4 <= List.length (enc_handshake t body))%nat) by (unfold enc_handshake; cbn [List.length]; rewrite length_app, be_length; lia).
    destruct fuel as [|fuel]; [lia|]. pose proof P as [(Hc & _) Hp].
    destruct (IH fuel s1) as [E1 P1]; [assumption|auto|congruence|lia|]. split; [|eapply plain_trans; eassumption].
    rewrite <- E1. unfold enc_msg at 1. cbn [fst snd]. unfold enc_handshake at 1. cbn [app SslRecords.ssl_NewData].
    change (t :: (be 3 (Z.of_nat (List.length body)) ++ body) ++ concat (map enc_msg ms))
      with (enc_handshake t body ++ concat (map enc_msg ms)).
    rewrite ssl_unit_plain by assumption. rewrite sized_handshake by assumption. cbv beta.
    replace (skipn 4 (enc_handshake t body)) with body.
    2:{ unfold enc_handshake. rewrite skipn_cons, skipn_exact; [reflexivity|apply be_length]. }
    change (nth 0 (enc_handshake t body) 0) with t. now rewrite E.
Qed.

(** In an encrypted state a record is one unit. *)
Lemma NewData_encrypted rec s :
  encrypted (state s) = true -> current_record_length s = Z.of_nat (List.length rec) -> rec <> [] ->
  ssl_NewData (List.length rec) rec s = (proc_ciphertext_record (transitions encrypted_chain s), false).
Proof.
  intros He Hl Hn. destruct rec as [|b rec]; [easy|]. cbn [List.length SslRecords.ssl_NewData].
  assert (E : ssl_unit ssl_compare_cipherspecs ssl_analyze_certificates beyond (b :: rec) s =
              UDone (proc_ciphertext_record (transitions encrypted_chain s)) []).
  { unfold ssl_unit, sized. rewrite Hl, !Nat2Z.id, Nat.ltb_irrefl, firstn_all, skipn_all. destruct (state s); discriminate He || reflexivity. }
  rewrite E. destruct (List.length rec); reflexivity.
Qed.

Lemma same_record_transitions ts s : same_record s (transitions ts s).
Proof.
  induction ts as [|[[o n] d] ts IH]; [repeat split|]. cbn [transitions]. unfold transition. destruct (_ || _); [assumption|repeat split].
Qed.

Lemma same_record_emit e s s' : same_record s s' -> same_record s (emit e s').
Proof. intros H. eapply same_record_trans; [exact H|]. repeat split. Qed.

Hint Resolve same_record_transitions same_record_emit : tls.

(** A record that is not a handshake record is never an exception. *)
Lemma ssl_unit_opaque bs s :
  20 <= current_record_type s <= 23 -> current_record_type s <> HANDSHAKE ->
  match ssl_unit ssl_compare_cipherspecs ssl_analyze_certificates beyond bs s with
  | UDone s' _ => same_record s s'
  | UPartial => True
  | _ => False
  end.
Proof.
  intros Ht Hn.
  assert (D : forall h len (k : list Z -> option SSLAnalyzer), (forall m, exists s', k m = Some s' /\ same_record s s') ->
            match sized h len k bs with UDone s' _ => same_record s s' | UPartial => True | _ => False end).
  { intros h len k Hk. unfold sized. destruct (_ <? h)%nat; [exact I|]. destruct (_ <? _)%nat; [exact I|].
    destruct (Hk (firstn (Z.to_nat (len (firstn h bs))) bs)) as (s' & -> & R). exact R. }
  assert (C : current_record_type s = 20 \/ current_record_type s = 21 \/ current_record_type s = 23) by (unfold HANDSHAKE in Hn; lia).
  unfold ssl_unit. destruct (state s); try (apply D; intros m; eexists; split; [reflexivity|];
    unfold proc_ciphertext_record, unexpected; repeat match goal with |- context [if ?b then _ else _] => destruct b end; auto with tls);
  (destruct C as [->|[->| ->]]; cbn [Z.eqb CHANGE_CIPHER_SPEC ALERT HANDSHAKE APPLICATION_DATA Pos.eqb]; apply D; intros m; eexists; (split; [reflexivity|]);
   unfold on_ChangeCipherSpec, proc_change_cipher_spec, proc_alert, proc_application_data;
   repeat match goal with |- context [if ?b then _ else _] => destruct b end; auto with tls).
Qed.

Lemma NewData_opaque fuel : forall bs s,
  20 <= current_record_type s <= 23 -> current_record_type s <> HANDSHAKE -> snd (ssl_NewData fuel bs s) = false.
Proof.
  induction fuel as [|fuel IH]; intros [|b bs] s Ht Hn; try reflexivity. cbn [SslRecords.ssl_NewData].
  pose proof (ssl_unit_opaque (b :: bs) s Ht Hn) as H. destruct (ssl_unit _ _ _ _ _) as [s' rest| | |s']; try easy.
  destruct H as (E & _). apply IH; now rewrite E.
Qed.

(** A record that the analyzer can take in the state [s]: its handshake messages, if it has
    any and they are not encrypted, are whole and can be read. *)
Definition record_fits (r : Z * Z * list Z) (s : SSLAnalyzer) : Prop :=
  record_ok r /\
  (fst (fst r) = HANDSHAKE ->
   encrypted (state s) = true \/ exists ms, snd r = concat (map enc_msg ms) /\ Forall msg_ok ms).

Definition next (orig : bool) (r : Z * Z * list Z) (s : SSLAnalyzer) : SSLAnalyzer :=
  let '(type, version, fragment) := r in fst (next_record fragment type version orig s).

Lemma next_record_fits orig type version fragment s :
  record_fits (type, version, fragment) s -> next_record fragment type version orig s = (next orig (type, version, fragment) s, false).
Proof.
  intros [(Ht & _ & _) Hm]. cbn [fst snd] in Hm. unfold next.
  enough (H : snd (next_record fragment type version orig s) = false) by (destruct (next_record _ _ _ _ _); cbn in *; congruence).
  unfold SslRecords.next_record. destruct (fragmented s); [reflexivity|].
  set (s1 := emit _ _). destruct (Z.eq_dec type HANDSHAKE) as [E|E]; [|now apply NewData_opaque].
  destruct (encrypted (state s1)) eqn:He.
  - destruct fragment as [|b fragment]; [reflexivity|]. rewrite NewData_encrypted; [reflexivity|assumption|reflexivity|discriminate].
  - destruct (Hm E) as [He'|(ms & -> & F)]; [change (state s1) with (state s) in He; congruence|].
    destruct (NewData_messages ms (List.length (concat (map enc_msg ms))) s1 F He E (le_n _)) as [-> _]. reflexivity.
Qed.

Lemma on_pdu_fits orig r s : record_fits r s -> on_pdu orig (enc r) s = Parsed (next orig r s) false.
Proof.
  destruct r as [[type version] fragment]. intros G. pose proof G as [K _]. unfold SslRecords.on_pdu.
  pose proof (enc_version type version fragment [] K) as (V1 & V2 & V3). rewrite app_nil_r in *. rewrite V1, V2, V3.
  destruct K as (_ & Hv & _). destruct (known_version version Hv) as [-> ->].
  replace (skipn 5 (enc (type, version, fragment))) with fragment; [now rewrite next_record_fits|].
  unfold enc, enc_record. rewrite skipn_cons. rewrite app_assoc, skipn_exact; [reflexivity|]. now rewrite length_app, !be_length.
Qed.

Fixpoint records_fit (orig : bool) (rs : list (Z * Z * list Z)) (s : SSLAnalyzer) : Prop :=
  match rs with
  | [] => True
  | r :: rs => record_fits r s /\ records_fit orig rs (next orig r s)
  end.

(** The record layer's function on the encoded records. *)
Definition take (orig : bool) (u : list Z) (s : SSLAnalyzer) : SSLAnalyzer :=
  match on_pdu orig u s with Parsed s _ => s | Thrown s => s end.

Lemma records_fit_accepted orig rs : forall s,
  records_fit orig rs s ->
  Forall record_ok rs /\ accepted (on_pdu orig) (take orig) (map enc rs) s /\
  fold_left (fun a u => take orig u a) (map enc rs) s = fold_left (fun s r => next orig r s) rs s.
Proof.
  induction rs as [|r rs IH]; intros s H; [repeat split; constructor|]. destruct H as [Hr H].
  assert (E : take orig (enc r) s = next orig r s) by (unfold take; now rewrite on_pdu_fits).
  cbn [map accepted fold_left]. unfold accepts. rewrite E. destruct (IH _ H) as (F & A & L).
  split; [constructor; [apply Hr|assumption]|]. split; [split; [now apply on_pdu_fits|assumption]|assumption].
Qed.

(** ** Delivery *)

(** Pieces of the two directions, as the reassemblers deliver them. *)
Fixpoint deliver_all (ps : list (bool * list Z)) (c : SslConn) : option SslConn :=
  match ps with
  | [] => Some c
  | (orig, d) :: ps => match DeliverStream false orig d c with Some c => deliver_all ps c | None => None end
  end.

Lemma deliver_app ps qs c :
  deliver_all (ps ++ qs) c = match deliver_all ps c with Some c => deliver_all qs c | None => None end.
Proof. revert c. induction ps as [|[o d] ps IH]; intros c; [reflexivity|]. cbn [app deliver_all]. destruct (DeliverStream false o d c); auto. Qed.

Lemma set_flow_twice orig fl s fl' s' c : set_flow orig fl' s' (set_flow orig fl s c) = set_flow orig fl' s' c.
Proof. destruct orig; reflexivity. Qed.

Lemma deliver_feed orig pieces : forall c fl s,
  flow_feed 5 pdu_total_length (on_pdu orig) pieces (flow_of orig c) (ssl c) = Some (fl, s, Waiting) ->
  deliver_all (map (pair orig) pieces) c = Some (set_flow orig fl s c).
Proof.
  induction pieces as [|d pieces IH]; intros c fl s E; cbn [map deliver_all flow_feed] in *.
  - injection E as <- <-. destruct orig, c; reflexivity.
  - unfold SslRecords.DeliverStream. destruct (flow_NewData _ _ _ _ _ _) as [[[fl1 s1] e]|]; [|discriminate].
    assert (Ef : flow_of orig (set_flow orig fl1 s1 c) = fl1 /\ ssl (set_flow orig fl1 s1 c) = s1) by (destruct orig; split; reflexivity).
    destruct Ef as [E1 E2]. destruct e; [| |discriminate]; (erewrite IH by (rewrite E1, E2; exact E)); now rewrite set_flow_twice.
Qed.

(** Both directions are between two records. *)
Definition between (c : SslConn) : Prop := forall orig, resting 5 pdu_total_length [] (flow_of orig c).

(** A turn: one side's records, and the pieces in which its bytes arrive. *)
Record Turn := { sender : bool; arrives : list (list Z); sends : list (Z * Z * list Z) }.

Definition turn_ok (t : Turn) (s : SSLAnalyzer) : Prop :=
  concat (arrives t) = concat (map enc (sends t)) /\ records_fit (sender t) (sends t) s.

Definition turn_pieces (t : Turn) : list (bool * list Z) := map (pair (sender t)) (arrives t).

(** What the analyzer makes of the records themselves. *)
Definition hear (s : SSLAnalyzer) (t : Turn) : SSLAnalyzer := fold_left (fun s r => next (sender t) r s) (sends t) s.

Lemma deliver_turn t c :
  turn_ok t (ssl c) -> between c ->
  exists c', deliver_all (turn_pieces t) c = Some c' /\ between c' /\ ssl c' = hear (ssl c) t.
Proof.
  destruct t as [orig pieces rs]. intros [Ep Hg] B. unfold turn_pieces, hear. cbn [sender arrives sends] in *.
  destruct (records_fit_accepted orig rs (ssl c) Hg) as (F & Ac & L).
  destruct (feed_resting 5 pdu_total_length (on_pdu orig) ltac:(lia) (take orig) pieces [] (flow_of orig c) (ssl c) (map enc rs) [])
    as (fl & E & R); [apply B|cbn [app]; rewrite Ep; now apply units_records|assumption|].
  rewrite L in E. eexists. split; [apply deliver_feed; exact E|]. split; [|destruct orig; reflexivity].
  intros [|]; destruct orig; cbn; try assumption; [apply (B true)|apply (B false)].
Qed.

Fixpoint turns_ok (ts : list Turn) (s : SSLAnalyzer) : Prop :=
  match ts with
  | [] => True
  | t :: ts => turn_ok t s /\ turns_ok ts (hear s t)
  end.

Lemma deliver_turns ts : forall c,
  turns_ok ts (ssl c) -> between c ->
  exists c', deliver_all (concat (map turn_pieces ts)) c = Some c' /\ between c' /\ ssl c' = fold_left hear ts (ssl c).
Proof.
  induction ts as [|t ts IH]; intros c F B; [exists c; auto|]. destruct F as [Ht F].
  destruct (deliver_turn t c Ht B) as (c1 & E1 & B1 & S1). rewrite <- S1 in F. destruct (IH c1 F B1) as (c2 & E2 & B2 & S2).
  exists c2. cbn [map concat fold_left]. rewrite deliver_app, E1. rewrite <- S1. auto.
Qed.

(** ** Messages and the records they come in

    Apart from [ssl_record], the events of handshake messages do not depend on how a side
    puts them into records. *)

Definition messages (es : list SslEvent) : list SslEvent :=
  filter (fun e => match e with ssl_record _ _ _ => false | _ => true end) es.

(** The state without the record at hand. *)
Definition erase (s : SSLAnalyzer) : SSLAnalyzer :=
  {| current_record_type := 0; current_record_version := 0; current_record_length := 0;
     current_record_is_orig := current_record_is_orig s; state := state s; old_state := old_state s;
     hello_requested_ := hello_requested_ s; client_session_id := client_session_id s;
     advertised_ciphers := advertised_ciphers s; version_ := version_ s; cipher_ := cipher_ s;
     compression_ := compression_ s; events := messages (events s); fragmented := fragmented s |}.

Lemma erase_emit e s : messages e = e -> emit e (erase s) = erase (emit e s).
Proof. intros E. unfold erase, emit. cbn [events]. unfold messages in *. now rewrite filter_app, E. Qed.

Lemma erase_set_session a b c d e s : set_session a b c d e (erase s) = erase (set_session a b c d e s).
Proof. reflexivity. Qed.

Lemma erase_transition o n d s : transition o n d (erase s) = option_map erase (transition o n d s).
Proof.
  unfold transition. cbn [state current_record_is_orig erase]. destruct (_ || _); [reflexivity|]. cbn [option_map].
  rewrite <- erase_emit by reflexivity. reflexivity.
Qed.

Lemma erase_transitions ts s : transitions ts (erase s) = erase (transitions ts s).
Proof.
  induction ts as [|[[o n] d] ts IH]; [reflexivity|]. cbn [transitions]. rewrite erase_transition.
  destruct (transition o n d s); [reflexivity|exact IH].
Qed.

(** Moves [erase] outwards through the updates of a handler. *)
Ltac erase_out :=
  repeat first
    [ rewrite erase_emit by reflexivity | rewrite erase_set_session | rewrite erase_transitions
    | match goal with
      | |- context [client_session_id (emit ?e ?s)] => change (client_session_id (emit e s)) with (client_session_id s)
      | |- context [client_session_id (set_session ?a ?b ?c ?d ?e ?s)] =>
          change (client_session_id (set_session a b c d e s)) with a
      | |- context [state (erase ?s)] => change (state (erase s)) with (state s)
      | |- context [advertised_ciphers (erase ?s)] => change (advertised_ciphers (erase s)) with (advertised_ciphers s)
      | |- context [client_session_id (erase ?s)] => change (client_session_id (erase s)) with (client_session_id s)
      | |- context [version_ (erase ?s)] => change (version_ (erase s)) with (version_ s)
      | |- context [cipher_ (erase ?s)] => change (cipher_ (erase s)) with (cipher_ s)
      | |- context [compression_ (erase ?s)] => change (compression_ (erase s)) with (compression_ s)
      | |- context [hello_requested_ (erase ?s)] => change (hello_requested_ (erase s)) with (hello_requested_ s)
      | |- context [current_record_is_orig (erase ?s)] => change (current_record_is_orig (erase s)) with (current_record_is_orig s)
      end
    | match goal with
      | |- context [if ?b then _ else _] => is_bool b; destruct b
      | |- context [match client_session_id ?s with _ => _ end] => destruct (client_session_id s)
      end ]; try reflexivity.

Lemma erase_unexpected w s : unexpected w (erase s) = erase (unexpected w s).
Proof. unfold unexpected. erase_out. Qed.

Lemma erase_check_version v s : check_version v (erase s) = erase (check_version v s).
Proof. unfold check_version. erase_out. Qed.

Lemma erase_check_cipher v s : check_cipher ssl_compare_cipherspecs v (erase s) = erase (check_cipher ssl_compare_cipherspecs v s).
Proof. unfold check_cipher. erase_out. Qed.

Lemma client_session_id_check v s : client_session_id (check_cipher ssl_compare_cipherspecs v s) = client_session_id s.
Proof. unfold check_cipher. now destruct (_ && _). Qed.

Lemma erase_client_hello_state s : client_hello_state (erase s) = erase (client_hello_state s).
Proof.
  unfold client_hello_state. rewrite erase_transition. destruct (transition STATE_INITIAL _ _ s); [reflexivity|]. cbn [option_map].
  change (hello_requested_ (erase s)) with (hello_requested_ s). destruct (hello_requested_ s); [|reflexivity].
  change (set_hello_requested false (erase s)) with (erase (set_hello_requested false s)). rewrite erase_transition.
  destruct (transition STATE_ANY _ _ _); reflexivity.
Qed.

Lemma erase_client_hello v sid cs t r s :
  proc_client_hello ssl_compare_cipherspecs beyond v sid cs t r (erase s) =
  erase (proc_client_hello ssl_compare_cipherspecs beyond v sid cs t r s).
Proof. unfold proc_client_hello. rewrite erase_unexpected, erase_check_version. erase_out. Qed.

Lemma erase_server_hello v sid cs hit t r m s :
  proc_server_hello ssl_compare_cipherspecs beyond v sid cs hit t r m (erase s) =
  erase (proc_server_hello ssl_compare_cipherspecs beyond v sid cs hit t r m s).
Proof.
  unfold proc_server_hello. rewrite erase_unexpected, erase_check_version. generalize (check_version v (unexpected "server hello" s)).
  clear s. intros s. rewrite ?client_session_id_check, ?erase_emit, ?erase_set_session, ?erase_emit by reflexivity.
  change (client_session_id (erase s)) with (client_session_id s). rewrite ?erase_set_session.
  rewrite ?erase_check_cipher. erase_out.
Qed.

Lemma erase_certificate cs s :
  proc_certificate ssl_analyze_certificates cs (erase s) = erase (proc_certificate ssl_analyze_certificates cs s).
Proof. unfold proc_certificate. rewrite erase_unexpected. destruct cs; erase_out. Qed.

Lemma erase_on_Handshake t body s : on_Handshake t body (erase s) = option_map erase (on_Handshake t body s).
Proof.
  unfold SslRecords.on_Handshake, on_handshake_body.
  rewrite erase_client_hello_state, ?erase_transitions.
  repeat match goal with |- context [if ?b then _ else _] => is_bool b; destruct b end;
  repeat match goal with |- context [match ?p body with _ => _ end] => destruct (p body) as [[? ?]|] end;
  repeat match goal with |- context [let '(_, _) := ?x in _] => destruct x as [[? ?] ?] end;
  cbn [option_map]; rewrite ?erase_client_hello, ?erase_server_hello, ?erase_certificate, ?erase_emit by reflexivity;
  rewrite ?erase_unexpected; try reflexivity.
  - change (set_hello_requested true (erase s)) with (erase (set_hello_requested true s)). now rewrite erase_unexpected.
  - change (lost_track (erase s)) with (erase (lost_track s)). now rewrite erase_emit, erase_unexpected.
Qed.

Lemma erase_handle_all ms : forall s, handle_all ms (erase s) = erase (handle_all ms s).
Proof.
  induction ms as [|[t body] ms IH]; intros s; [reflexivity|]. cbn [handle_all]. rewrite erase_on_Handshake.
  destruct (on_Handshake t body s); [apply IH|reflexivity].
Qed.

(** The erased state when a record of [orig] begins. *)
Definition from (orig : bool) (s : SSLAnalyzer) : SSLAnalyzer := set_record 0 0 0 orig s.

Lemma erase_begin orig type version fragment s :
  erase (emit [ssl_record orig type fragment] (set_record type version (Z.of_nat (List.length fragment)) orig s)) = from orig (erase s).
Proof. unfold erase, emit, from, set_record. cbn [events]. unfold messages. rewrite filter_app. cbn [filter]. now rewrite app_nil_r. Qed.

Lemma next_eq orig type version fragment s :
  fragmented s = false ->
  next orig (type, version, fragment) s =
  fst (ssl_NewData (List.length fragment) fragment
        (emit [ssl_record orig type fragment] (set_record type version (Z.of_nat (List.length fragment)) orig s))).
Proof. intros Hf. unfold next, SslRecords.next_record. now rewrite Hf. Qed.

(** A record of handshake messages. *)
Definition hs_record (version : Z) (ms : list (Z * list Z)) : Z * Z * list Z := (HANDSHAKE, version, concat (map enc_msg ms)).

(** Nothing is pending and nothing is encrypted. *)
Definition open (s : SSLAnalyzer) : Prop := fragmented s = false /\ encrypted (state s) = false.

Lemma next_messages orig version ms s :
  open s -> Forall msg_ok ms ->
  erase (next orig (hs_record version ms) s) = handle_all ms (from orig (erase s)) /\ open (next orig (hs_record version ms) s) /\
  current_record_is_orig (next orig (hs_record version ms) s) = orig.
Proof.
  intros [Hf He] F. unfold hs_record. rewrite next_eq by assumption. set (s1 := emit _ _).
  destruct (NewData_messages ms (List.length (concat (map enc_msg ms))) s1 F He eq_refl (le_n _)) as [-> [(_ & _ & _ & P1 & P2) P3]].
  cbn [fst]. rewrite <- erase_handle_all, <- erase_begin with (type := HANDSHAKE) (version := version) (fragment := concat (map enc_msg ms)).
  split; [reflexivity|]. split; [|exact P1]. split; [rewrite P2; exact Hf|apply P3, He].
Qed.

Lemma handle_all_app ms ns : forall s, Forall msg_ok ms -> handle_all (ms ++ ns) s = handle_all ns (handle_all ms s).
Proof.
  induction ms as [|[t body] ms IH]; intros s F; [reflexivity|]. apply Forall_cons_iff in F as [[_ Hr] F]. cbn [app handle_all].
  destruct (on_Handshake_total t body s Hr) as (s1 & -> & _). now apply IH.
Qed.

Lemma from_again orig s : current_record_is_orig s = orig -> from orig (erase s) = erase s.
Proof. intros <-. reflexivity. Qed.

(** However a side divides its messages among records, the events are the same. *)
Lemma next_groups orig version groups : forall g s,
  open s -> Forall (Forall msg_ok) (g :: groups) ->
  Forall (fun g => record_ok (hs_record version g)) (g :: groups) ->
  let s' := fold_left (fun s r => next orig r s) (map (hs_record version) (g :: groups)) s in
  records_fit orig (map (hs_record version) (g :: groups)) s /\
  erase s' = handle_all (concat (g :: groups)) (from orig (erase s)) /\ open s'.
Proof.
  induction groups as [|g2 groups IH]; intros g s O F K; apply Forall_cons_iff in F as [Fg F]; apply Forall_cons_iff in K as [Kg K];
    destruct (next_messages orig version g s O Fg) as (E & O1 & D);
    assert (Fit : record_fits (hs_record version g) s) by (split; [assumption|]; intros _; right; exists g; auto).
  - cbn [map fold_left records_fit concat]. rewrite app_nil_r. cbn zeta. auto.
  - destruct (IH g2 (next orig (hs_record version g) s) O1 F K) as (R & E2 & O2). cbn zeta in *.
    cbn [map fold_left records_fit concat] in *. split; [auto|]. split; [|assumption].
    rewrite E2, from_again by assumption. rewrite E. now rewrite (handle_all_app g).
Qed.

(** [ChangeCipherSpec], and a record that is not looked at. *)
Lemma next_ccs orig version s :
  open s ->
  erase (next orig (CHANGE_CIPHER_SPEC, version, [1]) s) = on_ChangeCipherSpec (from orig (erase s)) /\
  fragmented (next orig (CHANGE_CIPHER_SPEC, version, [1]) s) = false.
Proof.
  intros [Hf He]. rewrite next_eq by assumption. set (s1 := emit _ _). cbn [List.length SslRecords.ssl_NewData].
  assert (Eu : ssl_unit ssl_compare_cipherspecs ssl_analyze_certificates beyond [1] s1 = UDone (on_ChangeCipherSpec s1) []).
  { unfold ssl_unit. change (state s1) with (state s). change (current_record_type s1) with CHANGE_CIPHER_SPEC.
    destruct (state s); reflexivity || discriminate He. }
  rewrite Eu. cbn [SslRecords.ssl_NewData fst]. rewrite <- erase_begin with (type := CHANGE_CIPHER_SPEC) (version := version) (fragment := [1]).
  fold s1. unfold on_ChangeCipherSpec, proc_change_cipher_spec. rewrite erase_transitions. set (ts := transitions _ s1).
  assert (Fr : fragmented ts = false) by (unfold ts; destruct (same_record_transitions ccs_chain s1) as (_ & _ & _ & _ & Fr); exact (eq_trans Fr Hf)).
  split; [erase_out|]. destruct (astate_eqb (state ts) STATE_TRACK_LOST); exact Fr.
Qed.

Lemma next_encrypted orig version fragment s :
  fragmented s = false -> encrypted (state s) = true -> fragment <> [] ->
  erase (next orig (HANDSHAKE, version, fragment) s) = proc_ciphertext_record (transitions encrypted_chain (from orig (erase s))) /\
  fragmented (next orig (HANDSHAKE, version, fragment) s) = false.
Proof.
  intros Hf He Hn. rewrite next_eq by assumption. set (s1 := emit _ _).
  rewrite NewData_encrypted by (assumption || reflexivity). cbn [fst].
  rewrite <- erase_begin with (type := HANDSHAKE) (version := version) (fragment := fragment). fold s1. rewrite erase_transitions.
  destruct (same_record_transitions encrypted_chain s1) as (_ & _ & _ & _ & Fr). change (fragmented s1) with (fragmented s) in Fr.
  set (ts := transitions encrypted_chain s1) in *. unfold proc_ciphertext_record. rewrite erase_unexpected.
  assert (Fu : fragmented (unexpected "ciphertext record" ts) = false) by (unfold unexpected; destruct (astate_eqb _ _); exact (eq_trans Fr Hf)).
  set (u := unexpected _ ts) in *. change (old_state (erase u)) with (old_state u). split; [erase_out|]. destruct (_ && _); exact Fu.
Qed.

(** ** A handshake *)

Lemma random32_exact random :
  random_ok random -> random32 beyond (be_value (firstn 4 random)) (skipn 4 random) = random.
Proof.
  intros R. destruct (random_split random R) as (E & _ & L). unfold random32. rewrite firstn_exact by exact L.
  fold (be 4 (be_value (firstn 4 random))). now rewrite <- E.
Qed.

(** What the two sides of a full handshake with an ephemeral Diffie-Hellman key send. *)
Record Session := {
  sv : Z; s_crandom : list Z; s_csid : list Z; s_suits : list Z; s_meths : list Z; s_cext : list Z;
  s_srandom : list Z; s_ssid : list Z; s_suite : Z; s_meth : Z; s_sext : list Z;
  s_certificate : list Z; s_certs : list (list Z); s_p : list Z; s_g : list Z; s_pub : list Z; s_signature : list Z;
  s_cke : list Z; s_cfinished : list Z; s_sfinished : list Z }.

Definition m_client_hello (x : Session) : Z * list Z :=
  (1, enc_client_hello (sv x) (s_crandom x) (s_csid x) (s_suits x) (s_meths x) (s_cext x)).
Definition m_server_hello (x : Session) : Z * list Z :=
  (2, enc_server_hello (sv x) (s_srandom x) (s_ssid x) (s_suite x) (s_meth x) (s_sext x)).
Definition m_key_exchange (x : Session) : Z * list Z := (12, enc_key_exchange (s_p x) (s_g x) (s_pub x) (s_signature x)).
Definition server_flight (x : Session) : list (Z * list Z) :=
  [m_server_hello x; (11, s_certificate x); m_key_exchange x; (14, [])].

Definition small (m : Z * list Z) : Prop := Z.of_nat (List.length (snd m)) < 16777216.

Definition session_ok (x : Session) : Prop :=
  (sv x = SSLv30 \/ sv x = TLSv10 \/ sv x = TLSv11) /\
  random_ok (s_crandom x) /\ random_ok (s_srandom x) /\ 2 * Z.of_nat (List.length (s_suits x)) < 65536 /\
  Forall (fun v => 0 <= v < 65536) (s_suits x) /\ In (s_suite x) (s_suits x) /\
  parse_Certificate (s_certificate x) = Some (s_certs x, []) /\
  Z.of_nat (List.length (s_p x)) < 65536 /\ Z.of_nat (List.length (s_g x)) < 65536 /\
  Z.of_nat (List.length (s_pub x)) < 65536 /\
  s_cfinished x <> [] /\ s_sfinished x <> [].

(** The events, apart from [ssl_record] and [ssl_state_change]. *)
Definition reports (es : list SslEvent) : list SslEvent :=
  filter (fun e => match e with ssl_state_change _ _ => false | _ => true end) (messages es).

Definition handshake_reports (x : Session) : list SslEvent :=
  [ssl_conn_attempt (sv x) (s_suits x) (skipn 4 (s_crandom x)) (s_crandom x);
   ssl_conn_server_reply (sv x) [s_suite x] (s_srandom x) (s_meth x);
   (let tv := to_table_val (List.length (s_ssid x)) (s_ssid x) in
    if list_eq_dec Z.eq_dec (s_csid x) (s_ssid x) then ssl_conn_reused tv else ssl_session_insertion tv);
   ProtocolConfirmation] ++
  match s_certs x with _ :: _ => if ssl_analyze_certificates then [ssl_certificates (s_certs x) false] else [] | [] => [] end ++
  [ssl_server_key_exchange (s_p x) (s_g x) (s_pub x);
   ssl_client_key_exchange (s_cke x); ssl_change_cipher_spec;
   ssl_change_cipher_spec; ssl_conn_established (sv x) (s_suite x)].

Lemma session_ranges x : session_ok x -> 0 <= sv x < 65536 /\ 0 <= s_suite x < 65536.
Proof.
  intros (Hv & _ & _ & _ & Hu & Hi & _). split; [destruct Hv as [->|[->| ->]]; cbv; split; congruence|].
  rewrite Forall_forall in Hu. now apply Hu.
Qed.

(** The messages of a session can be read. *)
Lemma session_readable x ms :
  session_ok x -> incl ms (m_client_hello x :: (16, s_cke x) :: server_flight x) -> Forall small ms -> Forall msg_ok ms.
Proof.
  intros Hx I F. destruct (session_ranges x Hx) as [V S].
  destruct Hx as (Hv & Hc & Hs & Hl & Hu & Hi & Hcert & Hp & Hg & Hb & _).
  rewrite Forall_forall in F. apply Forall_forall. intros m Hm. split; [now apply F|]. apply I in Hm.
  destruct Hm as [<-|[<-|[<-|[<-|[<-|[<-|[]]]]]]]; unfold readable, m_client_hello, m_server_hello, m_key_exchange; cbn [Z.eqb Pos.eqb].
  - now rewrite client_hello_read.
  - reflexivity.
  - now rewrite server_hello_read.
  - now rewrite Hcert.
  - now rewrite key_exchange_read.
  - reflexivity.
Qed.

Lemma version_known x : session_ok x -> version_ok (sv x) = true.
Proof. intros ([->|[->| ->]] & _); reflexivity. Qed.

Lemma suite_offered x : session_ok x -> existsb (Z.eqb (s_suite x)) (s_suits x) = true.
Proof. intros (_ & _ & _ & _ & _ & Hi & _). apply existsb_exists. exists (s_suite x). split; [assumption|apply Z.eqb_refl]. Qed.

Lemma reports_app es fs : reports (es ++ fs) = reports es ++ reports fs.
Proof. unfold reports, messages. now rewrite !filter_app. Qed.

(** Where the analyzer is in a session: its state, the session's parameters once the server
    has chosen them, and what it has reported. *)
Definition at_ (x : Session) (st : AnalyzerState) (es : list SslEvent) (s : SSLAnalyzer) : Prop :=
  state s = st /\ reports (events s) = es /\
  (st <> STATE_INITIAL -> client_session_id s = Some (s_csid x)) /\
  (st = STATE_CLIENT_HELLO_RCVD -> ssl_compare_cipherspecs = true -> advertised_ciphers s = s_suits x) /\
  (st <> STATE_INITIAL -> st <> STATE_CLIENT_HELLO_RCVD -> version_ s = sv x /\ cipher_ s = s_suite x).

Lemma at_transition x ts o n d st es s :
  at_ x st es s -> transition o n d s <> None -> st <> STATE_INITIAL -> st <> STATE_CLIENT_HELLO_RCVD ->
  n <> STATE_CLIENT_HELLO_RCVD -> at_ x n es (transitions ((o, n, d) :: ts) s).
Proof.
  intros (E & R & H1 & _ & H3) T N1 N2 Hn. cbn [transitions]. unfold transition in *. destruct (_ || _); [easy|].
  split; [reflexivity|]. split; [cbn [events emit set_state]; rewrite reports_app; cbn; now rewrite app_nil_r, R|].
  split; [intros _; exact (H1 N1)|]. split; [easy|]. intros _ _. exact (H3 N1 N2).
Qed.

Lemma at_emit x st es s es' : at_ x st es s -> at_ x st (es ++ reports es') (emit es' s).
Proof.
  intros (E & R & H1 & H2 & H3). split; [exact E|]. split; [cbn [events emit]; now rewrite reports_app, R|]. auto.
Qed.

Lemma at_unexpected x st es s w : at_ x st es s -> st <> STATE_TRACK_LOST -> at_ x st es (unexpected w s).
Proof.
  intros A N. unfold unexpected. pose proof A as (E & _). rewrite E. unfold astate_eqb.
  now destruct (AnalyzerState_eq_dec st STATE_TRACK_LOST).
Qed.

Lemma on_client_hello x s :
  session_ok x -> at_ x STATE_INITIAL [] s -> current_record_is_orig s = true ->
  exists s', on_Handshake 1 (snd (m_client_hello x)) s = Some s' /\
             at_ x STATE_CLIENT_HELLO_RCVD [ssl_conn_attempt (sv x) (s_suits x) (skipn 4 (s_crandom x)) (s_crandom x)] s'.
Proof.
  intros Hx (Hs & Hr & _) Ho. destruct (session_ranges x Hx) as [Rv _]. pose proof (version_known x Hx) as V. destruct Hx as (Hv & Hc & _ & Hl & Hu & _).
  unfold SslRecords.on_Handshake, on_handshake_body. cbn [Z.eqb Pos.eqb snd m_client_hello].
  rewrite client_hello_read by assumption.
  cbn [client_version csuits session_id gmt_unix_time random_bytes option_map]. unfold client_hello_state, transition. rewrite Hs, Ho.
  cbn [astate_eqb AnalyzerState_eq_dec AnalyzerState_rec AnalyzerState_rect negb andb orb Bool.eqb].
  unfold proc_client_hello, check_version. rewrite V, random32_exact by assumption.
  destruct ssl_compare_cipherspecs eqn:Ec; (eexists; split; [reflexivity|]; repeat split; try easy); try congruence;
    (transitivity (reports ((events s ++ [ssl_state_change "INITIAL" "CLIENT_HELLO_RCVD"]) ++
       [ssl_conn_attempt (sv x) (s_suits x) (skipn 4 (s_crandom x)) (s_crandom x)])); [reflexivity|];
     now rewrite !reports_app, Hr).
Qed.

Definition reuse_report (x : Session) : SslEvent :=
  let tv := to_table_val (List.length (s_ssid x)) (s_ssid x) in
  if list_eq_dec Z.eq_dec (s_csid x) (s_ssid x) then ssl_conn_reused tv else ssl_session_insertion tv.

Lemma on_server_hello x es s :
  session_ok x -> at_ x STATE_CLIENT_HELLO_RCVD es s -> current_record_is_orig s = false ->
  exists s', on_Handshake 2 (snd (m_server_hello x)) s = Some s' /\
             at_ x STATE_IN_SERVER_HELLO
               (es ++ [ssl_conn_server_reply (sv x) [s_suite x] (s_srandom x) (s_meth x); reuse_report x; ProtocolConfirmation]) s'.
Proof.
  intros Hx (Hs & Hr & Hi & Ha & _) Ho. destruct (session_ranges x Hx) as [Rv Rs]. pose proof (version_known x Hx) as V. pose proof (suite_offered x Hx) as So.
  destruct Hx as (Hv & _ & Hc & Hl & Hu & Hin & _).
  unfold SslRecords.on_Handshake, on_handshake_body. cbn [Z.eqb Pos.eqb snd m_server_hello].
  rewrite server_hello_read by assumption.
  cbn [server_version s_session_id cipher_suite s_gmt_unix_time s_random_bytes compression_method option_map transitions].
  unfold transition. rewrite Hs, Ho.
  cbn [astate_eqb AnalyzerState_eq_dec AnalyzerState_rec AnalyzerState_rect negb andb orb Bool.eqb].
  unfold proc_server_hello, check_version. rewrite V, random32_exact by assumption. cbn [Z.ltb Z.compare nth].
  set (s1 := unexpected "server hello" _).
  assert (E1 : s1 = emit [ssl_state_change (state_label STATE_CLIENT_HELLO_RCVD) (state_label STATE_IN_SERVER_HELLO)]
                         (set_state STATE_CLIENT_HELLO_RCVD STATE_IN_SERVER_HELLO s)) by reflexivity.
  rewrite E1. clear s1 E1. set (s2 := set_session _ _ _ (s_suite x) _ _).
  assert (Ck : check_cipher ssl_compare_cipherspecs (s_suite x) s2 = s2).
  { unfold check_cipher. change (advertised_ciphers s2) with (advertised_ciphers s). destruct ssl_compare_cipherspecs; [|reflexivity].
    now rewrite Ha, So. }
  rewrite Ck. change (client_session_id s2) with (client_session_id s). rewrite Hi by discriminate. unfold reuse_report.
  destruct (list_eq_dec Z.eq_dec (s_csid x) (s_ssid x)); (eexists; split; [reflexivity|]); (split; [reflexivity|]);
    (split; [|split; [intros _; now apply Hi|split; [discriminate|intros _ _; split; reflexivity]]]);
    (etransitivity; [|rewrite <- Hr; reflexivity]).
  - transitivity (reports ((((events s ++ [ssl_state_change (state_label STATE_CLIENT_HELLO_RCVD) (state_label STATE_IN_SERVER_HELLO)]) ++
       [ssl_conn_server_reply (sv x) [s_suite x] (s_srandom x) (s_meth x)]) ++ [ssl_conn_reused (to_table_val (List.length (s_ssid x)) (s_ssid x))])
       ++ [ProtocolConfirmation])); [reflexivity|]. rewrite !reports_app, <- !app_assoc. reflexivity.
  - transitivity (reports ((((events s ++ [ssl_state_change (state_label STATE_CLIENT_HELLO_RCVD) (state_label STATE_IN_SERVER_HELLO)]) ++
       [ssl_conn_server_reply (sv x) [s_suite x] (s_srandom x) (s_meth x)]) ++ [ssl_session_insertion (to_table_val (List.length (s_ssid x)) (s_ssid x))])
       ++ [ProtocolConfirmation])); [reflexivity|]. rewrite !reports_app, <- !app_assoc. reflexivity.
Qed.

Lemma on_certificate x es s :
  session_ok x -> at_ x STATE_IN_SERVER_HELLO es s -> current_record_is_orig s = false ->
  exists s', on_Handshake 11 (s_certificate x) s = Some s' /\
             at_ x STATE_IN_SERVER_HELLO
               (es ++ match s_certs x with
                      | _ :: _ => if ssl_analyze_certificates then [ssl_certificates (s_certs x) false] else []
                      | [] => []
                      end) s'.
Proof.
  intros (_ & _ & _ & _ & _ & _ & Hcert & _) A Ho. unfold SslRecords.on_Handshake, on_handshake_body. cbn [Z.eqb Pos.eqb].
  rewrite Hcert. cbn [option_map]. eexists. split; [reflexivity|]. apply at_unexpected; [|discriminate].
  assert (A1 : forall ts, at_ x STATE_IN_SERVER_HELLO es (transitions ((STATE_IN_SERVER_HELLO, STATE_IN_SERVER_HELLO, false) :: ts) s)).
  { intros ts. apply (at_transition x ts _ _ _ STATE_IN_SERVER_HELLO es s A); try discriminate.
    destruct A as (E & _). unfold transition. rewrite E, Ho. discriminate. }
  unfold proc_certificate. cbn [app]. pose proof (at_unexpected x _ _ _ "certificate" (A1 [(STATE_SERVER_HELLO_DONE, STATE_CLIENT_CERT, true)]) ltac:(discriminate)) as A2.
  assert (Od : forall s1 w, current_record_is_orig (unexpected w s1) = current_record_is_orig s1) by (intros; unfold unexpected; now destruct (astate_eqb _ _)).
  destruct (s_certs x) as [|c cs]; [now rewrite app_nil_r|]. destruct ssl_analyze_certificates; [|now rewrite app_nil_r].
  rewrite Od. destruct (same_record_transitions [(STATE_IN_SERVER_HELLO, STATE_IN_SERVER_HELLO, false); (STATE_SERVER_HELLO_DONE, STATE_CLIENT_CERT, true)] s)
    as (_ & _ & _ & -> & _). rewrite Ho. exact (at_emit x _ _ _ [ssl_certificates (c :: cs) false] A2).
Qed.

Lemma on_key_exchange x es s :
  session_ok x -> at_ x STATE_IN_SERVER_HELLO es s -> current_record_is_orig s = false ->
  exists s', on_Handshake 12 (snd (m_key_exchange x)) s = Some s' /\
             at_ x STATE_IN_SERVER_HELLO (es ++ [ssl_server_key_exchange (s_p x) (s_g x) (s_pub x)]) s'.
Proof.
  intros (_ & _ & _ & _ & _ & _ & _ & Hp & Hg & Hb & _) A Ho. unfold SslRecords.on_Handshake, on_handshake_body.
  cbn [Z.eqb Pos.eqb snd m_key_exchange]. rewrite key_exchange_read by assumption. cbn [option_map].
  eexists. split; [reflexivity|]. apply at_unexpected; [|discriminate].
  apply (at_emit x _ _ _ [ssl_server_key_exchange (s_p x) (s_g x) (s_pub x)]).
  apply (at_transition x [] _ _ _ STATE_IN_SERVER_HELLO es s A); try discriminate.
  destruct A as (E & _). unfold transition. rewrite E, Ho. discriminate.
Qed.

Lemma at_step x o n d ts es s st :
  at_ x st es s -> st <> STATE_INITIAL -> st <> STATE_CLIENT_HELLO_RCVD -> n <> STATE_CLIENT_HELLO_RCVD ->
  o = st -> current_record_is_orig s = d -> at_ x n es (transitions ((o, n, d) :: ts) s).
Proof.
  intros A N1 N2 N3 -> Ho. apply (at_transition x ts st n d st es s A); try assumption. destruct A as (E & _).
  unfold transition. rewrite E, Ho. unfold astate_eqb. destruct (AnalyzerState_eq_dec st st); [|easy].
  rewrite andb_false_r. destruct d; discriminate.
Qed.

Lemma on_Handshake_orig t body s s' : on_Handshake t body s = Some s' -> readable (t, body) = true ->
  current_record_is_orig s' = current_record_is_orig s.
Proof. intros E R. destruct (on_Handshake_total t body s R) as (s1 & E1 & (_ & _ & _ & P & _) & _). congruence. Qed.

Definition flight_reports (x : Session) : list SslEvent :=
  [ssl_conn_server_reply (sv x) [s_suite x] (s_srandom x) (s_meth x); reuse_report x; ProtocolConfirmation] ++
  match s_certs x with _ :: _ => if ssl_analyze_certificates then [ssl_certificates (s_certs x) false] else [] | [] => [] end ++
  [ssl_server_key_exchange (s_p x) (s_g x) (s_pub x)].

Lemma at_flight x es s :
  session_ok x -> Forall msg_ok (server_flight x) -> at_ x STATE_CLIENT_HELLO_RCVD es s -> current_record_is_orig s = false ->
  at_ x STATE_SERVER_HELLO_DONE (es ++ flight_reports x) (handle_all (server_flight x) s).
Proof.
  intros Hx F A Ho. unfold server_flight in *. repeat (apply Forall_cons_iff in F as [[_ ?] F]).
  destruct (on_server_hello x es s Hx A Ho) as (s1 & E1 & A1). pose proof (on_Handshake_orig _ _ _ _ E1 ltac:(assumption)) as O1.
  destruct (on_certificate x _ s1 Hx A1 ltac:(congruence)) as (s2 & E2 & A2). pose proof (on_Handshake_orig _ _ _ _ E2 ltac:(assumption)) as O2.
  destruct (on_key_exchange x _ s2 Hx A2 ltac:(congruence)) as (s3 & E3 & A3). pose proof (on_Handshake_orig _ _ _ _ E3 ltac:(assumption)) as O3.
  cbn [handle_all m_server_hello m_key_exchange snd] in *. rewrite E1, E2, E3.
  unfold SslRecords.on_Handshake, on_handshake_body. cbn [Z.eqb Pos.eqb option_map handle_all].
  unfold flight_reports. rewrite <- !app_assoc in A3. apply at_unexpected; [|discriminate].
  eapply at_step; [exact A3|discriminate..|reflexivity|congruence].
Qed.

Lemma at_client_key x es s :
  at_ x STATE_SERVER_HELLO_DONE es s -> current_record_is_orig s = true ->
  at_ x STATE_CLIENT_KEY_NO_CERT (es ++ [ssl_client_key_exchange (s_cke x)]) (handle_all [(16, s_cke x)] s).
Proof.
  intros A Ho. cbn [handle_all]. unfold SslRecords.on_Handshake, on_handshake_body. cbn [Z.eqb Pos.eqb option_map].
  apply at_unexpected; [|discriminate]. apply (at_emit x _ _ _ [ssl_client_key_exchange (s_cke x)]).
  eapply at_step; [exact A|discriminate..|reflexivity|assumption].
Qed.

Lemma reports_messages es : reports (messages es) = reports es.
Proof. unfold reports. f_equal. unfold messages. induction es as [|e es IH]; [reflexivity|]. destruct e; cbn; congruence. Qed.

Lemma at_erase x st es s : at_ x st es (erase s) <-> at_ x st es s.
Proof. unfold at_, erase. cbn [state events client_session_id advertised_ciphers version_ cipher_]. now rewrite reports_messages. Qed.

Lemma at_from x st es orig s : at_ x st es s -> at_ x st es (from orig s).
Proof. exact (fun H => H). Qed.

(** A chain skips the transitions from other states. *)
Lemma transitions_skip o n d ts s : o <> STATE_ANY -> o <> state s -> transitions ((o, n, d) :: ts) s = transitions ts s.
Proof.
  intros N1 N2. cbn [transitions]. unfold transition, astate_eqb. destruct (AnalyzerState_eq_dec o STATE_ANY); [easy|].
  destruct (AnalyzerState_eq_dec o (state s)); [easy|]. reflexivity.
Qed.

Lemma at_ccs x st n es orig s :
  at_ x st es s -> current_record_is_orig s = orig ->
  (st, n, orig) = (STATE_CLIENT_KEY_NO_CERT, STATE_CLIENT_ENCRYPTED, true) \/
  (st, n, orig) = (STATE_CLIENT_FINISHED, STATE_COMM_ENCRYPTED, false) ->
  at_ x n (es ++ [ssl_change_cipher_spec]) (on_ChangeCipherSpec s).
Proof.
  intros A Ho C. pose proof A as (Es & _). unfold on_ChangeCipherSpec, ccs_chain.
  assert (A1 : forall s1, at_ x n es s1 -> n <> STATE_TRACK_LOST -> at_ x n (es ++ [ssl_change_cipher_spec]) (proc_change_cipher_spec s1)).
  { intros s1 A1 N. unfold proc_change_cipher_spec. pose proof A1 as (E1 & _). rewrite E1. unfold astate_eqb.
    destruct (AnalyzerState_eq_dec n STATE_TRACK_LOST); [easy|]. exact (at_emit x _ _ _ [ssl_change_cipher_spec] A1). }
  destruct C as [C|C]; injection C as -> -> ->; (apply A1; [|discriminate]).
  - do 2 (rewrite transitions_skip by (discriminate || (rewrite Es; discriminate))).
    eapply at_step; [exact A|discriminate..|reflexivity|assumption].
  - eapply at_step; [exact A|discriminate..|reflexivity|assumption].
Qed.

Lemma at_client_finished x es s :
  at_ x STATE_CLIENT_ENCRYPTED es s -> current_record_is_orig s = true ->
  at_ x STATE_CLIENT_FINISHED es (proc_ciphertext_record (transitions encrypted_chain s)).
Proof.
  intros A Ho. pose proof A as (Es & _). unfold encrypted_chain. rewrite transitions_skip by (discriminate || (rewrite Es; discriminate)).
  unfold proc_ciphertext_record. set (ts := transitions _ s).
  assert (A1 : at_ x STATE_CLIENT_FINISHED es (unexpected "ciphertext record" ts)).
  { apply at_unexpected; [|discriminate]. eapply at_step; [exact A|discriminate..|reflexivity|assumption]. }
  pose proof A1 as (E1 & _). rewrite E1. exact A1.
Qed.

Lemma at_server_finished x es s :
  at_ x STATE_COMM_ENCRYPTED es s -> current_record_is_orig s = false ->
  at_ x STATE_CONN_ESTABLISHED (es ++ [ssl_conn_established (sv x) (s_suite x)]) (proc_ciphertext_record (transitions encrypted_chain s)).
Proof.
  intros A Ho. pose proof A as (Es & _). unfold encrypted_chain.
  do 2 (rewrite transitions_skip by (discriminate || (rewrite Es; discriminate))).
  unfold proc_ciphertext_record. set (ts := transitions _ s).
  assert (A1 : at_ x STATE_CONN_ESTABLISHED es (unexpected "ciphertext record" ts)).
  { apply at_unexpected; [|discriminate]. eapply at_step; [exact A|discriminate..|reflexivity|assumption]. }
  assert (Old : old_state (unexpected "ciphertext record" ts) = STATE_COMM_ENCRYPTED).
  { subst ts. cbn [transitions]. unfold transition. rewrite Es, Ho. reflexivity. }
  pose proof A1 as (E1 & _ & _ & _ & P). destruct (P ltac:(discriminate) ltac:(discriminate)) as [Pv Pc].
  rewrite E1, Old, Pv, Pc. exact (at_emit x _ _ _ [ssl_conn_established (sv x) (s_suite x)] A1).
Qed.

Lemma record_small v g : record_ok (hs_record v g) -> Forall small g.
Proof.
  intros (_ & _ & L). apply Forall_forall. intros m Hm. unfold small. enough (List.length (snd m) <= List.length (concat (map enc_msg g)))%nat by lia.
  clear L. induction g as [|h g IH]; [destruct Hm|]. cbn [map concat]. rewrite length_app. destruct Hm as [->|Hm]; [|specialize (IH Hm); lia].
  unfold enc_msg, enc_handshake. cbn [List.length]. rewrite length_app. lia.
Qed.

Lemma records_small v gs : Forall (fun g => record_ok (hs_record v g)) gs -> Forall small (concat gs).
Proof. induction 1; [constructor|]. cbn [concat]. apply Forall_app. split; [eapply record_small; eassumption|assumption]. Qed.

(** The four turns of the handshake; the server's messages are divided among records as
    [groups] says, and each turn arrives in pieces of any size. *)
Definition handshake_turns (x : Session) (groups : list (list (Z * list Z))) (a1 a2 a3 a4 : list (list Z)) : list Turn :=
  [ {| sender := true; arrives := a1; sends := [hs_record (sv x) [m_client_hello x]] |};
    {| sender := false; arrives := a2; sends := map (hs_record (sv x)) groups |};
    {| sender := true; arrives := a3;
       sends := [hs_record (sv x) [(16, s_cke x)]; (CHANGE_CIPHER_SPEC, sv x, [1]); (HANDSHAKE, sv x, s_cfinished x)] |};
    {| sender := false; arrives := a4; sends := [(CHANGE_CIPHER_SPEC, sv x, [1]); (HANDSHAKE, sv x, s_sfinished x)] |} ].

(** The first two turns. *)
Lemma hear_client_hello x :
  session_ok x -> record_ok (hs_record (sv x) [m_client_hello x]) ->
  let s1 := next true (hs_record (sv x) [m_client_hello x]) new_SSLAnalyzer in
  record_fits (hs_record (sv x) [m_client_hello x]) new_SSLAnalyzer /\ open s1 /\
  at_ x STATE_CLIENT_HELLO_RCVD [ssl_conn_attempt (sv x) (s_suits x) (skipn 4 (s_crandom x)) (s_crandom x)] s1.
Proof.
  intros Hx K1 s1.
  assert (F1 : Forall msg_ok [m_client_hello x]).
  { apply (session_readable x _ Hx); [intros m [<-|[]]; now left|]. exact (record_small _ _ K1). }
  assert (O : open new_SSLAnalyzer) by (split; reflexivity).
  destruct (next_messages true (sv x) [m_client_hello x] new_SSLAnalyzer O F1) as (E1 & O1 & _). fold s1 in E1, O1.
  assert (A0 : at_ x STATE_INITIAL [] (from true (erase new_SSLAnalyzer))) by (repeat split; easy).
  destruct (on_client_hello x _ Hx A0 eq_refl) as (h & Eh & A1). cbn [handle_all m_client_hello snd] in E1, Eh. rewrite Eh in E1.
  rewrite <- E1 in A1. apply (proj1 (at_erase _ _ _ _)) in A1.
  split; [split; [assumption|]; intros _; right; exists [m_client_hello x]; auto|]. split; assumption.
Qed.

Lemma flight_readable x groups :
  session_ok x -> concat groups = server_flight x -> Forall (fun g => record_ok (hs_record (sv x) g)) groups ->
  Forall msg_ok (server_flight x) /\ Forall (Forall msg_ok) groups.
Proof.
  intros Hx Hg K2. assert (F2 : Forall msg_ok (server_flight x)).
  { apply (session_readable x _ Hx); [intros m Hm; now right; right|]. rewrite <- Hg. exact (records_small _ _ K2). }
  split; [exact F2|]. apply Forall_forall. intros gg Hgg. rewrite <- Hg in F2. rewrite Forall_forall in F2. apply Forall_forall. intros m Hm.
  apply F2. apply in_concat. eauto.
Qed.

Lemma hear_hellos x groups :
  session_ok x -> concat groups = server_flight x -> record_ok (hs_record (sv x) [m_client_hello x]) ->
  Forall (fun g => record_ok (hs_record (sv x) g)) groups ->
  let s1 := next true (hs_record (sv x) [m_client_hello x]) new_SSLAnalyzer in
  let s2 := fold_left (fun s r => next false r s) (map (hs_record (sv x)) groups) s1 in
  record_fits (hs_record (sv x) [m_client_hello x]) new_SSLAnalyzer /\ records_fit false (map (hs_record (sv x)) groups) s1 /\ open s2 /\
  at_ x STATE_SERVER_HELLO_DONE
    (ssl_conn_attempt (sv x) (s_suits x) (skipn 4 (s_crandom x)) (s_crandom x) :: flight_reports x) s2.
Proof.
  intros Hx Hg K1 K2 s1 s2. destruct (hear_client_hello x Hx K1) as (R1 & O1 & A1). fold s1 in O1, A1.
  destruct (flight_readable x groups Hx Hg K2) as [F2 F3]. split; [exact R1|].
  destruct groups as [|g groups]; [discriminate|].
  destruct (next_groups false (sv x) groups g s1 O1 F3 K2) as (R & E2 & O2).
  split; [exact R|]. split; [exact O2|]. apply at_erase. fold s2 in E2. rewrite E2, Hg.
  apply (at_flight x [_] _ Hx F2); [|reflexivity]. apply at_from. apply (proj2 (at_erase _ _ _ _)). exact A1.
Qed.

Lemma next_open_ccs x st n es orig s :
  at_ x st es s -> open s ->
  (st, n, orig) = (STATE_CLIENT_KEY_NO_CERT, STATE_CLIENT_ENCRYPTED, true) \/
  (st, n, orig) = (STATE_CLIENT_FINISHED, STATE_COMM_ENCRYPTED, false) ->
  let s' := next orig (CHANGE_CIPHER_SPEC, sv x, [1]) s in
  at_ x n (es ++ [ssl_change_cipher_spec]) s' /\ fragmented s' = false /\ encrypted (state s') = true.
Proof.
  intros A O C s'. destruct (next_ccs orig (sv x) s O) as [E F]. fold s' in E, F.
  assert (A' : at_ x n (es ++ [ssl_change_cipher_spec]) s').
  { apply at_erase. rewrite E. apply (at_ccs x st n es orig); [|reflexivity|assumption]. apply at_from. now apply (proj2 (at_erase _ _ _ _)). }
  split; [assumption|]. split; [assumption|]. destruct A' as (-> & _). destruct C as [C|C]; injection C as _ -> _; reflexivity.
Qed.

(** The client's last turn. *)
Lemma hear_client_keys x es s :
  session_ok x -> at_ x STATE_SERVER_HELLO_DONE es s -> open s ->
  let rs := [hs_record (sv x) [(16, s_cke x)]; (CHANGE_CIPHER_SPEC, sv x, [1]); (HANDSHAKE, sv x, s_cfinished x)] in
  Forall record_ok rs ->
  let s' := fold_left (fun s r => next true r s) rs s in
  records_fit true rs s /\ open s' /\
  at_ x STATE_CLIENT_FINISHED (es ++ [ssl_client_key_exchange (s_cke x); ssl_change_cipher_spec]) s'.
Proof.
  intros Hx A O rs K s'. apply Forall_cons_iff in K as [K1 K]. apply Forall_cons_iff in K as [K2 K].
  apply Forall_cons_iff in K as [K3 _].
  assert (F : Forall msg_ok [(16, s_cke x)]).
  { apply (session_readable x _ Hx); [intros m [<-|[]]; now right; left|]. exact (record_small _ _ K1). }
  destruct (next_messages true (sv x) [(16, s_cke x)] s O F) as (E1 & O1 & _). set (s1 := next true (hs_record _ _) s) in *.
  assert (A1 : at_ x STATE_CLIENT_KEY_NO_CERT (es ++ [ssl_client_key_exchange (s_cke x)]) s1).
  { apply at_erase. rewrite E1. apply at_client_key; [|reflexivity]. apply at_from. now apply (proj2 (at_erase _ _ _ _)). }
  destruct (next_open_ccs x _ STATE_CLIENT_ENCRYPTED _ true s1 A1 O1 ltac:(now left)) as (A2 & F2 & C2).
  set (s2 := next true (CHANGE_CIPHER_SPEC, sv x, [1]) s1) in *.
  assert (Hn : s_cfinished x <> []) by apply Hx.
  destruct (next_encrypted true (sv x) (s_cfinished x) s2 F2 C2 Hn) as (E3 & F3).
  assert (A3 : at_ x STATE_CLIENT_FINISHED ((es ++ [ssl_client_key_exchange (s_cke x)]) ++ [ssl_change_cipher_spec]) s').
  { apply at_erase. unfold s', rs. cbn [fold_left]. fold s1. fold s2. rewrite E3. apply at_client_finished; [|reflexivity].
    apply at_from. now apply (proj2 (at_erase _ _ _ _)). }
  rewrite <- app_assoc in A3. split; [|split; [|exact A3]].
  - cbn [rs records_fit]. fold s1. fold s2. split; [split; [assumption|]; intros _; right; exists [(16, s_cke x)]; auto|].
    split; [split; [assumption|]; discriminate|]. split; [split; [assumption|]; auto|exact I].
  - split; [exact F3|]. destruct A3 as (-> & _). reflexivity.
Qed.

(** The server's last turn. *)
Lemma hear_server_finished x es s :
  session_ok x -> at_ x STATE_CLIENT_FINISHED es s -> open s ->
  let rs := [(CHANGE_CIPHER_SPEC, sv x, [1]); (HANDSHAKE, sv x, s_sfinished x)] in
  Forall record_ok rs ->
  let s' := fold_left (fun s r => next false r s) rs s in
  records_fit false rs s /\
  at_ x STATE_CONN_ESTABLISHED (es ++ [ssl_change_cipher_spec; ssl_conn_established (sv x) (s_suite x)]) s'.
Proof.
  intros Hx A O rs K s'. apply Forall_cons_iff in K as [K1 K]. apply Forall_cons_iff in K as [K2 _].
  destruct (next_open_ccs x _ STATE_COMM_ENCRYPTED _ false s A O ltac:(now right)) as (A2 & F2 & C2).
  set (s2 := next false (CHANGE_CIPHER_SPEC, sv x, [1]) s) in *.
  assert (Hn : s_sfinished x <> []) by apply Hx.
  destruct (next_encrypted false (sv x) (s_sfinished x) s2 F2 C2 Hn) as (E3 & _). split.
  - cbn [rs records_fit]. fold s2. split; [split; [assumption|]; discriminate|]. split; [split; [assumption|]; auto|exact I].
  - apply at_erase. unfold s', rs. cbn [fold_left]. fold s2. rewrite E3.
    replace (es ++ [ssl_change_cipher_spec; ssl_conn_established (sv x) (s_suite x)])
      with ((es ++ [ssl_change_cipher_spec]) ++ [ssl_conn_established (sv x) (s_suite x)]) by now rewrite <- app_assoc.
    apply at_server_finished; [|reflexivity]. apply at_from. now apply (proj2 (at_erase _ _ _ _)).
Qed.

(** The handshake in terms of [deliver_all]; see [handshake_reported]. *)
Lemma handshake_heard x groups a1 a2 a3 a4 :
  session_ok x -> concat groups = server_flight x ->
  let ts := handshake_turns x groups a1 a2 a3 a4 in
  Forall (fun t => concat (arrives t) = concat (map enc (sends t)) /\ Forall record_ok (sends t)) ts ->
  turns_ok ts new_SSLAnalyzer /\
  state (fold_left hear ts new_SSLAnalyzer) = STATE_CONN_ESTABLISHED /\
  reports (events (fold_left hear ts new_SSLAnalyzer)) = handshake_reports x.
Proof.
  intros Hx Hg ts H. unfold ts, handshake_turns in *. apply Forall_cons_iff in H as [[C1 K1] H].
  apply Forall_cons_iff in H as [[C2 K2] H]. apply Forall_cons_iff in H as [[C3 K3] H]. apply Forall_cons_iff in H as [[C4 K4] _].
  cbn [arrives sends sender] in *.
  destruct (hear_hellos x groups Hx Hg) as (R1 & R2 & O2 & A2); [now inversion K1|now apply Forall_map|].
  cbn zeta in *. set (s1 := next true (hs_record (sv x) [m_client_hello x]) new_SSLAnalyzer) in *.
  set (s2 := fold_left _ (map _ groups) s1) in *.
  destruct (hear_client_keys x _ s2 Hx A2 O2 K3) as (R3 & O3 & A3). cbn zeta in *.
  set (s3 := fold_left _ _ s2) in *.
  destruct (hear_server_finished x _ s3 Hx A3 O3 K4) as (R4 & A4). cbn zeta in *.
  unfold turns_ok, turn_ok, hear. cbn [fold_left arrives sends sender records_fit]. fold s1. fold s2. split.
  - repeat split; try assumption; try (apply R1); try apply R3; try apply R4.
  - destruct A4 as (E4 & P4 & _). split; [exact E4|]. etransitivity; [exact P4|].
    unfold handshake_reports, flight_reports, reuse_report. cbn [app]. now rewrite <- !app_assoc.
Qed.

(** C21: A full handshake is followed to the end, whatever the pieces its bytes arrive in and
    however the server divides its messages among records: no assertion fails, the
    analyzer ends in [STATE_CONN_ESTABLISHED], and the events, with the exact randoms,
    suites and Diffie-Hellman values that were sent, are reported once each and in order. *)
Theorem handshake_reported x groups a1 a2 a3 a4 c :
  session_ok x -> concat groups = server_flight x ->
  Forall (fun t => concat (arrives t) = concat (map enc (sends t)) /\ Forall record_ok (sends t))
         (handshake_turns x groups a1 a2 a3 a4) ->
  between c -> ssl c = new_SSLAnalyzer ->
  exists c', deliver_all (concat (map turn_pieces (handshake_turns x groups a1 a2 a3 a4))) c = Some c' /\ between c' /\
             state (ssl c') = STATE_CONN_ESTABLISHED /\ reports (events (ssl c')) = handshake_reports x.
Proof.
  intros Hx Hg H B E. destruct (handshake_heard x groups a1 a2 a3 a4 Hx Hg H) as (T & S & R).
  rewrite <- E in T, S, R. destruct (deliver_turns _ c T B) as (c' & D & B' & L). exists c'. rewrite L. auto.
Qed.

(** ** What the parser misses *)

(** The bytes of a record of an unknown version are not looked at: the analyzer gets an empty
    record, so that neither [lost_track] nor the violation of an unknown record happens. *)
Lemma unknown_record_ignored orig data s :
  determine_ssl_version (SslRecords.head 0 data) (SslRecords.head 1 data) (SslRecords.head 2 data) = UNKNOWN_VERSION ->
  fragmented s = false ->
  exists s', on_pdu orig data s = Parsed s' true /\ state s' = state s /\
             events s' = events s ++ [ssl_record orig UNKNOWN_OR_V2_ENCRYPTED []].
Proof.
  intros E Hf. unfold SslRecords.on_pdu. rewrite E. cbn [Z.eqb UNKNOWN_VERSION]. unfold SslRecords.next_record. rewrite Hf.
  cbn [List.length SslRecords.ssl_NewData]. eexists. split; [reflexivity|]. split; reflexivity.
Qed.

(** A challenge of a version 2 hello that is shorter than 28 bytes is reported together with
    the memory behind it. *)
Lemma short_challenge_overread challenge :
  (List.length challenge < 28)%nat ->
  random32 beyond 0 challenge = [0; 0; 0; 0] ++ challenge ++ firstn (28 - List.length challenge) beyond.
Proof. intros H. unfold random32. rewrite firstn_app, firstn_all2 by lia. reflexivity. Qed.

End Reports.

(** *** An instance *)

Definition sample_session : Session :=
  {| sv := TLSv10; s_crandom := repeat 7 32; s_csid := []; s_suits := [57; 53]; s_meths := [0]; s_cext := [0; 0];
     s_srandom := repeat 9 32; s_ssid := [4; 4]; s_suite := 57; s_meth := 0; s_sext := [];
     s_certificate := [0; 0; 4; 0; 0; 1; 99]; s_certs := [[99]]; s_p := [23]; s_g := [5]; s_pub := [8]; s_signature := [1; 2];
     s_cke := [0; 1; 3]; s_cfinished := [170; 171]; s_sfinished := [180] |}.

(** Three messages in one record, the last in another. *)
Definition sample_groups : list (list (Z * list Z)) := [firstn 3 (server_flight sample_session); [(14, [])]].

Definition split_at (n : nat) (bs : list Z) : list (list Z) := [firstn n bs; []; skipn n bs].

Definition sample_turns : list Turn :=
  handshake_turns sample_session sample_groups
    (split_at 3 (concat (map enc (sends (nth 0 (handshake_turns sample_session sample_groups [] [] [] []) (Build_Turn true [] []))))))
    (split_at 40 (concat (map enc (sends (nth 1 (handshake_turns sample_session sample_groups [] [] [] []) (Build_Turn true [] []))))))
    (split_at 9 (concat (map enc (sends (nth 2 (handshake_turns sample_session sample_groups [] [] [] []) (Build_Turn true [] []))))))
    (split_at 6 (concat (map enc (sends (nth 3 (handshake_turns sample_session sample_groups [] [] [] []) (Build_Turn true [] [])))))).

Definition new_SslConn : SslConn := {| upflow := fresh_flow; downflow := fresh_flow; ssl := new_SSLAnalyzer |}.

Lemma new_SslConn_between : between new_SslConn.
Proof. intros [|]; left; split; try reflexivity; exact fresh_flow_idle. Qed.

Lemma bytes_repeat b n : 0 <= b < 256 -> Forall is_byte (repeat b n).
Proof. intros H. apply Forall_forall. intros c Hc. apply repeat_spec in Hc. subst. exact H. Qed.

Lemma handshake_reported_witness :
  exists c', deliver_all false true [] (concat (map turn_pieces sample_turns)) new_SslConn = Some c' /\ between c' /\
             state (ssl c') = STATE_CONN_ESTABLISHED /\
             reports (events (ssl c')) =
             [ssl_conn_attempt TLSv10 [57; 53] (repeat 7 28) (repeat 7 32);
              ssl_conn_server_reply TLSv10 [57] (repeat 9 32) 0; ssl_session_insertion [4]; ProtocolConfirmation;
              ssl_certificates [[99]] false; ssl_server_key_exchange [23] [5] [8];
              ssl_client_key_exchange [0; 1; 3]; ssl_change_cipher_spec; ssl_change_cipher_spec;
              ssl_conn_established TLSv10 57].
Proof.
  apply (handshake_reported false true [] sample_session sample_groups _ _ _ _ new_SslConn).
  - split; [now right; left|]. split; [split; [reflexivity|apply bytes_repeat; lia]|].
    split; [split; [reflexivity|apply bytes_repeat; lia]|]. split; [cbn; lia|]. split; [repeat constructor; lia|].
    split; [now left|]. split; [reflexivity|]. repeat split; try (cbn; lia); discriminate.
  - reflexivity.
  - assert (K : forall type fragment, 20 <= type <= 23 -> Z.of_nat (List.length fragment) < 65536 -> record_ok (type, TLSv10, fragment))
      by (intros; split; [assumption|]; split; [now right; left|assumption]).
    repeat match goal with
    | |- Forall _ [] => constructor
    | |- Forall _ _ => apply Forall_cons
    | |- _ /\ _ => split; [vm_compute; reflexivity|]
    | |- record_ok _ => apply K; [split; vm_compute; congruence|vm_compute; reflexivity]
    end.
  - exact new_SslConn_between.
  - reflexivity.
Defined.
