(* ===== verification/BroTcp.v ===== *)
(** * Bro's TCP analyzer

    [TCP.cc] and [TCP_Endpoint.cc]: what becomes of a packet of a connection: its header, its
    checksum, the sequence numbers and states of the two endpoints, the acknowledgement and
    the data that go to the reassemblers, and the close of the connection.

    [endpoint] and [peer] are pointers that keep their meaning when the roles are flipped:
    the two endpoints are the cells [false] and [true] of the analyzer, and [orig] tells
    which of them the originator is.  Sequence numbers are [uint32].  Times are numbers of
    any unit.  What the analyzer makes visible is collected in [outs], the latest last.
    [ACTIVE_MAPPING], [USE_INT64] and [BROv6] are not configured; passive fingerprinting, trace
    rewriting and Bro's statistics are left out. *)
From S2P Require Import Prelude Bytes CLib TelexUtil TelexTcp Reassem.
From Stdlib Require Import String ZArith Lia List Bool.
Import ListNotations.
Open Scope Z_scope.
Open Scope list_scope.

Definition TH_FIN : Z := 1.
Definition TH_SYN : Z := 2.
Definition TH_RST : Z := 4.
Definition TH_URG : Z := 32.

(** [TCP_Flags] *)
Record TCP_Flags := { SYN : bool; FIN : bool; RST : bool; ACK : bool; URG : bool; PUSH : bool }.

Definition has_flag (bit th_flags : Z) : bool := negb (Z.land th_flags bit =? 0).

Definition mk_flags (th_flags : Z) : TCP_Flags :=
  {| SYN := has_flag TH_SYN th_flags; FIN := has_flag TH_FIN th_flags; RST := has_flag TH_RST th_flags;
     ACK := has_flag TH_ACK th_flags; URG := has_flag TH_URG th_flags; PUSH := has_flag TH_PUSH th_flags |}.

(** The fields of [struct tcphdr] at the start of [tp]. *)
Definition th_seq (tp : list Z) : Z := be_value (firstn 4 (skipn 4 tp)).
Definition th_ack (tp : list Z) : Z := be_value (firstn 4 (skipn 8 tp)).
Definition th_off (tp : list Z) : Z := Z.shiftr (nth 12 tp 0) 4.
Definition th_flags (tp : list Z) : Z := nth 13 tp 0.
Definition th_win (tp : list Z) : Z := be_value (firstn 2 (skipn 14 tp)).

(** ** Endpoints *)

Record Seqs := { start_seq : Z; last_seq : Z; ack_seq : Z; last_seq_high : Z; ack_seq_high : Z }.
Record Window := { window : Z; window_scale : Z; window_seq : Z; window_ack_seq : Z }.
Record Hist := { hist_last_SYN : Z; hist_last_FIN : Z; hist_last_RST : Z }.
Record Counts := { FIN_seq : Z; FIN_cnt : Z; RST_cnt : Z }.
Record Seen := { start_time : Z; last_time : Z; last_TTL : Z; last_IP_ID : Z }.

Record TCP_Endpoint := {
  ep_state : EndpointState; prev_state : EndpointState; is_orig : bool; did_close : bool; seqs : Seqs; win : Window;
  hist : Hist; counts : Counts; seen : Seen; contents_processor : option Reassembler }.

Definition set_states (st prev : EndpointState) (e : TCP_Endpoint) : TCP_Endpoint :=
  {| ep_state := st; prev_state := prev; is_orig := is_orig e; did_close := did_close e; seqs := seqs e; win := win e;
     hist := hist e; counts := counts e; seen := seen e; contents_processor := contents_processor e |}.
Definition set_is_orig (b : bool) (e : TCP_Endpoint) : TCP_Endpoint :=
  {| ep_state := ep_state e; prev_state := prev_state e; is_orig := b; did_close := did_close e; seqs := seqs e; win := win e;
     hist := hist e; counts := counts e; seen := seen e; contents_processor := contents_processor e |}.
Definition set_did_close (e : TCP_Endpoint) : TCP_Endpoint :=
  {| ep_state := ep_state e; prev_state := prev_state e; is_orig := is_orig e; did_close := true; seqs := seqs e; win := win e;
     hist := hist e; counts := counts e; seen := seen e; contents_processor := contents_processor e |}.
Definition set_seqs (s : Seqs) (e : TCP_Endpoint) : TCP_Endpoint :=
  {| ep_state := ep_state e; prev_state := prev_state e; is_orig := is_orig e; did_close := did_close e; seqs := s; win := win e;
     hist := hist e; counts := counts e; seen := seen e; contents_processor := contents_processor e |}.
Definition set_win (w : Window) (e : TCP_Endpoint) : TCP_Endpoint :=
  {| ep_state := ep_state e; prev_state := prev_state e; is_orig := is_orig e; did_close := did_close e; seqs := seqs e; win := w;
     hist := hist e; counts := counts e; seen := seen e; contents_processor := contents_processor e |}.
Definition set_hist (h : Hist) (e : TCP_Endpoint) : TCP_Endpoint :=
  {| ep_state := ep_state e; prev_state := prev_state e; is_orig := is_orig e; did_close := did_close e; seqs := seqs e; win := win e;
     hist := h; counts := counts e; seen := seen e; contents_processor := contents_processor e |}.
Definition set_counts (c : Counts) (e : TCP_Endpoint) : TCP_Endpoint :=
  {| ep_state := ep_state e; prev_state := prev_state e; is_orig := is_orig e; did_close := did_close e; seqs := seqs e; win := win e;
     hist := hist e; counts := c; seen := seen e; contents_processor := contents_processor e |}.
Definition set_seen (s : Seen) (e : TCP_Endpoint) : TCP_Endpoint :=
  {| ep_state := ep_state e; prev_state := prev_state e; is_orig := is_orig e; did_close := did_close e; seqs := seqs e; win := win e;
     hist := hist e; counts := counts e; seen := s; contents_processor := contents_processor e |}.
Definition set_contents (r : option Reassembler) (e : TCP_Endpoint) : TCP_Endpoint :=
  {| ep_state := ep_state e; prev_state := prev_state e; is_orig := is_orig e; did_close := did_close e; seqs := seqs e; win := win e;
     hist := hist e; counts := counts e; seen := seen e; contents_processor := r |}.

(** [TCP_Endpoint::TCP_Endpoint]; the history numbers and [FIN_seq] are not initialized
    there: [junk]. *)
Definition new_TCP_Endpoint (junk : Z) (orig : bool) : TCP_Endpoint :=
  {| ep_state := TCP_ENDPOINT_INACTIVE; prev_state := TCP_ENDPOINT_INACTIVE; is_orig := orig; did_close := false;
     seqs := {| start_seq := 0; last_seq := 0; ack_seq := 0; last_seq_high := 0; ack_seq_high := 0 |};
     win := {| window := 0; window_scale := 0; window_seq := 0; window_ack_seq := 0 |};
     hist := {| hist_last_SYN := junk; hist_last_FIN := junk; hist_last_RST := junk |};
     counts := {| FIN_seq := junk; FIN_cnt := 0; RST_cnt := 0 |};
     seen := {| start_time := 0; last_time := 0; last_TTL := 0; last_IP_ID := junk |}; contents_processor := None |}.

Definition StartSeq (e : TCP_Endpoint) : Z := start_seq (seqs e).
Definition LastSeq (e : TCP_Endpoint) : Z := last_seq (seqs e).
Definition AckSeq (e : TCP_Endpoint) : Z := ack_seq (seqs e).

(** [InitStartSeq], [InitLastSeq] and [InitAckSeq] together, as they are called. *)
Definition InitSeqs (start last ack : Z) (e : TCP_Endpoint) : TCP_Endpoint :=
  set_seqs {| start_seq := start; last_seq := last; ack_seq := ack;
              last_seq_high := last_seq_high (seqs e); ack_seq_high := ack_seq_high (seqs e) |} e.

(** [TCP_Endpoint::UpdateLastSeq], [UpdateAckSeq] *)
Definition ep_UpdateLastSeq (seq : Z) (e : TCP_Endpoint) : TCP_Endpoint :=
  let s := seqs e in
  set_seqs {| start_seq := start_seq s; last_seq := seq; ack_seq := ack_seq s;
              last_seq_high := if seq <? last_seq s then wrap 32 (last_seq_high s + 1) else last_seq_high s;
              ack_seq_high := ack_seq_high s |} e.

Definition UpdateAckSeq (seq : Z) (e : TCP_Endpoint) : TCP_Endpoint :=
  let s := seqs e in
  set_seqs {| start_seq := start_seq s; last_seq := last_seq s; ack_seq := seq; last_seq_high := last_seq_high s;
              ack_seq_high := if seq <? ack_seq s then wrap 32 (ack_seq_high s + 1) else ack_seq_high s |} e.

Definition NoDataAcked (e : TCP_Endpoint) : bool :=
  (AckSeq e =? StartSeq e) || (AckSeq e =? wrap 32 (StartSeq e + 1)).
Definition IsActive (e : TCP_Endpoint) : bool := negb (state_eqb (ep_state e) TCP_ENDPOINT_INACTIVE) && negb (did_close e).
Definition HasDoneSomething (e : TCP_Endpoint) : bool := negb (last_time (seen e) =? 0).

(** [TCP_Endpoint::Size], an [int] *)
Definition ep_Size (e : TCP_Endpoint) : Z :=
  let size := if (0 <? seq_delta (LastSeq e) (AckSeq e)) || (AckSeq e =? wrap 32 (StartSeq e + 1))
              then swrap 32 (LastSeq e - StartSeq e) else swrap 32 (AckSeq e - StartSeq e) in
  let size := if size =? 0 then size else swrap 32 (size - 1) in
  if (0 <? FIN_cnt (counts e)) && negb (size =? 0) then swrap 32 (size - 1) else size.

(** [seq_between] *)
Definition seq_between (a b c : Z) : bool :=
  if b <=? c then (b <=? a) && (a <=? c) else (b <=? a) || (a <=? c).

(** ** Checksums *)

(** [ones_complement_checksum] of [b] bytes; shorts are loaded in the host's order.  Three
    rounds of folding are enough for 32 bits. *)
Fixpoint sum_shorts (p : list Z) (n : nat) (sum : Z) : Z :=
  match n with
  | O => sum
  | S n => sum_shorts (skipn 2 p) n (wrap 32 (sum + load16 p))
  end.

Fixpoint fold_sum (fuel : nat) (sum : Z) : option Z :=
  if 0xffff <? sum then
    match fuel with
    | O => None
    | S fuel => fold_sum fuel (wrap 32 (Z.land sum 0xffff + Z.shiftr sum 16))
    end
  else Some sum.

Definition ones_complement_checksum (p : list Z) (b : Z) (sum : Z) : option Z :=
  fold_sum 3 (sum_shorts p (Z.to_nat (b / 2)) sum).

Abbreviation htons := ntohs.

(** [checksum_base], from the addresses as they are in memory. *)
Definition checksum_base (src dst : list Z) : option Z :=
  match ones_complement_checksum src 4 0 with
  | Some s => option_map (fun s => wrap 32 (s + htons 6)) (ones_complement_checksum dst 4 s)
  | None => None
  end.

(** [ValidChecksum] *)
Definition ValidChecksum (base : Z) (tp : list Z) (len : Z) : option bool :=
  let tcp_len := th_off tp * 4 + len in
  let sum := if len mod 2 =? 1 then wrap 32 (base + htons (wrap 16 (Z.shiftl (nth (Z.to_nat (tcp_len - 1)) tp 0) 8))) else base in
  let sum := wrap 32 (sum + htons (wrap 16 tcp_len)) in
  option_map (fun s => s =? 0xffff) (ones_complement_checksum tp tcp_len sum).

(** ** The analyzer *)

Inductive TcpOut :=
  | Stream (is_orig : bool) (o : Out)                 (* from a reassembler *)
  | TcpWeird (name : string)
  | TcpEvent (name : string)
  | tcp_packet (is_orig : bool) (flags : TCP_Flags) (seq ack len : Z) (data : list Z)
  | tcp_option (is_orig : bool) (opt optlen : Z) (option : list Z)
  | connection_SYN_packet (is_orig : bool) (th_win winscale MSS : Z) (SACK : bool)
  | packet_contents (data : list Z)
  | connection_EOF (is_orig : bool)
  | Timer (name : string)
  | SetInactivityTimeout
  | Children (call : string)                          (* of every child analyzer *)
  | ForwardPacket (is_orig : bool) (seq : Z) (data : list Z)
  | FirstPacket (is_orig : bool)
  | Remove.                                           (* sessions->Remove(Conn()) *)

Record TCP_Analyzer := {
  ep_false : TCP_Endpoint; ep_true : TCP_Endpoint; orig : bool;
  first_packet_seen : Z; is_partial : bool; is_active : bool; close_deferred : bool; deferred_gen_event : bool;
  seen_first_ACK : bool; reassembling : bool;
  hist_seen : Z; history : list Z; conn_last_time : Z; weird : bool; gaps : GapStats; outs : list TcpOut }.

Definition ep (p : bool) (a : TCP_Analyzer) : TCP_Endpoint := if p then ep_true a else ep_false a.

Definition set_ep (p : bool) (e : TCP_Endpoint) (a : TCP_Analyzer) : TCP_Analyzer :=
  {| ep_false := if p then ep_false a else e; ep_true := if p then e else ep_true a; orig := orig a;
     first_packet_seen := first_packet_seen a; is_partial := is_partial a; is_active := is_active a;
     close_deferred := close_deferred a; deferred_gen_event := deferred_gen_event a; seen_first_ACK := seen_first_ACK a;
     reassembling := reassembling a; hist_seen := hist_seen a; history := history a; conn_last_time := conn_last_time a;
     weird := weird a; gaps := gaps a; outs := outs a |}.
Definition set_orig (o : bool) (a : TCP_Analyzer) : TCP_Analyzer :=
  {| ep_false := ep_false a; ep_true := ep_true a; orig := o;
     first_packet_seen := first_packet_seen a; is_partial := is_partial a; is_active := is_active a;
     close_deferred := close_deferred a; deferred_gen_event := deferred_gen_event a; seen_first_ACK := seen_first_ACK a;
     reassembling := reassembling a; hist_seen := hist_seen a; history := history a; conn_last_time := conn_last_time a;
     weird := weird a; gaps := gaps a; outs := outs a |}.
Definition set_bits (first : Z) (partial active firstack : bool) (a : TCP_Analyzer) : TCP_Analyzer :=
  {| ep_false := ep_false a; ep_true := ep_true a; orig := orig a;
     first_packet_seen := first; is_partial := partial; is_active := active;
     close_deferred := close_deferred a; deferred_gen_event := deferred_gen_event a; seen_first_ACK := firstack;
     reassembling := reassembling a; hist_seen := hist_seen a; history := history a; conn_last_time := conn_last_time a;
     weird := weird a; gaps := gaps a; outs := outs a |}.
Definition set_deferred (close gen_event : bool) (a : TCP_Analyzer) : TCP_Analyzer :=
  {| ep_false := ep_false a; ep_true := ep_true a; orig := orig a;
     first_packet_seen := first_packet_seen a; is_partial := is_partial a; is_active := is_active a;
     close_deferred := close; deferred_gen_event := gen_event; seen_first_ACK := seen_first_ACK a;
     reassembling := reassembling a; hist_seen := hist_seen a; history := history a; conn_last_time := conn_last_time a;
     weird := weird a; gaps := gaps a; outs := outs a |}.
Definition set_conn (mask : Z) (h : list Z) (t : Z) (w : bool) (g : GapStats) (o : list TcpOut) (a : TCP_Analyzer) : TCP_Analyzer :=
  {| ep_false := ep_false a; ep_true := ep_true a; orig := orig a;
     first_packet_seen := first_packet_seen a; is_partial := is_partial a; is_active := is_active a;
     close_deferred := close_deferred a; deferred_gen_event := deferred_gen_event a; seen_first_ACK := seen_first_ACK a;
     reassembling := reassembling a; hist_seen := mask; history := h; conn_last_time := t;
     weird := w; gaps := g; outs := o |}.

Definition upd (p : bool) (f : TCP_Endpoint -> TCP_Endpoint) (a : TCP_Analyzer) : TCP_Analyzer := set_ep p (f (ep p a)) a.

Definition out (o : list TcpOut) (a : TCP_Analyzer) : TCP_Analyzer :=
  set_conn (hist_seen a) (history a) (conn_last_time a) (weird a) (gaps a) (outs a ++ o) a.
Definition Weird_ (name : string) (a : TCP_Analyzer) : TCP_Analyzer :=
  set_conn (hist_seen a) (history a) (conn_last_time a) true (gaps a) (outs a ++ [TcpWeird name]) a.
Definition Event (name : string) (a : TCP_Analyzer) : TCP_Analyzer := out [TcpEvent name] a.
Definition when (b : bool) (f : TCP_Analyzer -> TCP_Analyzer) (a : TCP_Analyzer) : TCP_Analyzer := if b then f a else a.

(** The constructor of the analyzer; [is_partial] is not initialized there. *)
Definition new_TCP_Analyzer (junk : Z) (partial : bool) (g : GapStats) : TCP_Analyzer :=
  {| ep_false := new_TCP_Endpoint junk false; ep_true := new_TCP_Endpoint junk true; orig := true;
     first_packet_seen := 0; is_partial := partial; is_active := true; close_deferred := false; deferred_gen_event := false;
     seen_first_ACK := false; reassembling := false; hist_seen := 0; history := []; conn_last_time := 0; weird := false;
     gaps := g; outs := [Timer "ExpireTimer"] |}.

(** [EnableReassembly] *)
Definition EnableReassembly (a : TCP_Analyzer) : TCP_Analyzer :=
  let a := upd false (set_contents (Some new_Reassembler)) (upd true (set_contents (Some new_Reassembler)) a) in
  {| ep_false := ep_false a; ep_true := ep_true a; orig := orig a;
     first_packet_seen := first_packet_seen a; is_partial := is_partial a; is_active := is_active a;
     close_deferred := close_deferred a; deferred_gen_event := deferred_gen_event a; seen_first_ACK := seen_first_ACK a;
     reassembling := true; hist_seen := hist_seen a; history := history a; conn_last_time := conn_last_time a;
     weird := weird a; gaps := gaps a; outs := outs a ++ [TcpEvent "new_connection_contents"; TcpEvent "new_connection_contents"] |}.

(** Bro's options, which events are handled, and the constants that the analyzer reads; [base_env]
    has what the reassemblers read of Bro's options. *)
Record TcpOptions := {
  ignore_checksums : bool; tcp_storm_interarrival_thresh : Z; tcp_storm_thresh : Z; tcp_close_delay : Z;
  handles_packet_contents : bool; handles_SYN_packet : bool; handles_connection_attempt : bool;
  handles_connection_reset : bool; handles_partial_close : bool; handles_tcp_packet : bool; handles_tcp_option : bool;
  handles_connection_EOF : bool; has_packet_children : bool; has_PIA : bool; base_env : REnv }.

Section Analyzer.

Context (opts : TcpOptions) (base : bool -> Z).   (* checksum_base of the two endpoints *)

Abbreviation Skipping := (Skipping (base_env opts)).

(** What the reassembler of the endpoint [p] reads. *)
Definition env_of (p : bool) (a : TCP_Analyzer) : REnv :=
  let e := ep p a in let q := ep (negb p) a in let b := base_env opts in
  {| endp_state := ep_state e; endp_FIN_cnt := FIN_cnt (counts e); endp_RST_cnt := RST_cnt (counts e);
     endp_FIN_seq := FIN_seq (counts e); endp_StartSeq := StartSeq e; endp_LastSeq := LastSeq e; endp_AckSeq := AckSeq e;
     endp_Size := ep_Size e; endp_NoDataAcked := NoDataAcked e;
     peer_state := ep_state q; peer_FIN_cnt := FIN_cnt (counts q); peer_RST_cnt := RST_cnt (counts q);
     peer_HasContents := match contents_processor q with Some _ => true | None => false end;
     peer_HasUndeliveredData := match contents_processor q with
                                | Some r => match blocks r with [] => false | _ => true end
                                | None => false
                                end;
     peer_HasDoneSomething := HasDoneSomething q;
     IsPartial := is_partial a; Reassem.Skipping := Skipping;
     recording := recording b; deliver_tcp_contents := deliver_tcp_contents b; has_rule_matcher := has_rule_matcher b;
     handles_content_gap := handles_content_gap b; handles_rexmit_inconsistency := handles_rexmit_inconsistency b;
     tcp_match_undelivered := tcp_match_undelivered b; tcp_max_initial_window := tcp_max_initial_window b;
     tcp_max_above_hole_without_any_acks := tcp_max_above_hole_without_any_acks b;
     tcp_excessive_data_without_further_acks := tcp_excessive_data_without_further_acks b;
     r_skip_request := r_skip_request b |}.

(** [SetState] *)
Definition is_handshake (s : EndpointState) : bool :=
  state_eqb s TCP_ENDPOINT_INACTIVE || state_eqb s TCP_ENDPOINT_SYN_SENT || state_eqb s TCP_ENDPOINT_SYN_ACK_SENT.

Definition SetState (p : bool) (st : EndpointState) (a : TCP_Analyzer) : TCP_Analyzer :=
  let e := ep p a in
  if state_eqb st (ep_state e) then a
  else upd p (set_states st (ep_state e))
         (when (negb (is_handshake st) && is_handshake (ep_state e) && is_handshake (ep_state (ep (negb p) a)))
               (out [SetInactivityTimeout]) a).

(** [CheckHistory] and [AddHistory], of the endpoint and of the connection *)
Definition tolower (c : Z) : Z := if (65 <=? c) && (c <=? 90) then c + 32 else c.

Definition AddHistory (p : bool) (code : Z) (a : TCP_Analyzer) : TCP_Analyzer :=
  set_conn (hist_seen a) (history a ++ [if is_orig (ep p a) then code else tolower code]) (conn_last_time a) (weird a) (gaps a) (outs a) a.

Definition CheckHistory (p : bool) (mask code : Z) (a : TCP_Analyzer) : TCP_Analyzer * bool :=
  let mask := if is_orig (ep p a) then mask else wrap 32 (Z.shiftl mask 16) in
  if Z.land (hist_seen a) mask =? 0
  then (AddHistory p code (set_conn (Z.lor (hist_seen a) mask) (history a) (conn_last_time a) (weird a) (gaps a) (outs a) a), false)
  else (a, true).

(** [ExtractTCP_Header]: the header's length, and the lengths without it. *)
Definition ExtractTCP_Header (data : list Z) (len caplen : Z) (a : TCP_Analyzer) : TCP_Analyzer * option (Z * Z * Z) :=
  let tcp_hdr_len := th_off data * 4 in
  if tcp_hdr_len <? sizeof_tcphdr then (Weird_ "bad_TCP_header_len" a, None)
  else if (wrap 32 len <? tcp_hdr_len) || (wrap 32 caplen <? sizeof_tcphdr) then (Weird_ "truncated_header" a, None)
  else (a, Some (tcp_hdr_len, len - tcp_hdr_len, caplen - tcp_hdr_len)).

(** [ValidateChecksum]; [None] if the folding needed more rounds. *)
Definition ValidateChecksum (tp : list Z) (p : bool) (len caplen : Z) (a : TCP_Analyzer) : option (TCP_Analyzer * bool) :=
  if ignore_checksums opts || (caplen <? len) then Some (a, true)
  else match ValidChecksum (base p) tp len with
       | None => None
       | Some true => Some (a, true)
       | Some false => Some (fst (CheckHistory p 0x80 67 (Weird_ "bad_TCP_checksum" a)), false)
       end.

(** [CheckFlagCombos] *)
Definition b2z (b : bool) : Z := if b then 1 else 0.

(** The three single-flag branches: the code is repeated when the number differs from that
    of the last such packet. *)
Definition note_control (p : bool) (mask code seq last : Z) (a : TCP_Analyzer) : TCP_Analyzer :=
  let '(a, again) := CheckHistory p mask code a in
  if again && negb (seq =? last) then AddHistory p code a else a.

Definition CheckFlagCombos (f : TCP_Flags) (p : bool) (base_seq len : Z) (a : TCP_Analyzer) : TCP_Analyzer :=
  let is_orig := is_orig (ep p a) in
  let part := if is_orig && (Z.land (first_packet_seen a) 1 =? 0) then negb (SYN f) || ACK f else is_partial a in
  let part := if negb is_orig && (Z.land (first_packet_seen a) 2 =? 0) && negb part then negb (SYN f) else part in
  let a := set_bits (first_packet_seen a) part (is_active a) (seen_first_ACK a) a in
  let bits_set := b2z (SYN f) + b2z (FIN f) + b2z (RST f) in
  let h := hist (ep p a) in
  if 1 <? bits_set then
    fst (if FIN f && RST f then CheckHistory p 0x8 73 a else CheckHistory p 0x40 81 a)
  else if bits_set =? 1 then
    if SYN f then
      upd p (set_hist {| hist_last_SYN := base_seq; hist_last_FIN := hist_last_FIN h; hist_last_RST := hist_last_RST h |})
          (note_control p 0x1 (if ACK f then 72 else 83) base_seq (hist_last_SYN h) a)
    else if FIN f then
      let seq := wrap 32 (base_seq + len) in
      upd p (set_hist {| hist_last_SYN := hist_last_SYN h; hist_last_FIN := seq; hist_last_RST := hist_last_RST h |})
          (note_control p 0x2 70 seq (hist_last_FIN h) a)
    else
      upd p (set_hist {| hist_last_SYN := hist_last_SYN h; hist_last_FIN := hist_last_FIN h; hist_last_RST := base_seq |})
          (note_control p 0x4 82 base_seq (hist_last_RST h) a)
  else if negb (len =? 0) then fst (CheckHistory p 0x10 68 a)
  else if ACK f then fst (CheckHistory p 0x20 65 a)
  else a.

(** A shift of a 32-bit number; the count is taken modulo 32, as the processor does, where C
    leaves the result open. *)
Definition shl32 (x s : Z) : Z := wrap 32 (Z.shiftl x (s mod 32)).

(** [UpdateWindow] *)
Definition UpdateWindow (p : bool) (w base_seq ack_seq : Z) (f : TCP_Flags) (a : TCP_Analyzer) : TCP_Analyzer :=
  let e := ep p a in
  let scale := window_scale (win e) in
  let w := shl32 w scale in
  if SYN f then a
  else
    let a :=
      if (0 <=? seq_delta base_seq (window_seq (win e))) && (0 <=? seq_delta ack_seq (window_ack_seq (win e))) then
        let new_edge := wrap 32 (ack_seq + w) in
        let old_edge := wrap 32 (window_ack_seq (win e) + window (win e)) in
        let advance := seq_delta new_edge old_edge in
        when ((advance <? 0) && negb (FIN f) && negb (RST f) && negb (state_eqb (ep_state e) TCP_ENDPOINT_CLOSED)
              && negb (state_eqb (ep_state e) TCP_ENDPOINT_RESET) && (swrap 32 (shl32 1 scale) <=? swrap 32 (- advance)))
             (Weird_ "window_recision") a
      else a in
    upd p (set_win {| window := w; window_scale := scale; window_seq := base_seq; window_ack_seq := ack_seq |}) a.

(** The options of [BuildSYNPacketVal]: window scale, segment size, selective
    acknowledgements.  [options] are the bytes up to [opt_end]. *)
Fixpoint SYN_options (fuel : nat) (options : list Z) (winscale MSS : Z) (SACK : bool) : option (Z * Z * bool) :=
  match options with
  | [] => Some (winscale, MSS, SACK)
  | opt :: rest =>
      match fuel with
      | O => None
      | S fuel =>
          if opt =? 0 then Some (winscale, MSS, SACK)
          else if opt =? 1 then SYN_options fuel rest winscale MSS SACK
          else
            match rest with
            | [] => Some (winscale, MSS, SACK)
            | opt_len :: _ =>
                if (Z.of_nat (length options) <? opt_len) || (opt_len =? 0) then Some (winscale, MSS, SACK)
                else
                  let next := skipn (Z.to_nat opt_len) options in
                  if opt =? 4 then SYN_options fuel next winscale MSS true
                  else if opt =? 2 then
                    SYN_options fuel next winscale
                      (if opt_len <? 4 then MSS else Z.lor (Z.shiftl (nth 2 options 0) 8) (nth 3 options 0)) SACK
                  else if opt =? 3 then
                    SYN_options fuel next (if opt_len <? 3 then winscale else nth 2 options 0) MSS SACK
                  else SYN_options fuel next winscale MSS SACK
            end
      end
  end.

(** The bytes of the options of the header [tp]. *)
Definition options_of (tp : list Z) : list Z := firstn (Z.to_nat (th_off tp * 4 - sizeof_tcphdr)) (skipn (Z.to_nat sizeof_tcphdr) tp).

(** [BuildSYNPacketVal] *)
Definition BuildSYNPacketVal (tp : list Z) : option (Z * Z * bool) :=
  let options := options_of tp in SYN_options (length options) options (-1) 0 false.

(** [ParseTCPOptions] with [TCPOptionEvent]: the options reported, and the result. *)
Fixpoint ParseTCPOptions (fuel : nat) (is_orig : bool) (options : list Z) : option (list TcpOut * Z) :=
  match options with
  | [] => Some ([], 0)
  | opt :: rest =>
      match fuel with
      | O => None
      | S fuel =>
          let go opt_len :=
            if (opt_len =? 0) || (Z.of_nat (length options) <? opt_len) then Some ([], -1)
            else
              let this := tcp_option is_orig opt opt_len (firstn (Z.to_nat opt_len) options) in
              if opt =? 0 then Some ([this], 0)
              else match ParseTCPOptions fuel is_orig (skipn (Z.to_nat opt_len) options) with
                   | Some (os, r) => Some (this :: os, r)
                   | None => None
                   end in
          if opt <? 2 then go 1
          else match rest with [] => Some ([], -1) | opt_len :: _ => go opt_len end
      end
  end.

(** [ProcessSYN]; the last component is [seq_len]. *)
Definition ProcessSYN (tp : list Z) (seq_len : Z) (p : bool) (base_seq ack_seq : Z) (is_orig : bool) (f : TCP_Flags)
    (a : TCP_Analyzer) : option (TCP_Analyzer * Z) :=
  let len := seq_len in
  let a := when (RST f) (Weird_ "TCP_christmas") a in
  let a := when (URG f) (Weird_ "baroque_SYN") a in
  let a := when (0 <? len) (Weird_ "SYN_with_data") a in
  match BuildSYNPacketVal tp with
  | None => None
  | Some (scale, MSS, SACK) =>
      let w := win (ep p a) in let w' := win (ep (negb p) a) in
      let a :=
        if scale <? 0 then
          let a := upd p (set_win {| window := window w; window_scale := 0; window_seq := window_seq w;
                                     window_ack_seq := window_ack_seq w |}) a in
          when (ACK f) (upd (negb p) (set_win {| window := window w'; window_scale := 0; window_seq := window_seq w';
                                                 window_ack_seq := window_ack_seq w' |})) a
        else
          upd (negb p) (set_win {| window := window w'; window_scale := window_scale w'; window_seq := ack_seq;
                                   window_ack_seq := base_seq |})
            (upd p (set_win {| window := window w; window_scale := scale; window_seq := base_seq; window_ack_seq := ack_seq |}) a) in
      Some (when (handles_SYN_packet opts) (out [connection_SYN_packet is_orig (th_win tp) scale MSS SACK]) a, seq_len + 1)
  end.

(** [ProcessFIN] *)
Definition ProcessFIN (t : Z) (p : bool) (seq_len base_seq : Z) (a : TCP_Analyzer) : TCP_Analyzer * Z :=
  let e := ep p a in
  let c := counts e in
  let '(a, cnt, seq_len) :=
    if FIN_cnt c =? 0 then (a, int_add (FIN_cnt c) 1, seq_len + 1)
    else if t <? last_time (seen e) + tcp_storm_interarrival_thresh opts
    then (when (int_add (FIN_cnt c) 1 =? tcp_storm_thresh opts) (Weird_ "FIN_storm") a, int_add (FIN_cnt c) 1, seq_len)
    else (a, FIN_cnt c, seq_len) in
  (upd p (set_counts {| FIN_seq := swrap 32 (base_seq - StartSeq e + seq_len); FIN_cnt := cnt; RST_cnt := RST_cnt c |}) a, seq_len).

(** [ProcessRST], which without [ACTIVE_MAPPING] always succeeds *)
Definition ProcessRST (t : Z) (p : bool) (len seq_len : Z) (a : TCP_Analyzer) : TCP_Analyzer * Z :=
  let e := ep p a in
  let c := counts e in
  let storm := t <? last_time (seen e) + tcp_storm_interarrival_thresh opts in
  let cnt := if storm then int_add (RST_cnt c) 1 else RST_cnt c in
  let '(a, cnt) :=
    if storm && (cnt =? tcp_storm_thresh opts) then (Weird_ "RST_storm" a, cnt)
    else if cnt =? 0 then (a, int_add cnt 1) else (a, cnt) in
  let a := upd p (set_counts {| FIN_seq := FIN_seq c; FIN_cnt := FIN_cnt c; RST_cnt := cnt |}) a in
  (out [Children "PacketWithRST"] a, if 0 <? len then 0 else seq_len).

(** [DataPending] *)
Definition DataPending (p : bool) (a : TCP_Analyzer) : bool :=
  if Skipping then false
  else match contents_processor (ep p a) with
       | Some r => Reassem.DataPending (env_of p a) r
       | None => false
       end.

(** [ConnectionFinished], [ConnectionReset] *)
Definition deactivate (a : TCP_Analyzer) : TCP_Analyzer :=
  set_bits (first_packet_seen a) (is_partial a) false (seen_first_ACK a) a.

Definition ConnectionFinished (half_finished : bool) (a : TCP_Analyzer) : TCP_Analyzer :=
  deactivate (Event (if half_finished then "connection_half_finished" else "connection_finished")
                    (out [Children "ConnectionFinished"] a)).

Definition ConnectionReset (a : TCP_Analyzer) : TCP_Analyzer :=
  deactivate (out [Children "ConnectionReset"] (Event "connection_reset" a)).

(** [ConnectionClosed] *)
Definition ConnectionClosed (p gen_event : bool) (a : TCP_Analyzer) : TCP_Analyzer :=
  let a := out [Children "ConnectionClosed"] a in
  if DataPending p a then set_deferred true (if deferred_gen_event a then true else gen_event) a
  else
    let a := set_deferred false (deferred_gen_event a) a in
    if did_close (ep p a) then a
    else
      let a := upd p set_did_close a in
      let e := ep p a in let q := ep (negb p) a in
      let close_complete := state_eqb (ep_state e) TCP_ENDPOINT_RESET || did_close q
                            || state_eqb (ep_state q) TCP_ENDPOINT_INACTIVE in
      if close_complete then
        let a :=
          if negb (state_eqb (prev_state e) TCP_ENDPOINT_INACTIVE) || negb (state_eqb (ep_state q) TCP_ENDPOINT_INACTIVE) then
            let gen := gen_event || deferred_gen_event a in
            let a := if deferred_gen_event a then set_deferred (close_deferred a) false a else a in
            when gen (ConnectionFinished (state_eqb (ep_state q) TCP_ENDPOINT_INACTIVE)) a
          else a in
        out [Timer "CancelTimers"; Timer (if negb (tcp_close_delay opts =? 0) then "ConnDeleteTimer" else "DeleteTimer")] a
      else if state_eqb (prev_state e) TCP_ENDPOINT_INACTIVE
      then when (handles_partial_close opts) (out [Timer "PartialCloseTimer"]) a
      else out [Timer "ExpireTimer"] a.

(** [BothClosed], [IsClosed] *)
Definition BothClosed (a : TCP_Analyzer) : bool := did_close (ep true a) && did_close (ep false a).
Definition IsClosed (a : TCP_Analyzer) : bool := did_close (ep true a) || did_close (ep false a).

(** [EndpointEOF] *)
Definition tcp_EndpointEOF (p : bool) (a : TCP_Analyzer) : TCP_Analyzer :=
  let a := when (handles_connection_EOF opts) (out [connection_EOF (is_orig (ep p a))]) a in
  let a := out [Children "EndpointEOF"] a in
  if close_deferred a then
    let a := when (DataPending p a && BothClosed a) (Weird_ "pending_data_when_closed") a in
    let a := ConnectionClosed p (deferred_gen_event a) a in
    set_deferred false (deferred_gen_event a) a
  else a.

(** What the reassembler of [p] does is passed on; [EndpointEOF] is its last call. *)
Definition from_reassembler (p : bool) (r : Reassembler) (o : list Out) (a : TCP_Analyzer) : TCP_Analyzer :=
  let a := upd p (set_contents (Some r)) a in
  let a := out (map (Stream (is_orig (ep p a))) o) a in
  when (existsb (fun o => match o with EndpointEOF => true | _ => false end) o) (tcp_EndpointEOF p) a.

Definition set_gaps (g : GapStats) (a : TCP_Analyzer) : TCP_Analyzer :=
  set_conn (hist_seen a) (history a) (conn_last_time a) (weird a) g (outs a) a.

(** [TCP_Endpoint::AckReceived] and [CheckEOF] *)
Definition ep_AckReceived (report_due : bool) (p : bool) (seq : Z) (a : TCP_Analyzer) : option TCP_Analyzer :=
  match contents_processor (ep p a) with
  | None => Some a
  | Some r =>
      match AckReceived (env_of p a) report_due seq r (gaps a) with
      | Some (r, g, o) => Some (from_reassembler p r o (set_gaps g a))
      | None => None
      end
  end.

Definition ep_CheckEOF (p : bool) (a : TCP_Analyzer) : TCP_Analyzer :=
  match contents_processor (ep p a) with
  | None => a
  | Some r => let '(r, o) := CheckEOF (env_of p a) r in from_reassembler p r o a
  end.

(** [ProcessACK]; [p] is the endpoint that sends the packet. *)
Definition TOO_LARGE_SEQ_DELTA : Z := 1048576.

Definition ProcessACK (report_due : bool) (p : bool) (ack_seq : Z) (is_orig : bool) (f : TCP_Flags) (a : TCP_Analyzer)
    : option TCP_Analyzer :=
  let st := ep_state (ep p a) in
  let a :=
    if is_orig && negb (seen_first_ACK a) && (state_eqb st TCP_ENDPOINT_ESTABLISHED || state_eqb st TCP_ENDPOINT_SYN_SENT)
    then Event "connection_first_ACK" (set_bits (first_packet_seen a) (is_partial a) (is_active a) true a)
    else a in
  let q := ep (negb p) a in
  let a :=
    if state_eqb (ep_state q) TCP_ENDPOINT_INACTIVE then
      let a := when (negb (SYN f) && negb (FIN f) && negb (RST f)
                     && (state_eqb st TCP_ENDPOINT_SYN_SENT || state_eqb st TCP_ENDPOINT_SYN_ACK_SENT
                         || state_eqb st TCP_ENDPOINT_ESTABLISHED) && negb (weird a))
                    (Weird_ "possible_split_routing") a in
      let s := wrap 32 (ack_seq - 1) in upd (negb p) (InitSeqs s s s) a
    else if negb (RST f) then
      let delta_ack := seq_delta ack_seq (AckSeq q) in
      if (ack_seq =? 0) && (TOO_LARGE_SEQ_DELTA <? delta_ack) then a
      else when (0 <? delta_ack) (upd (negb p) (UpdateAckSeq ack_seq)) a
    else a in
  ep_AckReceived report_due (negb p) (swrap 32 (ack_seq - StartSeq (ep (negb p) a))) a.

(** [ProcessFlags] *)
Definition ProcessFlags (t : Z) (report_due : bool) (tp : list Z) (len seq_len : Z) (p : bool) (base_seq ack_seq : Z)
    (is_orig : bool) (f : TCP_Flags) (a : TCP_Analyzer) : option (TCP_Analyzer * Z) :=
  match (if SYN f then ProcessSYN tp seq_len p base_seq ack_seq is_orig f a else Some (a, seq_len)) with
  | None => None
  | Some (a, seq_len) =>
      let '(a, seq_len) := if FIN f then ProcessFIN t p seq_len base_seq a else (a, seq_len) in
      let '(a, seq_len) := if RST f then ProcessRST t p len seq_len a else (a, seq_len) in
      if ACK f then option_map (fun a => (a, seq_len)) (ProcessACK report_due p ack_seq is_orig f a)
      else Some (a, seq_len)
  end.

(** [TransitionFromInactive] *)
Definition TransitionFromInactive (t : Z) (p : bool) (base_seq last : Z) (syn : bool) (a : TCP_Analyzer) : TCP_Analyzer :=
  let start := if syn then base_seq else wrap 32 (base_seq - 1) in
  upd p (fun e => set_seen {| start_time := t; last_time := last_time (seen e); last_TTL := last_TTL (seen e);
                              last_IP_ID := last_IP_ID (seen e) |} (InitSeqs start last start e)) a.

(** [UpdateLastSeq], with [delta_last] *)
Definition UpdateLastSeq (p : bool) (last : Z) (f : TCP_Flags) (a : TCP_Analyzer) : TCP_Analyzer * Z :=
  let e := ep p a in
  let delta_last := seq_delta last (LastSeq e) in
  (if (SYN f || RST f) && ((TOO_LARGE_SEQ_DELTA <? delta_last) || (delta_last <? - TOO_LARGE_SEQ_DELTA)) then a
   else if FIN f && (LastSeq e =? wrap 32 (StartSeq e + 1)) then upd p (ep_UpdateLastSeq last) a
   else if state_eqb (ep_state e) TCP_ENDPOINT_RESET then a
   else if 0 <? delta_last then upd p (ep_UpdateLastSeq last) a
   else a, delta_last).

(** [FlipRoles] *)
Definition FlipRoles (a : TCP_Analyzer) : TCP_Analyzer :=
  let flip e := set_is_orig (negb (is_orig e)) e in
  set_orig (negb (orig a)) (upd true flip (upd false flip (out [Children "FlipRoles"] a))).

(** The state machine; the results are the analyzer, [do_close] and [gen_event]. *)
Definition state_of (p : bool) (a : TCP_Analyzer) : EndpointState := ep_state (ep p a).
Definition in_state (p : bool) (st : EndpointState) (a : TCP_Analyzer) : bool := state_eqb (state_of p a) st.

(** The SYN of [UpdateInactiveState]. *)
Definition inactive_SYN (p : bool) (base_seq ack_seq : Z) (is_orig : bool) (f : TCP_Flags) (a : TCP_Analyzer) : TCP_Analyzer :=
  let q := negb p in
  if is_orig then
    let a := if ACK f then SetState p TCP_ENDPOINT_SYN_ACK_SENT (Weird_ "connection_originator_SYN_ack" a)
             else SetState p TCP_ENDPOINT_SYN_SENT a in
    when (handles_connection_attempt opts) (out [Timer "AttemptTimer"]) a
  else
    let a :=
      if ACK f then
        when (negb (in_state q TCP_ENDPOINT_INACTIVE a) && negb (in_state q TCP_ENDPOINT_PARTIAL a)
              && negb (seq_between ack_seq (StartSeq (ep q a)) (LastSeq (ep q a))))
             (Weird_ "bad_SYN_ack") a
      else if in_state q TCP_ENDPOINT_SYN_ACK_SENT a && (base_seq =? StartSeq (ep p a))
      then SetState q TCP_ENDPOINT_ESTABLISHED (FlipRoles a)
      else Weird_ "simultaneous_open" a in
    let a :=
      if in_state q TCP_ENDPOINT_SYN_SENT a then SetState q TCP_ENDPOINT_ESTABLISHED a
      else when (in_state q TCP_ENDPOINT_INACTIVE a) (Weird_ "unsolicited_SYN_response") a in
    let a := SetState p TCP_ENDPOINT_ESTABLISHED a in
    when (negb (in_state q TCP_ENDPOINT_PARTIAL a))
         (fun a => out [Timer "EnableStatusUpdateTimer"] (Event "connection_established" a)) a.

(** [UpdateInactiveState] *)
Definition UpdateInactiveState (p : bool) (base_seq ack_seq len : Z) (is_orig : bool) (f : TCP_Flags) (a : TCP_Analyzer)
    : TCP_Analyzer * bool * bool :=
  let q := negb p in
  let a := when (SYN f) (inactive_SYN p base_seq ack_seq is_orig f) a in
  let '(a, do_close, gen_event) :=
    if FIN f then
      let a := SetState p TCP_ENDPOINT_CLOSED a in
      (when (negb (in_state q TCP_ENDPOINT_PARTIAL a) && negb (SYN f)) (Weird_ "spontaneous_FIN") a, true, true)
    else (a, false, false) in
  let '(a, do_close, gen_event) :=
    if RST f then
      let a := SetState p TCP_ENDPOINT_RESET a in
      let is_reject := if is_orig then in_state q TCP_ENDPOINT_ESTABLISHED a
                       else in_state q TCP_ENDPOINT_SYN_SENT a || in_state q TCP_ENDPOINT_SYN_ACK_SENT a in
      (if is_reject then Event "connection_rejected" a
       else when (in_state q TCP_ENDPOINT_INACTIVE a) (Weird_ "spontaneous_RST") a, true, negb is_reject)
    else (a, do_close, gen_event) in
  let a :=
    if in_state p TCP_ENDPOINT_INACTIVE a then
      if negb is_orig && (len =? 0) && in_state (orig a) TCP_ENDPOINT_SYN_SENT a then a
      else
        let a := out [Timer "EnableStatusUpdateTimer"] (SetState p TCP_ENDPOINT_PARTIAL a) in
        when (in_state q TCP_ENDPOINT_PARTIAL a) (Event "partial_connection") a
    else a in
  (a, do_close, gen_event).

(** [UpdateSYN_SentState] *)
Definition UpdateSYN_SentState (p : bool) (base_seq last len : Z) (is_orig : bool) (f : TCP_Flags) (a : TCP_Analyzer)
    : TCP_Analyzer * bool * bool :=
  let q := negb p in
  let a :=
    if SYN f then
      let a := if is_orig
               then when (ACK f && negb (FIN f) && negb (RST f) && negb (in_state p TCP_ENDPOINT_SYN_ACK_SENT a))
                         (Weird_ "repeated_SYN_with_ack") a
               else when (negb (ACK f) && negb (in_state p TCP_ENDPOINT_SYN_SENT a)) (Weird_ "repeated_SYN_reply_wo_ack") a in
      when (negb (base_seq =? StartSeq (ep p a)))
           (fun a => upd p (InitSeqs base_seq last base_seq) (Weird_ "SYN_seq_jump" a)) a
    else a in
  let '(a, do_close, gen_event) :=
    if FIN f then
      let a := when (in_state q TCP_ENDPOINT_INACTIVE a || in_state q TCP_ENDPOINT_SYN_SENT a) (Weird_ "inappropriate_FIN") a in
      (SetState p TCP_ENDPOINT_CLOSED a, true, true)
    else (a, false, false) in
  if RST f then (ConnectionReset (SetState p TCP_ENDPOINT_RESET a), true, gen_event)
  else (when (0 <? len) (Weird_ "data_before_established") a, do_close, gen_event).

(** [UpdateEstablishedState] *)
Definition UpdateEstablishedState (p : bool) (base_seq last : Z) (f : TCP_Flags) (a : TCP_Analyzer) : TCP_Analyzer * bool * bool :=
  let q := negb p in
  let a :=
    if SYN f then
      let a := when (in_state p TCP_ENDPOINT_PARTIAL a && in_state q TCP_ENDPOINT_INACTIVE a && negb (ACK f))
                    (fun a => SetState p TCP_ENDPOINT_SYN_SENT (Weird_ "SYN_after_partial" a)) a in
      let a := when (0 <? ep_Size (ep p a)) (Weird_ "SYN_inside_connection") a in
      let a := when (negb (base_seq =? StartSeq (ep p a))) (Weird_ "SYN_seq_jump") a in
      upd p (InitSeqs base_seq last base_seq) a
    else a in
  let '(a, do_close, gen_event) :=
    if FIN f && negb (RST f) then
      let a := SetState p TCP_ENDPOINT_CLOSED a in
      (when (in_state q TCP_ENDPOINT_RESET a && state_eqb (prev_state (ep q a)) TCP_ENDPOINT_CLOSED)
            (SetState q TCP_ENDPOINT_CLOSED) a, true, true)
    else (a, false, false) in
  if RST f then
    let a := SetState p TCP_ENDPOINT_RESET a in
    (when (negb (in_state q TCP_ENDPOINT_RESET a) || negb (state_eqb (prev_state (ep q a)) TCP_ENDPOINT_ESTABLISHED))
          ConnectionReset a, true, gen_event)
  else (a, do_close, gen_event).

(** [UpdateClosedState] *)
Definition UpdateClosedState (p : bool) (delta_last : Z) (f : TCP_Flags) (a : TCP_Analyzer) : TCP_Analyzer * bool * bool :=
  let a := when (SYN f) (Weird_ "SYN_after_close") a in
  let a := when (FIN f && (0 <? delta_last)) (Weird_ "FIN_advanced_last_seq") a in
  if RST f && negb (in_state (negb p) TCP_ENDPOINT_CLOSED a) then
    let a := SetState p TCP_ENDPOINT_RESET a in
    (when (handles_connection_reset opts) (out [Timer "ResetTimer"]) a, negb (did_close (ep p a)), false)
  else (a, false, false).

(** [UpdateResetState] *)
Definition UpdateResetState (len : Z) (f : TCP_Flags) (a : TCP_Analyzer) : TCP_Analyzer :=
  let a := when (SYN f) (Weird_ "SYN_after_reset") a in
  let a := when (FIN f) (Weird_ "FIN_after_reset") a in
  when ((0 <? len) && negb (RST f)) (Weird_ "data_after_reset") a.

(** [UpdateStateMachine] *)
Definition UpdateStateMachine (p : bool) (base_seq ack_seq last len delta_last : Z) (is_orig : bool) (f : TCP_Flags)
    (a : TCP_Analyzer) : TCP_Analyzer * bool * bool :=
  match state_of p a with
  | TCP_ENDPOINT_INACTIVE => UpdateInactiveState p base_seq ack_seq len is_orig f a
  | TCP_ENDPOINT_SYN_SENT | TCP_ENDPOINT_SYN_ACK_SENT => UpdateSYN_SentState p base_seq last len is_orig f a
  | TCP_ENDPOINT_ESTABLISHED | TCP_ENDPOINT_PARTIAL => UpdateEstablishedState p base_seq last f a
  | TCP_ENDPOINT_CLOSED => UpdateClosedState p delta_last f a
  | TCP_ENDPOINT_RESET => (UpdateResetState len f a, false, false)
  end.

(** [DeliverData], with [TCP_Endpoint::DataSent] *)
Definition DeliverData (data : list Z) (len caplen : Z) (p : bool) (base_seq : Z) (f : TCP_Flags) (a : TCP_Analyzer) : option TCP_Analyzer :=
  let data_seq := swrap 32 (base_seq - StartSeq (ep p a)) in
  let data_seq := if SYN f then int_add data_seq 1 else data_seq in
  let r := match contents_processor (ep p a) with
           | Some r =>
               if len <=? caplen then
                 match DataSent (env_of p a) true data_seq len data r with
                 | Some (r, o, _) => Some (from_reassembler p r o a)
                 | None => None
                 end
               else Some a
           | None => Some a
           end in
  option_map (when (has_packet_children opts) (out [Children "NextPacket"])) r.

(** [CheckPIA_FirstPacket] *)
Definition CheckPIA_FirstPacket (is_orig : bool) (a : TCP_Analyzer) : TCP_Analyzer :=
  let bit := if is_orig then 1 else 2 in
  if Z.land (first_packet_seen a) bit =? 0
  then set_bits (Z.lor (first_packet_seen a) bit) (is_partial a) (is_active a) (seen_first_ACK a)
         (when (has_PIA opts) (out [FirstPacket is_orig]) a)
  else a.

(** What the analyzer is given: the bytes after the IP header, their length on the wire and
    as captured, the direction, fields of the IP header, the time, and whether a gap report
    is due. *)
Record Packet := {
  pk_data : list Z; pk_len : Z; pk_caplen : Z; pk_is_orig : bool; pk_TTL : Z; pk_IP_ID : Z; pk_time : Z; pk_report_due : bool }.

(** [DeliverPacket] in three parts; [data] follows the header.  First, what precedes
    [ProcessFlags]; *)
Definition before_flags (k : Packet) (len : Z) (p : bool) (a : TCP_Analyzer) : TCP_Analyzer :=
  let tp := pk_data k in
  let f := mk_flags (th_flags tp) in
  let base_seq := th_seq tp in let ack_seq := th_ack tp in
  let a := CheckFlagCombos f p base_seq len a in
  let a := UpdateWindow p (th_win tp) base_seq ack_seq f a in
  if negb (BothClosed a) then set_conn (hist_seen a) (history a) (pk_time k) (weird a) (gaps a) (outs a) a else a.

(** then what follows it; *)
Definition after_flags (k : Packet) (tcp_hdr_len len caplen seq_len : Z) (p : bool) (a : TCP_Analyzer) : option TCP_Analyzer :=
  let tp := pk_data k in
  let data := skipn (Z.to_nat tcp_hdr_len) tp in
  let is_orig := pk_is_orig k in let t := pk_time k in
  let f := mk_flags (th_flags tp) in
  let base_seq := th_seq tp in let ack_seq := th_ack tp in
  let last := wrap 32 (base_seq + seq_len) in
  let a := when (in_state p TCP_ENDPOINT_INACTIVE a) (TransitionFromInactive t p base_seq last (SYN f)) a in
  let '(a, delta_last) := UpdateLastSeq p last f a in
  let a := upd p (fun e => set_seen {| start_time := start_time (seen e); last_time := t; last_TTL := pk_TTL k;
                                       last_IP_ID := pk_IP_ID k |} e) a in
  let '(a, do_close, gen_event) := UpdateStateMachine p base_seq ack_seq last len delta_last is_orig f a in
  let a := when (handles_tcp_packet opts)
                (out [tcp_packet is_orig f (wrap 32 (base_seq - StartSeq (ep p a)))
                        (if ACK f then wrap 32 (ack_seq - StartSeq (ep (negb p) a)) else 0) len
                        (firstn (Z.to_nat (Z.min caplen len)) data)]) a in
  let options := options_of tp in
  match (if handles_tcp_option opts && (sizeof_tcphdr <? tcp_hdr_len) && (tcp_hdr_len <=? wrap 32 caplen)
         then ParseTCPOptions (length options) is_orig options else Some ([], 0)) with
  | None => None
  | Some (os, _) =>
      let a := out os a in
      match (if (0 <? len) && ((len <=? caplen) || has_packet_children opts) && negb (RST f) && negb Skipping
             then DeliverData data len caplen p base_seq f a else Some a) with
      | None => None
      | Some a =>
          let a := ep_CheckEOF p a in
          let a := when do_close (ConnectionClosed p gen_event) a in
          let a := when (negb (reassembling a))
                        (out [ForwardPacket is_orig (wrap 32 (base_seq - StartSeq (ep p a))) data]) a in
          Some (CheckPIA_FirstPacket is_orig a)
      end
  end.

(** and the three together. *)
Definition process_packet (k : Packet) (tcp_hdr_len len caplen : Z) (p : bool) (a : TCP_Analyzer) : option TCP_Analyzer :=
  let tp := pk_data k in
  match ProcessFlags (pk_time k) (pk_report_due k) tp len len p (th_seq tp) (th_ack tp) (pk_is_orig k) (mk_flags (th_flags tp))
                     (before_flags k len p a) with
  | None => None
  | Some (a, seq_len) => after_flags k tcp_hdr_len len caplen seq_len p a
  end.

(** [DeliverPacket] *)
Definition DeliverPacket (k : Packet) (a : TCP_Analyzer) : option TCP_Analyzer :=
  let tp := pk_data k in
  match ExtractTCP_Header tp (pk_len k) (pk_caplen k) a with
  | (a, None) => Some a
  | (a, Some (tcp_hdr_len, len, caplen)) =>
      let a := when (handles_packet_contents opts)
                    (out [packet_contents (firstn (Z.to_nat (Z.min len caplen)) (skipn (Z.to_nat tcp_hdr_len) tp))]) a in
      let p := if pk_is_orig k then orig a else negb (orig a) in
      match ValidateChecksum tp p len caplen a with
      | None => None
      | Some (a, false) => Some a
      | Some (a, true) => process_packet k tcp_hdr_len len caplen p a
      end
  end.

(** ** Timers, reuse and the end *)

(** [AttemptTimer], [PartialCloseTimer], [ExpireTimer] and [ResetTimer] *)
Definition AttemptTimer (a : TCP_Analyzer) : TCP_Analyzer :=
  when (is_active a && (in_state (orig a) TCP_ENDPOINT_SYN_SENT a || in_state (orig a) TCP_ENDPOINT_SYN_ACK_SENT a)
        && in_state (negb (orig a)) TCP_ENDPOINT_INACTIVE a)
       (fun a => out [Remove] (deactivate (Event "connection_attempt" a))) a.

Definition PartialCloseTimer (a : TCP_Analyzer) : TCP_Analyzer :=
  when (is_active a && negb (in_state true TCP_ENDPOINT_INACTIVE a) && negb (in_state false TCP_ENDPOINT_INACTIVE a)
        && negb (BothClosed a) && negb (in_state true TCP_ENDPOINT_RESET a || in_state false TCP_ENDPOINT_RESET a))
       (fun a => out [Remove] (Event "connection_partial_close" a)) a.

Definition ExpireTimer (t tcp_connection_linger : Z) (a : TCP_Analyzer) : TCP_Analyzer :=
  let o := orig a in let r := negb (orig a) in
  let again := out [Timer "ExpireTimer"] a in
  if negb (is_active a) then a
  else if negb (conn_last_time a + tcp_connection_linger <? t) then again
  else if IsClosed a && (BothClosed a || (in_state o TCP_ENDPOINT_RESET a || in_state r TCP_ENDPOINT_RESET a)
                         || (in_state o TCP_ENDPOINT_INACTIVE a || in_state r TCP_ENDPOINT_INACTIVE a))
  then out [Remove] (deactivate (Event "connection_timeout" a))
  else if in_state r TCP_ENDPOINT_INACTIVE a then
    if in_state o TCP_ENDPOINT_SYN_SENT a || in_state o TCP_ENDPOINT_SYN_ACK_SENT a
    then if handles_connection_attempt opts then again else out [Remove] (deactivate (Event "connection_timeout" a))
    else if in_state o TCP_ENDPOINT_INACTIVE a then out [Remove] (Event "connection_timeout" a)
    else again
  else again.

Definition ResetTimer (a : TCP_Analyzer) : TCP_Analyzer :=
  if negb (is_active a) then a else out [Remove] (when (negb (BothClosed a)) ConnectionReset a).

(** [IsReuse]; [pkt] is the TCP header of a packet of a connection that is known. *)
Definition IsReuse (t tcp_connection_linger : Z) (pkt : list Z) (a : TCP_Analyzer) : TCP_Analyzer * bool :=
  let f := mk_flags (th_flags pkt) in
  let r := negb (orig a) in
  let neither_reset := negb (in_state (orig a) TCP_ENDPOINT_RESET a) && negb (in_state r TCP_ENDPOINT_RESET a) in
  if th_off pkt <? sizeof_tcphdr / 4 then (a, false)
  else if negb (SYN f) then (a, false)
  else if ACK f && negb (in_state (orig a) TCP_ENDPOINT_INACTIVE a) then (a, false)
  else
    let conn_orig := if ACK f then r else orig a in
    if negb (IsClosed a) then
      let base_seq := th_seq pkt in
      if base_seq =? StartSeq (ep conn_orig a) then (a, false)
      else if negb (ACK f) && in_state conn_orig TCP_ENDPOINT_SYN_ACK_SENT a && in_state r TCP_ENDPOINT_INACTIVE a
              && (base_seq =? StartSeq (ep r a))
      then (a, false)
      else (Weird_ (if in_state conn_orig TCP_ENDPOINT_SYN_SENT a then "SYN_seq_jump" else "active_connection_reuse") a, true)
    else if (IsActive (ep (orig a) a) || IsActive (ep r a)) && neither_reset then (Weird_ "active_connection_reuse" a, true)
    else if (t - conn_last_time a <? tcp_connection_linger) && neither_reset then (Weird_ "premature_connection_reuse" a, true)
    else (a, true).

(** [TCP_Analyzer::Done]; [pending]: the event [connection_pending] is handled. *)
Definition ep_Done (p : bool) (a : TCP_Analyzer) : TCP_Analyzer :=
  match contents_processor (ep p a) with
  | Some r => out (map (Stream (is_orig (ep p a))) (Done (env_of p a) r)) a
  | None => a
  end.

Definition tcp_Done (pending : bool) (a : TCP_Analyzer) : TCP_Analyzer :=
  let a := when (pending && is_active a && negb (BothClosed a)) (Event "connection_pending") a in
  ep_Done (negb (orig a)) (ep_Done (orig a) a).

(** [UpdateEndpointVal]: the fields of the endpoint that the scripts see. *)
Definition UpdateEndpointVal (p : bool) (a : TCP_Analyzer) : list Z :=
  let e := ep p a in
  [ep_Size e; match ep_state e with
              | TCP_ENDPOINT_INACTIVE => 0 | TCP_ENDPOINT_SYN_SENT => 1 | TCP_ENDPOINT_SYN_ACK_SENT => 2
              | TCP_ENDPOINT_PARTIAL => 3 | TCP_ENDPOINT_ESTABLISHED => 4 | TCP_ENDPOINT_CLOSED => 5
              | TCP_ENDPOINT_RESET => 6
              end;
   LastSeq e; window (win e); window_scale (win e); window_seq (win e); last_TTL (seen e); last_IP_ID (seen e)].

(** [HadGap] and the filter of [TCP_ApplicationAnalyzer::ProtocolViolation]: whether a
    violation is passed on. *)
Definition HadGap (p : bool) (a : TCP_Analyzer) : bool :=
  match contents_processor (ep p a) with Some r => had_gap r | None => false end.
Definition passes_violation (a : TCP_Analyzer) : bool :=
  negb (is_partial a || HadGap (negb (orig a)) a || HadGap (orig a) a).

(** Packets one after the other. *)
Fixpoint deliver_packets (ks : list Packet) (a : TCP_Analyzer) : option TCP_Analyzer :=
  match ks with
  | [] => Some a
  | k :: ks => match DeliverPacket k a with Some a => deliver_packets ks a | None => None end
  end.

End Analyzer.
