(* ===== verification/TcpGaps.v ===== *)
(** * The gap counters and the TCP analyzer

    Bro counts acknowledgements and gaps over all connections ([tot_ack_events] and the other
    counters of [Stats.cc]).  What the analyzer of a connection does with a packet does not
    depend on them, unless the event [gap_report] is due: the result is the same but for
    the counters. *)
From S2P Require Import Prelude Bytes CLib TelexUtil TelexTcp Reassem BroTcp.
From Stdlib Require Import String ZArith Lia List Bool.
Import ListNotations.
Open Scope Z_scope.
Open Scope list_scope.

(** A function of the analyzer that leaves the counters alone and does not read them. *)
Definition blind (f : TCP_Analyzer -> TCP_Analyzer) : Prop := forall g a, f (set_gaps g a) = set_gaps g (f a).

Lemma ep_gaps p g a : ep p (set_gaps g a) = ep p a.
Proof. now destruct p. Qed.

Lemma env_gaps opts p g a : env_of opts p (set_gaps g a) = env_of opts p a.
Proof. now destruct p. Qed.

Lemma upd_gaps p f g a : upd p f (set_gaps g a) = set_gaps g (upd p f a).
Proof. now destruct p. Qed.

Lemma out_gaps o g a : out o (set_gaps g a) = set_gaps g (out o a).
Proof. reflexivity. Qed.

Lemma Weird_gaps n g a : Weird_ n (set_gaps g a) = set_gaps g (Weird_ n a).
Proof. reflexivity. Qed.

Lemma set_bits_gaps n b c d g a : set_bits n b c d (set_gaps g a) = set_gaps g (set_bits n b c d a).
Proof. reflexivity. Qed.

Lemma set_deferred_gaps b c g a : set_deferred b c (set_gaps g a) = set_gaps g (set_deferred b c a).
Proof. reflexivity. Qed.

Lemma if_gaps (c : bool) g a b : (if c then set_gaps g a else set_gaps g b) = set_gaps g (if c then a else b).
Proof. now destruct c. Qed.

Lemma when_gaps (c : bool) f g a : blind f -> when c f (set_gaps g a) = set_gaps g (when c f a).
Proof. intros H. destruct c; [apply H|reflexivity]. Qed.

Create Rewrite HintDb blind.
#[export] Hint Rewrite ep_gaps env_gaps upd_gaps out_gaps Weird_gaps set_bits_gaps set_deferred_gaps if_gaps : blind.

Ltac proj := repeat match goal with
  | |- context [orig (set_gaps ?g ?a)] => change (orig (set_gaps g a)) with (orig a)
  | |- context [first_packet_seen (set_gaps ?g ?a)] => change (first_packet_seen (set_gaps g a)) with (first_packet_seen a)
  | |- context [is_partial (set_gaps ?g ?a)] => change (is_partial (set_gaps g a)) with (is_partial a)
  | |- context [is_active (set_gaps ?g ?a)] => change (is_active (set_gaps g a)) with (is_active a)
  | |- context [close_deferred (set_gaps ?g ?a)] => change (close_deferred (set_gaps g a)) with (close_deferred a)
  | |- context [deferred_gen_event (set_gaps ?g ?a)] => change (deferred_gen_event (set_gaps g a)) with (deferred_gen_event a)
  | |- context [seen_first_ACK (set_gaps ?g ?a)] => change (seen_first_ACK (set_gaps g a)) with (seen_first_ACK a)
  | |- context [reassembling (set_gaps ?g ?a)] => change (reassembling (set_gaps g a)) with (reassembling a)
  | |- context [weird (set_gaps ?g ?a)] => change (weird (set_gaps g a)) with (weird a)
  | |- context [outs (set_gaps ?g ?a)] => change (outs (set_gaps g a)) with (outs a)
  | |- context [hist_seen (set_gaps ?g ?a)] => change (hist_seen (set_gaps g a)) with (hist_seen a)
  end.

(** Moves the counters outwards. *)
Ltac blind_step :=
  first [ progress proj
        | progress autorewrite with blind
        | match goal with |- context [when ?c ?f (set_gaps ?g ?a)] => rewrite (when_gaps c f g a) by (intros ? ?; cbv beta; repeat (progress (proj; autorewrite with blind)); reflexivity) end ].
Ltac blinds := repeat blind_step.

Lemma SetState_gaps p st g a : SetState p st (set_gaps g a) = set_gaps g (SetState p st a).
Proof. unfold SetState. cbv zeta. blinds. reflexivity. Qed.

Lemma Event_gaps n g a : Event n (set_gaps g a) = set_gaps g (Event n a).
Proof. reflexivity. Qed.

Lemma AddHistory_gaps p c g a : AddHistory p c (set_gaps g a) = set_gaps g (AddHistory p c a).
Proof. unfold AddHistory. blinds. reflexivity. Qed.

Lemma deactivate_gaps g a : deactivate (set_gaps g a) = set_gaps g (deactivate a).
Proof. reflexivity. Qed.

#[export] Hint Rewrite SetState_gaps Event_gaps AddHistory_gaps deactivate_gaps : blind.

Lemma in_state_gaps p st g a : in_state p st (set_gaps g a) = in_state p st a.
Proof. now destruct p. Qed.

Lemma CheckHistory_gaps p m c g a : CheckHistory p m c (set_gaps g a) = let '(a', b) := CheckHistory p m c a in (set_gaps g a', b).
Proof. unfold CheckHistory. cbv zeta. blinds. destruct (_ =? 0); reflexivity. Qed.

Lemma note_control_gaps p m c s l g a : note_control p m c s l (set_gaps g a) = set_gaps g (note_control p m c s l a).
Proof. unfold note_control. rewrite CheckHistory_gaps. destruct (CheckHistory p m c a) as [a1 b]. blinds. reflexivity. Qed.

#[export] Hint Rewrite in_state_gaps note_control_gaps : blind.

Lemma CheckFlagCombos_gaps f p b l g a : CheckFlagCombos f p b l (set_gaps g a) = set_gaps g (CheckFlagCombos f p b l a).
Proof.
  unfold CheckFlagCombos. cbv zeta. blinds. rewrite !CheckHistory_gaps.
  repeat match goal with |- context [CheckHistory ?p ?m ?c ?x] => destruct (CheckHistory p m c x) end.
  repeat match goal with |- context [if ?c then (_, _) else _] => destruct c end; cbn [fst]; blinds; reflexivity.
Qed.

Lemma UpdateWindow_gaps p w s k f g a : UpdateWindow p w s k f (set_gaps g a) = set_gaps g (UpdateWindow p w s k f a).
Proof. unfold UpdateWindow. cbv zeta. blinds. reflexivity. Qed.

#[export] Hint Rewrite CheckFlagCombos_gaps UpdateWindow_gaps : blind.

Section Blind.

Context (opts : TcpOptions) (base : bool -> Z).

(** Results that come with the analyzer. *)
Definition gaps1 {B} (g : GapStats) (x : TCP_Analyzer * B) : TCP_Analyzer * B := let '(a, b) := x in (set_gaps g a, b).
Definition gaps2 {B C} (g : GapStats) (x : TCP_Analyzer * B * C) : TCP_Analyzer * B * C := let '(a, b, c) := x in (set_gaps g a, b, c).

Lemma ProcessSYN_gaps tp l p s k o f g a :
  ProcessSYN opts tp l p s k o f (set_gaps g a) = option_map (gaps1 g) (ProcessSYN opts tp l p s k o f a).
Proof.
  unfold ProcessSYN. cbv zeta. destruct (BuildSYNPacketVal tp) as [[[sc M] S]|]; [|reflexivity]. blinds. reflexivity.
Qed.

Lemma ProcessFIN_gaps t p l s g a : ProcessFIN opts t p l s (set_gaps g a) = gaps1 g (ProcessFIN opts t p l s a).
Proof.
  unfold ProcessFIN. cbv zeta. blinds. repeat match goal with |- context [if ?c then (_, _) else _] => destruct c end; blinds; reflexivity.
Qed.

Lemma ProcessRST_gaps t p l s g a : ProcessRST opts t p l s (set_gaps g a) = gaps1 g (ProcessRST opts t p l s a).
Proof.
  unfold ProcessRST. cbv zeta. blinds. repeat match goal with |- context [if ?c then (_, _) else _] => destruct c end; blinds; reflexivity.
Qed.

Lemma DataPending_gaps p g a : DataPending opts p (set_gaps g a) = DataPending opts p a.
Proof. unfold DataPending. now blinds. Qed.

Lemma BothClosed_gaps g a : BothClosed (set_gaps g a) = BothClosed a.
Proof. reflexivity. Qed.

Lemma ConnectionFinished_gaps h g a : ConnectionFinished h (set_gaps g a) = set_gaps g (ConnectionFinished h a).
Proof. reflexivity. Qed.

Lemma ConnectionReset_gaps g a : ConnectionReset (set_gaps g a) = set_gaps g (ConnectionReset a).
Proof. reflexivity. Qed.

#[local] Hint Rewrite DataPending_gaps BothClosed_gaps ConnectionFinished_gaps ConnectionReset_gaps : blind.

Lemma ConnectionClosed_gaps p e g a : ConnectionClosed opts p e (set_gaps g a) = set_gaps g (ConnectionClosed opts p e a).
Proof. unfold ConnectionClosed. cbv zeta. blinds. reflexivity. Qed.

#[local] Hint Rewrite ConnectionClosed_gaps : blind.

Lemma EndpointEOF_gaps p g a : tcp_EndpointEOF opts p (set_gaps g a) = set_gaps g (tcp_EndpointEOF opts p a).
Proof. unfold tcp_EndpointEOF. cbv zeta. blinds. reflexivity. Qed.

#[local] Hint Rewrite EndpointEOF_gaps : blind.

Lemma from_reassembler_gaps p r o g a : from_reassembler opts p r o (set_gaps g a) = set_gaps g (from_reassembler opts p r o a).
Proof. unfold from_reassembler. cbv zeta. blinds. reflexivity. Qed.

#[local] Hint Rewrite from_reassembler_gaps : blind.

Lemma CheckEOF_gaps p g a : ep_CheckEOF opts p (set_gaps g a) = set_gaps g (ep_CheckEOF opts p a).
Proof. unfold ep_CheckEOF. blinds. destruct (contents_processor _) as [r|]; [|reflexivity]. destruct (CheckEOF _ r). now blinds. Qed.

Lemma TransitionFromInactive_gaps t p b l s g a :
  TransitionFromInactive t p b l s (set_gaps g a) = set_gaps g (TransitionFromInactive t p b l s a).
Proof. unfold TransitionFromInactive. now blinds. Qed.

Lemma UpdateLastSeq_gaps p l f g a : UpdateLastSeq p l f (set_gaps g a) = gaps1 g (UpdateLastSeq p l f a).
Proof. unfold UpdateLastSeq. cbv zeta. blinds. reflexivity. Qed.

Lemma FlipRoles_gaps g a : FlipRoles (set_gaps g a) = set_gaps g (FlipRoles a).
Proof. reflexivity. Qed.

#[local] Hint Rewrite CheckEOF_gaps TransitionFromInactive_gaps FlipRoles_gaps : blind.

Lemma inactive_SYN_gaps p b k o f g a : inactive_SYN opts p b k o f (set_gaps g a) = set_gaps g (inactive_SYN opts p b k o f a).
Proof. unfold inactive_SYN. cbv zeta. blinds. reflexivity. Qed.

#[local] Hint Rewrite inactive_SYN_gaps : blind.

(** One [let] of a handler at a time. *)
Ltac let_step := lazymatch goal with
  | |- (let x := negb ?p in @?B x) = ?G (let y := negb ?p in @?B' y) => change (B (negb p) = G (B' (negb p))); cbv beta
  | |- (let x := ?F in @?B x) = gaps2 ?g (let y := ?F' in @?B' y) =>
      let H := fresh in
      assert (H : F = set_gaps g F') by (cbv zeta; blinds; reflexivity);
      change (B F = gaps2 g (B' F')); rewrite H; clear H; generalize F'; intro; cbv beta
  | |- (match ?E with pair _ _ => _ end) = gaps2 ?g (match ?E' with pair _ _ => _ end) =>
      let H := fresh in
      assert (H : E = gaps2 g E') by
        (match E with if ?c then _ else _ => destruct c end; unfold gaps2; cbv zeta; blinds; reflexivity);
      rewrite H; clear H; destruct E' as [[? ?] ?]; unfold gaps2 at 1; cbv beta iota
  end.

Lemma UpdateInactiveState_gaps p b k n o f g a :
  UpdateInactiveState opts p b k n o f (set_gaps g a) = gaps2 g (UpdateInactiveState opts p b k n o f a).
Proof. unfold UpdateInactiveState. repeat let_step. unfold gaps2. cbv zeta. blinds. reflexivity. Qed.

Lemma UpdateSYN_SentState_gaps p b l n o f g a :
  UpdateSYN_SentState p b l n o f (set_gaps g a) = gaps2 g (UpdateSYN_SentState p b l n o f a).
Proof. unfold UpdateSYN_SentState. repeat let_step. destruct (RST f); unfold gaps2; blinds; reflexivity. Qed.

Lemma UpdateEstablishedState_gaps p b l f g a :
  UpdateEstablishedState p b l f (set_gaps g a) = gaps2 g (UpdateEstablishedState p b l f a).
Proof. unfold UpdateEstablishedState. repeat let_step. destruct (RST f); unfold gaps2; cbv zeta; blinds; reflexivity. Qed.

Lemma UpdateClosedState_gaps p d f g a : UpdateClosedState opts p d f (set_gaps g a) = gaps2 g (UpdateClosedState opts p d f a).
Proof. unfold UpdateClosedState. repeat let_step. blinds. destruct (RST f && _); unfold gaps2; cbv zeta; blinds; reflexivity. Qed.

Lemma UpdateResetState_gaps n f g a : UpdateResetState n f (set_gaps g a) = set_gaps g (UpdateResetState n f a).
Proof. unfold UpdateResetState. cbv zeta. now blinds. Qed.

Lemma UpdateStateMachine_gaps p b k l n d o f g a :
  UpdateStateMachine opts p b k l n d o f (set_gaps g a) = gaps2 g (UpdateStateMachine opts p b k l n d o f a).
Proof.
  unfold UpdateStateMachine, state_of. blinds. destruct (ep_state (ep p a));
    rewrite ?UpdateInactiveState_gaps, ?UpdateSYN_SentState_gaps, ?UpdateEstablishedState_gaps, ?UpdateClosedState_gaps, ?UpdateResetState_gaps; reflexivity.
Qed.

Lemma DeliverData_gaps d l c p b f g a :
  DeliverData opts d l c p b f (set_gaps g a) = option_map (set_gaps g) (DeliverData opts d l c p b f a).
Proof.
  unfold DeliverData. cbv zeta. blinds. destruct (contents_processor _) as [r|]; cbn [option_map]; [|now blinds].
  destruct (l <=? c); cbn [option_map]; [|now blinds]. destruct (DataSent _ _ _ _ _ r) as [[[r1 o] n]|]; cbn [option_map]; [now blinds|reflexivity].
Qed.

Lemma CheckPIA_gaps o g a : CheckPIA_FirstPacket opts o (set_gaps g a) = set_gaps g (CheckPIA_FirstPacket opts o a).
Proof. unfold CheckPIA_FirstPacket. cbv zeta. blinds. reflexivity. Qed.

(** The acknowledgement counts: the counters differ from then on. *)
Lemma AckReceived_gaps env seq r g1 g2 :
  match AckReceived env false seq r g1, AckReceived env false seq r g2 with
  | Some (r1, _, o1), Some (r2, _, o2) => r1 = r2 /\ o1 = o2
  | None, None => True
  | _, _ => False
  end.
Proof.
  unfold AckReceived. destruct (_ <=? 0); [auto|]. destruct (TrimToSeq _ _ _ r) as [[[r1 o1] m]|]; [|exact I].
  destruct (_ && _); destruct (CheckEOF env r1); auto.
Qed.

Definition same_but_gaps (x y : option TCP_Analyzer) : Prop := exists g, x = option_map (set_gaps g) y.

Lemma same_gaps g (y : TCP_Analyzer) : same_but_gaps (Some (set_gaps g y)) (Some y).
Proof. now exists g. Qed.

Lemma ep_AckReceived_gaps p s g a : same_but_gaps (ep_AckReceived opts false p s (set_gaps g a)) (ep_AckReceived opts false p s a).
Proof.
  unfold ep_AckReceived. blinds. destruct (contents_processor _) as [r|]; [|apply same_gaps].
  pose proof (AckReceived_gaps (env_of opts p a) s r g (gaps a)) as A. change (gaps (set_gaps g a)) with g.
  destruct (AckReceived _ _ _ _ g) as [[[r1 g1] o1]|], (AckReceived _ _ _ _ (gaps a)) as [[[r2 g2] o2]|]; try contradiction; [|now exists g].
  destruct A as [-> ->]. exists g1. cbn [option_map]. rewrite !from_reassembler_gaps. reflexivity.
Qed.

Lemma ProcessACK_gaps p k o f g a : same_but_gaps (ProcessACK opts false p k o f (set_gaps g a)) (ProcessACK opts false p k o f a).
Proof.
  unfold ProcessACK. cbv zeta. blinds. apply ep_AckReceived_gaps.
Qed.

Lemma ProcessFlags_gaps t tp l n p b k o f g a :
  exists g', ProcessFlags opts t false tp l n p b k o f (set_gaps g a) = option_map (gaps1 g') (ProcessFlags opts t false tp l n p b k o f a).
Proof.
  unfold ProcessFlags.
  assert (E1 : (if SYN f then ProcessSYN opts tp n p b k o f (set_gaps g a) else Some (set_gaps g a, n)) =
               option_map (gaps1 g) (if SYN f then ProcessSYN opts tp n p b k o f a else Some (a, n)))
    by (destruct (SYN f); [apply ProcessSYN_gaps|reflexivity]).
  rewrite E1. clear E1. destruct (if SYN f then _ else _) as [[a1 n1]|]; [|now exists g]. cbn [option_map gaps1].
  assert (E2 : (if FIN f then ProcessFIN opts t p n1 b (set_gaps g a1) else (set_gaps g a1, n1)) =
               gaps1 g (if FIN f then ProcessFIN opts t p n1 b a1 else (a1, n1))) by (destruct (FIN f); [apply ProcessFIN_gaps|reflexivity]).
  rewrite E2. clear E2. destruct (if FIN f then _ else _) as [a2 n2]. cbn [gaps1].
  assert (E3 : (if RST f then ProcessRST opts t p l n2 (set_gaps g a2) else (set_gaps g a2, n2)) =
               gaps1 g (if RST f then ProcessRST opts t p l n2 a2 else (a2, n2))) by (destruct (RST f); [apply ProcessRST_gaps|reflexivity]).
  rewrite E3. clear E3. destruct (if RST f then _ else _) as [a3 n3]. cbn [gaps1]. destruct (ACK f); [|now exists g].
  destruct (ProcessACK_gaps p k o f g a3) as (g' & ->). exists g'. now destruct (ProcessACK _ _ _ _ _ _ a3).
Qed.

Lemma before_flags_gaps k len p g a : before_flags k len p (set_gaps g a) = set_gaps g (before_flags k len p a).
Proof.
  unfold before_flags. cbv zeta. blinds. destruct (negb _); reflexivity.
Qed.

Lemma after_flags_gaps k h len caplen n p g a :
  after_flags opts k h len caplen n p (set_gaps g a) = option_map (set_gaps g) (after_flags opts k h len caplen n p a).
Proof.
  unfold after_flags. cbv zeta. blinds.
  set (a6 := when (in_state p TCP_ENDPOINT_INACTIVE a) _ a). clearbody a6. rewrite UpdateLastSeq_gaps.
  destruct (UpdateLastSeq p _ _ a6) as [a7 d7]. cbn [gaps1]. blinds. rewrite UpdateStateMachine_gaps.
  destruct (UpdateStateMachine _ _ _ _ _ _ _ _ _ _) as [[a9 dc] ge]. cbn [gaps2]. blinds.
  set (a10 := when (handles_tcp_packet opts) _ a9). clearbody a10.
  match goal with |- match ?x with Some _ => _ | None => None end = _ => destruct x as [[os r]|]; [|reflexivity] end.
  rewrite out_gaps. generalize (out os a10). intros a11. rewrite DeliverData_gaps.
  assert (E : (if (0 <? len) && ((len <=? caplen) || has_packet_children opts) && negb (RST (mk_flags (th_flags (pk_data k)))) && negb (Skipping (base_env opts))
               then option_map (set_gaps g) (DeliverData opts (skipn (Z.to_nat h) (pk_data k)) len caplen p (th_seq (pk_data k)) (mk_flags (th_flags (pk_data k))) a11)
               else Some (set_gaps g a11)) =
              option_map (set_gaps g) (if (0 <? len) && ((len <=? caplen) || has_packet_children opts) && negb (RST (mk_flags (th_flags (pk_data k)))) && negb (Skipping (base_env opts))
               then DeliverData opts (skipn (Z.to_nat h) (pk_data k)) len caplen p (th_seq (pk_data k)) (mk_flags (th_flags (pk_data k))) a11 else Some a11))
    by now destruct (_ && _).
  rewrite E. clear E. destruct (if _ && _ then _ else Some a11) as [a12|]; [|reflexivity]. cbn [option_map]. f_equal.
  blinds. rewrite CheckPIA_gaps. reflexivity.
Qed.

(** Whatever the counters, a packet has the same effect on its connection. *)
Lemma DeliverPacket_gaps k g a : pk_report_due k = false -> same_but_gaps (DeliverPacket opts base k (set_gaps g a)) (DeliverPacket opts base k a).
Proof.
  intros Hd. unfold DeliverPacket, ExtractTCP_Header. cbv zeta. destruct (_ <? sizeof_tcphdr); [apply (same_gaps g (Weird_ _ a))|].
  destruct (_ || _); [apply (same_gaps g (Weird_ _ a))|]. rewrite when_gaps by (intros ? ?; reflexivity).
  set (a1 := when (handles_packet_contents opts) _ a). clearbody a1. proj. set (p := if pk_is_orig k then _ else _). clearbody p.
  assert (P : forall h len caplen, same_but_gaps (process_packet opts k h len caplen p (set_gaps g a1)) (process_packet opts k h len caplen p a1)).
  { intros h len caplen. unfold process_packet. cbv zeta. rewrite before_flags_gaps, Hd.
    destruct (ProcessFlags_gaps (pk_time k) (pk_data k) len len p (th_seq (pk_data k)) (th_ack (pk_data k)) (pk_is_orig k) (mk_flags (th_flags (pk_data k))) g (before_flags k len p a1))
      as (g' & ->).
    destruct (ProcessFlags _ _ _ _ _ _ _ _ _ _ _ (before_flags k len p a1)) as [[a5 n5]|]; [|now exists g]. cbn [option_map gaps1].
    rewrite after_flags_gaps. now exists g'. }
  unfold ValidateChecksum. destruct (_ || _); [apply P|]. destruct (ValidChecksum _ _ _) as [[|]|]; [apply P| |now exists g].
  rewrite Weird_gaps, CheckHistory_gaps. destruct (CheckHistory _ _ _ _) as [a2 b]. apply same_gaps.
Qed.

End Blind.
