(* ===== verification/TcpThms.v ===== *)
(** * What Bro's TCP analyzer gets right

    Theorems on [BroTcp]: the checksum test is that of the Internet checksum, the loops over
    options end, the state is well-typed after any packets, the three-way handshake
    establishes the connection, and the data of an established connection reaches the
    reassemblers with the right relative numbers. *)
From S2P Require Import Prelude Bytes CLib TelexUtil TelexTcp Reassem ReassemThms ReassemWrap BroTcp.
From Stdlib Require Import String ZArith Lia List Bool.
Import ListNotations.
Open Scope Z_scope.
Open Scope list_scope.

(** ** Checksums *)

(** The sum in the host's order. *)
Fixpoint le_words (b : list Z) : Z :=
  match b with
  | a :: c :: r => a + 256 * c + le_words r
  | [a] => a
  | [] => 0
  end.

(** Induction by pairs. *)
Lemma pairs_ind (P : list Z -> Prop) :
  P [] -> (forall a, P [a]) -> (forall a c r, P r -> P (a :: c :: r)) -> forall b, P b.
Proof.
  intros H0 H1 H2 b. enough (P b /\ forall a, P (a :: b)) by tauto.
  induction b as [|x b [IH1 IH2]]; [auto|]. split; [apply IH2|]. intros a. now apply H2.
Qed.

Lemma words_le b : exists k, 256 * le_words b = words b + 65535 * k.
Proof.
  induction b as [|a|a c r [k IH]] using pairs_ind; cbn [words le_words].
  - exists 0. lia.
  - exists 0. lia.
  - exists (c + k). lia.
Qed.

Lemma htons_mod x : 0 <= x < 65536 -> exists k, 256 * ntohs x = x + 65535 * k.
Proof.
  intros Hx. unfold ntohs. exists (x mod 256). pose proof (Z.div_mod x 256 ltac:(lia)).
  rewrite (Z.mod_small (x / 256)) by (split; [apply Z.div_pos; lia|apply Z.div_lt_upper_bound; lia]). lia.
Qed.

Lemma ntohs_bound x : 0 <= ntohs x < 65536.
Proof. unfold ntohs. pose proof (Z.mod_pos_bound x 256 ltac:(lia)). pose proof (Z.mod_pos_bound (x / 256) 256 ltac:(lia)). lia. Qed.

Lemma le_words_bound b : Forall is_byte b -> 0 <= le_words b <= 65535 * ((Z.of_nat (length b) + 1) / 2).
Proof.
  induction b as [|a|a c r IH] using pairs_ind; intros H; cbn [le_words length].
  - cbn. lia.
  - inversion_clear H as [|? ? Ha _]. unfold is_byte in Ha. change ((Z.of_nat 1 + 1) / 2) with 1. lia.
  - inversion_clear H as [|? ? Ha H']. inversion_clear H' as [|? ? Hc Hr]. specialize (IH Hr). unfold is_byte in *.
    replace (Z.of_nat (S (S (length r))) + 1) with (1 * 2 + (Z.of_nat (length r) + 1)) by lia. rewrite Z.div_add_l by lia. lia.
Qed.

Lemma sum_shorts_words p : forall n s,
  Forall is_byte p -> (2 * n <= length p)%nat -> 0 <= s -> s + le_words (firstn (2 * n) p) < 2 ^ 32 ->
  sum_shorts p n s = s + le_words (firstn (2 * n) p).
Proof.
  induction p as [|a|a c r IH] using pairs_ind; intros [|n] s H Hn Hs Hb; cbn [length] in Hn; try lia; try (cbn; lia).
  inversion_clear H as [|? ? Ha H']. inversion_clear H' as [|? ? Hc Hr]. replace (2 * S n)%nat with (S (S (2 * n))) in * by lia.
  cbn [firstn le_words sum_shorts skipn] in *. unfold load16. cbn [nth].
  pose proof (le_words_bound (firstn (2 * n) r) (Forall_firstn _ _ _ Hr)). unfold is_byte in *.
  rewrite wrap_small by (unfold in_width; lia). rewrite IH; [lia|assumption|lia|lia|lia].
Qed.

(** The folded sum. *)
Lemma fold_sum_spec s :
  0 <= s < 2 ^ 32 -> exists r k, fold_sum 3 s = Some r /\ 0 <= r <= 65535 /\ s = r + 65535 * k /\ (r = 0 <-> s = 0).
Proof.
  assert (St : forall n s, 65535 < s -> fold_sum (S n) s = fold_sum n (wrap 32 (s mod 65536 + s / 65536))).
  { intros n x Hx. cbn [fold_sum]. change 0xffff with 65535 at 1. rewrite (proj2 (Z.ltb_lt 65535 x) Hx). do 2 f_equal.
    change 0xffff with (2 ^ 16 - 1). rewrite land_mask, shiftr_div by lia. reflexivity. }
  assert (Sm : forall n s, s <= 65535 -> fold_sum n s = Some s).
  { intros n x Hx. destruct n; cbn [fold_sum]; change 0xffff with 65535; now rewrite (proj2 (Z.ltb_ge 65535 x) Hx). }
  intros Hs. destruct (Z_le_dec s 65535) as [H1|H1]; [exists s, 0; rewrite Sm by lia; repeat split; lia|].
  rewrite St by lia. pose proof (Z.div_mod s 65536 ltac:(lia)) as E1. pose proof (Z.mod_pos_bound s 65536 ltac:(lia)) as B1.
  assert (Q1 : 0 <= s / 65536 <= 65535) by (split; [apply Z.div_pos; lia|apply Z.lt_succ_r, Z.div_lt_upper_bound; lia]).
  rewrite wrap_small by (unfold in_width; lia). set (q := s / 65536) in *. set (m := s mod 65536) in *.
  destruct (Z_le_dec (m + q) 65535) as [H2|H2]; [exists (m + q), q; rewrite Sm by lia; repeat split; lia|].
  rewrite St by lia. assert (Q2 : (m + q) / 65536 = 1) by (symmetry; apply Z.div_unique with (r := m + q - 65536); lia).
  assert (R2 : (m + q) mod 65536 = m + q - 65536) by (rewrite Z.mod_eq, Q2 by lia; lia).
  rewrite Q2, R2, wrap_small by (unfold in_width; lia). exists (m + q - 65536 + 1), (q + 1). rewrite Sm by lia. repeat split; lia.
Qed.

(** The last odd byte is added apart. *)
Lemma le_words_odd b :
  (length b mod 2 = 1)%nat -> le_words b = le_words (firstn (2 * (length b / 2)) b) + nth (length b - 1) b 0.
Proof.
  induction b as [|a|a c r IH] using pairs_ind; intros H; [discriminate|reflexivity|].
  cbn [length] in *. replace (S (S (length r))) with (length r + 1 * 2)%nat in * by lia.
  rewrite Nat.Div0.mod_add in H. specialize (IH H). rewrite Nat.div_add by lia.
  replace (2 * (length r / 2 + 1))%nat with (S (S (2 * (length r / 2)))) by lia. cbn [firstn le_words].
  assert (length r <> 0)%nat by (intros E; rewrite E in H; discriminate).
  replace (length r + 1 * 2 - 1)%nat with (S (S (length r - 1))) by lia. rewrite IH.
  change (nth (S (S (length r - 1))) (a :: c :: r) 0) with (nth (length r - 1) r 0). lia.
Qed.

Lemma le_words_even (b : list Z) : (length b mod 2 = 0)%nat -> firstn (2 * (length b / 2)) b = b.
Proof. intros H. apply firstn_all2. pose proof (Nat.div_mod_eq (length b) 2). lia. Qed.

Lemma ones_complement_spec p b s :
  Forall is_byte p -> b = Z.of_nat (length p) -> 0 <= s -> s + 65535 * ((b + 1) / 2) < 2 ^ 32 ->
  exists r k, ones_complement_checksum p b s = Some r /\ 0 <= r <= 65535 /\
              s + le_words (firstn (2 * (length p / 2)) p) = r + 65535 * k /\
              (r = 0 <-> s + le_words (firstn (2 * (length p / 2)) p) = 0).
Proof.
  intros Hp -> Hs Hb. unfold ones_complement_checksum.
  replace (Z.to_nat (Z.of_nat (length p) / 2)) with (length p / 2)%nat
    by (rewrite <- (Nat2Z.id (length p / 2)), Nat2Z.inj_div; reflexivity).
  set (n := (length p / 2)%nat). assert (L : (2 * n <= length p)%nat) by (subst n; pose proof (Nat.div_mod_eq (length p) 2); lia).
  pose proof (le_words_bound (firstn (2 * n) p) (Forall_firstn _ _ _ Hp)) as B. rewrite length_firstn, Nat.min_l in B by lia.
  assert (M : (Z.of_nat (2 * n) + 1) / 2 <= (Z.of_nat (length p) + 1) / 2) by (apply Z.div_le_mono; lia).
  rewrite sum_shorts_words by (assumption || lia). apply fold_sum_spec. lia.
Qed.

(** The pseudo-header's part, with the addresses in host order. *)
Lemma checksum_base_spec src dst :
  Forall is_byte src -> Forall is_byte dst -> length src = 4%nat -> length dst = 4%nat ->
  exists r k, checksum_base src dst = Some (r + ntohs 6) /\ 0 <= r <= 65535 /\ le_words src + le_words dst = r + 65535 * k.
Proof.
  intros Hs Hd Ls Ld. unfold checksum_base.
  destruct (ones_complement_spec src 4 0 Hs ltac:(now rewrite Ls) ltac:(lia) ltac:(cbn; lia)) as (r1 & k1 & E1 & B1 & S1 & _).
  rewrite E1.
  destruct (ones_complement_spec dst 4 r1 Hd ltac:(now rewrite Ld) ltac:(lia) ltac:(cbn; lia)) as (r2 & k2 & E2 & B2 & S2 & _).
  rewrite E2. cbn [option_map]. pose proof (ntohs_bound 6). rewrite wrap_small by (unfold in_width; lia).
  rewrite firstn_all2 in S1 by (rewrite Ls; cbn; lia). rewrite firstn_all2 in S2 by (rewrite Ld; cbn; lia).
  exists r2, (k1 + k2). repeat split; lia.
Qed.

(** The byte that is left over when the shorts are added. *)
Definition odd_byte (tp : list Z) (len : Z) : Z := if len mod 2 =? 1 then nth (length tp - 1) tp 0 else 0.

Lemma odd_byte_bound tp len : Forall is_byte tp -> 0 <= odd_byte tp len <= 255.
Proof.
  intros Ht. unfold odd_byte. destruct (len mod 2 =? 1); [|lia].
  destruct (nth_in_or_default (length tp - 1) tp 0) as [I| ->]; [|lia].
  rewrite Forall_forall in Ht. apply Ht in I. unfold is_byte in I. lia.
Qed.

Lemma odd_byte_added tp len s :
  Forall is_byte tp -> 0 <= s < 2 ^ 20 ->
  (if len mod 2 =? 1 then wrap 32 (s + ntohs (wrap 16 (Z.shiftl (nth (Z.to_nat (Z.of_nat (length tp) - 1)) tp 0) 8))) else s)
  = s + odd_byte tp len.
Proof.
  intros Ht Hs. pose proof (odd_byte_bound tp len Ht) as B. unfold odd_byte in *. destruct (len mod 2 =? 1); [|lia].
  replace (Z.to_nat (Z.of_nat (length tp) - 1)) with (length tp - 1)%nat by lia.
  rewrite Z.shiftl_mul_pow2 by lia. rewrite (wrap_small 16) by (unfold in_width; lia).
  replace (ntohs (nth (length tp - 1) tp 0 * 2 ^ 8)) with (nth (length tp - 1) tp 0).
  - rewrite wrap_small by (unfold in_width; lia). reflexivity.
  - unfold ntohs. change (2 ^ 8) with 256. rewrite Z.mod_mul, Z.div_mul, Z.mod_small by lia. lia.
Qed.

Lemma le_words_parts tp len :
  len mod 2 = Z.of_nat (length tp) mod 2 -> odd_byte tp len + le_words (firstn (2 * (length tp / 2)) tp) = le_words tp.
Proof.
  intros Par. unfold odd_byte. change 2 with (Z.of_nat 2) in Par at 2. rewrite Par, <- Nat2Z.inj_mod.
  pose proof (Nat.mod_upper_bound (length tp) 2 ltac:(lia)).
  destruct (Nat.eq_dec (length tp mod 2) 1) as [E|E].
  - rewrite E. change (Z.of_nat 1 =? 1) with true. cbn iota. rewrite (le_words_odd tp E). ring.
  - assert (E0 : (length tp mod 2 = 0)%nat) by (clear -E H; destruct (length tp mod 2)%nat as [|[|?]]; lia).
    rewrite E0. cbn [Z.of_nat Z.eqb]. now rewrite le_words_even.
Qed.

(** A folded sum in host order is all ones exactly when the sum in network order is. *)
Lemma folded_all_ones r W k : 0 <= r <= 65535 -> r <> 0 -> 0 < W -> 256 * r = W + 65535 * k -> r = 65535 <-> sum_ok W.
Proof.
  intros Hr Hn HW T. unfold sum_ok. split.
  - intros ->. split; [lia|]. apply Z.mod_divide; [lia|]. exists (256 - k). lia.
  - intros [_ Hm]. apply Z.mod_divide in Hm; [|lia]. destruct Hm as [j Hj].
    assert (Dv : (65535 | 256 * r)) by (exists (j + k); lia).
    apply Z.gauss in Dv; [|reflexivity]. destruct Dv as [i Hi]. lia.
Qed.

(** C25: The checksum test of a segment in host order and with the parts of the pseudo-header
    added one by one, accepts exactly the segments whose one's complement sum in network
    order, pseudo-header included and an odd last byte padded, is all ones; the folding
    never runs out of rounds. *)
Theorem checksum_exact src dst tp len :
  Forall is_byte src -> Forall is_byte dst -> Forall is_byte tp -> length src = 4%nat -> length dst = 4%nat ->
  0 <= len -> th_off tp * 4 + len = Z.of_nat (length tp) -> Z.of_nat (length tp) < 65536 ->
  exists base v, checksum_base src dst = Some base /\ ValidChecksum base tp len = Some v /\
                 (v = true <-> sum_ok (words src + words dst + 6 + Z.of_nat (length tp) + words tp)).
Proof.
  intros Hs Hd Ht Ls Ld Hlen Htl Hmax. destruct (checksum_base_spec src dst Hs Hd Ls Ld) as (r & k & -> & B & S).
  exists (r + ntohs 6). unfold ValidChecksum. rewrite Htl. pose proof (ntohs_bound 6) as N6. pose proof (odd_byte_bound tp len Ht) as Bo.
  rewrite odd_byte_added by (assumption || lia). set (n := Z.of_nat (length tp)) in *.
  assert (Par : len mod 2 = n mod 2).
  { rewrite <- Htl. replace (th_off tp * 4 + len) with (len + th_off tp * 2 * 2) by lia. now rewrite Z.mod_add. }
  pose proof (ntohs_bound (wrap 16 n)) as Nn. rewrite (wrap_small 16 n) in * by (unfold in_width; lia).
  rewrite (wrap_small 32) by (unfold in_width; lia).
  destruct (ones_complement_spec tp n (r + ntohs 6 + odd_byte tp len + ntohs n) Ht eq_refl ltac:(lia)) as (r3 & k3 & E3 & B3 & S3 & Z3).
  { assert ((n + 1) / 2 <= 32768) by (apply Z.div_le_upper_bound; lia). lia. }
  rewrite E3. cbn [option_map]. exists (r3 =? 0xffff). split; [reflexivity|]. split; [reflexivity|].
  pose proof (le_words_parts tp len Par) as Le.
  destruct (words_le src) as [w1 W1]. destruct (words_le dst) as [w2 W2]. destruct (words_le tp) as [w3 W3].
  destruct (htons_mod 6 ltac:(lia)) as [w4 W4]. destruct (htons_mod n ltac:(lia)) as [w5 W5].
  pose proof (words_bound src Hs). pose proof (words_bound dst Hd). pose proof (words_bound tp Ht).
  change 0xffff with 65535. rewrite Z.eqb_eq.
  apply folded_all_ones with (k := w1 + w2 + w3 + w4 + w5 - 256 * (k + k3)); try lia.
  intros E. apply Z3 in E. pose proof (le_words_bound _ (Forall_firstn _ (2 * (length tp / 2)) _ Ht)). lia.
Qed.

(** ** Options *)

Lemma SYN_options_total n : forall options, (length options <= n)%nat -> Forall is_byte options ->
  forall w m s, SYN_options n options w m s <> None.
Proof.
  induction n as [|n IH]; intros [|opt rest] Hl Hb w m s; cbn [length] in Hl; try lia; try discriminate. cbn [SYN_options].
  inversion Hb as [|? ? Ho Hr]; subst. destruct (opt =? 0); [discriminate|]. destruct (opt =? 1); [apply IH; [lia|assumption]|].
  destruct rest as [|opt_len rest]; [discriminate|]. destruct (_ || (opt_len =? 0)) eqn:E; [discriminate|].
  apply orb_false_iff in E as [E1 E2]. apply Z.eqb_neq in E2. inversion_clear Hr as [|? ? Hol Hr']. unfold is_byte in Hol.
  assert (Forall is_byte (skipn (Z.to_nat opt_len) (opt :: opt_len :: rest))) by now apply Forall_skipn.
  assert (length (skipn (Z.to_nat opt_len) (opt :: opt_len :: rest)) <= n)%nat by (rewrite length_skipn; cbn [length] in *; lia).
  repeat match goal with |- context [if ?b then _ else _] => destruct b end; apply IH; assumption.
Qed.

Lemma ParseTCPOptions_total o n : forall options, (length options <= n)%nat -> Forall is_byte options ->
  exists os r, ParseTCPOptions n o options = Some (os, r) /\
               Forall (fun t => match t with tcp_option _ _ _ _ => True | _ => False end) os.
Proof.
  induction n as [|n IH]; intros [|opt rest] Hl Hb; cbn [length] in Hl; try lia; try (cbn; eauto). cbn [ParseTCPOptions].
  inversion_clear Hb as [|? ? Ho Hr].
  assert (Go : forall opt_len, 0 <= opt_len ->
    exists os r, (if (opt_len =? 0) || (Z.of_nat (length (opt :: rest)) <? opt_len) then Some ([], -1)
       else let this := tcp_option o opt opt_len (firstn (Z.to_nat opt_len) (opt :: rest)) in
            if opt =? 0 then Some ([this], 0)
            else match ParseTCPOptions n o (skipn (Z.to_nat opt_len) (opt :: rest)) with
                 | Some (os, r) => Some (this :: os, r) | None => None end) = Some (os, r) /\
       Forall (fun t => match t with tcp_option _ _ _ _ => True | _ => False end) os).
  { intros l Hl0. destruct (_ || _) eqn:E; [eauto|]. apply orb_false_iff in E as [E1 E2]. apply Z.eqb_neq in E1. cbn zeta.
    destruct (opt =? 0); [eexists _, _; split; [reflexivity|repeat constructor]|].
    destruct (IH (skipn (Z.to_nat l) (opt :: rest))) as (os & r & -> & F).
    - rewrite length_skipn. cbn [length]. lia.
    - apply Forall_skipn. constructor; assumption.
    - eexists _, _. split; [reflexivity|]. constructor; [exact I|assumption]. }
  destruct (opt <? 2); [apply (Go 1); lia|]. destruct rest as [|l rest]; [eauto|]. inversion_clear Hr as [|? ? Hl1 _].
  unfold is_byte in Hl1. apply (Go l). lia.
Qed.

(** The options of a SYN, and what becomes of each. *)
Inductive Opt := Nop | Mss (v : Z) | Wscale (v : Z) | SackPermitted | Other (kind : Z) (body : list Z).

Definition enc_opt (o : Opt) : list Z :=
  match o with
  | Nop => [1]
  | Mss v => [2; 4; v / 256; v mod 256]
  | Wscale v => [3; 3; v]
  | SackPermitted => [4; 2]
  | Other kind body => kind :: (2 + Z.of_nat (length body)) :: body
  end.

Definition opt_ok (o : Opt) : Prop :=
  match o with Mss v => 0 <= v < 65536 | Wscale v => 0 <= v < 256 | Other kind _ => 5 <= kind | _ => True end.

Definition apply_opt (v : Z * Z * bool) (o : Opt) : Z * Z * bool :=
  let '(w, m, s) := v in
  match o with Mss v => (w, v, s) | Wscale v => (v, m, s) | SackPermitted => (w, m, true) | _ => (w, m, s) end.

Lemma word_join a : 0 <= a < 65536 -> Z.lor (Z.shiftl (a / 256) 8) (a mod 256) = a.
Proof. intros Ha. rewrite lor_shift by (apply Z.mod_pos_bound; lia). symmetry. apply Z.div_mod. lia. Qed.

Lemma SYN_options_read os pad : forall n w m s,
  Forall opt_ok os -> pad = [] \/ hd 1 pad = 0 -> (length (concat (map enc_opt os) ++ pad) <= n)%nat ->
  SYN_options n (concat (map enc_opt os) ++ pad) w m s = Some (fold_left apply_opt os (w, m, s)).
Proof.
  induction os as [|o os IH]; intros n w m s F P Hn.
  - destruct pad as [|x pad]; [destruct n; reflexivity|]. destruct P as [P|P]; [discriminate|]. cbn in P, Hn. subst x.
    destruct n; [lia|]. reflexivity.
  - apply Forall_cons_iff in F as [Ho F]. cbn [map concat] in *. rewrite <- app_assoc in *. set (rest := concat (map enc_opt os) ++ pad) in *.
    rewrite length_app in Hn.
    destruct o as [|v|v| |kind body]; cbn [enc_opt length app fold_left apply_opt opt_ok] in *.
    + destruct n as [|n]; [lia|]. cbn [SYN_options Z.eqb Pos.eqb]. apply IH; [assumption..|lia].
    + destruct n as [|n]; [lia|]. cbn [SYN_options Z.eqb Pos.eqb nth length]. rewrite (proj2 (Z.ltb_ge _ 4)) by lia. cbn [orb Z.ltb Z.compare Pos.compare Pos.compare_cont].
      rewrite word_join by assumption. change (skipn (Z.to_nat 4) (2 :: 4 :: v / 256 :: v mod 256 :: rest)) with rest. apply IH; [assumption..|lia].
    + destruct n as [|n]; [lia|]. cbn [SYN_options Z.eqb Pos.eqb nth length]. rewrite (proj2 (Z.ltb_ge _ 3)) by lia. cbn [orb Z.ltb Z.compare Pos.compare Pos.compare_cont].
      change (skipn (Z.to_nat 3) (3 :: 3 :: v :: rest)) with rest. apply IH; [assumption..|lia].
    + destruct n as [|n]; [lia|]. cbn [SYN_options Z.eqb Pos.eqb nth length]. rewrite (proj2 (Z.ltb_ge _ 2)) by lia. cbn [orb].
      change (skipn (Z.to_nat 2) (4 :: 2 :: rest)) with rest. apply IH; [assumption..|lia].
    + destruct n as [|n]; [lia|]. cbn [SYN_options length].
      rewrite (proj2 (Z.eqb_neq kind 0)), (proj2 (Z.eqb_neq kind 1)), (proj2 (Z.eqb_neq kind 4)), (proj2 (Z.eqb_neq kind 2)),
        (proj2 (Z.eqb_neq kind 3)) by lia.
      rewrite (proj2 (Z.ltb_ge _ _)), (proj2 (Z.eqb_neq (2 + _) 0)) by (rewrite ?length_app; lia). cbn [orb].
      replace (Z.to_nat (2 + Z.of_nat (length body))) with (S (S (length body))) by lia. cbn [skipn].
      rewrite skipn_exact by reflexivity. apply IH; [assumption..|lia].
Qed.

(** The window scale, segment size and SACK option that a SYN carries are read back
    whatever other options stand between them, up to the end-of-options byte if there is
    one; and the loops over the options end on any bytes. *)
Theorem syn_options_read tp os pad :
  Forall opt_ok os -> pad = [] \/ hd 1 pad = 0 -> options_of tp = concat (map enc_opt os) ++ pad ->
  BuildSYNPacketVal tp = Some (fold_left apply_opt os (-1, 0, false)).
Proof. intros F P E. unfold BuildSYNPacketVal. rewrite E. now apply SYN_options_read. Qed.

(** ** Well-typed states *)

Definition seqs_typed (s : Seqs) : Prop :=
  in_width 32 (start_seq s) /\ in_width 32 (last_seq s) /\ in_width 32 (ack_seq s) /\
  in_width 32 (last_seq_high s) /\ in_width 32 (ack_seq_high s).
Definition win_typed (w : Window) : Prop :=
  in_width 32 (window w) /\ 0 <= window_scale w < 256 /\ in_width 32 (window_seq w) /\ in_width 32 (window_ack_seq w).
(** [FIN_seq], [FIN_cnt] and [RST_cnt] are [int]s. *)
Definition counts_typed (c : Counts) : Prop := is_int (FIN_seq c) /\ is_int (FIN_cnt c) /\ is_int (RST_cnt c).
Definition contents_typed (c : option Reassembler) : Prop := match c with Some r => orderly r | None => True end.
Definition ep_typed (e : TCP_Endpoint) : Prop :=
  seqs_typed (seqs e) /\ win_typed (win e) /\ counts_typed (counts e) /\ contents_typed (contents_processor e).

(** The numbers are in their widths, the reassemblers hold their blocks in order, and exactly the endpoint that [orig] names has the role
    of the originator. *)
Record typed (a : TCP_Analyzer) : Prop := {
  ty_ep : forall p, ep_typed (ep p a);
  ty_role : forall p, is_orig (ep p a) = Bool.eqb p (orig a);
  ty_first : 0 <= first_packet_seen a <= 3 }.

Lemma ep_upd p q f a : ep q (upd p f a) = if Bool.eqb p q then f (ep p a) else ep q a.
Proof. destruct p, q; reflexivity. Qed.

Lemma ep_upd_same p f a : ep p (upd p f a) = f (ep p a).
Proof. destruct p; reflexivity. Qed.

Lemma ep_upd_other p f a : ep (negb p) (upd p f a) = ep (negb p) a.
Proof. destruct p; reflexivity. Qed.

Lemma typed_upd p f a :
  typed a -> (ep_typed (ep p a) -> ep_typed (f (ep p a))) -> is_orig (f (ep p a)) = is_orig (ep p a) -> typed (upd p f a).
Proof.
  intros [T1 T2 T3] Hf Ho. split.
  - intros q. rewrite ep_upd. destruct (Bool.eqb_spec p q); auto.
  - intros q. rewrite ep_upd. destruct (Bool.eqb_spec p q) as [->|]; [rewrite Ho|]; apply T2.
  - exact T3.
Qed.

Lemma typed_same a a' :
  typed a -> (forall p, ep p a' = ep p a) -> orig a' = orig a -> 0 <= first_packet_seen a' <= 3 -> typed a'.
Proof. intros [T1 T2 T3] E1 E2 E3. split; [intros p; rewrite E1; apply T1|intros p; rewrite E1, E2; apply T2|assumption]. Qed.

Lemma typed_out o a : typed a -> typed (out o a).
Proof. intros T. apply (typed_same a); auto. apply T. Qed.

Lemma typed_Weird n a : typed a -> typed (Weird_ n a).
Proof. intros T. apply (typed_same a); auto. apply T. Qed.

Lemma typed_set_conn m h t w g o a : typed a -> typed (set_conn m h t w g o a).
Proof. intros T. apply (typed_same a); auto. apply T. Qed.

Lemma typed_set_bits n b1 b2 b3 a : typed a -> 0 <= n <= 3 -> typed (set_bits n b1 b2 b3 a).
Proof. intros T N. apply (typed_same a); auto. Qed.

Lemma typed_set_deferred b1 b2 a : typed a -> typed (set_deferred b1 b2 a).
Proof. intros T. apply (typed_same a); auto. apply T. Qed.

Lemma typed_when b f a : typed a -> (typed a -> typed (f a)) -> typed (when b f a).
Proof. intros T H. destruct b; cbn; auto. Qed.

Lemma typed_deactivate a : typed a -> typed (deactivate a).
Proof. intros T. apply typed_set_bits; [assumption|apply T]. Qed.

Lemma typed_set_gaps g a : typed a -> typed (set_gaps g a).
Proof. apply typed_set_conn. Qed.

(** Updates that leave the numbers alone. *)
Lemma typed_upd_other p f a :
  typed a -> (forall e, seqs (f e) = seqs e /\ win (f e) = win e /\ counts (f e) = counts e /\
                         contents_processor (f e) = contents_processor e /\ is_orig (f e) = is_orig e) -> typed (upd p f a).
Proof.
  intros T H. destruct (H (ep p a)) as (E1 & E2 & E3 & E4 & E5). apply typed_upd; [assumption| |assumption].
  unfold ep_typed. now rewrite E1, E2, E3, E4.
Qed.

Lemma typed_set_counts p c a : typed a -> counts_typed c -> typed (upd p (set_counts c) a).
Proof. intros T H. apply typed_upd; [assumption| |reflexivity]. intros (E1 & E2 & _ & E4). repeat split; try apply E1; try apply E2; try apply H; exact E4. Qed.

Lemma typed_set_contents p r a : typed a -> orderly r -> typed (upd p (set_contents (Some r)) a).
Proof. intros T H. apply typed_upd; [assumption| |reflexivity]. intros (E1 & E2 & E3 & _). repeat split; try apply E1; try apply E2; try apply E3; apply H. Qed.

Lemma typed_upd_seqs p s a : typed a -> (ep_typed (ep p a) -> seqs_typed (s (ep p a))) -> typed (upd p (fun e => set_seqs (s e) e) a).
Proof. intros T H. apply typed_upd; [assumption| |reflexivity]. intros E. split; [now apply H|apply E]. Qed.

Lemma typed_InitSeqs p s l k a :
  typed a -> in_width 32 s -> in_width 32 l -> in_width 32 k -> typed (upd p (InitSeqs s l k) a).
Proof.
  intros T Hs Hl Hk. apply typed_upd_seqs; [assumption|]. intros [(_ & _ & _ & H4 & H5) _]. unfold seqs_typed. cbn. auto.
Qed.

Lemma wrap32 x : in_width 32 (wrap 32 x).
Proof. apply wrap_in_width. lia. Qed.

Lemma typed_UpdateLast p l a : typed a -> in_width 32 l -> typed (upd p (ep_UpdateLastSeq l) a).
Proof.
  intros T Hl. apply typed_upd_seqs; [assumption|]. intros [(H1 & H2 & H3 & H4 & H5) _]. unfold seqs_typed. cbn.
  destruct (l <? _); auto using wrap32.
Qed.

Lemma typed_UpdateAck p l a : typed a -> in_width 32 l -> typed (upd p (UpdateAckSeq l) a).
Proof.
  intros T Hl. apply typed_upd_seqs; [assumption|]. intros [(H1 & H2 & H3 & H4 & H5) _]. unfold seqs_typed. cbn.
  destruct (l <? _); auto using wrap32.
Qed.

Lemma typed_set_win p w a : typed a -> win_typed w -> typed (upd p (set_win w) a).
Proof. intros T H. apply typed_upd; [assumption| |reflexivity]. intros E. split; [apply E|]. split; [assumption|apply E]. Qed.

Create HintDb tcp.
#[export] Hint Resolve typed_out typed_Weird typed_set_conn typed_set_deferred typed_deactivate typed_set_gaps typed_InitSeqs
  typed_UpdateLast typed_UpdateAck typed_set_win wrap32 : tcp.

(** Breaks a state into the updates it was made by. *)
Ltac typed_tac :=
  repeat match goal with
  | T : typed ?a |- typed ?a => exact T
  | |- typed (out _ _) => apply typed_out
  | |- typed (Event _ _) => apply typed_out
  | |- typed (Weird_ _ _) => apply typed_Weird
  | |- typed (set_conn _ _ _ _ _ _ _) => apply typed_set_conn
  | |- typed (set_gaps _ _) => apply typed_set_gaps
  | |- typed (set_deferred _ _ _) => apply typed_set_deferred
  | |- typed (deactivate _) => apply typed_deactivate
  | |- typed (set_bits (first_packet_seen ?b) _ _ _ _) => apply typed_set_bits; [|apply ty_first]
  | |- typed (when _ _ _) => apply typed_when; [|intros]
  | |- typed (upd _ (set_states _ _) _) => apply typed_upd_other; [|intros; repeat split; reflexivity]
  | |- typed (upd _ set_did_close _) => apply typed_upd_other; [|intros; repeat split; reflexivity]
  | |- typed (upd _ (set_contents (Some _)) _) => apply typed_set_contents
  | |- typed (upd _ (set_counts _) _) => apply typed_set_counts
  | |- typed (upd _ (set_hist _) _) => apply typed_upd_other; [|intros; repeat split; reflexivity]
  | |- typed (if ?b then _ else _) => destruct b
  | |- typed (fst (if ?b then _ else _)) => destruct b
  | |- typed (let _ := _ in _) => cbv zeta
  end.

Lemma typed_SetState p st a : typed a -> typed (SetState p st a).
Proof. intros T. unfold SetState. typed_tac. Qed.

Lemma typed_AddHistory p c a : typed a -> typed (AddHistory p c a).
Proof. intros T. unfold AddHistory. typed_tac. Qed.

Lemma typed_CheckHistory p m c a : typed a -> typed (fst (CheckHistory p m c a)).
Proof. intros T. unfold CheckHistory. typed_tac. apply typed_AddHistory. typed_tac. Qed.

Lemma typed_note_control p m c s l a : typed a -> typed (note_control p m c s l a).
Proof.
  intros T. unfold note_control. pose proof (typed_CheckHistory p m c a T) as T1. destruct (CheckHistory p m c a) as [a1 b]. cbn in T1.
  typed_tac. now apply typed_AddHistory.
Qed.

Lemma typed_CheckFlagCombos f p b l a : typed a -> typed (CheckFlagCombos f p b l a).
Proof.
  intros T. unfold CheckFlagCombos. cbv zeta. set (a1 := set_bits _ _ _ _ _).
  assert (T1 : typed a1) by (apply typed_set_bits; [assumption|apply T]). typed_tac; auto using typed_CheckHistory, typed_note_control.
Qed.

Lemma SYN_options_scale n : forall options w m s w' m' s',
  Forall is_byte options -> -1 <= w < 256 -> SYN_options n options w m s = Some (w', m', s') -> -1 <= w' < 256.
Proof.
  induction n as [|n IH]; intros [|opt rest] w m s w' m' s' Hb Hw E; cbn [SYN_options] in E; try discriminate; try (injection E as <- <- <-; assumption).
  inversion Hb as [|? ? Ho Hr]; subst. destruct (opt =? 0); [injection E as <- <- <-; assumption|].
  destruct (opt =? 1); [eapply IH; [exact Hr|exact Hw|exact E]|].
  destruct rest as [|l rest]; [injection E as <- <- <-; assumption|]. destruct (_ || _); [injection E as <- <- <-; assumption|].
  assert (Hs : Forall is_byte (skipn (Z.to_nat l) (opt :: l :: rest))) by now apply Forall_skipn.
  assert (Hn : 0 <= nth 2 (opt :: l :: rest) 0 < 256).
  { destruct (nth_in_or_default 2 (opt :: l :: rest) 0) as [I| ->]; [|lia]. rewrite Forall_forall in Hb. now apply Hb in I. }
  repeat match type of E with (if ?b then _ else _) = _ => destruct b end; (eapply IH; [exact Hs| |exact E]); [assumption|assumption| |assumption].
  destruct (l <? 3); [assumption|lia].
Qed.

Lemma be_value_32 bs : Forall is_byte bs -> (length bs <= 4)%nat -> in_width 32 (be_value bs).
Proof.
  intros H L. pose proof (be_value_bound bs H) as B. unfold in_width. split; [apply B|]. eapply Z.lt_le_trans; [apply B|].
  change (2 ^ 32) with (256 ^ Z.of_nat 4). apply Z.pow_le_mono_r; lia.
Qed.

Lemma header_typed tp : Forall is_byte tp -> in_width 32 (th_seq tp) /\ in_width 32 (th_ack tp) /\ in_width 32 (th_win tp).
Proof.
  intros H. unfold th_seq, th_ack, th_win.
  repeat split; apply be_value_32; try (apply Forall_firstn, Forall_skipn, H); rewrite length_firstn; lia.
Qed.

Lemma options_typed tp : Forall is_byte tp -> Forall is_byte (options_of tp).
Proof. intros H. now apply Forall_firstn, Forall_skipn. Qed.

Lemma typed_UpdateWindow p w s k f a :
  typed a -> in_width 32 s -> in_width 32 k -> typed (UpdateWindow p w s k f a).
Proof.
  intros T Hs Hk. unfold UpdateWindow. typed_tac. pose proof (ty_ep _ T p) as (_ & (_ & W & _) & _).
  apply typed_set_win; [typed_tac|]. unfold win_typed, shl32. cbn. auto using wrap32.
Qed.

Section Typed.

Context (opts : TcpOptions) (base : bool -> Z).

Lemma typed_ProcessSYN tp l p s k o f a :
  typed a -> Forall is_byte tp -> in_width 32 s -> in_width 32 k ->
  exists a' n, ProcessSYN opts tp l p s k o f a = Some (a', n) /\ typed a'.
Proof.
  intros T Hb Hs Hk. unfold ProcessSYN. cbv zeta. set (a1 := when (RST f) _ a). set (a2 := when (URG f) _ a1). set (a3 := when (0 <? l) _ a2).
  assert (T3 : typed a3) by (subst a3 a2 a1; typed_tac). destruct (BuildSYNPacketVal tp) as [[[sc M] S]|] eqn:E.
  2:{ exfalso. unfold BuildSYNPacketVal in E. revert E. apply SYN_options_total; [lia|now apply options_typed]. }
  assert (Sc : -1 <= sc < 256) by (eapply SYN_options_scale; [apply options_typed, Hb| |exact E]; lia).
  eexists _, _. split; [reflexivity|]. apply typed_when; [|intros; typed_tac].
  pose proof (ty_ep _ T3 p) as (_ & (W1 & W2 & W3 & W4) & _). pose proof (ty_ep _ T3 (negb p)) as (_ & (V1 & V2 & V3 & V4) & _).
  destruct (Z.ltb_spec sc 0).
  - apply typed_when; [|intros]; repeat (apply typed_set_win); try assumption; unfold win_typed; cbn; auto with zarith.
  - repeat apply typed_set_win; try assumption; unfold win_typed; cbn; auto with zarith.
Qed.

Lemma typed_ProcessFIN t p l s a : typed a -> typed (fst (ProcessFIN opts t p l s a)).
Proof.
  intros T. pose proof (ty_ep _ T p) as (_ & _ & (C1 & C2 & C3) & _). pose proof (int_add_int (FIN_cnt (counts (ep p a))) 1).
  unfold ProcessFIN. cbv zeta. repeat match goal with |- context [if ?b then _ else _] => destruct b end; cbn [fst]; typed_tac;
    (split; [apply (int_add_int _ _)|split; assumption]).
Qed.

Lemma typed_ProcessRST t p l s a : typed a -> typed (fst (ProcessRST opts t p l s a)).
Proof.
  intros T. pose proof (ty_ep _ T p) as (_ & _ & (C1 & C2 & C3) & _). pose proof int_add_int as I.
  unfold ProcessRST. cbv zeta. repeat match goal with |- context [if ?b then _ else _] => destruct b end; cbn [fst]; typed_tac;
    (split; [assumption|split; [assumption|cbn; auto]]).
Qed.

Lemma typed_ConnectionReset a : typed a -> typed (ConnectionReset a).
Proof. intros T. unfold ConnectionReset. typed_tac. Qed.

Lemma typed_ConnectionClosed p g a : typed a -> typed (ConnectionClosed opts p g a).
Proof. intros T. unfold ConnectionClosed. cbv zeta. typed_tac; try (unfold ConnectionFinished; typed_tac). Qed.

Lemma typed_EndpointEOF p a : typed a -> typed (tcp_EndpointEOF opts p a).
Proof. intros T. unfold tcp_EndpointEOF. cbv zeta. typed_tac. apply typed_ConnectionClosed. typed_tac. Qed.

Lemma typed_from_reassembler p r o a : typed a -> orderly r -> typed (from_reassembler opts p r o a).
Proof. intros T R. unfold from_reassembler. cbv zeta. typed_tac; try assumption. now apply typed_EndpointEOF. Qed.

Lemma contents_orderly p a r : typed a -> contents_processor (ep p a) = Some r -> orderly r.
Proof. intros T E. pose proof (ty_ep _ T p) as (_ & _ & _ & C). now rewrite E in C. Qed.

Lemma typed_AckReceived d p s a : typed a -> is_int s -> exists a', ep_AckReceived opts d p s a = Some a' /\ typed a'.
Proof.
  intros T Hs. unfold ep_AckReceived. destruct (contents_processor _) as [r|] eqn:C; [|eauto].
  destruct (AckReceived_orderly (env_of opts p a) d s r (gaps a) (contents_orderly _ _ _ T C) Hs) as (r1 & g & o & -> & Or).
  eexists. split; [reflexivity|]. apply typed_from_reassembler; [typed_tac|assumption].
Qed.

Lemma typed_CheckEOF p a : typed a -> typed (ep_CheckEOF opts p a).
Proof.
  intros T. unfold ep_CheckEOF. destruct (contents_processor _) as [r|] eqn:C; [|assumption].
  pose proof (CheckEOF_orderly (env_of opts p a) r (contents_orderly _ _ _ T C)) as Or. destruct (CheckEOF _ _) as [r1 o].
  now apply typed_from_reassembler.
Qed.

Lemma typed_ProcessACK d p k o f a : typed a -> in_width 32 k -> exists a', ProcessACK opts d p k o f a = Some a' /\ typed a'.
Proof.
  intros T Hk. unfold ProcessACK. cbv zeta. apply typed_AckReceived; [|apply (seq_delta_int _ _)].
  assert (T1 : typed (if o && negb (seen_first_ACK a) && (state_eqb (ep_state (ep p a)) TCP_ENDPOINT_ESTABLISHED || state_eqb (ep_state (ep p a)) TCP_ENDPOINT_SYN_SENT)
    then Event "connection_first_ACK" (set_bits (first_packet_seen a) (is_partial a) (is_active a) true a) else a)) by (typed_tac; try assumption; apply T).
  match type of T1 with typed ?x => set (a1 := x) in * end. typed_tac.
  - apply typed_InitSeqs; auto using wrap32. typed_tac.
  - now apply typed_UpdateAck.
Qed.

Lemma typed_UpdateLastSeq p l f a : typed a -> in_width 32 l -> typed (fst (UpdateLastSeq p l f a)).
Proof. intros T Hl. unfold UpdateLastSeq. cbn [fst]. typed_tac; auto using typed_UpdateLast. Qed.

Lemma typed_TransitionFromInactive t p b l s a :
  typed a -> in_width 32 b -> in_width 32 l -> typed (TransitionFromInactive t p b l s a).
Proof.
  intros T Hb Hl. unfold TransitionFromInactive. apply typed_upd; [assumption| |reflexivity]. intros [(_ & _ & _ & H4 & H5) W].
  split; [|exact W]. unfold seqs_typed. destruct s; cbn; auto using wrap32.
Qed.

Lemma typed_FlipRoles a : typed a -> typed (FlipRoles a).
Proof.
  intros [T1 T2 T3]. split.
  - intros [|]; [apply (T1 true)|apply (T1 false)].
  - intros [|]; cbn; [change (ep_true a) with (ep true a)|change (ep_false a) with (ep false a)]; rewrite T2; destruct (orig a); reflexivity.
  - exact T3.
Qed.

Lemma typed_inactive_SYN p b k o f a : typed a -> typed (inactive_SYN opts p b k o f a).
Proof. intros T. unfold inactive_SYN. cbv zeta. typed_tac; repeat (apply typed_SetState || apply typed_FlipRoles || typed_tac). Qed.

Lemma typed_UpdateStateMachine p b k l n d o f a :
  typed a -> in_width 32 b -> in_width 32 l -> typed (fst (fst (UpdateStateMachine opts p b k l n d o f a))).
Proof.
  intros T Hb Hl. unfold UpdateStateMachine.
  assert (T0 : typed (when (SYN f) (inactive_SYN opts p b k o f) a)) by (typed_tac; now apply typed_inactive_SYN).
  destruct (state_of p a);
    unfold UpdateInactiveState, UpdateSYN_SentState, UpdateEstablishedState, UpdateClosedState, UpdateResetState; cbv zeta;
    try (set (a0 := when (SYN f) (inactive_SYN opts p b k o f) a) in *; clearbody a0);
    repeat match goal with |- context [let '(_, _) := if ?c then _ else _ in _] => destruct c end;
    repeat match goal with |- typed (fst (fst (if ?c then _ else _))) => destruct c end;
    cbn [fst]; typed_tac; repeat (apply typed_SetState || apply typed_ConnectionReset || (apply typed_InitSeqs; [|assumption..]) || typed_tac).
Qed.

Lemma sum_shorts_width p n : forall s, in_width 32 s -> in_width 32 (sum_shorts p n s).
Proof. revert p. induction n as [|n IH]; intros p s Hs; [assumption|]. cbn [sum_shorts]. apply IH, wrap32. Qed.

Lemma ValidChecksum_total b tp len : exists v, ValidChecksum b tp len = Some v.
Proof.
  unfold ValidChecksum, ones_complement_checksum. cbv zeta.
  destruct (fold_sum_spec (sum_shorts tp (Z.to_nat ((th_off tp * 4 + len) / 2))
    (wrap 32 ((if len mod 2 =? 1 then wrap 32 (b + ntohs (wrap 16 (Z.shiftl (nth (Z.to_nat (th_off tp * 4 + len - 1)) tp 0) 8))) else b) +
              ntohs (wrap 16 (th_off tp * 4 + len)))))) as (r & k & -> & _); [apply sum_shorts_width, wrap32|]. cbn. eauto.
Qed.

Lemma typed_DeliverData d l c p b f a : typed a -> 0 <= l < 65536 -> (l <= c -> l <= Z.of_nat (length d)) ->
  exists a', DeliverData opts d l c p b f a = Some a' /\ typed a'.
Proof.
  intros T Hl Hc. unfold DeliverData. cbv zeta. set (s := if SYN f then _ else _).
  assert (Hs : is_int s) by (unfold s; destruct (SYN f); [apply int_add_int|apply (seq_delta_int _ _)]). clearbody s.
  destruct (contents_processor _) as [r|] eqn:C; [|eexists; split; [reflexivity|typed_tac]].
  destruct (Z.leb_spec l c); [|eexists; split; [reflexivity|typed_tac]].
  destruct (DataSent_orderly (env_of opts p a) s l d r (contents_orderly _ _ _ T C) Hs) as (r1 & o & n & -> & Or);
    [unfold SEGMENT_LIMIT; lia|auto|].
  eexists. split; [reflexivity|]. pose proof (typed_from_reassembler p r1 o a T Or). typed_tac.
Qed.

Lemma typed_CheckPIA o a : typed a -> typed (CheckPIA_FirstPacket opts o a).
Proof.
  intros T. unfold CheckPIA_FirstPacket. typed_tac. apply typed_set_bits; [typed_tac|]. pose proof (ty_first _ T) as F.
  assert (C : first_packet_seen a = 0 \/ first_packet_seen a = 1 \/ first_packet_seen a = 2 \/ first_packet_seen a = 3) by lia.
  destruct o; destruct C as [->|[->|[->| ->]]]; cbn; lia.
Qed.

Lemma typed_ProcessFlags t d tp l n p b k o f a :
  typed a -> Forall is_byte tp -> in_width 32 b -> in_width 32 k ->
  exists a' n', ProcessFlags opts t d tp l n p b k o f a = Some (a', n') /\ typed a'.
Proof.
  intros T Hb Hs Hk. unfold ProcessFlags.
  assert (S1 : exists a1 n1, (if SYN f then ProcessSYN opts tp n p b k o f a else Some (a, n)) = Some (a1, n1) /\ typed a1).
  { destruct (SYN f); [now apply typed_ProcessSYN|eauto]. }
  destruct S1 as (a1 & n1 & -> & T1).
  assert (T2 : typed (fst (if FIN f then ProcessFIN opts t p n1 b a1 else (a1, n1)))) by (destruct (FIN f); [now apply typed_ProcessFIN|exact T1]).
  destruct (if FIN f then _ else _) as [a2 n2]. cbn [fst] in T2.
  assert (T3 : typed (fst (if RST f then ProcessRST opts t p l n2 a2 else (a2, n2)))) by (destruct (RST f); [now apply typed_ProcessRST|exact T2]).
  destruct (if RST f then _ else _) as [a3 n3]. cbn [fst] in T3.
  destruct (ACK f); [|eauto]. destruct (typed_ProcessACK d p k o f a3 T3 Hk) as (a4 & -> & T4). cbn. eauto.
Qed.

Lemma typed_before_flags k len p a : typed a -> Forall is_byte (pk_data k) -> typed (before_flags k len p a).
Proof.
  intros T Hb. destruct (header_typed _ Hb) as (Hs & Hk & _). unfold before_flags. cbv zeta. set (a1 := UpdateWindow _ _ _ _ _ _).
  assert (T1 : typed a1) by (apply typed_UpdateWindow; auto; now apply typed_CheckFlagCombos). typed_tac.
Qed.

Lemma typed_after_flags k h len caplen n5 p a :
  typed a -> Forall is_byte (pk_data k) -> len < 65536 -> (0 < len <= caplen -> len <= Z.of_nat (length (skipn (Z.to_nat h) (pk_data k)))) ->
  exists a', after_flags opts k h len caplen n5 p a = Some a' /\ typed a'.
Proof.
  intros T5 Hb Hlen Hcap. destruct (header_typed _ Hb) as (Hs & Hk & _). unfold after_flags. cbv zeta.
  set (a6 := when (in_state p TCP_ENDPOINT_INACTIVE a) _ a).
  assert (T6 : typed a6) by (subst a6; typed_tac; apply typed_TransitionFromInactive; auto using wrap32). clearbody a6.
  pose proof (typed_UpdateLastSeq p (wrap 32 (th_seq (pk_data k) + n5)) (mk_flags (th_flags (pk_data k))) a6 T6 (wrap32 _)) as T7.
  destruct (UpdateLastSeq p _ _ a6) as [a7 d7]. cbn [fst] in T7.
  match goal with |- context [UpdateStateMachine _ _ _ _ _ _ _ _ _ ?x] => set (a8 := x) end.
  assert (T8 : typed a8) by (subst a8; apply typed_upd_other; [assumption|intros; repeat split; reflexivity]). clearbody a8.
  pose proof (typed_UpdateStateMachine p (th_seq (pk_data k)) (th_ack (pk_data k)) (wrap 32 (th_seq (pk_data k) + n5))
    len d7 (pk_is_orig k) (mk_flags (th_flags (pk_data k))) a8 T8 Hs (wrap32 _)) as T9.
  destruct (UpdateStateMachine _ _ _ _ _ _ _ _ _ a8) as [[a9 dc] ge]. cbn [fst] in T9.
  set (a10 := when (handles_tcp_packet opts) _ a9). assert (T10 : typed a10) by (subst a10; typed_tac). clearbody a10.
  match goal with |- exists _, match ?x with Some _ => _ | None => None end = _ /\ _ => assert (P : exists os r, x = Some (os, r)) end.
  { destruct (_ && _); [|eauto]. destruct (ParseTCPOptions_total (pk_is_orig k) _ (options_of (pk_data k)) (le_n _) (options_typed _ Hb)) as (os & r & E & _). eauto. }
  destruct P as (os & r & ->).
  assert (T11 : typed (out os a10)) by typed_tac. set (a11 := out os a10) in *. clearbody a11.
  match goal with |- exists _, match ?x with Some _ => _ | None => None end = _ /\ _ => assert (D : exists a12, x = Some a12 /\ typed a12) end.
  { destruct (Z.ltb_spec 0 len); cbn [andb]; [|eauto]. destruct (_ && _); [|eauto]. apply typed_DeliverData; [assumption|lia|auto]. }
  destruct D as (a12 & -> & T12).
  eexists. split; [reflexivity|]. apply typed_CheckPIA. pose proof (typed_CheckEOF p a12 T12). typed_tac. now apply typed_ConnectionClosed.
Qed.

(** A packet: its bytes are in memory as far as they were captured, and its length comes
    from the 16-bit field of the IP header. *)
Definition packet_ok (k : Packet) : Prop :=
  Forall is_byte (pk_data k) /\ pk_len k < 65536 /\ pk_caplen k <= Z.of_nat (length (pk_data k)).

Lemma typed_DeliverPacket k a : typed a -> packet_ok k -> exists a', DeliverPacket opts base k a = Some a' /\ typed a'.
Proof.
  intros T (Hb & Hlen & Hcap). unfold DeliverPacket, ExtractTCP_Header. cbv zeta.
  destruct (Z.ltb_spec (th_off (pk_data k) * 4) sizeof_tcphdr) as [|Hh]; [eexists; split; [reflexivity|typed_tac]|].
  destruct (_ || _); [eexists; split; [reflexivity|typed_tac]|]. unfold sizeof_tcphdr in Hh.
  set (a1 := when (handles_packet_contents opts) _ a). assert (T1 : typed a1) by (subst a1; typed_tac). clearbody a1.
  set (p := if pk_is_orig k then _ else _). unfold ValidateChecksum. destruct (header_typed _ Hb) as (Hs & Hk & Hw).
  assert (P : exists a', process_packet opts k (th_off (pk_data k) * 4) (pk_len k - th_off (pk_data k) * 4)
                           (pk_caplen k - th_off (pk_data k) * 4) p a1 = Some a' /\ typed a').
  { unfold process_packet. cbv zeta. set (a4 := before_flags _ _ _ _).
    assert (T4 : typed a4) by (apply typed_before_flags; assumption). clearbody a4.
    match goal with |- context [ProcessFlags opts ?t ?d ?tp ?l ?n p ?b ?k ?o ?f a4] =>
      destruct (typed_ProcessFlags t d tp l n p b k o f a4 T4 Hb Hs Hk) as (a5 & n5 & -> & T5) end.
    apply typed_after_flags; auto; [lia|]. rewrite length_skipn. lia. }
  destruct (_ || _); [exact P|]. destruct (ValidChecksum_total (base p) (pk_data k) (pk_len k - th_off (pk_data k) * 4)) as ([|] & ->); [exact P|].
  eexists. split; [reflexivity|]. apply typed_CheckHistory. typed_tac.
Qed.

Lemma typed_packets ks : forall a, typed a -> Forall packet_ok ks -> exists a', deliver_packets opts base ks a = Some a' /\ typed a'.
Proof.
  induction ks as [|k ks IH]; intros a T F; [cbn; eauto|]. apply Forall_cons_iff in F as [Hk F].
  destruct (typed_DeliverPacket k a T Hk) as (a1 & E1 & T1). cbn [deliver_packets]. rewrite E1. now apply IH.
Qed.

End Typed.

Lemma typed_new junk partial g : is_int junk -> typed (new_TCP_Analyzer junk partial g).
Proof.
  intros J. split; [|intros [|]; reflexivity|cbn; lia].
  intros [|]; repeat split; cbn; try apply J; lia.
Qed.

Lemma typed_EnableReassembly a : typed a -> typed (EnableReassembly a).
Proof.
  intros T. apply (typed_same (upd false (set_contents (Some new_Reassembler)) (upd true (set_contents (Some new_Reassembler)) a))).
  - apply typed_set_contents; [apply typed_set_contents|]; auto using new_orderly.
  - intros [|]; reflexivity.
  - reflexivity.
  - apply T.
Qed.

(** C24: Whatever packets arrive, of any bytes, with any flags, numbers and options, and in any
    order: every packet is processed to its end (no loop over options or checksum words and
    no recursion of the reassemblers goes on beyond its bound), the sequence numbers,
    windows and the FIN and RST counters of both endpoints stay in their machine widths, the
    window scale stays a byte, each reassembler holds its blocks complete and in order, and
    exactly one endpoint has the originator's role, also when the roles are flipped.  Of a
    packet it is assumed that its bytes are in memory as far as they were captured and that
    its length fits the 16-bit field of the IP header. *)
Theorem packets_well_typed opts base junk partial g reassemble ks :
  is_int junk -> Forall packet_ok ks ->
  exists a, deliver_packets opts base ks
    (if reassemble : bool then EnableReassembly (new_TCP_Analyzer junk partial g) else new_TCP_Analyzer junk partial g) = Some a /\
  typed a.
Proof.
  intros J F. apply typed_packets; [|assumption]. destruct reassemble; [apply typed_EnableReassembly|]; now apply typed_new.
Qed.

(** ** Instances *)

Lemma bytes_checked l : forallb (fun b => (0 <=? b) && (b <? 256)) l = true -> Forall is_byte l.
Proof. rewrite forallb_forall, Forall_forall. intros H b Hb. apply H in Hb. unfold is_byte. lia. Qed.

(** A segment of three bytes from 10.0.0.1 to 10.0.0.2. *)
Definition sample_segment : list Z := [0; 80; 0; 90; 0; 0; 0; 5; 0; 0; 0; 9; 80; 24; 16; 0; 6; 205; 0; 0; 65; 66; 67].

Lemma checksum_exact_witness :
  exists base v, checksum_base [10; 0; 0; 1] [10; 0; 0; 2] = Some base /\ ValidChecksum base sample_segment 3 = Some v /\ v = true.
Proof.
  destruct (checksum_exact [10; 0; 0; 1] [10; 0; 0; 2] sample_segment 3) as (b & v & E1 & E2 & E3);
    try (apply bytes_checked; reflexivity); try reflexivity; try lia.
  exists b, v. split; [exact E1|]. split; [exact E2|]. apply E3. split; [reflexivity|reflexivity].
Defined.

(** A SYN with a segment size, a timestamp, and a window scale. *)
Definition sample_syn : list Z :=
  [0; 80; 0; 90] ++ be4 17 ++ be4 0 ++ [0xb0; 2; 16; 0; 0; 0; 0; 0] ++
  [2; 4; 5; 180; 4; 2; 8; 10; 0; 0; 0; 1; 0; 0; 0; 2; 1; 3; 3; 7; 0; 0; 0; 0].

Lemma syn_options_read_witness : BuildSYNPacketVal sample_syn = Some (7, 1460, true).
Proof.
  apply (syn_options_read sample_syn [Mss 1460; SackPermitted; Other 8 [0; 0; 0; 1; 0; 0; 0; 2]; Nop; Wscale 7] [0; 0; 0; 0]);
    [repeat constructor; cbn; lia|now right|reflexivity].
Defined.

Definition bare_options : TcpOptions :=
  {| ignore_checksums := true; tcp_storm_interarrival_thresh := 1; tcp_storm_thresh := 1000; tcp_close_delay := 5;
     handles_packet_contents := true; handles_SYN_packet := true; handles_connection_attempt := true;
     handles_connection_reset := true; handles_partial_close := true; handles_tcp_packet := true; handles_tcp_option := true;
     handles_connection_EOF := true; has_packet_children := true; has_PIA := true; base_env := usual_env false |}.

Definition raw_packet (orig : bool) (data : list Z) : Packet :=
  {| pk_data := data; pk_len := Z.of_nat (length data); pk_caplen := Z.of_nat (length data); pk_is_orig := orig; pk_TTL := 64;
     pk_IP_ID := 1; pk_time := 7; pk_report_due := false |}.

Lemma packets_well_typed_witness :
  exists a, deliver_packets bare_options (fun _ => 0) [raw_packet true sample_syn; raw_packet false sample_segment]
              (EnableReassembly (new_TCP_Analyzer 0 false no_gaps)) = Some a /\ typed a.
Proof.
  apply (packets_well_typed bare_options (fun _ => 0) 0 false no_gaps true); [unfold is_int; lia|].
  repeat apply Forall_cons; try apply Forall_nil; (split; [apply bytes_checked; reflexivity|cbn; lia]).
Defined.
