(* ===== verification/TcpData.v ===== *)
(** * From packets to streams

    An established connection: what a packet without control flags does to the analyzer of
    [BroTcp] is an acknowledgement for one reassembler and a segment for the other, with
    numbers relative to the initial sequence numbers; so that the theorems of
    [ReassemThms] hold of packets. *)
From S2P Require Import Prelude Bytes CLib TelexUtil TelexTcp Reassem ReassemThms BroTcp TcpThms.
From Stdlib Require Import String ZArith Lia List Bool.
Import ListNotations.
Open Scope Z_scope.
Open Scope list_scope.

(** What the reassemblers did, by direction. *)
Definition streams (os : list TcpOut) : list (bool * Out) :=
  flat_map (fun t => match t with Stream o x => [(o, x)] | _ => [] end) os.

Lemma streams_app a b : streams (a ++ b) = streams a ++ streams b.
Proof. apply flat_map_app. Qed.

Lemma streams_map o xs : streams (map (Stream o) xs) = map (pair o) xs.
Proof. induction xs as [|x xs IH]; [reflexivity|]. cbn. now f_equal. Qed.

(** ** Steps that the streams do not notice *)

(** What matters of an endpoint. *)
Definition key (e : TCP_Endpoint) : EndpointState * bool * Z * Z * Z * option Reassembler :=
  (ep_state e, is_orig e, StartSeq e, FIN_cnt (counts e), RST_cnt (counts e), contents_processor e).

Record quiet (a a' : TCP_Analyzer) : Prop := {
  qt_key : forall p, key (ep p a') = key (ep p a);
  qt_orig : orig a' = orig a;
  qt_partial : is_partial a' = is_partial a;
  qt_first : first_packet_seen a' = first_packet_seen a;
  qt_deferred : close_deferred a' = close_deferred a;
  qt_reassembling : reassembling a' = reassembling a;
  qt_gaps : gaps a' = gaps a;
  qt_streams : streams (outs a') = streams (outs a) }.

Lemma quiet_refl a : quiet a a.
Proof. split; reflexivity. Qed.

Lemma quiet_trans a b c : quiet a b -> quiet b c -> quiet a c.
Proof. intros [A1 A2 A3 A4 A5 A6 A7 A8] [B1 B2 B3 B4 B5 B6 B7 B8]. split; try congruence; try (intros p; now rewrite B1, A1). Qed.

#[global] Instance quiet_preorder : RelationClasses.PreOrder quiet.
Proof. split; [exact quiet_refl|exact quiet_trans]. Qed.

Lemma quiet_out o a : streams o = [] -> quiet a (out o a).
Proof. intros H. split; try reflexivity. cbn. now rewrite streams_app, H, app_nil_r. Qed.

Lemma quiet_Weird n a : quiet a (Weird_ n a).
Proof. split; try reflexivity. cbn. now rewrite streams_app, app_nil_r. Qed.

Lemma quiet_upd' p f a : key (f (ep p a)) = key (ep p a) -> quiet a (upd p f a).
Proof. intros H. split; try reflexivity. intros q. rewrite ep_upd. destruct (Bool.eqb_spec p q) as [->|]; [apply H|reflexivity]. Qed.

Lemma quiet_upd p f a : (forall e, key (f e) = key e) -> quiet a (upd p f a).
Proof. intros H. apply quiet_upd', H. Qed.

Lemma quiet_when b f a : (quiet a (f a)) -> quiet a (when b f a).
Proof. intros H. destruct b; [exact H|apply quiet_refl]. Qed.

Lemma quiet_CheckHistory p m c a : quiet a (fst (CheckHistory p m c a)).
Proof. unfold CheckHistory, AddHistory. destruct (_ =? 0); split; reflexivity. Qed.

Create HintDb quiet.
#[export] Hint Resolve quiet_refl quiet_Weird quiet_CheckHistory : quiet.

(** ** Established connections *)

Record est (start : bool -> Z) (r : bool -> Reassembler) (a : TCP_Analyzer) : Prop := {
  es_key : forall p, key (ep p a) = (TCP_ENDPOINT_ESTABLISHED, p, start p, 0, 0, Some (r p));
  es_orig : orig a = true;
  es_partial : is_partial a = false;
  es_first : first_packet_seen a = 3;
  es_deferred : close_deferred a = false;
  es_reassembling : reassembling a = true }.

Lemma est_quiet start r a a' : est start r a -> quiet a a' -> est start r a'.
Proof. intros [E1 E2 E3 E4 E5 E6] [Q1 Q2 Q3 Q4 Q5 Q6 Q7 Q8]. split; try congruence. Qed.

Lemma est_ep start r a p :
  est start r a -> ep_state (ep p a) = TCP_ENDPOINT_ESTABLISHED /\ is_orig (ep p a) = p /\ StartSeq (ep p a) = start p /\
  FIN_cnt (counts (ep p a)) = 0 /\ RST_cnt (counts (ep p a)) = 0 /\ contents_processor (ep p a) = Some (r p).
Proof. intros E. pose proof (es_key _ _ _ E p) as K. unfold key in K. injection K as -> -> -> -> -> ->. auto 10. Qed.

(** No control flag is set. *)
Definition plain_flags (f : TCP_Flags) : Prop := SYN f = false /\ FIN f = false /\ RST f = false.

Lemma quiet_UpdateWindow p w b k f a : quiet a (UpdateWindow p w b k f a).
Proof.
  unfold UpdateWindow. cbv zeta. destruct (SYN f); [apply quiet_refl|]. eapply quiet_trans; [|apply quiet_upd; reflexivity].
  destruct (_ && _); [apply quiet_when, quiet_Weird|apply quiet_refl].
Qed.

Lemma quiet_UpdateLastSeq p l f a : quiet a (fst (UpdateLastSeq p l f a)).
Proof.
  unfold UpdateLastSeq. cbn [fst]. repeat match goal with |- context [if ?b then _ else _] => destruct b end;
    auto with quiet; apply quiet_upd; reflexivity.
Qed.

Section Data.

Context (opts : TcpOptions) (base : bool -> Z).

(** The environments of the reassemblers during the connection. *)
Definition env_like (env : REnv) : Prop :=
  (forall seq d, r_skip_request env seq d = r_skip_request (base_env opts) seq d) /\ endp_FIN_cnt env = 0 /\
  tcp_max_above_hole_without_any_acks env = tcp_max_above_hole_without_any_acks (base_env opts) /\
  tcp_excessive_data_without_further_acks env = tcp_excessive_data_without_further_acks (base_env opts) /\
  endp_state env = TCP_ENDPOINT_ESTABLISHED.

Lemma est_env start r a p : est start r a -> env_like (env_of opts p a).
Proof. intros E. destruct (est_ep _ _ _ p E) as (S & _ & _ & F & _). repeat split; assumption. Qed.

(** The reassemblers, with that of [p] replaced. *)
Definition with_r (p : bool) (x : Reassembler) (r : bool -> Reassembler) : bool -> Reassembler :=
  fun q => if Bool.eqb p q then x else r q.

Lemma est_reassembler start r p x a o :
  est start r a ->
  est start (with_r p x r) (from_reassembler opts p x o a) /\
  gaps (from_reassembler opts p x o a) = gaps a /\
  streams (outs (from_reassembler opts p x o a)) = streams (outs a) ++ map (pair p) o.
Proof.
  intros E. unfold from_reassembler. cbv zeta.
  set (a1 := upd p (set_contents (Some x)) a).
  assert (E1 : est start (with_r p x r) a1).
  { destruct E as [K H1 H2 H3 H4 H5]. split; try assumption. intros q. unfold a1, with_r. rewrite ep_upd.
    destruct (Bool.eqb_spec p q) as [->|]; [|apply K]. specialize (K q). unfold key in *. cbn.
    injection K as K1 K2 K3 K4 K5 K6. unfold StartSeq in *. cbn. now rewrite K1, K2, K3, K4, K5. }
  destruct (est_ep _ _ _ p E1) as (_ & Io & _). rewrite Io. set (a2 := out _ a1).
  assert (E2 : est start (with_r p x r) a2) by (destruct E1; split; assumption).
  assert (S2 : streams (outs a2) = streams (outs a) ++ map (pair p) o).
  { unfold a2. cbn. rewrite streams_app, streams_map. reflexivity. }
  assert (Q : quiet a2 (when (existsb (fun o => match o with EndpointEOF => true | _ => false end) o) (tcp_EndpointEOF opts p) a2)).
  { apply quiet_when. unfold tcp_EndpointEOF. cbv zeta. set (a3 := when _ _ a2).
    assert (Q3 : quiet a2 a3) by (apply quiet_when, quiet_out; reflexivity). set (a4 := out _ a3).
    assert (Q4 : quiet a2 a4) by (eapply quiet_trans; [exact Q3|apply quiet_out; reflexivity]).
    rewrite (qt_deferred _ _ Q4), (es_deferred _ _ _ E2). exact Q4. }
  split; [eapply est_quiet; eassumption|]. split; [rewrite (qt_gaps _ _ Q); reflexivity|]. now rewrite (qt_streams _ _ Q).
Qed.

(** ** A data packet *)

Definition hdr_len (k : Packet) : Z := th_off (pk_data k) * 4.
Definition payload (k : Packet) : list Z := skipn (Z.to_nat (hdr_len k)) (pk_data k).
Definition flags_of (k : Packet) : TCP_Flags := mk_flags (th_flags (pk_data k)).

(** A packet that is well-formed, wholly captured, and sets no control flag. *)
Record data_packet (k : Packet) : Prop := {
  dp_bytes : Forall is_byte (pk_data k);
  dp_header : sizeof_tcphdr <= hdr_len k <= pk_len k;
  dp_length : pk_len k = Z.of_nat (length (pk_data k)) /\ pk_len k < 2 ^ 31;
  dp_captured : pk_caplen k = pk_len k;
  dp_flags : plain_flags (flags_of k);
  dp_checksum : ignore_checksums opts = true \/ ValidChecksum (base (pk_is_orig k)) (pk_data k) (pk_len k - hdr_len k) = Some true }.

Lemma payload_length k : data_packet k -> Z.of_nat (length (payload k)) = pk_len k - hdr_len k.
Proof.
  intros [_ H1 [H2 _] _ _ _]. unfold payload. rewrite length_skipn. unfold sizeof_tcphdr in H1. lia.
Qed.

(** The numbers relative to the initial ones. *)
Definition rel_seq (start : bool -> Z) (k : Packet) : Z := swrap 32 (th_seq (pk_data k) - start (pk_is_orig k)).
Definition rel_ack (start : bool -> Z) (k : Packet) : Z := swrap 32 (th_ack (pk_data k) - start (negb (pk_is_orig k))).

(** The acknowledgement in [ProcessACK]. *)
Lemma ProcessACK_est start r k due o f a :
  let p := pk_is_orig k in
  est start r a -> plain_flags f ->
  exists env, env_like env /\ forall x g o1,
    AckReceived env due (rel_ack start k) (r (negb p)) (gaps a) = Some (x, g, o1) ->
    exists a', ProcessACK opts due p (th_ack (pk_data k)) o f a = Some a' /\ est start (with_r (negb p) x r) a' /\ gaps a' = g /\
               streams (outs a') = streams (outs a) ++ map (pair (negb p)) o1.
Proof.
  intros p E (F1 & F2 & F3). unfold ProcessACK. cbv zeta. rewrite F3. cbn [negb].
  match goal with |- context [if o && _ && _ then ?x else a] => set (a1 := if o && _ && _ then x else a) end.
  assert (Q1 : quiet a a1).
  { subst a1. destruct (_ && _); [|apply quiet_refl]. split; try reflexivity. cbn. rewrite streams_app. cbn. now rewrite app_nil_r. }
  pose proof (est_quiet _ _ _ _ E Q1) as E1. clearbody a1. destruct (est_ep _ _ _ (negb p) E1) as (St & _). rewrite St.
  change (state_eqb TCP_ENDPOINT_ESTABLISHED TCP_ENDPOINT_INACTIVE) with false. cbn iota.
  match goal with |- context [ep_AckReceived _ _ _ _ (if ?b then a1 else ?y)] => set (a2 := if b then a1 else y) end.
  assert (Q2 : quiet a1 a2).
  { subst a2. destruct (_ && _); [apply quiet_refl|]. apply quiet_when, quiet_upd. reflexivity. }
  pose proof (est_quiet _ _ _ _ E1 Q2) as E2. clearbody a2. destruct (est_ep _ _ _ (negb p) E2) as (_ & _ & Ss & _ & _ & C2).
  exists (env_of opts (negb p) a2). split; [eapply est_env; exact E2|]. intros x g o1 H.
  unfold ep_AckReceived. rewrite C2, Ss. fold (rel_ack start k) in *. unfold rel_ack in H |- *. fold p in H. rewrite (qt_gaps _ _ Q2), (qt_gaps _ _ Q1), H.
  assert (E3 : est start r (set_gaps g a2)) by (destruct E2; split; assumption).
  destruct (est_reassembler start r (negb p) x (set_gaps g a2) o1 E3) as (E4 & G4 & S4).
  eexists. split; [reflexivity|]. split; [exact E4|]. split; [exact G4|]. rewrite S4. cbn [outs set_gaps set_conn].
  now rewrite (qt_streams _ _ Q2), (qt_streams _ _ Q1).
Qed.

Lemma streams_options os :
  Forall (fun t => match t with tcp_option _ _ _ _ => True | _ => False end) os -> streams os = [].
Proof. induction 1 as [|t os H F IH]; [reflexivity|]. destruct t; try contradiction. exact IH. Qed.

(** The end of [process_packet]: nothing is closed. *)
Lemma finish_packet start r p o a :
  est start r a ->
  let a1 := ep_CheckEOF opts p a in
  quiet a a1 /\ quiet a (CheckPIA_FirstPacket opts o a1).
Proof.
  intros E a1. destruct (est_ep _ _ _ p E) as (St & _ & _ & F & _ & C).
  assert (Q : quiet a a1).
  { unfold a1, ep_CheckEOF. rewrite C. unfold CheckEOF. cbn [endp_FIN_cnt endp_state env_of]. rewrite F, St.
    change (state_eqb TCP_ENDPOINT_ESTABLISHED TCP_ENDPOINT_CLOSED) with false.
    change (state_eqb TCP_ENDPOINT_ESTABLISHED TCP_ENDPOINT_RESET) with false. cbn [Z.ltb Z.compare orb]. rewrite andb_false_r. cbn [andb].
    unfold from_reassembler. cbn [map existsb when]. eapply quiet_trans; [|apply quiet_out; reflexivity]. apply quiet_upd'.
    unfold key. cbn. now rewrite C. }
  split; [exact Q|]. unfold CheckPIA_FirstPacket. rewrite (qt_first _ _ Q), (es_first _ _ _ E). destruct o; exact Q.
Qed.

(** Whether the connection is taken for partial, after the flags were looked at. *)
Definition partial_after (f : TCP_Flags) (p : bool) (a : TCP_Analyzer) : bool :=
  let part := if is_orig (ep p a) && (Z.land (first_packet_seen a) 1 =? 0) then negb (SYN f) || ACK f else is_partial a in
  if negb (is_orig (ep p a)) && (Z.land (first_packet_seen a) 2 =? 0) && negb part then negb (SYN f) else part.

Lemma quiet_note_control p m c s l a : quiet a (note_control p m c s l a).
Proof.
  unfold note_control. pose proof (quiet_CheckHistory p m c a) as Q. destruct (CheckHistory p m c a) as [a1 b]. cbn [fst] in Q.
  destruct (_ && _); [|exact Q]. eapply quiet_trans; [exact Q|]. split; reflexivity.
Qed.

Lemma CheckFlagCombos_partial f p b l a :
  quiet (set_bits (first_packet_seen a) (partial_after f p a) (is_active a) (seen_first_ACK a) a) (CheckFlagCombos f p b l a).
Proof.
  unfold CheckFlagCombos. cbv zeta. fold (partial_after f p a). set (a1 := set_bits _ _ _ _ a).
  repeat match goal with |- context [if ?b then _ else _] => destruct b end; auto with quiet;
    (eapply quiet_trans; [apply quiet_note_control|]; apply quiet_upd; reflexivity).
Qed.

(** The frame of a packet that is well-formed: what comes before the flags is quiet apart from
    [is_partial]. *)
Lemma DeliverPacket_frame k a :
  let p := pk_is_orig k in
  Forall is_byte (pk_data k) -> sizeof_tcphdr <= hdr_len k <= pk_len k -> pk_len k < 2 ^ 31 -> pk_caplen k = pk_len k ->
  ignore_checksums opts = true \/ ValidChecksum (base p) (pk_data k) (pk_len k - hdr_len k) = Some true ->
  orig a = true ->
  exists a', quiet (set_bits (first_packet_seen a) (partial_after (flags_of k) p a) (is_active a) (seen_first_ACK a) a) a' /\
    DeliverPacket opts base k a =
    match ProcessFlags opts (pk_time k) (pk_report_due k) (pk_data k) (pk_len k - hdr_len k) (pk_len k - hdr_len k) p (th_seq (pk_data k))
            (th_ack (pk_data k)) p (flags_of k) a' with
    | None => None
    | Some (a, n) => after_flags opts k (hdr_len k) (pk_len k - hdr_len k) (pk_caplen k - hdr_len k) n p a
    end.
Proof.
  intros p Hb Hh Hl Hc Hv Ho. unfold sizeof_tcphdr in Hh.
  set (a1 := when (handles_packet_contents opts)
    (out [packet_contents (firstn (Z.to_nat (Z.min (pk_len k - hdr_len k) (pk_caplen k - hdr_len k))) (payload k))]) a).
  exists (before_flags k (pk_len k - hdr_len k) p a1). split.
  - assert (Q1 : quiet a a1) by (apply quiet_when, quiet_out; reflexivity). unfold before_flags. cbv zeta. fold (flags_of k).
    set (a2 := CheckFlagCombos _ _ _ _ a1).
    assert (Q2 : quiet (set_bits (first_packet_seen a) (partial_after (flags_of k) p a) (is_active a) (seen_first_ACK a) a) a2).
    { eapply quiet_trans; [|apply CheckFlagCombos_partial]. destruct Q1 as [K1 K2 K3 K4 K5 K6 K7 K8].
      assert (Pp : partial_after (flags_of k) p a1 = partial_after (flags_of k) p a).
      { unfold partial_after. pose proof (K1 p) as Kp. unfold key in Kp. injection Kp as _ -> _ _ _ _. now rewrite K3, K4. }
      rewrite Pp. split; cbn; assumption || reflexivity. }
    assert (Q3 : quiet a2 (UpdateWindow p (th_win (pk_data k)) (th_seq (pk_data k)) (th_ack (pk_data k)) (flags_of k) a2)) by apply quiet_UpdateWindow.
    eapply quiet_trans; [exact Q2|]. destruct (negb _); [|exact Q3]. eapply quiet_trans; [exact Q3|]. split; reflexivity.
  - unfold DeliverPacket, ExtractTCP_Header. cbv zeta. fold (hdr_len k). rewrite (proj2 (Z.ltb_ge _ sizeof_tcphdr)) by (unfold sizeof_tcphdr; lia).
    assert (Wl : wrap 32 (pk_len k) = pk_len k) by (apply wrap_small; unfold in_width; lia).
    assert (Wc : wrap 32 (pk_caplen k) = pk_caplen k) by (apply wrap_small; unfold in_width; lia).
    rewrite Wl, Wc, (proj2 (Z.ltb_ge (pk_len k) _)), (proj2 (Z.ltb_ge (pk_caplen k) _)) by (unfold sizeof_tcphdr; lia). cbn [orb].
    fold (payload k). fold a1. assert (Oo : orig a1 = true) by (unfold a1, when; destruct (handles_packet_contents opts); exact Ho). rewrite Oo.
    replace (if pk_is_orig k then true else negb true) with p by (subst p; destruct (pk_is_orig k); reflexivity).
    assert (V : ValidateChecksum opts base (pk_data k) p (pk_len k - hdr_len k) (pk_caplen k - hdr_len k) a1 = Some (a1, true)).
    { unfold ValidateChecksum. rewrite Hc, Z.ltb_irrefl, orb_false_r. destruct Hv as [->| Hv]; [reflexivity|].
      destruct (ignore_checksums opts); [reflexivity|]. subst p. now rewrite Hv. }
    rewrite V. reflexivity.
Qed.

(** The part after the flags: the sequence numbers, the state machine, and the data. *)
Lemma process_rest start r k a n :
  let p := pk_is_orig k in
  est start r a -> data_packet k -> Skipping (base_env opts) = false ->
  exists env, env_like env /\ forall x o2,
    (payload k = [] -> x = r p /\ o2 = []) ->
    (payload k <> [] -> exists v, DataSent env true (rel_seq start k) (Z.of_nat (length (payload k))) (payload k) (r p) = Some (x, o2, v)) ->
    exists a',
      after_flags opts k (hdr_len k) (pk_len k - hdr_len k) (pk_caplen k - hdr_len k) n p a = Some a' /\
      est start (with_r p x r) a' /\ gaps a' = gaps a /\ streams (outs a') = streams (outs a) ++ map (pair p) o2.
Proof.
  intros p E D Hsk. unfold after_flags. cbv zeta. fold (payload k) (flags_of k) p. set (tp := pk_data k). pose proof (dp_flags _ D) as (F1 & F2 & F3). destruct (est_ep _ _ _ p E) as (St & _).
  unfold in_state, state_of. rewrite St. change (state_eqb TCP_ENDPOINT_ESTABLISHED TCP_ENDPOINT_INACTIVE) with false. cbn [when].
  pose proof (quiet_UpdateLastSeq p (wrap 32 (th_seq tp + n)) (flags_of k) a) as Q1.
  destruct (UpdateLastSeq p _ _ a) as [a1 d1]. cbn [fst] in Q1.
  match goal with |- context [UpdateStateMachine _ _ _ _ _ _ _ _ _ ?x] => set (a2 := x) end.
  assert (Q2 : quiet a a2) by (eapply quiet_trans; [exact Q1|apply quiet_upd; reflexivity]). clearbody a2.
  pose proof (est_quiet _ _ _ _ E Q2) as E2. destruct (est_ep _ _ _ p E2) as (St2 & _).
  unfold UpdateStateMachine, state_of. rewrite St2. unfold UpdateEstablishedState. rewrite F1, F2, F3. cbn [andb when].
  match goal with |- context [when (handles_tcp_packet opts) ?h a2] => set (a3 := when (handles_tcp_packet opts) h a2) end.
  assert (Q3 : quiet a a3) by (eapply quiet_trans; [exact Q2|]; apply quiet_when, quiet_out; reflexivity). clearbody a3.
  assert (Op : exists os v, (if handles_tcp_option opts && (sizeof_tcphdr <? hdr_len k) && (hdr_len k <=? wrap 32 (pk_caplen k - hdr_len k))
             then ParseTCPOptions (length (options_of tp)) p (options_of tp) else Some ([], 0)) = Some (os, v) /\ streams os = []).
  { destruct (_ && _); [|exists [], 0; auto].
    destruct (ParseTCPOptions_total p (length (options_of tp)) (options_of tp) (le_n _) (options_typed _ (dp_bytes _ D))) as (os & v & -> & F).
    exists os, v. split; [reflexivity|now apply streams_options]. }
  destruct Op as (os & v & -> & So). set (a4 := out os a3).
  assert (Q4 : quiet a a4) by (eapply quiet_trans; [exact Q3|now apply quiet_out]). clearbody a4.
  pose proof (est_quiet _ _ _ _ E Q4) as E4. destruct (est_ep _ _ _ p E4) as (_ & _ & Ss & _ & _ & C4).
  exists (env_of opts p a4). split; [eapply est_env; exact E4|]. intros x o2 H0 H1.
  rewrite (dp_captured _ D), Z.leb_refl, Hsk. cbn [orb negb andb]. rewrite !andb_true_r.
  pose proof (payload_length k D) as L.
  assert (Dd : exists a5, (if 0 <? pk_len k - hdr_len k then DeliverData opts (payload k) (pk_len k - hdr_len k) (pk_len k - hdr_len k) p (th_seq tp) (flags_of k) a4
                            else Some a4) = Some a5 /\ est start (with_r p x r) a5 /\ gaps a5 = gaps a /\ streams (outs a5) = streams (outs a) ++ map (pair p) o2).
  { destruct (Z.ltb_spec 0 (pk_len k - hdr_len k)) as [Hlt|Hge].
    - destruct H1 as [w H1]; [intros Ep; rewrite Ep in L; cbn in L; lia|]. unfold DeliverData. cbv zeta.
      rewrite C4, F1, Z.leb_refl, Ss. unfold rel_seq in H1. fold p tp in H1. rewrite <- L, H1. cbn [option_map].
      destruct (est_reassembler start r p x a4 o2 E4) as (E5 & G5 & S5). set (a5 := from_reassembler opts p x o2 a4) in *.
      assert (Q6 : quiet a5 (when (has_packet_children opts) (out [Children "NextPacket"]) a5)) by (apply quiet_when, quiet_out; reflexivity).
      eexists. split; [reflexivity|]. split; [eapply est_quiet; [exact E5|exact Q6]|].
      rewrite (qt_gaps _ _ Q6), (qt_streams _ _ Q6), G5, S5, (qt_gaps _ _ Q4), (qt_streams _ _ Q4). auto.
    - destruct H0 as [-> ->]; [destruct (payload k); [reflexivity|cbn in L; lia]|]. exists a4. split; [reflexivity|].
      rewrite (qt_gaps _ _ Q4), (qt_streams _ _ Q4), app_nil_r. split; [|auto].
      destruct E4 as [K T1 T2 T3 T4 T5]. split; try assumption. intros q. rewrite K. unfold with_r. destruct (Bool.eqb_spec p q) as [->|]; reflexivity. }
  destruct Dd as (a5 & -> & E5 & G5 & S5). destruct (finish_packet start _ p p a5 E5) as [Q6 Q7]. cbv zeta in *.
  rewrite (qt_reassembling _ _ Q6), (es_reassembling _ _ _ E5). cbn [negb when].
  eexists. split; [reflexivity|]. split; [eapply est_quiet; [exact E5|exact Q7]|].
  rewrite (qt_gaps _ _ Q7), (qt_streams _ _ Q7). auto.
Qed.

(** The packet as a whole. *)
Lemma deliver_data_packet start r k a :
  let p := pk_is_orig k in
  est start r a -> data_packet k -> Skipping (base_env opts) = false ->
  exists env1, env_like env1 /\ forall xq g o1,
    (ACK (flags_of k) = false -> xq = r (negb p) /\ g = gaps a /\ o1 = []) ->
    (ACK (flags_of k) = true -> AckReceived env1 (pk_report_due k) (rel_ack start k) (r (negb p)) (gaps a) = Some (xq, g, o1)) ->
    exists env2, env_like env2 /\ forall xp o2,
      (payload k = [] -> xp = r p /\ o2 = []) ->
      (payload k <> [] -> exists v, DataSent env2 true (rel_seq start k) (Z.of_nat (length (payload k))) (payload k) (r p) = Some (xp, o2, v)) ->
      exists a', DeliverPacket opts base k a = Some a' /\ est start (with_r p xp (with_r (negb p) xq r)) a' /\ gaps a' = g /\
                 streams (outs a') = streams (outs a) ++ map (pair (negb p)) o1 ++ map (pair p) o2.
Proof.
  intros p E D Hsk.
  destruct (DeliverPacket_frame k a) as (a2 & Q & Ed); try apply D; [apply (es_orig _ _ _ E)|]. fold p in Ed, Q.
  assert (Q2 : quiet a a2).
  { eapply quiet_trans; [|exact Q]. split; try reflexivity. cbn. unfold partial_after. rewrite (es_first _ _ _ E).
    change (Z.land 3 1 =? 0) with false. change (Z.land 3 2 =? 0) with false. now rewrite !andb_false_r. }
  pose proof (est_quiet _ _ _ _ E Q2) as E2.
  destruct (ProcessACK_est start r k (pk_report_due k) p (flags_of k) a2 E2 (dp_flags _ D)) as (env1 & L1 & H1). fold p in H1.
  exists env1. split; [exact L1|]. intros xq g o1 HA0 HA1. rewrite (qt_gaps _ _ Q2) in H1.
  assert (Pf : exists a3, ProcessFlags opts (pk_time k) (pk_report_due k) (pk_data k) (pk_len k - hdr_len k) (pk_len k - hdr_len k) p
                 (th_seq (pk_data k)) (th_ack (pk_data k)) p (flags_of k) a2 = Some (a3, pk_len k - hdr_len k) /\
               est start (with_r (negb p) xq r) a3 /\ gaps a3 = g /\ streams (outs a3) = streams (outs a) ++ map (pair (negb p)) o1).
  { pose proof (dp_flags _ D) as (F1 & F2 & F3). unfold ProcessFlags. rewrite F1, F2, F3. destruct (ACK (flags_of k)).
    - destruct (H1 xq g o1 (HA1 eq_refl)) as (a3 & -> & E3 & G3 & S3). exists a3. rewrite S3, (qt_streams _ _ Q2). auto.
    - destruct (HA0 eq_refl) as (-> & -> & ->). exists a2. split; [reflexivity|]. rewrite (qt_gaps _ _ Q2), (qt_streams _ _ Q2), app_nil_r.
      split; [|auto]. destruct E2 as [K T1 T2 T3 T4 T5]. split; try assumption. intros q. rewrite K. unfold with_r.
      destruct (Bool.eqb_spec (negb p) q) as [->|]; reflexivity. }
  destruct Pf as (a3 & Ef & E3 & G3 & S3).
  destruct (process_rest start _ k a3 (pk_len k - hdr_len k) E3 D Hsk) as (env2 & L2 & H2). fold p in H2.
  assert (Er : with_r (negb p) xq r p = r p) by (unfold with_r; destruct p; reflexivity). rewrite Er in H2.
  exists env2. split; [exact L2|]. intros xp o2 HD0 HD1. destruct (H2 xp o2 HD0 HD1) as (a4 & E4 & S4 & G4 & T4).
  exists a4. split; [|split; [exact S4|]; split; [now rewrite G4|]; rewrite T4, S3; now rewrite <- app_assoc].
  rewrite Ed, Ef. exact E4.
Qed.

(** ** Conversations *)

(** What a packet asks of the reassembler of the direction [p]. *)
Definition ops_of (start : bool -> Z) (k : Packet) (p : bool) : list Op :=
  if Bool.eqb p (pk_is_orig k)
  then match payload k with [] => [] | _ => [Segment (rel_seq start k) (payload k)] end
  else if ACK (flags_of k) then [Ack (pk_report_due k) (rel_ack start k)] else [].

Definition all_ops (start : bool -> Z) (ks : list Packet) (p : bool) : list Op := flat_map (fun k => ops_of start k p) ks.

Definition tag (ops : list Op) : list (REnv * Op) := map (pair (base_env opts)) ops.

(** Segments start after the SYN; an acknowledgement covers only bytes that have been seen. *)
Fixpoint orderly (before ops : list Op) : Prop :=
  match ops with
  | [] => True
  | op :: rest =>
      match op with
      | Segment seq _ => 1 <= seq
      | Ack _ seq => 0 <= seq /\ forall x, 1 <= x < seq -> first_copy (tag before) x <> None
      end /\ orderly (before ++ [op]) rest
  end.

(** The limits on undelivered data do not matter for the stream [s], which is short enough
    for [int]s; the analyzers do not skip. *)
Definition limits (s : list Z) : Prop :=
  stream_end s < SEQ_LIMIT /\ (forall seq d, r_skip_request (base_env opts) seq d = None) /\
  (tcp_max_above_hole_without_any_acks (base_env opts) = 0 \/ stream_end s - 1 <= tcp_max_above_hole_without_any_acks (base_env opts)) /\
  (tcp_excessive_data_without_further_acks (base_env opts) = 0 \/ stream_end s - 1 <= tcp_excessive_data_without_further_acks (base_env opts)).

Lemma first_copy_snd ops ops' : map snd ops = map snd ops' -> forall x, first_copy ops x = first_copy ops' x.
Proof.
  revert ops'. induction ops as [|[e op] ops IH]; intros [|[e' op'] ops'] E x; try discriminate; [reflexivity|].
  cbn in E. injection E as -> E. cbn [first_copy]. destruct op'; now rewrite (IH _ E).
Qed.

Lemma matches_snd s b b' r : map snd b = map snd b' -> matches s b r -> matches s b' r.
Proof. intros E (M1 & M2 & M3). split; [assumption|]. split; [assumption|]. intros p Hp. rewrite M3 by assumption. now rewrite (first_copy_snd _ _ E). Qed.

Lemma tag_snd ops : map snd (tag ops) = ops.
Proof. unfold tag. rewrite map_map. apply map_id. Qed.

(** One step of a reassembler in an environment of the connection. *)
Lemma like_step s before env op r g :
  limits s -> env_like env -> matches s (tag before) r -> orderly before [op] ->
  match op with Segment _ d => d <> [] | _ => True end ->
  extends s (tag (before ++ [op])) ->
  exists r' g' out, step env op r g = Some (r', g', out) /\ matches s (tag (before ++ [op])) r' /\
    delivered out = slice s (last_reassem_seq r) (last_reassem_seq r') /\ last_reassem_seq r <= last_reassem_seq r' /\ Forall harmless out /\ no_eof out /\
    (match op with Ack _ _ => existsb is_deliver out = false | _ => True end).
Proof.
  intros (L1 & L2 & L3 & L4) (V1 & V2 & V3 & V4 & V5) M [Ho _] Hd Hx.
  assert (Rg : regular s (tag before) [(env, op)]).
  { cbn [regular]. split; [intros; rewrite V1; apply L2|]. split; [unfold roomy; rewrite V3, V4; auto|]. split; [|exact I].
    destruct op as [seq d|due seq]; [split; assumption|]. destruct Ho as [H1 H2]. split; [assumption|]. split; [assumption|]. rewrite V2. lia. }
  assert (Sn : map snd (tag before ++ [(env, op)]) = map snd (tag (before ++ [op]))).
  { rewrite map_app, !tag_snd. reflexivity. }
  assert (Hx' : extends s (tag before ++ [(env, op)])).
  { intros x v Hx1 Hv. rewrite (first_copy_snd _ _ Sn) in Hv. now apply (Hx x v). }
  destruct (step_spec s (tag before) env op [] r g L1 M Rg Hx') as (r' & g' & out & E & M' & Hle & Hdel & Hh & _).
  exists r', g', out. split; [exact E|]. split; [eapply matches_snd; eassumption|]. split; [exact Hdel|]. split; [exact Hle|]. split; [exact Hh|]. split.
  { destruct op as [seq d|due seq]; cbn [step] in E; [|now apply no_eof_AckReceived in E].
    destruct (DataSent env true _ _ _ _) as [[[x o] v]|] eqn:Ds; [|discriminate]. injection E as _ _ <-. now apply no_eof_DataSent in Ds. }
  destruct op as [|due seq]; [exact I|]. destruct Ho as [H1 H2]. destruct M as (Sy & Hset & R). cbn [step] in E.
  eapply (AckReceived_silent s L1 env); [exact Sy|exact Hset| |exact V2|exact E].
  split; [assumption|]. destruct (Z_le_dec seq (last_reassem_seq r)) as [|Hn]; [assumption|]. exfalso.
  pose proof (sy_trim _ _ Sy). specialize (H2 (last_reassem_seq r) ltac:(lia)). rewrite <- R in H2 by lia.
  destruct H2 as [H2|H2]; [lia|now apply Hset in H2].
Qed.

(** The pieces of the streams in the order of their delivery. *)
Definition pieces (os : list (bool * Out)) : list (bool * list Z) :=
  flat_map (fun t => match t with (o, Deliver d) => [(o, d)] | _ => [] end) os.

Lemma pieces_app a b : pieces (a ++ b) = pieces a ++ pieces b.
Proof. apply flat_map_app. Qed.

Lemma pieces_silent o out : existsb is_deliver out = false -> pieces (map (pair o) out) = [].
Proof. induction out as [|x out IH]; [reflexivity|]. cbn. destruct x; cbn; auto; discriminate. Qed.

Lemma pieces_delivered o out :
  pieces (map (pair o) out) = map (pair o) (flat_map (fun x => match x with Deliver d => [d] | _ => [] end) out) /\
  concat (flat_map (fun x => match x with Deliver d => [d] | _ => [] end) out) = delivered out.
Proof.
  unfold delivered. induction out as [|x out [IH1 IH2]]; [split; reflexivity|]. cbn [map flat_map concat pieces]. fold (pieces (map (pair o) out)).
  rewrite IH1. destruct x; cbn [app map concat]; rewrite ?IH2; auto.
Qed.

(** A connection whose reassemblers [r] match the requests [before] for the streams [s]. *)
Definition conv (start : bool -> Z) (s : bool -> list Z) (before : bool -> list Op) (r : bool -> Reassembler) (a : TCP_Analyzer) : Prop :=
  est start r a /\ forall p, matches (s p) (tag (before p)) (r p).

(** What a reassembler does when nothing is lost and nothing ends. *)
Definition plain (x : bool * Out) : Prop := harmless (snd x) /\ snd x <> EndpointEOF.

Lemma plain_all p o : Forall harmless o -> no_eof o -> Forall plain (map (pair p) o).
Proof. intros H N. apply Forall_map. unfold no_eof in N. rewrite Forall_forall in *. intros x Hx. split; [apply H|apply N]; exact Hx. Qed.

(** A packet of a conversation. *)
Lemma conv_packet start s before r k a :
  let p := pk_is_orig k in
  conv start s before r a -> data_packet k -> Skipping (base_env opts) = false -> (forall q, limits (s q)) ->
  (forall q, orderly (before q) (ops_of start k q)) -> (forall q, extends (s q) (tag (before q ++ ops_of start k q))) ->
  exists r' a' ss ds, DeliverPacket opts base k a = Some a' /\ conv start s (fun q => before q ++ ops_of start k q) r' a' /\
    (streams (outs a') = streams (outs a) ++ ss /\ pieces ss = map (pair p) ds /\ Forall plain ss) /\
    concat ds = slice (s p) (last_reassem_seq (r p)) (last_reassem_seq (r' p)) /\
    last_reassem_seq (r p) <= last_reassem_seq (r' p) /\ last_reassem_seq (r' (negb p)) = last_reassem_seq (r (negb p)) /\
    (payload k = [] -> ds = []).
Proof.
  intros p [E M] D Hsk Hl Ho Hx. destruct (deliver_data_packet start r k a E D Hsk) as (env1 & L1 & H1). fold p in H1.
  assert (Sq : Bool.eqb (negb p) (pk_is_orig k) = false) by (subst p; destruct (pk_is_orig k); reflexivity).
  assert (Sp : Bool.eqb p (pk_is_orig k) = true) by (subst p; apply Bool.eqb_reflx).
  (* the acknowledgement *)
  assert (A1 : exists xq g o1, (ACK (flags_of k) = false -> xq = r (negb p) /\ g = gaps a /\ o1 = []) /\
     (ACK (flags_of k) = true -> AckReceived env1 (pk_report_due k) (rel_ack start k) (r (negb p)) (gaps a) = Some (xq, g, o1)) /\
     matches (s (negb p)) (tag (before (negb p) ++ ops_of start k (negb p))) xq /\ existsb is_deliver o1 = false /\
     last_reassem_seq xq = last_reassem_seq (r (negb p)) /\ Forall plain (map (pair (negb p)) o1)).
  { specialize (Ho (negb p)). specialize (Hx (negb p)). unfold ops_of in *. rewrite Sq in *. destruct (ACK (flags_of k)).
    - destruct (like_step (s (negb p)) (before (negb p)) env1 _ (r (negb p)) (gaps a) (Hl _) L1 (M _) Ho I Hx)
        as (xq & g & o1 & Es & Mq & Dq & Lq & Hq & Nq & Sil). exists xq, g, o1. split; [discriminate|]. split; [intros _; exact Es|].
      split; [exact Mq|]. split; [exact Sil|]. split; [|now apply plain_all].
      assert (Dn : delivered o1 = []) by (clear -Sil; unfold delivered; induction o1 as [|x o1 IH]; [reflexivity|]; cbn in *; destruct x; cbn in *; auto; discriminate).
      rewrite Dn in Dq. pose proof (sy_trim _ _ (proj1 (M (negb p)))) as [T1 T2]. pose proof (sy_last _ _ (proj1 Mq)) as T3. unfold slice in Dq.
      assert (Ln : length (firstn (Z.to_nat (last_reassem_seq xq - last_reassem_seq (r (negb p)))) (skipn (Z.to_nat (last_reassem_seq (r (negb p)) - 1)) (s (negb p)))) = 0%nat)
        by (rewrite <- Dq; reflexivity).
      rewrite length_firstn, length_skipn in Ln. unfold stream_end in T3. lia.
    - exists (r (negb p)), (gaps a), []. rewrite app_nil_r. split; [auto|]. split; [discriminate|]. split; [apply M|]. repeat split. constructor. }
  destruct A1 as (xq & g & o1 & HA0 & HA1 & Mq & Sil & Lq & Pq). destruct (H1 xq g o1 HA0 HA1) as (env2 & L2 & H2). clear H1.
  (* the data *)
  assert (A2 : exists xp o2, (payload k = [] -> xp = r p /\ o2 = []) /\
     (payload k <> [] -> exists v, DataSent env2 true (rel_seq start k) (Z.of_nat (length (payload k))) (payload k) (r p) = Some (xp, o2, v)) /\
     matches (s p) (tag (before p ++ ops_of start k p)) xp /\ delivered o2 = slice (s p) (last_reassem_seq (r p)) (last_reassem_seq xp) /\
     last_reassem_seq (r p) <= last_reassem_seq xp /\ Forall plain (map (pair p) o2)).
  { specialize (Ho p). specialize (Hx p). unfold ops_of in *. rewrite Sp in *. destruct (payload k) as [|b bs] eqn:Ep.
    - exists (r p), []. rewrite app_nil_r. split; [auto|]. split; [easy|]. split; [apply M|]. split; [unfold slice; now rewrite Z.sub_diag|]. split; [lia|constructor].
    - destruct (like_step (s p) (before p) env2 _ (r p) g (Hl _) L2 (M _) Ho ltac:(discriminate) Hx) as (xp & g' & o2 & Es & Mp & Dp & Lp & Hp & Np & _).
      exists xp, o2. split; [discriminate|]. split; [|split; [exact Mp|]; split; [exact Dp|]; split; [exact Lp|now apply plain_all]]. intros _. cbn [step] in Es.
      destruct (DataSent env2 true _ _ _ _) as [[[xp' o2'] v]|]; [|discriminate]. injection Es as <- _ <-. now exists v. }
  destruct A2 as (xp & o2 & HD0 & HD1 & Mp & Dp & Lp & Pp). destruct (H2 xp o2 HD0 HD1) as (a' & Ea & E' & _ & St).
  destruct (pieces_delivered p o2) as [P1 P2].
  exists (with_r p xp (with_r (negb p) xq r)), a', (map (pair (negb p)) o1 ++ map (pair p) o2),
    (flat_map (fun x => match x with Deliver d => [d] | _ => [] end) o2).
  assert (Rp : with_r p xp (with_r (negb p) xq r) p = xp) by (unfold with_r; destruct p; reflexivity).
  assert (Rq : with_r p xp (with_r (negb p) xq r) (negb p) = xq) by (unfold with_r; destruct p; reflexivity).
  split; [exact Ea|]. split; [|split; [|rewrite Rp, Rq; split; [now rewrite P2|split; [assumption|split; [assumption|]]]]].
  3:{ intros Hp. now destruct (HD0 Hp) as [_ ->]. }
  - split; [exact E'|]. intros q. destruct (Bool.bool_dec q p) as [->|Hq]; [now rewrite Rp|].
    assert (q = negb p) as -> by (clear -Hq; generalize dependent p; intros [] H; destruct q; cbn; congruence). now rewrite Rq.
  - split; [exact St|]. split; [now rewrite pieces_app, (pieces_silent _ _ Sil), P1|]. apply Forall_app. now split.
Qed.

Lemma orderly_app before ops ops' : orderly before (ops ++ ops') <-> orderly before ops /\ orderly (before ++ ops) ops'.
Proof.
  revert before. induction ops as [|op ops IH]; intros before; cbn [app orderly]; [rewrite app_nil_r; tauto|].
  rewrite IH, <- app_assoc. cbn [app]. tauto.
Qed.

Lemma extends_prefix s b c : extends s (tag (b ++ c)) -> extends s (tag b).
Proof.
  intros H x v Hx Hv. apply (H x v Hx). unfold tag. rewrite map_app, first_copy_app. fold (tag b). now rewrite Hv.
Qed.

(** The bytes of [ps] that go in the direction [q]. *)
Definition bytes_of (q : bool) (ps : list (bool * list Z)) : list Z :=
  concat (map snd (filter (fun x => Bool.eqb (fst x) q) ps)).

Lemma bytes_of_app q a b : bytes_of q (a ++ b) = bytes_of q a ++ bytes_of q b.
Proof. unfold bytes_of. now rewrite filter_app, map_app, concat_app. Qed.

Lemma bytes_of_one q p ds : bytes_of q (map (pair p) ds) = if Bool.eqb p q then concat ds else [].
Proof.
  unfold bytes_of. induction ds as [|d ds IH]; [now destruct (Bool.eqb p q)|]. cbn [map filter fst].
  destruct (Bool.eqb p q); cbn [map snd concat]; now rewrite IH.
Qed.

Lemma conv_packets start s ks : forall before r a,
  conv start s before r a -> Forall data_packet ks -> Skipping (base_env opts) = false -> (forall q, limits (s q)) ->
  (forall q, orderly (before q) (all_ops start ks q)) -> (forall q, extends (s q) (tag (before q ++ all_ops start ks q))) ->
  exists r' a' ps, deliver_packets opts base ks a = Some a' /\ conv start s (fun q => before q ++ all_ops start ks q) r' a' /\
    pieces (streams (outs a')) = pieces (streams (outs a)) ++ ps /\
    (forall q, bytes_of q ps = slice (s q) (last_reassem_seq (r q)) (last_reassem_seq (r' q)) /\
               1 <= last_reassem_seq (r q) <= last_reassem_seq (r' q)) /\
    Forall (fun x => exists k, In k ks /\ payload k <> [] /\ fst x = pk_is_orig k) ps.
Proof.
  induction ks as [|k ks IH]; intros before r a C F Hsk Hl Ho Hx.
  - exists r, a, []. split; [reflexivity|]. split; [destruct C as [E M]; split; [exact E|]; intros q; rewrite app_nil_r; apply M|].
    rewrite app_nil_r. split; [reflexivity|]. split; [|constructor]. intros q. split; [unfold slice; now rewrite Z.sub_diag|].
    destruct C as [_ M]. pose proof (sy_trim _ _ (proj1 (M q))). lia.
  - apply Forall_cons_iff in F as [D F]. cbn [all_ops flat_map] in *. fold (all_ops start ks) in *.
    destruct (conv_packet start s before r k a C D Hsk Hl) as (r1 & a1 & ss & ds & E1 & C1 & (U1 & U2 & _) & D1 & L1 & L2 & N1).
    { intros q. now apply (orderly_app (before q) (ops_of start k q) (all_ops start ks q)). }
    { intros q. apply (extends_prefix _ _ (all_ops start ks q)). rewrite <- app_assoc. apply Hx. }
    destruct (IH _ r1 a1 C1 F Hsk Hl) as (r2 & a2 & ps & E2 & C2 & P2 & D2 & F2).
    { intros q. now apply (orderly_app (before q) (ops_of start k q) (all_ops start ks q)). }
    { intros q. rewrite <- app_assoc. apply Hx. }
    exists r2, a2, (map (pair (pk_is_orig k)) ds ++ ps). cbn [deliver_packets]. rewrite E1. split; [exact E2|].
    split; [destruct C2 as [C2 M2]; split; [exact C2|]; intros q; rewrite app_assoc; apply M2|].
    split; [rewrite P2, U1, pieces_app, U2; now rewrite app_assoc|]. split.
    + intros q. destruct (D2 q) as [D2q L3]. rewrite bytes_of_app, bytes_of_one, D2q.
      assert (T1 : 1 <= last_reassem_seq (r q)) by (destruct C as [_ M]; pose proof (sy_trim _ _ (proj1 (M q))); lia).
      destruct (Bool.eqb_spec (pk_is_orig k) q) as [<-|Hq].
      * split; [|lia]. rewrite D1. apply slice_app; lia.
      * assert (q = negb (pk_is_orig k)) as -> by (clear -Hq; destruct q, (pk_is_orig k); cbn; congruence). rewrite L2 in *. split; [reflexivity|lia].
    + apply Forall_app. split.
      * apply Forall_map. apply Forall_forall. intros d Hd. exists k. split; [now left|]. split; [|reflexivity].
        intros Hp. rewrite (N1 Hp) in Hd. destruct Hd.
      * eapply Forall_impl; [|exact F2]. intros x (k' & Hk' & R). exists k'. split; [now right|exact R].
Qed.

(** When every byte has arrived, every byte has been delivered. *)
Lemma conv_complete start s before r a q :
  conv start s before r a -> (forall x, 1 <= x < stream_end (s q) -> first_copy (tag (before q)) x <> None) ->
  slice (s q) 1 (last_reassem_seq (r q)) = s q.
Proof.
  intros [_ M] Hall. destruct (M q) as (Sy & Hset & R). pose proof (sy_trim _ _ Sy) as Ht. pose proof (sy_last _ _ Sy) as Hl.
  assert (Hend : last_reassem_seq (r q) = stream_end (s q)).
  { destruct (Z_lt_dec (last_reassem_seq (r q)) (stream_end (s q))) as [Hlt|]; [|lia]. exfalso.
    specialize (Hall (last_reassem_seq (r q)) ltac:(lia)). rewrite <- R in Hall by lia.
    destruct Hall as [C|C]; [lia|now apply Hset in C]. }
  rewrite Hend, slice_prefix by (unfold stream_end; lia). apply firstn_all2. unfold stream_end. lia.
Qed.

(** The bytes of an established connection; see [connection_delivered]. *)
Lemma conversation_delivered start s ks a :
  est start (fun _ => new_Reassembler) a -> Forall data_packet ks -> Skipping (base_env opts) = false ->
  (forall q, limits (s q)) -> (forall q, orderly [] (all_ops start ks q)) -> (forall q, extends (s q) (tag (all_ops start ks q))) ->
  (forall q x, 1 <= x < stream_end (s q) -> first_copy (tag (all_ops start ks q)) x <> None) ->
  exists a', deliver_packets opts base ks a = Some a' /\
    forall q, bytes_of q (pieces (streams (outs a'))) = bytes_of q (pieces (streams (outs a))) ++ s q.
Proof.
  intros E D Hsk Hl Ho Hx Hall.
  destruct (conv_packets start s ks (fun _ => []) (fun _ => new_Reassembler) a) as (r' & a' & ps & E1 & C1 & P1 & B1 & _); auto.
  { split; [exact E|]. intros p. apply matches_new. }
  exists a'. split; [exact E1|]. intros q. rewrite P1, bytes_of_app. f_equal. destruct (B1 q) as [-> _].
  change (last_reassem_seq new_Reassembler) with 1. now rewrite (conv_complete start s (all_ops start ks) r' a' q C1 (Hall q)).
Qed.

(** ** The three-way handshake *)

(** Packets without data that set SYN. *)
Record syn_packet (k : Packet) (with_ack : bool) : Prop := {
  sp_bytes : Forall is_byte (pk_data k);
  sp_header : sizeof_tcphdr <= hdr_len k /\ hdr_len k = pk_len k;
  sp_length : pk_len k = Z.of_nat (length (pk_data k)) /\ pk_len k < 2 ^ 31;
  sp_captured : pk_caplen k = pk_len k;
  sp_flags : SYN (flags_of k) = true /\ FIN (flags_of k) = false /\ RST (flags_of k) = false /\ ACK (flags_of k) = with_ack;
  sp_checksum : ignore_checksums opts = true \/ ValidChecksum (base (pk_is_orig k)) (pk_data k) 0 = Some true }.

Lemma quiet_ProcessSYN tp l p s k o f a :
  Forall is_byte tp -> exists a', ProcessSYN opts tp l p s k o f a = Some (a', l + 1) /\ quiet a a'.
Proof.
  intros Hb. unfold ProcessSYN. cbv zeta. destruct (BuildSYNPacketVal tp) as [[[sc M] S]|] eqn:E.
  2:{ exfalso. unfold BuildSYNPacketVal in E. revert E. apply SYN_options_total; [lia|now apply options_typed]. }
  eexists. split; [reflexivity|]. set (a1 := when (RST f) _ a). set (a2 := when (URG f) _ a1). set (a3 := when (0 <? l) _ a2).
  assert (Q : quiet a a3).
  { do 2 (eapply quiet_trans; [|apply quiet_when, quiet_Weird]). apply quiet_when, quiet_Weird. }
  eapply quiet_trans; [|apply quiet_when, quiet_out; reflexivity]. eapply quiet_trans; [exact Q|].
  destruct (sc <? 0).
  - eapply quiet_trans; [|apply quiet_when, quiet_upd; reflexivity]. apply quiet_upd. reflexivity.
  - eapply quiet_trans; [|apply quiet_upd; reflexivity]. apply quiet_upd. reflexivity.
Qed.


Lemma quiet_CheckEOF p r a :
  contents_processor (ep p a) = Some r -> FIN_cnt (counts (ep p a)) = 0 -> ep_state (ep p a) <> TCP_ENDPOINT_CLOSED ->
  ep_state (ep p a) <> TCP_ENDPOINT_RESET -> quiet a (ep_CheckEOF opts p a).
Proof.
  intros C F N1 N2. unfold ep_CheckEOF. rewrite C. unfold CheckEOF. cbn [endp_FIN_cnt endp_state env_of]. rewrite F. unfold state_eqb.
  destruct (EndpointState_eq_dec _ TCP_ENDPOINT_CLOSED); [easy|]. destruct (EndpointState_eq_dec _ TCP_ENDPOINT_RESET); [easy|].
  cbn [Z.ltb Z.compare orb]. rewrite andb_false_r. cbn [andb]. unfold from_reassembler. cbn [map existsb when].
  eapply quiet_trans; [|apply quiet_out; reflexivity]. apply quiet_upd'. unfold key. cbn. now rewrite C.
Qed.

(** The end of a packet without data that closes nothing. *)
Lemma after_flags_nodata k n a a6 d a8 r :
  let p := pk_is_orig k in let tp := pk_data k in let last := wrap 32 (th_seq tp + n) in
  Forall is_byte tp ->
  UpdateLastSeq p last (flags_of k)
    (when (in_state p TCP_ENDPOINT_INACTIVE a) (TransitionFromInactive (pk_time k) p (th_seq tp) last (SYN (flags_of k))) a) = (a6, d) ->
  UpdateStateMachine opts p (th_seq tp) (th_ack tp) last 0 d p (flags_of k)
    (upd p (fun e => set_seen {| start_time := start_time (seen e); last_time := pk_time k; last_TTL := pk_TTL k; last_IP_ID := pk_IP_ID k |} e) a6)
    = (a8, false, false) ->
  contents_processor (ep p a8) = Some r -> FIN_cnt (counts (ep p a8)) = 0 -> ep_state (ep p a8) <> TCP_ENDPOINT_CLOSED ->
  ep_state (ep p a8) <> TCP_ENDPOINT_RESET -> reassembling a8 = true ->
  exists a9, quiet a8 a9 /\ after_flags opts k (hdr_len k) 0 (pk_caplen k - hdr_len k) n p a = Some (CheckPIA_FirstPacket opts p a9).
Proof.
  intros p tp last Hb E6 E8 C F N1 N2 Hre. unfold after_flags. cbv zeta. fold (payload k) (flags_of k) p tp last. rewrite E6, E8.
  match goal with |- context [when (handles_tcp_packet opts) ?h a8] => set (a9 := when (handles_tcp_packet opts) h a8) end.
  assert (Q9 : quiet a8 a9) by (apply quiet_when, quiet_out; reflexivity). clearbody a9.
  assert (Op : exists os v, (if handles_tcp_option opts && (sizeof_tcphdr <? hdr_len k) && (hdr_len k <=? wrap 32 (pk_caplen k - hdr_len k))
             then ParseTCPOptions (length (options_of tp)) p (options_of tp) else Some ([], 0)) = Some (os, v) /\ streams os = []).
  { destruct (_ && _); [|exists [], 0; auto].
    destruct (ParseTCPOptions_total p (length (options_of tp)) (options_of tp) (le_n _) (options_typed _ Hb)) as (os & v & -> & Fo).
    exists os, v. split; [reflexivity|now apply streams_options]. }
  destruct Op as (os & v & -> & So). cbn [Z.ltb Z.compare andb].
  assert (Q10 : quiet a8 (out os a9)) by (eapply quiet_trans; [exact Q9|now apply quiet_out]). set (a10 := out os a9) in *. clearbody a10.
  pose proof (qt_key _ _ Q10 p) as K. unfold key in K. injection K as K1 K2 K3 K4 K5 K6.
  assert (Q11 : quiet a8 (ep_CheckEOF opts p a10)) by (eapply quiet_trans; [exact Q10|]; apply (quiet_CheckEOF p r); congruence).
  exists (ep_CheckEOF opts p a10). split; [exact Q11|]. cbn [when]. rewrite (qt_reassembling _ _ Q11), Hre. reflexivity.
Qed.

(** A connection of which nothing has been seen, and one of which the SYN has. *)
Definition stage (st_o st_r : EndpointState) (c d first : Z) (a : TCP_Analyzer) : Prop :=
  key (ep true a) = (st_o, true, c, 0, 0, Some new_Reassembler) /\ key (ep false a) = (st_r, false, d, 0, 0, Some new_Reassembler) /\
  orig a = true /\ first_packet_seen a = first /\ close_deferred a = false /\ reassembling a = true.

Lemma stage_quiet st_o st_r c d n a a' : stage st_o st_r c d n a -> quiet a a' -> stage st_o st_r c d n a'.
Proof. intros (S1 & S2 & S3 & S4 & S5 & S6) [Q1 Q2 Q3 Q4 Q5 Q6 Q7 Q8]. unfold stage. rewrite !Q1, Q2, Q4, Q5, Q6. auto 10. Qed.

Lemma stage_fresh junk partial g :
  stage TCP_ENDPOINT_INACTIVE TCP_ENDPOINT_INACTIVE 0 0 0 (EnableReassembly (new_TCP_Analyzer junk partial g)).
Proof. repeat split. Qed.

Lemma key_inv e st o c f r x :
  key e = (st, o, c, f, r, x) ->
  ep_state e = st /\ is_orig e = o /\ StartSeq e = c /\ FIN_cnt (counts e) = f /\ RST_cnt (counts e) = r /\ contents_processor e = x.
Proof. unfold key. intros [= -> -> -> -> -> ->]. auto 10. Qed.

(** [SetState] to another state. *)
Lemma SetState_other p st a :
  ep_state (ep p a) <> st ->
  quiet (upd p (set_states st (ep_state (ep p a))) a) (SetState p st a).
Proof.
  intros N. unfold SetState, state_eqb. destruct (EndpointState_eq_dec st (ep_state (ep p a))); [congruence|].
  set (b := _ && _ && _). destruct b; cbn [when]; [|apply quiet_refl].
  split; try reflexivity. cbn. rewrite streams_app. apply app_nil_r.
Qed.

Lemma key_set_states st pr e : key (set_states st pr e) = (st, is_orig e, StartSeq e, FIN_cnt (counts e), RST_cnt (counts e), contents_processor e).
Proof. reflexivity. Qed.

Lemma stage_SetState_orig st st_o st_r c d n a :
  stage st_o st_r c d n a -> st_o <> st -> stage st st_r c d n (SetState true st a).
Proof.
  intros S N. pose proof S as (K1 & _). destruct (key_inv _ _ _ _ _ _ _ K1) as (E & _).
  eapply stage_quiet; [|apply SetState_other; congruence]. destruct S as (_ & K2 & S3 & S4 & S5 & S6). unfold stage.
  rewrite ep_upd_same. change (ep false (upd true (set_states st (ep_state (ep true a))) a)) with (ep false a). rewrite key_set_states.
  apply key_inv in K1 as (_ & -> & -> & -> & -> & ->). auto 10.
Qed.

Lemma stage_SetState_resp st st_o st_r c d n a :
  stage st_o st_r c d n a -> st_r <> st -> stage st_o st c d n (SetState false st a).
Proof.
  intros S N. pose proof S as (_ & K2 & _). destruct (key_inv _ _ _ _ _ _ _ K2) as (E & _).
  eapply stage_quiet; [|apply SetState_other; congruence]. destruct S as (K1 & _ & S3 & S4 & S5 & S6). unfold stage.
  rewrite ep_upd_same. change (ep true (upd false (set_states st (ep_state (ep false a))) a)) with (ep true a). rewrite key_set_states.
  apply key_inv in K2 as (_ & -> & -> & -> & -> & ->). auto 10.
Qed.

(** Streams and [is_partial] through a change of state. *)
Definition calm (a a' : TCP_Analyzer) : Prop := is_partial a' = is_partial a /\ streams (outs a') = streams (outs a).

Lemma calm_quiet a a' : quiet a a' -> calm a a'.
Proof. intros Q. split; [apply (qt_partial _ _ Q)|apply (qt_streams _ _ Q)]. Qed.

Lemma calm_trans a b c : calm a b -> calm b c -> calm a c.
Proof. intros [A1 A2] [B1 B2]. split; congruence. Qed.

Lemma calm_SetState p st a : calm a (SetState p st a).
Proof.
  unfold SetState. destruct (state_eqb st (ep_state (ep p a))); [split; reflexivity|]. unfold when.
  match goal with |- context [if ?b then _ else a] => destruct b end; split; try reflexivity. cbn. rewrite streams_app. apply app_nil_r.
Qed.

Lemma stage_first (p : bool) st_o st_r c d n a :
  stage st_o st_r c d n a -> 0 <= n <= 3 ->
  stage st_o st_r c d (Z.lor n (if p then 1 else 2)) (CheckPIA_FirstPacket opts p a) /\ calm a (CheckPIA_FirstPacket opts p a).
Proof.
  intros (K1 & K2 & S3 & S4 & S5 & S6) Hn. unfold CheckPIA_FirstPacket. rewrite S4.
  assert (C : n = 0 \/ n = 1 \/ n = 2 \/ n = 3) by lia.
  set (b := has_PIA opts). unfold stage, calm, when.
  destruct p; destruct C as [->|[->|[->| ->]]]; cbn; destruct b; cbn; rewrite ?streams_app, ?app_nil_r; auto 10.
Qed.

(** The SYN. *)
Lemma deliver_SYN k a :
  syn_packet k false -> pk_is_orig k = true -> stage TCP_ENDPOINT_INACTIVE TCP_ENDPOINT_INACTIVE 0 0 0 a ->
  exists a', DeliverPacket opts base k a = Some a' /\ stage TCP_ENDPOINT_SYN_SENT TCP_ENDPOINT_INACTIVE (th_seq (pk_data k)) 0 1 a' /\
             is_partial a' = false /\ streams (outs a') = streams (outs a).
Proof.
  intros P Ho S. pose proof S as (K1 & K2 & So & Sf & Sd & Sr). destruct (sp_header _ _ P) as [H1 H2]. destruct (sp_length _ _ P) as [H3 H4].
  destruct (sp_flags _ _ P) as (F1 & F2 & F3 & F4).
  destruct (DeliverPacket_frame k a) as (a1 & Q & Ed); [apply (sp_bytes _ _ P)|lia|lia|apply (sp_captured _ _ P)| |assumption|].
  { rewrite H2, Z.sub_diag. apply (sp_checksum _ _ P). }
  assert (Pf : partial_after (flags_of k) true a = false).
  { unfold partial_after. rewrite Sf. apply key_inv in K1 as (_ & -> & _). rewrite F1, F4. reflexivity. }
  rewrite Ho in Q, Ed. rewrite Pf in Q. replace (pk_len k - hdr_len k) with 0 in Ed by lia.
  destruct (quiet_ProcessSYN (pk_data k) 0 true (th_seq (pk_data k)) (th_ack (pk_data k)) true (flags_of k) a1 (sp_bytes _ _ P)) as (a2 & E2 & Q2).
  unfold ProcessFlags in Ed. rewrite F1, F2, F3, F4, E2 in Ed. cbn [Z.add] in Ed.
  assert (Q3 : quiet (set_bits (first_packet_seen a) false (is_active a) (seen_first_ACK a) a) a2) by (eapply quiet_trans; eassumption).
  assert (S3 : stage TCP_ENDPOINT_INACTIVE TCP_ENDPOINT_INACTIVE 0 0 0 a2) by (eapply stage_quiet; [|exact Q3]; exact S).
  pose proof (qt_partial _ _ Q3) as P3. pose proof (qt_streams _ _ Q3) as T3. cbn in P3, T3. clear Q Q2 Q3 E2 a1 S K1 K2 So Sf Sd Sr Pf.
  pose proof S3 as (K1 & K2 & So & Sf & Sd & Sr). set (tp := pk_data k) in *.
  set (a3 := when (in_state true TCP_ENDPOINT_INACTIVE a2) (TransitionFromInactive (pk_time k) true (th_seq tp) (wrap 32 (th_seq tp + 1)) (SYN (flags_of k))) a2).
  assert (E3 : a3 = TransitionFromInactive (pk_time k) true (th_seq tp) (wrap 32 (th_seq tp + 1)) true a2).
  { unfold a3, in_state, state_of. apply key_inv in K1 as (-> & _). now rewrite F1. }
  assert (S4 : stage TCP_ENDPOINT_INACTIVE TCP_ENDPOINT_INACTIVE (th_seq tp) 0 0 a3).
  { rewrite E3. unfold stage, TransitionFromInactive. rewrite ep_upd_same.
    match goal with |- context [ep false (upd true ?f a2)] => change (ep false (upd true f a2)) with (ep false a2) end.
    apply key_inv in K1 as (X1 & X2 & X3 & X4 & X5 & X6). unfold key, StartSeq. cbn [ep_state is_orig seqs start_seq counts contents_processor set_seen InitSeqs set_seqs].
    rewrite X1, X2, X4, X5, X6. auto 10. }
  assert (C4 : calm a2 a3) by (rewrite E3; split; reflexivity).
  pose proof (quiet_UpdateLastSeq true (wrap 32 (th_seq tp + 1)) (flags_of k) a3) as Q5.
  destruct (UpdateLastSeq true (wrap 32 (th_seq tp + 1)) (flags_of k) a3) as [a5 d5] eqn:E5. cbn [fst] in Q5.
  set (a6 := upd true (fun e => set_seen {| start_time := start_time (seen e); last_time := pk_time k; last_TTL := pk_TTL k; last_IP_ID := pk_IP_ID k |} e) a5).
  assert (Q6 : quiet a3 a6) by (eapply quiet_trans; [exact Q5|]; apply quiet_upd; reflexivity).
  pose proof (stage_quiet _ _ _ _ _ _ _ S4 Q6) as S6. set (a7 := SetState true TCP_ENDPOINT_SYN_SENT a6).
  pose proof (stage_SetState_orig TCP_ENDPOINT_SYN_SENT _ _ _ _ _ _ S6 ltac:(discriminate)) as S7. fold a7 in S7.
  set (a8 := when (handles_connection_attempt opts) (out [Timer "AttemptTimer"]) a7).
  assert (Q8 : quiet a7 a8) by (apply quiet_when, quiet_out; reflexivity). pose proof (stage_quiet _ _ _ _ _ _ _ S7 Q8) as S8.
  assert (E8 : UpdateStateMachine opts true (th_seq tp) (th_ack tp) (wrap 32 (th_seq tp + 1)) 0 d5 true (flags_of k) a6 = (a8, false, false)).
  { unfold UpdateStateMachine, state_of. destruct S6 as (X & _). apply key_inv in X as (-> & _). unfold UpdateInactiveState.
    rewrite F1, F2, F3. cbn [when]. unfold inactive_SYN. rewrite F4. fold a7. fold a8.
    unfold in_state, state_of. destruct S8 as (X & _). apply key_inv in X as (-> & _). reflexivity. }
  pose proof S8 as (X & _ & _ & _ & _ & Xr). apply key_inv in X as (X1 & _ & _ & X4 & _ & X6).
  pose proof (after_flags_nodata k 1 a2 a5 d5 a8 new_Reassembler) as An. cbn zeta in An. rewrite Ho in An. fold tp in An.
  destruct An as (a9 & Q9 & E9); try assumption; try (rewrite X1; discriminate); [apply (sp_bytes _ _ P)|].
  rewrite E9 in Ed. pose proof (stage_quiet _ _ _ _ _ _ _ S8 Q9) as S9.
  destruct (stage_first true _ _ _ _ _ a9 S9 ltac:(lia)) as [S10 C10]. eexists. split; [exact Ed|]. split; [exact S10|].
  assert (C : calm a2 (CheckPIA_FirstPacket opts true a9)).
  { eapply calm_trans; [exact C4|]. eapply calm_trans; [apply calm_quiet, Q6|]. eapply calm_trans; [apply calm_SetState|].
    eapply calm_trans; [apply calm_quiet, Q8|]. eapply calm_trans; [apply calm_quiet, Q9|exact C10]. }
  destruct C as [C1 C2]. rewrite C1, C2, P3, T3. auto.
Qed.

(** An acknowledgement of the SYN alone. *)
Lemma AckReceived_SYN env due g : endp_FIN_cnt env = 0 -> AckReceived env due 1 new_Reassembler g = Some (new_Reassembler, g, []).
Proof. intros F. unfold AckReceived. rewrite F. reflexivity. Qed.

Lemma quiet_same_reassembler p r a : contents_processor (ep p a) = Some r -> quiet a (from_reassembler opts p r [] a).
Proof.
  intros C. unfold from_reassembler. cbn [map existsb when]. eapply quiet_trans; [|apply quiet_out; reflexivity].
  apply quiet_upd'. unfold key. cbn. now rewrite C.
Qed.

(** [TransitionFromInactive] of the responder. *)
Lemma stage_transition t d l st_o c n a :
  stage st_o TCP_ENDPOINT_INACTIVE c 0 n a -> stage st_o TCP_ENDPOINT_INACTIVE c d n (TransitionFromInactive t false d l true a) /\
  calm a (TransitionFromInactive t false d l true a).
Proof.
  intros (K1 & K2 & S3 & S4 & S5 & S6). split; [|split; reflexivity]. unfold stage, TransitionFromInactive. rewrite ep_upd_same.
  match goal with |- context [ep true (upd false ?f a)] => change (ep true (upd false f a)) with (ep true a) end.
  apply key_inv in K2 as (X1 & X2 & X3 & X4 & X5 & X6). unfold key at 2. unfold StartSeq.
  cbn [ep_state is_orig seqs start_seq counts contents_processor set_seen InitSeqs set_seqs]. rewrite X1, X2, X4, X5, X6. auto 10.
Qed.

(** The acknowledgement that the SYN-ACK carries. *)
Lemma ProcessACK_SYN c k f due a :
  stage TCP_ENDPOINT_SYN_SENT TCP_ENDPOINT_INACTIVE c 0 1 a -> in_width 32 c -> k = wrap 32 (c + 1) -> RST f = false ->
  exists a', ProcessACK opts due false k false f a = Some a' /\ quiet a a'.
Proof.
  intros S Hc -> Hr. unfold ProcessACK. cbn [andb negb]. cbv zeta. pose proof S as (K1 & _). apply key_inv in K1 as (X1 & _).
  rewrite X1, Hr. change (state_eqb TCP_ENDPOINT_SYN_SENT TCP_ENDPOINT_INACTIVE) with false. cbn iota. cbn [negb].
  match goal with |- context [ep_AckReceived _ _ _ _ (if ?b then a else ?y)] => set (a2 := if b then a else y) end.
  assert (Q2 : quiet a a2) by (subst a2; destruct (_ && _); [apply quiet_refl|]; apply quiet_when, quiet_upd; reflexivity).
  pose proof (stage_quiet _ _ _ _ _ _ _ S Q2) as (K1 & _). apply key_inv in K1 as (_ & _ & X3 & X4 & _ & X6).
  unfold ep_AckReceived. rewrite X6, X3.
  replace (swrap 32 (wrap 32 (c + 1) - c)) with 1.
  2:{ unfold in_width in Hc. unfold wrap. destruct (Z.eq_dec c (2 ^ 32 - 1)) as [->|]; [reflexivity|].
      rewrite Z.mod_small by lia. replace (c + 1 - c) with 1 by lia. reflexivity. }
  rewrite AckReceived_SYN by exact X4. eexists. split; [reflexivity|].
  eapply quiet_trans; [exact Q2|]. eapply quiet_trans; [|apply quiet_same_reassembler; exact X6]. split; reflexivity.
Qed.

(** The SYN-ACK. *)
Lemma deliver_SYN_ACK k a c :
  syn_packet k true -> pk_is_orig k = false -> stage TCP_ENDPOINT_SYN_SENT TCP_ENDPOINT_INACTIVE c 0 1 a -> is_partial a = false ->
  in_width 32 c -> th_ack (pk_data k) = wrap 32 (c + 1) ->
  exists a', DeliverPacket opts base k a = Some a' /\
             est (fun p => if p then c else th_seq (pk_data k)) (fun _ => new_Reassembler) a' /\ streams (outs a') = streams (outs a).
Proof.
  intros P Ho S Hp Hc Hack. pose proof S as (K1 & K2 & So & Sf & Sd & Sr). destruct (sp_header _ _ P) as [H1 H2].
  destruct (sp_length _ _ P) as [H3 H4]. destruct (sp_flags _ _ P) as (F1 & F2 & F3 & F4).
  destruct (DeliverPacket_frame k a) as (a1 & Q & Ed); [apply (sp_bytes _ _ P)|lia|lia|apply (sp_captured _ _ P)| |assumption|].
  { rewrite H2, Z.sub_diag. apply (sp_checksum _ _ P). }
  assert (Pf : partial_after (flags_of k) false a = false).
  { unfold partial_after. rewrite Sf, Hp. apply key_inv in K2 as (_ & -> & _). rewrite F1. reflexivity. }
  rewrite Ho in Q, Ed. rewrite Pf in Q. replace (pk_len k - hdr_len k) with 0 in Ed by lia. set (tp := pk_data k) in *.
  destruct (quiet_ProcessSYN tp 0 false (th_seq tp) (th_ack tp) false (flags_of k) a1 (sp_bytes _ _ P)) as (a2 & E2 & Q2).
  unfold ProcessFlags in Ed. rewrite F1, F2, F3, F4, E2 in Ed. cbn [Z.add] in Ed.
  assert (Qs : quiet a (set_bits (first_packet_seen a) false (is_active a) (seen_first_ACK a) a)) by (split; try reflexivity; now rewrite Hp).
  assert (Q3 : quiet a a2) by (eapply quiet_trans; [exact Qs|]; eapply quiet_trans; eassumption).
  pose proof (stage_quiet _ _ _ _ _ _ _ S Q3) as S3.
  destruct (ProcessACK_SYN c (th_ack tp) (flags_of k) (pk_report_due k) a2 S3 Hc Hack F3) as (a2' & Ea & Qa). rewrite Ea in Ed. cbn [option_map] in Ed.
  pose proof (stage_quiet _ _ _ _ _ _ _ S3 Qa) as S3'. assert (C3 : calm a a2') by (apply calm_quiet; eapply quiet_trans; eassumption).
  set (a3 := when (in_state false TCP_ENDPOINT_INACTIVE a2') (TransitionFromInactive (pk_time k) false (th_seq tp) (wrap 32 (th_seq tp + 1)) (SYN (flags_of k))) a2').
  assert (E3 : a3 = TransitionFromInactive (pk_time k) false (th_seq tp) (wrap 32 (th_seq tp + 1)) true a2').
  { unfold a3, in_state, state_of. destruct S3' as (_ & X & _). apply key_inv in X as (-> & _). now rewrite F1. }
  destruct (stage_transition (pk_time k) (th_seq tp) (wrap 32 (th_seq tp + 1)) _ _ _ _ S3') as [S4 C4]. rewrite <- E3 in S4, C4.
  pose proof (quiet_UpdateLastSeq false (wrap 32 (th_seq tp + 1)) (flags_of k) a3) as Q5.
  destruct (UpdateLastSeq false (wrap 32 (th_seq tp + 1)) (flags_of k) a3) as [a5 d5] eqn:E5. cbn [fst] in Q5.
  set (a6 := upd false (fun e => set_seen {| start_time := start_time (seen e); last_time := pk_time k; last_TTL := pk_TTL k; last_IP_ID := pk_IP_ID k |} e) a5).
  assert (Q6 : quiet a3 a6) by (eapply quiet_trans; [exact Q5|]; apply quiet_upd; reflexivity).
  pose proof (stage_quiet _ _ _ _ _ _ _ S4 Q6) as S6.
  assert (M : exists a8, UpdateStateMachine opts false (th_seq tp) (th_ack tp) (wrap 32 (th_seq tp + 1)) 0 d5 false (flags_of k) a6 = (a8, false, false) /\
              stage TCP_ENDPOINT_ESTABLISHED TCP_ENDPOINT_ESTABLISHED c (th_seq tp) 1 a8 /\ calm a6 a8).
  { unfold UpdateStateMachine, state_of. pose proof S6 as (Y1 & Y2 & _). apply key_inv in Y2 as (-> & _). unfold UpdateInactiveState. cbv zeta.
    rewrite F1, F2, F3. cbn [when]. unfold inactive_SYN. rewrite F4. cbn [negb].
    match goal with |- context [in_state true TCP_ENDPOINT_SYN_SENT ?x] => set (b1 := x) end.
    assert (R1 : quiet a6 b1) by (apply quiet_when, quiet_Weird). pose proof (stage_quiet _ _ _ _ _ _ _ S6 R1) as T1.
    assert (I1 : in_state true TCP_ENDPOINT_SYN_SENT b1 = true).
    { unfold in_state, state_of. destruct T1 as (Y & _). apply key_inv in Y as (-> & _). reflexivity. }
    rewrite I1.
    pose proof (stage_SetState_resp TCP_ENDPOINT_ESTABLISHED _ _ _ _ _ _
      (stage_SetState_orig TCP_ENDPOINT_ESTABLISHED _ _ _ _ _ _ T1 ltac:(discriminate)) ltac:(discriminate)) as T2.
    set (b2 := SetState false TCP_ENDPOINT_ESTABLISHED (SetState true TCP_ENDPOINT_ESTABLISHED b1)) in *.
    match goal with |- context [when ?b ?h b2] => set (b3 := when b h b2) end.
    assert (R3 : quiet b2 b3).
    { apply quiet_when. eapply quiet_trans; [|apply quiet_out; reflexivity]. apply quiet_out; reflexivity. }
    pose proof (stage_quiet _ _ _ _ _ _ _ T2 R3) as T3.
    assert (I3 : in_state false TCP_ENDPOINT_INACTIVE b3 = false).
    { unfold in_state, state_of. destruct T3 as (_ & Y & _). apply key_inv in Y as (-> & _). reflexivity. }
    rewrite I3.
    exists b3. split; [reflexivity|]. split; [exact T3|]. eapply calm_trans; [apply calm_quiet, R1|].
    eapply calm_trans; [apply calm_SetState|]. eapply calm_trans; [apply calm_SetState|]. apply calm_quiet, R3. }
  destruct M as (a8 & E8 & S8 & C8). pose proof S8 as (_ & X & _ & _ & _ & Xr). apply key_inv in X as (X1 & _ & _ & X4 & _ & X6).
  pose proof (after_flags_nodata k 1 a2' a5 d5 a8 new_Reassembler) as An. cbn zeta in An. rewrite Ho in An. fold tp in An.
  destruct An as (a9 & Q9 & E9); try assumption; try (rewrite X1; discriminate); [apply (sp_bytes _ _ P)|].
  rewrite E9 in Ed. pose proof (stage_quiet _ _ _ _ _ _ _ S8 Q9) as S9.
  destruct (stage_first false _ _ _ _ _ a9 S9 ltac:(lia)) as [S10 C10]. cbn in S10.
  assert (C : calm a (CheckPIA_FirstPacket opts false a9)).
  { eapply calm_trans; [exact C3|]. eapply calm_trans; [exact C4|]. eapply calm_trans; [apply calm_quiet, Q6|].
    eapply calm_trans; [exact C8|]. eapply calm_trans; [apply calm_quiet, Q9|exact C10]. }
  destruct C as [C1 C2]. eexists. split; [exact Ed|]. split; [|exact C2].
  destruct S10 as (Z1 & Z2 & Z3 & Z4 & Z5 & Z6). split; try assumption; [intros [|]; assumption|congruence].
Qed.

(** The handshake leaves an established connection. *)
Lemma connect junk partial g k1 k2 :
  let c := th_seq (pk_data k1) in
  syn_packet k1 false -> pk_is_orig k1 = true -> syn_packet k2 true -> pk_is_orig k2 = false ->
  th_ack (pk_data k2) = wrap 32 (c + 1) ->
  exists a, deliver_packets opts base [k1; k2] (EnableReassembly (new_TCP_Analyzer junk partial g)) = Some a /\
            est (fun p => if p then c else th_seq (pk_data k2)) (fun _ => new_Reassembler) a /\ streams (outs a) = [].
Proof.
  intros c P1 O1 P2 O2 Ha.
  destruct (deliver_SYN k1 _ P1 O1 (stage_fresh junk partial g)) as (a1 & E1 & S1 & I1 & T1).
  destruct (header_typed _ (sp_bytes _ _ P1)) as (Hc & _).
  destruct (deliver_SYN_ACK k2 a1 c P2 O2 S1 I1 Hc Ha) as (a2 & E2 & S2 & T2).
  exists a2. cbn [deliver_packets]. rewrite E1, E2. split; [reflexivity|]. split; [exact S2|]. now rewrite T2, T1.
Qed.

Lemma deliver_packets_app ks ks' a :
  deliver_packets opts base (ks ++ ks') a = match deliver_packets opts base ks a with Some a => deliver_packets opts base ks' a | None => None end.
Proof. revert a. induction ks as [|k ks IH]; intros a; [reflexivity|]. cbn [app deliver_packets]. destruct (DeliverPacket opts base k a); auto. Qed.


End Data.

(** *** An instance *)

(** A packet with a header of 20 bytes. *)
Definition mk_packet (orig : bool) (seq ack flags : Z) (data : list Z) : Packet :=
  let bytes := [0; 80; 0; 90] ++ be4 seq ++ be4 ack ++ [0x50; flags; 16; 0; 0; 0; 0; 0] ++ data in
  {| pk_data := bytes; pk_len := Z.of_nat (length bytes); pk_caplen := Z.of_nat (length bytes); pk_is_orig := orig; pk_TTL := 64;
     pk_IP_ID := 1; pk_time := 7; pk_report_due := false |}.

(** Bro's options as [policy/bro.init] has them, with checksums not checked. *)
Definition usual_options : TcpOptions :=
  {| ignore_checksums := true; tcp_storm_interarrival_thresh := 1; tcp_storm_thresh := 1000; tcp_close_delay := 5;
     handles_packet_contents := false; handles_SYN_packet := true; handles_connection_attempt := true;
     handles_connection_reset := true; handles_partial_close := true; handles_tcp_packet := false; handles_tcp_option := false;
     handles_connection_EOF := false; has_packet_children := false; has_PIA := true; base_env := usual_env false |}.

(** The originator's number wraps around within its five bytes; its first segment is lost
    and sent again after the second. *)
Definition sample_packets : list Packet :=
  [mk_packet true 4294967294 0 TH_SYN []; mk_packet false 500 4294967295 (TH_SYN + TH_ACK) [];
   mk_packet true 1 501 TH_ACK [30; 40; 50]; mk_packet true 4294967295 501 TH_ACK [10; 20; 30];
   mk_packet false 501 4 TH_ACK [77]; mk_packet true 4 502 TH_ACK []].

Definition sample_streams (q : bool) : list Z := if q then [10; 20; 30; 40; 50] else [77].

Ltac closed_packet :=
  split; try (apply bytes_checked; vm_compute; reflexivity); try (vm_compute; repeat split; congruence); try (left; reflexivity).

Definition sample_start (p : bool) : Z := if p then 4294967294 else 500.

Lemma sample_all_ops q :
  all_ops sample_start (skipn 2 sample_packets) q =
  if q then [Segment 3 [30; 40; 50]; Segment 1 [10; 20; 30]; Ack false 6]
  else [Ack false 1; Ack false 1; Segment 1 [77]; Ack false 2].
Proof. destruct q; vm_compute; reflexivity. Qed.

Ltac five x := let C := fresh in
  assert (C : x = 1 \/ x = 2 \/ x = 3 \/ x = 4 \/ x = 5) by lia; destruct C as [->|[->|[->|[->| ->]]]].

