(* ===== verification/Observe.v ===== *)
(** * The detector behind Bro: from packets to the policy's actions

    How Bro drives the policy of [Detect]: [NetSessions::NextPacket] gives a packet to the
    TCP analyzer ([BroTcp]), its reassemblers give bytes to the TLS analyzer
    ([SslRecords]), both queue events, [new_packet_final] is queued last, and
    [EventMgr::Drain] runs the handlers before the next packet. *)
From S2P Require Import Prelude Bytes CLib TelexUtil TelexTcp FlowBuffer FlowThms.
From S2P Require Import Reassem ReassemThms SslRecords SslThms BroTcp TcpThms TcpData.
From S2P Require Import Felem PtPoint Tag FlowBlock Detect.
From Stdlib Require Import String ZArith Lia List Bool.
Import ListNotations.
Open Scope Z_scope.
Open Scope list_scope.

(** What the handlers of a packet meet: the packet as captured, the clock, the memory and
    the sockets. *)
Record Meets := {
  m_raw : list Z; m_junk : coord; m_now : Z; m_tries : list bool; m_path_len : Z; m_new_sock : Z; m_connect : Z;
  m_mem : init_data; m_sent : Z; m_stack : wflow }.

(** What happens to one connection: the TCP analyzer, the TLS analyzer, the policy. *)
Record Watch := { w_tcp : TCP_Analyzer; w_tls : SslConn; w_policy : det }.

(** The fields of the connection's endpoints that the policy reads. *)
Definition endpoint_val (is_orig : bool) (a : TCP_Analyzer) : Detect.endpoint :=
  let v := UpdateEndpointVal (if is_orig then orig a else negb (orig a)) a in
  Detect.Endpoint (nth 2 v 0) (nth 3 v 0) (nth 4 v 0) (nth 7 v 0) (nth 6 v 0).

(** The handlers of [telex-ssl.bro] for the events of the TLS analyzer. *)
Definition policy_event (m : Meets) (a : TCP_Analyzer) (e : SslEvent) : list Detect.event :=
  match e with
  | ssl_record is_orig type data =>
      [Detect.SslRecord is_orig type data (endpoint_val true a) (endpoint_val false a) (m_mem m) (m_sent m) (m_tries m)]
  | SslRecords.ssl_conn_attempt _ _ rand client_random =>
      [Detect.ClientHello rand client_random (m_junk m) (m_now m) (m_tries m) (m_path_len m) (m_new_sock m) (m_connect m)]
  | ssl_conn_server_reply _ _ server_random _ => [Detect.ServerHello server_random]
  | ssl_server_key_exchange p g pub_key => [Detect.KeyExchange p g pub_key]
  | ssl_conn_alert _ _ _ is_orig => [Detect.Alert is_orig]
  | _ => []
  end.

(** The outputs of the TCP analyzer that are cleared before each packet. *)
Definition forget_outs (a : TCP_Analyzer) : TCP_Analyzer :=
  set_conn (hist_seen a) (history a) (conn_last_time a) (weird a) (gaps a) [] a.

Section Observe.

(** The TLS analyzer's options and memory; those of the TCP analyzer; the station's keys. *)
Context (ssl_compare_cipherspecs ssl_analyze_certificates : bool) (beyond : list Z).
Context (opts : TcpOptions) (base : bool -> Z).
Context (pm : env -> list Z -> list Z -> list Z) (SHA256 : list Z -> list Z) (keys : list telex_priv_key) (cid : conn_id).

Abbreviation DeliverStream := (DeliverStream ssl_compare_cipherspecs ssl_analyze_certificates beyond).

(** The TLS analyzer as a child of the TCP analyzer; the events are those that it adds. *)
Definition new_events (c c' : SslConn) : list SslEvent := skipn (List.length (events (ssl c))) (events (ssl c')).

(** The queue that a packet leaves. *)
Fixpoint queue (m : Meets) (t : Z) (a : TCP_Analyzer) (os : list TcpOut) (c : SslConn) : option (list Detect.event * SslConn) :=
  match os with
  | [] => Some ([], c)
  | o :: os =>
      let next := match o with
                  | Stream p (Deliver d) => DeliverStream (is_partial a) p d c
                  | Stream p (ForwardUndelivered _ len) => ssl_Undelivered len p c
                  | Stream p EndpointEOF => ssl_EndpointEOF ssl_compare_cipherspecs ssl_analyze_certificates beyond p c
                  | _ => Some c
                  end in
      match next with
      | None => None
      | Some c' =>
          let es := match o with
                    | BroTcp.tcp_option is_orig opt _ option => [Detect.TcpOption is_orig opt option t]
                    | _ => flat_map (policy_event m a) (new_events c c')
                    end in
          match queue m t a os c' with
          | Some (more, c'') => Some (es ++ more, c'')
          | None => None
          end
      end
  end.

(** A packet of the connection. *)
Definition next_packet (k : Packet) (m : Meets) (w : Watch) : outcome Watch :=
  match (if existsb (fun x => match x with SkipConnection => true | _ => false end) (acts (w_policy w))
         then Some (forget_outs (w_tcp w)) else DeliverPacket opts base k (forget_outs (w_tcp w))) with
  | None => Abrt
  | Some a =>
      match queue m (pk_time k) a (outs a) (w_tls w) with
      | None => Abrt
      | Some (es, c) =>
          obind (on_events pm SHA256 keys cid (es ++ [Detect.FinalPacket (m_raw m) (pk_time k) (m_sent m) (m_stack m) (m_tries m)]) (w_policy w))
                (fun d => Ret {| w_tcp := a; w_tls := c; w_policy := d |})
      end
  end.

Fixpoint watch (ks : list (Packet * Meets)) (w : Watch) : outcome Watch :=
  match ks with
  | [] => Ret w
  | (k, m) :: ks => obind (next_packet k m w) (watch ks)
  end.

End Observe.

(** ** The TLS analyzer's events *)

Section Growth.

Context (ssl_compare_cipherspecs ssl_analyze_certificates : bool) (beyond : list Z).

Abbreviation ssl_unit := (ssl_unit ssl_compare_cipherspecs ssl_analyze_certificates beyond).
Abbreviation ssl_NewData := (ssl_NewData ssl_compare_cipherspecs ssl_analyze_certificates beyond).
Abbreviation next := (next ssl_compare_cipherspecs ssl_analyze_certificates beyond).

Definition is_record (e : SslEvent) : bool := match e with ssl_record _ _ _ => true | _ => false end.

(** Events are added, none of them an [ssl_record]. *)
Definition grows (s s' : SSLAnalyzer) : Prop := exists es, events s' = events s ++ es /\ existsb is_record es = false.

Lemma grows_refl s : grows s s.
Proof. exists []. now rewrite app_nil_r. Qed.

Lemma grows_trans s s' s'' : grows s s' -> grows s' s'' -> grows s s''.
Proof. intros (e & E & N) (e' & E' & N'). exists (e ++ e'). rewrite E', E, <- app_assoc, existsb_app, N, N'. auto. Qed.

Lemma grows_emit e s s' : existsb is_record e = false -> grows s s' -> grows s (emit e s').
Proof. intros N H. eapply grows_trans; [exact H|]. exists e. auto. Qed.

Lemma grows_same s s' s'' : events s'' = events s' -> grows s s' -> grows s s''.
Proof. intros E (e & E' & N). exists e. now rewrite E. Qed.

Lemma grows_if (b : bool) s x y : grows s x -> grows s y -> grows s (if b then x else y).
Proof. now destruct b. Qed.

Lemma grows_lost s s' : grows s s' -> grows s (lost_track s').
Proof. now apply grows_same. Qed.

Lemma grows_session a b c d e s s' : grows s s' -> grows s (set_session a b c d e s').
Proof. now apply grows_same. Qed.

Lemma grows_transition o n d s s' s'' : grows s s' -> transition o n d s' = Some s'' -> grows s s''.
Proof. unfold transition. destruct (_ || _); [discriminate|]. intros H [= <-]. apply grows_emit; [reflexivity|]. now apply grows_same with s'. Qed.

Lemma grows_transitions ts s s' : grows s s' -> grows s (transitions ts s').
Proof.
  intros H. induction ts as [|[[o n] d] ts IH]; cbn [transitions]; [now apply grows_lost|].
  destruct (transition o n d s') eqn:E; [now apply (grows_transition _ _ _ s) in E|exact IH].
Qed.

Create HintDb tls_grow.
#[local] Hint Resolve grows_refl grows_lost grows_session grows_if grows_transitions grows_emit : tls_grow.

Lemma grows_unexpected w s s' : grows s s' -> grows s (unexpected w s').
Proof. intros H. unfold unexpected. auto with tls_grow. Qed.

Lemma grows_check_version v s s' : grows s s' -> grows s (check_version v s').
Proof. intros H. unfold check_version. auto with tls_grow. Qed.

Lemma grows_check_cipher v s s' : grows s s' -> grows s (check_cipher ssl_compare_cipherspecs v s').
Proof. intros H. unfold check_cipher. auto with tls_grow. Qed.

Hint Resolve grows_unexpected grows_check_version grows_check_cipher : tls_grow.

Lemma grows_client_hello_state s s' : grows s s' -> grows s (client_hello_state s').
Proof.
  intros H. unfold client_hello_state. destruct (transition STATE_INITIAL _ _ s') eqn:E; [now apply (grows_transition _ _ _ s) in E|].
  assert (H' : grows s (set_hello_requested false s')) by now apply grows_same with s'.
  destruct (hello_requested_ s'); [|auto with tls_grow]. destruct (transition STATE_ANY _ _ _) eqn:E2; [now apply (grows_transition _ _ _ s) in E2|auto with tls_grow].
Qed.

Lemma grows_client_hello v sid cs t r s s' : grows s s' -> grows s (proc_client_hello ssl_compare_cipherspecs beyond v sid cs t r s').
Proof. intros H. unfold proc_client_hello. cbv zeta. auto 10 with tls_grow. Qed.

Lemma grows_server_hello v sid cs hit t r m s s' : grows s s' -> grows s (proc_server_hello ssl_compare_cipherspecs beyond v sid cs hit t r m s').
Proof.
  intros H. unfold proc_server_hello. cbv zeta. apply grows_emit; [reflexivity|]. repeat apply grows_if; auto 12 with tls_grow.
  apply grows_emit; [reflexivity|]. destruct (client_session_id _); auto 12 with tls_grow.
Qed.

Lemma grows_certificate cs s s' : grows s s' -> grows s (proc_certificate ssl_analyze_certificates cs s').
Proof. intros H. unfold proc_certificate. destruct cs; auto with tls_grow. Qed.

Hint Resolve grows_client_hello_state grows_client_hello grows_server_hello grows_certificate : tls_grow.

Lemma grows_Handshake t body s :
  match on_Handshake ssl_compare_cipherspecs ssl_analyze_certificates beyond t body s with Some s' => grows s s' | None => True end.
Proof.
  unfold on_Handshake, on_handshake_body. cbv zeta.
  repeat match goal with |- context [if ?b then _ else _] => destruct b end;
  repeat match goal with |- context [match ?p body with _ => _ end] => destruct (p body) as [[? ?]|] end;
  repeat match goal with |- context [let '(_, _) := ?x in _] => destruct x as [[? ?] ?] end;
  cbn [option_map]; try exact I; auto 6 with tls_grow.
  apply grows_unexpected, (grows_same s s); [reflexivity|apply grows_refl].
Qed.

Lemma grows_unit bs s :
  match ssl_unit bs s with UDone s' _ | UDiscard s' => grows s s' | _ => True end.
Proof.
  assert (D : forall h len (k : list Z -> option SSLAnalyzer), (forall m, match k m with Some s' => grows s s' | None => True end) ->
            match sized h len k bs with UDone s' _ | UDiscard s' => grows s s' | _ => True end).
  { intros h len k Hk. unfold sized. destruct (_ <? h)%nat; [exact I|]. destruct (_ <? _)%nat; [exact I|].
    specialize (Hk (firstn (Z.to_nat (len (firstn h bs))) bs)). now destruct (k _). }
  unfold SslRecords.ssl_unit. destruct (state s);
  repeat match goal with |- context [if ?b then _ else _] => destruct b end; try exact I; auto with tls_grow;
  apply D; intros m; try apply grows_Handshake;
  unfold on_ChangeCipherSpec, proc_change_cipher_spec, proc_alert, proc_application_data, proc_ciphertext_record, on_V2ClientHello, on_V2ServerHello,
    on_V2ClientMasterKey, proc_v2_client_master_key; cbv zeta;
  repeat match goal with |- context [match ?p m with Some _ => _ | None => _ end] => destruct (p m) as [[? ?]|] end;
  try exact I; auto 8 with tls_grow.
Qed.

Lemma grows_NewData fuel : forall bs s, grows s (fst (ssl_NewData fuel bs s)).
Proof.
  induction fuel as [|fuel IH]; intros [|b bs] s; try apply grows_refl. cbn [SslRecords.ssl_NewData].
  pose proof (grows_unit (b :: bs) s) as U. destruct (ssl_unit (b :: bs) s) as [s' rest| | |s']; cbn [fst]; try apply grows_refl.
  - eapply grows_trans; [exact U|apply IH].
  - now apply (grows_same s s); [|apply grows_refl].
  - exact U.
Qed.

(** A record is reported, then what its bytes are. *)
Lemma next_shape orig type version fragment s :
  fragmented s = false ->
  exists es, events (next orig (type, version, fragment) s) = events s ++ ssl_record orig type fragment :: es /\ existsb is_record es = false.
Proof.
  intros Hf. rewrite next_eq by assumption. set (s1 := emit _ _).
  destruct (grows_NewData (List.length fragment) fragment s1) as (es & E & N). exists es. split; [|exact N].
  rewrite E. unfold s1. cbn [events emit set_record]. now rewrite <- app_assoc.
Qed.

End Growth.
