(* ===== verification/PolicyRun.v ===== *)
(** * The policy over all the events of a tagged connection

    [Covert] runs the policy over the events of the TLS handshake alone.  Here they come
    with what Bro reports besides: the options and the end of every packet, and the
    handshake records before the cipher change, in any number. *)
From S2P Require Import Prelude Bytes CLib.
From S2P Require Import Felem PtPoint Tag TelexSsl TelexUtil FlowBlock TelexTcp Detect.
From Stdlib Require Import ZArith Lia List Bool.
Import ListNotations.
Open Scope Z_scope.
Open Scope list_scope.

(** The packets that the station passes on for a connection blocked at [since]. *)
Definition forwarded (since : Z) (e : event) : list action :=
  match e with FinalPacket raw t _ _ _ => if since <? t then [Forward raw] else [] | _ => [] end.

(** An entry apart from what it holds of the TCP connection. *)
Definition core (te : telex_info) : (list Z * Z) * bool * Z * Z * Z * dh_rec :=
  (key_info te, do_fwd te, fwd_time te, te_sock te, te_state te, te_dh te).

Lemma core_inv te te' :
  core te' = core te ->
  key_info te' = key_info te /\ do_fwd te' = do_fwd te /\ fwd_time te' = fwd_time te /\ te_sock te' = te_sock te /\
  te_state te' = te_state te /\ te_dh te' = te_dh te.
Proof. unfold core. intros [= -> -> -> -> -> ->]. auto 10. Qed.

(** What reports of the server's hello and key exchange leave in the entry. *)
Definition dh_after (h : dh_rec) (e : event) : dh_rec :=
  match e with
  | ServerHello sr => DhRec (dh_p h) (dh_g h) (dh_pub_key h) (dh_client_random h) (Some sr) (dh_client_iv h) (dh_server_iv h)
  | KeyExchange p g pub => DhRec (Some p) (Some g) (Some pub) (dh_client_random h) (dh_server_random h) (dh_client_iv h) (dh_server_iv h)
  | _ => h
  end.

(** The events between the two hellos and the cipher change; and those that concern TCP only. *)
Definition noise (e : event) : Prop := match e with TcpOption _ _ _ _ | FinalPacket _ _ _ _ _ => True | _ => False end.
Definition early (e : event) : Prop :=
  match e with
  | SslRecord _ t _ _ _ _ _ _ => t = 22
  | ServerHello _ | KeyExchange _ _ _ => True
  | _ => noise e
  end.
Definition no_hello (e : event) : Prop := match e with ClientHello _ _ _ _ _ _ _ _ => False | _ => True end.

Section Run.
Context (pm : env -> list Z -> list Z -> list Z) (SHA256 : list Z -> list Z) (keys : list telex_priv_key) (cid : conn_id).

Abbreviation on_event := (on_event pm SHA256 keys cid).
Abbreviation on_events := (on_events pm SHA256 keys cid).

Lemma on_events_app es es' d : on_events (es ++ es') d = obind (on_events es d) (on_events es').
Proof. revert d. induction es as [|e es IH]; intros d; [reflexivity|]. cbn [app Detect.on_events]. destruct (on_event e d); cbn [obind]; auto. Qed.

(** Without an entry nothing but a hello matters. *)
Lemma untracked es d : entry d = None -> Forall no_hello es -> on_events es d = Ret d.
Proof.
  intros E. induction 1 as [|e es He _ IH]; [reflexivity|]. cbn [Detect.on_events]. unfold Detect.on_event. rewrite E.
  destruct e; try contradiction; exact IH.
Qed.

Lemma noise_event e te tk l :
  noise e -> do_fwd te = true -> te_state te <> 5 ->
  exists te', on_event e (Det (Some te) tk l) = Ret (Det (Some te') tk (l ++ forwarded (fwd_time te) e)) /\ core te' = core te.
Proof.
  intros N Hf H5. destruct e; try contradiction; cbn [Detect.on_event entry forwarded].
  - eexists. split; [unfold track; cbn; now rewrite app_nil_r|]. unfold Detect.tcp_option, core.
    repeat match goal with |- context [if ?b then _ else _] => destruct b end; reflexivity.
  - exists te. split; [|reflexivity]. unfold new_packet_final. rewrite Hf. cbn [negb].
    rewrite (proj2 (Z.eqb_neq _ _) H5). destruct (_ <? _); [reflexivity|now rewrite app_nil_r].
Qed.

Lemma early_event e te tk l :
  early e -> do_fwd te = true -> te_state te = 1 ->
  exists te', on_event e (Det (Some te) tk l) = Ret (Det (Some te') tk (l ++ forwarded (fwd_time te) e)) /\
              core te' = core (set_te_dh (dh_after (te_dh te) e) te).
Proof.
  intros Ee Hf H1. destruct e; try contradiction; try (
    eexists; split; [cbn; rewrite app_nil_r; reflexivity|reflexivity]).
  - cbn [early] in Ee. subst typ. exists te. split; [|reflexivity]. cbn [Detect.on_event entry Z.eqb Pos.eqb]. unfold ssl_handshake. rewrite H1. cbn.
    now rewrite H1, app_nil_r.
  - destruct (noise_event (TcpOption is_orig opt option network_time) te tk l I Hf ltac:(lia)) as (te' & E & C). exists te'. split; [exact E|].
    now rewrite C.
  - destruct (noise_event (FinalPacket raw network_time sent stack tries) te tk l I Hf ltac:(lia)) as (te' & E & C). exists te'. split; [exact E|].
    now rewrite C.
Qed.

Lemma early_events es : forall te tk l,
  Forall early es -> do_fwd te = true -> te_state te = 1 ->
  exists te', on_events es (Det (Some te) tk l) = Ret (Det (Some te') tk (l ++ flat_map (forwarded (fwd_time te)) es)) /\
              core te' = core (set_te_dh (fold_left dh_after es (te_dh te)) te).
Proof.
  induction es as [|e es IH]; intros te tk l F Hf H1.
  - exists te. cbn. rewrite app_nil_r. split; reflexivity.
  - apply Forall_cons_iff in F as [Fe F]. destruct (early_event e te tk l Fe Hf H1) as (te1 & E1 & C1).
    apply core_inv in C1 as (K1 & K2 & K3 & K4 & K5 & K6). cbn [key_info do_fwd fwd_time te_sock te_state te_dh set_te_dh] in *.
    destruct (IH te1 tk (l ++ forwarded (fwd_time te) e) F ltac:(congruence) ltac:(congruence)) as (te2 & E2 & C2).
    exists te2. cbn [Detect.on_events flat_map fold_left]. rewrite E1. cbn [obind]. rewrite E2, <- app_assoc, K3. split; [reflexivity|].
    rewrite C2. unfold core, set_te_dh. cbn [key_info do_fwd fwd_time te_sock te_state te_dh]. congruence.
Qed.

Lemma noise_events es : forall te tk l,
  Forall noise es -> do_fwd te = true -> te_state te <> 5 ->
  exists te', on_events es (Det (Some te) tk l) = Ret (Det (Some te') tk (l ++ flat_map (forwarded (fwd_time te)) es)) /\ core te' = core te.
Proof.
  induction es as [|e es IH]; intros te tk l F Hf H5.
  - exists te. cbn. rewrite app_nil_r. split; reflexivity.
  - apply Forall_cons_iff in F as [Fe F]. destruct (noise_event e te tk l Fe Hf H5) as (te1 & E1 & C1).
    pose proof (core_inv _ _ C1) as (K1 & K2 & K3 & K4 & K5 & K6).
    destruct (IH te1 tk (l ++ forwarded (fwd_time te) e) F ltac:(congruence) ltac:(congruence)) as (te2 & E2 & C2).
    exists te2. cbn [Detect.on_events flat_map]. rewrite E1. cbn [obind]. rewrite E2, <- app_assoc, K3. split; [reflexivity|congruence].
Qed.

(** ** The handover *)

Definition is_rec (o : bool) (t : Z) (data : list Z) (e : event) : Prop :=
  exists orig resp mem sent tries, e = SslRecord o t data orig resp mem sent tries.
Definition is_option (e : event) : Prop := match e with TcpOption _ _ _ _ => True | _ => False end.

Lemma forwarded_rec o t data e since : is_rec o t data e -> forwarded since e = [].
Proof. intros (? & ? & ? & ? & ? & ->). reflexivity. Qed.

(** The client's cipher change and finished message, and the server's cipher change. *)
Lemma client_cipher e data te tk l :
  is_rec true 20 data e -> te_state te = 1 -> on_event e (Det (Some te) tk l) = Ret (Det (Some (set_te_state 2 te)) tk l).
Proof. intros (? & ? & ? & ? & ? & ->) H. cbn. unfold ssl_change_cipher. now rewrite H. Qed.

Lemma server_cipher e data te tk l :
  is_rec false 20 data e -> te_state te = 2 -> on_event e (Det (Some te) tk l) = Ret (Det (Some (set_te_state 4 te)) tk l).
Proof. intros (? & ? & ? & ? & ? & ->) H. cbn. unfold ssl_change_cipher. now rewrite H. Qed.

Lemma client_finished e data te tk l :
  is_rec true 22 data e -> te_state te = 2 ->
  exists te', on_event e (Det (Some te) tk l) = Ret (Det (Some te') tk l) /\
    let h := te_dh te in
    core te' = core (set_te_dh (DhRec (dh_p h) (dh_g h) (dh_pub_key h) (dh_client_random h) (dh_server_random h)
                                      (Some (get_iv_from_handshake data)) (dh_server_iv h)) te).
Proof.
  intros (? & ? & ? & ? & ? & ->) H. cbn [Detect.on_event entry Z.eqb Pos.eqb]. unfold ssl_handshake. rewrite H. cbn [Z.leb Z.compare Pos.compare Pos.compare_cont andb].
  cbn [te_state note_client set_te_tcp set_te_dh]. rewrite H. cbn [Z.eqb Pos.eqb]. eexists. split; reflexivity.
Qed.

(** The initial data can be sent. *)
Lemma init_sent te mem sent p g pub cr sr civ siv :
  te_dh te = DhRec (Some p) (Some g) (Some pub) (Some cr) (Some sr) (Some civ) (Some siv) -> 0 <= te_sock te -> 0 <= sent ->
  (length p <= 128)%nat -> (length pub <= 128)%nat -> length cr = 32%nat -> length sr = 32%nat -> length civ = 16%nat -> length siv = 16%nat ->
  exists m, telex_send_init_data mem sent cid te = Ret (Some m, 0).
Proof.
  intros Hd Hs Hn H1 H2 H3 H4 H5 H6. unfold telex_send_init_data. rewrite (proj2 (Z.eqb_neq (te_sock te) (-1))) by lia.
  destruct (key_info te) as [k port]. cbv zeta. unfold fill_dh. rewrite Hd.
  cbn [dh_p dh_g dh_pub_key dh_client_random dh_server_random dh_client_iv dh_server_iv]. rewrite H3, H4, H5, H6.
  rewrite (proj2 (Nat.ltb_ge 128 (length p))), (proj2 (Nat.ltb_ge 128 (length pub))) by assumption.
  cbn [orb Nat.ltb Nat.leb obind]. rewrite (proj2 (Z.ltb_ge sent 0)) by assumption. eauto.
Qed.

(** Options after the initial data change nothing but the entry's TCP state. *)
Lemma options_event e te tk l : is_option e -> exists te', on_event e (Det (Some te) tk l) = Ret (Det (Some te') tk l) /\ core te' = core te.
Proof.
  destruct e; try contradiction. intros _. eexists. split; [reflexivity|]. unfold Detect.tcp_option, core.
  repeat match goal with |- context [if ?b then _ else _] => destruct b end; reflexivity.
Qed.

Lemma option_events es : forall te tk l, Forall is_option es ->
  exists te', on_events es (Det (Some te) tk l) = Ret (Det (Some te') tk l) /\ core te' = core te.
Proof.
  induction es as [|e es IH]; intros te tk l F; [exists te; split; reflexivity|]. apply Forall_cons_iff in F as [Fe F].
  destruct (options_event e te tk l Fe) as (te1 & E1 & C1). destruct (IH te1 tk l F) as (te2 & E2 & C2).
  exists te2. cbn [Detect.on_events]. rewrite E1. cbn [obind]. split; [exact E2|congruence].
Qed.

(** The last packet. *)
Lemma final_handover raw t sent stack tries te tk l :
  do_fwd te = true -> te_state te = 5 -> fwd_time te < t -> 0 <= te_sock te -> 0 <= sent ->
  exists fl, on_event (FinalPacket raw t sent stack tries) (Det (Some te) tk l) =
             Ret (Det None tk (l ++ [ToRelay (raw_message raw); Rst fl; CloseSock (te_sock te)])).
Proof.
  intros Hd H5 Ht Hs Hn. cbn [Detect.on_event entry]. unfold new_packet_final. rewrite Hd, (proj2 (Z.ltb_lt _ _) Ht), H5. cbn [negb Z.eqb Pos.eqb].
  unfold telex_send_bronnect_raw_pkt. cbn [te_sock set_do_fwd]. rewrite (proj2 (Z.eqb_neq (te_sock te) (-1))), (proj2 (Z.ltb_ge sent 0)) by lia.
  eexists. unfold Detect.cleanup_connection, act. cbn. now rewrite <- app_assoc.
Qed.

(** From the cipher change of the client to the packet with the server's finished message. *)
Lemma finish_run te tk l x1 e2 x2 e3 x3 e4 c1 cfin c2 sfin orig resp mem sent tries e5 raw t sent' stack tries' e6 p g pub cr sr :
  te_state te = 1 -> do_fwd te = true -> 0 <= te_sock te -> fwd_time te < t -> 0 <= sent -> 0 <= sent' ->
  te_dh te = DhRec (Some p) (Some g) (Some pub) (Some cr) (Some sr) None None ->
  (length p <= 128)%nat -> (length pub <= 128)%nat -> length cr = 32%nat -> length sr = 32%nat ->
  length (get_iv_from_handshake cfin) = 16%nat -> length (get_iv_from_handshake sfin) = 16%nat ->
  is_rec true 20 c1 x1 -> Forall noise e2 -> is_rec true 22 cfin x2 -> Forall noise e3 -> is_rec false 20 c2 x3 -> Forall noise e4 ->
  Forall is_option e5 -> Forall no_hello e6 ->
  let x4 := SslRecord false 22 sfin orig resp mem sent tries in
  exists te5 m fl,
    on_events (x1 :: e2 ++ x2 :: e3 ++ x3 :: e4 ++ x4 :: e5 ++ FinalPacket raw t sent' stack tries' :: e6) (Det (Some te) tk l) =
    Ret (Det None tk (l ++ flat_map (forwarded (fwd_time te)) (x1 :: e2 ++ x2 :: e3 ++ x3 :: e4) ++
                      [ToRelay m; ToRelay (raw_message raw); Rst fl; CloseSock (te_sock te)])) /\
    key_info te5 = key_info te /\
    te_dh te5 = DhRec (Some p) (Some g) (Some pub) (Some cr) (Some sr) (Some (get_iv_from_handshake cfin)) (Some (get_iv_from_handshake sfin)) /\
    telex_send_init_data mem sent cid te5 = Ret (Some m, 0).
Proof.
  intros H1 Hf Hs Ht Hn Hn' Hd L1 L2 L3 L4 L5 L6 X1 N2 X2 N3 X3 N4 N5 N6 x4.
  destruct (noise_events e2 (set_te_state 2 te) tk l N2 Hf ltac:(discriminate)) as (te2 & E2 & C2).
  apply core_inv in C2 as (A1 & A2 & A3 & A4 & A5 & A6). cbn [key_info do_fwd fwd_time te_sock te_state te_dh set_te_state] in *.
  set (l2 := l ++ _) in E2. destruct (client_finished x2 cfin te2 tk l2 X2 A5) as (te3 & E3 & C3). cbn zeta in C3.
  apply core_inv in C3 as (B1 & B2 & B3 & B4 & B5 & B6). cbn [key_info do_fwd fwd_time te_sock te_state te_dh set_te_dh] in *.
  destruct (noise_events e3 te3 tk l2 N3 ltac:(congruence) ltac:(lia)) as (te4 & E4 & C4).
  apply core_inv in C4 as (D1 & D2 & D3 & D4 & D5 & D6). set (l3 := l2 ++ _) in E4.
  pose proof (server_cipher x3 c2 te4 tk l3 X3 ltac:(lia)) as E5.
  destruct (noise_events e4 (set_te_state 4 te4) tk l3 N4 ltac:(cbn; congruence) ltac:(discriminate)) as (te6 & E6 & C6).
  apply core_inv in C6 as (F1 & F2 & F3 & F4 & F5 & F6). cbn [key_info do_fwd fwd_time te_sock te_state te_dh set_te_state] in *. set (l4 := l3 ++ _) in E6.
  set (te7 := note_server sfin te6).
  assert (Hd7 : te_dh te7 = DhRec (Some p) (Some g) (Some pub) (Some cr) (Some sr) (Some (get_iv_from_handshake cfin)) (Some (get_iv_from_handshake sfin))).
  { unfold te7, note_server. cbn [te_dh set_te_dh]. now rewrite F6, D6, B6, A6, Hd. }
  destruct (init_sent te7 mem sent _ _ _ _ _ _ _ Hd7 ltac:(cbn; congruence) Hn L1 L2 L3 L4 L5 L6) as (m & Em).
  assert (E7 : on_event x4 (Det (Some te6) tk l4) = Ret (Det (Some (set_te_state 5 te7)) tk (l4 ++ [ToRelay m]))).
  { unfold x4. cbn [Detect.on_event entry Z.eqb Pos.eqb]. unfold ssl_handshake. rewrite F5. cbn [Z.leb Z.compare Pos.compare Pos.compare_cont andb negb].
    fold te7. change (te_state te7) with (te_state te6). rewrite F5, Em. reflexivity. }
  destruct (option_events e5 (set_te_state 5 te7) tk (l4 ++ [ToRelay m]) N5) as (te8 & E8 & C8).
  apply core_inv in C8 as (G1 & G2 & G3 & G4 & G5 & G6). cbn [key_info do_fwd fwd_time te_sock te_state te_dh set_te_state] in *.
  assert (K2 : do_fwd te8 = true) by (rewrite G2; cbn; congruence). assert (K3 : fwd_time te8 = fwd_time te) by (rewrite G3; cbn; congruence).
  assert (K4 : te_sock te8 = te_sock te) by (rewrite G4; cbn; congruence).
  destruct (final_handover raw t sent' stack tries' te8 tk (l4 ++ [ToRelay m]) K2 G5 ltac:(lia) ltac:(lia) Hn') as (fl & E9).
  exists te7, m, fl. split; [|split; [cbn; congruence|split; [exact Hd7|exact Em]]].
  cbn [Detect.on_events]. rewrite (client_cipher x1 c1 te tk l X1 H1). cbn [obind]. rewrite on_events_app, E2. cbn [obind Detect.on_events].
  rewrite E3. cbn [obind]. rewrite on_events_app, E4. cbn [obind Detect.on_events]. rewrite E5. cbn [obind].
  rewrite on_events_app, E6. cbn [obind Detect.on_events]. rewrite E7. cbn [obind]. rewrite on_events_app, E8. cbn [obind Detect.on_events].
  rewrite E9. cbn [obind]. rewrite untracked by (reflexivity || assumption). f_equal. f_equal. rewrite K4.
  cbn [flat_map]. rewrite !flat_map_app. cbn [flat_map]. rewrite !flat_map_app. cbn [flat_map].
  rewrite (forwarded_rec _ _ _ _ _ X1), (forwarded_rec _ _ _ _ _ X2), (forwarded_rec _ _ _ _ _ X3). cbn [app].
  unfold l4, l3, l2. rewrite D3, B3, A3. now rewrite <- !app_assoc.
Qed.

End Run.
