(* ===== verification/Wiretap.v ===== *)
(** * A Telex session seen in packets

    The chain of [Observe] over the packets of a tagged connection: what Bro's analyzers
    make of them ([TcpData], [SslThms]) is what the policy needs ([PolicyRun]). *)
From S2P Require Import Prelude Bytes CLib TelexUtil TelexTcp FlowBuffer FlowThms.
From S2P Require Import Reassem ReassemThms SslRecords SslThms BroTcp TcpThms TcpData.
From S2P Require Import Felem PtPoint Tag FlowBlock Detect PolicyRun Observe.
From Stdlib Require Import String ZArith Lia List Bool.
Import ListNotations.
Open Scope Z_scope.
Open Scope list_scope.

(** ** The events of the two sides, compared *)

(** An event without what depends on the packet that set it off. *)
Inductive gist :=
  | GRecord (is_orig : bool) (type : Z) (data : list Z)
  | GHello (rand client_random : list Z)
  | GReply (server_random : list Z)
  | GKey (p g pub_key : list Z)
  | GAlert (is_orig : bool)
  | GGone.

Definition gist_of (e : Detect.event) : list gist :=
  match e with
  | Detect.SslRecord o t d _ _ _ _ _ => [GRecord o t d]
  | Detect.ClientHello r c _ _ _ _ _ _ => [GHello r c]
  | Detect.ServerHello r => [GReply r]
  | Detect.KeyExchange p g pub => [GKey p g pub]
  | Detect.Alert o => [GAlert o]
  | Detect.StateRemove _ | Detect.Expire _ => [GGone]
  | Detect.TcpOption _ _ _ _ | Detect.FinalPacket _ _ _ _ _ => []
  end.
Definition ssl_gist (e : SslEvent) : list gist :=
  match e with
  | ssl_record o t d => [GRecord o t d]
  | SslRecords.ssl_conn_attempt _ _ r c => [GHello r c]
  | ssl_conn_server_reply _ _ r _ => [GReply r]
  | ssl_server_key_exchange p g pub => [GKey p g pub]
  | ssl_conn_alert _ _ _ o => [GAlert o]
  | _ => []
  end.

Abbreviation gists := (flat_map gist_of).
Abbreviation ssl_gists := (flat_map ssl_gist).

Lemma policy_gist m a e : gists (policy_event m a e) = ssl_gist e.
Proof. destruct e; reflexivity. Qed.

Lemma policy_gists m a es : gists (flat_map (policy_event m a) es) = ssl_gists es.
Proof. induction es as [|e es IH]; [reflexivity|]. cbn [flat_map]. now rewrite flat_map_app, policy_gist, IH. Qed.

Lemma gist_split es : forall gs g gs', gists es = gs ++ g :: gs' ->
  exists e1 x e2, es = e1 ++ x :: e2 /\ gist_of x = [g] /\ gists e1 = gs /\ gists e2 = gs'.
Proof.
  induction es as [|e es IH]; intros gs g gs' E; [now destruct gs|]. cbn [flat_map] in E.
  assert (C : gist_of e = [] \/ exists h, gist_of e = [h]) by (destruct e; cbn; eauto). destruct C as [C|(h & C)]; rewrite C in E; cbn [app] in E.
  - destruct (IH _ _ _ E) as (e1 & x & e2 & -> & X & G1 & G2). exists (e :: e1), x, e2. cbn [flat_map]. rewrite C. auto.
  - destruct gs as [|h' gs]; cbn [app] in E.
    + injection E as -> E. exists [], e, es. auto.
    + injection E as -> E. destruct (IH _ _ _ E) as (e1 & x & e2 & -> & X & G1 & G2). exists (e :: e1), x, e2. cbn [flat_map]. rewrite C, G1. auto.
Qed.

Lemma gists_noise es : gists es = [] -> Forall noise es.
Proof.
  induction es as [|e es IH]; [constructor|]. cbn [flat_map]. intros E. apply app_eq_nil in E as [E1 E2]. constructor; [|auto].
  destruct e; easy || exact I.
Qed.

(** What the gists say of the records that a policy's entry keeps. *)
Definition early_gist (g : gist) : Prop := match g with GRecord _ t _ => t = 22 | GReply _ | GKey _ _ _ => True | _ => False end.

Lemma gists_early es : Forall early_gist (gists es) -> Forall early es.
Proof.
  induction es as [|e es IH]; [constructor|]. cbn [flat_map]. rewrite Forall_app. intros [F1 F2]. constructor; [|auto].
  destruct e; cbn in F1 |- *; try exact I; inversion F1; subst; assumption.
Qed.

Lemma gists_no_hello es : Forall (fun g => match g with GHello _ _ => False | _ => True end) (gists es) -> Forall no_hello es.
Proof.
  induction es as [|e es IH]; [constructor|]. cbn [flat_map]. rewrite Forall_app. intros [F1 F2]. constructor; [|auto].
  destruct e; cbn in F1 |- *; try exact I. now inversion F1.
Qed.

Definition gist_dh (h : dh_rec) (g : gist) : dh_rec :=
  match g with
  | GReply sr => dh_after h (Detect.ServerHello sr)
  | GKey p g pub => dh_after h (Detect.KeyExchange p g pub)
  | _ => h
  end.

Lemma gists_dh es : forall h, fold_left dh_after es h = fold_left gist_dh (gists es) h.
Proof. induction es as [|e es IH]; intros h; [reflexivity|]. cbn [flat_map fold_left]. rewrite fold_left_app, IH. destruct e; reflexivity. Qed.

(** The gists other than records come from [reports]. *)
Definition is_GRecord (g : gist) : bool := match g with GRecord _ _ _ => true | _ => false end.
Definition others (gs : list gist) : list gist := filter (fun g => negb (is_GRecord g)) gs.

Lemma others_app a b : others (a ++ b) = others a ++ others b.
Proof. apply filter_app. Qed.

Lemma reports_others es : ssl_gists (reports es) = others (ssl_gists es).
Proof.
  unfold reports, messages. induction es as [|e es IH]; [reflexivity|]. cbn [flat_map]. rewrite others_app, <- IH. destruct e; reflexivity.
Qed.

Lemma no_record_others es : existsb is_record es = false -> others (ssl_gists es) = ssl_gists es.
Proof.
  induction es as [|e es IH]; [reflexivity|]. cbn [existsb flat_map]. intros H. apply orb_false_iff in H as [H1 H2]. rewrite others_app, IH by assumption.
  destruct e; easy.
Qed.

Lemma records_only_dh gs : forall h, fold_left gist_dh gs h = fold_left gist_dh (others gs) h.
Proof. induction gs as [|g gs IH]; intros h; [reflexivity|]. cbn [fold_left]. rewrite IH. destruct g; reflexivity. Qed.

(** ** Flows of the TLS analyzer only add events *)

Section Flow.
Context {A : Type} (initial : Z) (total : list Z -> Z) (on_unit : list Z -> A -> UnitResult A) (R : A -> A -> Prop).
Hypothesis R_refl : forall a, R a a.
Hypothesis R_trans : forall a b c, R a b -> R b c -> R a c.
Hypothesis R_unit : forall u a, match on_unit u a with Parsed b _ | Thrown b => R a b end.

Lemma ParseBuffer_keeps st fb a fb' st' a' e : ParseBuffer initial total on_unit st fb a = Some (fb', st', a', e) -> R a a'.
Proof.
  unfold ParseBuffer. destruct (begin_to_end fb) as [d|]; [|discriminate]. destruct (st =? 0).
  { destruct (NewFrame _ _ _); [|discriminate]. intros [= _ _ <- _]. apply R_refl. }
  destruct (st =? 1). { destruct (GrowFrame _ _); [|discriminate]. intros [= _ _ <- _]. apply R_refl. }
  pose proof (R_unit d a) as U. destruct (on_unit d a); intros [= _ _ <- _]; exact U.
Qed.

Lemma buffering_keeps fuel : forall st fb a fb' st' a' e, buffering_loop initial total on_unit fuel st fb a = Some (fb', st', a', e) -> R a a'.
Proof.
  induction fuel as [|fuel IH]; intros st fb a fb' st' a' e; cbn [buffering_loop]; destruct (negb (ready fb));
    try (intros [= _ _ <- _]; apply R_refl); try discriminate.
  destruct (ParseBuffer initial total on_unit st fb a) as [[[[fb1 st1] a1] e1]|] eqn:P; [|discriminate]. apply ParseBuffer_keeps in P.
  destruct e1; try (intros [= _ _ <- _]; exact P). intros E. apply IH in E. eapply R_trans; eassumption.
Qed.

Lemma loop_keeps fuel : forall fl a fl' a' e, flow_loop initial total on_unit fuel fl a = Some (fl', a', e) -> R a a'.
Proof.
  induction fuel as [|fuel IH]; intros fl a fl' a' e; cbn [flow_loop]; (destruct (data_available _ && _); [|intros [= _ <- _]; apply R_refl]); [discriminate|].
  match goal with |- context [match ?x with Some _ => _ | None => None end] => destruct x as [[fb st]|] end; [|discriminate].
  destruct (buffering_loop initial total on_unit 3 st fb a) as [[[[fb1 st1] a1] e1]|] eqn:B; [|discriminate]. apply buffering_keeps in B. destruct e1.
  - intros E. apply IH in E. eapply R_trans; eassumption.
  - destruct (ready fb1); [discriminate|]. intros [= _ <- _]. exact B.
  - intros [= _ <- _]. exact B.
Qed.

Lemma NewData_keeps d fl a fl' a' e : flow_NewData initial total on_unit d fl a = Some (fl', a', e) -> R a a'.
Proof. unfold flow_NewData. destruct (NewData _ _); [|discriminate]. apply loop_keeps. Qed.

End Flow.

(** ** The queue of a packet *)

Section Bro.

Context (cmp ana : bool) (beyond : list Z) (opts : TcpOptions) (base : bool -> Z).

Abbreviation DeliverStream := (SslRecords.DeliverStream cmp ana beyond).
Abbreviation deliver_all := (deliver_all cmp ana beyond).
Abbreviation queue := (Observe.queue cmp ana beyond).
Abbreviation next := (SslThms.next cmp ana beyond).
Abbreviation hear := (SslThms.hear cmp ana beyond).

Definition more_events (s s' : SSLAnalyzer) : Prop := exists es, events s' = events s ++ es.

Lemma more_refl s : more_events s s.
Proof. exists []. now rewrite app_nil_r. Qed.

Lemma more_trans s s' s'' : more_events s s' -> more_events s' s'' -> more_events s s''.
Proof. intros (e & E) (e' & E'). exists (e ++ e'). now rewrite E', E, app_assoc. Qed.

Lemma more_record rec type version orig s : more_events s (fst (next_record cmp ana beyond rec type version orig s)).
Proof.
  unfold next_record. destruct (fragmented s); [apply more_refl|]. set (s1 := emit _ _).
  destruct (grows_NewData cmp ana beyond (List.length rec) rec s1) as (es & E & _). exists (ssl_record orig type rec :: es).
  rewrite E. unfold s1. cbn [events emit set_record]. now rewrite <- app_assoc.
Qed.

Lemma more_pdu orig u s : match on_pdu cmp ana beyond orig u s with Parsed s' _ | Thrown s' => more_events s s' end.
Proof.
  unfold on_pdu. cbv zeta.
  repeat match goal with |- context [if ?b then (?x, ?y) else _] => destruct b end;
  match goal with |- context [next_record cmp ana beyond ?r ?t ?v ?o s] =>
    pose proof (more_record r t v o s) as M; destruct (next_record cmp ana beyond r t v o s) as [s' [|]]; exact M end.
Qed.

Lemma more_DeliverStream p d c c' : DeliverStream false p d c = Some c' -> more_events (ssl c) (ssl c').
Proof.
  unfold SslRecords.DeliverStream. destruct (flow_NewData _ _ _ _ _ _) as [[[fl s] e]|] eqn:E; [|discriminate]. intros [= <-].
  apply (NewData_keeps 5 pdu_total_length (on_pdu cmp ana beyond p) more_events more_refl more_trans (more_pdu p)) in E.
  destruct p; exact E.
Qed.

Lemma more_deliver_all ps : forall c c', deliver_all ps c = Some c' -> more_events (ssl c) (ssl c').
Proof.
  induction ps as [|[o d] ps IH]; intros c c'; cbn [SslThms.deliver_all]; [intros [= <-]; apply more_refl|].
  destruct (DeliverStream false o d c) as [c1|] eqn:E; [|discriminate]. intros H. apply more_DeliverStream in E. eapply more_trans; eauto.
Qed.

Lemma new_events_app c c' es : events (ssl c') = events (ssl c) ++ es -> new_events c c' = es.
Proof. intros E. unfold new_events. rewrite E. now apply skipn_exact. Qed.

Lemma new_events_trans c c1 c2 : more_events (ssl c) (ssl c1) -> more_events (ssl c1) (ssl c2) -> new_events c c2 = new_events c c1 ++ new_events c1 c2.
Proof.
  intros (e & E) (e' & E'). rewrite (new_events_app _ _ _ E), (new_events_app _ _ _ E'). apply new_events_app. now rewrite E', E, app_assoc.
Qed.

Lemma new_events_same c : new_events c c = [].
Proof. apply new_events_app. now rewrite app_nil_r. Qed.

(** An event that the packet with [m] may queue before its last. *)
Definition made (m : Meets) (e : Detect.event) : Prop :=
  match e with
  | Detect.SslRecord _ _ _ _ _ mem sent tries => mem = m_mem m /\ sent = m_sent m /\ tries = m_tries m
  | Detect.ClientHello _ _ jk now tries pl ns cn =>
      jk = m_junk m /\ now = m_now m /\ tries = m_tries m /\ pl = m_path_len m /\ ns = m_new_sock m /\ cn = m_connect m
  | Detect.FinalPacket _ _ _ _ _ | Detect.StateRemove _ | Detect.Expire _ => False
  | _ => True
  end.

Lemma made_policy m a es : Forall (made m) (flat_map (policy_event m a) es).
Proof. induction es as [|e es IH]; [constructor|]. cbn [flat_map]. apply Forall_app. split; [|exact IH]. destruct e; repeat constructor. Qed.

Lemma queue_spec m t a os : forall c c',
  is_partial a = false -> Forall plain (streams os) -> deliver_all (pieces (streams os)) c = Some c' ->
  exists es, queue m t a os c = Some (es, c') /\ gists es = ssl_gists (new_events c c') /\ Forall (made m) es.
Proof.
  induction os as [|o os IH]; intros c c' Hp F D.
  - cbn in D. injection D as <-. exists []. rewrite new_events_same. split; [reflexivity|]. split; [reflexivity|constructor].
  - assert (Step : forall c1 es1, more_events (ssl c) (ssl c1) -> Forall plain (streams os) -> deliver_all (pieces (streams os)) c1 = Some c' ->
      gists es1 = ssl_gists (new_events c c1) -> Forall (made m) es1 ->
      exists es, match queue m t a os c1 with Some (more, c'') => Some (es1 ++ more, c'') | None => None end = Some (es, c') /\
                 gists es = ssl_gists (new_events c c') /\ Forall (made m) es).
    { intros c1 es1 M F' D' G1 V1. destruct (IH c1 c' Hp F' D') as (es & -> & G & V). eexists. split; [reflexivity|]. split.
      - rewrite flat_map_app, G1, G, <- flat_map_app. f_equal. symmetry. apply new_events_trans; [exact M|now apply more_deliver_all in D'].
      - apply Forall_app. now split. }
    assert (Still : forall es1, Forall plain (streams os) -> deliver_all (pieces (streams os)) c = Some c' -> gists es1 = [] -> Forall (made m) es1 ->
      exists es, match queue m t a os c with Some (more, c'') => Some (es1 ++ more, c'') | None => None end = Some (es, c') /\
                 gists es = ssl_gists (new_events c c') /\ Forall (made m) es).
    { intros es1 F' D' G1 V1. apply Step; auto using more_refl. now rewrite new_events_same. }
    cbn [Observe.queue]. destruct o as [p out| | | | | | | | | | | | |]; cbn [streams flat_map app] in F, D;
      try (apply Still; [exact F|exact D|reflexivity|repeat constructor]);
      try (rewrite new_events_same; apply Still; [exact F|exact D|reflexivity|constructor]).
    apply Forall_cons_iff in F as [[H1 H2] F]. cbn [snd] in H1, H2. rewrite Hp. fold (streams os) in F, D.
    destruct out; try contradiction; try congruence; cbn [pieces flat_map app] in D; fold (pieces (streams os)) in D;
      try (rewrite new_events_same; apply Still; [exact F|exact D|reflexivity|constructor]).
    cbn [SslThms.deliver_all] in D. destruct (DeliverStream false p data c) as [c1|] eqn:E1; [|discriminate].
    apply Step; [now apply more_DeliverStream in E1|exact F|exact D|apply policy_gists|apply made_policy].
Qed.

(** ** Packets one after the other *)

Definition final (x : Packet * Meets) : Detect.event :=
  let '(k, m) := x in Detect.FinalPacket (m_raw m) (pk_time k) (m_sent m) (m_stack m) (m_tries m).

(** What the analyzers queue for each packet. *)
Fixpoint bro_events (ks : list (Packet * Meets)) (a : TCP_Analyzer) (c : SslConn) : option (list (list Detect.event) * TCP_Analyzer * SslConn) :=
  match ks with
  | [] => Some ([], a, c)
  | (k, m) :: ks =>
      match DeliverPacket opts base k (forget_outs a) with
      | None => None
      | Some a =>
          match queue m (pk_time k) a (outs a) c with
          | None => None
          | Some (es, c) =>
              match bro_events ks a c with
              | Some (bss, a, c) => Some ((es ++ [final (k, m)]) :: bss, a, c)
              | None => None
              end
          end
      end
  end.

Lemma bro_events_app ks ks' a c :
  bro_events (ks ++ ks') a c =
  match bro_events ks a c with
  | Some (bss, a, c) => match bro_events ks' a c with Some (bss', a, c) => Some (bss ++ bss', a, c) | None => None end
  | None => None
  end.
Proof.
  revert a c. induction ks as [|[k m] ks IH]; intros a c; cbn [app bro_events].
  - now destruct (bro_events ks' a c) as [[[? ?] ?]|].
  - destruct (DeliverPacket opts base k (forget_outs a)) as [a1|]; [|reflexivity]. destruct (queue m (pk_time k) a1 (outs a1) c) as [[es c1]|]; [|reflexivity].
    rewrite IH. destruct (bro_events ks a1 c1) as [[[bss a2] c2]|]; [|reflexivity]. now destruct (bro_events ks' a2 c2) as [[[? ?] ?]|].
Qed.

(** The events of a packet: those of the analyzers, then its end. *)
Definition packet_block (x : Packet * Meets) (b : list Detect.event) : Prop := exists es, b = es ++ [final x] /\ Forall (made (snd x)) es.

Section Policy.
Context (pm : env -> list Z -> list Z -> list Z) (SHA256 : list Z -> list Z) (keys : list telex_priv_key) (cid : conn_id).
Abbreviation on_events := (Detect.on_events pm SHA256 keys cid).

Definition skips (d : det) : bool := existsb (fun x => match x with SkipConnection => true | _ => false end) (acts d).

Lemma acts_grow es : forall d d', on_events es d = Ret d' -> skips d' = false -> skips d = false.
Proof.
  induction es as [|e es IH]; intros d d' E H; cbn [Detect.on_events] in E; [now injection E as ->|].
  apply obind_ret in E as (d1 & E1 & E). pose proof (IH _ _ E H) as H1. apply on_event_moves in E1 as (l & El & _).
  unfold skips in *. rewrite El, existsb_app in H1. now apply orb_false_iff in H1.
Qed.

(** The analyzers do not depend on the policy, as long as it does not skip the connection. *)
Lemma watch_factor ks : forall a c bss a' c' d d',
  bro_events ks a c = Some (bss, a', c') -> on_events (concat bss) d = Ret d' -> skips d' = false ->
  watch cmp ana beyond opts base pm SHA256 keys cid ks {| w_tcp := a; w_tls := c; w_policy := d |} =
  Ret {| w_tcp := a'; w_tls := c'; w_policy := d' |}.
Proof.
  induction ks as [|[k m] ks IH]; intros a c bss a' c' d d' E P S; cbn [bro_events] in E.
  - injection E as <- <- <-. cbn in P. injection P as ->. reflexivity.
  - destruct (DeliverPacket opts base k (forget_outs a)) as [a1|] eqn:E1; [|discriminate].
    destruct (queue m (pk_time k) a1 (outs a1) c) as [[es c1]|] eqn:E2; [|discriminate].
    destruct (bro_events ks a1 c1) as [[[bss1 a2] c2]|] eqn:E3; [|discriminate]. injection E as <- <- <-.
    cbn [concat] in P. rewrite on_events_app in P. apply obind_ret in P as (d1 & P1 & P).
    assert (S1 : skips d = false) by (eapply acts_grow; [exact P1|]; eapply acts_grow; eassumption).
    cbn [watch]. unfold next_packet. cbn [w_tcp w_tls w_policy]. fold (skips d). rewrite S1, E1, E2. cbn [final] in P1. rewrite P1. cbn [obind].
    eapply IH; eassumption.
Qed.
End Policy.

(** The packets of a conversation. *)
Lemma conv_forget start s before r a : conv opts start s before r a -> conv opts start s before r (forget_outs a).
Proof. intros [[K H1 H2 H3 H4 H5] M]. split; [|exact M]. split; assumption. Qed.

Lemma bro_packets start s ks : forall before r a,
  conv opts start s before r a -> Forall (data_packet opts base) (map fst ks) -> Reassem.Skipping (base_env opts) = false ->
  (forall q, limits opts (s q)) ->
  (forall q, orderly opts (before q) (all_ops start (map fst ks) q)) ->
  (forall q, extends (s q) (tag opts (before q ++ all_ops start (map fst ks) q))) ->
  exists r' a' ps, conv opts start s (fun q => before q ++ all_ops start (map fst ks) q) r' a' /\
    (forall q, bytes_of q ps = slice (s q) (last_reassem_seq (r q)) (last_reassem_seq (r' q)) /\
               1 <= last_reassem_seq (r q) <= last_reassem_seq (r' q)) /\
    Forall (fun x => exists k, In k (map fst ks) /\ payload k <> [] /\ fst x = pk_is_orig k) ps /\
    forall c c', deliver_all ps c = Some c' ->
      exists bss, bro_events ks a c = Some (bss, a', c') /\ gists (concat bss) = ssl_gists (new_events c c') /\ Forall2 packet_block ks bss.
Proof.
  induction ks as [|[k m] ks IH]; intros before r a C F Hsk Hl Ho Hx.
  - exists r, a, []. split; [destruct C as [E M]; split; [exact E|]; intros q; rewrite app_nil_r; apply M|].
    split; [|split; [constructor|]].
    + intros q. split; [unfold slice; now rewrite Z.sub_diag|]. destruct C as [_ M]. pose proof (sy_trim _ _ (proj1 (M q))). lia.
    + intros c c' [= <-]. exists []. rewrite new_events_same. split; [reflexivity|]. split; [reflexivity|constructor].
  - cbn [map fst] in *. apply Forall_cons_iff in F as [D F]. cbn [all_ops flat_map] in *. fold (all_ops start (map fst ks)) in *.
    destruct (conv_packet opts base start s before r k (forget_outs a) (conv_forget _ _ _ _ _ C) D Hsk Hl)
      as (r1 & a1 & ss & ds & E1 & C1 & (U1 & U2 & U3) & D1 & L1 & L2 & N1).
    { intros q. now apply (orderly_app opts (before q) (ops_of start k q) (all_ops start (map fst ks) q)). }
    { intros q. apply (extends_prefix opts _ _ (all_ops start (map fst ks) q)). rewrite <- app_assoc. apply Hx. }
    destruct (IH _ r1 a1 C1 F Hsk Hl) as (r2 & a2 & ps & C2 & D2 & F2 & H2).
    { intros q. now apply (orderly_app opts (before q) (ops_of start k q) (all_ops start (map fst ks) q)). }
    { intros q. rewrite <- app_assoc. apply Hx. }
    exists r2, a2, (map (pair (pk_is_orig k)) ds ++ ps).
    split; [destruct C2 as [C2 M2]; split; [exact C2|]; intros q; rewrite app_assoc; apply M2|]. split; [|split].
    + intros q. destruct (D2 q) as [D2q L3]. rewrite bytes_of_app, bytes_of_one, D2q.
      assert (T1 : 1 <= last_reassem_seq (r q)) by (destruct C as [_ M]; pose proof (sy_trim _ _ (proj1 (M q))); lia).
      destruct (Bool.eqb_spec (pk_is_orig k) q) as [<-|Hq].
      * split; [|lia]. rewrite D1. apply slice_app; lia.
      * assert (q = negb (pk_is_orig k)) as -> by (clear -Hq; destruct q, (pk_is_orig k); cbn; congruence). rewrite L2 in *. split; [reflexivity|lia].
    + apply Forall_app. split.
      * apply Forall_map. apply Forall_forall. intros d Hd. exists k. split; [now left|]. split; [|reflexivity].
        intros Hp. rewrite (N1 Hp) in Hd. destruct Hd.
      * eapply Forall_impl; [|exact F2]. intros x (k' & Hk' & R). exists k'. split; [now right|exact R].
    + intros c c' Hd. rewrite deliver_app in Hd. destruct (deliver_all (map (pair (pk_is_orig k)) ds) c) as [c1|] eqn:Hc; [|discriminate].
      assert (St : streams (outs a1) = ss) by (rewrite U1; reflexivity).
      destruct (queue_spec m (pk_time k) a1 (outs a1) c c1) as (es & Q & G & V).
      { apply (es_partial _ _ _ (proj1 C1)). } { now rewrite St. } { now rewrite St, U2. }
      destruct (H2 c1 c' Hd) as (bss & B & G2 & F3). cbn [bro_events]. rewrite E1, Q, B.
      eexists. split; [reflexivity|]. split.
      * cbn [concat]. rewrite !flat_map_app, G, G2. cbn [flat_map gist_of final app]. rewrite app_nil_r, <- flat_map_app. f_equal. symmetry.
        apply new_events_trans; eapply more_deliver_all; eassumption.
      * constructor; [exists es; auto|exact F3].
Qed.

(** ** Turns *)

Lemma reached start s before r a q n :
  conv opts start s before r a -> 1 <= n -> (forall x, 1 <= x < n -> first_copy (tag opts (before q)) x <> None) ->
  first_copy (tag opts (before q)) n = None -> last_reassem_seq (r q) = n.
Proof.
  intros [_ M] Hn Hall Hend. destruct (M q) as (Sy & Hset & R). pose proof (sy_trim _ _ Sy) as Ht.
  destruct (Z_lt_dec (last_reassem_seq (r q)) n) as [Hlt|Hge].
  - exfalso. specialize (Hall (last_reassem_seq (r q)) ltac:(lia)). rewrite <- R in Hall by lia. destruct Hall as [C|C]; [lia|now apply Hset in C].
  - destruct (Z.eq_dec (last_reassem_seq (r q)) n) as [|Hne]; [assumption|]. exfalso.
    apply (proj1 (R n Hn)); [|exact Hend]. destruct (Z_lt_dec n (trim_seq (r q))); [now left|right]. apply (sy_held _ _ Sy). lia.
Qed.

Lemma one_sender p ps : Forall (fun x : bool * list Z => fst x = p) ps ->
  ps = map (pair p) (map snd ps) /\ bytes_of p ps = concat (map snd ps) /\ bytes_of (negb p) ps = [].
Proof.
  induction 1 as [|[o d] ps H _ (IH1 & IH2 & IH3)]; [repeat split|]. cbn [fst] in H. subst o. unfold bytes_of in *. cbn [map filter fst snd concat].
  rewrite Bool.eqb_reflx. replace (Bool.eqb p (negb p)) with false by now destruct p. cbn [map concat snd]. split; [f_equal; exact IH1|]. split; [now f_equal|exact IH3].
Qed.

(** A turn: the packets with data come from one side; they complete its stream up to [upto]
    and go no further. *)
Lemma turn_seen start s ks sender before r a c rs upto :
  conv opts start s before r a -> Forall (data_packet opts base) (map fst ks) -> Reassem.Skipping (base_env opts) = false ->
  (forall q, limits opts (s q)) ->
  (forall q, orderly opts (before q) (all_ops start (map fst ks) q)) ->
  (forall q, extends (s q) (tag opts (before q ++ all_ops start (map fst ks) q))) ->
  (forall k, In k (map fst ks) -> payload k <> [] -> pk_is_orig k = sender) ->
  1 <= upto -> (forall x, 1 <= x < upto -> first_copy (tag opts (before sender ++ all_ops start (map fst ks) sender)) x <> None) ->
  first_copy (tag opts (before sender ++ all_ops start (map fst ks) sender)) upto = None ->
  slice (s sender) (last_reassem_seq (r sender)) upto = concat (map enc rs) ->
  records_fit cmp ana beyond sender rs (ssl c) -> SslThms.between c ->
  exists r' a' c' bss, conv opts start s (fun q => before q ++ all_ops start (map fst ks) q) r' a' /\
    last_reassem_seq (r' sender) = upto /\ last_reassem_seq (r' (negb sender)) = last_reassem_seq (r (negb sender)) /\
    bro_events ks a c = Some (bss, a', c') /\ SslThms.between c' /\ ssl c' = fold_left (fun s r => next sender r s) rs (ssl c) /\
    gists (concat bss) = ssl_gists (new_events c c') /\ Forall2 packet_block ks bss.
Proof.
  intros C D Hsk Hl Ho Hx Hs Hu Hall Hend Hb Fit B.
  destruct (bro_packets start s ks before r a C D Hsk Hl Ho Hx) as (r' & a' & ps & C' & Hp & Fp & H).
  assert (Lu : last_reassem_seq (r' sender) = upto) by (eapply reached; eassumption).
  destruct (one_sender sender ps) as (P1 & P2 & P3).
  { eapply Forall_impl; [|exact Fp]. intros x (k & Hk & Hn & ->). now apply Hs. }
  assert (Lo : last_reassem_seq (r' (negb sender)) = last_reassem_seq (r (negb sender))).
  { destruct (Hp (negb sender)) as [Hq Hle]. rewrite P3 in Hq. destruct C as [_ M]. destruct C' as [_ M'].
    pose proof (sy_last _ _ (proj1 (M' (negb sender)))) as T3. unfold slice in Hq.
    assert (Ln : List.length (firstn (Z.to_nat (last_reassem_seq (r' (negb sender)) - last_reassem_seq (r (negb sender))))
                 (skipn (Z.to_nat (last_reassem_seq (r (negb sender)) - 1)) (s (negb sender)))) = 0%nat) by (rewrite <- Hq; reflexivity).
    rewrite length_firstn, length_skipn in Ln. unfold stream_end in T3. lia. }
  destruct (deliver_turn cmp ana beyond {| sender := sender; arrives := map snd ps; sends := rs |} c) as (c' & Ed & B' & Es).
  { split; [|exact Fit]. cbn [arrives sends]. rewrite <- P2. destruct (Hp sender) as [-> _]. now rewrite Lu. }
  { exact B. }
  unfold turn_pieces in Ed. cbn [SslThms.sender arrives] in Ed. rewrite <- P1 in Ed. destruct (H c c' Ed) as (bss & Eb & G & F2).
  exists r', a', c', bss. auto 10.
Qed.

(** ** The gists of a handshake *)

Lemma new_gists s s' es : events s' = events s ++ es -> others (ssl_gists es) = ssl_gists (skipn (List.length (reports (events s))) (reports (events s'))).
Proof. intros E. rewrite E, reports_app, skipn_exact by reflexivity. symmetry. apply reports_others. Qed.

(** Records of handshake messages. *)
Lemma groups_shape orig version groups : forall s,
  open s -> Forall (Forall msg_ok) groups ->
  let s' := fold_left (fun s r => next orig r s) (map (hs_record version) groups) s in
  exists es, events s' = events s ++ es /\ Forall (fun g => match g with GRecord o t _ => o = orig /\ t = 22 | _ => True end) (ssl_gists es).
Proof.
  induction groups as [|g groups IH]; intros s O F; cbn [map fold_left].
  - exists []. rewrite app_nil_r. split; [reflexivity|constructor].
  - apply Forall_cons_iff in F as [Fg F]. destruct (next_messages cmp ana beyond orig version g s O Fg) as (_ & O1 & _).
    destruct (IH _ O1 F) as (es2 & E2 & G2). destruct (next_shape cmp ana beyond orig HANDSHAKE version (concat (map enc_msg g)) s (proj1 O)) as (es1 & E1 & N1).
    fold (hs_record version g) in E1. exists (ssl_record orig HANDSHAKE (concat (map enc_msg g)) :: es1 ++ es2). cbn zeta in *. rewrite E2, E1.
    split; [now rewrite <- !app_assoc|]. cbn [flat_map ssl_gist app]. constructor; [easy|]. rewrite flat_map_app. apply Forall_app. split; [|exact G2].
    rewrite <- (no_record_others _ N1). apply Forall_forall. intros x Hx. apply filter_In in Hx as [_ Hx]. destruct x; easy || exact I.
Qed.

Lemma others_nil_app a b : others (ssl_gists (a ++ b)) = [] -> others (ssl_gists a) = [] /\ others (ssl_gists b) = [].
Proof. rewrite flat_map_app, others_app. apply app_eq_nil. Qed.

Lemma one_record orig type version fragment s :
  fragmented s = false ->
  exists es, events (next orig (type, version, fragment) s) = events s ++ ssl_record orig type fragment :: es /\
             ssl_gists (ssl_record orig type fragment :: es) = GRecord orig type fragment :: others (ssl_gists es).
Proof.
  intros Hf. destruct (next_shape cmp ana beyond orig type version fragment s Hf) as (es & E & N). exists es. split; [exact E|].
  cbn [flat_map ssl_gist app]. now rewrite no_record_others.
Qed.

Lemma hello_gists x :
  session_ok x -> record_ok (hs_record (sv x) [m_client_hello x]) ->
  ssl_gists (events (next true (hs_record (sv x) [m_client_hello x]) new_SSLAnalyzer)) =
  [GRecord true 22 (concat (map enc_msg [m_client_hello x])); GHello (skipn 4 (s_crandom x)) (s_crandom x)].
Proof.
  intros Hx K. destruct (hear_client_hello cmp ana beyond x Hx K) as (_ & _ & (_ & R & _)).
  destruct (one_record true HANDSHAKE (sv x) (concat (map enc_msg [m_client_hello x])) new_SSLAnalyzer eq_refl) as (es & E & G).
  fold (hs_record (sv x) [m_client_hello x]) in E. rewrite E in *. cbn [events new_SSLAnalyzer app] in *. rewrite G. f_equal.
  rewrite <- reports_others. change (reports es) with (reports (ssl_record true HANDSHAKE (concat (map enc_msg [m_client_hello x])) :: es)). now rewrite R.
Qed.

Lemma flight_reports_gists x : ssl_gists (flight_reports ana x) = [GReply (s_srandom x); GKey (s_p x) (s_g x) (s_pub x)].
Proof.
  unfold flight_reports, reuse_report. cbn [flat_map app]. destruct (list_eq_dec _ _ _); destruct (s_certs x); try destruct ana; reflexivity.
Qed.

Lemma flight_gists x groups s1 hello :
  session_ok x -> concat groups = server_flight x -> Forall (fun g => record_ok (hs_record (sv x) g)) groups -> open s1 ->
  reports (events s1) = [hello] ->
  let s2 := fold_left (fun s r => next false r s) (map (hs_record (sv x)) groups) s1 in
  reports (events s2) = hello :: flight_reports ana x ->
  exists es, events s2 = events s1 ++ es /\ Forall early_gist (ssl_gists es) /\
             others (ssl_gists es) = [GReply (s_srandom x); GKey (s_p x) (s_g x) (s_pub x)].
Proof.
  intros Hx Hg K O R1 s2 R2. destruct (flight_readable x groups Hx Hg K) as [_ F].
  destruct (groups_shape false (sv x) groups s1 O F) as (es & E & G). fold s2 in E. exists es. split; [exact E|].
  assert (Eo : others (ssl_gists es) = [GReply (s_srandom x); GKey (s_p x) (s_g x) (s_pub x)]).
  { rewrite (new_gists s1 s2 es E), R1, R2. cbn [List.length skipn]. apply flight_reports_gists. }
  split; [|exact Eo]. rewrite Forall_forall in *. intros g Hin. specialize (G g Hin). unfold early_gist.
  destruct g; try exact I; [apply G|..];
  (match goal with |- False => idtac end;
   match type of Hin with In ?g _ => assert (C : In g (others (ssl_gists es))) by (apply filter_In; auto); rewrite Eo in C; now repeat destruct C as [C|C] end).
Qed.

Lemma keys_gists x es0 s :
  session_ok x -> at_ cmp x STATE_SERVER_HELLO_DONE es0 s -> open s ->
  let rs := [hs_record (sv x) [(16, s_cke x)]; (CHANGE_CIPHER_SPEC, sv x, [1]); (HANDSHAKE, sv x, s_cfinished x)] in
  Forall record_ok rs ->
  let s' := fold_left (fun s r => next true r s) rs s in
  exists es, events s' = events s ++ es /\
    ssl_gists es = [GRecord true 22 (concat (map enc_msg [(16, s_cke x)])); GRecord true 20 [1]; GRecord true 22 (s_cfinished x)].
Proof.
  intros Hx A O rs K s'. destruct (hear_client_keys cmp ana beyond x es0 s Hx A O K) as (_ & _ & (_ & R' & _)). fold rs s' in R'. destruct A as (_ & R & _).
  assert (F : Forall msg_ok [(16, s_cke x)]).
  { apply (session_readable x _ Hx); [intros m [<-|[]]; now right; left|]. apply Forall_cons_iff in K as [K _]. exact (record_small _ _ K). }
  destruct (next_messages cmp ana beyond true (sv x) [(16, s_cke x)] s O F) as (_ & O1 & _). set (s1 := next true (hs_record _ _) s) in *.
  destruct (next_ccs cmp ana beyond true (sv x) s1 O1) as (_ & F2). set (s2 := next true (CHANGE_CIPHER_SPEC, sv x, [1]) s1) in *.
  destruct (one_record true HANDSHAKE (sv x) (concat (map enc_msg [(16, s_cke x)])) s (proj1 O)) as (e1 & E1 & G1). fold (hs_record (sv x) [(16, s_cke x)]) s1 in E1.
  destruct (one_record true CHANGE_CIPHER_SPEC (sv x) [1] s1 (proj1 O1)) as (e2 & E2 & G2). fold s2 in E2.
  destruct (one_record true HANDSHAKE (sv x) (s_cfinished x) s2 F2) as (e3 & E3 & G3).
  set (es := (ssl_record true HANDSHAKE (concat (map enc_msg [(16, s_cke x)])) :: e1) ++ (ssl_record true CHANGE_CIPHER_SPEC [1] :: e2) ++
             (ssl_record true HANDSHAKE (s_cfinished x) :: e3)).
  assert (Ee : events s' = events s ++ es).
  { unfold s', rs. cbn [fold_left]. fold s1. fold s2. rewrite E3, E2, E1. unfold es. now rewrite <- !app_assoc. }
  exists es. split; [exact Ee|]. pose proof (new_gists s s' es Ee) as Go. rewrite R', R in Go. rewrite skipn_exact in Go by reflexivity. cbn [flat_map ssl_gist app] in Go.
  unfold es in *. apply others_nil_app in Go as [Go1 Go]. apply others_nil_app in Go as [Go2 Go3]. rewrite !flat_map_app.
  cbn [flat_map ssl_gist app others filter is_GRecord negb] in Go1, Go2, Go3. fold (others (ssl_gists e1)) (others (ssl_gists e2)) (others (ssl_gists e3)) in *.
  rewrite G1, G2, G3, Go1, Go2, Go3. reflexivity.
Qed.

Lemma finish_gists x es0 s :
  session_ok x -> at_ cmp x STATE_CLIENT_FINISHED es0 s -> open s ->
  let rs := [(CHANGE_CIPHER_SPEC, sv x, [1]); (HANDSHAKE, sv x, s_sfinished x)] in
  Forall record_ok rs ->
  let s' := fold_left (fun s r => next false r s) rs s in
  exists es, events s' = events s ++ es /\ ssl_gists es = [GRecord false 20 [1]; GRecord false 22 (s_sfinished x)].
Proof.
  intros Hx A O rs K s'. destruct (hear_server_finished cmp ana beyond x es0 s Hx A O K) as (_ & (_ & R' & _)). fold rs s' in R'. destruct A as (_ & R & _).
  destruct (next_ccs cmp ana beyond false (sv x) s O) as (_ & F2). set (s2 := next false (CHANGE_CIPHER_SPEC, sv x, [1]) s) in *.
  destruct (one_record false CHANGE_CIPHER_SPEC (sv x) [1] s (proj1 O)) as (e2 & E2 & G2). fold s2 in E2.
  destruct (one_record false HANDSHAKE (sv x) (s_sfinished x) s2 F2) as (e3 & E3 & G3).
  set (es := (ssl_record false CHANGE_CIPHER_SPEC [1] :: e2) ++ (ssl_record false HANDSHAKE (s_sfinished x) :: e3)).
  assert (Ee : events s' = events s ++ es).
  { unfold s', rs. cbn [fold_left]. fold s2. rewrite E3, E2. unfold es. now rewrite <- !app_assoc. }
  exists es. split; [exact Ee|]. pose proof (new_gists s s' es Ee) as Go. rewrite R', R in Go. rewrite skipn_exact in Go by reflexivity. cbn [flat_map ssl_gist app] in Go.
  unfold es in *. apply others_nil_app in Go as [Go2 Go3]. rewrite !flat_map_app.
  cbn [flat_map ssl_gist app others filter is_GRecord negb] in Go2, Go3. fold (others (ssl_gists e2)) (others (ssl_gists e3)) in *.
  rewrite G2, G3, Go2, Go3. reflexivity.
Qed.

(** ** A session in packets *)

(** The records of the four turns, and the two streams. *)
Definition turn_records (x : Session) (groups : list (list (Z * list Z))) (n : nat) : list (Z * Z * list Z) :=
  nth n (map sends (handshake_turns x groups [] [] [] [])) [].
Definition turn_bytes (x : Session) (groups : list (list (Z * list Z))) (n : nat) : list Z := concat (map enc (turn_records x groups n)).
Definition session_stream (x : Session) (groups : list (list (Z * list Z))) (q : bool) : list Z :=
  if q then turn_bytes x groups 0 ++ turn_bytes x groups 2 else turn_bytes x groups 1 ++ turn_bytes x groups 3.

(** The bytes of [q] up to [n], and not that at [n], have arrived with the packets [ks]. *)
Definition arrived (start : bool -> Z) (ks : list Packet) (q : bool) (n : Z) : Prop :=
  (forall x, 1 <= x < n -> first_copy (tag opts (all_ops start ks q)) x <> None) /\ first_copy (tag opts (all_ops start ks q)) n = None.

(** The packets after the SYNs, turn by turn: in each, data comes from the side whose turn it
    is; all of it has arrived when the turn ends.  Within a turn packets may be lost and sent
    again, overlap and change order. *)
Record turns_arrive (start : bool -> Z) (x : Session) (groups : list (list (Z * list Z))) (t1 t2 t3 t4 : list Packet) : Prop := {
  ta_packets : Forall (data_packet opts base) (t1 ++ t2 ++ t3 ++ t4);
  ta_orderly : forall q, orderly opts [] (all_ops start (t1 ++ t2 ++ t3 ++ t4) q);
  ta_extends : forall q, extends (session_stream x groups q) (tag opts (all_ops start (t1 ++ t2 ++ t3 ++ t4) q));
  ta_client : forall k, In k (t1 ++ t3) -> payload k <> [] -> pk_is_orig k = true;
  ta_server : forall k, In k (t2 ++ t4) -> payload k <> [] -> pk_is_orig k = false;
  ta_first : arrived start t1 true (stream_end (turn_bytes x groups 0));
  ta_second : arrived start (t1 ++ t2) false (stream_end (turn_bytes x groups 1));
  ta_third : arrived start (t1 ++ t2 ++ t3) true (stream_end (session_stream x groups true));
  ta_fourth : arrived start (t1 ++ t2 ++ t3 ++ t4) false (stream_end (session_stream x groups false)) }.

Lemma all_ops_app start ks ks' q : all_ops start (ks ++ ks') q = all_ops start ks q ++ all_ops start ks' q.
Proof. apply flat_map_app. Qed.

Lemma conv_ext start s b b' r a : (forall q, b q = b' q) -> conv opts start s b r a -> conv opts start s b' r a.
Proof. intros E [C M]. split; [exact C|]. intros q. rewrite <- E. apply M. Qed.

(** One turn of several. *)
Lemma turn_of start s before ks rest r a c sender rs upto :
  conv opts start s (all_ops start before) r a ->
  Forall (data_packet opts base) (before ++ map fst ks ++ rest) -> Reassem.Skipping (base_env opts) = false -> (forall q, limits opts (s q)) ->
  (forall q, orderly opts [] (all_ops start (before ++ map fst ks ++ rest) q)) ->
  (forall q, extends (s q) (tag opts (all_ops start (before ++ map fst ks ++ rest) q))) ->
  (forall k, In k (map fst ks) -> payload k <> [] -> pk_is_orig k = sender) ->
  1 <= upto -> arrived start (before ++ map fst ks) sender upto ->
  slice (s sender) (last_reassem_seq (r sender)) upto = concat (map enc rs) ->
  records_fit cmp ana beyond sender rs (ssl c) -> SslThms.between c ->
  exists r' a' c' bss, conv opts start s (all_ops start (before ++ map fst ks)) r' a' /\
    last_reassem_seq (r' sender) = upto /\ last_reassem_seq (r' (negb sender)) = last_reassem_seq (r (negb sender)) /\
    bro_events ks a c = Some (bss, a', c') /\ SslThms.between c' /\ ssl c' = fold_left (fun s r => next sender r s) rs (ssl c) /\
    gists (concat bss) = ssl_gists (new_events c c') /\ Forall2 packet_block ks bss.
Proof.
  intros C D Hsk Hl Ho Hx Hs Hu [A1 A2] Hb Fit B.
  assert (D' : Forall (data_packet opts base) (map fst ks)) by (apply Forall_app in D as [_ D]; now apply Forall_app in D).
  destruct (turn_seen start s ks sender (all_ops start before) r a c rs upto C D' Hsk Hl) as (r' & a' & c' & bss & C' & H); auto.
  - intros q. specialize (Ho q). rewrite !all_ops_app in Ho. apply orderly_app in Ho as [_ Ho]. now apply orderly_app in Ho.
  - intros q. specialize (Hx q). rewrite !all_ops_app, app_assoc in Hx. now apply extends_prefix in Hx.
  - rewrite <- all_ops_app. exact A1.
  - rewrite <- all_ops_app. exact A2.
  - exists r', a', c', bss. split; [|exact H]. eapply conv_ext; [|exact C']. intros q. now rewrite all_ops_app.
Qed.

Lemma turn_slice a b n : slice (a ++ b) (stream_end a) (stream_end (a ++ b)) = b /\ slice (a ++ n) 1 (stream_end a) = a.
Proof.
  unfold slice, stream_end. rewrite length_app. split.
  - replace (Z.to_nat (1 + Z.of_nat (List.length a) - 1)) with (List.length a) by lia. rewrite skipn_exact by reflexivity.
    apply firstn_all2. lia.
  - change (Z.to_nat (1 - 1)) with 0%nat. cbn [skipn]. apply firstn_exact. lia.
Qed.

(** What Bro's analyzers queue for the packets of a session. *)
Lemma session_queued start x groups k1 k2 k3 k4 a c :
  session_ok x -> concat groups = server_flight x -> Forall (fun n => Forall record_ok (turn_records x groups n)) [0; 1; 2; 3]%nat ->
  Reassem.Skipping (base_env opts) = false -> (forall q, limits opts (session_stream x groups q)) ->
  turns_arrive start x groups (map fst k1) (map fst k2) (map fst k3) (map fst k4) ->
  est start (fun _ => new_Reassembler) a -> SslThms.between c -> ssl c = new_SSLAnalyzer ->
  exists b1 b2 b3 b4 a' c',
    bro_events (k1 ++ k2 ++ k3 ++ k4) a c = Some (b1 ++ b2 ++ b3 ++ b4, a', c') /\
    Forall2 packet_block k1 b1 /\ Forall2 packet_block k2 b2 /\ Forall2 packet_block k3 b3 /\ Forall2 packet_block k4 b4 /\
    gists (concat b1) = [GRecord true 22 (concat (map enc_msg [m_client_hello x])); GHello (skipn 4 (s_crandom x)) (s_crandom x)] /\
    (Forall early_gist (gists (concat b2)) /\ others (gists (concat b2)) = [GReply (s_srandom x); GKey (s_p x) (s_g x) (s_pub x)]) /\
    gists (concat b3) = [GRecord true 22 (concat (map enc_msg [(16, s_cke x)])); GRecord true 20 [1]; GRecord true 22 (s_cfinished x)] /\
    gists (concat b4) = [GRecord false 20 [1]; GRecord false 22 (s_sfinished x)].
Proof.
  intros Hx Hg K Hsk Hl T E0 B0 S0. destruct T as [T1 T2 T3 T4 T5 T6 T7 T8 T9].
  apply Forall_cons_iff in K as [K1 K]. apply Forall_cons_iff in K as [K2 K]. apply Forall_cons_iff in K as [K3 K]. apply Forall_cons_iff in K as [K4 _].
  assert (Kh : record_ok (hs_record (sv x) [m_client_hello x])) by now apply Forall_cons_iff in K1.
  assert (Kg : Forall (fun g => record_ok (hs_record (sv x) g)) groups) by now apply Forall_map.
  destruct (hear_client_hello cmp ana beyond x Hx Kh) as (R1 & O1 & A1). pose proof (hello_gists x Hx Kh) as G1.
  destruct (hear_hellos cmp ana beyond x groups Hx Hg Kh Kg) as (_ & R2 & O2 & A2). cbn zeta in *.
  set (s1 := next true (hs_record (sv x) [m_client_hello x]) new_SSLAnalyzer) in *. set (s2 := fold_left _ (map _ groups) s1) in *.
  destruct (flight_gists x groups s1 _ Hx Hg Kg O1 (proj1 (proj2 A1)) (proj1 (proj2 A2))) as (e2 & E2 & G2 & G2'). fold s2 in E2.
  destruct (hear_client_keys cmp ana beyond x _ s2 Hx A2 O2 K3) as (R3 & O3 & A3).
  destruct (keys_gists x _ s2 Hx A2 O2 K3) as (e3 & E3 & G3). cbn zeta in *. set (s3 := fold_left _ _ s2) in *.
  destruct (hear_server_finished cmp ana beyond x _ s3 Hx A3 O3 K4) as (R4 & _).
  destruct (finish_gists x _ s3 Hx A3 O3 K4) as (e4 & E4 & G4). cbn zeta in *.
  set (s := session_stream x groups) in *. destruct (turn_slice (turn_bytes x groups 0) (turn_bytes x groups 2) (turn_bytes x groups 2)) as [Sl3 Sl1].
  destruct (turn_slice (turn_bytes x groups 1) (turn_bytes x groups 3) (turn_bytes x groups 3)) as [Sl4 Sl2].
  assert (L : forall y, 1 <= stream_end y) by (intros; unfold stream_end; lia).
  (* the client's hello *)
  destruct (turn_of start s [] k1 (map fst k2 ++ map fst k3 ++ map fst k4) (fun _ => new_Reassembler) a c true (turn_records x groups 0)
              (stream_end (turn_bytes x groups 0))) as (r1 & a1 & c1 & b1 & C1 & L1 & L1' & Ev1 & B1 & S1 & Gi1 & F1); auto.
  { split; [exact E0|]. intros p. apply matches_new. }
  { intros k Hk. apply T4. apply in_app_iff. now left. }
  { rewrite S0. split; [exact R1|exact I]. }
  (* the server's flight *)
  destruct (turn_of start s ([] ++ map fst k1) k2 (map fst k3 ++ map fst k4) r1 a1 c1 false (turn_records x groups 1)
              (stream_end (turn_bytes x groups 1))) as (r2 & a2 & c2 & b2 & C2 & L2 & L2' & Ev2 & B2 & S2 & Gi2 & F2); auto.
  { intros k Hk. apply T5. apply in_app_iff. now left. }
  { cbn [negb] in L1'. rewrite L1'. exact Sl2. }
  { rewrite S1, S0. exact R2. }
  (* the client's keys *)
  destruct (turn_of start s (([] ++ map fst k1) ++ map fst k2) k3 (map fst k4) r2 a2 c2 true (turn_records x groups 2)
              (stream_end (session_stream x groups true))) as (r3 & a3 & c3 & b3 & C3 & L3 & L3' & Ev3 & B3 & S3 & Gi3 & F3); auto.
  { cbn [app]. now rewrite <- app_assoc. } { intros q. cbn [app]. rewrite <- app_assoc. apply T2. } { intros q. cbn [app]. rewrite <- app_assoc. apply T3. }
  { intros k Hk. apply T4. apply in_app_iff. now right. }
  { cbn [app]. rewrite <- app_assoc. exact T8. }
  { cbn [negb] in L2'. rewrite L2', L1. exact Sl3. }
  { rewrite S2, S1, S0. exact R3. }
  (* the server's finished message *)
  destruct (turn_of start s ((([] ++ map fst k1) ++ map fst k2) ++ map fst k3) k4 [] r3 a3 c3 false (turn_records x groups 3)
              (stream_end (session_stream x groups false))) as (r4 & a4 & c4 & b4 & C4 & L4 & L4' & Ev4 & B4 & S4 & Gi4 & F4); auto.
  { cbn [app]. now rewrite app_nil_r, <- !app_assoc. } { intros q. cbn [app]. rewrite app_nil_r, <- !app_assoc. apply T2. }
  { intros q. cbn [app]. rewrite app_nil_r, <- !app_assoc. apply T3. }
  { intros k Hk. apply T5. apply in_app_iff. now right. }
  { cbn [app]. rewrite <- !app_assoc. exact T9. }
  { cbn [negb] in L3'. rewrite L3', L2. exact Sl4. }
  { rewrite S3, S2, S1, S0. exact R4. }
  exists b1, b2, b3, b4, a4, c4. rewrite bro_events_app, Ev1, bro_events_app, Ev2, bro_events_app, Ev3, Ev4.
  split; [reflexivity|]. split; [exact F1|]. split; [exact F2|]. split; [exact F3|]. split; [exact F4|].
  assert (N1 : new_events c c1 = events s1) by (apply new_events_app; rewrite S1, S0; reflexivity).
  assert (N2 : new_events c1 c2 = e2) by (apply new_events_app; rewrite S2, S1, S0; exact E2).
  assert (N3 : new_events c2 c3 = e3) by (apply new_events_app; rewrite S3, S2, S1, S0; exact E3).
  assert (N4 : new_events c3 c4 = e4) by (apply new_events_app; rewrite S4, S3, S2, S1, S0; exact E4).
  rewrite Gi1, Gi2, Gi3, Gi4, N1, N2, N3, N4. auto.
Qed.

End Bro.

(** ** The policy over the queues *)

(** A packet that the station passes on for a connection blocked at [since]. *)
Definition passed (since : Z) (x : Packet * Meets) : list action := forwarded since (final x).

Lemma forwarded_made since m es : Forall (made m) es -> flat_map (forwarded since) es = [].
Proof. induction 1 as [|e es He _ IH]; [reflexivity|]. cbn [flat_map]. rewrite IH. destruct e; easy. Qed.

Lemma forwarded_blocks since ks bss : Forall2 packet_block ks bss -> flat_map (forwarded since) (concat bss) = flat_map (passed since) ks.
Proof.
  induction 1 as [|x b ks bss (es & -> & V) _ IH]; [reflexivity|]. cbn [concat flat_map]. rewrite !flat_map_app, IH, (forwarded_made _ _ _ V).
  cbn [flat_map]. now rewrite app_nil_r.
Qed.

Lemma made_options m es : Forall (made m) es -> gists es = [] -> Forall is_option es.
Proof. intros V G. apply gists_noise in G. rewrite Forall_forall in *. intros e He. specialize (V e He). specialize (G e He). destruct e; easy. Qed.

(** Where an event of the analyzers was queued. *)
Lemma block_split ks bss : Forall2 packet_block ks bss -> forall e1 h e2, concat bss = e1 ++ h :: e2 -> gist_of h <> [] ->
  exists ks1 x ks2 bss1 es1 es2 bss2, ks = ks1 ++ x :: ks2 /\ Forall2 packet_block ks1 bss1 /\ Forall2 packet_block ks2 bss2 /\
    e1 = concat bss1 ++ es1 /\ e2 = es2 ++ final x :: concat bss2 /\ made (snd x) h /\ Forall (made (snd x)) es1 /\ Forall (made (snd x)) es2.
Proof.
  induction 1 as [|x b ks bss (es & -> & V) F IH]; intros e1 h e2 E Hh; [now destruct e1|]. cbn [concat] in E.
  rewrite <- app_assoc in E. cbn [app] in E.
  assert (C : (exists es2, es = e1 ++ h :: es2 /\ e2 = es2 ++ final x :: concat bss) \/
              (exists e1', e1 = es ++ final x :: e1' /\ concat bss = e1' ++ h :: e2)).
  { clear -E Hh. revert e1 E. induction es as [|e es IH]; intros e1 E; cbn [app] in E.
    - destruct e1 as [|y e1]; cbn [app] in E; injection E as <- E; [destruct x; now contradiction Hh|]. right. now exists e1.
    - destruct e1 as [|y e1]; cbn [app] in E; injection E as <- E.
      + left. exists es. split; [reflexivity|now symmetry].
      + destruct (IH _ E) as [(es2 & -> & ->)|(e1' & -> & E')]; [left; now exists es2|right; now exists e1']. }
  destruct C as [(es2 & -> & ->)|(e1' & -> & E')].
  - apply Forall_app in V as [V1 V2]. apply Forall_cons_iff in V2 as [V2 V3].
    exists [], x, ks, [], e1, es2, bss. repeat split; auto.
  - destruct (IH e1' h e2 E' Hh) as (ks1 & y & ks2 & bss1 & es1 & es2 & bss2 & -> & F1 & F2 & -> & -> & V1 & V2 & V3).
    exists (x :: ks1), y, ks2, ((es ++ [final x]) :: bss1), es1, es2, bss2. split; [reflexivity|]. split; [constructor; [exists es; auto|exact F1]|].
    split; [exact F2|]. split; [cbn [concat]; now rewrite <- !app_assoc|]. auto.
Qed.

Lemma gist_is_rec e o t d : gist_of e = [GRecord o t d] -> is_rec o t d e.
Proof. destruct e; try discriminate. intros [= -> -> ->]. unfold is_rec. eauto 10. Qed.

Section Detected.

Context (pm : env -> list Z -> list Z -> list Z) (SHA256 : list Z -> list Z) (keys : list telex_priv_key) (cid : conn_id).
Abbreviation on_event := (Detect.on_event pm SHA256 keys cid).
Abbreviation on_events := (Detect.on_events pm SHA256 keys cid).

Context (cr sr p g pub cfin sfin : list Z) (port : Z) (tk : list Z) (good_key : list Z -> Prop).
Context (k1 k2 k3 k4 : list (Packet * Meets)) (b1 b2 b3 b4 : list (list Detect.event)) (d1 d3 c1 c2 : list Z).

(** The hello is that of a tagged connection, whichever packet completes it. *)
Hypothesis tagged : forall x, In x k1 -> let m := snd x in
  exists key, on_event (Detect.ClientHello (skipn 4 cr) cr (m_junk m) (m_now m) (m_tries m) (m_path_len m) (m_new_sock m) (m_connect m)) (Det None tk []) =
              Ret (Det (Some (new_te (key, port) cr (m_now m) (m_new_sock m))) key [Detect.Block; Detect.Connected (m_new_sock m)]) /\
              good_key key /\ 0 <= m_new_sock m.
Hypothesis late : forall x y, In x k1 -> In y k4 -> m_now (snd x) < pk_time (fst y) /\ 0 <= m_sent (snd y).
Hypothesis sizes : (List.length p <= 128)%nat /\ (List.length pub <= 128)%nat /\ List.length cr = 32%nat /\ List.length sr = 32%nat /\
  List.length (get_iv_from_handshake cfin) = 16%nat /\ List.length (get_iv_from_handshake sfin) = 16%nat.
Hypothesis F1 : Forall2 packet_block k1 b1.
Hypothesis F2 : Forall2 packet_block k2 b2.
Hypothesis F3 : Forall2 packet_block k3 b3.
Hypothesis F4 : Forall2 packet_block k4 b4.
Hypothesis G1 : gists (concat b1) = [GRecord true 22 d1; GHello (skipn 4 cr) cr].
Hypothesis G2 : Forall early_gist (gists (concat b2)) /\ others (gists (concat b2)) = [GReply sr; GKey p g pub].
Hypothesis G3 : gists (concat b3) = [GRecord true 22 d3; GRecord true 20 c1; GRecord true 22 cfin].
Hypothesis G4 : gists (concat b4) = [GRecord false 20 c2; GRecord false 22 sfin].

Lemma queues_handled : exists ka xh kb xf kc key te m fl,
  k1 ++ k2 ++ k3 ++ k4 = ka ++ xh :: kb ++ xf :: kc /\ In xh k1 /\ In xf k4 /\ good_key key /\
  on_events (concat (b1 ++ b2 ++ b3 ++ b4)) (Det None tk []) =
  Ret (Det None key ([Detect.Block; Detect.Connected (m_new_sock (snd xh))] ++ flat_map (passed (m_now (snd xh))) (xh :: kb) ++
                     [ToRelay m; ToRelay (raw_message (m_raw (snd xf))); Rst fl; CloseSock (m_new_sock (snd xh))])) /\
  key_info te = (key, port) /\
  te_dh te = DhRec (Some p) (Some g) (Some pub) (Some cr) (Some sr) (Some (get_iv_from_handshake cfin)) (Some (get_iv_from_handshake sfin)) /\
  telex_send_init_data (m_mem (snd xf)) (m_sent (snd xf)) cid te = Ret (Some m, 0).
Proof using tagged late sizes F1 F2 F3 F4 G1 G2 G3 G4.
  destruct sizes as (Z1 & Z2 & Z3 & Z4 & Z5 & Z6).
  (* the hello *)
  destruct (gist_split (concat b1) [GRecord true 22 d1] _ [] G1) as (e1 & h & e2 & E1 & H & N1 & N2).
  destruct (block_split _ _ F1 e1 h e2 E1 ltac:(rewrite H; discriminate))
    as (ka & xh & kb & ba & ea & eb & bb & Ek1 & Fa & Fb & Ea & Eb & Mh & _ & Vb).
  destruct h as [rd crd jk nw tr pl ns cn| | | | | | | |]; try discriminate. cbn [gist_of] in H. injection H as -> ->.
  cbn [made] in Mh. destruct Mh as (-> & -> & -> & -> & -> & ->).
  assert (Ih : In xh k1) by (rewrite Ek1; apply in_elt). destruct (tagged xh Ih) as (key & Hello & Hk & Hs). set (mh := snd xh) in *.
  (* the client's cipher change and finished message *)
  destruct (gist_split (concat b3) [] _ _ G3) as (f0 & y0 & f0' & E3 & Y0 & N3 & G3').
  destruct (gist_split f0' [] _ _ G3') as (f1 & y1 & f1' & -> & Y1 & N4 & G3''). destruct (gist_split f1' [] _ _ G3'') as (f2 & y2 & f3 & -> & Y2 & N5 & N6).
  (* the server's *)
  destruct (gist_split (concat b4) [] _ _ G4) as (g0 & y3 & g0' & E4 & Y3 & N7 & G4').
  destruct (gist_split g0' [] _ _ G4') as (g1 & y4 & g2 & -> & Y4 & N8 & N9).
  assert (E4' : concat b4 = (g0 ++ y3 :: g1) ++ y4 :: g2) by (rewrite E4, <- app_assoc; reflexivity).
  destruct (block_split _ _ F4 _ y4 g2 E4' ltac:(rewrite Y4; discriminate)) as (kc & xf & kd & bc & ec & ed & bd & Ek4 & Fc & Fd & Ec & Ed & Mf & Vc & Vd).
  assert (If : In xf k4) by (rewrite Ek4; apply in_elt). destruct (late xh xf Ih If) as [Ht Hsn]. set (mf := snd xf) in *.
  destruct (gist_is_rec _ _ _ _ Y4) as (o4 & r4 & mem4 & sent4 & tries4 & ->). cbn [made] in Mf. destruct Mf as (-> & -> & ->).
  set (E := e2 ++ concat b2 ++ f0 ++ y0 :: f1).
  assert (Hall : concat (b1 ++ b2 ++ b3 ++ b4) =
    e1 ++ Detect.ClientHello (skipn 4 cr) cr (m_junk mh) (m_now mh) (m_tries mh) (m_path_len mh) (m_new_sock mh) (m_connect mh) ::
    E ++ y1 :: f2 ++ y2 :: (f3 ++ g0) ++ y3 :: g1 ++ Detect.SslRecord false 22 sfin o4 r4 (m_mem mf) (m_sent mf) (m_tries mf) :: ed ++ final xf :: concat bd).
  { rewrite !concat_app, E1, E3, E4, Ed. unfold E. repeat (rewrite <- app_assoc; cbn [app]). reflexivity. }
  assert (Ge : gists E = gists (concat b2) ++ [GRecord true 22 d3]).
  { unfold E. rewrite !flat_map_app. cbn [flat_map]. rewrite N2, N3, N4, Y0. now rewrite app_nil_r. }
  assert (Fe : Forall early E) by (apply gists_early; rewrite Ge; apply Forall_app; split; [apply G2|repeat constructor]).
  set (te0 := new_te (key, port) cr (m_now mh) (m_new_sock mh)) in *.
  destruct (early_events pm SHA256 keys cid E te0 key [Detect.Block; Detect.Connected (m_new_sock mh)] Fe eq_refl eq_refl) as (te1 & Ev1 & C1).
  rewrite gists_dh, records_only_dh, Ge, others_app, (proj2 G2) in C1. apply core_inv in C1 as (A1 & A2 & A3 & A4 & A5 & A6).
  cbn [te0 new_te key_info do_fwd fwd_time te_sock te_state te_dh set_te_dh app others filter is_GRecord negb fold_left gist_dh dh_after
       dh_p dh_g dh_pub_key dh_client_random dh_server_random dh_client_iv dh_server_iv] in A1, A2, A3, A4, A5, A6.
  change (fwd_time te0) with (m_now mh) in Ev1.
  set (l1 := [Detect.Block; Detect.Connected (m_new_sock mh)] ++ flat_map (forwarded (m_now mh)) E) in *.
  destruct xf as [kf mf']. cbn [final snd fst] in *. subst mf.
  assert (No : Forall no_hello (concat bd)).
  { apply gists_no_hello. rewrite Ed, flat_map_app in N9. apply app_eq_nil in N9 as [_ N9]. cbn [flat_map gist_of app] in N9. rewrite N9. constructor. }
  assert (Nd : gists ed = []) by (rewrite Ed, flat_map_app in N9; now apply app_eq_nil in N9).
  destruct (finish_run pm SHA256 keys cid te1 key l1 y1 f2 y2 (f3 ++ g0) y3 g1 c1 cfin c2 sfin o4 r4 (m_mem mf') (m_sent mf') (m_tries mf') ed
              (m_raw mf') (pk_time kf) (m_sent mf') (m_stack mf') (m_tries mf') (concat bd) p g pub cr sr) as (te & m & fl & Ev2 & K & Hd & Hm);
    try assumption; try congruence; try (now apply gist_is_rec); try (now apply gists_noise); try lia.
  { rewrite A3. exact Ht. }
  { apply gists_noise. rewrite flat_map_app, N6, N7. reflexivity. }
  { eapply made_options; eassumption. }
  exists ka, xh, (kb ++ k2 ++ k3 ++ kc), (kf, mf'), kd, key, te, m, fl. split; [rewrite Ek1, Ek4; repeat (rewrite <- app_assoc; cbn [app]); reflexivity|].
  split; [exact Ih|]. split; [exact If|]. split; [exact Hk|]. split; [|split; [congruence|split; [exact Hd|exact Hm]]].
  rewrite Hall, on_events_app, untracked by (reflexivity || (apply gists_no_hello; rewrite N1; repeat constructor)). cbn [obind Detect.on_events].
  rewrite Hello. cbn [obind]. rewrite on_events_app, Ev1. cbn [obind]. rewrite Ev2. f_equal. f_equal. rewrite A4. unfold l1. rewrite <- !app_assoc. f_equal.
  rewrite A3. rewrite app_assoc. fold mh. f_equal.
  rewrite <- flat_map_app. transitivity (flat_map (forwarded (m_now mh)) (e2 ++ concat b2 ++ concat b3 ++ g0 ++ y3 :: g1)).
  { f_equal. unfold E. rewrite E3. repeat (rewrite <- app_assoc; cbn [app]). reflexivity. }
  rewrite Ec, Eb. cbn [app]. rewrite !flat_map_app. cbn [flat_map]. rewrite !flat_map_app, (forwarded_made _ _ _ Vb), (forwarded_made _ _ _ Vc).
  rewrite (forwarded_blocks _ _ _ Fb), (forwarded_blocks _ _ _ F2), (forwarded_blocks _ _ _ F3), (forwarded_blocks _ _ _ Fc), app_nil_r. cbn [app].
  unfold passed at 1. now rewrite <- !app_assoc.
Qed.

End Detected.
