(* ===== verification/WireSession.v ===== *)
(** * A Telex session from the wire to the relay

    The end-to-end theorem of [Covert] with the station's Bro in front of it: the client's
    tagged connection is given as TCP packets, and everything from the checksums and the
    reassembly on is the station's work. *)
From S2P Require Import Prelude Bytes CLib.
From S2P Require Import Felem FelemPow Prime168 Curve Fp Group PtPoint PtMul Ptwist PtwistThms.
From S2P Require Import Tag TelexSsl TelexUtil FlowBlock TelexTcp Detect Bronnect Station Handover LiveSsl Covert.
From S2P Require Import FlowBuffer FlowThms Reassem ReassemThms SslRecords SslThms BroTcp TcpThms TcpData Observe PolicyRun Wiretap.
From Stdlib Require Import String ZArith Zpow_facts Lia List Bool.
Import ListNotations.
Open Scope Z_scope.
Open Scope list_scope.

(** The three-way handshake as the policy sees it: nothing. *)
Section Connect.
Context (cmp ana : bool) (beyond : list Z) (opts : TcpOptions) (base : bool -> Z).

Lemma bro_connect junk partial g x1 x2 c :
  let k1 := fst x1 in let k2 := fst x2 in
  syn_packet opts base k1 false -> pk_is_orig k1 = true -> syn_packet opts base k2 true -> pk_is_orig k2 = false ->
  th_ack (pk_data k2) = wrap 32 (th_seq (pk_data k1) + 1) ->
  exists bss a, bro_events cmp ana beyond opts base [x1; x2] (EnableReassembly (new_TCP_Analyzer junk partial g)) c = Some (bss, a, c) /\
    flat_map gist_of (concat bss) = [] /\
    est (fun p => if p then th_seq (pk_data k1) else th_seq (pk_data k2)) (fun _ => new_Reassembler) a.
Proof.
  destruct x1 as [k1 m1], x2 as [k2 m2]. cbn [fst]. intros P1 O1 P2 O2 Ha. set (a0 := EnableReassembly _).
  assert (Sf : forall st_o st_r s1 s2 n a, stage st_o st_r s1 s2 n a -> stage st_o st_r s1 s2 n (forget_outs a)) by (intros; assumption).
  destruct (deliver_SYN opts base k1 (forget_outs a0) P1 O1 (Sf _ _ _ _ _ _ (stage_fresh junk partial g))) as (a1 & E1 & S1 & I1 & T1).
  destruct (header_typed _ (sp_bytes _ _ _ _ P1)) as (Hc & _).
  destruct (deliver_SYN_ACK opts base k2 (forget_outs a1) _ P2 O2 (Sf _ _ _ _ _ _ S1) I1 Hc Ha) as (a2 & E2 & S2 & T2).
  destruct (queue_spec cmp ana beyond m1 (pk_time k1) a1 (outs a1) c c I1) as (es1 & Q1 & G1 & _); [rewrite T1; constructor|rewrite T1; reflexivity|].
  destruct (queue_spec cmp ana beyond m2 (pk_time k2) a2 (outs a2) c c (es_partial _ _ _ S2)) as (es2 & Q2 & G2 & _);
    [rewrite T2; constructor|rewrite T2; reflexivity|].
  rewrite new_events_same in G1, G2. cbn [bro_events]. rewrite E1, Q1, E2, Q2. eexists _, a2. split; [reflexivity|]. split; [|exact S2].
  cbn [concat]. rewrite !flat_map_app, G1, G2. reflexivity.
Qed.
End Connect.

Lemma passed_forward since ks : existsb (fun x => match x with SkipConnection => true | _ => false end) (flat_map (passed since) ks) = false.
Proof.
  induction ks as [|[k m] ks IH]; [reflexivity|]. cbn [flat_map]. rewrite existsb_app, IH. unfold passed, final, forwarded. now destruct (_ <? _).
Qed.

Section Session.
Context {L : TlsLib} (SHA256 : list Z -> list Z) (HMAC : list Z -> list Z -> list Z).
Context (sha_len : forall m, List.length (SHA256 m) = 32%nat).
Context (hmac_bytes : forall k m, Forall is_byte (HMAC k m)) (hmac_len : forall k m, List.length (HMAC k m) = 32%nat).
Context (change_ok : forall w t, change_cipher_state w t <> None).

(** The client: its key comes from the station's key file, and its hello is [hello]; the
    connection is [cid]. *)
Context (e1 e2 ek1 ek2 : env) (j1 j2 : list Z) (st0 : tag_state) (random privkey pubkey : list Z) (st : tag_state)
        (now r1 : Z) (seckey : list Z) (hello : telex_hello) (cid : conn_id).
Context (len_j1 : List.length j1 = 128%nat) (len_j2 : List.length j2 = 128%nat).
Context (key_made : genkeys_main ptwist_pm ek1 ek2 random = Ret (privkey, pubkey)).
Context (key_loaded : tag_load_pubkey (Some pubkey) (tag_init st0) = Ret st).
Context (key_usable : ptwist_usable (gen_of st r1) seckey privkey).
Context (hello_made : ssl_new_telex ptwist_pm SHA256 HMAC true e1 e2 j1 st now (id_resp_h cid) r1 seckey = Ret (0, Some hello)).
Context (now_width : 0 <= now < 2 ^ 32).

(** The handshake that the client and a server with the private key [y] go through; how the
    server divides its flight among records; and what it leaves to the two sides. *)
Context (x : SslThms.Session) (groups : list (list (Z * list Z))).
Context (x_ok : session_ok x) (x_groups : concat groups = server_flight x).
Context (x_records : Forall (fun n => Forall record_ok (turn_records x groups n)) [0; 1; 2; 3]%nat).
Context (x_random : s_crandom x = telex_client_random hello).
Context (x_fits : (List.length (s_p x) <= 128)%nat /\ (List.length (s_pub x) <= 128)%nat /\
                  (16 <= List.length (s_cfinished x))%nat /\ (16 <= List.length (s_sfinished x))%nat).
Context (y : Z) (secret : list Z) (ciphers : Z -> Z) (c2s s2c : half).
Context (y_nonneg : 0 <= y) (p_large : 1 < be_value (s_p x)).
Context (server_pub : be_value (s_pub x) = be_value (s_g x) ^ y mod be_value (s_p x)).
Context (server_secret : DH_compute_key (be_value (s_p x)) y
                           (be_value (s_g x) ^ telex_dh_priv_key hello mod be_value (s_p x)) = Some secret).
Context (server_tls : after_handshake (ciphers 0x0039) secret (s_crandom x) (s_srandom x)
                        (get_iv_from_handshake (s_cfinished x)) (get_iv_from_handshake (s_sfinished x)) = Some (c2s, s2c)).

(** The packets: the two SYNs, then the four turns; Bro's options. *)
Context (cmp ana : bool) (beyond : list Z) (opts : TcpOptions) (base : bool -> Z) (junk : Z) (partial : bool) (gaps0 : GapStats).
Context (syn synack : Packet * Meets) (k1 k2 k3 k4 : list (Packet * Meets)).
Context (syn_ok : syn_packet opts base (fst syn) false) (syn_orig : pk_is_orig (fst syn) = true).
Context (synack_ok : syn_packet opts base (fst synack) true) (synack_resp : pk_is_orig (fst synack) = false).
Context (synack_acks : th_ack (pk_data (fst synack)) = wrap 32 (th_seq (pk_data (fst syn)) + 1)).
Context (not_skipping : Reassem.Skipping (base_env opts) = false) (x_limits : forall q, limits opts (session_stream x groups q)).
Context (x_arrives : turns_arrive opts base (fun p => if p then th_seq (pk_data (fst syn)) else th_seq (pk_data (fst synack)))
                       x groups (map fst k1) (map fst k2) (map fst k3) (map fst k4)).

(** The station: its keys, of which no earlier one takes the tag, its clock and its sockets
    when the hello is complete and when the server's finished message is. *)
Context (keys1 keys2 : list telex_priv_key) (port : Z) (tk : list Z).
Context (hello_met : forall k, In k k1 -> let m := snd k in
  Forall (fun key => forall tk, fst (check_tag ptwist_pm SHA256 (m_junk m) tk (pk_key key) (skipn 4 (telex_client_random hello))
                                      (tag_context (id_resp_h cid) now)) <> 0) keys1 /\
  Z.abs (now * 1000000 - m_now m) <= 60000000 /\ forallb (fun b => b) (m_tries m) = true /\ m_path_len m < 108 /\
  0 <= m_new_sock m /\ m_connect m = 0).
Context (finish_met : forall h k, In h k1 -> In k k4 ->
  m_now (snd h) < pk_time (fst k) /\ 0 <= m_sent (snd k) /\ Z.of_nat (List.length (m_raw (snd k))) < 65536).

(** OpenSSL and the calls of the relay. *)
Context (srv cli conn : Z) (SSL_new : Z -> option SSL) (bio1 bio2 static_ctx new_ctx : Z) (o : SSL).
Context (object_made : SSL_new (if static_ctx =? 0 then new_ctx else static_ctx) = Some o) (object_fresh : fresh_object o = true).
Context (n bro_conn t : Z) (s0 : bstats) (i1 i2 : io) (fd : Z) (fk : fake_io).
Context (port_ok : 0 < port < 65536) (fd_ok : 0 <= fd).
Context (listens : listen_fd fk <> -1) (binds : bind_ok fk = true) (fake_ok : 0 <= fake_fd fk).

Abbreviation keys := (keys1 ++ PrivKey privkey port :: keys2).
Abbreviation fresh_watch := {| w_tcp := EnableReassembly (new_TCP_Analyzer junk partial gaps0); w_tls := new_SslConn; w_policy := Det None tk [] |}.

(** The hello is detected whichever packet completes it. *)
Lemma hello_in_packets k : In k k1 -> let m := snd k in
  exists key, on_event ptwist_pm SHA256 keys cid
      (ClientHello (skipn 4 (s_crandom x)) (s_crandom x) (m_junk m) (m_now m) (m_tries m) (m_path_len m) (m_new_sock m) (m_connect m)) (Det None tk []) =
    Ret (Det (Some (new_te (key, port) (s_crandom x) (m_now m) (m_new_sock m))) key [Detect.Block; Detect.Connected (m_new_sock m)]) /\
    (List.length key = 16%nat /\ station_dh_key HMAC j2 key = Ret (telex_dh_priv_key hello)) /\ 0 <= m_new_sock m.
Proof using All.
  intros Hk m. destruct (hello_met k Hk) as (M1 & M2 & M3 & M4 & M5 & M6). fold m in M1, M2, M3, M4, M5, M6.
  destruct (hello_detected SHA256 HMAC e1 e2 ek1 ek2 j1 j2 st0 random privkey pubkey st now r1 seckey keys1 port keys2 cid (m_junk m)
              tk (m_now m) (m_tries m) (m_path_len m) (m_new_sock m) sha_len hmac_bytes hmac_len len_j1 len_j2 key_made key_loaded key_usable now_width
              M2 M3 M4 M5) as (h' & E & F).
  rewrite hello_made in E. injection E as <-. destruct (F M1) as (key & E1 & Lk & D). exists key. rewrite M6, x_random. auto.
Qed.

(** C3: A Telex session from the wire to the relay.  The station's Bro is given the packets of
    a tagged connection: within each turn of the TLS handshake they may be repeated,
    overlap and change order, and each stream starts at any sequence number.  From the
    packet that completes the client's hello on, the flow is blocked and each packet is
    passed on, until the one that completes the server's finished message; that one and
    the initial data go to the relay, and the server is reset.  The relay will unblock the
    flow that was blocked, is connected to the service of the key, has a socket to the
    client and has sent it the packet; and its TLS object holds the server's side of the
    client's connection. *)
Theorem session_observed : exists ka h kb f kc key d fl s w w0 w1 cst,
  k1 ++ k2 ++ k3 ++ k4 = ka ++ h :: kb ++ f :: kc /\ In h k1 /\ In f k4 /\
  watch cmp ana beyond opts base ptwist_pm SHA256 keys cid (syn :: synack :: k1 ++ k2 ++ k3 ++ k4) fresh_watch = Ret w /\
  w_policy w =
    Det None key ([Detect.Block; Detect.Connected (m_new_sock (snd h))] ++ flat_map (passed (m_now (snd h))) (h :: kb) ++
                  [ToRelay (MsgInit RECORD_TYPE_INIT sizeof_bro_init_data d); ToRelay (raw_message (m_raw (snd f))); Rst fl;
                   CloseSock (m_new_sock (snd h))]) /\
  handle_bro_connection n bro_conn t s0 = Ok tt w0 /\
  run_all [InTelex i1 (receive (MsgInit RECORD_TYPE_INIT sizeof_bro_init_data d) (InProgress fd) (Z.of_nat (List.length secret)) true fk);
           InTelex i2 (receive (raw_message (m_raw (snd f))) (InProgress fd) (Z.of_nat (List.length secret)) true fk)] w0 = w1 /\
  cell w1 = Some cst /\ unblock_args (flow_state cst) = mod_block_args cid /\ key_port cst = port /\
  service_conn cst = fd /\ client_conn cst = fake_fd fk /\ Bronnect.state cst = 2 /\
  In (RawToClient (m_raw (snd f))) (trace w1) /\
  leak_key srv cli conn ciphers HMAC j2 true SSL_new true true bio1 bio2 static_ctx new_ctx d = Ret (Z.of_nat (List.length secret), Some s) /\
  reads s = Some c2s /\ writes s = Some s2c.
Proof using All.
  destruct (bro_connect cmp ana beyond opts base junk partial gaps0 syn synack new_SslConn syn_ok syn_orig synack_ok synack_resp synack_acks)
    as (b0 & a0 & Ev0 & G0 & S0).
  destruct (session_queued cmp ana beyond opts base _ x groups k1 k2 k3 k4 a0 new_SslConn x_ok x_groups x_records not_skipping x_limits x_arrives S0
              new_SslConn_between eq_refl) as (b1 & b2 & b3 & b4 & a & c & Ev & F1 & F2 & F3 & F4 & G1 & G2 & G3 & G4).
  destruct x_fits as (H1 & H2 & H3 & H4). pose proof x_ok as (_ & [Lc _] & [Ls _] & _).
  destruct (queues_handled ptwist_pm SHA256 keys cid (s_crandom x) (s_srandom x) (s_p x) (s_g x) (s_pub x) (s_cfinished x) (s_sfinished x) port tk
              (fun key => List.length key = 16%nat /\ station_dh_key HMAC j2 key = Ret (telex_dh_priv_key hello)) k1 k2 k3 k4 b1 b2 b3 b4
              (concat (map enc_msg [m_client_hello x])) (concat (map enc_msg [(16, s_cke x)])) [1] [1]
              hello_in_packets) as (ka & h & kb & f & kc & key & te & m & fl & Ek & Ih & If & [Lk D] & Evp & Hk & Hd & Hm); try eassumption.
  { intros h k Ih Ik. destruct (finish_met h k Ih Ik) as (A & B & _). auto. }
  { repeat split; try assumption; now apply iv_length. }
  destruct (finish_met h f Ih If) as (_ & _ & Hraw).
  destruct (tls_continued srv cli conn ciphers HMAC j2 SSL_new bio1 bio2 static_ctx new_ctx o (m_mem (snd f)) (m_sent (snd f)) cid te m
              (s_p x) (s_g x) (s_pub x) (s_crandom x) (s_srandom x) _ _ (telex_dh_priv_key hello) y secret c2s s2c Hd ltac:(rewrite Hk; exact Lk) Lc Ls
              (iv_length _ H3) (iv_length _ H4) Hm ltac:(rewrite Hk; exact D) (station_key_nonneg HMAC j2 _ _ hmac_bytes hmac_len len_j2 D)
              y_nonneg p_large server_pub server_secret server_tls object_made object_fresh change_ok) as (d & s & -> & E3 & E4 & E5 & _).
  destruct (takes_over (m_mem (snd f)) (m_sent (snd f)) cid te _ (m_raw (snd f)) n bro_conn t s0 i1 i2 fd (Z.of_nat (List.length secret)) fk Hm)
    as (w0 & w1 & cst & A1 & A2 & A3 & A4 & A5 & A6 & A7 & _ & A9 & A10); try (rewrite Hk); try assumption; [lia|].
  rewrite Hk in A5. cbn [snd] in A5.
  exists ka, h, kb, f, kc, key, d, fl, s, {| w_tcp := a; w_tls := c; w_policy := Det None key ([Detect.Block; Detect.Connected (m_new_sock (snd h))] ++
    flat_map (passed (m_now (snd h))) (h :: kb) ++ [ToRelay (MsgInit RECORD_TYPE_INIT sizeof_bro_init_data d); ToRelay (raw_message (m_raw (snd f)));
    Rst fl; CloseSock (m_new_sock (snd h))]) |}, w0, w1, cst.
  split; [exact Ek|]. split; [exact Ih|]. split; [exact If|]. split; [|repeat (split; [reflexivity || assumption|]); assumption].
  change (syn :: synack :: k1 ++ k2 ++ k3 ++ k4) with ([syn; synack] ++ k1 ++ k2 ++ k3 ++ k4).
  apply (watch_factor cmp ana beyond opts base ptwist_pm SHA256 keys cid _ _ _ (b0 ++ b1 ++ b2 ++ b3 ++ b4)).
  - rewrite bro_events_app, Ev0, Ev. reflexivity.
  - rewrite concat_app, on_events_app, untracked; [exact Evp|reflexivity|]. apply gists_no_hello. rewrite G0. constructor.
  - unfold skips. cbn [acts]. rewrite !existsb_app, passed_forward. reflexivity.
Qed.

End Session.

(** *** The ordinary case: a packet for each turn *)

Lemma be4_value v : in_width 32 v -> be_value (be4 v) = v.
Proof.
  intros H. unfold in_width in H. unfold be4, be2. cbn [app]. rewrite !be_value_cons. cbn [List.length]. unfold be_value. cbn [rev le_value].
  change (256 ^ Z.of_nat 3) with 16777216. change (256 ^ Z.of_nat 2) with 65536. change (256 ^ Z.of_nat 1) with 256. change (256 ^ Z.of_nat 0) with 1. Z.div_mod_to_equations. lia.
Qed.

Lemma mk_packet_fields orig seq ack fl data :
  in_width 32 seq -> in_width 32 ack -> let k := mk_packet orig seq ack fl data in
  th_seq (pk_data k) = seq /\ th_ack (pk_data k) = ack /\ hdr_len k = 20 /\ payload k = data /\ flags_of k = mk_flags fl.
Proof.
  intros Hs Ha k. pose proof (be4_value seq Hs) as Es. pose proof (be4_value ack Ha) as Ea.
  split; [exact Es|]. split; [exact Ea|]. repeat split.
Qed.

Lemma be4_bytes v : Forall is_byte (be4 v).
Proof. unfold be4, be2. repeat constructor; apply Z.mod_pos_bound; lia. Qed.

Lemma mk_packet_data base orig seq ack data :
  in_width 32 seq -> in_width 32 ack -> Forall is_byte data -> Z.of_nat (List.length data) < 65536 ->
  data_packet usual_options base (mk_packet orig seq ack TH_ACK data).
Proof.
  intros Hs Ha Hd Hn. destruct (mk_packet_fields orig seq ack TH_ACK data Hs Ha) as (_ & _ & F3 & _ & F5). cbv zeta in *.
  assert (Ln : pk_len (mk_packet orig seq ack TH_ACK data) = 20 + Z.of_nat (List.length data)).
  { unfold mk_packet. cbn [pk_len]. rewrite !length_app. unfold be4, be2. cbn [List.length app]. lia. }
  split; rewrite ?F3, ?Ln; try (unfold sizeof_tcphdr; lia).
  - unfold mk_packet. cbn [pk_data]. rewrite !Forall_app. repeat split; try apply be4_bytes; try exact Hd; repeat constructor; try discriminate.
  - split; [|lia]. unfold mk_packet. cbn [pk_data]. rewrite !length_app. unfold be4, be2. cbn [List.length app]. lia.
  - unfold mk_packet in *. cbn [pk_caplen pk_len] in *. exact Ln.
  - rewrite F5. repeat split.
  - left. reflexivity.
Qed.

Section Ordinary.

Context (x : SslThms.Session) (groups : list (list (Z * list Z))) (base : bool -> Z).
Abbreviation T i := (turn_bytes x groups i).
Abbreviation len i := (Z.of_nat (List.length (turn_bytes x groups i))).
Hypothesis bytes_ok : forall i, (i < 4)%nat -> Forall is_byte (T i) /\ T i <> [] /\ len i < 2000.

(** The client's and the server's numbers start at 0. *)
Definition zero_start (p : bool) : Z := if p then 0 else 0.

Definition turn_packet (i : nat) : Packet :=
  match i with
  | 0 => mk_packet true 1 1 TH_ACK (T 0)
  | 1 => mk_packet false 1 (1 + len 0) TH_ACK (T 1)
  | 2 => mk_packet true (1 + len 0) (1 + len 1) TH_ACK (T 2)
  | _ => mk_packet false (1 + len 1) (1 + len 0 + len 2) TH_ACK (T 3)
  end%nat.

Lemma turn_packet_ops i q :
  (i < 4)%nat ->
  ops_of zero_start (turn_packet i) q =
  nth i (if q then [[Segment 1 (T 0)]; [Ack false (1 + len 0)]; [Segment (1 + len 0) (T 2)]; [Ack false (1 + len 0 + len 2)]]
         else [[Ack false 1]; [Segment 1 (T 1)]; [Ack false (1 + len 1)]; [Segment (1 + len 1) (T 3)]]) [].
Proof using bytes_ok.
  intros Hi. pose proof (bytes_ok 0 ltac:(lia)) as (_ & N0 & L0). pose proof (bytes_ok 1 ltac:(lia)) as (_ & N1 & L1).
  pose proof (bytes_ok 2 ltac:(lia)) as (_ & N2 & L2). pose proof (bytes_ok 3 ltac:(lia)) as (_ & N3 & L3).
  assert (Sw : forall v, 0 <= v < 2 ^ 31 -> swrap 32 (v - 0) = v) by (intros v Hv; rewrite Z.sub_0_r; apply swrap_small; lia).
  assert (M : forall o s a d q, 0 <= s < 2 ^ 31 -> 0 <= a < 2 ^ 31 -> d <> [] ->
    ops_of zero_start (mk_packet o s a TH_ACK d) q = if Bool.eqb q o then [Segment s d] else [Ack false a]).
  { intros o s a d q' Hs Ha Hd. destruct (mk_packet_fields o s a TH_ACK d) as (F1 & F2 & _ & F4 & F5); [unfold in_width; lia..|]. cbv zeta in *.
    unfold ops_of, rel_seq, rel_ack.
    replace (zero_start _) with 0 by (now destruct (pk_is_orig _)). replace (zero_start (negb _)) with 0 by (now destruct (pk_is_orig _)). rewrite F1, F2, F4, F5, !Sw by assumption. cbn [pk_is_orig mk_packet pk_report_due].
    destruct (Bool.eqb q' o); [now destruct d|reflexivity]. }
  destruct i as [|[|[|[|i]]]]; [..|lia]; cbn [turn_packet nth]; rewrite M by (assumption || lia); destruct q; reflexivity.
Qed.

Lemma copy_in e s d ops p : s <= p < s + Z.of_nat (List.length d) -> first_copy ((e, Segment s d) :: ops) p = nth_error d (Z.to_nat (p - s)).
Proof. intros H. cbn [first_copy]. now rewrite (proj2 (Z.leb_le _ _)), (proj2 (Z.ltb_lt _ _)) by lia. Qed.

Lemma copy_out e s d ops p : p < s \/ s + Z.of_nat (List.length d) <= p -> first_copy ((e, Segment s d) :: ops) p = first_copy ops p.
Proof.
  intros H. cbn [first_copy]. destruct H as [H|H]; [now rewrite (proj2 (Z.leb_gt s p)) by lia|]. now rewrite (proj2 (Z.ltb_ge p _)), andb_false_r by lia.
Qed.

Lemma nth_error_there (d : list Z) p : 0 <= p < Z.of_nat (List.length d) -> nth_error d (Z.to_nat p) <> None.
Proof. intros H. apply nth_error_Some. lia. Qed.

(** Two segments, one after the other, with acknowledgements. *)
Lemma two_copies e1 e2 a b ops :
  first_copy ops = first_copy [(e1, Segment 1 a); (e2, Segment (stream_end a) b)] ->
  (forall p, 1 <= p < stream_end (a ++ b) -> first_copy ops p <> None) /\ first_copy ops (stream_end (a ++ b)) = None /\ extends (a ++ b) ops.
Proof.
  intros E. assert (L : stream_end (a ++ b) = 1 + Z.of_nat (List.length a) + Z.of_nat (List.length b)) by (unfold stream_end; rewrite length_app; lia).
  assert (A : stream_end a = 1 + Z.of_nat (List.length a)) by reflexivity.
  assert (P : forall p, 1 <= p -> first_copy ops p = if p <? stream_end (a ++ b) then nth_error (a ++ b) (Z.to_nat (p - 1)) else None).
  { intros p Hp. rewrite E. destruct (Z_lt_dec p (stream_end a)).
    - rewrite copy_in by lia. rewrite (proj2 (Z.ltb_lt _ _)), nth_error_app1 by lia. reflexivity.
    - rewrite copy_out by lia. destruct (Z.ltb_spec p (stream_end (a ++ b))).
      + rewrite copy_in by lia. rewrite nth_error_app2 by lia. f_equal. lia.
      + rewrite copy_out by lia. reflexivity. }
  split; [|split].
  - intros p Hp. rewrite P, (proj2 (Z.ltb_lt _ _)) by lia. apply nth_error_there. rewrite length_app. lia.
  - rewrite P, Z.ltb_irrefl by lia. reflexivity.
  - intros p v Hp. rewrite P by assumption. destruct (_ <? _); [auto|discriminate].
Qed.

Lemma one_copy e a : (forall p, 1 <= p < stream_end a -> first_copy [(e, Segment 1 a)] p <> None) /\ first_copy [(e, Segment 1 a)] (stream_end a) = None.
Proof.
  split; [|apply copy_out; unfold stream_end; lia]. intros p Hp. unfold stream_end in Hp. rewrite copy_in by lia. apply nth_error_there. lia.
Qed.

Lemma ordinary_arrives :
  turns_arrive usual_options base zero_start x groups [turn_packet 0] [turn_packet 1] [turn_packet 2] [turn_packet 3].
Proof using bytes_ok.
  pose proof (bytes_ok 0 ltac:(lia)) as (B0 & N0 & L0). pose proof (bytes_ok 1 ltac:(lia)) as (B1 & N1 & L1).
  pose proof (bytes_ok 2 ltac:(lia)) as (B2 & N2 & L2). pose proof (bytes_ok 3 ltac:(lia)) as (B3 & N3 & L3).
  assert (O : forall ks q, all_ops zero_start (map turn_packet ks) q = flat_map (fun i => ops_of zero_start (turn_packet i) q) ks).
  { intros ks q. unfold all_ops. induction ks as [|i ks IH]; [reflexivity|]. cbn [map flat_map]. now rewrite IH. }
  pose proof (turn_packet_ops 0) as P0. pose proof (turn_packet_ops 1) as P1. pose proof (turn_packet_ops 2) as P2. pose proof (turn_packet_ops 3) as P3.
  assert (O4 : forall q, all_ops zero_start [turn_packet 0; turn_packet 1; turn_packet 2; turn_packet 3] q =
    if q then [Segment 1 (T 0); Ack false (1 + len 0); Segment (1 + len 0) (T 2); Ack false (1 + len 0 + len 2)]
    else [Ack false 1; Segment 1 (T 1); Ack false (1 + len 1); Segment (1 + len 1) (T 3)]).
  { intros q. rewrite (O [0; 1; 2; 3]%nat). cbn [flat_map]. rewrite P0, P1, P2, P3 by lia. destruct q; reflexivity. }
  assert (C : forall q, first_copy (tag usual_options (all_ops zero_start [turn_packet 0; turn_packet 1; turn_packet 2; turn_packet 3] q)) =
    first_copy [(base_env usual_options, Segment 1 (T (if q then 0 else 1)%nat)); (base_env usual_options, Segment (stream_end (T (if q then 0 else 1)%nat)) (T (if q then 2 else 3)%nat))]).
  { intros q. rewrite O4. destruct q; reflexivity. }
  pose proof (fun q => two_copies _ _ _ _ _ (C q)) as W.
  pose proof (one_copy (base_env usual_options) (T 0)) as W0. pose proof (one_copy (base_env usual_options) (T 1)) as W1.
  split; cbn [app].
  - repeat apply Forall_cons; try apply Forall_nil; apply mk_packet_data; try assumption; unfold in_width; try lia.
  - intros q. rewrite O4. destruct q; cbn [orderly app]; repeat split; try lia; intros p Hp.
    + apply (proj1 W0). unfold stream_end. lia.
    + specialize (W true). rewrite O4 in W. apply (proj1 W). unfold stream_end. rewrite length_app. lia.
    + apply (proj1 W1). unfold stream_end. lia.
  - intros q. specialize (W q) as (_ & _ & W). destruct q; exact W.
  - intros k [<-|[<-|[]]] _; reflexivity.
  - intros k [<-|[<-|[]]] _; reflexivity.
  - unfold arrived. rewrite (O [0]%nat). cbn [flat_map]. rewrite P0 by lia. exact W0.
  - unfold arrived. rewrite (O [0; 1]%nat). cbn [flat_map]. rewrite P0, P1 by lia. exact W1.
  - unfold arrived. rewrite (O [0; 1; 2]%nat). cbn [flat_map]. rewrite P0, P1, P2 by lia. cbn [nth app]. specialize (W true) as (V1 & V2 & _).
    rewrite C in V1, V2. split; [exact V1|exact V2].
  - specialize (W false) as (V1 & V2 & _). split; [exact V1|exact V2].
Qed.

End Ordinary.

(** *** An instance *)

Lemma overwrite_bytes off bs mem : Forall is_byte bs -> Forall is_byte mem -> Forall is_byte (overwrite off bs mem).
Proof. intros H1 H2. unfold overwrite. rewrite !Forall_app. repeat split; try assumption; [now apply Forall_firstn|now apply Forall_skipn]. Qed.

Lemma ptwist_bytes e x s : Forall is_byte (ptwist_pm e x s).
Proof.
  unfold ptwist_pm, ptwist_pointmul. destruct (pointmul_start _ _) as [b P]. cbv zeta. set (Q := if b then _ else _). clearbody Q.
  unfold felem_to_bin21. rewrite !limb_bytes_le, !Forall_app. repeat split; apply le_bytes_bytes.
Qed.

Lemma gen_tag_bytes pm SHA256 e1 e2 st r1 seckey ctx :
  (forall m, Forall is_byte (SHA256 m)) -> (forall e x s, Forall is_byte (pm e x s)) ->
  Forall is_byte (fst (gen_tag pm SHA256 e1 e2 st r1 seckey ctx)).
Proof.
  intros HS HP. unfold gen_tag. cbv zeta. cbn [fst].
  apply overwrite_bytes; [apply Forall_firstn, HS|]. apply overwrite_bytes; [apply HP|apply bytes_repeat; lia].
Qed.

Lemma same_hello (r r' : Z) (h h' : telex_hello) : Ret (r, Some h) = Ret (r', Some h') -> h = h'.
Proof. congruence. Qed.

(** The client's hello is made of bytes. *)
Lemma hello_bytes SHA256 HMAC e1 e2 j st now ip r1 seckey h :
  (forall m, Forall is_byte (SHA256 m)) -> ssl_new_telex ptwist_pm SHA256 HMAC true e1 e2 j st now ip r1 seckey = Ret (0, Some h) ->
  Forall is_byte (telex_client_random h).
Proof.
  intros HS. pose proof (gen_tag_bytes ptwist_pm SHA256 e1 e2 st r1 seckey (tag_context ip now) HS ptwist_bytes) as B.
  unfold ssl_new_telex. cbn [negb]. cbv zeta. destruct (gen_tag ptwist_pm SHA256 e1 e2 st r1 seckey (tag_context ip now)) as [tag secret].
  destruct (client_dh_key HMAC j secret) as [key| |]; cbn [obind]; try discriminate. intros E. apply same_hello in E. rewrite <- E. cbn [telex_client_random].
  apply Forall_app. split; [apply Forall_rev, le_bytes_bytes|exact B].
Qed.

Definition demo_session (crandom : list Z) : SslThms.Session :=
  {| sv := TLSv10; s_crandom := crandom; s_csid := []; s_suits := [57; 53]; s_meths := [0]; s_cext := []; s_srandom := repeat 2 32; s_ssid := [4];
     s_suite := 57; s_meth := 0; s_sext := []; s_certificate := [0; 0; 4; 0; 0; 1; 99]; s_certs := [[99]]; s_p := [23]; s_g := [5]; s_pub := [8];
     s_signature := [1; 2]; s_cke := [0; 1; 3]; s_cfinished := repeat 3 40; s_sfinished := repeat 4 40 |}.
Definition demo_groups (crandom : list Z) : list (list (Z * list Z)) := [server_flight (demo_session crandom)].

Lemma demo_session_ok crandom : random_ok crandom -> session_ok (demo_session crandom).
Proof.
  intros R. split; [now right; left|]. split; [exact R|]. split; [split; [reflexivity|apply bytes_repeat; lia]|]. split; [cbn; lia|].
  split; [repeat constructor; lia|]. split; [now left|]. split; [reflexivity|]. repeat split; try (cbn; lia); discriminate.
Qed.

Lemma demo_records crandom : List.length crandom = 32%nat ->
  Forall (fun n => Forall record_ok (turn_records (demo_session crandom) (demo_groups crandom) n)) [0; 1; 2; 3]%nat.
Proof.
  intros L. assert (K : forall type fragment, 20 <= type <= 23 -> Z.of_nat (List.length fragment) < 65536 -> record_ok (type, TLSv10, fragment))
    by (intros; split; [assumption|]; split; [now right; left|assumption]).
  do 32 (destruct crandom as [|? crandom]; [discriminate|]). destruct crandom; [|discriminate].
  repeat match goal with
  | |- Forall _ [] => constructor
  | |- Forall _ (_ :: _) => apply Forall_cons
  | |- Forall _ (turn_records _ _ _) => unfold turn_records; cbn [handshake_turns map sends nth demo_groups]
  | |- record_ok _ => apply K; [split; vm_compute; congruence|vm_compute; reflexivity]
  end.
Qed.

Lemma demo_bytes crandom i : random_ok crandom -> (i < 4)%nat ->
  let b := turn_bytes (demo_session crandom) (demo_groups crandom) i in Forall is_byte b /\ b <> [] /\ Z.of_nat (List.length b) < 2000.
Proof.
  intros [L B] Hi b. do 32 (destruct crandom as [|? crandom]; [discriminate|]). destruct crandom; [|discriminate].
  repeat (apply Forall_cons_iff in B as [? B]).
  destruct i as [|[|[|[|i]]]]; [..|lia]; vm_compute in b; subst b; (split; [repeat (apply Forall_cons; [assumption || (unfold is_byte; lia)|]); apply Forall_nil|]);
    (split; [discriminate|vm_compute; reflexivity]).
Qed.

Definition demo_meets : Meets :=
  {| m_raw := [22; 3; 1]; m_junk := coord0; m_now := 5; m_tries := []; m_path_len := 20; m_new_sock := 9; m_connect := 0; m_mem := demo_mem;
     m_sent := 591; m_stack := flow_zero |}.

Lemma session_observed_witness :
  let e := Env 0 coord0 in let met := fun k => [(k, demo_meets)] in
  exists st hello kb w key d fl,
    ssl_new_telex ptwist_pm toy_hash toy_hmac true e e (repeat 0 128) st 0 (id_resp_h demo_cid) 0 (bin21 2) = Ret (0, Some hello) /\
    let turn := turn_packet (demo_session (telex_client_random hello)) (demo_groups (telex_client_random hello)) in
    watch false true [] usual_options (fun _ => 0) ptwist_pm toy_hash ([] ++ PrivKey (bin21 3) 8888 :: []) demo_cid
      ((mk_packet true 0 0 TH_SYN [], demo_meets) :: (mk_packet false 0 1 (TH_SYN + TH_ACK) [], demo_meets) ::
       met (turn 0%nat) ++ met (turn 1%nat) ++ met (turn 2%nat) ++ met (turn 3%nat))
      {| w_tcp := EnableReassembly (new_TCP_Analyzer 0 false no_gaps); w_tls := new_SslConn; w_policy := Det None [] [] |} = Ret w /\
    w_policy w = Det None key ([Detect.Block; Detect.Connected 9] ++ flat_map (passed 5) ((turn 0%nat, demo_meets) :: kb) ++
      [ToRelay (MsgInit RECORD_TYPE_INIT sizeof_bro_init_data d); ToRelay (raw_message [22; 3; 1]); Rst fl; CloseSock 9]).
Proof.
  intros e met. destruct (load_generated (KA := ptwist_agreement) e e (bin21 3) (bin21 3)
    (ptwist_pm e (bin21 2) (bin21 3) ++ ptwist_pm e (repeat 0 21) (bin21 3))
    (tag_init (TagState [] [] [] [])) eq_refl) as (_ & E & _).
  destruct (hello_recovered toy_hash toy_hmac e e e e (repeat 0 128) (repeat 0 128) (TagState [] [] [] []) (bin21 3) (bin21 3)
    (ptwist_pm e (bin21 2) (bin21 3) ++ ptwist_pm e (repeat 0 21) (bin21 3)) _ 0 (id_resp_h demo_cid) 0 (bin21 2)
    toy_hash_len toy_hmac_bytes toy_hmac_len (repeat_length _ _) (repeat_length _ _) eq_refl E usable_2_3)
    as (hello & tag & _ & Hh & W & Lt & _).
  assert (R : random_ok (telex_client_random hello)).
  { split; [rewrite W, length_app, length_rev, le_bytes_length, Lt; reflexivity|].
    exact (hello_bytes _ _ _ _ _ _ _ _ _ _ hello (fun m => le_bytes_bytes 32 _) Hh). }
  set (cr := telex_client_random hello) in *.
  set (secret := le_bytes 2 (Zpow_mod (be_value [5] ^ telex_dh_priv_key hello mod be_value [23]) 6 (be_value [23]))).
  assert (exists c2s s2c, after_handshake (L := toy_tls) 0x0039 secret cr (repeat 2 32)
            (get_iv_from_handshake (repeat 3 40)) (get_iv_from_handshake (repeat 4 40)) = Some (c2s, s2c))
    as (c2s & s2c & HA) by (do 2 eexists; reflexivity).
  assert (Ba : forall i, (i < 4)%nat -> Forall is_byte (turn_bytes (demo_session cr) (demo_groups cr) i) /\
                         turn_bytes (demo_session cr) (demo_groups cr) i <> [] /\ Z.of_nat (List.length (turn_bytes (demo_session cr) (demo_groups cr) i)) < 2000)
    by (intros i Hi; exact (demo_bytes cr i R Hi)).
  assert (Lim : forall q, limits usual_options (session_stream (demo_session cr) (demo_groups cr) q)).
  { pose proof (Ba 0%nat ltac:(lia)) as (_ & _ & L0). pose proof (Ba 1%nat ltac:(lia)) as (_ & _ & L1). pose proof (Ba 2%nat ltac:(lia)) as (_ & _ & L2).
    pose proof (Ba 3%nat ltac:(lia)) as (_ & _ & L3). assert (S : forall q, stream_end (session_stream (demo_session cr) (demo_groups cr) q) <= 4001)
      by (intros [|]; unfold stream_end, session_stream; rewrite length_app; lia).
    intros q. specialize (S q). split; [lia|]. split; [reflexivity|]. split; right; cbn; lia. }
  destruct (session_observed (L := toy_tls) toy_hash toy_hmac toy_hash_len toy_hmac_bytes toy_hmac_len ltac:(discriminate)
    e e e e (repeat 0 128) (repeat 0 128) (TagState [] [] [] []) (bin21 3) (bin21 3)
    (ptwist_pm e (bin21 2) (bin21 3) ++ ptwist_pm e (repeat 0 21) (bin21 3)) _ 0 0 (bin21 2) hello demo_cid
    (repeat_length _ _) (repeat_length _ _) eq_refl E usable_2_3 Hh ltac:(lia)
    (demo_session cr) (demo_groups cr) (demo_session_ok cr R) (app_nil_r _) (demo_records cr (proj1 R)) eq_refl ltac:(cbn; lia)
    6 secret (fun c => c) c2s s2c ltac:(lia) ltac:(reflexivity) ltac:(reflexivity) eq_refl HA
    false true [] usual_options (fun _ => 0) 0 false no_gaps
    (mk_packet true 0 0 TH_SYN [], demo_meets) (mk_packet false 0 1 (TH_SYN + TH_ACK) [], demo_meets)
    (met (turn_packet (demo_session cr) (demo_groups cr) 0)) (met (turn_packet (demo_session cr) (demo_groups cr) 1))
    (met (turn_packet (demo_session cr) (demo_groups cr) 2)) (met (turn_packet (demo_session cr) (demo_groups cr) 3))
    ltac:(closed_packet) eq_refl ltac:(closed_packet) eq_refl eq_refl eq_refl Lim (ordinary_arrives (demo_session cr) (demo_groups cr) (fun _ => 0) Ba)
    [] [] 8888 [] ltac:(intros k [<-|[]]; repeat split; try reflexivity; try (cbn; lia); constructor)
    ltac:(intros h k [<-|[]] [<-|[]]; repeat split; cbn; lia)
    11 12 13 (fun _ => Some toy_ssl) 5 6 0 1 toy_ssl eq_refl eq_refl 0 5 9 (Stats 0 0 0 0)
    (IO 10 [] ERROR_WANT_READ true (-1) [] true ERROR_NONE 1 1 ERROR_NONE)
    (IO 11 [] ERROR_WANT_READ true (-1) [] true ERROR_NONE 1 1 ERROR_NONE) 7 (FakeIO 8 true 9)
    ltac:(lia) ltac:(lia) ltac:(discriminate) eq_refl ltac:(discriminate))
    as (ka & h & kb & f & kc & key & d & fl & _ & w & _ & _ & _ & _ & Ih & If & Ew & Ep & _).
  destruct Ih as [<-|[]]. destruct If as [<-|[]].
  eexists _, hello, kb, w, key, d, fl. split; [exact Hh|]. split; [exact Ew|exact Ep].
Defined.
