(* ===== verification/PrioQueue.v ===== *)
(** * Bro's priority queue ([src/PriorityQueue.cc], [src/PriorityQueue.h])

    The heap of timers.  Elements are objects that know their place in the array, so that
    they can be removed from the middle.  The root is bin 0 and the children of bin [b] are
    [2 b] and [2 b + 1]: bin 0 is its own left child and has bin 1 as its only other child.

    A [double] is an integer multiple of [2^-1074] below [2^1024] in size, so times are
    integers and [HUGE_VAL] is the first one beyond. *)
From stdpp Require Import gmap list.
From Stdlib Require Import ZArith Lia List Bool.

Open Scope Z_scope.

Definition HUGE_VAL : Z := 2 ^ 2098.

Module PQ.

Record PQ_Element := { time : Z; offset : Z }.

(** An element starts outside of any heap. *)
Definition new_PQ_Element (t : Z) : PQ_Element := {| time := t; offset := -1 |}.
Definition SetOffset (off : Z) (x : PQ_Element) : PQ_Element := {| time := time x; offset := off |}.
Definition MinimizeTime (x : PQ_Element) : PQ_Element := {| time := - HUGE_VAL; offset := offset x |}.

(** The array, of [max_heap_size] cells that may be uninitialised, and the memory of the
    elements; an element is named by its address.  The sizes are natural numbers: memory
    ends before an [int] does. *)
Record PriorityQueue := {
  heap : list (option nat); heap_size : nat; peak_heap_size : nat; max_heap_size : nat;
  elts : gmap nat PQ_Element }.

Definition set_heap (h : list (option nat)) (q : PriorityQueue) : PriorityQueue :=
  {| heap := h; heap_size := heap_size q; peak_heap_size := peak_heap_size q; max_heap_size := max_heap_size q; elts := elts q |}.
Definition set_size (n : nat) (q : PriorityQueue) : PriorityQueue :=
  {| heap := heap q; heap_size := n; peak_heap_size := peak_heap_size q; max_heap_size := max_heap_size q; elts := elts q |}.
Definition set_elts (m : gmap nat PQ_Element) (q : PriorityQueue) : PriorityQueue :=
  {| heap := heap q; heap_size := heap_size q; peak_heap_size := peak_heap_size q; max_heap_size := max_heap_size q; elts := m |}.

Definition new_PriorityQueue (initial_size : nat) (m : gmap nat PQ_Element) : PriorityQueue :=
  {| heap := repeat None initial_size; heap_size := 0; peak_heap_size := 0; max_heap_size := initial_size; elts := m |}.

(** [heap[bin]], with the object behind it; [None] is an access outside of the array, of an
    uninitialised cell or of an object that was deleted. *)
Definition At (bin : nat) (q : PriorityQueue) : option nat := mjoin (heap q !! bin).
Definition TimeAt (bin : nat) (q : PriorityQueue) : option Z := e ← At bin q; time <$> elts q !! e.

Definition Parent (bin : nat) : nat := Nat.shiftr bin 1.
Definition LeftChild (bin : nat) : nat := Nat.shiftl bin 1.
Definition RightChild (bin : nat) : nat := LeftChild bin + 1.

Definition SetElement (bin e : nat) (q : PriorityQueue) : option PriorityQueue :=
  if decide (bin < length (heap q))%nat
  then x ← elts q !! e; Some (set_elts (<[e := SetOffset (Z.of_nat bin) x]> (elts q)) (set_heap (<[bin := Some e]> (heap q)) q))
  else None.

Definition Swap (bin1 bin2 : nat) (q : PriorityQueue) : option PriorityQueue :=
  t ← At bin1 q; e2 ← At bin2 q; q ← SetElement bin1 e2 q; SetElement bin2 t q.

Fixpoint BubbleUp (fuel bin : nat) (q : PriorityQueue) : option PriorityQueue :=
  if decide (bin = 0%nat) then Some q
  else match fuel with
       | O => None
       | S fuel =>
           let p := Parent bin in
           tp ← TimeAt p q; tb ← TimeAt bin q;
           if tb <? tp then q ← Swap p bin q; BubbleUp fuel p q else Some q
       end.

Fixpoint BubbleDown (fuel bin : nat) (q : PriorityQueue) : option PriorityQueue :=
  match fuel with
  | O => None
  | S fuel =>
      v ← TimeAt bin q;
      let l := LeftChild bin in let r := RightChild bin in
      if decide (heap_size q <= l)%nat then Some q
      else if decide (heap_size q <= r)%nat then tl ← TimeAt l q; if tl <? v then Swap l bin q else Some q
      else
        lv ← TimeAt l q; rv ← TimeAt r q;
        if lv <? rv then if lv <? v then q ← Swap l bin q; BubbleDown fuel l q else Some q
        else if rv <? v then q ← Swap r bin q; BubbleDown fuel r q else Some q
  end.

Definition Top (q : PriorityQueue) : option (option nat) :=
  if decide (heap_size q = 0%nat) then Some None else e ← At 0 q; Some (Some e).

(** [Remove()]: the element, or null. *)
Definition Remove (q : PriorityQueue) : option (PriorityQueue * option nat) :=
  if decide (heap_size q = 0%nat) then Some (q, None)
  else
    top ← At 0 q;
    let q := set_size (heap_size q - 1) q in
    last ← At (heap_size q) q;
    q ← SetElement 0 last q;
    q ← BubbleDown (S (heap_size q)) 0 q;
    x ← elts q !! top;
    Some (set_elts (<[top := SetOffset (-1) x]> (elts q)) q, Some top).

(** What [Remove(e)] can end in: the element or null, or [internal_error]. *)
Inductive Removed := Gone (q : PriorityQueue) | NotInHeap | Inconsistent.

Definition RemoveElement (e : nat) (q : PriorityQueue) : option Removed :=
  x ← elts q !! e;
  if decide (offset x < 0 \/ Z.of_nat (heap_size q) <= offset x) then Some NotInHeap
  else
    at_ ← heap q !! Z.to_nat (offset x);
    if decide (at_ = Some e) then
      let q := set_elts (<[e := MinimizeTime x]> (elts q)) q in
      q ← BubbleUp (Z.to_nat (offset x)) (Z.to_nat (offset x)) q;
      '(q, e2) ← Remove q;
      Some (if decide (e2 = Some e) then Gone q else Inconsistent)
    else Some NotInHeap.

Definition Resize (new_size : nat) (q : PriorityQueue) : PriorityQueue :=
  {| heap := firstn new_size (firstn (max_heap_size q) (heap q) ++ repeat None (new_size - max_heap_size q));
     heap_size := heap_size q; peak_heap_size := peak_heap_size q; max_heap_size := new_size; elts := elts q |}.

Definition Add (e : nat) (q : PriorityQueue) : option PriorityQueue :=
  q ← SetElement (heap_size q) e q;
  q ← BubbleUp (heap_size q) (heap_size q) q;
  let n := S (heap_size q) in
  let q := {| heap := heap q; heap_size := n; peak_heap_size := Nat.max (peak_heap_size q) n;
              max_heap_size := max_heap_size q; elts := elts q |} in
  Some (if decide (max_heap_size q <= n)%nat then Resize (max_heap_size q * 2) q else q).

(** ** What the queue holds *)

(** Each cell in use has an object, which knows its bin. *)
Record laid_out (n : nat) (q : PriorityQueue) : Prop := {
  lo_cells : length (heap q) = max_heap_size q;
  lo_room : (n <= max_heap_size q)%nat;
  lo_at : forall i, (i < n)%nat -> exists e x, heap q !! i = Some (Some e) /\ elts q !! e = Some x /\ offset x = Z.of_nat i }.

Definition holds (n : nat) (q : PriorityQueue) (e : nat) (t : Z) : Prop :=
  exists i x, (i < n)%nat /\ heap q !! i = Some (Some e) /\ elts q !! e = Some x /\ time x = t.

Definition key (q : PriorityQueue) (i : nat) : Z := default 0 (TimeAt i q).

Definition ordered (n : nat) (q : PriorityQueue) : Prop :=
  forall i, (0 < i < n)%nat -> key q (i / 2) <= key q i.

(** Order with bin [k] too small for its place, and too large. *)
Definition rising (n k : nat) (q : PriorityQueue) : Prop :=
  (forall i, (0 < i < n)%nat -> i <> k -> key q (i / 2) <= key q i) /\
  (forall i, (0 < i < n)%nat -> (i / 2 = k)%nat -> (0 < k)%nat -> key q (k / 2) <= key q i).
Definition sinking (n k : nat) (q : PriorityQueue) : Prop :=
  (forall i, (0 < i < n)%nat -> (i / 2)%nat <> k -> key q (i / 2) <= key q i) /\
  (forall i, (0 < i < n)%nat -> (i / 2 = k)%nat -> (0 < k)%nat -> key q (k / 2) <= key q i).

Record ok (q : PriorityQueue) : Prop := {
  ok_laid : laid_out (heap_size q) q;
  ok_free : (heap_size q < max_heap_size q)%nat;
  ok_order : ordered (heap_size q) q }.

(** ** Moving elements *)

Lemma Parent_half b : Parent b = (b / 2)%nat.
Proof. unfold Parent. now rewrite Nat.shiftr_div_pow2. Qed.
Lemma LeftChild_twice b : LeftChild b = (2 * b)%nat.
Proof. unfold LeftChild. rewrite Nat.shiftl_mul_pow2. change (2 ^ 1)%nat with 2%nat. lia. Qed.
Lemma half_cases i k : (i / 2 = k)%nat -> (i = 2 * k \/ i = 2 * k + 1)%nat.
Proof. intros <-. pose proof (Nat.div_mod_eq i 2). pose proof (Nat.mod_upper_bound i 2). lia. Qed.
Lemma half_left k : (2 * k / 2 = k)%nat.
Proof. rewrite Nat.mul_comm. now apply Nat.div_mul. Qed.
Lemma half_right k : ((2 * k + 1) / 2 = k)%nat.
Proof. symmetry. apply Nat.div_unique with 1%nat; lia. Qed.
Lemma half_lt i : (0 < i)%nat -> (i / 2 < i)%nat.
Proof. intros H. apply Nat.div_lt; lia. Qed.

(** The same elements with the same times, in other bins. *)
Record moved (n : nat) (q q' : PriorityQueue) : Prop := {
  mv_size : heap_size q' = heap_size q;
  mv_peak : peak_heap_size q' = peak_heap_size q;
  mv_max : max_heap_size q' = max_heap_size q;
  mv_above : forall i, (n <= i)%nat -> heap q' !! i = heap q !! i;
  mv_holds : forall e t, holds n q' e t <-> holds n q e t;
  mv_others : forall e, (forall t, ~ holds n q e t) -> elts q' !! e = elts q !! e }.

Lemma moved_refl n q : moved n q q.
Proof. now split. Qed.

Lemma moved_trans n q q' q'' : moved n q q' -> moved n q' q'' -> moved n q q''.
Proof.
  intros [A1 A2 A3 A4 A5 A6] [B1 B2 B3 B4 B5 B6]. split; try congruence.
  - intros i Hi. rewrite B4, A4; auto.
  - intros e t. now rewrite B5, A5.
  - intros e H. rewrite B6, A6; auto. intros t. rewrite A5. auto.
Qed.

Lemma laid_inj n q i j e : laid_out n q -> (i < n)%nat -> (j < n)%nat ->
  heap q !! i = Some (Some e) -> heap q !! j = Some (Some e) -> i = j.
Proof.
  intros L Hi Hj Ei Ej. destruct (lo_at _ _ L i Hi) as (a & x & A & X & O). destruct (lo_at _ _ L j Hj) as (b & y & B & Y & P).
  rewrite A in Ei. injection Ei as ->. rewrite B in Ej. injection Ej as ->. rewrite X in Y. injection Y as ->. lia.
Qed.

Lemma key_at q i e x : heap q !! i = Some (Some e) -> elts q !! e = Some x -> TimeAt i q = Some (time x) /\ key q i = time x.
Proof. intros H X. assert (E : TimeAt i q = Some (time x)) by (unfold TimeAt, At; rewrite H; cbn; now rewrite X). split; [exact E|]. unfold key. now rewrite E. Qed.

Lemma laid_TimeAt n q i : laid_out n q -> (i < n)%nat -> TimeAt i q = Some (key q i).
Proof. intros L Hi. destruct (lo_at _ _ L i Hi) as (e & x & H & X & _). destruct (key_at q i e x H X) as [-> ->]. reflexivity. Qed.

Lemma SetElement_eq bin e x q :
  (bin < length (heap q))%nat -> elts q !! e = Some x ->
  SetElement bin e q = Some (set_elts (<[e := SetOffset (Z.of_nat bin) x]> (elts q)) (set_heap (<[bin := Some e]> (heap q)) q)).
Proof. intros H X. unfold SetElement. rewrite decide_True by exact H. now rewrite X. Qed.

(** Exchanging the contents of two bins. *)
Definition transpose (i j k : nat) : nat := if decide (k = i) then j else if decide (k = j) then i else k.

Lemma Swap_spec n i j q :
  laid_out n q -> (i < n)%nat -> (j < n)%nat ->
  exists q', Swap i j q = Some q' /\ laid_out n q' /\ moved n q q' /\ forall k, (k < n)%nat -> key q' k = key q (transpose i j k).
Proof.
  intros L Hi Hj. destruct (lo_at _ _ L i Hi) as (a & xa & Ha & Xa & Oa). destruct (lo_at _ _ L j Hj) as (b & xb & Hb & Xb & Ob).
  pose proof (lo_cells _ _ L) as Lc. pose proof (lo_room _ _ L) as Lr.
  set (q' := set_elts (<[a := SetOffset (Z.of_nat j) xa]> (<[b := SetOffset (Z.of_nat i) xb]> (elts q)))
               (set_heap (<[j := Some a]> (<[i := Some b]> (heap q))) q)).
  assert (E : exists x, Swap i j q = Some (set_elts (<[a := SetOffset (Z.of_nat j) x]> (<[b := SetOffset (Z.of_nat i) xb]> (elts q)))
               (set_heap (<[j := Some a]> (<[i := Some b]> (heap q))) q)) /\ time x = time xa).
  { unfold Swap, At. rewrite Ha, Hb. cbn [mjoin option_join mbind option_bind].
    rewrite (SetElement_eq i b xb) by (assumption || lia). cbn [mbind option_bind].
    destruct (decide (a = b)) as [->|N].
    - exists (SetOffset (Z.of_nat i) xb). split; [|cbn; congruence].
      rewrite (SetElement_eq j b (SetOffset (Z.of_nat i) xb)); [reflexivity|cbn; rewrite length_insert; lia|apply lookup_insert_eq].
    - exists xa. split; [|reflexivity].
      rewrite (SetElement_eq j a xa); [reflexivity|cbn; rewrite length_insert; lia|]. cbn. now rewrite lookup_insert_ne. }
  destruct E as (x & E & Tx). clear q'. eexists. split; [exact E|]. clear E. set (q' := set_elts _ _).
  assert (H1 : forall k, (k < n)%nat -> exists e y y', heap q !! transpose i j k = Some (Some e) /\ elts q !! e = Some y /\
                heap q' !! k = Some (Some e) /\ elts q' !! e = Some y' /\ time y' = time y /\ offset y' = Z.of_nat k).
  { intros k Hk. unfold transpose. cbn [q' heap elts set_elts set_heap]. destruct (decide (k = j)) as [->|Nj].
    - exists a, xa, (SetOffset (Z.of_nat j) x). rewrite list_lookup_insert_eq by (rewrite length_insert; lia). rewrite lookup_insert_eq.
      repeat split; auto. destruct (decide (j = i)) as [->|]; congruence.
    - rewrite list_lookup_insert_ne by auto. destruct (decide (k = i)) as [->|Ni].
      + exists b, xb, (SetOffset (Z.of_nat i) xb). rewrite list_lookup_insert_eq by lia.
        rewrite lookup_insert_ne by (intros ->; apply Nj; eapply laid_inj; eauto). rewrite lookup_insert_eq. repeat split; auto.
      + rewrite list_lookup_insert_ne by auto. destruct (lo_at _ _ L k Hk) as (e & y & He & Y & Oy). exists e, y, y.
        rewrite lookup_insert_ne by (intros ->; apply Ni; eapply laid_inj; eauto).
        rewrite lookup_insert_ne by (intros ->; apply Nj; eapply laid_inj; eauto). repeat split; auto. }
  assert (T : forall k, (k < n)%nat -> (transpose i j k < n)%nat).
  { intros k Hk. unfold transpose. repeat destruct (decide _); lia. }
  split; [|split; [split|]]; try reflexivity.
  - split; [cbn; now rewrite !length_insert|exact Lr|]. intros k Hk. destruct (H1 k Hk) as (e & y & y' & _ & _ & A & B & _ & O). eauto.
  - intros k Hk. cbn. rewrite !list_lookup_insert_ne by lia. reflexivity.
  - intros e t. split.
    + intros (k & z & Hk & A & B & C). destruct (H1 k Hk) as (e' & y & y' & P & Y & A' & B' & Ty & _).
      rewrite A in A'. injection A' as <-. rewrite B in B'. injection B' as ->. exists (transpose i j k), y. repeat split; auto. congruence.
    + intros (k & z & Hk & A & B & C). destruct (H1 (transpose i j k) (T k Hk)) as (e' & y & y' & P & Y & A' & B' & Ty & _).
      replace (transpose i j (transpose i j k)) with k in P by (unfold transpose; repeat destruct (decide _); lia).
      rewrite A in P. injection P as <-. rewrite B in Y. injection Y as <-. exists (transpose i j k), y'. repeat split; auto. congruence.
  - intros e He. cbn. rewrite !lookup_insert_ne; auto; intros ->; eapply He; [exists j|exists i]; eauto.
  - intros k Hk. destruct (H1 k Hk) as (e & y & y' & P & Y & A & B & Ty & _).
    rewrite (proj2 (key_at _ _ _ _ P Y)), (proj2 (key_at _ _ _ _ A B)). exact Ty.
Qed.

Lemma transpose_l i j : transpose i j i = j.
Proof. unfold transpose. now rewrite decide_True. Qed.
Lemma transpose_r i j : transpose i j j = i.
Proof. unfold transpose. destruct (decide (j = i)); [congruence|now rewrite decide_True]. Qed.
Lemma transpose_other i j k : k <> i -> k <> j -> transpose i j k = k.
Proof. intros. unfold transpose. now rewrite !decide_False. Qed.

Lemma rise_step n k q q1 :
  rising n k q -> (0 < k < n)%nat -> key q k < key q (k / 2) ->
  (forall i, (i < n)%nat -> key q1 i = key q (transpose (k / 2) k i)) -> rising n (k / 2) q1.
Proof.
  intros [R1 R2] Hk Hlt K. set (p := (k / 2)%nat) in *. assert (Hp : (p < k)%nat) by (apply half_lt; lia).
  assert (Kp : key q1 p = key q k) by (rewrite K, transpose_l by lia; reflexivity).
  assert (Kk : key q1 k = key q p) by (rewrite K, transpose_r by lia; reflexivity).
  assert (Ko : forall i, (i < n)%nat -> i <> p -> i <> k -> key q1 i = key q i) by (intros i Hi N1 N2; now rewrite K, transpose_other).
  split.
  - intros i Hi Ni. destruct (decide (i = k)) as [->|Nk]; [fold p; lia|]. rewrite (Ko i) by lia.
    pose proof (R1 i Hi Nk) as R. pose proof (half_lt i ltac:(lia)). destruct (decide (i / 2 = p)%nat) as [E|N1]; [rewrite E in *; lia|].
    destruct (decide (i / 2 = k)%nat) as [E|N2]; [rewrite E, Kk; apply R2; auto; lia|]. now rewrite Ko by lia.
  - intros i Hi Ei Hp0. pose proof (half_lt p Hp0). rewrite (Ko (p / 2)%nat) by lia.
    pose proof (R1 p ltac:(lia) ltac:(lia)). destruct (decide (i = k)) as [->|Nk]; [lia|].
    assert (i <> p) by (intros ->; lia). rewrite (Ko i) by lia. pose proof (R1 i Hi Nk) as R. rewrite Ei in R. lia.
Qed.

Lemma BubbleUp_spec fuel : forall n k q,
  laid_out n q -> (k < n)%nat -> rising n k q -> (k <= fuel)%nat ->
  exists q', BubbleUp fuel k q = Some q' /\ laid_out n q' /\ moved n q q' /\ ordered n q'.
Proof.
  induction fuel as [|fuel IH]; intros n k q L Hk R Hf; cbn [BubbleUp];
    (destruct (decide (k = 0%nat)) as [->|N];
     [exists q; split; [reflexivity|]; split; [exact L|]; split; [apply moved_refl|]; intros i Hi; apply R; lia|]); [lia|].
  cbv zeta. rewrite Parent_half. pose proof (half_lt k ltac:(lia)) as Hp.
  rewrite (laid_TimeAt n q (k / 2) L), (laid_TimeAt n q k L) by lia. cbn [mbind option_bind].
  destruct (Z.ltb_spec (key q k) (key q (k / 2))) as [Hlt|Hge].
  - destruct (Swap_spec n (k / 2) k q L ltac:(lia) Hk) as (q1 & -> & L1 & M1 & K1). cbn [mbind option_bind].
    destruct (IH n (k / 2)%nat q1 L1 ltac:(lia)) as (q2 & -> & L2 & M2 & O2).
    { apply (rise_step n k q); auto; lia. } { lia. }
    exists q2. split; [reflexivity|]. split; [exact L2|]. split; [now apply moved_trans with q1|exact O2].
  - exists q. split; [reflexivity|]. split; [exact L|]. split; [apply moved_refl|].
    intros i Hi. destruct (decide (i = k)) as [->|Nk]; [exact Hge|now apply R].
Qed.

Lemma sink_step n k c q q1 :
  sinking n k q -> (0 < c < n)%nat -> (c / 2 = k)%nat -> key q c < key q k ->
  (forall i, (0 < i < n)%nat -> (i / 2 = k)%nat -> key q c <= key q i) ->
  (forall i, (i < n)%nat -> key q1 i = key q (transpose c k i)) -> sinking n c q1.
Proof.
  intros [S1 S2] Hc Ec Hlt Hmin K. pose proof (half_lt c ltac:(lia)) as Hck. rewrite Ec in Hck.
  assert (Kc : key q1 c = key q k) by (rewrite K, transpose_l by lia; reflexivity).
  assert (Kk : key q1 k = key q c) by (rewrite K, transpose_r by lia; reflexivity).
  assert (Ko : forall i, (i < n)%nat -> i <> c -> i <> k -> key q1 i = key q i) by (intros i Hi N1 N2; now rewrite K, transpose_other).
  split.
  - intros i Hi Ni. pose proof (half_lt i ltac:(lia)). destruct (decide (i / 2 = k)%nat) as [Ek|Nk].
    + rewrite Ek, Kk. destruct (decide (i = c)) as [->|]; [lia|]. rewrite Ko by lia. now apply Hmin.
    + assert (i <> c) by (intros ->; lia). rewrite (Ko (i / 2)%nat) by lia. destruct (decide (i = k)) as [->|Nk'].
      * rewrite Kk. apply S2; auto; lia.
      * rewrite (Ko i) by lia. now apply S1.
  - intros i Hi Ei _. rewrite Ec, Kk. pose proof (half_lt i ltac:(lia)). rewrite Ko by lia. rewrite <- Ei. apply S1; auto; lia.
Qed.

Lemma sink_done n k q : sinking n k q -> (forall i, (0 < i < n)%nat -> (i / 2 = k)%nat -> key q k <= key q i) -> ordered n q.
Proof. intros [S1 _] H i Hi. destruct (decide (i / 2 = k)%nat) as [E|N]; [rewrite E; auto|auto]. Qed.

Lemma BubbleDown_spec fuel : forall n k q,
  laid_out n q -> heap_size q = n -> (k < n)%nat -> sinking n k q -> (n <= k + fuel)%nat ->
  exists q', BubbleDown fuel k q = Some q' /\ laid_out n q' /\ moved n q q' /\ ordered n q'.
Proof.
  induction fuel as [|fuel IH]; intros n k q L En Hk Sk Hf; [lia|]. cbn [BubbleDown].
  rewrite (laid_TimeAt n q k L Hk). cbn [mbind option_bind]. cbv zeta. unfold RightChild. rewrite LeftChild_twice, En.
  assert (Stay : (forall i, (0 < i < n)%nat -> (i / 2 = k)%nat -> key q k <= key q i) ->
                 exists q', Some q = Some q' /\ laid_out n q' /\ moved n q q' /\ ordered n q').
  { intros H. exists q. split; [reflexivity|]. split; [exact L|]. split; [apply moved_refl|now apply sink_done with k]. }
  assert (Go : forall c, (0 < c < n)%nat -> (c / 2 = k)%nat -> key q c < key q k ->
                 (forall i, (0 < i < n)%nat -> (i / 2 = k)%nat -> key q c <= key q i) ->
                 exists q1, Swap c k q = Some q1 /\ laid_out n q1 /\ moved n q q1 /\ heap_size q1 = n /\ sinking n c q1).
  { intros c Hc Ec Hlt Hmin. destruct (Swap_spec n c k q L ltac:(lia) Hk) as (q1 & -> & L1 & M1 & K1). exists q1.
    pose proof (mv_size _ _ _ M1). split; [reflexivity|]. split; [exact L1|]. split; [exact M1|]. split; [lia|]. now apply (sink_step n k c q). }
  assert (Down : forall c, (0 < c < n)%nat -> (c / 2 = k)%nat -> key q c < key q k ->
                 (forall i, (0 < i < n)%nat -> (i / 2 = k)%nat -> key q c <= key q i) ->
                 exists q', (q1 ← Swap c k q; BubbleDown fuel c q1) = Some q' /\ laid_out n q' /\ moved n q q' /\ ordered n q').
  { intros c Hc Ec Hlt Hmin. destruct (Go c Hc Ec Hlt Hmin) as (q1 & -> & L1 & M1 & E1 & S1). cbn [mbind option_bind].
    pose proof (half_lt c ltac:(lia)). destruct (IH n c q1 L1 E1 ltac:(lia) S1 ltac:(lia)) as (q2 & -> & L2 & M2 & O2).
    exists q2. split; [reflexivity|]. split; [exact L2|]. split; [now apply moved_trans with q1|exact O2]. }
  destruct (decide (n <= 2 * k)%nat) as [H1|H1]; [apply Stay; intros i Hi Ei; apply half_cases in Ei; lia|].
  rewrite (laid_TimeAt n q (2 * k) L) by lia. cbn [mbind option_bind].
  destruct (decide (n <= 2 * k + 1)%nat) as [H2|H2].
  - destruct (Z.ltb_spec (key q (2 * k)) (key q k)) as [Hlt|Hge].
    + assert (k <> 0%nat) by (intros ->; cbn in Hlt; lia).
      destruct (Go (2 * k)%nat) as (q1 & -> & L1 & M1 & E1 & S1); auto using half_left; [lia| |].
      { intros i Hi Ei. apply half_cases in Ei as [-> | ->]; lia. }
      exists q1. split; [reflexivity|]. split; [exact L1|]. split; [exact M1|].
      apply (sink_done _ _ _ S1). intros i Hi Ei. apply half_cases in Ei. lia.
    + apply Stay. intros i Hi Ei. apply half_cases in Ei as [-> | ->]; lia.
  - rewrite (laid_TimeAt n q (2 * k + 1) L) by lia. cbn [mbind option_bind].
    destruct (Z.ltb_spec (key q (2 * k)) (key q (2 * k + 1))) as [Hlr|Hrl].
    + destruct (Z.ltb_spec (key q (2 * k)) (key q k)) as [Hlt|Hge].
      * assert (k <> 0%nat) by (intros ->; cbn in Hlt; lia). apply Down; auto using half_left; [lia|].
        intros i Hi Ei. apply half_cases in Ei as [-> | ->]; lia.
      * apply Stay. intros i Hi Ei. apply half_cases in Ei as [-> | ->]; lia.
    + destruct (Z.ltb_spec (key q (2 * k + 1)) (key q k)) as [Hlt|Hge].
      * apply Down; auto using half_right; [lia|]. intros i Hi Ei. apply half_cases in Ei as [-> | ->]; lia.
      * apply Stay. intros i Hi Ei. apply half_cases in Ei as [-> | ->]; lia.
Qed.

(** ** The operations *)

Definition queued (q : PriorityQueue) : nat -> Z -> Prop := holds (heap_size q) q.

(** Only the cells in use and their objects matter. *)
Lemma view_same n q q' :
  laid_out n q -> length (heap q') = max_heap_size q' -> (n <= max_heap_size q')%nat ->
  (forall i, (i < n)%nat -> heap q' !! i = heap q !! i) ->
  (forall e t, holds n q e t -> elts q' !! e = elts q !! e) ->
  laid_out n q' /\ (forall e t, holds n q' e t <-> holds n q e t) /\ forall i, (i < n)%nat -> key q' i = key q i.
Proof.
  intros L Hl Hn Hh He.
  assert (A : forall i e, (i < n)%nat -> heap q !! i = Some (Some e) -> elts q' !! e = elts q !! e).
  { intros i e Hi E. destruct (lo_at _ _ L i Hi) as (e' & x & E' & X & _). rewrite E in E'. injection E' as <-.
    apply (He e (time x)). exists i, x. auto. }
  split; [split; [exact Hl|exact Hn|]|split].
  - intros i Hi. destruct (lo_at _ _ L i Hi) as (e & x & E & X & O). exists e, x. rewrite Hh, (A i e) by auto. auto.
  - intros e t. split; intros (i & x & Hi & E & X & T); exists i, x.
    + rewrite Hh in E by auto. rewrite (A i e) in X by auto. auto.
    + rewrite Hh, (A i e) by auto. auto.
  - intros i Hi. destruct (lo_at _ _ L i Hi) as (e & x & E & X & O).
    rewrite (proj2 (key_at q i e x E X)). apply (key_at q' i e x); [now rewrite Hh|now rewrite (A i e)].
Qed.

Lemma ordered_same n q q' : (forall i, (i < n)%nat -> key q' i = key q i) -> ordered n q -> ordered n q'.
Proof. intros K O i Hi. pose proof (half_lt i ltac:(lia)). rewrite !K by lia. now apply O. Qed.

Lemma ordered_top n q i : ordered n q -> (i < n)%nat -> key q 0 <= key q i.
Proof.
  intros O. induction i as [i IH] using lt_wf_ind. intros Hi. destruct (decide (i = 0%nat)) as [->|N]; [lia|].
  pose proof (half_lt i ltac:(lia)). specialize (IH (i / 2)%nat ltac:(lia) ltac:(lia)). specialize (O i ltac:(lia)). lia.
Qed.

Lemma holds_fun n q e t t' : holds n q e t -> holds n q e t' -> t = t'.
Proof. intros (i & x & _ & _ & X & <-) (j & y & _ & _ & Y & <-). congruence. Qed.

Lemma Add_spec e x q :
  ok q -> elts q !! e = Some x -> (forall t, ~ queued q e t) ->
  exists q', Add e q = Some q' /\ ok q' /\ heap_size q' = S (heap_size q) /\
    (forall e' t, queued q' e' t <-> queued q e' t \/ e' = e /\ t = time x) /\
    (forall e', e' <> e -> (forall t, ~ queued q e' t) -> elts q' !! e' = elts q !! e').
Proof.
  intros [L F O] X Ne. unfold Add, queued in *. set (n := heap_size q) in *. pose proof (lo_cells _ _ L) as Lc.
  rewrite (SetElement_eq n e x) by (assumption || lia). cbn [mbind option_bind]. set (q1 := set_elts _ _). change (heap_size q1) with n.
  assert (Hh : forall i, (i < n)%nat -> heap q1 !! i = heap q !! i) by (intros i Hi; cbn; rewrite list_lookup_insert_ne by lia; reflexivity).
  assert (He : forall e' t, holds n q e' t -> elts q1 !! e' = elts q !! e').
  { intros e' t H. cbn. rewrite lookup_insert_ne; [reflexivity|]. intros ->. now apply (Ne t). }
  destruct (view_same n q q1 L) as (L1 & V1 & K1); auto; [cbn; rewrite length_insert; exact Lc|cbn; lia|].
  assert (En : heap q1 !! n = Some (Some e)) by (cbn; apply list_lookup_insert_eq; lia).
  assert (Ee : elts q1 !! e = Some (SetOffset (Z.of_nat n) x)) by (cbn; apply lookup_insert_eq).
  assert (L2 : laid_out (S n) q1).
  { split; [apply L1|cbn; lia|]. intros i Hi. destruct (decide (i = n)) as [->|]; [eauto 6|apply L1; lia]. }
  assert (V2 : forall e' t, holds (S n) q1 e' t <-> holds n q e' t \/ e' = e /\ t = time x).
  { intros e' t. rewrite <- V1. split.
    - intros (i & y & Hi & A & B & C). destruct (decide (i = n)) as [->|]; [right|left; exists i, y; auto with lia].
      rewrite En in A. injection A as <-. rewrite Ee in B. injection B as <-. auto.
    - intros [(i & y & Hi & H)|[-> ->]]; [exists i, y; auto with lia|exists n, (SetOffset (Z.of_nat n) x); auto]. }
  destruct (BubbleUp_spec n (S n) n q1 L2) as (q2 & -> & L3 & M & O2); auto with lia.
  { split; intros i Hi H.
    - pose proof (half_lt i ltac:(lia)). rewrite !K1 by lia. apply O. lia.
    - pose proof (half_lt i ltac:(lia)). lia. }
  cbn [mbind option_bind]. cbv zeta. pose proof (mv_size _ _ _ M) as Es. pose proof (mv_max _ _ _ M) as Em. cbn in Es, Em. fold n in Es.
  pose proof (lo_cells _ _ L3) as Lc2. set (q3 := {| heap := heap q2 |}). eexists. split; [reflexivity|].
  set (q4 := if decide _ then _ else _).
  assert (B4 : heap_size q4 = S n /\ (S n < max_heap_size q4)%nat /\ length (heap q4) = max_heap_size q4 /\ elts q4 = elts q2 /\
               forall i, (i < S n)%nat -> heap q4 !! i = heap q2 !! i).
  { subst q4. destruct (decide _) as [D|D]; cbn [Resize q3 heap heap_size max_heap_size elts] in *.
    - assert (Ef : firstn (max_heap_size q2 * 2) (firstn (max_heap_size q2) (heap q2) ++ repeat None (max_heap_size q2 * 2 - max_heap_size q2))
                   = heap q2 ++ repeat None (max_heap_size q2)).
      { rewrite (firstn_all2 (heap q2)) by lia. replace (max_heap_size q2 * 2 - max_heap_size q2)%nat with (max_heap_size q2) by lia.
        apply firstn_all2. rewrite length_app, repeat_length. lia. }
      rewrite Ef. repeat split; try lia; [rewrite length_app, repeat_length; lia|]. intros i Hi. apply lookup_app_l. lia.
    - repeat split; auto; lia. }
  destruct B4 as (B1 & B2 & B3 & B5 & B6).
  destruct (view_same (S n) q2 q4 L3) as (L4 & V4 & K4); auto; [lia|congruence|].
  rewrite B1. split; [split; rewrite ?B1; auto; eapply ordered_same; eauto|]. split; [reflexivity|]. split.
  - intros e' t. rewrite V4, (mv_holds _ _ _ M). apply V2.
  - intros e' N1 N2. rewrite B5, (mv_others _ _ _ M).
    + cbn. now rewrite lookup_insert_ne.
    + intros t. rewrite V2. intros [H|[-> _]]; [now apply (N2 t)|congruence].
Qed.

(** The last element put into the root's bin. *)
Lemma root_replaced m q l xl top xt :
  laid_out (S m) q -> heap q !! m = Some (Some l) -> elts q !! l = Some xl -> heap q !! 0%nat = Some (Some top) -> elts q !! top = Some xt ->
  let q2 := set_elts (<[l := SetOffset 0 xl]> (elts q)) (set_heap (<[0%nat := Some l]> (heap q)) (set_size m q)) in
  laid_out m q2 /\ (forall e t, holds m q2 e t <-> holds (S m) q e t /\ e <> top) /\
  (forall i, (0 < i < m)%nat -> key q2 i = key q i) /\ TimeAt 0 q2 = Some (time xl) /\
  (forall e, e <> l -> elts q2 !! e = elts q !! e) /\ (exists y, elts q2 !! top = Some y /\ time y = time xt).
Proof.
  intros L Hl Xl Ht Xt q2. pose proof (lo_cells _ _ L) as Lc. pose proof (lo_room _ _ L) as Lr.
  assert (Hh : forall i, (0 < i)%nat -> heap q2 !! i = heap q !! i) by (intros i Hi; cbn; rewrite list_lookup_insert_ne by lia; reflexivity).
  assert (H0 : heap q2 !! 0%nat = Some (Some l)) by (cbn; apply list_lookup_insert_eq; lia).
  assert (Xl2 : elts q2 !! l = Some (SetOffset 0 xl)) by (cbn; apply lookup_insert_eq).
  assert (Xo : forall e, e <> l -> elts q2 !! e = elts q !! e) by (intros e N; cbn; now rewrite lookup_insert_ne).
  assert (Inj : forall i e, (i < S m)%nat -> heap q !! i = Some (Some e) -> e = l -> i = m) by (intros i e Hi E ->; eapply laid_inj; eauto; lia).
  assert (Inj0 : forall i e, (i < S m)%nat -> heap q !! i = Some (Some e) -> e = top -> i = 0%nat) by (intros i e Hi E ->; eapply laid_inj; eauto; lia).
  split; [|split; [|split; [|split; [exact (proj1 (key_at q2 0 _ _ H0 Xl2))|split; [exact Xo|]]]]].
  - split; [cbn; rewrite length_insert; exact Lc|cbn; lia|]. intros i Hi. destruct (decide (i = 0%nat)) as [->|]; [eauto 6|].
    destruct (lo_at _ _ L i ltac:(lia)) as (e & x & E & X & Ox). exists e, x. rewrite Hh, Xo by (lia || (intros E'; apply (Inj i e) in E'; auto; lia)). auto.
  - intros e t. split.
    + intros (i & x & Hi & A & B & C). destruct (decide (i = 0%nat)) as [->|].
      * rewrite H0 in A. injection A as <-. rewrite Xl2 in B. injection B as <-. split; [exists m, xl; auto with lia|].
        intros E. apply (Inj0 m) in E; auto; lia.
      * rewrite Hh in A by lia. assert (e <> l) by (intros E; apply (Inj i) in E; auto; lia). rewrite Xo in B by assumption.
        split; [exists i, x; auto with lia|]. intros E. apply (Inj0 i) in E; auto; lia.
    + intros [(i & x & Hi & A & B & C) Ne]. assert (i <> 0%nat) by congruence. destruct (decide (i = m)) as [->|].
      * rewrite Hl in A. injection A as <-. exists 0%nat, (SetOffset 0 xl). repeat split; auto; [lia|]. cbn. congruence.
      * exists i, x. rewrite Hh, Xo by (lia || (intros E'; apply (Inj i) in E'; auto; lia)). auto with lia.
  - intros i Hi. destruct (lo_at _ _ L i ltac:(lia)) as (e & x & E & X & _). rewrite (proj2 (key_at q i e x E X)).
    apply (key_at q2 i e x); [rewrite Hh by lia; exact E|rewrite Xo; [exact X|]]. intros E'. apply (Inj i) in E'; auto; lia.
  - destruct (decide (top = l)) as [->|N]; [exists (SetOffset 0 xl); split; [auto|cbn; congruence]|]. rewrite Xo by assumption. eauto.
Qed.

Lemma Remove_spec q :
  ok q -> heap_size q <> 0%nat ->
  exists q' top t, Remove q = Some (q', Some top) /\ ok q' /\ S (heap_size q') = heap_size q /\ queued q top t /\ At 0 q = Some top /\
    (forall e t', queued q e t' -> t <= t') /\
    (forall e t', queued q' e t' <-> queued q e t' /\ e <> top) /\
    elts q' !! top = Some {| time := t; offset := -1 |} /\
    (forall e, (forall t, ~ queued q e t) -> elts q' !! e = elts q !! e).
Proof.
  intros [L F O] N0. unfold Remove, queued in *. rewrite decide_False by assumption.
  destruct (heap_size q) as [|m] eqn:En; [congruence|]. pose proof (lo_cells _ _ L) as Lc.
  destruct (lo_at _ _ L 0%nat ltac:(lia)) as (top & xt & Ht & Xt & Ot). destruct (lo_at _ _ L m ltac:(lia)) as (l & xl & Hl & Xl & Ol).
  unfold At. rewrite Ht. cbn [mjoin option_join mbind option_bind]. cbv zeta. cbn [heap_size set_size heap].
  replace (S m - 1)%nat with m by lia. rewrite Hl. cbn [mjoin option_join mbind option_bind].
  rewrite (SetElement_eq 0 l xl); [|cbn; lia|exact Xl]. cbn [mbind option_bind].
  destruct (root_replaced m q l xl top xt L Hl Xl Ht Xt) as (L2 & V2 & K2 & T2 & Xo & Xt2). cbn [elts heap set_size].
  set (q2 := set_elts _ _) in *. change (heap_size q2) with m.
  assert (B : exists q3, BubbleDown (S m) 0 q2 = Some q3 /\ laid_out m q3 /\ moved m q2 q3 /\ ordered m q3).
  { destruct m as [|m].
    - cbn [BubbleDown]. rewrite T2. cbn. exists q2. split; [reflexivity|]. split; [exact L2|]. split; [apply moved_refl|]. intros i Hi. lia.
    - apply BubbleDown_spec; auto; try lia. split; intros i Hi Ei; [|lia].
      assert (i / 2 <> 0)%nat by exact Ei. pose proof (half_lt i ltac:(lia)). rewrite !K2 by lia. apply O. lia. }
  destruct B as (q3 & -> & L3 & M & O3). cbn [mbind option_bind].
  assert (Nt : forall t, ~ holds m q2 top t) by (intros t H; apply V2 in H; tauto).
  rewrite (mv_others _ _ _ M top Nt). destruct Xt2 as (y & -> & Ty). cbn [mbind option_bind].
  pose proof (mv_size _ _ _ M) as Es. pose proof (mv_max _ _ _ M) as Em. cbn in Es, Em.
  set (q4 := set_elts _ q3). exists q4, top, (time xt). split; [reflexivity|].
  destruct (view_same m q3 q4 L3) as (L4 & V4 & K4); [apply L3|apply L3|reflexivity| |].
  { intros e t H. cbn. rewrite lookup_insert_ne; [reflexivity|]. intros <-. apply (mv_holds _ _ _ M) in H. now apply (Nt t). }
  change (heap_size q4) with (heap_size q3). rewrite Es.
  split; [split; change (heap_size q4) with (heap_size q3); rewrite ?Es; auto; [cbn; lia|eapply ordered_same; eauto]|].
  split; [reflexivity|]. split; [exists 0%nat, xt; auto with lia|]. split; [reflexivity|]. split; [|split; [|split]].
  - intros e t' (i & x & Hi & A & B & <-). rewrite <- (proj2 (key_at q i e x A B)), <- (proj2 (key_at q 0 top xt Ht Xt)). now apply (ordered_top (S m)).
  - intros e t'. rewrite V4, (mv_holds _ _ _ M). apply V2.
  - cbn. rewrite lookup_insert_eq. unfold SetOffset. now rewrite Ty.
  - intros e He. assert (e <> top) by (intros ->; apply (He (time xt)); exists 0%nat, xt; auto with lia).
    assert (e <> l) by (intros ->; apply (He (time xl)); exists m, xl; auto with lia).
    cbn. rewrite lookup_insert_ne by auto. rewrite (mv_others _ _ _ M); [now apply Xo|]. intros t H'. apply V2 in H'. now apply (He t).
Qed.

(** The time of an element that is to be removed is lowered. *)
Lemma minimized n i e x q :
  laid_out n q -> ordered n q -> (i < n)%nat -> heap q !! i = Some (Some e) -> elts q !! e = Some x ->
  (forall e t, holds n q e t -> - HUGE_VAL < t) ->
  let q1 := set_elts (<[e := MinimizeTime x]> (elts q)) q in
  laid_out n q1 /\ rising n i q1 /\
  (forall e' t, holds n q1 e' t <-> holds n q e' t /\ e' <> e \/ e' = e /\ t = - HUGE_VAL).
Proof.
  intros L O Hi E X Fin q1.
  assert (Inj : forall j e', (j < n)%nat -> heap q !! j = Some (Some e') -> e' = e -> j = i) by (intros j e' Hj E' ->; eapply laid_inj; eauto).
  assert (Xe : elts q1 !! e = Some (MinimizeTime x)) by apply lookup_insert_eq.
  assert (Xo : forall e', e' <> e -> elts q1 !! e' = elts q !! e') by (intros e' N; cbn; now rewrite lookup_insert_ne).
  assert (Ki : key q1 i = - HUGE_VAL) by exact (proj2 (key_at q1 i e _ E Xe)).
  assert (Kj : forall j, (j < n)%nat -> j <> i -> key q1 j = key q j).
  { intros j Hj N. destruct (lo_at _ _ L j Hj) as (e' & y & E' & Y & _). rewrite (proj2 (key_at q j e' y E' Y)).
    apply (key_at q1 j e' y E'). rewrite Xo; [exact Y|]. intros H. now apply N, (Inj j e'). }
  assert (Low : forall j, (j < n)%nat -> - HUGE_VAL <= key q1 j).
  { intros j Hj. destruct (decide (j = i)) as [->|N]; [lia|]. rewrite Kj by assumption. destruct (lo_at _ _ L j Hj) as (e' & y & E' & Y & _).
    rewrite (proj2 (key_at q j e' y E' Y)). specialize (Fin e' (time y) ltac:(exists j, y; auto)). lia. }
  split; [split; [apply L|apply L|]|split; [split|]].
  - intros j Hj. destruct (lo_at _ _ L j Hj) as (e' & y & E' & Y & Oy). destruct (decide (e' = e)) as [->|N].
    + exists e, (MinimizeTime x). repeat split; auto. cbn. congruence.
    + exists e', y. rewrite Xo by assumption. auto.
  - intros j Hj N. pose proof (half_lt j ltac:(lia)). destruct (decide (j / 2 = i)%nat) as [->|N2]; [rewrite Ki; apply Low; lia|].
    rewrite !Kj by lia. apply O. lia.
  - intros j Hj Ej H0. pose proof (half_lt j ltac:(lia)). pose proof (half_lt i H0). rewrite !Kj by lia.
    pose proof (O i ltac:(lia)). pose proof (O j ltac:(lia)) as Oj. rewrite Ej in Oj. lia.
  - intros e' t. split.
    + intros (j & y & Hj & E' & Y & T). destruct (decide (e' = e)) as [->|N]; [rewrite Xe in Y; injection Y as <-; right; cbn in T; auto|].
      rewrite Xo in Y by assumption. left. split; [exists j, y; auto|assumption].
    + intros [[(j & y & Hj & E' & Y & T) N]|[-> ->]]; [exists j, y; rewrite Xo by assumption; auto|exists i, (MinimizeTime x); auto].
Qed.

Lemma RemoveElement_spec e t q :
  ok q -> queued q e t -> (forall e t, queued q e t -> - HUGE_VAL < t) ->
  exists q', RemoveElement e q = Some (Gone q') /\ ok q' /\ S (heap_size q') = heap_size q /\
    (forall e' t', queued q' e' t' <-> queued q e' t' /\ e' <> e) /\
    elts q' !! e = Some {| time := - HUGE_VAL; offset := -1 |} /\
    (forall e', (forall t, ~ queued q e' t) -> elts q' !! e' = elts q !! e').
Proof.
  intros K (i & x & Hi & E & X & T) Fin. pose proof K as [L F O]. unfold queued in *. set (n := heap_size q) in *.
  destruct (lo_at _ _ L i Hi) as (e0 & x0 & E0 & X0 & O0). rewrite E in E0. injection E0 as <-. rewrite X in X0. injection X0 as <-.
  unfold RemoveElement. rewrite X. cbn [mbind option_bind]. fold n. rewrite decide_False by lia. rewrite O0, Nat2Z.id, E. cbn [mbind option_bind].
  rewrite decide_True by reflexivity. destruct (minimized n i e x q L O Hi E X Fin) as (L1 & R1 & V1). cbv zeta. set (q1 := set_elts _ q) in *.
  destruct (BubbleUp_spec i n i q1 L1 Hi R1 ltac:(lia)) as (q2 & -> & L2 & M & O2). cbn [mbind option_bind].
  pose proof (mv_size _ _ _ M) as Es. pose proof (mv_max _ _ _ M) as Em. cbn in Es, Em. fold n in Es.
  assert (K2 : ok q2) by (split; rewrite Es; auto; lia).
  destruct (Remove_spec q2 K2 ltac:(lia)) as (q3 & top & t3 & -> & K3 & E3 & Q3 & _ & Min & V3 & X3 & Un). cbn [mbind option_bind].
  unfold queued in Q3, Min, V3, Un. rewrite Es in Q3, Min, V3, Un, E3.
  assert (V2 : forall e' t', holds n q2 e' t' <-> holds n q e' t' /\ e' <> e \/ e' = e /\ t' = - HUGE_VAL).
  { intros e' t'. rewrite (mv_holds _ _ _ M). apply V1. }
  assert (top = e /\ t3 = - HUGE_VAL) as [-> ->].
  { pose proof (Min e (- HUGE_VAL) ltac:(apply V2; auto)) as Hm. apply V2 in Q3 as [[H N]|H]; [|exact H]. apply Fin in H. lia. }
  rewrite decide_True by reflexivity. exists q3. split; [reflexivity|]. split; [exact K3|]. split; [exact E3|]. split; [|split; [exact X3|]].
  - intros e' t'. rewrite V3, V2. tauto.
  - intros e' He. assert (N : e' <> e) by (intros ->; apply (He t); exists i, x; auto).
    rewrite Un.
    + rewrite (mv_others _ _ _ M); [cbn; now rewrite lookup_insert_ne|]. intros t' H. apply V1 in H as [[H _]|[H _]]; [now apply (He t')|auto].
    + intros t' H. apply V2 in H as [[H _]|[H _]]; [now apply (He t')|auto].
Qed.

Lemma RemoveElement_absent e x q :
  ok q -> elts q !! e = Some x -> (forall t, ~ queued q e t) -> RemoveElement e q = Some NotInHeap.
Proof.
  intros [L F O] X N. unfold RemoveElement. rewrite X. cbn [mbind option_bind]. destruct (decide _) as [|D]; [reflexivity|].
  destruct (lo_at _ _ L (Z.to_nat (offset x)) ltac:(lia)) as (e' & y & E & Y & _). rewrite E. cbn [mbind option_bind].
  rewrite decide_False; [reflexivity|]. intros [= ->]. apply (N (time x)). exists (Z.to_nat (offset x)), x. repeat split; auto; lia.
Qed.

Lemma ok_new n m : (0 < n)%nat -> ok (new_PriorityQueue n m).
Proof.
  intros Hn. split; cbn; [|exact Hn|intros i Hi; lia]. split; cbn; [apply repeat_length|lia|intros i Hi; lia].
Qed.

(** ** The queue as a finite map *)

(** The elements with their times. *)
Definition represents (q : PriorityQueue) (m : gmap nat Z) : Prop := ok q /\ forall e t, m !! e = Some t <-> queued q e t.

Lemma represents_size q m : represents q m -> m = ∅ <-> heap_size q = 0%nat.
Proof.
  intros [[L F O] R]. split.
  - intros ->. destruct (heap_size q) as [|n] eqn:E; [reflexivity|]. exfalso. destruct (lo_at _ _ L 0%nat ltac:(lia)) as (e & x & H & X & _).
    assert (Q : queued q e (time x)) by (exists 0%nat, x; rewrite E; auto with lia). apply R in Q. rewrite lookup_empty in Q. discriminate.
  - intros E. apply map_empty. intros e. destruct (m !! e) as [t|] eqn:M; [|reflexivity]. exfalso.
    apply R in M as (i & x & Hi & _). lia.
Qed.

Lemma represents_delete q q' e m : represents q m -> ok q' -> (forall e' t, queued q' e' t <-> queued q e' t /\ e' <> e) -> represents q' (delete e m).
Proof.
  intros [_ R] K V. split; [exact K|]. intros e' t. rewrite V, <- R. destruct (decide (e' = e)) as [->|N].
  - rewrite lookup_delete_eq. split; [discriminate|tauto].
  - rewrite lookup_delete_ne by auto. tauto.
Qed.

(** Objects outside of the queue do not matter. *)
Lemma represents_elts x q m :
  represents q m -> (forall e t, m !! e = Some t -> x !! e = elts q !! e) -> represents (set_elts x q) m.
Proof.
  intros [[L F O] R] H. destruct (view_same (heap_size q) q (set_elts x q) L) as (L' & V & K); auto; try apply L.
  { intros e t Q. apply R in Q. eauto. }
  split; [split; auto; eapply ordered_same; eauto|]. intros e t. rewrite R. symmetry. apply V.
Qed.

Lemma represents_absent q m e : represents q m -> m !! e = None -> forall t, ~ queued q e t.
Proof. intros [_ V] N t Q. apply V in Q. congruence. Qed.

Lemma Add_represents q m e x :
  represents q m -> elts q !! e = Some x -> m !! e = None -> exists q', Add e q = Some q' /\ represents q' (<[e := time x]> m).
Proof.
  intros R X N. pose proof R as [K V]. destruct (Add_spec e x q K X (represents_absent q m e R N)) as (q' & E & K' & _ & V' & _). exists q'. split; [exact E|].
  split; [exact K'|]. intros e' t. rewrite V', <- V. destruct (decide (e' = e)) as [->|Ne].
  - rewrite lookup_insert_eq. split; [intros [= <-]; auto|]. intros [H|[_ ->]]; [congruence|reflexivity].
  - rewrite lookup_insert_ne by auto. tauto.
Qed.

Lemma Remove_empty q : represents q ∅ -> Top q = Some None /\ Remove q = Some (q, None).
Proof. intros R. assert (E : heap_size q = 0%nat) by now apply (represents_size q ∅). unfold Top, Remove. rewrite !decide_True by exact E. auto. Qed.

Lemma Remove_represents q m :
  represents q m -> m <> ∅ ->
  exists q' e t, Top q = Some (Some e) /\ Remove q = Some (q', Some e) /\ m !! e = Some t /\
                 (exists x, elts q !! e = Some x /\ time x = t) /\ (forall e' t', m !! e' = Some t' -> t <= t') /\ represents q' (delete e m).
Proof.
  intros R Ne. assert (E : heap_size q <> 0%nat) by (intros E; apply Ne, (represents_size q m); auto). pose proof R as [K V].
  destruct (Remove_spec q K E) as (q' & e & t & Er & K' & _ & Q & At0 & Min & V' & _). exists q', e, t.
  split; [unfold Top; rewrite decide_False by exact E; now rewrite At0|]. split; [exact Er|]. split; [now apply V|].
  split; [destruct Q as (i & x & _ & _ & X & T); eauto|].
  split; [intros e' t' H; apply V in H; eauto|]. now apply (represents_delete q).
Qed.

Lemma RemoveElement_represents q m e t :
  represents q m -> m !! e = Some t -> (forall e' t', m !! e' = Some t' -> - HUGE_VAL < t') ->
  exists q', RemoveElement e q = Some (Gone q') /\ represents q' (delete e m).
Proof.
  intros R H Fin. pose proof R as [K V]. apply V in H. destruct (RemoveElement_spec e t q K H) as (q' & E & K' & _ & V' & _).
  { intros e' t' Q. apply V in Q. eauto. }
  exists q'. split; [exact E|]. now apply (represents_delete q).
Qed.

(** C17: The heap with its unusual children and its elements that know their bins is a priority
    queue.  Its operations are those of a finite map from elements to times: an element is
    added, the first to be taken has the least time of all, and any element can be removed
    from the middle; what is not in the queue is recognised.  No access leaves the array,
    which grows as needed, and the inconsistency that [Remove(e)] tests for does not occur
    while times are finite. *)
Theorem priority_queue_refines q m :
  represents q m ->
  (forall e x, elts q !! e = Some x -> m !! e = None -> exists q', Add e q = Some q' /\ represents q' (<[e := time x]> m)) /\
  (m = ∅ -> Top q = Some None /\ Remove q = Some (q, None)) /\
  (m <> ∅ -> exists q' e t, Top q = Some (Some e) /\ Remove q = Some (q', Some e) /\ m !! e = Some t /\
                            (forall e' t', m !! e' = Some t' -> t <= t') /\ represents q' (delete e m)) /\
  (forall e t, m !! e = Some t -> (forall e' t', m !! e' = Some t' -> - HUGE_VAL < t') ->
     exists q', RemoveElement e q = Some (Gone q') /\ represents q' (delete e m)) /\
  (forall e x, elts q !! e = Some x -> m !! e = None -> RemoveElement e q = Some NotInHeap).
Proof.
  intros R. split; [|split; [|split; [|split]]].
  - intros e x. now apply Add_represents.
  - intros ->. now apply Remove_empty.
  - intros Ne. destruct (Remove_represents q m R Ne) as (q' & e & t & T & E & M & _ & H). exists q', e, t. auto.
  - intros e t. now apply RemoveElement_represents.
  - intros e x X N. apply (RemoveElement_absent e x); [apply R|exact X|now apply (represents_absent q m)].
Qed.

(** Three elements, of which the second is taken from the middle. *)
Definition three : PriorityQueue :=
  default (new_PriorityQueue 16 ∅)
    (q ← Add 1 (new_PriorityQueue 2 {[1%nat := new_PQ_Element 30; 2%nat := new_PQ_Element 10; 3%nat := new_PQ_Element 20]});
     q ← Add 2 q; Add 3 q).

Lemma three_represents : represents three {[1%nat := 30; 2%nat := 10; 3%nat := 20]}.
Proof.
  set (m0 := {[1%nat := new_PQ_Element 30; 2%nat := new_PQ_Element 10; 3%nat := new_PQ_Element 20]} : gmap nat PQ_Element).
  pose proof (ok_new 2 m0 ltac:(lia)) as K0.
  assert (N0 : forall e t, ~ queued (new_PriorityQueue 2 m0) e t) by (intros e t (i & x & Hi & _); cbn in Hi; lia).
  destruct (Add_spec 1 (new_PQ_Element 30) _ K0 eq_refl (N0 1%nat)) as (q1 & E1 & K1 & _ & V1 & X1).
  assert (N1 : forall e t, e <> 1%nat -> ~ queued q1 e t) by (intros e t He Q; apply V1 in Q as [Q|[-> _]]; [now apply N0 in Q|auto]).
  destruct (Add_spec 2 (new_PQ_Element 10) q1 K1) as (q2 & E2 & K2 & _ & V2 & X2); [rewrite X1 by auto; reflexivity|intros t; now apply N1|].
  assert (N2 : forall e t, e <> 1%nat -> e <> 2%nat -> ~ queued q2 e t).
  { intros e t H1 H2 Q. apply V2 in Q as [Q|[-> _]]; [|auto]. now apply N1 in Q. }
  destruct (Add_spec 3 (new_PQ_Element 20) q2 K2) as (q3 & E3 & K3 & _ & V3 & _).
  { rewrite X2, X1; auto. } { intros t. now apply N2. }
  assert (E : three = q3) by (unfold three; fold m0; rewrite E1; cbn [mbind option_bind]; rewrite E2; cbn [mbind option_bind]; now rewrite E3).
  rewrite E. split; [exact K3|]. intros e t. rewrite V3, V2, V1. pose proof (N0 e t). cbn [time new_PQ_Element].
  rewrite !lookup_insert, lookup_singleton. clear - H. split.
  - repeat destruct (decide _); subst; intros [= <-]; auto.
  - intros [[[Q|[-> ->]]|[-> ->]]|[-> ->]]; [now elim H| | |]; repeat destruct (decide _); congruence.
Qed.

Lemma priority_queue_refines_witness :
  exists q' q'', RemoveElement 3 three = Some (Gone q') /\ Remove three = Some (q'', Some 2%nat) /\
                 represents q' (delete 3%nat {[1%nat := 30; 2%nat := 10; 3%nat := 20]}).
Proof.
  destruct (priority_queue_refines three _ three_represents) as (_ & _ & H & H' & _).
  destruct (H' 3%nat 20 eq_refl) as (q' & E' & R').
  { intros e t. rewrite !lookup_insert, lookup_singleton. unfold HUGE_VAL. pose proof (Z.pow_pos_nonneg 2 2098 ltac:(lia) ltac:(lia)).
    repeat destruct (decide _); intros [= <-]; lia. }
  destruct H as (q'' & e & t & _ & E'' & M & Min & _); [discriminate|]. exists q', q''.
  assert (t <= 10) by (apply (Min 2%nat 10); reflexivity).
  assert (e = 2%nat) as ->; [|auto].
  rewrite !lookup_insert, lookup_singleton in M. repeat destruct (decide _); subst; try congruence; injection M as <-; lia.
Defined.

End PQ.
