(* ===== verification/Timers.v ===== *)
(** * Bro's timers ([src/Timer.cc], [src/Timer.h], [expire_timers] of [src/Net.cc])

    The manager [PQ_TimerMgr] over the queue of [PrioQueue].  A timer that is dispatched
    may add timers and cancel others; what dispatching does is a parameter, over any state
    of the rest of the program. *)
From S2P Require Import Prelude PrioQueue.
From Stdlib Require Import ZArith Lia List Bool Sorting.
From stdpp Require Import gmap list.

Open Scope Z_scope.

Module TM.

Import PQ.

(** [NUM_TIMER_TYPES] of [Timer.h] *)
Definition NUM_TIMER_TYPES : nat := 27.

(** A manager; [current_timers] counts the timers of each type, and [types] is the member
    [type] of the timer at an address. *)
Record TimerMgr := {
  q : PriorityQueue; types : gmap nat nat; clock : Z; last_timestamp : Z; last_advance : Z; num_expired : Z;
  current_timers : list Z }.

Definition set_q (x : PriorityQueue) (ts : gmap nat nat) (cs : list Z) (m : TimerMgr) : TimerMgr :=
  {| q := x; types := ts; clock := clock m; last_timestamp := last_timestamp m; last_advance := last_advance m;
     num_expired := num_expired m; current_timers := cs |}.
Definition set_progress (stamp expired : Z) (m : TimerMgr) : TimerMgr :=
  {| q := q m; types := types m; clock := clock m; last_timestamp := stamp; last_advance := last_advance m;
     num_expired := expired; current_timers := current_timers m |}.

Definition new_TimerMgr : TimerMgr :=
  {| q := new_PriorityQueue 16 ∅; types := ∅; clock := 0; last_timestamp := 0; last_advance := 0; num_expired := 0;
     current_timers := repeat 0 NUM_TIMER_TYPES |}.

(** [TimerMgr::Time] *)
Definition Time (m : TimerMgr) : Z := if clock m =? 0 then 2 ^ 1074 else clock m.

(** [++current_timers[type]] and [--current_timers[type]], unsigned *)
Definition bump (ty : nat) (d : Z) (cs : list Z) : list Z := alter (fun c => wrap 32 (c + d)) ty cs.

(** [new Timer(t, type)] *)
Definition new_Timer (id : nat) (t : Z) (ty : nat) (m : TimerMgr) : TimerMgr :=
  set_q (set_elts (<[id := new_PQ_Element t]> (elts (q m))) (q m)) (<[id := ty]> (types m)) (current_timers m) m.

(** [delete timer] *)
Definition delete_Timer (id : nat) (m : TimerMgr) : TimerMgr :=
  set_q (set_elts (delete id (elts (q m))) (q m)) (delete id (types m)) (current_timers m) m.

(** [PQ_TimerMgr::Add] *)
Definition Add (id : nat) (m : TimerMgr) : option TimerMgr :=
  ty ← types m !! id; x ← PQ.Add id (q m); Some (set_q x (types m) (bump ty 1 (current_timers m)) m).

(** [TimerMgr::Cancel]: a timer that is missing is an internal error. *)
Definition Cancel (id : nat) (m : TimerMgr) : option TimerMgr :=
  ty ← types m !! id;
  r ← RemoveElement id (q m);
  match r with
  | Gone x => Some (delete_Timer id (set_q x (types m) (bump ty (-1) (current_timers m)) m))
  | NotInHeap | Inconsistent => None
  end.

(** What a timer that is dispatched does to the manager: a new timer is added, a timer is cancelled. *)
Inductive Cmd := CAdd (id : nat) (t : Z) (ty : nat) | CCancel (id : nat).

Definition run_cmd (m : TimerMgr) (c : Cmd) : option TimerMgr :=
  match c with
  | CAdd id t ty => Add id (new_Timer id t ty m)
  | CCancel id => Cancel id m
  end.

Fixpoint run_cmds (cs : list Cmd) (m : TimerMgr) : option TimerMgr :=
  match cs with
  | [] => Some m
  | c :: cs => m ← run_cmd m c; run_cmds cs m
  end.

Section Dispatch.

(** The rest of the program, and [Timer::Dispatch] with the time and [is_expire]. *)
Context {W : Type} (Dispatch : nat -> Z -> bool -> W -> W * list Cmd).

(** [PQ_TimerMgr::DoAdvance]; the log has the timers dispatched. *)
Fixpoint advance_loop (fuel : nat) (new_t max_expire : Z) (m : TimerMgr) (w : W) : option (TimerMgr * W * list (nat * Z)) :=
  timer ← Top (q m);
  match timer with
  | None => Some (m, w, [])
  | Some id =>
      x ← elts (q m) !! id;
      if ((num_expired m <? max_expire) || (max_expire =? 0)) && (time x <=? new_t) then
        match fuel with
        | O => None
        | S fuel =>
            ty ← types m !! id;
            '(x', _) ← Remove (q m);
            let m := set_q x' (types m) (bump ty (-1) (current_timers m)) (set_progress (time x) (num_expired m) m) in
            let '(w, cs) := Dispatch id new_t false w in
            m ← run_cmds cs m;
            let m := delete_Timer id m in
            '(m, w, log) ← advance_loop fuel new_t max_expire (set_progress (last_timestamp m) (num_expired m + 1) m) w;
            Some (m, w, (id, time x) :: log)
        end
      else Some (m, w, [])
  end.

(** [TimerMgr::Advance]; [global_time] is the time of the global manager, if this is another one. *)
Definition Advance (fuel : nat) (arg_t max_expire : Z) (global_time : option Z) (m : TimerMgr) (w : W)
    : option (TimerMgr * W * list (nat * Z)) :=
  let m := {| q := q m; types := types m; clock := arg_t; last_timestamp := 0; last_advance := last_advance m; num_expired := 0;
              current_timers := current_timers m |} in
  advance_loop fuel arg_t max_expire
    {| q := q m; types := types m; clock := clock m; last_timestamp := last_timestamp m; last_advance := default (Time m) global_time;
       num_expired := num_expired m; current_timers := current_timers m |} w.

(** [PQ_TimerMgr::Expire] *)
Fixpoint Expire (fuel : nat) (m : TimerMgr) (w : W) : option (TimerMgr * W * list nat) :=
  match fuel with
  | O => None
  | S fuel =>
      '(x, timer) ← Remove (q m);
      match timer with
      | None => Some (set_q x (types m) (current_timers m) m, w, [])
      | Some id =>
          let m := set_q x (types m) (current_timers m) m in
          let '(w, cs) := Dispatch id (clock m) true w in
          m ← run_cmds cs m;
          ty ← types m !! id;
          let m := delete_Timer id (set_q (q m) (types m) (bump ty (-1) (current_timers m)) m) in
          '(m, w, log) ← Expire fuel m w;
          Some (m, w, id :: log)
      end
  end.

(** [expire_timers]: the number dispatched so far counts against the limit. *)
Definition expire_timers (fuel : nat) (network_time max_timer_expires current_dispatched : Z) (m : TimerMgr) (w : W) :=
  '(m, w, log) ← Advance fuel network_time (max_timer_expires - current_dispatched) None m w;
  Some (m, w, current_dispatched + num_expired m, log).

End Dispatch.

(** ** Timers as a finite map *)

(** The pending timers with their times and types. *)
Abbreviation Pending := (gmap nat (Z * nat)).

Definition of_type (ty : nat) (A : Pending) : Z := Z.of_nat (size (filter (fun p : nat * (Z * nat) => p.2.2 = ty) A)).

Record rep (m : TimerMgr) (A : Pending) : Prop := {
  rep_queue : represents (q m) (fst <$> A);
  rep_finite : forall id t ty, A !! id = Some (t, ty) -> - HUGE_VAL < t;
  rep_types : forall id t ty, A !! id = Some (t, ty) -> types m !! id = Some ty;
  rep_counts : forall ty, (ty < NUM_TIMER_TYPES)%nat -> current_timers m !! ty = Some (wrap 32 (of_type ty A)) }.

Lemma of_type_insert id t ty ty' A :
  A !! id = None -> of_type ty' (<[id := (t, ty)]> A) = of_type ty' A + (if decide (ty = ty') then 1 else 0).
Proof.
  intros N. unfold of_type. destruct (decide (ty = ty')) as [E|E].
  - rewrite map_filter_insert_True by exact E. rewrite map_size_insert_None; [lia|]. apply map_lookup_filter_None. auto.
  - rewrite map_filter_insert_False by exact E. rewrite delete_id by exact N. lia.
Qed.

Lemma of_type_delete id t ty ty' A :
  A !! id = Some (t, ty) -> of_type ty' (delete id A) = of_type ty' A - (if decide (ty = ty') then 1 else 0).
Proof.
  intros E. pose proof (of_type_insert id t ty ty' (delete id A) (lookup_delete_eq _ _)) as H.
  rewrite insert_delete_id in H by exact E. lia.
Qed.

Lemma bump_counts ty d A B cs :
  (forall ty', (ty' < NUM_TIMER_TYPES)%nat -> cs !! ty' = Some (wrap 32 (of_type ty' A))) ->
  (forall ty', of_type ty' B = of_type ty' A + (if decide (ty = ty') then d else 0)) ->
  forall ty', (ty' < NUM_TIMER_TYPES)%nat -> bump ty d cs !! ty' = Some (wrap 32 (of_type ty' B)).
Proof.
  intros H E ty' Ht. unfold bump. rewrite E. destruct (decide (ty = ty')) as [->|N].
  - rewrite list_lookup_alter_eq, (H ty' Ht). cbn [fmap option_fmap option_map]. unfold wrap. now rewrite Zplus_mod_idemp_l.
  - rewrite list_lookup_alter_ne by exact N. rewrite (H ty' Ht). now rewrite Z.add_0_r.
Qed.

Lemma fst_None (A : Pending) id : (fst <$> A) !! id = None <-> A !! id = None.
Proof. rewrite lookup_fmap. destruct (A !! id); split; intros; try discriminate; reflexivity. Qed.

Lemma fst_Some (A : Pending) id t : (fst <$> A) !! id = Some t <-> exists ty, A !! id = Some (t, ty).
Proof.
  rewrite lookup_fmap. destruct (A !! id) as [[t' ty]|]; cbn; split.
  - intros [= <-]. eauto.
  - intros [ty' [= <- <-]]. reflexivity.
  - discriminate.
  - intros [ty H]. discriminate.
Qed.

(** What a command does to the timers; [cur] is the timer that is being dispatched, whose
    object still exists. *)
Definition exec1 (cur : nat) (c : Cmd) (A : Pending) : option Pending :=
  match c with
  | CAdd id t ty => if decide (A !! id = None /\ id <> cur /\ - HUGE_VAL < t) then Some (<[id := (t, ty)]> A) else None
  | CCancel id => if decide (is_Some (A !! id)) then Some (delete id A) else None
  end.

Fixpoint exec (cur : nat) (cs : list Cmd) (A : Pending) : option Pending :=
  match cs with
  | [] => Some A
  | c :: cs => A ← exec1 cur c A; exec cur cs A
  end.

Lemma Add_rep id t ty m A :
  rep m A -> A !! id = None -> - HUGE_VAL < t -> exists m', Add id (new_Timer id t ty m) = Some m' /\ rep m' (<[id := (t, ty)]> A).
Proof.
  intros [R F T C] N Ht. unfold Add, new_Timer. cbn [types q set_q current_timers]. rewrite lookup_insert_eq. cbn [mbind option_bind].
  set (x := set_elts _ (q m)).
  assert (Rx : represents x (fst <$> A)).
  { apply represents_elts; [exact R|]. intros e t' H. apply lookup_insert_ne. intros <-. apply fst_None in N. congruence. }
  destruct (Add_represents x (fst <$> A) id (new_PQ_Element t) Rx) as (x' & -> & R').
  { apply lookup_insert_eq. } { now apply fst_None. }
  cbn [mbind option_bind]. eexists. split; [reflexivity|]. split; cbn [q types current_timers set_q].
  - rewrite fmap_insert. exact R'.
  - intros id' t' ty'. rewrite lookup_insert_Some. intros [[_ [= <- <-]]|[_ H]]; [exact Ht|eauto].
  - intros id' t' ty'. rewrite !lookup_insert_Some. intros [[-> [= <- <-]]|[Ne H]]; eauto.
  - apply (bump_counts ty 1 A); [exact C|]. intros ty'. now apply of_type_insert.
Qed.

Lemma represents_deleted x (A : Pending) id : represents x (fst <$> delete id A) -> represents (set_elts (delete id (elts x)) x) (fst <$> delete id A).
Proof.
  intros R. apply represents_elts; [exact R|]. intros e t H. apply lookup_delete_ne. intros <-. rewrite lookup_fmap, lookup_delete_eq in H. discriminate.
Qed.

Lemma delete_rep id m A : rep m A -> A !! id = None -> rep (delete_Timer id m) A.
Proof.
  intros [R F T C] N. split; cbn [delete_Timer q types current_timers set_q]; auto.
  - rewrite <- (delete_id A id N) in *. now apply represents_deleted.
  - intros id' t ty H. rewrite lookup_delete_ne by congruence. eauto.
Qed.

Lemma Cancel_rep id t ty m A : rep m A -> A !! id = Some (t, ty) -> exists m', Cancel id m = Some m' /\ rep m' (delete id A).
Proof.
  intros [R F T C] E. unfold Cancel. rewrite (T id t ty E). cbn [mbind option_bind].
  destruct (RemoveElement_represents (q m) (fst <$> A) id t R) as (x & -> & R').
  { apply fst_Some. eauto. } { intros e' t' H. apply fst_Some in H as [ty' H]. eauto. }
  cbn [mbind option_bind]. eexists. split; [reflexivity|]. apply delete_rep; [|apply lookup_delete_eq].
  rewrite <- fmap_delete in R'. split; cbn [q types current_timers set_q]; auto.
  - intros id' t' ty'. rewrite lookup_delete_Some. intros [_ H]. eauto.
  - intros id' t' ty'. rewrite lookup_delete_Some. intros [_ H]. eauto.
  - apply (bump_counts ty (-1) A); [exact C|]. intros ty'. rewrite (of_type_delete id t ty ty' A E). destruct (decide (ty = ty')); lia.
Qed.

Lemma run_cmds_rep cur cs : forall m A B, rep m A -> exec cur cs A = Some B -> exists m', run_cmds cs m = Some m' /\ rep m' B.
Proof.
  induction cs as [|c cs IH]; intros m A B R E; [injection E as <-; eauto|]. cbn [exec] in E.
  destruct (exec1 cur c A) as [A1|] eqn:E1; [|discriminate]. cbn [mbind option_bind] in E. cbn [run_cmds].
  assert (H : exists m1, run_cmd m c = Some m1 /\ rep m1 A1).
  { destruct c as [id t ty|id]; cbn [exec1] in E1; destruct (decide _) as [D|]; try discriminate; injection E1 as <-; cbn [run_cmd].
    - apply Add_rep; tauto.
    - destruct D as [[t ty] D]. now apply (Cancel_rep id t ty). }
  destruct H as (m1 & -> & R1). cbn [mbind option_bind]. now apply (IH m1 A1).
Qed.

(** A command changes other timers only where it says so, and never the one being dispatched. *)
Definition cancels (id : nat) (cs : list Cmd) : Prop := In (CCancel id) cs.
Definition later (new_t : Z) (cs : list Cmd) : Prop := forall id t ty, In (CAdd id t ty) cs -> new_t < t.

Lemma exec_cur cur cs : forall A B, exec cur cs A = Some B -> A !! cur = None -> B !! cur = None.
Proof.
  induction cs as [|c cs IH]; intros A B E N; [now injection E as <-|]. cbn [exec] in E.
  destruct (exec1 cur c A) as [A1|] eqn:E1; [|discriminate]. apply (IH A1 B E).
  destruct c as [id t ty|id]; cbn [exec1] in E1; destruct (decide _) as [D|]; try discriminate; injection E1 as <-.
  - rewrite lookup_insert_ne by tauto. exact N.
  - apply lookup_delete_None. auto.
Qed.

(** The due timers after the commands are those from before, less the cancelled ones. *)
Lemma exec_due cur cs new_t : forall A B id t ty,
  exec cur cs A = Some B -> later new_t cs -> t <= new_t ->
  (B !! id = Some (t, ty) -> A !! id = Some (t, ty)) /\ (A !! id = Some (t, ty) -> B !! id = Some (t, ty) \/ cancels id cs).
Proof.
  induction cs as [|c cs IH]; intros A B id t ty E Hl Ht; [injection E as <-; auto|]. cbn [exec] in E.
  destruct (exec1 cur c A) as [A1|] eqn:E1; [|discriminate].
  destruct (IH A1 B id t ty E ltac:(intros i u y I; apply (Hl i u y); now right) Ht) as [H1 H2].
  assert (H : (A1 !! id = Some (t, ty) -> A !! id = Some (t, ty)) /\ (A !! id = Some (t, ty) -> A1 !! id = Some (t, ty) \/ c = CCancel id)).
  { destruct c as [i u y|i]; cbn [exec1] in E1; destruct (decide _) as [D|]; try discriminate; injection E1 as <-.
    - assert (new_t < u) by (apply (Hl i u y); now left). destruct (decide (i = id)) as [->|Ne].
      + rewrite lookup_insert_eq. split; [intros [= -> ->]; lia|]. intros H'. destruct D as [D _]. congruence.
      + rewrite lookup_insert_ne by exact Ne. auto.
    - destruct (decide (i = id)) as [->|Ne]; [rewrite lookup_delete_eq; split; [discriminate|auto]|]. rewrite lookup_delete_ne by exact Ne. auto. }
  split; [intros HB; apply H; auto|]. intros HA. destruct (proj2 H HA) as [HA1| ->]; [|right; now left].
  destruct (H2 HA1); [auto|right; now right].
Qed.

(** The timer that is next, and the queue without it. *)
Lemma Top_rep m A :
  rep m A ->
  A = ∅ /\ Top (q m) = Some None \/
  exists id x ty x', Top (q m) = Some (Some id) /\ elts (q m) !! id = Some x /\ A !! id = Some (time x, ty) /\
    (forall id' t' ty', A !! id' = Some (t', ty') -> time x <= t') /\ Remove (q m) = Some (x', Some id) /\
    forall m', types m' = types m -> current_timers m' = current_timers m ->
               rep (set_q x' (types m') (bump ty (-1) (current_timers m')) m') (delete id A).
Proof.
  intros [R F T C]. destruct (decide (A = ∅)) as [->|NE].
  - left. split; [reflexivity|]. rewrite fmap_empty in R. now apply Remove_empty.
  - right. destruct (Remove_represents (q m) (fst <$> A) R) as (x' & id & t & Et & Er & M & (x & X & <-) & Min & R').
    { intros H. apply fmap_empty_inv in H. congruence. }
    apply fst_Some in M as [ty M]. exists id, x, ty, x'. split; [exact Et|]. split; [exact X|]. split; [exact M|].
    split; [intros id' t' ty' H; apply (Min id'), fst_Some; eauto|]. split; [exact Er|].
    intros m' E1 E2. rewrite <- fmap_delete in R'. split; cbn [q types current_timers set_q]; rewrite ?E1, ?E2; [exact R'| | |].
    + intros id' t' ty'. rewrite lookup_delete_Some. intros [_ H]. eauto.
    + intros id' t' ty'. rewrite lookup_delete_Some. intros [_ H]. eauto.
    + apply (bump_counts ty (-1) A); [exact C|]. intros ty'. rewrite (of_type_delete id _ ty ty' A M). destruct (decide (ty = ty')); lia.
Qed.

(** ** Advancing the clock *)

Section Advancing.

Context {W : Type} (Dispatch : nat -> Z -> bool -> W -> W * list Cmd) (new_t max : Z).

(** The timers as the specification sees them: the earliest timer is dispatched until no
    timer is due or, unless [max] is 0, [max] of them were dispatched; [n] is their number so
    far.  The log has the timers in the order they were dispatched, with the commands of each. *)
Inductive fires : Z -> Pending -> W -> list (nat * Z * list Cmd) -> Pending -> W -> Prop :=
| fires_done n A w : (forall id t ty, A !! id = Some (t, ty) -> new_t < t) -> fires n A w [] A w
| fires_limit n A w : max <> 0 -> max <= n -> fires n A w [] A w
| fires_one n A w id t ty w1 cs A1 log A2 w2 :
    n < max \/ max = 0 ->
    A !! id = Some (t, ty) -> t <= new_t -> (forall id' t' ty', A !! id' = Some (t', ty') -> t <= t') ->
    Dispatch id new_t false w = (w1, cs) -> exec id cs (delete id A) = Some A1 ->
    fires (n + 1) A1 w1 log A2 w2 -> fires n A w ((id, t, cs) :: log) A2 w2.

(** The program as a whole keeps to the rules: in every state that can occur a dispatched
    timer adds only new timers, which are not due yet, and cancels only pending ones. *)
Context (I : Pending -> W -> Prop).
Hypothesis obeys : forall A w id t ty w1 cs,
  I A w -> A !! id = Some (t, ty) -> t <= new_t -> Dispatch id new_t false w = (w1, cs) ->
  later new_t cs /\ exists A1, exec id cs (delete id A) = Some A1 /\ I A1 w1.

Definition due (A : Pending) : gset nat := dom (filter (fun p : nat * (Z * nat) => p.2.1 <= new_t) A).

Lemma due_spec A id : id ∈ due A <-> exists t ty, A !! id = Some (t, ty) /\ t <= new_t.
Proof.
  unfold due. rewrite elem_of_dom. split.
  - intros [[t ty] H]. apply map_lookup_filter_Some in H as [H1 H2]. eauto.
  - intros (t & ty & H1 & H2). exists (t, ty). apply map_lookup_filter_Some. auto.
Qed.

Lemma due_exec A B id t ty cs :
  A !! id = Some (t, ty) -> t <= new_t -> later new_t cs -> exec id cs (delete id A) = Some B -> due B ⊆ due A ∖ {[id]}.
Proof.
  intros E Ht Hl Ex i Hi. apply due_spec in Hi as (u & y & Hu & Hle). apply (proj1 (exec_due id cs new_t _ B i u y Ex Hl Hle)) in Hu.
  apply lookup_delete_Some in Hu as [Ne Hu]. apply elem_of_difference. split; [apply due_spec; eauto|]. intros H. apply elem_of_singleton in H. congruence.
Qed.

Lemma run_cmds_num : forall cs m m', run_cmds cs m = Some m' -> num_expired m' = num_expired m.
Proof.
  clear. induction cs as [|c cs IH]; intros m m' E; [now injection E as <-|]. cbn [run_cmds] in E.
  destruct (run_cmd m c) as [m1|] eqn:E1; [|discriminate]. rewrite (IH m1 m' E). destruct c; cbn [run_cmd] in E1; unfold Add, Cancel in E1;
  repeat match type of E1 with context [mbind _ ?x] => destruct x; cbn [mbind option_bind] in E1; [|discriminate] end.
  - now injection E1 as <-.
  - destruct r; [now injection E1 as <-|discriminate..].
Qed.

Lemma advance_fires fuel : forall A m w,
  (size (due A) <= fuel)%nat -> rep m A -> I A w ->
  exists m' w' A' log, advance_loop Dispatch fuel new_t max m w = Some (m', w', map fst log) /\ rep m' A' /\
    num_expired m' = num_expired m + Z.of_nat (length log) /\ fires (num_expired m) A w log A' w'.
Proof.
  induction fuel as [|fuel IH]; intros A m w Hs R HI; cbn [advance_loop];
  (assert (Stop : fires (num_expired m) A w [] A w ->
     exists m' w' A' log, Some (m, w, []) = Some (m', w', map fst log) /\ rep m' A' /\ num_expired m' = num_expired m + Z.of_nat (length log) /\ fires (num_expired m) A w log A' w')
     by (intros H; exists m, w, A, []; repeat split; auto; [apply R..|cbn; lia]));
  (destruct (Top_rep m A R) as [[-> ->]|(id & x & ty & x' & -> & X & M & Min & Er & R')];
   [apply Stop, fires_done; intros id t ty; rewrite lookup_empty; discriminate|]);
  cbn [mbind option_bind]; rewrite X; cbn [mbind option_bind];
  (destruct ((num_expired m <? max) || (max =? 0)) eqn:Lim; cbn [andb];
   [|apply orb_false_iff in Lim as [L1 L2]; apply Z.ltb_ge in L1; apply Z.eqb_neq in L2; apply Stop; now apply fires_limit]);
  (destruct (Z.leb_spec (time x) new_t) as [Hd|Hd]; [|apply Stop, fires_done; intros id' t' ty' H; apply Min in H; lia]);
  (assert (Hin : id ∈ due A) by (apply due_spec; eauto)).
  - exfalso. assert (E : size (due A) = 0%nat) by lia. apply size_empty_inv in E. set_solver.
  - rewrite (rep_types _ _ R id _ _ M), Er. cbn [mbind option_bind].
    set (m1 := set_q x' _ _ _). destruct (Dispatch id new_t false w) as [w1 cs] eqn:Ed.
    destruct (obeys A w id (time x) ty w1 cs HI M Hd Ed) as (Hl & A1 & Ex & HI1).
    assert (R1 : rep m1 (delete id A)) by (destruct (R' (set_progress (time x) (num_expired m) m) eq_refl eq_refl); now split).
    destruct (run_cmds_rep id cs m1 _ A1 R1 Ex) as (m2 & Er2 & R2). rewrite Er2. cbn [mbind option_bind]. cbv zeta.
    pose proof (delete_rep id m2 A1 R2 (exec_cur id cs _ _ Ex (lookup_delete_eq _ _))) as R3.
    assert (Hsz : (size (due A1) <= fuel)%nat).
    { pose proof (subseteq_size _ _ (due_exec A A1 id _ ty cs M Hd Hl Ex)) as H.
      rewrite size_difference in H by set_solver. rewrite size_singleton in H. lia. }
    set (m3 := set_progress _ _ _). assert (R4 : rep m3 A1) by (destruct R3; now split).
    assert (N3 : num_expired m3 = num_expired m + 1) by (apply run_cmds_num in Er2; unfold m3; cbn in *; lia).
    destruct (IH A1 m3 w1 Hsz R4 HI1) as (m' & w' & A' & log & -> & R5 & N5 & Fi). rewrite N3 in Fi, N5.
    cbn [mbind option_bind]. exists m', w', A', ((id, time x, cs) :: log). split; [reflexivity|]. split; [exact R5|].
    split; [cbn [length]; lia|]. apply (fires_one _ A w id (time x) ty w1 cs A1); auto.
    apply orb_true_iff in Lim as [L|L]; [left; now apply Z.ltb_lt|right; now apply Z.eqb_eq].
Qed.

(** ** What firing means *)

Lemma fires_count n A w log A' w' :
  fires n A w log A' w' ->
  (max <> 0 -> n + Z.of_nat (length log) <= Z.max n max) /\
  (max = 0 \/ n + Z.of_nat (length log) < max -> forall id t ty, A' !! id = Some (t, ty) -> new_t < t).
Proof.
  clear obeys. induction 1 as [n A w Hn|n A w H0 Hm|n A w id t ty w1 cs A1 log A2 w2 Hlim M Ht Min Ed Ex _ [IH1 IH2]]; cbn [length].
  - split; [lia|auto].
  - split; [lia|]. intros [H|H]; lia.
  - split; [intros H; specialize (IH1 H); lia|]. intros H. apply IH2. lia.
Qed.

(** The timers that are due and left over were due from the start. *)
Lemma fires_left n A w log A' w' :
  fires n A w log A' w' -> I A w -> forall id t ty, A' !! id = Some (t, ty) -> t <= new_t -> A !! id = Some (t, ty).
Proof.
  induction 1 as [n A w Hn|n A w H0 Hm|n A w id t ty w1 cs A1 log A2 w2 Hlim M Ht Min Ed Ex _ IH]; intros HI i u y Hi Hu; auto.
  destruct (obeys A w id t ty w1 cs HI M Ht Ed) as (Hl & A1' & Ex' & HI1). rewrite Ex in Ex'. injection Ex' as <-.
  apply (proj1 (exec_due id cs new_t _ A1 i u y Ex Hl Hu)) in IH; auto. now apply lookup_delete_Some in IH.
Qed.

Lemma fires_fired n A w log A' w' :
  fires n A w log A' w' -> I A w ->
  (forall id t cs, In (id, t, cs) log -> exists ty, A !! id = Some (t, ty) /\ t <= new_t) /\ Sorted Z.le (map (fun e => e.1.2) log) /\
  NoDup (map (fun e => e.1.1) log) /\
  (forall id t ty, A !! id = Some (t, ty) -> t <= new_t ->
     (exists cs, In (id, t, cs) log) \/ (exists e, In e log /\ cancels id e.2) \/ A' !! id = Some (t, ty)) /\
  (forall id t ty e, A' !! id = Some (t, ty) -> In e log -> t <= new_t -> e.1.2 <= t).
Proof.
  induction 1 as [n A w Hn|n A w H0 Hm|n A w id t ty w1 cs A1 log A2 w2 Hlim M Ht Min Ed Ex Hf IH]; intros HI.
  1,2: split; [intros id t cs []|]; split; [constructor|]; split; [constructor|]; split; [auto|intros id t ty e _ []].
  destruct (obeys A w id t ty w1 cs HI M Ht Ed) as (Hl & A1' & Ex' & HI1). rewrite Ex in Ex'. injection Ex' as <-.
  destruct (IH HI1) as (F1 & F2 & F3 & F4 & F5).
  assert (F1' : forall i u c, In (i, u, c) log -> i <> id /\ exists y, A !! i = Some (u, y) /\ u <= new_t).
  { intros i u c Hin. destruct (F1 i u c Hin) as (y & Hy & Hu). apply (proj1 (exec_due id cs new_t _ A1 i u y Ex Hl Hu)) in Hy.
    apply lookup_delete_Some in Hy as [Ne Hy]. eauto. }
  split; [|split; [|split; [|split]]].
  - intros i u c [[= <- <- <-]|Hin]; [eauto|]. now apply (F1' i u c).
  - cbn [map]. constructor; [exact F2|]. destruct log as [|[[i u] c] log]; cbn; constructor. cbn.
    destruct (F1' i u c ltac:(now left)) as (_ & y & Hy & _). eauto.
  - cbn [map]. apply NoDup_cons. split; [|exact F3]. intros Hin. apply list_elem_of_In, in_map_iff in Hin as ([[i u] c] & E & Hin). cbn in E.
    apply F1' in Hin as [Ne _]. congruence.
  - intros i u y Hy Hu. destruct (decide (i = id)) as [->|Ne]; [left; exists cs; left; congruence|].
    destruct (proj2 (exec_due id cs new_t (delete id A) A1 i u y Ex Hl Hu)) as [HA1|Hc]; [rewrite lookup_delete_ne by auto; exact Hy| |].
    + destruct (F4 i u y HA1 Hu) as [[c Hc]|[(e & He & Hc)|Hc]]; [left; exists c; now right|right; left; exists e; split; [now right|exact Hc]|auto].
    + right. left. exists (id, t, cs). split; [now left|exact Hc].
  - intros i u y e Hi [<-|He] Hu; [|now apply (F5 i u y e)]. cbn.
    apply (fires_left _ A1 w1 log A2 w2 Hf HI1) in Hi; [|exact Hu]. apply (proj1 (exec_due id cs new_t _ A1 i u y Ex Hl Hu)) in Hi.
    apply lookup_delete_Some in Hi as [_ Hi]. eauto.
Qed.

End Advancing.

(** C18: Advancing the clock dispatches timers that are due, each once and in the order of
    their times, whatever timers they add for later and whichever they cancel, up to the limit
    [max_expire] of the call, where 0 is none.  A due timer that is not dispatched was
    cancelled by one that was or, if the limit was reached, is still in the queue and no
    earlier than those dispatched; if it was not reached no timer is due afterwards.  The
    number that is reported is that of the timers dispatched, the counts per type are right,
    and no removal fails. *)
Theorem timers_fire {W : Type} (Dispatch : nat -> Z -> bool -> W -> W * list Cmd) new_t max_expire (I : Pending -> W -> Prop) m A w :
  (forall A w id t ty w1 cs, I A w -> A !! id = Some (t, ty) -> t <= new_t -> Dispatch id new_t false w = (w1, cs) ->
     later new_t cs /\ exists A1, exec id cs (delete id A) = Some A1 /\ I A1 w1) ->
  rep m A -> I A w ->
  exists m' w' A' log,
    Advance Dispatch (size (due new_t A)) new_t max_expire None m w = Some (m', w', map fst log) /\ rep m' A' /\
    num_expired m' = Z.of_nat (length log) /\ (max_expire <> 0 -> Z.of_nat (length log) <= Z.max 0 max_expire) /\
    (max_expire = 0 \/ Z.of_nat (length log) < max_expire -> forall id t ty, A' !! id = Some (t, ty) -> new_t < t) /\
    (forall id t cs, In (id, t, cs) log -> exists ty, A !! id = Some (t, ty) /\ t <= new_t) /\
    Sorted Z.le (map (fun e => e.1.2) log) /\ NoDup (map (fun e => e.1.1) log) /\
    (forall id t ty, A !! id = Some (t, ty) -> t <= new_t ->
       (exists cs, In (id, t, cs) log) \/ (exists e, In e log /\ cancels id e.2) \/ A' !! id = Some (t, ty)) /\
    (forall id t ty e, A' !! id = Some (t, ty) -> In e log -> t <= new_t -> e.1.2 <= t).
Proof.
  intros Ob R HI. unfold Advance. cbv zeta. set (m0 := {| q := _ |}). assert (R0 : rep m0 A) by (destruct R; now split).
  destruct (advance_fires Dispatch new_t max_expire I Ob (size (due new_t A)) A m0 w ltac:(lia) R0 HI) as (m' & w' & A' & log & E & R' & N & Fi).
  change (num_expired m0) with 0 in *. destruct (fires_count _ _ _ _ _ _ _ _ _ Fi) as [C1 C2].
  exists m', w', A', log. split; [exact E|]. split; [exact R'|]. split; [exact N|]. split; [exact C1|]. split; [exact C2|].
  eapply fires_fired; eauto.
Qed.

(** When as many timers were dispatched as are allowed, the limit that is passed on is 0,
    which means none. *)
Lemma limit_reached_is_none {W : Type} (Dispatch : nat -> Z -> bool -> W -> W * list Cmd) fuel t max m (w : W) :
  expire_timers Dispatch fuel t max max m w =
  '(m, w, log) ← Advance Dispatch fuel t 0 None m w; Some (m, w, max + num_expired m, log).
Proof. unfold expire_timers. now rewrite Z.sub_diag. Qed.

(** Three timers, of which two are due; the limit is one. *)
Definition demo_dispatch (id : nat) (t : Z) (is_expire : bool) (w : list nat) : list nat * list Cmd :=
  (id :: w, if decide (id = 1%nat) then [CCancel 3] else []).

Definition demo_timers : option TimerMgr :=
  run_cmds [CAdd 1 5 20; CAdd 2 3 21; CAdd 3 50 20] new_TimerMgr.

Lemma new_TimerMgr_rep : rep new_TimerMgr ∅.
Proof.
  split; cbn [new_TimerMgr q types current_timers].
  - rewrite fmap_empty. split; [apply ok_new; lia|]. intros e t. rewrite lookup_empty. split; [discriminate|]. intros (i & x & Hi & _). cbn in Hi. lia.
  - intros id t ty. rewrite lookup_empty. discriminate.
  - intros id t ty. rewrite lookup_empty. discriminate.
  - intros ty Hty. unfold of_type. rewrite map_filter_empty, map_size_empty. unfold NUM_TIMER_TYPES in *.
    do 27 (destruct ty as [|ty]; [reflexivity|]). lia.
Qed.

Lemma timers_fire_witness :
  exists m m' w', demo_timers = Some m /\ Advance demo_dispatch 2 10 1 None m [] = Some (m', w', [(2%nat, 3)]) /\ num_expired m' = 1.
Proof.
  pose (A := {[3%nat := (50, 20%nat); 2%nat := (3, 21%nat); 1%nat := (5, 20%nat)]} : Pending).
  assert (H : exists m, demo_timers = Some m /\ rep m A).
  { apply (run_cmds_rep 0 [CAdd 1 5 20; CAdd 2 3 21; CAdd 3 50 20] new_TimerMgr ∅ A new_TimerMgr_rep).
    unfold exec, exec1. assert (0 < HUGE_VAL) by (apply Z.pow_pos_nonneg; lia).
    rewrite !decide_True by (repeat split; (lia || reflexivity)). reflexivity. }
  destruct H as (m & Em & R). exists m.
  destruct (timers_fire demo_dispatch 10 1 (fun A _ => (is_Some (A !! 1%nat) -> is_Some (A !! 3%nat)) /\ forall t ty, A !! 3%nat = Some (t, ty) -> 10 < t) m A [])
    as (m' & w' & A' & log & E & _ & N & _).
  - intros B w id t ty w1 cs [H1 H3] HB Ht [= <- <-]. destruct (decide (id = 1%nat)) as [->|N].
    + split; [intros i u y [|[]]; discriminate|]. exists (delete 3%nat (delete 1%nat B)). split.
      * cbn. rewrite decide_True; [reflexivity|]. rewrite lookup_delete_ne by discriminate. apply H1. eauto.
      * split; [rewrite lookup_delete_ne, lookup_delete_eq by discriminate; intros [? ?]; discriminate|].
        intros t' ty'. rewrite lookup_delete_eq. discriminate.
    + split; [intros i u y []|]. exists (delete id B). split; [reflexivity|].
      assert (id <> 3%nat) by (intros ->; apply H3 in HB; lia). rewrite !lookup_delete_ne by auto. auto.
  - exact R.
  - split; [eauto|]. intros t ty H. assert (E : A !! 3%nat = Some (50, 20%nat)) by reflexivity. rewrite E in H. injection H as <- <-. lia.
  - exists m', w'. split; [exact Em|]. change (size (due 10 A)) with 2%nat in E.
    assert (P : match demo_timers with Some m => option_map snd (Advance demo_dispatch 2 10 1 None m []) | None => None end
                = Some [(2%nat, 3)]) by (vm_compute; reflexivity).
    rewrite Em, E in P. cbn [option_map snd] in P. injection P as P. rewrite P in E. split; [exact E|].
    apply (f_equal (@length _)) in P. rewrite length_map in P. rewrite N, P. reflexivity.
Defined.

End TM.
