(* ===== verification/H3.v ===== *)
(** * The hash of short keys ([src/H3.h], [HashKey::HashBytes] of [src/Hash.cc])

    The dictionaries' keys are hashed by the H3 family: a table of random numbers, one for each
    bit of the key, and the exclusive or of those whose bit is set; the table is kept per byte,
    and the loop over the bytes is unrolled.  [random()] and the keyed MD5 of long keys are
    parameters.  [None] is an access outside of the table or of the key. *)
From S2P Require Import Prelude Bytes CLib.
From Stdlib Require Import ZArith Lia List Bool.
Import ListNotations.
Open Scope Z_scope.

Definition UHASH_KEY_SIZE : nat := 32.

(** ** The tables *)

Section Tables.

(** The results of the calls of [random()]. *)
Context (random : nat -> Z).

(** Sixteen bits per call, [sizeof(hash_t) / 2] calls. *)
Fixpoint random_bits (calls i : nat) (acc : Z) : Z :=
  match calls with
  | O => acc
  | S n => random_bits n (S i) (wrap 32 (Z.lor (Z.shiftl acc 16) (Z.land (random i) 0xFFFF)))
  end.

Definition bit_lookup : list Z := map (fun bit => random_bits 2 (2 * bit) 0) (seq 0 (UHASH_KEY_SIZE * 8)).

End Tables.

(** The inner loop over the bits of a value. *)
Definition byte_entry (bits : list Z) (byte : nat) (val : Z) : Z :=
  fold_left (fun acc bit => if negb (Z.land val (Z.shiftl 1 (Z.of_nat bit)) =? 0) then Z.lxor acc (nth (byte * 8 + bit) bits 0) else acc) (seq 0 8) 0.

Definition byte_lookup (bits : list Z) : list (list Z) :=
  map (fun byte => map (fun val => byte_entry bits byte (Z.of_nat val)) (seq 0 256)) (seq 0 UHASH_KEY_SIZE).

(** ** The hash *)

(** [result ^= byte_lookup[offset++][*p++]], [k] times. *)
Fixpoint lookups (tab : list (list Z)) (k : nat) (result : Z) (offset : nat) (p : list Z) : option (Z * nat * list Z) :=
  match k with
  | O => Some (result, offset, p)
  | S k =>
      match p, nth_error tab offset with
      | b :: p, Some row => match nth_error row (Z.to_nat b) with
                            | Some x => lookups tab k (Z.lxor result x) (S offset) p
                            | None => None
                            end
      | _, _ => None
      end
  end.

(** The rounds of eight after the first, [while ( --n > 0 )]. *)
Fixpoint rounds (tab : list (list Z)) (n : nat) (result : Z) (offset : nat) (p : list Z) : option Z :=
  match n with
  | O => Some result
  | S n => match lookups tab 8 result offset p with Some (result, offset, p) => rounds tab n result offset p | None => None end
  end.

(** [operator()]: the switch enters the first round in the middle. *)
Definition h3_apply (tab : list (list Z)) (data : list Z) (size : nat) (offset : nat) : option Z :=
  let n := ((size + 7) / 8)%nat in
  let first := (if size mod 8 =? 0 then 8 else size mod 8)%nat in
  match lookups tab first 0 offset data with
  | Some (result, offset, p) => rounds tab (n - 1) result offset p
  | None => None
  end.

Definition HashBytes (tab : list (list Z)) (hmac_md5 : list Z -> Z) (bytes : list Z) : option Z :=
  if (length bytes <=? UHASH_KEY_SIZE)%nat then if (length bytes =? 0)%nat then Some 0 else h3_apply tab bytes (length bytes) 0
  else Some (hmac_md5 bytes).

(** ** The definition by bits *)

Definition xors (l : list Z) : Z := fold_right Z.lxor 0 l.

Definition key_bit (x : list Z) (j : nat) : bool := Z.testbit (nth (j / 8) x 0) (Z.of_nat (j mod 8)).

(** The exclusive or of the entries whose bit is set in the key. *)
Definition h3 (bits : list Z) (x : list Z) : Z := xors (map (fun j => if key_bit x j then nth j bits 0 else 0) (seq 0 (UHASH_KEY_SIZE * 8))).

Lemma xors_cons v l : xors (v :: l) = Z.lxor v (xors l).
Proof. reflexivity. Qed.

Lemma xors_app a b : xors (a ++ b) = Z.lxor (xors a) (xors b).
Proof. induction a as [|x a IH]; [now rewrite Z.lxor_0_l|]. unfold xors in *. cbn. now rewrite IH, Z.lxor_assoc. Qed.

Lemma xors_zero {A} (f : A -> Z) l : (forall j, In j l -> f j = 0) -> xors (map f l) = 0.
Proof. induction l as [|j l IH]; intros H; [reflexivity|]. cbn. rewrite (H j) by now left. rewrite Z.lxor_0_l. apply IH. intros i Hi. apply H. now right. Qed.

Lemma bit_set v b : negb (Z.land v (Z.shiftl 1 (Z.of_nat b)) =? 0) = Z.testbit v (Z.of_nat b).
Proof.
  rewrite Z.shiftl_1_l. destruct (Z.testbit v (Z.of_nat b)) eqn:E.
  - apply negb_true_iff, Z.eqb_neq. intros H. apply (f_equal (fun z => Z.testbit z (Z.of_nat b))) in H.
    rewrite Z.land_spec, E, Z.pow2_bits_true, Z.bits_0 in H by lia. discriminate.
  - apply negb_false_iff, Z.eqb_eq. apply Z.bits_inj'. intros n Hn. rewrite Z.land_spec, Z.bits_0, Z.pow2_bits_eqb by lia.
    destruct (Z.eqb_spec (Z.of_nat b) n) as [<-|]; [now rewrite E|apply andb_false_r].
Qed.

Lemma key_bit_at x o b : (b < 8)%nat -> key_bit x (o * 8 + b) = Z.testbit (nth o x 0) (Z.of_nat b).
Proof.
  intros Hb. unfold key_bit. rewrite (Nat.div_add_l o 8 b), (Nat.div_small b 8), Nat.add_0_r by lia.
  now rewrite Nat.add_comm, Nat.Div0.mod_add, (Nat.mod_small b 8) by lia.
Qed.

(** An entry of the table is the part of one byte. *)
Lemma byte_entry_bits bits x i : byte_entry bits i (nth i x 0) = xors (map (fun j => if key_bit x j then nth j bits 0 else 0) (seq (i * 8) 8)).
Proof.
  assert (L : forall (c : bool) acc n, (if c then Z.lxor acc n else acc) = Z.lxor acc (if c then n else 0)) by (intros []; intros; [reflexivity|now rewrite Z.lxor_0_r]).
  assert (S : seq (i * 8) 8 = map (fun b => i * 8 + b)%nat (seq 0 8)).
  { apply nth_ext with 0%nat 0%nat; [now rewrite length_map, !length_seq|]. intros n Hn. rewrite length_seq in Hn. rewrite seq_nth by lia.
    do 8 (destruct n as [|n]; [reflexivity|]). lia. }
  rewrite S, map_map.
  unfold byte_entry. cbn [seq fold_left map]. rewrite !bit_set, !L, !key_bit_at by lia. unfold xors. cbn [fold_right]. now rewrite Z.lxor_0_l, Z.lxor_0_r, !Z.lxor_assoc.
Qed.

Section Loop.

Context (bits x : list Z) (Hx : Forall is_byte x) (Lx : (length x <= UHASH_KEY_SIZE)%nat).

Abbreviation part := (fun j => if key_bit x j then nth j bits 0 else 0).

(** The result after the first [o] bytes. *)
Abbreviation hashed_to o := (xors (map part (seq 0 (o * 8)))).

Lemma row_lookup o b : (o < UHASH_KEY_SIZE)%nat -> is_byte b ->
  exists row, nth_error (byte_lookup bits) o = Some row /\ nth_error row (Z.to_nat b) = Some (byte_entry bits o b).
Proof.
  intros Ho Hb. unfold is_byte in Hb. exists (map (fun val => byte_entry bits o (Z.of_nat val)) (seq 0 256)). unfold byte_lookup.
  rewrite nth_error_map, nth_error_seq, (proj2 (Nat.ltb_lt _ _)) by lia. split; [reflexivity|].
  rewrite nth_error_map, nth_error_seq, (proj2 (Nat.ltb_lt _ _)) by lia. cbn [option_map]. do 2 f_equal. lia.
Qed.

Lemma hashed_next o : Z.lxor (hashed_to o) (byte_entry bits o (nth o x 0)) = hashed_to (S o).
Proof. rewrite byte_entry_bits, <- xors_app, <- map_app, <- seq_app. do 2 f_equal. f_equal. lia. Qed.

Lemma lookups_ok k o : (o + k <= length x)%nat ->
  lookups (byte_lookup bits) k (hashed_to o) o (skipn o x) = Some (hashed_to (o + k), (o + k)%nat, skipn (o + k) x).
Proof.
  revert o. induction k as [|k IH]; intros o H; [rewrite Nat.add_0_r; reflexivity|]. cbn [lookups].
  assert (E : skipn o x = nth o x 0 :: skipn (S o) x).
  { clear -H. revert o H. induction x as [|a l IHl]; intros [|o] H; cbn in *; try lia; [reflexivity|]. apply IHl. lia. }
  rewrite E. assert (Hb : is_byte (nth o x 0)) by (rewrite Forall_forall in Hx; apply Hx, nth_In; lia).
  destruct (row_lookup o (nth o x 0)) as (row & -> & ->); [lia|exact Hb|]. rewrite hashed_next, IH by lia. now replace (S o + k)%nat with (o + S k)%nat by lia.
Qed.

Lemma rounds_ok n o : (o + 8 * n <= length x)%nat -> rounds (byte_lookup bits) n (hashed_to o) o (skipn o x) = Some (hashed_to (o + 8 * n)).
Proof.
  revert o. induction n as [|n IH]; intros o H; [now rewrite Nat.mul_0_r, Nat.add_0_r|]. cbn [rounds]. rewrite lookups_ok by lia. rewrite IH by lia.
  now replace (o + 8 + 8 * n)%nat with (o + 8 * S n)%nat by lia.
Qed.

(** The bits after the end of the key are not set. *)
Lemma hashed_all : hashed_to (length x) = h3 bits x.
Proof.
  unfold h3. assert (E : (UHASH_KEY_SIZE * 8 = length x * 8 + (UHASH_KEY_SIZE * 8 - length x * 8))%nat) by lia. rewrite E, seq_app, map_app, xors_app.
  rewrite (xors_zero _ (seq (0 + length x * 8) _)); [now rewrite Z.lxor_0_r|]. intros j Hj. apply in_seq in Hj. unfold key_bit. rewrite nth_overflow; [now rewrite Z.bits_0|].
  apply Nat.div_le_lower_bound; lia.
Qed.

Lemma h3_apply_ok : x <> [] -> h3_apply (byte_lookup bits) x (length x) 0 = Some (h3 bits x).
Proof.
  intros N. assert (0 < length x)%nat by (destruct x; [easy|cbn; lia]). unfold h3_apply.
  set (first := (if (length x mod 8 =? 0)%nat then 8 else length x mod 8)%nat).
  assert (F : (first + 8 * ((length x + 7) / 8 - 1) = length x)%nat).
  { pose proof (Nat.div_mod_eq (length x) 8). pose proof (Nat.mod_upper_bound (length x) 8 ltac:(lia)).
    unfold first. destruct (Nat.eqb_spec (length x mod 8) 0) as [E|E].
    - assert (Q : ((length x + 7) / 8 = length x / 8)%nat) by (symmetry; apply (Nat.div_unique (length x + 7) 8 (length x / 8) 7); lia). rewrite Q. lia.
    - assert (Q : ((length x + 7) / 8 = length x / 8 + 1)%nat) by (symmetry; apply (Nat.div_unique (length x + 7) 8 (length x / 8 + 1) (length x mod 8 - 1)); lia). rewrite Q. lia. }
  pose proof (lookups_ok first 0 ltac:(lia)) as E. cbn [Nat.mul seq map xors fold_right skipn Nat.add] in E. rewrite E. rewrite rounds_ok by lia. rewrite F. now rewrite hashed_all.
Qed.

End Loop.

Lemma HashBytes_ok bits md5 x : Forall is_byte x -> (length x <= UHASH_KEY_SIZE)%nat -> HashBytes (byte_lookup bits) md5 x = Some (h3 bits x).
Proof.
  intros B L. unfold HashBytes. rewrite (proj2 (Nat.leb_le _ _) L). destruct (Nat.eqb_spec (length x) 0) as [E|E].
  - apply length_zero_iff_nil in E as ->. reflexivity.
  - apply h3_apply_ok; auto. intros ->. now apply E.
Qed.

(** ** Universality *)

Definition put (i : nat) (v : Z) (bits : list Z) : list Z := firstn i bits ++ v :: skipn (S i) bits.

Lemma nth_put i j v bits : (i < length bits)%nat -> nth j (put i v bits) 0 = if (j =? i)%nat then v else nth j bits 0.
Proof.
  intros H. unfold put. destruct (Nat.eqb_spec j i) as [->|N].
  - rewrite app_nth2, length_firstn, Nat.min_l, Nat.sub_diag by (rewrite ?length_firstn; lia). reflexivity.
  - destruct (Nat.lt_ge_cases j i) as [L|L].
    + rewrite app_nth1 by (rewrite length_firstn; lia). rewrite <- (firstn_skipn i bits) at 2. now rewrite app_nth1 by (rewrite length_firstn; lia).
    + rewrite app_nth2, length_firstn, Nat.min_l by (rewrite ?length_firstn; lia). destruct (j - i)%nat as [|m] eqn:E; [lia|]. cbn [nth].
      rewrite <- (firstn_skipn (S i) bits) at 2. rewrite app_nth2, length_firstn, Nat.min_l by (rewrite ?length_firstn; lia). f_equal. lia.
Qed.

Lemma xors_bound l : Forall (fun v => 0 <= v < 2 ^ 32) l -> 0 <= xors l < 2 ^ 32.
Proof.
  induction 1 as [|v l Hv Hl IH]; [cbn; lia|]. change (xors (v :: l)) with (Z.lxor v (xors l)). split; [apply Z.lxor_nonneg; lia|].
  destruct (Z.eq_dec (Z.lxor v (xors l)) 0) as [->|N]; [lia|]. apply Z.log2_lt_cancel. rewrite Z.log2_pow2 by lia.
  assert (forall u, 0 <= u < 2 ^ 32 -> Z.log2 u < 32) as LG by (intros u Hu; destruct (Z.eq_dec u 0) as [->|]; [cbn; lia|apply Z.log2_lt_pow2; lia]).
  pose proof (Z.log2_lxor v (xors l) ltac:(lia) ltac:(lia)). pose proof (LG v Hv). pose proof (LG (xors l) IH). lia.
Qed.

(** With the entry of one bit singled out. *)
Lemma h3_put bits x i v : (i < length bits)%nat -> (i < UHASH_KEY_SIZE * 8)%nat ->
  h3 (put i v bits) x = Z.lxor (if key_bit x i then v else 0) (h3 (put i 0 bits) x).
Proof.
  intros Hb Hi. unfold h3. assert (E : seq 0 (UHASH_KEY_SIZE * 8) = seq 0 i ++ i :: seq (S i) (UHASH_KEY_SIZE * 8 - S i)).
  { replace (UHASH_KEY_SIZE * 8)%nat with (i + S (UHASH_KEY_SIZE * 8 - S i))%nat at 1 by lia. rewrite seq_app. reflexivity. }
  rewrite E, !map_app, !xors_app. cbn [map]. rewrite !xors_cons.
  assert (X : forall s n, ~ In i (seq s n) -> map (fun j => if key_bit x j then nth j (put i v bits) 0 else 0) (seq s n) = map (fun j => if key_bit x j then nth j (put i 0 bits) 0 else 0) (seq s n)).
  { intros s n N. apply map_ext_in. intros j Hj. rewrite !nth_put by exact Hb. destruct (Nat.eqb_spec j i) as [->|]; [contradiction|reflexivity]. }
  rewrite (X 0%nat i), (X (S i)) by (rewrite in_seq; lia). rewrite !nth_put, Nat.eqb_refl by exact Hb.
  set (a := xors _). set (b := xors _). replace (if key_bit x i then 0 else 0) with 0 by (now destruct (key_bit x i)). rewrite Z.lxor_0_l.
  set (c := if key_bit x i then v else 0). now rewrite <- (Z.lxor_assoc a c b), (Z.lxor_comm a c), Z.lxor_assoc.
Qed.

Lemma bytes_differ u v : 0 <= u < 256 -> 0 <= v < 256 -> u <> v -> exists b, (b < 8)%nat /\ Z.testbit u (Z.of_nat b) <> Z.testbit v (Z.of_nat b).
Proof.
  intros Hu Hv N. destruct (existsb (fun b => xorb (Z.testbit u (Z.of_nat b)) (Z.testbit v (Z.of_nat b))) (seq 0 8)) eqn:E.
  - apply existsb_exists in E as (b & Hb & X). apply in_seq in Hb. exists b. split; [lia|]. intros Q. now rewrite Q, xorb_nilpotent in X.
  - exfalso. apply N. apply Z.bits_inj'. intros n Hn. destruct (Z.lt_ge_cases n 8) as [Ln|Ln].
    + assert (X : xorb (Z.testbit u n) (Z.testbit v n) = false).
      { destruct (xorb (Z.testbit u n) (Z.testbit v n)) eqn:X; [|reflexivity]. rewrite <- E. symmetry. apply existsb_exists. exists (Z.to_nat n). rewrite in_seq, Z2Nat.id by lia. split; [lia|exact X]. }
      now apply xorb_eq.
    + rewrite <- (Z.mod_small u (2 ^ 8)), <- (Z.mod_small v (2 ^ 8)) by assumption. now rewrite !Z.mod_pow2_bits_high by lia.
Qed.

(** Two different keys of the same length differ in a bit. *)
Lemma differing_bit x y : Forall is_byte x -> Forall is_byte y -> length x = length y -> (length x <= UHASH_KEY_SIZE)%nat -> x <> y ->
  exists i, (i < UHASH_KEY_SIZE * 8)%nat /\ key_bit x i <> key_bit y i.
Proof.
  intros Bx By L Lx N.
  assert (D : exists o, (o < length x)%nat /\ nth o x 0 <> nth o y 0).
  { revert y By L N. clear Lx. induction Bx as [|a x Ba Bx IH]; intros [|b y] By L N; cbn in L; try lia; [contradiction|].
    inversion_clear By. destruct (Z.eq_dec a b) as [->|E]; [|exists 0%nat; cbn; split; [lia|exact E]].
    destruct (IH y) as (o & Ho & E); [assumption|lia|congruence|]. exists (S o). cbn. split; [lia|exact E]. }
  destruct D as (o & Ho & E). pose proof (proj1 (Forall_forall _ _) Bx _ (nth_In x 0 Ho)) as Hx.
  pose proof (proj1 (Forall_forall _ _) By _ (nth_In y 0 ltac:(rewrite <- L; exact Ho))) as Hy. unfold is_byte in Hx, Hy.
  assert (D : exists b, (b < 8)%nat /\ Z.testbit (nth o x 0) (Z.of_nat b) <> Z.testbit (nth o y 0) (Z.of_nat b)).
  { apply bytes_differ; assumption. }
  destruct D as (b & Hb & Db). exists (o * 8 + b)%nat. split; [lia|]. now rewrite !key_bit_at.
Qed.

(** ** The random numbers *)

(** The calls for bit [i] give [a] and [b]. *)
Definition set_random (random : nat -> Z) (i : nat) (a b : Z) : nat -> Z :=
  fun n => if (n =? 2 * i)%nat then a else if (n =? 2 * i + 1)%nat then b else random n.

Lemma lor_halves a b : 0 <= b < 2 ^ 16 -> Z.lor (Z.shiftl a 16) b = a * 2 ^ 16 + b.
Proof.
  intros Hb. rewrite Z.shiftl_mul_pow2 by lia. rewrite <- Z.lxor_lor, <- Z.add_nocarry_lxor; try reflexivity;
    apply Z.bits_inj'; intros n Hn; rewrite Z.land_spec, Z.bits_0; (destruct (Z.lt_ge_cases n 16) as [L|L];
    [now rewrite Z.mul_pow2_bits_low by lia|rewrite <- (Z.mod_small b (2 ^ 16)), Z.mod_pow2_bits_high by lia; apply andb_false_r]).
Qed.

Lemma nth_bit_lookup random j : (j < UHASH_KEY_SIZE * 8)%nat -> nth j (bit_lookup random) 0 = Z.land (random (2 * j)%nat) 0xFFFF * 2 ^ 16 + Z.land (random (2 * j + 1)%nat) 0xFFFF.
Proof.
  intros H. unfold bit_lookup. rewrite nth_indep with (d' := random_bits random 2 (2 * 0) 0) by (rewrite length_map, length_seq; exact H).
  rewrite (map_nth (fun bit => random_bits random 2 (2 * bit) 0)), seq_nth, Nat.add_0_l by exact H. cbn [random_bits].
  replace (S (2 * j)) with (2 * j + 1)%nat by lia. change 0xFFFF with (Z.ones 16). rewrite !Z.land_ones by lia. unfold wrap. rewrite Z.shiftl_0_l, Z.lor_0_l.
  set (a := random _). set (b := random (2 * j + 1)%nat). pose proof (Z.mod_pos_bound a (2 ^ 16) ltac:(lia)). pose proof (Z.mod_pos_bound b (2 ^ 16) ltac:(lia)).
  rewrite (Z.mod_small (a mod 2 ^ 16)) by lia. rewrite lor_halves by lia. rewrite Z.mod_small; lia.
Qed.

Lemma length_bit_lookup random : length (bit_lookup random) = (UHASH_KEY_SIZE * 8)%nat.
Proof. unfold bit_lookup. now rewrite length_map, length_seq. Qed.

Lemma bit_lookup_range random : Forall (fun v => 0 <= v < 2 ^ 32) (bit_lookup random).
Proof.
  apply Forall_nth. intros j d H. rewrite length_bit_lookup in H. rewrite nth_indep with (d' := 0) by (rewrite length_bit_lookup; exact H).
  rewrite nth_bit_lookup by exact H. change 0xFFFF with (Z.ones 16). rewrite !Z.land_ones by lia.
  pose proof (Z.mod_pos_bound (random (2 * j)%nat) (2 ^ 16) ltac:(lia)). pose proof (Z.mod_pos_bound (random (2 * j + 1)%nat) (2 ^ 16) ltac:(lia)). lia.
Qed.

Lemma bit_lookup_set random i a b : (i < UHASH_KEY_SIZE * 8)%nat -> 0 <= a < 2 ^ 16 -> 0 <= b < 2 ^ 16 ->
  bit_lookup (set_random random i a b) = put i (a * 2 ^ 16 + b) (bit_lookup random).
Proof.
  intros Hi Ha Hb. assert (L : length (put i (a * 2 ^ 16 + b) (bit_lookup random)) = (UHASH_KEY_SIZE * 8)%nat).
  { unfold put. rewrite length_app. cbn [length]. rewrite length_firstn, length_skipn, length_bit_lookup. lia. }
  apply nth_ext with 0 0; [now rewrite length_bit_lookup, L|]. intros j Hj. rewrite length_bit_lookup in Hj.
  rewrite nth_put by (rewrite length_bit_lookup; exact Hi). rewrite !nth_bit_lookup by exact Hj. unfold set_random. change 0xFFFF with (Z.ones 16). rewrite !Z.land_ones by lia.
  destruct (Nat.eqb_spec j i) as [->|N].
  - rewrite Nat.eqb_refl. replace (2 * i + 1 =? 2 * i)%nat with false by (symmetry; apply Nat.eqb_neq; lia). rewrite Nat.eqb_refl. now rewrite !Z.mod_small by lia.
  - replace (2 * j =? 2 * i)%nat with false by (symmetry; apply Nat.eqb_neq; lia). replace (2 * j =? 2 * i + 1)%nat with false by (symmetry; apply Nat.eqb_neq; lia).
    replace (2 * j + 1 =? 2 * i)%nat with false by (symmetry; apply Nat.eqb_neq; lia). replace (2 * j + 1 =? 2 * i + 1)%nat with false by (symmetry; apply Nat.eqb_neq; lia). reflexivity.
Qed.

(** The value of the entry at which two keys collide. *)
Lemma one_value bits x y i v : (i < length bits)%nat -> (i < UHASH_KEY_SIZE * 8)%nat -> key_bit x i <> key_bit y i ->
  h3 (put i v bits) x = h3 (put i v bits) y <-> v = Z.lxor (h3 (put i 0 bits) x) (h3 (put i 0 bits) y).
Proof.
  intros Hb Hi D. rewrite (h3_put bits x), (h3_put bits y) by assumption. set (a := h3 _ x). set (b := h3 _ y). clearbody a b.
  split.
  - intros E. destruct (key_bit x i), (key_bit y i); try congruence; rewrite Z.lxor_0_l in E;
      [apply (f_equal (fun z => Z.lxor z a)) in E; rewrite Z.lxor_assoc, Z.lxor_nilpotent, Z.lxor_0_r in E; rewrite E; apply Z.lxor_comm
      |rewrite E, Z.lxor_assoc, Z.lxor_nilpotent, Z.lxor_0_r; reflexivity].
  - intros ->. destruct (key_bit x i), (key_bit y i); try congruence; rewrite Z.lxor_0_l;
      [rewrite (Z.lxor_comm a b), Z.lxor_assoc, Z.lxor_nilpotent, Z.lxor_0_r; reflexivity
      |rewrite Z.lxor_assoc, Z.lxor_nilpotent, Z.lxor_0_r; reflexivity].
Qed.

Lemma h3_bound bits x : Forall (fun v => 0 <= v < 2 ^ 32) bits -> 0 <= h3 bits x < 2 ^ 32.
Proof.
  intros B. apply xors_bound, Forall_map, Forall_forall. intros j _. destruct (key_bit x j); [|lia].
  destruct (Nat.lt_ge_cases j (length bits)) as [L|L]; [|rewrite nth_overflow by exact L; lia]. exact (proj1 (Forall_forall _ _) B _ (nth_In _ _ L)).
Qed.

(** C20: the hash of a key of at most 32 bytes, by the table of bytes and the unrolled loop, is the
    exclusive or of the random numbers of the bits set in the key, and never reads outside of the
    table; and for any two different keys of the same length there is a bit such that, whatever
    the other calls of [random()] return, exactly one of the 2^32 results of the two calls for
    this bit makes the two keys collide: a collision has probability 2^-32, the universality
    that [Hash.cc] claims of its hash functions. *)
Theorem h3_universal md5 x y (Bx : Forall is_byte x) (By : Forall is_byte y) (L : length x = length y) (Lx : (length x <= UHASH_KEY_SIZE)%nat) (N : x <> y) :
  (forall bits, HashBytes (byte_lookup bits) md5 x = Some (h3 bits x)) /\
  exists i, (i < UHASH_KEY_SIZE * 8)%nat /\
    forall random, exists a b, 0 <= a < 2 ^ 16 /\ 0 <= b < 2 ^ 16 /\
      forall a' b', 0 <= a' < 2 ^ 16 -> 0 <= b' < 2 ^ 16 ->
        let tab := byte_lookup (bit_lookup (set_random random i a' b')) in
        (HashBytes tab md5 x = HashBytes tab md5 y <-> a' = a /\ b' = b).
Proof.
  split; [intros; now apply HashBytes_ok|]. destruct (differing_bit x y) as (i & Hi & D); try assumption. exists i. split; [exact Hi|]. intros random.
  set (v := Z.lxor (h3 (put i 0 (bit_lookup random)) x) (h3 (put i 0 (bit_lookup random)) y)).
  assert (V : 0 <= v < 2 ^ 32).
  { pose proof (bit_lookup_range (set_random random i 0 0)) as B. rewrite bit_lookup_set in B by lia. change (0 * 2 ^ 16 + 0) with 0 in B.
    pose proof (xors_bound [h3 (put i 0 (bit_lookup random)) x; h3 (put i 0 (bit_lookup random)) y]) as X. unfold xors in X. cbn [fold_right] in X. rewrite Z.lxor_0_r in X.
    apply X. constructor; [|constructor; [|constructor]]; apply h3_bound; exact B. }
  exists (v / 2 ^ 16), (v mod 2 ^ 16). split; [split; [apply Z.div_pos|apply Z.div_lt_upper_bound]; lia|]. split; [apply Z.mod_pos_bound; lia|].
  intros a b Ha Hb tab. subst tab. rewrite !HashBytes_ok, bit_lookup_set by (assumption || lia). pose proof (one_value (bit_lookup random) x y i (a * 2 ^ 16 + b)) as O. fold v in O.
  rewrite length_bit_lookup in O. specialize (O Hi Hi D). assert (I : forall p q : Z, Some p = Some q <-> p = q) by (intros; split; congruence). rewrite I, O.
  pose proof (Z.div_mod v (2 ^ 16) ltac:(lia)). pose proof (Z.mod_pos_bound v (2 ^ 16) ltac:(lia)). lia.
Qed.

(** Two endpoints that differ in one bit of the port. *)
Lemma h3_universal_witness :
  let x := [10; 0; 0; 1; 0x1f; 0x90] in let y := [10; 0; 0; 1; 0x1f; 0x91] in
  (forall bits, HashBytes (byte_lookup bits) (fun _ => 7) x = Some (h3 bits x)) /\ h3 (bit_lookup (fun i => Z.of_nat i * 12345)) x <> h3 (bit_lookup (fun i => Z.of_nat i * 12345)) y.
Proof.
  cbn zeta. split; [|vm_compute; discriminate].
  apply (h3_universal (fun _ => 7) [10; 0; 0; 1; 0x1f; 0x90] [10; 0; 0; 1; 0x1f; 0x91]); [repeat (apply Forall_cons; [unfold is_byte; lia|]); apply Forall_nil|repeat (apply Forall_cons; [unfold is_byte; lia|]); apply Forall_nil|reflexivity|cbn; unfold UHASH_KEY_SIZE; lia|discriminate].
Defined.

(** Keys that differ in trailing zero bytes only have the same hash, for every table: a row's
    entry for the value zero is zero. *)
Lemma trailing_zeros_collide bits md5 x k : Forall is_byte x -> (length x + k <= UHASH_KEY_SIZE)%nat ->
  HashBytes (byte_lookup bits) md5 (x ++ repeat 0 k) = HashBytes (byte_lookup bits) md5 x.
Proof.
  intros B L. rewrite !HashBytes_ok; [|exact B|lia|apply Forall_app; split; [exact B|apply Forall_forall; intros v Hv; apply repeat_spec in Hv as ->; unfold is_byte; lia]|rewrite length_app, repeat_length; exact L].
  f_equal. unfold h3. f_equal. apply map_ext. intros j. unfold key_bit. replace (nth (j / 8) (x ++ repeat 0 k) 0) with (nth (j / 8) x 0); [reflexivity|].
  destruct (Nat.lt_ge_cases (j / 8) (length x)) as [H|H]; [now rewrite app_nth1|]. rewrite app_nth2, nth_repeat by exact H. now rewrite nth_overflow.
Qed.
