(* ===== verification/Dict.v ===== *)
(** * Bro's dictionary ([src/Dict.cc], [src/Dict.h], the lists of [src/List.cc])

    A hash table of chains that is enlarged a few chains at a time: while it is, entries of
    the buckets below [tbl_next_ind] are in the second table and the others in the first.
    Entries and iteration cookies are objects that several lists point to, so they live in
    memories of their own; a value is an address, 0 the null pointer. *)
From S2P Require Import Prelude.
From Stdlib Require Import ZArith Lia List Bool.
From stdpp Require Import gmap list.

Open Scope Z_scope.

Module Dict.

(** ** Lists ([BaseList]) *)

(** [remove_nth] leaves the list as it is when there is no such entry. *)
Definition remove_nth (n : nat) (l : list nat) : list nat := firstn n l ++ skipn (S n) l.

(** [remove]: the first occurrence. *)
Fixpoint remove (a : nat) (l : list nat) : list nat :=
  match l with
  | [] => []
  | x :: l => if decide (x = a) then l else x :: remove a l
  end.

(** ** Tables *)

(** The key's length is that of the list. *)
Record DictEntry := { e_key : list Z; e_hash : Z; e_value : nat }.

(** The arrays, whose cells are chains or null.  A table has an identity, for the cookies
    that point to it. *)
Record Table := { buckets : list (option (list nat)); tid : nat }.

Definition num_buckets (t : Table) : nat := length (buckets t).
Definition bucket_of (hash : Z) (t : Table) : nat := Z.to_nat (hash mod Z.of_nat (num_buckets t)).
Definition chain (i : nat) (t : Table) : list nat := default [] (mjoin (buckets t !! i)).
Definition set_chain (i : nat) (c : option (list nat)) (t : Table) : Table := {| buckets := <[i := c]> (buckets t); tid := tid t |}.

(** [num_buckets_p] points to one of the two counters. *)
Record IterCookie := { bucket : nat; offset : nat; ttbl : option (nat * bool); inserted : list nat }.

Record Dictionary := {
  tbl : Table; num_entries : Z; max_num_entries : Z; thresh_entries : Z;
  tbl2 : option Table; num_entries2 : Z; max_num_entries2 : Z; thresh_entries2 : Z; tbl_next_ind : nat;
  order : option (list nat); cookies : list nat;
  mem : gmap nat DictEntry; iters : gmap nat IterCookie }.

Definition set_old (t : Table) (n max : Z) (d : Dictionary) : Dictionary :=
  {| tbl := t; num_entries := n; max_num_entries := max; thresh_entries := thresh_entries d; tbl2 := tbl2 d; num_entries2 := num_entries2 d;
     max_num_entries2 := max_num_entries2 d; thresh_entries2 := thresh_entries2 d; tbl_next_ind := tbl_next_ind d; order := order d;
     cookies := cookies d; mem := mem d; iters := iters d |}.
Definition set_new (t : Table) (n max thresh : Z) (next : nat) (d : Dictionary) : Dictionary :=
  {| tbl := tbl d; num_entries := num_entries d; max_num_entries := max_num_entries d; thresh_entries := thresh_entries d; tbl2 := Some t;
     num_entries2 := n; max_num_entries2 := max; thresh_entries2 := thresh; tbl_next_ind := next; order := order d;
     cookies := cookies d; mem := mem d; iters := iters d |}.
Definition set_next (next : nat) (d : Dictionary) : Dictionary :=
  {| tbl := tbl d; num_entries := num_entries d; max_num_entries := max_num_entries d; thresh_entries := thresh_entries d; tbl2 := tbl2 d;
     num_entries2 := num_entries2 d; max_num_entries2 := max_num_entries2 d; thresh_entries2 := thresh_entries2 d; tbl_next_ind := next;
     order := order d; cookies := cookies d; mem := mem d; iters := iters d |}.
Definition set_objects (o : option (list nat)) (m : gmap nat DictEntry) (cs : list nat) (its : gmap nat IterCookie) (d : Dictionary) : Dictionary :=
  {| tbl := tbl d; num_entries := num_entries d; max_num_entries := max_num_entries d; thresh_entries := thresh_entries d; tbl2 := tbl2 d;
     num_entries2 := num_entries2 d; max_num_entries2 := max_num_entries2 d; thresh_entries2 := thresh_entries2 d;
     tbl_next_ind := tbl_next_ind d; order := o; cookies := cs; mem := m; iters := its |}.
Abbreviation set_mem m d := (set_objects (order d) m (cookies d) (iters d) d).
Abbreviation set_iters its d := (set_objects (order d) (mem d) (cookies d) its d).

(** ** Sizes *)

Definition PRIME_THRESH : Z := 1000.

(** [IsPrime], from [j] on; [n] rounds are enough. *)
Fixpoint no_divisor (fuel : nat) (j n : Z) : bool :=
  match fuel with
  | O => true
  | S fuel => if j * j <=? n then if n mod j =? 0 then false else no_divisor fuel (j + 1) n else true
  end.
Definition IsPrime (n : Z) : bool := no_divisor (Z.to_nat n) 3 n.

Fixpoint next_prime (fuel : nat) (n : Z) : option Z :=
  if IsPrime n then Some n else match fuel with O => None | S fuel => next_prime fuel (n + 2) end.

Definition NextPrime (n : Z) : option Z :=
  let n := if Z.land n 1 =? 0 then n + 1 else n in
  if PRIME_THRESH <? n then Some n else next_prime 500 n.

Definition new_Table (size : Z) (id : nat) : option Table :=
  n ← NextPrime size; if 0 <=? n then Some {| buckets := repeat None (Z.to_nat n); tid := id |} else None.

(** [int(thresh * double(num_buckets))] for the default density of 3.0, which is never changed. *)
Definition thresh (t : Table) : Z := 3 * Z.of_nat (num_buckets t).

Definition new_Dictionary (ordered : bool) (initial_size : Z) : option Dictionary :=
  t ← new_Table initial_size 0;
  Some {| tbl := t; num_entries := 0; max_num_entries := 0; thresh_entries := thresh t; tbl2 := None; num_entries2 := 0; max_num_entries2 := 0;
          thresh_entries2 := 0; tbl_next_ind := 0; order := if ordered then Some [] else None; cookies := []; mem := ∅; iters := ∅ |}.

Definition Length (d : Dictionary) : Z := match tbl2 d with Some _ => num_entries d + num_entries2 d | None => num_entries d end.
Definition MaxLength (d : Dictionary) : Z :=
  match tbl2 d with Some _ => max_num_entries d + max_num_entries2 d | None => max_num_entries d end.

(** ** Lookup, insertion and removal *)

(** The second table, when the entries of this hash are in it. *)
Definition moved_table (hash : Z) (d : Dictionary) : option Table :=
  match tbl2 d with
  | Some t2 => if decide (tbl_next_ind d <= bucket_of hash (tbl d))%nat then None else Some t2
  | None => None
  end.
Definition table_for (hash : Z) (d : Dictionary) : Table := default (tbl d) (moved_table hash d).

(** The loops over a chain; [None] is an entry that does not exist any more. *)
Fixpoint find_pos (m : gmap nat DictEntry) (key : list Z) (hash : Z) (c : list nat) : option (option nat) :=
  match c with
  | [] => Some None
  | id :: c =>
      e ← m !! id;
      if decide (e_hash e = hash /\ e_key e = key) then Some (Some 0%nat)
      else r ← find_pos m key hash c; Some (option_map S r)
  end.

Definition Lookup (key : list Z) (hash : Z) (d : Dictionary) : option nat :=
  let t := table_for hash d in
  let c := chain (bucket_of hash t) t in
  pos ← find_pos (mem d) key hash c;
  match pos with
  | None => Some 0%nat
  | Some i => id ← c !! i; e_value <$> mem d !! id
  end.

(** The loops over the robust cookies. *)
Definition adjust (f : IterCookie -> IterCookie) (d : Dictionary) : gmap nat IterCookie :=
  fold_left (fun its c => alter f c its) (cookies d) (iters d).

(** [Insert(DictEntry*, int)]; the old value, or null.  Copying the key does not change it. *)
Definition InsertEntry (id : nat) (d : Dictionary) : option (Dictionary * nat) :=
  new_entry ← mem d !! id;
  let hash := e_hash new_entry in
  let t := table_for hash d in
  let h := bucket_of hash t in
  let c := chain h t in
  pos ← find_pos (mem d) (e_key new_entry) hash c;
  match pos with
  | Some i =>
      id' ← c !! i; entry ← mem d !! id';
      Some (set_mem (<[id' := {| e_key := e_key entry; e_hash := e_hash entry; e_value := e_value new_entry |}]> (mem d)) d, e_value entry)
  | None =>
      let t' := set_chain h (Some (c ++ [id])) t in
      let d := match moved_table hash d with
               | None => set_old t' (num_entries d + 1) (Z.max (max_num_entries d) (num_entries d + 1)) d
               | Some _ => set_new t' (num_entries2 d + 1) (Z.max (max_num_entries2 d) (num_entries2 d + 1)) (thresh_entries2 d) (tbl_next_ind d) d
               end in
      let late c := if decide (h < bucket c)%nat
                    then {| bucket := bucket c; offset := offset c; ttbl := ttbl c; inserted := inserted c ++ [id] |} else c in
      Some (set_iters (adjust late d) d, 0%nat)
  end.

(** [FinishChangeSize]; the first table must be empty. *)
Definition FinishChangeSize (d : Dictionary) : option Dictionary :=
  if num_entries d =? 0 then
    t2 ← tbl2 d;
    Some {| tbl := t2; num_entries := num_entries2 d; max_num_entries := max_num_entries2 d; thresh_entries := thresh_entries2 d;
            tbl2 := None; num_entries2 := 0; max_num_entries2 := 0; thresh_entries2 := 0; tbl_next_ind := tbl_next_ind d;
            order := order d; cookies := cookies d; mem := mem d; iters := iters d |}
  else None.

(** The entries of a chain, one by one. *)
Fixpoint move_entries (c : list nat) (num : Z) (d : Dictionary) : option (Dictionary * Z) :=
  match c with
  | [] => Some (d, num)
  | id :: c =>
      '(d, _) ← InsertEntry id d;
      move_entries c (num - 1) (set_old (tbl d) (num_entries d - 1) (max_num_entries d) d)
  end.

Fixpoint move_chains (fuel : nat) (num : Z) (d : Dictionary) : option Dictionary :=
  match fuel with
  | O => None
  | S fuel =>
      let i := tbl_next_ind d in
      c ← buckets (tbl d) !! i;
      let d := set_next (S i) d in
      '(d, num) ← match c with
                  | None => Some (d, num)
                  | Some c => move_entries c num (set_old (set_chain i None (tbl d)) (num_entries d) (max_num_entries d) d)
                  end;
      if decide (0 < num /\ (tbl_next_ind d < num_buckets (tbl d))%nat) then move_chains fuel num d else Some d
  end.

Definition MoveChains (d : Dictionary) : option Dictionary :=
  match cookies d with
  | _ :: _ => Some d
  | [] =>
      d ← move_chains (num_buckets (tbl d)) 8 d;
      if decide (num_buckets (tbl d) <= tbl_next_ind d)%nat then FinishChangeSize d else Some d
  end.

Definition StartChangeSize (new_size : Z) (d : Dictionary) : option Dictionary :=
  match cookies d, tbl2 d with
  | _ :: _, _ => Some d
  | [], Some _ => None
  | [], None => t2 ← new_Table new_size (S (tid (tbl d))); Some (set_new t2 0 0 (thresh t2) 0 d)
  end.

(** [Insert], with the address of the new entry. *)
Definition Insert (id : nat) (key : list Z) (hash : Z) (val : nat) (d : Dictionary) : option (Dictionary * nat) :=
  '(d, old_val) ← InsertEntry id (set_mem (<[id := {| e_key := key; e_hash := hash; e_value := val |}]> (mem d)) d);
  let d := if decide (old_val = 0%nat)
           then set_objects (match order d with Some l => Some (l ++ [id]) | None => None end) (mem d) (cookies d) (iters d) d
           else set_mem (delete id (mem d)) d in
  d ← match tbl2 d with
      | Some _ => MoveChains d
      | None => if thresh_entries d <=? num_entries d then StartChangeSize (swrap 32 (Z.of_nat (num_buckets (tbl d)) * 2 + 1)) d else Some d
      end;
  Some (d, old_val).

(** [DoRemove] on the chain of bucket [i] of the table; [h] is the bucket in the first table. *)
Definition DoRemove (id h pos : nat) (d : Dictionary) : Dictionary :=
  let late c :=
    let c := if decide (bucket c = h)
             then {| bucket := bucket c; offset := if decide (pos < offset c)%nat then (offset c - 1)%nat else offset c; ttbl := ttbl c; inserted := inserted c |}
             else c in
    if decide (h < bucket c)%nat
    then {| bucket := bucket c; offset := offset c; ttbl := ttbl c; inserted := remove id (inserted c) |} else c in
  set_objects (option_map (remove id) (order d)) (mem d) (cookies d) (adjust late d) d.

(** [Remove]: the value, or null. *)
Definition Remove (key : list Z) (hash : Z) (d : Dictionary) : option (Dictionary * nat) :=
  let t := table_for hash d in
  let i := bucket_of hash t in
  let c := chain i t in
  pos ← find_pos (mem d) key hash c;
  match pos with
  | None => Some (d, 0%nat)
  | Some n =>
      id ← c !! n; entry ← mem d !! id;
      let t' := set_chain i (Some (remove_nth n c)) t in
      let d := match moved_table hash d with
               | None => set_old t' (num_entries d - 1) (max_num_entries d) d
               | Some _ => set_new t' (num_entries2 d - 1) (max_num_entries2 d) (thresh_entries2 d) (tbl_next_ind d) d
               end in
      let d := DoRemove id (bucket_of hash (tbl d)) n d in
      Some (set_mem (delete id (mem d)) d, e_value entry)
  end.

(** [NthEntry] of an ordered dictionary; null out of range. *)
Definition NthEntry (n : Z) (d : Dictionary) : option nat :=
  match order d with
  | None => Some 0%nat
  | Some l => if (n <? 0) || (Length d <=? n) then Some 0%nat else id ← l !! Z.to_nat n; e_value <$> mem d !! id
  end.

(** ** Iteration *)

Definition InitForIteration (c : nat) (d : Dictionary) : Dictionary :=
  set_iters (<[c := {| bucket := 0; offset := 0; ttbl := None; inserted := [] |}]> (iters d)) d.

Definition MakeRobustCookie (c : nat) (d : Dictionary) : Dictionary :=
  set_objects (order d) (mem d) (cookies d ++ [c]) (iters d) d.

(** [StopIteration] deletes the cookie only. *)
Definition StopIteration (c : nat) (d : Dictionary) : Dictionary := set_iters (delete c (iters d)) d.

(** The table that a cookie points to, if it still exists. *)
Definition table_at (id : nat) (d : Dictionary) : option Table :=
  if decide (id = tid (tbl d)) then Some (tbl d)
  else match tbl2 d with Some t2 => if decide (id = tid t2) then Some t2 else None | None => None end.

(** The next non-empty bucket from [b] on, below the limit. *)
Fixpoint next_bucket (fuel b limit : nat) (t : Table) : nat :=
  match fuel with
  | O => b
  | S fuel => if decide (b < limit /\ chain b t = [])%nat then next_bucket fuel (S b) limit t else b
  end.

(** [NextEntry]: the entry, or [None] when the iteration is over and the cookie is gone. *)
Fixpoint NextEntry (fuel : nat) (ci : nat) (d : Dictionary) : option (Dictionary * option nat) :=
  match fuel with
  | O => None
  | S fuel =>
      c ← iters d !! ci;
      match rev (inserted c) with
      | id :: rest =>
          Some (set_iters (<[ci := {| bucket := bucket c; offset := offset c; ttbl := ttbl c; inserted := rev rest |}]> (iters d)) d, Some id)
      | [] =>
          let '(tb, second) := default (tid (tbl d), false) (ttbl c) in
          t ← table_at tb d;
          let limit := if second : bool then match tbl2 d with Some t2 => num_buckets t2 | None => 0%nat end else num_buckets (tbl d) in
          match chain (bucket c) t !! offset c with
          | Some id =>
              Some (set_iters (<[ci := {| bucket := bucket c; offset := S (offset c); ttbl := Some (tb, second); inserted := [] |}]> (iters d)) d, Some id)
          | None =>
              let b := next_bucket limit (S (bucket c)) limit t in
              if decide (limit <= b)%nat then
                match tbl2 d with
                | Some t2 =>
                    if decide (tb = tid (tbl d)) then
                      NextEntry fuel ci (set_iters (<[ci := {| bucket := 0; offset := 0; ttbl := Some (tid t2, true); inserted := [] |}]> (iters d)) d)
                    else Some (set_objects (order d) (mem d) (remove ci (cookies d)) (delete ci (iters d)) d, None)
                | None => Some (set_objects (order d) (mem d) (remove ci (cookies d)) (delete ci (iters d)) d, None)
                end
              else
                id ← chain b t !! 0%nat;
                Some (set_iters (<[ci := {| bucket := b; offset := 1; ttbl := Some (tb, second); inserted := [] |}]> (iters d)) d, Some id)
          end
      end
  end.

End Dict.
