(* ===== verification/DictThms.v ===== *)
(** * The dictionary is a finite map, also while it is enlarged

    Where an entry is, what the internal operations keep, and the refinement of the
    operations of [Dict] to those of a finite map. *)
From S2P Require Import Prelude Dict.
From Stdlib Require Import ZArith Lia List Bool.
From stdpp Require Import gmap list.

Open Scope Z_scope.

Module DictThms.

Import Dict.

(** ** The entries of a table *)

Definition ids_of (t : Table) : list nat := concat (map (default []) (buckets t)).
Definition ids (d : Dictionary) : list nat := ids_of (tbl d) ++ match tbl2 d with Some t2 => ids_of t2 | None => [] end.

Lemma chain_in id t : id ∈ ids_of t <-> exists i, id ∈ chain i t.
Proof.
  unfold ids_of, chain. rewrite list_elem_of_In, in_concat. split.
  - intros (c & Hc & Hin). apply in_map_iff in Hc as (x & <- & Hx). apply list_elem_of_In, list_elem_of_lookup in Hx as [i Hi].
    exists i. rewrite Hi. now apply list_elem_of_In.
  - intros [i Hi]. destruct (buckets t !! i) as [x|] eqn:E; cbn in Hi; [|now apply not_elem_of_nil in Hi].
    exists (default [] x). split; [|now apply list_elem_of_In]. apply in_map, list_elem_of_In, list_elem_of_lookup. eauto.
Qed.

Lemma concat_update (f : option (list nat) -> list nat) l i x y :
  l !! i = Some x -> concat (map f (<[i := y]> l)) ++ f x ≡ₚ concat (map f l) ++ f y.
Proof.
  revert i. induction l as [|z l IH]; intros [|i] E; try discriminate.
  - injection E as ->. cbn. rewrite (Permutation_app_comm _ (f x)), (Permutation_app_comm _ (f y)). rewrite !app_assoc.
    apply Permutation_app_tail, Permutation_app_comm.
  - cbn. cbn in E. rewrite <- !app_assoc. apply Permutation_app_head, IH, E.
Qed.

Lemma ids_set_chain i c t : (i < num_buckets t)%nat -> ids_of (set_chain i c t) ++ chain i t ≡ₚ ids_of t ++ default [] c.
Proof.
  intros H. unfold num_buckets in H. apply lookup_lt_is_Some_2 in H as [x E]. unfold ids_of, chain, set_chain. cbn [buckets]. rewrite E. cbn.
  now apply concat_update.
Qed.

Lemma chain_set_chain i j c t : (i < num_buckets t)%nat -> chain j (set_chain i c t) = if decide (i = j) then default [] c else chain j t.
Proof.
  intros H. unfold chain, set_chain. cbn [buckets]. destruct (decide (i = j)) as [->|N].
  - rewrite list_lookup_insert_eq by exact H. reflexivity.
  - now rewrite list_lookup_insert_ne.
Qed.

Lemma num_set_chain i c t : num_buckets (set_chain i c t) = num_buckets t.
Proof. apply length_insert. Qed.

Lemma bucket_set_chain h i c t : bucket_of h (set_chain i c t) = bucket_of h t.
Proof. unfold bucket_of. now rewrite num_set_chain. Qed.

Lemma bucket_lt h t : (0 < num_buckets t)%nat -> (bucket_of h t < num_buckets t)%nat.
Proof. intros H. unfold bucket_of. pose proof (Z.mod_pos_bound h (Z.of_nat (num_buckets t)) ltac:(lia)). lia. Qed.

(** Each entry is in the bucket of its hash. *)
Definition placed (m : gmap nat DictEntry) (t : Table) : Prop :=
  (0 < num_buckets t)%nat /\ forall i id, id ∈ chain i t -> exists e, m !! id = Some e /\ bucket_of (e_hash e) t = i.

(** The state of the tables; [pend] are entries that are about to be put into a table, [k] is by how much
    [num_entries] differs from the number of entries in the first. *)
Record ok0 (pend : list nat) (k : nat) (d : Dictionary) : Prop := {
  o_tbl : placed (mem d) (tbl d);
  o_two : forall t2, tbl2 d = Some t2 ->
          placed (mem d) t2 /\ (tbl_next_ind d <= num_buckets (tbl d))%nat /\ (forall i, (i < tbl_next_ind d)%nat -> chain i (tbl d) = []) /\
          (forall id e, id ∈ ids_of t2 -> mem d !! id = Some e -> (bucket_of (e_hash e) (tbl d) < tbl_next_ind d)%nat);
  o_nodup : NoDup (ids d ++ pend);
  o_keys : forall i j e e', i ∈ ids d ++ pend -> j ∈ ids d ++ pend -> mem d !! i = Some e -> mem d !! j = Some e' ->
           e_hash e = e_hash e' -> e_key e = e_key e' -> i = j;
  o_pend : forall i, i ∈ pend -> exists e, mem d !! i = Some e;
  o_num : num_entries d = Z.of_nat (length (ids_of (tbl d)) + k);
  o_num2 : forall t2, tbl2 d = Some t2 -> num_entries2 d = Z.of_nat (length (ids_of t2));
  o_thresh : thresh_entries d = thresh (tbl d) /\ forall t2, tbl2 d = Some t2 -> thresh_entries2 d = thresh t2 /\ tid t2 <> tid (tbl d) }.

(** An entry with this hash and key. *)
Definition entry_for (d : Dictionary) (h : Z) (k : list Z) (id : nat) (e : DictEntry) : Prop :=
  id ∈ ids d /\ mem d !! id = Some e /\ e_hash e = h /\ e_key e = k.
Definition has (d : Dictionary) (h : Z) (k : list Z) (v : nat) : Prop :=
  exists id, id ∈ ids d /\ mem d !! id = Some {| e_key := k; e_hash := h; e_value := v |}.

Lemma in_ids d id : id ∈ ids d <-> id ∈ ids_of (tbl d) \/ exists t2, tbl2 d = Some t2 /\ id ∈ ids_of t2.
Proof.
  unfold ids. rewrite elem_of_app. destruct (tbl2 d) as [t2|]; split.
  - intros [H|H]; eauto.
  - intros [H|(t & [= <-] & H)]; eauto.
  - intros [H|H]; [eauto|now apply not_elem_of_nil in H].
  - intros [H|(t & H & _)]; [eauto|discriminate].
Qed.

Lemma ids_mem {pend k d} id : ok0 pend k d -> id ∈ ids d ++ pend -> exists e, mem d !! id = Some e.
Proof.
  intros O H. apply elem_of_app in H as [H|H]; [|now apply (o_pend _ _ _ O)]. apply in_ids in H as [H|(t2 & E & H)]; apply chain_in in H as [i H].
  - destruct (proj2 (o_tbl _ _ _ O) i id H) as (e & He & _). eauto.
  - destruct (o_two _ _ _ O t2 E) as (P & _). destruct (proj2 P i id H) as (e & He & _). eauto.
Qed.

(** Where the operations look is where the entry is. *)
Lemma entry_chain {pend k d} id e :
  ok0 pend k d -> id ∈ ids d -> mem d !! id = Some e -> id ∈ chain (bucket_of (e_hash e) (table_for (e_hash e) d)) (table_for (e_hash e) d).
Proof.
  intros O H E. unfold table_for, moved_table. apply in_ids in H as [H|(t2 & E2 & H)].
  - apply chain_in in H as [i H]. destruct (proj2 (o_tbl _ _ _ O) i id H) as (e' & He & Hb). rewrite E in He. injection He as <-.
    destruct (tbl2 d) as [t2|] eqn:E2; [|cbn; now rewrite Hb]. rewrite decide_True; [cbn; now rewrite Hb|].
    destruct (le_lt_dec (tbl_next_ind d) (bucket_of (e_hash e) (tbl d))) as [L|L]; [exact L|].
    destruct (o_two _ _ _ O t2 E2) as (_ & _ & Em & _). rewrite Em in H by (rewrite <- Hb; exact L). now apply not_elem_of_nil in H.
  - rewrite E2. destruct (o_two _ _ _ O t2 E2) as (P & _ & _ & Hn). rewrite decide_False by (specialize (Hn id e H E); lia). cbn.
    apply chain_in in H as [i H]. destruct (proj2 P i id H) as (e' & He & Hb). rewrite E in He. injection He as <-. now rewrite Hb.
Qed.

Lemma chain_ids {pend k d} hash id : ok0 pend k d -> id ∈ chain (bucket_of hash (table_for hash d)) (table_for hash d) -> id ∈ ids d.
Proof.
  intros O H. apply in_ids. unfold table_for, moved_table in H. destruct (tbl2 d) as [t2|] eqn:E2.
  - destruct (decide _); cbn in H; [left|right; exists t2; split; [reflexivity|]]; apply chain_in; eauto.
  - left. apply chain_in. eauto.
Qed.

Lemma find_pos_spec m key hash c :
  (forall id, id ∈ c -> exists e, m !! id = Some e) ->
  exists r, find_pos m key hash c = Some r /\
    match r with
    | Some i => exists id e, c !! i = Some id /\ m !! id = Some e /\ e_hash e = hash /\ e_key e = key
    | None => forall id e, id ∈ c -> m !! id = Some e -> ~ (e_hash e = hash /\ e_key e = key)
    end.
Proof.
  induction c as [|id c IH]; intros H; [exists None; split; [reflexivity|]; intros id e Hin; now apply not_elem_of_nil in Hin|].
  destruct (H id ltac:(left)) as (e & E). cbn [find_pos]. rewrite E. cbn [mbind option_bind].
  destruct (decide (e_hash e = hash /\ e_key e = key)) as [[D1 D2]|D]; [exists (Some 0%nat); split; [reflexivity|]; exists id, e; auto|].
  destruct IH as (r & -> & Hr); [intros i Hi; apply H; now right|]. cbn [mbind option_bind]. eexists. split; [reflexivity|]. destruct r as [i|]; cbn.
  - exact Hr.
  - intros i e' Hin E'. apply elem_of_cons in Hin as [->|Hin]; [rewrite E in E'; injection E' as <-; exact D|eauto].
Qed.

(** What the loop over the chain of a key finds. *)
Lemma search {pend k d} key hash :
  ok0 pend k d -> let c := chain (bucket_of hash (table_for hash d)) (table_for hash d) in
  (exists i id e, find_pos (mem d) key hash c = Some (Some i) /\ c !! i = Some id /\ entry_for d hash key id e) \/
  (find_pos (mem d) key hash c = Some None /\ forall id e, ~ entry_for d hash key id e).
Proof.
  intros O c. destruct (find_pos_spec (mem d) key hash c) as (r & E & H).
  { intros id Hin. apply (ids_mem id O), elem_of_app. left. now apply (chain_ids hash id O). }
  destruct r as [i|].
  - destruct H as (id & e & Hi & Em & Hh & Hk). left. exists i, id, e. split; [exact E|]. split; [exact Hi|].
    split; [|auto]. apply (chain_ids hash id O), list_elem_of_lookup. eauto.
  - right. split; [exact E|]. intros id e (Hin & Em & Hh & Hk). apply (H id e); auto. unfold c. rewrite <- Hh. now apply (entry_chain id e O).
Qed.

(** [bucket_of] for entries that are in a table. *)
Lemma table_bucket {pend k d} hash : ok0 pend k d -> (bucket_of hash (table_for hash d) < num_buckets (table_for hash d))%nat.
Proof.
  intros O. apply bucket_lt. unfold table_for, moved_table. destruct (tbl2 d) as [t2|] eqn:E2; [|apply (o_tbl _ _ _ O)].
  destruct (decide _); cbn; [apply (o_tbl _ _ _ O)|apply (o_two _ _ _ O t2 E2)].
Qed.

(** A table with one more entry in the right bucket. *)
Lemma placed_add m t id e :
  placed m t -> m !! id = Some e -> placed m (set_chain (bucket_of (e_hash e) t) (Some (chain (bucket_of (e_hash e) t) t ++ [id])) t).
Proof.
  intros [P0 P] E. split; [now rewrite num_set_chain|]. intros i x. rewrite chain_set_chain by now apply bucket_lt.
  destruct (decide _) as [<-|N]; cbn [from_option Datatypes.id]; setoid_rewrite bucket_set_chain; [|apply P].
  rewrite elem_of_app, list_elem_of_singleton. intros [H| ->]; [now apply P|eauto].
Qed.

Lemma ids_add t i id : (i < num_buckets t)%nat -> ids_of (set_chain i (Some (chain i t ++ [id])) t) ≡ₚ id :: ids_of t.
Proof.
  intros H. pose proof (ids_set_chain i (Some (chain i t ++ [id])) t H) as P. cbn [from_option Datatypes.id] in P.
  apply (Permutation_app_inv_r (chain i t)). rewrite P, app_assoc. rewrite Permutation_app_comm. cbn. reflexivity.
Qed.

(** What insertion leaves alone. *)
Record frame (d d' : Dictionary) : Prop := {
  f_order : order d' = order d; f_cookies : cookies d' = cookies d; f_next : tbl_next_ind d' = tbl_next_ind d;
  f_mem : mem d' = mem d; f_size : num_buckets (tbl d') = num_buckets (tbl d); f_two : is_Some (tbl2 d') <-> is_Some (tbl2 d) }.

Lemma frame_refl d : frame d d.
Proof. now split. Qed.

Lemma frame_trans d1 d2 d3 : frame d1 d2 -> frame d2 d3 -> frame d1 d3.
Proof. intros [] []. split; (congruence || tauto). Qed.

(** The state of the tables does not depend on the cookies. *)
Lemma ok0_iters pend k d its : ok0 pend k d -> ok0 pend k (set_iters its d).
Proof. intros []. now split. Qed.

Lemma frame_iters d d' its : frame d d' -> frame d (set_iters its d').
Proof. intros []. now split. Qed.

(** An entry that was pending is in a table now. *)
Lemma ok0_put {id pend k d} d' :
  ok0 (id :: pend) k d -> mem d' = mem d -> ids d' ≡ₚ id :: ids d ->
  placed (mem d') (tbl d') ->
  (forall t2, tbl2 d' = Some t2 ->
     placed (mem d') t2 /\ (tbl_next_ind d' <= num_buckets (tbl d'))%nat /\ (forall i, (i < tbl_next_ind d')%nat -> chain i (tbl d') = []) /\
     (forall id e, id ∈ ids_of t2 -> mem d' !! id = Some e -> (bucket_of (e_hash e) (tbl d') < tbl_next_ind d')%nat)) ->
  num_entries d' = Z.of_nat (length (ids_of (tbl d')) + k) ->
  (forall t2, tbl2 d' = Some t2 -> num_entries2 d' = Z.of_nat (length (ids_of t2))) ->
  (thresh_entries d' = thresh (tbl d') /\ forall t2, tbl2 d' = Some t2 -> thresh_entries2 d' = thresh t2 /\ tid t2 <> tid (tbl d')) ->
  ok0 pend k d'.
Proof.
  intros O Em P. assert (Pm : ids d' ++ pend ≡ₚ ids d ++ id :: pend) by (rewrite P; cbn; apply Permutation_middle).
  intros. split; try assumption; rewrite ?Em.
  - rewrite Pm. apply (o_nodup _ _ _ O).
  - intros i j e e'. rewrite !Pm. apply (o_keys _ _ _ O).
  - intros i Hi. apply (o_pend _ _ _ O). now right.
Qed.

Lemma thresh_set_chain i c t : thresh (set_chain i c t) = thresh t.
Proof. unfold thresh. now rewrite num_set_chain. Qed.

Abbreviation put id e t := (set_chain (bucket_of (e_hash e) t) (Some (chain (bucket_of (e_hash e) t) t ++ [id])) t).

Lemma put_old {id pend k d} e max :
  ok0 (id :: pend) k d -> mem d !! id = Some e -> moved_table (e_hash e) d = None ->
  let d' := set_old (put id e (tbl d)) (num_entries d + 1) max d in
  ok0 pend k d' /\ ids d' ≡ₚ id :: ids d /\ frame d d'.
Proof.
  intros O E Mv d'. pose proof (o_tbl _ _ _ O) as [B0 B]. pose proof (bucket_lt (e_hash e) _ B0) as Hb. pose proof (ids_add (tbl d) _ id Hb) as PI.
  assert (P : ids d' ≡ₚ id :: ids d) by (unfold ids; cbn [d' set_old tbl tbl2]; now rewrite PI).
  split; [|split; [exact P|split; first [reflexivity|apply num_set_chain]]].
  apply (ok0_put d' O); cbn [d' set_old tbl tbl2 mem num_entries num_entries2 thresh_entries thresh_entries2 tbl_next_ind]; auto.
  - now apply placed_add.
  - intros t2 E2. destruct (o_two _ _ _ O t2 E2) as (P2 & Hn & He & Hm). rewrite num_set_chain. repeat split; try (assumption || apply P2).
    + intros i Hi. rewrite chain_set_chain by exact Hb. rewrite decide_False; [now apply He|]. intros <-. unfold moved_table in Mv. rewrite E2 in Mv.
      destruct (decide _); [lia|discriminate].
    + intros x e'. rewrite bucket_set_chain. apply Hm.
  - rewrite (o_num _ _ _ O), PI. cbn [length]. lia.
  - apply (o_num2 _ _ _ O).
  - rewrite thresh_set_chain. apply (o_thresh _ _ _ O).
Qed.

Lemma put_new {id pend k d} e t2 max :
  ok0 (id :: pend) k d -> mem d !! id = Some e -> moved_table (e_hash e) d = Some t2 ->
  let d' := set_new (put id e t2) (num_entries2 d + 1) max (thresh_entries2 d) (tbl_next_ind d) d in
  ok0 pend k d' /\ ids d' ≡ₚ id :: ids d /\ frame d d'.
Proof.
  intros O E Mv d'. unfold moved_table in Mv. destruct (tbl2 d) as [t|] eqn:E2; [|discriminate]. destruct (decide _) as [|L]; [discriminate|]. injection Mv as ->.
  destruct (o_two _ _ _ O t2 E2) as ([B0 B] & Hn & He & Hm). pose proof (bucket_lt (e_hash e) _ B0) as Hb. pose proof (ids_add t2 _ id Hb) as PI.
  assert (P : ids d' ≡ₚ id :: ids d).
  { unfold ids. cbn [d' set_new tbl tbl2]. rewrite E2, PI. symmetry. apply Permutation_middle. }
  split; [|split; [exact P|split; cbn; rewrite ?E2; try reflexivity; split; eauto]].
  apply (ok0_put d' O); cbn [d' set_new tbl tbl2 mem num_entries num_entries2 thresh_entries thresh_entries2 tbl_next_ind]; auto.
  - apply (o_tbl _ _ _ O).
  - intros t [= <-]. split; [now apply placed_add|]. split; [exact Hn|]. split; [exact He|].
    intros x e' Hx Ex. rewrite PI in Hx. apply elem_of_cons in Hx as [->|Hx]; [|now apply (Hm x)]. rewrite E in Ex. injection Ex as <-. lia.
  - apply (o_num _ _ _ O).
  - intros t [= <-]. rewrite (o_num2 _ _ _ O t2 E2), PI. cbn [length]. lia.
  - split; [apply (o_thresh _ _ _ O)|]. intros t [= <-]. rewrite thresh_set_chain. exact (proj2 (o_thresh _ _ _ O) t2 E2).
Qed.

(** [InsertEntry] of an entry with a key that no other has. *)
Lemma InsertEntry_new {id pend k d} :
  ok0 (id :: pend) k d ->
  exists d', InsertEntry id d = Some (d', 0%nat) /\ ok0 pend k d' /\ ids d' ≡ₚ id :: ids d /\ frame d d'.
Proof.
  intros O. destruct (o_pend _ _ _ O id ltac:(left)) as [e E].
  unfold InsertEntry. rewrite E. cbn [mbind option_bind].
  destruct (search (e_key e) (e_hash e) O) as [(i & id' & e' & _ & _ & H & Em & Hh & Hk)|[-> _]].
  { exfalso. assert (id' = id) as ->.
    { apply (o_keys _ _ _ O id' id e' e); auto; rewrite elem_of_app; [now left|right; left]. }
    pose proof (o_nodup _ _ _ O) as N. apply NoDup_app in N as (_ & N & _). apply (N id H). left. }
  cbn [mbind option_bind]. unfold table_for. destruct (moved_table (e_hash e) d) as [t2|] eqn:Mv; cbn [from_option Datatypes.id];
    eexists; (split; [reflexivity|]).
  - destruct (put_new e t2 (Z.max (max_num_entries2 d) (num_entries2 d + 1)) O E Mv) as (O' & P & F). cbn zeta in O', P, F.
    split; [now apply ok0_iters|]. split; [exact P|now apply frame_iters].
  - destruct (put_old e (Z.max (max_num_entries d) (num_entries d + 1)) O E Mv) as (O' & P & F). cbn zeta in O', P, F.
    split; [now apply ok0_iters|]. split; [exact P|now apply frame_iters].
Qed.

(** ** Entries that are moved *)

(** The chain of the next bucket is taken out. *)
Lemma take_chain {d t2} c max :
  ok0 [] 0 d -> tbl2 d = Some t2 -> buckets (tbl d) !! tbl_next_ind d = Some c ->
  let t := match c with Some _ => set_chain (tbl_next_ind d) None (tbl d) | None => tbl d end in
  let d' := set_old t (num_entries d) max (set_next (S (tbl_next_ind d)) d) in
  ok0 (default [] c) (length (default [] c)) d' /\ ids d ≡ₚ ids d' ++ default [] c.
Proof.
  intros O E2 Hc t d'. assert (Hb : (tbl_next_ind d < num_buckets (tbl d))%nat) by (eapply lookup_lt_Some, Hc).
  assert (Ec : chain (tbl_next_ind d) (tbl d) = default [] c) by (unfold chain; now rewrite Hc).
  assert (Ct : forall j, chain j t = if decide (tbl_next_ind d = j) then [] else chain j (tbl d)).
  { intros j. destruct c as [c|]; unfold t; [now apply chain_set_chain|]. destruct (decide _) as [<-|]; [exact Ec|reflexivity]. }
  assert (Nt : num_buckets t = num_buckets (tbl d)) by (destruct c; unfold t; [apply num_set_chain|reflexivity]).
  assert (Pt : ids_of (tbl d) ≡ₚ ids_of t ++ default [] c).
  { rewrite <- Ec. destruct c as [c|]; unfold t; [rewrite ids_set_chain by exact Hb|rewrite Ec]; cbn; now rewrite app_nil_r. }
  assert (P : ids d ≡ₚ ids d' ++ default [] c).
  { unfold ids. cbn [d' set_old set_next tbl tbl2]. rewrite E2, Pt, <- !app_assoc. apply Permutation_app_head, Permutation_app_comm. }
  assert (Bt : forall h, bucket_of h t = bucket_of h (tbl d)) by (intros h; unfold bucket_of; now rewrite Nt).
  destruct (o_two _ _ _ O t2 E2) as (P2 & Hn & He & Hm). split; [|exact P].
  split; cbn [d' set_old set_next tbl tbl2 mem num_entries num_entries2 thresh_entries thresh_entries2 tbl_next_ind].
  - split; [rewrite Nt; apply (o_tbl _ _ _ O)|]. intros i x. rewrite Ct. setoid_rewrite Bt.
    destruct (decide _); [now intros H%not_elem_of_nil|apply (o_tbl _ _ _ O)].
  - intros t' E'. rewrite E2 in E'. injection E' as <-. rewrite Nt. split; [exact P2|]. split; [lia|]. split.
    + intros i Hi. rewrite Ct. destruct (decide _); [reflexivity|apply He; lia].
    + intros x e Hx Ex. rewrite Bt. specialize (Hm x e Hx Ex). lia.
  - rewrite <- P. pose proof (o_nodup _ _ _ O) as N. now rewrite app_nil_r in N.
  - intros i j e e'. rewrite <- P. pose proof (o_keys _ _ _ O i j e e') as K. now rewrite app_nil_r in K.
  - intros i Hi. apply (ids_mem i O). rewrite app_nil_r, P. apply elem_of_app. now right.
  - rewrite (o_num _ _ _ O), Pt, length_app. lia.
  - intros t' E'. now apply (o_num2 _ _ _ O).
  - assert (Tt : tid t = tid (tbl d)) by (unfold t; now destruct c). rewrite Tt. split; [|apply (o_thresh _ _ _ O)]. unfold thresh. rewrite Nt. apply (o_thresh _ _ _ O).
Qed.

Lemma move_entries_ok c num d :
  ok0 c (length c) d -> exists d' num', move_entries c num d = Some (d', num') /\ ok0 [] 0 d' /\ ids d' ≡ₚ ids d ++ c /\ frame d d'.
Proof.
  revert num d. induction c as [|id c IH]; intros num d O.
  { exists d, num. split; [reflexivity|]. split; [exact O|]. rewrite app_nil_r. now split. }
  destruct (InsertEntry_new O) as (d1 & E & O1 & P1 & F1). cbn [move_entries]. rewrite E. cbn [mbind option_bind].
  set (d2 := set_old (tbl d1) (num_entries d1 - 1) (max_num_entries d1) d1).
  assert (O2 : ok0 c (length c) d2).
  { destruct O1 as [? ? ? ? ? On ? ?]. split; try assumption. cbn [d2 set_old num_entries tbl]. rewrite On. cbn [length]. lia. }
  destruct (IH (num - 1) d2 O2) as (d' & num' & Em & O' & P' & F'). exists d', num'. split; [exact Em|]. split; [exact O'|]. split.
  - rewrite P'. change (ids d2) with (ids d1). rewrite P1. cbn. apply Permutation_middle.
  - apply (frame_trans d d2); [|exact F']. destruct F1. now split.
Qed.

(** What moving leaves alone. *)
Record moved (d d' : Dictionary) : Prop := {
  mv_order : order d' = order d; mv_mem : mem d' = mem d; mv_ids : ids d' ≡ₚ ids d }.

Lemma table_moved_trans d1 d2 d3 : moved d1 d2 -> moved d2 d3 -> moved d1 d3.
Proof. intros [? ? H1] [? ? H2]. split; try congruence. now rewrite H2. Qed.

Lemma move_chains_ok fuel num d :
  ok0 [] 0 d -> is_Some (tbl2 d) -> (tbl_next_ind d < num_buckets (tbl d))%nat -> (num_buckets (tbl d) - tbl_next_ind d <= fuel)%nat ->
  exists d', move_chains fuel num d = Some d' /\ ok0 [] 0 d' /\ moved d d' /\ is_Some (tbl2 d') /\ (tbl_next_ind d' <= num_buckets (tbl d'))%nat.
Proof.
  revert num d. induction fuel as [|fuel IH]; intros num d O [t2 E2] L F; [lia|].
  unfold num_buckets in L. destruct (lookup_lt_is_Some_2 _ _ L) as [c Hc]. fold (num_buckets (tbl d)) in L.
  cbn [move_chains]. rewrite Hc. cbn [mbind option_bind].
  pose (d1 := set_old (match c with Some _ => set_chain (tbl_next_ind d) None (tbl d) | None => tbl d end) (num_entries d) (max_num_entries d) (set_next (S (tbl_next_ind d)) d)).
  destruct (take_chain c (max_num_entries d) O E2 Hc) as (O1 & P1). fold d1 in O1, P1.
  assert (S1 : num_buckets (tbl d1) = num_buckets (tbl d)) by (destruct c; cbn [d1 set_old tbl]; [apply num_set_chain|reflexivity]).
  assert (M : exists d2 num2, match c with
                  | None => Some (set_next (S (tbl_next_ind d)) d, num)
                  | Some c => move_entries c num (set_old (set_chain (tbl_next_ind d) None (tbl (set_next (S (tbl_next_ind d)) d)))
                      (num_entries (set_next (S (tbl_next_ind d)) d)) (max_num_entries (set_next (S (tbl_next_ind d)) d)) (set_next (S (tbl_next_ind d)) d))
                  end = Some (d2, num2) /\ ok0 [] 0 d2 /\ ids d2 ≡ₚ ids d1 ++ default [] c /\ frame d1 d2).
  { destruct c as [c|]; [now apply move_entries_ok|]. exists (set_next (S (tbl_next_ind d)) d), num. split; [reflexivity|].
    assert (Ed : d1 = set_next (S (tbl_next_ind d)) d) by (unfold d1; now destruct d). rewrite <- Ed. split; [exact O1|]. cbn. rewrite app_nil_r. now split. }
  destruct M as (d2 & num2 & -> & O2 & P2 & [Fo Fc Fn Fm Fs Ft]). cbn [mbind option_bind].
  assert (M2 : moved d d2) by (split; [exact Fo|exact Fm|now rewrite P2, P1]).
  assert (T2 : is_Some (tbl2 d2)) by (apply Ft; cbn [d1 set_old set_next tbl2]; eauto).
  assert (N2 : tbl_next_ind d2 = S (tbl_next_ind d)) by exact Fn. rewrite S1 in Fs.
  destruct (decide _) as [[_ Hl]|_].
  - destruct (IH num2 d2 O2 T2 Hl ltac:(lia)) as (d' & E & O' & M' & T' & L'). exists d'. split; [exact E|]. split; [exact O'|].
    split; [now apply (table_moved_trans d d2)|]. now split.
  - exists d2. split; [reflexivity|]. split; [exact O2|]. split; [exact M2|]. split; [exact T2|lia].
Qed.

Lemma all_empty t : (forall i, (i < num_buckets t)%nat -> chain i t = []) -> ids_of t = [].
Proof.
  intros H. destruct (ids_of t) as [|id l] eqn:E; [reflexivity|exfalso].
  assert (Hin : id ∈ ids_of t) by (rewrite E; left). apply chain_in in Hin as [i Hi].
  destruct (Nat.lt_ge_cases i (num_buckets t)) as [L|L]; [rewrite H in Hi by exact L; now apply not_elem_of_nil in Hi|].
  unfold chain, num_buckets in *. rewrite (lookup_ge_None_2 (buckets t) i L) in Hi. now apply not_elem_of_nil in Hi.
Qed.

(** What a dictionary has between operations. *)
Definition resting (d : Dictionary) : Prop := ok0 [] 0 d /\ forall t2, tbl2 d = Some t2 -> (tbl_next_ind d < num_buckets (tbl d))%nat.

(** The second table replaces the first when nothing is left in it. *)
Lemma FinishChangeSize_ok d :
  ok0 [] 0 d -> is_Some (tbl2 d) -> (num_buckets (tbl d) <= tbl_next_ind d)%nat ->
  exists d', FinishChangeSize d = Some d' /\ resting d' /\ moved d d'.
Proof.
  intros O [t2 E2] L. destruct (o_two _ _ _ O t2 E2) as (P2 & Hn & He & Hm).
  assert (Em : ids_of (tbl d) = []) by (apply all_empty; intros i Hi; apply He; lia).
  pose proof (o_num _ _ _ O) as N. rewrite Em in N. unfold FinishChangeSize. rewrite N, E2. cbn.
  assert (I : ids d = ids_of t2) by (unfold ids; rewrite Em, E2; reflexivity).
  eexists. split; [reflexivity|]. match goal with |- resting ?x /\ _ => set (d' := x) end.
  assert (I' : ids d' = ids d) by (unfold ids at 1; cbn [d' tbl tbl2]; now rewrite app_nil_r).
  split; [|split; try reflexivity; now rewrite I']. split; [|discriminate]. destruct O as [? ? On Ok ? ? Om Ot].
  split; try discriminate; rewrite ?I'; try assumption.
  - cbn [d' num_entries tbl]. rewrite (Om t2 E2). lia.
  - split; [now apply Ot|discriminate].
Qed.

Lemma table_moved_refl d : moved d d.
Proof. now split. Qed.

Lemma MoveChains_ok d : resting d -> is_Some (tbl2 d) -> exists d', MoveChains d = Some d' /\ resting d' /\ moved d d'.
Proof.
  intros [O R] [t2 E2]. unfold MoveChains. destruct (cookies d); [|exists d; split; [reflexivity|split; [now split|apply table_moved_refl]]].
  destruct (move_chains_ok (num_buckets (tbl d)) 8 d O) as (d1 & -> & O1 & M1 & T1 & L1); [eauto|now apply (R t2)|lia|]. cbn [mbind option_bind].
  destruct (decide _) as [L|L].
  - destruct (FinishChangeSize_ok d1 O1 T1 L) as (d' & E & R' & M'). exists d'. split; [exact E|]. split; [exact R'|now apply (table_moved_trans d d1)].
  - exists d1. split; [reflexivity|]. split; [|exact M1]. split; [exact O1|]. intros. lia.
Qed.

(** There is a size from every positive one on. *)
Lemma NextPrime_total n : 0 < n -> exists m, NextPrime n = Some m /\ 0 < m.
Proof.
  intros H. destruct (Z.le_gt_cases n 1000) as [L|L].
  - assert (C : forallb (fun i => match NextPrime (Z.of_nat i) with Some m => 0 <? m | None => false end) (seq 1 1000) = true) by (vm_compute; reflexivity).
    rewrite forallb_forall in C. specialize (C (Z.to_nat n)). rewrite Z2Nat.id in C by lia.
    assert (Hin : In (Z.to_nat n) (seq 1 1000)) by (apply in_seq; lia). specialize (C Hin).
    destruct (NextPrime n) as [m|]; [|discriminate]. exists m. split; [reflexivity|now apply Z.ltb_lt].
  - unfold NextPrime, PRIME_THRESH. set (m := if Z.land n 1 =? 0 then n + 1 else n). assert (1000 < m) by (unfold m; destruct (_ =? 0); lia).
    exists m. rewrite (proj2 (Z.ltb_lt 1000 m)) by lia. split; [reflexivity|lia].
Qed.

Lemma new_Table_ok size id : 0 < size -> exists t, new_Table size id = Some t /\ (0 < num_buckets t)%nat /\ (forall i, chain i t = []) /\ tid t = id.
Proof.
  intros H. unfold new_Table. destruct (NextPrime_total size H) as (m & -> & Hm). cbn [mbind option_bind]. rewrite (proj2 (Z.leb_le 0 m)) by lia.
  eexists. split; [reflexivity|]. unfold num_buckets, chain. cbn [buckets]. rewrite repeat_length. split; [lia|]. split; [|reflexivity]. intros i.
  destruct (repeat None _ !! i) as [x|] eqn:E; [|reflexivity]. apply list_elem_of_lookup_2, list_elem_of_In, repeat_spec in E. now rewrite E.
Qed.

Lemma empty_placed m t : (0 < num_buckets t)%nat -> (forall i, chain i t = []) -> placed m t.
Proof. intros H E. split; [exact H|]. intros i id. rewrite E. now intros Hi%not_elem_of_nil. Qed.

Lemma StartChangeSize_ok size d :
  resting d -> tbl2 d = None -> 0 < size -> exists d', StartChangeSize size d = Some d' /\ resting d' /\ moved d d'.
Proof.
  intros [O R] E2 H. unfold StartChangeSize. destruct (cookies d); [|exists d; split; [reflexivity|split; [now split|apply table_moved_refl]]]. rewrite E2.
  destruct (new_Table_ok size (S (tid (tbl d))) H) as (t2 & -> & N2 & C2 & T2). cbn [mbind option_bind].
  assert (I2 : ids_of t2 = []) by (apply all_empty; auto). eexists. split; [reflexivity|].
  assert (I : forall n a b, ids (set_new t2 n a b 0 d) = ids d) by (intros; unfold ids; cbn [set_new tbl tbl2]; rewrite E2, I2; reflexivity).
  split; [|split; try reflexivity; now rewrite I]. destruct O as [Ob ? ? ? ? ? ? Ot].
  split; [split; rewrite ?I; cbn [set_new mem tbl tbl2 num_entries num_entries2 thresh_entries thresh_entries2 tbl_next_ind]; try assumption|].
  - intros t [= <-]. split; [now apply empty_placed|]. split; [lia|]. split; [intros; lia|]. intros x e. rewrite I2. now intros Hx%not_elem_of_nil.
  - intros t [= <-]. now rewrite I2.
  - split; [apply Ot|]. intros t [= <-]. split; [reflexivity|lia].
  - intros t _. apply Ob.
Qed.

(** ** The finite map *)

Definition keyof (m : gmap nat DictEntry) (id : nat) : option (Z * list Z) := (fun e => (e_hash e, e_key e)) <$> m !! id.

(** A dictionary stands for a finite map from hash and key to values, and an ordered one for the
    order of the insertions too; there is no other entry in the memory. *)
Record represents (d : Dictionary) (M : gmap (Z * list Z) nat) (ks : option (list (Z * list Z))) : Prop := {
  r_rest : resting d;
  r_map : forall h k v, M !! (h, k) = Some v <-> has d h k v;
  r_values : forall hk v, M !! hk = Some v -> v <> 0%nat;
  r_live : forall id, is_Some (mem d !! id) <-> id ∈ ids d;
  r_order : match order d, ks with
            | Some l, Some ks => l ≡ₚ ids d /\ omap (keyof (mem d)) l = ks
            | None, None => True
            | _, _ => False
            end }.

(** The tables depend on the keys only. *)
Lemma ok0_mem pend k d o m cs its :
  ok0 pend k d -> (forall i, i ∈ ids d ++ pend -> keyof m i = keyof (mem d) i) -> ok0 pend k (set_objects o m cs its d).
Proof.
  intros O K.
  assert (K1 : forall i e, i ∈ ids d ++ pend -> mem d !! i = Some e -> exists e', m !! i = Some e' /\ e_hash e' = e_hash e /\ e_key e' = e_key e).
  { intros i e Hi E. specialize (K i Hi). unfold keyof in K. rewrite E in K. destruct (m !! i) as [e'|]; [|discriminate]. injection K as H1 H2. eauto. }
  assert (K2 : forall i e, i ∈ ids d ++ pend -> m !! i = Some e -> exists e', mem d !! i = Some e' /\ e_hash e' = e_hash e /\ e_key e' = e_key e).
  { intros i e Hi E. specialize (K i Hi). unfold keyof in K. rewrite E in K. destruct (mem d !! i) as [e'|]; [|discriminate]. injection K as H1 H2. eauto. }
  assert (PL : forall t, (forall i, i ∈ ids_of t -> i ∈ ids d) -> placed (mem d) t -> placed m t).
  { intros t S [P0 P]. split; [exact P0|]. intros i id Hi. destruct (P i id Hi) as (e & E & Hb).
    destruct (K1 id e) as (e' & E' & Hh & _); [apply elem_of_app; left; apply S, chain_in; eauto|exact E|]. exists e'. now rewrite Hh. }
  destruct O as [Ob Ot ? Okk Op ? ? ?]. split; try assumption; cbn [set_objects mem tbl tbl2 tbl_next_ind].
  - apply PL; [|exact Ob]. intros i Hi. apply in_ids. now left.
  - intros t2 E2. destruct (Ot t2 E2) as (P2 & Hn & He & Hm). assert (S2 : forall i, i ∈ ids_of t2 -> i ∈ ids d) by (intros i Hi; apply in_ids; eauto).
    split; [now apply PL|]. split; [exact Hn|]. split; [exact He|].
    intros id e Hi E. destruct (K2 id e) as (e' & E' & <- & _); [apply elem_of_app; left; now apply S2|exact E|]. now apply (Hm id).
  - intros i j e e' Hi Hj E E' Hh Hk. change (ids (set_objects o m cs its d)) with (ids d) in *.
    destruct (K2 i e Hi E) as (e1 & E1 & H1 & H1'), (K2 j e' Hj E') as (e2 & E2 & H2 & H2'). apply (Okk i j e1 e2); congruence.
  - intros i Hi. destruct (Op i Hi) as [e E]. destruct (K1 i e) as (e' & E' & _); [apply elem_of_app; now right|exact E|]. eauto.
Qed.

Lemma resting_mem d o m cs its :
  resting d -> (forall i, i ∈ ids d -> keyof m i = keyof (mem d) i) -> resting (set_objects o m cs its d).
Proof. intros [O R] K. split; [|exact R]. apply ok0_mem; [exact O|]. now rewrite app_nil_r. Qed.

(** One more entry, with a new key. *)
Lemma ok0_pend pend k d id e :
  ok0 pend k d -> id ∉ ids d ++ pend -> mem d !! id = Some e ->
  (forall j e', j ∈ ids d ++ pend -> mem d !! j = Some e' -> ~ (e_hash e' = e_hash e /\ e_key e' = e_key e)) -> ok0 (id :: pend) k d.
Proof.
  intros O N E K. assert (Pm : ids d ++ id :: pend ≡ₚ id :: ids d ++ pend) by (symmetry; apply Permutation_middle).
  destruct O as [? ? On Okk Op ? ? ?]. split; try assumption.
  - rewrite Pm. now apply NoDup_cons.
  - intros i j e1 e2. rewrite Pm, !elem_of_cons. intros [->|Hi] [->|Hj] E1 E2 Hh Hk; [reflexivity| | |eauto]; exfalso.
    + rewrite E in E1. injection E1 as <-. now apply (K j e2).
    + rewrite E in E2. injection E2 as <-. now apply (K i e1).
  - intros i. rewrite elem_of_cons. intros [->|Hi]; eauto.
Qed.

Lemma keyof_ne (m : gmap nat DictEntry) i j e : i <> j -> keyof (<[j := e]> m) i = keyof m i.
Proof. intros N. unfold keyof. now rewrite lookup_insert_ne by auto. Qed.

Lemma omap_ext_in {A B} (f g : A -> option B) (l : list A) : (forall x, x ∈ l -> f x = g x) -> omap f l = omap g l.
Proof.
  induction l as [|x l IH]; intros H; [reflexivity|]. cbn. rewrite (H x) by left. rewrite IH; [reflexivity|]. intros y Hy. apply H. now right.
Qed.

Lemma represents_moved {d M ks} d' : represents d M ks -> resting d' -> moved d d' -> represents d' M ks.
Proof.
  intros [R Rm Rv Rl Ro] R' [Mo Mm Mi]. split; try assumption.
  - intros h k v. rewrite Rm. unfold has. rewrite Mm. setoid_rewrite Mi. reflexivity.
  - intros id. now rewrite Mm, Mi.
  - rewrite Mo, Mm. destruct (order d), ks; try assumption. now rewrite Mi.
Qed.

(** ** The operations *)

Section Operations.

Context (d : Dictionary) (M : gmap (Z * list Z) nat) (ks : option (list (Z * list Z))) (R : represents d M ks).

Lemma rep_ok : ok0 [] 0 d.
Proof. apply (r_rest _ _ _ R). Qed.

Lemma rep_found h k id e : entry_for d h k id e -> M !! (h, k) = Some (e_value e).
Proof. intros (Hi & E & <- & <-). apply (r_map _ _ _ R). exists id. split; [exact Hi|]. now destruct e. Qed.

Lemma rep_none h k : (forall id e, ~ entry_for d h k id e) -> M !! (h, k) = None.
Proof.
  intros N. destruct (M !! (h, k)) as [v|] eqn:E; [exfalso|reflexivity]. apply (r_map _ _ _ R) in E as (id & Hi & E).
  eapply N. split; [exact Hi|]. split; [exact E|]. now split.
Qed.

Lemma Lookup_ok k h : Lookup k h d = Some (default 0%nat (M !! (h, k))).
Proof.
  unfold Lookup. destruct (search k h rep_ok) as [(i & id & e & -> & Hi & F)|[-> N]]; cbn [mbind option_bind].
  - rewrite Hi. cbn [mbind option_bind]. rewrite (rep_found h k id e F). destruct F as (_ & -> & _). reflexivity.
  - now rewrite (rep_none h k N).
Qed.

Lemma live_keys : omap (keyof (mem d)) (ids d) ≡ₚ (map_to_list M).*1.
Proof.
  assert (ND : NoDup (ids d)) by (pose proof (o_nodup _ _ _ rep_ok) as N; now rewrite app_nil_r in N).
  assert (K : forall i j q, i ∈ ids d -> j ∈ ids d -> keyof (mem d) i = Some q -> keyof (mem d) j = Some q -> i = j).
  { intros i j q Hi Hj Ei Ej. unfold keyof in *. destruct (mem d !! i) as [e|] eqn:E1, (mem d !! j) as [e'|] eqn:E2; try discriminate.
    cbn in Ei, Ej. apply (o_keys _ _ _ rep_ok i j e e'); rewrite ?app_nil_r; congruence. }
  apply NoDup_Permutation.
  - clear -ND K. revert ND K. generalize (ids d) as l. induction l as [|x l IH]; intros ND K; [constructor|]. apply NoDup_cons in ND as [N ND].
    assert (K' : forall i j q, i ∈ l -> j ∈ l -> keyof (mem d) i = Some q -> keyof (mem d) j = Some q -> i = j)
      by (intros i j q Hi Hj; apply K; now right).
    cbn. destruct (keyof (mem d) x) as [q|] eqn:E; [|now apply IH]. apply NoDup_cons. split; [|now apply IH].
    intros (y & Hy & Ey)%list_elem_of_omap. assert (x = y) as -> by (apply (K x y q); auto; [left|now right]). contradiction.
  - apply NoDup_fst_map_to_list.
  - intros [h k]. rewrite list_elem_of_omap, list_elem_of_fmap. split.
    + intros (i & Hi & E). unfold keyof in E. destruct (mem d !! i) as [e|] eqn:Em; [|discriminate]. injection E as <- <-.
      exists ((e_hash e, e_key e), e_value e). split; [reflexivity|]. apply elem_of_map_to_list. apply (rep_found _ _ i e). now split.
    + intros ([q v] & -> & Hv). apply elem_of_map_to_list in Hv. destruct q as [h' k']. apply (r_map _ _ _ R) in Hv as (i & Hi & E).
      exists i. split; [exact Hi|]. unfold keyof. now rewrite E.
Qed.

Lemma omap_total {A B} (f : A -> option B) (l : list A) : (forall x, x ∈ l -> is_Some (f x)) -> length (omap f l) = length l.
Proof.
  induction l as [|x l IH]; intros H; [reflexivity|]. cbn. destruct (H x ltac:(left)) as [y ->]. cbn. f_equal. apply IH. intros z Hz. apply H. now right.
Qed.

Lemma Length_ok : Length d = Z.of_nat (size M).
Proof.
  assert (L : length (ids d) = size M).
  { rewrite <- (length_map_to_list M), <- (length_fmap fst), <- live_keys. symmetry. apply omap_total. intros i Hi. unfold keyof.
    apply fmap_is_Some. now apply (r_live _ _ _ R). }
  rewrite <- L. unfold Length, ids. rewrite length_app. pose proof (o_num _ _ _ rep_ok). destruct (tbl2 d) as [t2|] eqn:E2; [|cbn; lia].
  rewrite (o_num2 _ _ _ rep_ok t2 E2). lia.
Qed.

(** The resize of the end of [Insert]. *)
Lemma resize_ok :
  Z.of_nat (size M) < 2 ^ 31 ->
  exists d', match tbl2 d with
      | Some _ => MoveChains d
      | None => if thresh_entries d <=? num_entries d then StartChangeSize (swrap 32 (Z.of_nat (num_buckets (tbl d)) * 2 + 1)) d else Some d
      end = Some d' /\ represents d' M ks.
Proof.
  intros L. pose proof (r_rest _ _ _ R) as Rr.
  assert (X : exists d', match tbl2 d with
      | Some _ => MoveChains d
      | None => if thresh_entries d <=? num_entries d then StartChangeSize (swrap 32 (Z.of_nat (num_buckets (tbl d)) * 2 + 1)) d else Some d
      end = Some d' /\ resting d' /\ moved d d').
  { destruct (tbl2 d) as [t2|] eqn:E2; [apply MoveChains_ok; [exact Rr|rewrite E2; eauto]|].
    destruct (thresh_entries d <=? num_entries d) eqn:T; [|exists d; split; [reflexivity|]; split; [exact Rr|apply table_moved_refl]].
    apply StartChangeSize_ok; [exact Rr|exact E2|]. pose proof Length_ok as HL. unfold Length in HL. rewrite E2 in HL.
    apply Z.leb_le in T. rewrite (proj1 (o_thresh _ _ _ rep_ok)) in T. unfold thresh in T. unfold swrap. rewrite Z.mod_small; lia. }
  destruct X as (d' & E & R' & Mv). exists d'. split; [exact E|]. exact (represents_moved d' R R' Mv).
Qed.

End Operations.

(** A value is overwritten. *)
Lemma overwrite_ok {d M ks} h k v id e :
  represents d M ks -> entry_for d h k id e -> v <> 0%nat ->
  represents (set_mem (<[id := {| e_key := e_key e; e_hash := e_hash e; e_value := v |}]> (mem d)) d) (<[(h, k) := v]> M) ks.
Proof.
  intros R (Hi & E & Hh & Hk) Hv. pose proof (r_rest _ _ _ R) as Rr.
  assert (K : forall i, keyof (<[id := {| e_key := e_key e; e_hash := e_hash e; e_value := v |}]> (mem d)) i = keyof (mem d) i).
  { intros i. destruct (decide (i = id)) as [->|N]; [|now apply keyof_ne]. unfold keyof. now rewrite lookup_insert_eq, E. }
  split.
  - now apply resting_mem.
  - intros h' k' v'. change (has (set_mem _ d) h' k' v') with (exists i, i ∈ ids d /\ <[id := {| e_key := e_key e; e_hash := e_hash e; e_value := v |}]> (mem d) !! i
      = Some {| e_key := k'; e_hash := h'; e_value := v' |}). rewrite lookup_insert_Some, (r_map _ _ _ R). split.
    + intros [[[= <- <-] <-]|[N (i & Hi' & E')]]; [exists id; rewrite lookup_insert_eq, Hh, Hk; auto|].
      exists i. split; [exact Hi'|]. rewrite lookup_insert_ne; [exact E'|]. intros <-. rewrite E in E'. injection E' as ->. cbn in *. congruence.
    + intros (i & Hi' & E'). apply lookup_insert_Some in E' as [[<- [= E1 E2 E3]]|[N E']]; [left; split; congruence|]. right.
      split; [|now exists i]. intros [= -> ->]. apply N. apply (o_keys _ _ _ (rep_ok _ _ _ R) id i e {| e_key := k'; e_hash := h'; e_value := v' |}); rewrite ?app_nil_r; auto.
  - intros hk v' [[_ <-]|[_ E']]%lookup_insert_Some; [exact Hv|now apply (r_values _ _ _ R hk)].
  - intros i. cbn [set_objects mem]. rewrite lookup_insert_is_Some', (r_live _ _ _ R). split; [intros [<-|H]; [exact Hi|exact H]|now right].
  - cbn [set_objects order mem]. pose proof (r_order _ _ _ R) as Ro. destruct (order d), ks; try assumption. destruct Ro as [P <-]. split; [exact P|].
    apply omap_ext_in. intros; apply K.
Qed.

(** A new entry. *)
Lemma added_ok {d M ks} h k v id d' :
  represents d M ks -> mem d !! id = None -> M !! (h, k) = None -> v <> 0%nat -> resting d' -> ids d' ≡ₚ id :: ids d ->
  mem d' = <[id := {| e_key := k; e_hash := h; e_value := v |}]> (mem d) -> order d' = option_map (fun l => l ++ [id]) (order d) ->
  represents d' (<[(h, k) := v]> M) (option_map (fun l => l ++ [(h, k)]) ks).
Proof.
  intros R Fr N Hv R' P Em Eo.
  assert (Ne : forall i, i ∈ ids d -> i <> id) by (intros i Hi ->; apply (r_live _ _ _ R) in Hi as [? Hi]; congruence).
  split.
  - exact R'.
  - intros h' k' v'. unfold has. rewrite Em, lookup_insert_Some, (r_map _ _ _ R). split.
    + intros [[[= <- <-] <-]|[Nk (i & Hi & E)]]; [exists id; rewrite P, lookup_insert_eq; split; [left|reflexivity]|].
      exists i. rewrite P, lookup_insert_ne by (intros ->; now apply (Ne i)). split; [now right|exact E].
    + intros (i & Hi & E). rewrite P, elem_of_cons in Hi. apply lookup_insert_Some in E as [[<- [= <- <- <-]]|[Ni E]]; [now left|].
      destruct Hi as [->|Hi]; [contradiction|]. right. split; [|now exists i]. intros [= <- <-].
      assert (X : M !! (h, k) = Some v') by (apply (r_map _ _ _ R); now exists i). congruence.
  - intros hk v' [[_ <-]|[_ E']]%lookup_insert_Some; [exact Hv|now apply (r_values _ _ _ R hk)].
  - intros i. rewrite Em, P, elem_of_cons, lookup_insert_is_Some', (r_live _ _ _ R). split; intros [->|H]; auto.
  - rewrite Eo, Em. pose proof (r_order _ _ _ R) as Ro. destruct (order d) as [l|], ks as [ks|]; try assumption. cbn. destruct Ro as [Pl <-]. split.
    + rewrite P, Pl. rewrite Permutation_app_comm. reflexivity.
    + rewrite omap_app. cbn. unfold keyof at 2. rewrite lookup_insert_eq. cbn. f_equal. apply omap_ext_in. intros i Hi. apply keyof_ne, Ne. now rewrite <- Pl.
Qed.

Section Insertion.

Context (d : Dictionary) (M : gmap (Z * list Z) nat) (ks : option (list (Z * list Z))) (id : nat) (k : list Z) (h : Z) (v : nat).
Context (R : represents d M ks) (Fr : mem d !! id = None) (Hv : v <> 0%nat) (Hs : Z.of_nat (size M) + 1 < 2 ^ 31).

Let e : DictEntry := {| e_key := k; e_hash := h; e_value := v |}.
Let d1 : Dictionary := set_mem (<[id := e]> (mem d)) d.

Lemma fresh_ne i : i ∈ ids d -> i <> id.
Proof. intros Hi ->. apply (r_live _ _ _ R) in Hi as [? Hi]. congruence. Qed.

Lemma allocated_ok : ok0 [] 0 d1.
Proof. apply ok0_mem; [apply (rep_ok _ _ _ R)|]. intros i Hi. rewrite app_nil_r in Hi. apply keyof_ne. now apply fresh_ne. Qed.

Lemma insert_size : Z.of_nat (size (<[(h, k) := v]> M)) < 2 ^ 31.
Proof. rewrite map_size_insert. destruct (M !! _); cbn; lia. Qed.

Lemma Insert_found i id' e' :
  find_pos (mem d1) k h (chain (bucket_of h (table_for h d1)) (table_for h d1)) = Some (Some i) ->
  chain (bucket_of h (table_for h d1)) (table_for h d1) !! i = Some id' -> entry_for d1 h k id' e' ->
  exists d', Insert id k h v d = Some (d', e_value e') /\ M !! (h, k) = Some (e_value e') /\ represents d' (<[(h, k) := v]> M) ks.
Proof.
  intros Ef Hi F. assert (N : id' <> id) by (apply fresh_ne, F).
  assert (E' : mem d !! id' = Some e') by (destruct F as (_ & E' & _); cbn [d1 set_objects mem] in E'; now rewrite lookup_insert_ne in E' by auto).
  assert (F' : entry_for d h k id' e') by (destruct F as (F1 & _ & F3 & F4); now split).
  pose proof (rep_found _ _ _ R h k id' e' F') as EM. assert (Hv' : e_value e' <> 0%nat) by now apply (r_values _ _ _ R (h, k)).
  unfold Insert, InsertEntry. fold e. fold d1. cbn [d1 set_objects mem]. rewrite lookup_insert_eq. cbn [mbind option_bind].
  change (e_hash e) with h. change (e_key e) with k. fold d1. change (<[id := e]> (mem d)) with (mem d1). rewrite Ef. cbn [mbind option_bind].
  rewrite Hi. cbn [mbind option_bind]. destruct F as (_ & -> & _). cbn [mbind option_bind]. rewrite decide_False by exact Hv'.
  pose proof (overwrite_ok h k v id' e' R F' Hv) as R2.
  assert (Eq : delete id (<[id' := {| e_key := e_key e'; e_hash := e_hash e'; e_value := v |}]> (<[id := e]> (mem d))) =
               <[id' := {| e_key := e_key e'; e_hash := e_hash e'; e_value := v |}]> (mem d)).
  { rewrite delete_insert_ne by auto. now rewrite delete_insert_id. }
  cbn [d1 set_objects mem order cookies iters]. change (e_value e) with v. rewrite Eq.
  destruct (resize_ok _ _ _ R2 insert_size) as (d' & Er & R'). exists d'. unfold set_objects in Er |- *. cbn in Er |- *. rewrite Er. now split.
Qed.

Lemma Insert_fresh :
  (forall i x, ~ entry_for d1 h k i x) ->
  exists d', Insert id k h v d = Some (d', 0%nat) /\ M !! (h, k) = None /\ represents d' (<[(h, k) := v]> M) (option_map (fun l => l ++ [(h, k)]) ks).
Proof.
  intros N. assert (Nk : M !! (h, k) = None).
  { apply (rep_none _ _ _ R). intros i x (Hi & Ei & Hx). apply (N i x). split; [exact Hi|]. split; [|exact Hx]. cbn [d1 set_objects mem].
    rewrite lookup_insert_ne; [exact Ei|]. apply not_eq_sym. now apply fresh_ne. }
  assert (O2 : ok0 [id] 0 d1).
  { apply (ok0_pend [] 0 d1 id e allocated_ok); [rewrite app_nil_r; intros Hi; now apply fresh_ne in Hi|apply lookup_insert_eq|].
    intros j x Hj Ej Hx. rewrite app_nil_r in Hj. apply (N j x). now split. }
  unfold Insert. fold e. fold d1. destruct (InsertEntry_new O2) as (d2 & -> & O3 & P & [Fo Fc Fn Fm Fs Ft]). cbn [mbind option_bind].
  rewrite decide_True by reflexivity. set (d3 := set_objects _ _ _ _ d2).
  assert (R3 : represents d3 (<[(h, k) := v]> M) (option_map (fun l => l ++ [(h, k)]) ks)).
  { apply (added_ok h k v id d3 R Fr Nk Hv); [|exact P|exact Fm|cbn [d3 set_objects order]; rewrite Fo; reflexivity].
    split; [apply ok0_mem; [exact O3|reflexivity]|]. intros t2 E2. cbn [d3 set_objects tbl_next_ind tbl tbl2] in *. rewrite Fn, Fs.
    destruct (proj1 Ft) as [x Ex]; [eauto|]. now apply (proj2 (r_rest _ _ _ R) x). }
  destruct (resize_ok _ _ _ R3 insert_size) as (d' & Er & R'). exists d'. rewrite Er. now split.
Qed.

Lemma Insert_ok :
  exists d', Insert id k h v d = Some (d', default 0%nat (M !! (h, k))) /\
    represents d' (<[(h, k) := v]> M) (match M !! (h, k) with Some _ => ks | None => option_map (fun l => l ++ [(h, k)]) ks end).
Proof.
  destruct (search k h allocated_ok) as [(i & id' & e' & Ef & Hi & F)|[_ N]].
  - destruct (Insert_found i id' e' Ef Hi F) as (d' & E & -> & R'). eauto.
  - destruct (Insert_fresh N) as (d' & E & -> & R'). eauto.
Qed.

End Insertion.

(** ** Removal *)

Lemma remove_nth_perm n c id : c !! n = Some id -> c ≡ₚ id :: remove_nth n c.
Proof.
  intros H. unfold remove_nth. rewrite <- (take_drop_middle c n id H) at 1. symmetry. apply Permutation_middle.
Qed.

Lemma remove_perm id l : id ∈ l -> l ≡ₚ id :: remove id l.
Proof.
  induction l as [|x l IH]; intros H; [now apply not_elem_of_nil in H|]. cbn. destruct (decide (x = id)) as [->|N]; [reflexivity|].
  apply elem_of_cons in H as [->|H]; [contradiction|]. rewrite (IH H) at 1. apply perm_swap.
Qed.

(** The table of the entry without it. *)
Lemma placed_cut m t i n id :
  placed m t -> (i < num_buckets t)%nat -> chain i t !! n = Some id -> placed m (set_chain i (Some (remove_nth n (chain i t))) t).
Proof.
  intros [P0 P] Hi Hn. split; [now rewrite num_set_chain|]. intros j x. rewrite chain_set_chain by exact Hi. setoid_rewrite bucket_set_chain.
  destruct (decide _) as [<-|N]; [|apply P]. cbn [from_option Datatypes.id]. intros Hx. apply P. rewrite (remove_nth_perm n _ id Hn). now right.
Qed.

Lemma ids_cut t i n id :
  (i < num_buckets t)%nat -> chain i t !! n = Some id -> ids_of t ≡ₚ id :: ids_of (set_chain i (Some (remove_nth n (chain i t))) t).
Proof.
  intros Hi Hn. pose proof (ids_set_chain i (Some (remove_nth n (chain i t))) t Hi) as P. cbn [from_option Datatypes.id] in P.
  apply (Permutation_app_inv_r (remove_nth n (chain i t))). rewrite <- P. rewrite (remove_nth_perm n _ id Hn) at 2. cbn. symmetry. apply Permutation_middle.
Qed.

Lemma ok0_cut {k d} id d' :
  ok0 [] k d -> ids d ≡ₚ id :: ids d' -> mem d' = mem d -> placed (mem d') (tbl d') ->
  (forall t2, tbl2 d' = Some t2 ->
     placed (mem d') t2 /\ (tbl_next_ind d' <= num_buckets (tbl d'))%nat /\ (forall i, (i < tbl_next_ind d')%nat -> chain i (tbl d') = []) /\
     (forall id e, id ∈ ids_of t2 -> mem d' !! id = Some e -> (bucket_of (e_hash e) (tbl d') < tbl_next_ind d')%nat)) ->
  num_entries d' = Z.of_nat (length (ids_of (tbl d')) + k) ->
  (forall t2, tbl2 d' = Some t2 -> num_entries2 d' = Z.of_nat (length (ids_of t2))) ->
  (thresh_entries d' = thresh (tbl d') /\ forall t2, tbl2 d' = Some t2 -> thresh_entries2 d' = thresh t2 /\ tid t2 <> tid (tbl d')) ->
  ok0 [] k d'.
Proof.
  intros O P Em. intros. split; try assumption; rewrite ?app_nil_r, ?Em.
  - pose proof (o_nodup _ _ _ O) as N. rewrite app_nil_r, P in N. now apply NoDup_cons in N.
  - intros i j e e' Hi Hj. apply (o_keys _ _ _ O); rewrite app_nil_r, P; now right.
  - intros i Hi. now apply not_elem_of_nil in Hi.
Qed.

Abbreviation cut hash n t := (set_chain (bucket_of hash t) (Some (remove_nth n (chain (bucket_of hash t) t))) t).

Lemma cut_old {d} hash n id max :
  resting d -> moved_table hash d = None -> chain (bucket_of hash (tbl d)) (tbl d) !! n = Some id ->
  let d' := set_old (cut hash n (tbl d)) (num_entries d - 1) max d in resting d' /\ ids d ≡ₚ id :: ids d'.
Proof.
  intros [O R] Mv Hn d'. pose proof (o_tbl _ _ _ O) as [B0 B]. pose proof (bucket_lt hash _ B0) as Hb. pose proof (ids_cut (tbl d) _ n id Hb Hn) as PI.
  assert (P : ids d ≡ₚ id :: ids d') by (unfold ids; cbn [d' set_old tbl tbl2]; now rewrite PI).
  split; [|exact P]. split; [|intros t2 E2; cbn [d' set_old tbl tbl_next_ind]; rewrite num_set_chain; now apply (R t2)].
  apply (ok0_cut id d' O); cbn [d' set_old tbl tbl2 mem num_entries num_entries2 thresh_entries thresh_entries2 tbl_next_ind]; auto.
  - now apply (placed_cut _ _ _ _ id).
  - intros t2 E2. destruct (o_two _ _ _ O t2 E2) as (P2 & Hl & He & Hm). rewrite num_set_chain. split; [exact P2|]. split; [exact Hl|]. split.
    + intros i Hi. rewrite chain_set_chain by exact Hb. rewrite decide_False; [now apply He|]. intros <-. unfold moved_table in Mv. rewrite E2 in Mv.
      destruct (decide _); [lia|discriminate].
    + intros x e'. rewrite bucket_set_chain. apply Hm.
  - rewrite (o_num _ _ _ O), PI. cbn [length]. lia.
  - apply (o_num2 _ _ _ O).
  - rewrite thresh_set_chain. apply (o_thresh _ _ _ O).
Qed.

Lemma cut_new {d} hash n id t2 max :
  resting d -> moved_table hash d = Some t2 -> chain (bucket_of hash t2) t2 !! n = Some id ->
  let d' := set_new (cut hash n t2) (num_entries2 d - 1) max (thresh_entries2 d) (tbl_next_ind d) d in resting d' /\ ids d ≡ₚ id :: ids d'.
Proof.
  intros [O R] Mv Hn d'. unfold moved_table in Mv. destruct (tbl2 d) as [t|] eqn:E2; [|discriminate]. destruct (decide _) as [|L]; [discriminate|]. injection Mv as ->.
  destruct (o_two _ _ _ O t2 E2) as ([B0 B] & Hl & He & Hm). pose proof (bucket_lt hash _ B0) as Hb. pose proof (ids_cut t2 _ n id Hb Hn) as PI.
  assert (P : ids d ≡ₚ id :: ids d').
  { unfold ids. cbn [d' set_new tbl tbl2]. rewrite E2, PI. symmetry. apply Permutation_middle. }
  split; [|exact P]. split; [|intros t _; now apply (R t2)].
  apply (ok0_cut id d' O); cbn [d' set_new tbl tbl2 mem num_entries num_entries2 thresh_entries thresh_entries2 tbl_next_ind]; auto.
  - apply (o_tbl _ _ _ O).
  - intros t [= <-]. split; [now apply (placed_cut _ _ _ _ id)|]. split; [exact Hl|]. split; [exact He|].
    intros x e' Hx. apply Hm. rewrite PI. now right.
  - apply (o_num _ _ _ O).
  - intros t [= <-]. rewrite (o_num2 _ _ _ O t2 E2), PI. cbn [length]. lia.
  - split; [apply (o_thresh _ _ _ O)|]. intros t [= <-]. rewrite thresh_set_chain. exact (proj2 (o_thresh _ _ _ O) t2 E2).
Qed.

Lemma filter_all {A} (P : A -> Prop) `{!forall x, Decision (P x)} (l : list A) : (forall x, x ∈ l -> P x) -> filter P l = l.
Proof.
  induction l as [|x l IH]; intros HP; [reflexivity|]. rewrite filter_cons_True by (apply HP; left). f_equal. apply IH. intros y Hy. apply HP. now right.
Qed.

Lemma order_remove m l id hk :
  NoDup l -> (forall x, x ∈ l -> keyof m x = Some hk <-> x = id) ->
  omap (keyof (delete id m)) (remove id l) = filter (fun q => q <> hk) (omap (keyof m) l).
Proof.
  assert (Same : forall x, x <> id -> keyof (delete id m) x = keyof m x) by (intros x N; unfold keyof; now rewrite lookup_delete_ne by auto).
  induction l as [|x l IH]; intros ND K; [reflexivity|]. apply NoDup_cons in ND as [Nx ND].
  assert (K' : forall y, y ∈ l -> keyof m y = Some hk <-> y = id) by (intros y Hy; apply K; now right).
  cbn [remove]. destruct (decide (x = id)) as [->|N].
  - cbn [omap list_omap]. rewrite (proj2 (K id ltac:(left)) eq_refl). rewrite filter_cons_False by tauto.
    clear IH. assert (E : omap (keyof (delete id m)) l = omap (keyof m) l).
    { apply omap_ext_in. intros y Hy. apply Same. congruence. }
    rewrite E. symmetry. apply filter_all. intros q (y & Hy & Ey)%list_elem_of_omap ->. apply (K' y Hy) in Ey as ->. contradiction.
  - cbn [omap list_omap]. rewrite (Same x N). specialize (IH ND K'). destruct (keyof m x) as [q|] eqn:Eq; [|exact IH].
    rewrite filter_cons_True; [now f_equal|]. intros ->. apply N, K; [left|exact Eq].
Qed.

(** An entry less. *)
Lemma removed_ok {d M ks} h k id e d' :
  represents d M ks -> entry_for d h k id e -> resting d' -> ids d ≡ₚ id :: ids d' -> mem d' = delete id (mem d) ->
  order d' = option_map (remove id) (order d) ->
  represents d' (delete (h, k) M) (option_map (filter (fun q => q <> (h, k))) ks).
Proof.
  intros R (Hid & E & Hh & Hk) R' P Em Eo. pose proof (rep_ok _ _ _ R) as O.
  assert (ND : NoDup (id :: ids d')) by (rewrite <- P; pose proof (o_nodup _ _ _ O) as N; now rewrite app_nil_r in N).
  apply NoDup_cons in ND as [Nid ND'].
  assert (U : forall i x, i ∈ ids d -> mem d !! i = Some x -> e_hash x = h -> e_key x = k -> i = id).
  { intros i x Hi Ex Hx Kx. apply (o_keys _ _ _ O i id x e); rewrite ?app_nil_r; congruence. }
  split.
  - exact R'.
  - intros h' k' v'. unfold has. rewrite Em, lookup_delete_Some, (r_map _ _ _ R). split.
    + intros [N (i & Hi & Ei)]. exists i. rewrite P, elem_of_cons in Hi. destruct Hi as [->|Hi]; [rewrite E in Ei; injection Ei as ->; cbn in *; congruence|].
      split; [exact Hi|]. rewrite lookup_delete_ne by congruence. exact Ei.
    + intros (i & Hi & Ei). apply lookup_delete_Some in Ei as [Ni Ei]. assert (Hi' : i ∈ ids d) by (rewrite P; now right). split; [|now exists i].
      intros [= -> ->]. apply Ni. symmetry. now apply (U i _ Hi' Ei).
  - intros hk v' [_ E']%lookup_delete_Some. now apply (r_values _ _ _ R hk).
  - intros i. rewrite Em, lookup_delete_is_Some, (r_live _ _ _ R), P, elem_of_cons. split; [intros [N [->|H]]; [contradiction|exact H]|].
    intros H. split; [congruence|now right].
  - rewrite Eo, Em. pose proof (r_order _ _ _ R) as Ro. destruct (order d) as [l|], ks as [ks|]; try assumption. cbn. destruct Ro as [Pl <-]. split.
    + apply (Permutation_cons_inv (a := id)). rewrite <- P, <- Pl. symmetry. apply remove_perm. now rewrite Pl.
    + apply order_remove; [rewrite Pl, P; now apply NoDup_cons|]. intros x Hx. rewrite Pl in Hx. unfold keyof. split.
      * destruct (mem d !! x) as [ex|] eqn:Ex; [|discriminate]. intros [= H1 H2]. now apply (U x ex).
      * intros ->. rewrite E. cbn. now rewrite Hh, Hk.
Qed.

Lemma Remove_ok {d M ks} k h :
  represents d M ks ->
  exists d', Remove k h d = Some (d', default 0%nat (M !! (h, k))) /\ represents d' (delete (h, k) M) (option_map (filter (fun q => q <> (h, k))) ks).
Proof.
  intros R. pose proof (rep_ok _ _ _ R) as O. unfold Remove. destruct (search k h O) as [(n & id & e & -> & Hn & F)|[-> N]]; cbn [mbind option_bind].
  - rewrite Hn, (rep_found _ _ _ R h k id e F). assert (E : mem d !! id = Some e) by apply F. cbn [mbind option_bind]. rewrite E. cbn [mbind option_bind from_option Datatypes.id].
    eexists. split; [reflexivity|]. unfold table_for in *.
    assert (Ok : forall d', resting d' -> ids d ≡ₚ id :: ids d' -> forall o cs its, resting (set_objects o (delete id (mem d')) cs its d')).
    { intros d' R' P o cs its. apply resting_mem; [exact R'|]. intros i Hi. unfold keyof. rewrite lookup_delete_ne; [reflexivity|].
      intros <-. pose proof (o_nodup _ _ _ O) as ND. rewrite app_nil_r, P in ND. now apply NoDup_cons in ND as [ND _]. }
    destruct (moved_table h d) as [t2|] eqn:Mv; cbn [from_option Datatypes.id] in *.
    + destruct (cut_new h n id t2 (max_num_entries2 d) (r_rest _ _ _ R) Mv Hn) as [R' P]. cbn zeta in R', P.
      apply (removed_ok h k id e _ R F); [apply (Ok _ R' P)|exact P|reflexivity|reflexivity].
    + destruct (cut_old h n id (max_num_entries d) (r_rest _ _ _ R) Mv Hn) as [R' P]. cbn zeta in R', P.
      apply (removed_ok h k id e _ R F); [apply (Ok _ R' P)|exact P|reflexivity|reflexivity].
  - pose proof (rep_none _ _ _ R h k N) as Nk. rewrite Nk. exists d. split; [reflexivity|]. rewrite delete_id by exact Nk.
    destruct ks as [ks|]; [|exact R]. cbn [option_map]. rewrite filter_all; [exact R|]. intros q Hq ->.
    pose proof (r_order _ _ _ R) as Ro. destruct (order d) as [l|]; [|contradiction]. destruct Ro as [Pl <-].
    apply list_elem_of_omap in Hq as (i & Hi & Ei). rewrite Pl in Hi. unfold keyof in Ei. destruct (mem d !! i) as [x|] eqn:Ex; [|discriminate].
    injection Ei as Hh Hk. apply (N i x). now split.
Qed.

(** The value of the [n]th key that is still there, in the order of the insertions. *)
Lemma NthEntry_ok {d M ks} n :
  represents d M (Some ks) -> NthEntry n d = Some (if decide (n < 0) then 0%nat else default 0%nat (ks !! Z.to_nat n ≫= fun hk => M !! hk)).
Proof.
  intros R. pose proof (r_order _ _ _ R) as Ro. unfold NthEntry. destruct (order d) as [l|] eqn:Eo; [|contradiction]. destruct Ro as [Pl Ek].
  assert (T : forall x, x ∈ l -> is_Some (keyof (mem d) x)).
  { intros x Hx. apply fmap_is_Some, (r_live _ _ _ R). now rewrite <- Pl. }
  assert (L : Length d = Z.of_nat (length l)).
  { rewrite (Length_ok _ _ _ R), <- (length_map_to_list M), <- (length_fmap fst), <- (live_keys _ _ _ R), omap_total, Pl; [reflexivity|].
    intros i Hi. apply T. now rewrite Pl. }
  assert (K : forall i, ks !! i = l !! i ≫= keyof (mem d)).
  { rewrite <- Ek. clear -T. induction l as [|x l IH]; intros i; [reflexivity|]. destruct (T x ltac:(left)) as [q Eq]. cbn [omap list_omap]. rewrite Eq.
    destruct i as [|i]; cbn; [now rewrite Eq|]. apply IH. intros y Hy. apply T. now right. }
  destruct (decide (n < 0)) as [Neg|Pos]; [now rewrite (proj2 (Z.ltb_lt n 0) Neg)|]. rewrite (proj2 (Z.ltb_ge n 0)) by lia. rewrite L, K. cbn [orb].
  destruct (Z.leb_spec (Z.of_nat (length l)) n) as [Hn|Hn]; [now rewrite lookup_ge_None_2 by lia|].
  destruct (lookup_lt_is_Some_2 l (Z.to_nat n)) as [id Hid]; [lia|]. rewrite Hid. cbn [mbind option_bind]. unfold keyof.
  assert (Hin : id ∈ ids d) by (rewrite <- Pl; apply list_elem_of_lookup; eauto). destruct (ids_mem id (rep_ok _ _ _ R)) as [e E]; [now rewrite app_nil_r|].
  rewrite E. cbn. rewrite (rep_found _ _ _ R _ _ id e); [reflexivity|]. now split.
Qed.

Lemma new_Dictionary_ok ordered size :
  0 < size -> exists d, new_Dictionary ordered size = Some d /\ represents d ∅ (if ordered then Some [] else None).
Proof.
  intros H. unfold new_Dictionary. destruct (new_Table_ok size 0 H) as (t & -> & N & C & _). cbn [mbind option_bind]. eexists. split; [reflexivity|].
  assert (I : ids_of t = []) by (apply all_empty; auto).
  match goal with |- represents ?x _ _ => set (d := x) end. assert (Id : ids d = []) by (unfold ids; cbn [d tbl tbl2]; now rewrite I).
  split.
  - split; [|discriminate]. split; rewrite ?Id; try discriminate.
    + now apply empty_placed.
    + constructor.
    + intros i Hi. now apply not_elem_of_nil in Hi.
    + cbn [d num_entries tbl]. now rewrite I.
    + now split.
  - intros h k v. unfold has. rewrite Id, lookup_empty. split; [discriminate|]. intros (i & Hi & _). now apply not_elem_of_nil in Hi.
  - intros hk v. now rewrite lookup_empty.
  - intros i. cbn [d mem]. rewrite lookup_empty, Id. split; [intros [? [=]]|]. now intros Hi%not_elem_of_nil.
  - rewrite Id. unfold d. cbn [order mem]. destruct ordered; [now split|exact Logic.I].
Qed.

End DictThms.
