(* ===== verification/DictIter.v ===== *)
(** * The dictionary's contract: a finite map, and iteration over it

    The refinement of the dictionary's operations to a finite map, that an iteration visits each
    entry once, and what the robust cookies do not give while the table is enlarged. *)
From S2P Require Import Prelude Dict DictThms.
From Stdlib Require Import ZArith Lia List Bool.
From stdpp Require Import gmap list.
Import Dict DictThms.

Open Scope Z_scope.

(** ** A walk over the chains *)

(** What a cookie at this bucket and offset has still before it in the table. *)
Definition rest (t : Table) (b o : nat) : list nat := drop o (chain b t) ++ concat (map (default []) (drop (S b) (buckets t))).

Lemma drop_chain t b : (b < num_buckets t)%nat -> concat (map (default []) (drop b (buckets t))) = chain b t ++ concat (map (default []) (drop (S b) (buckets t))).
Proof.
  intros H. unfold num_buckets in H. destruct (lookup_lt_is_Some_2 _ _ H) as [c Hc]. rewrite (drop_S _ c _ Hc). cbn. unfold chain. now rewrite Hc.
Qed.

Lemma rest_start t : (0 < num_buckets t)%nat -> rest t 0 0 = ids_of t.
Proof. intros H. unfold rest, ids_of. rewrite drop_0. rewrite <- (drop_chain t 0 H). now rewrite drop_0. Qed.

Lemma rest_cons t b o x : chain b t !! o = Some x -> rest t b o = x :: rest t b (S o).
Proof. intros H. unfold rest. now rewrite (drop_S _ x _ H). Qed.

Lemma rest_next t b o : chain b t !! o = None -> rest t b o = concat (map (default []) (drop (S b) (buckets t))).
Proof. intros H. unfold rest. rewrite drop_ge; [reflexivity|]. now apply lookup_ge_None. Qed.

Lemma next_bucket_ok fuel b t :
  (num_buckets t - b <= fuel)%nat ->
  let b' := next_bucket fuel b (num_buckets t) t in
  concat (map (default []) (drop b (buckets t))) = concat (map (default []) (drop b' (buckets t))) /\
  ((num_buckets t <= b')%nat \/ ((b' < num_buckets t)%nat /\ exists x, chain b' t !! 0%nat = Some x)).
Proof.
  revert b. induction fuel as [|fuel IH]; intros b L; cbn [next_bucket]; [split; [reflexivity|left; lia]|].
  destruct (decide _) as [[Hb He]|N].
  - destruct (IH (S b) ltac:(lia)) as [E H]. split; [|exact H]. rewrite (drop_chain t b Hb), He. exact E.
  - split; [reflexivity|]. destruct (Nat.lt_ge_cases b (num_buckets t)) as [Hb|Hb]; [right|left; exact Hb]. split; [exact Hb|].
    destruct (chain b t) as [|x c]; [now destruct N|]. now exists x.
Qed.

(** ** One step of an iteration *)

(** What is left for a cookie: the rest of its table, and the second one when it is in the first. *)
Definition left_over (d : Dictionary) (c : IterCookie) : list nat :=
  match default (tid (tbl d), false) (ttbl c), tbl2 d with
  | (_, true), Some t2 => rest t2 (bucket c) (offset c)
  | (_, true), None => []
  | (_, false), Some t2 => rest (tbl d) (bucket c) (offset c) ++ ids_of t2
  | (_, false), None => rest (tbl d) (bucket c) (offset c)
  end.

(** The table of a cookie is one of the two. *)
Definition cookie_ok (d : Dictionary) (c : IterCookie) : Prop :=
  inserted c = [] /\
  match default (tid (tbl d), false) (ttbl c) with
  | (tb, true) => exists t2, tbl2 d = Some t2 /\ tb = tid t2
  | (tb, false) => tb = tid (tbl d)
  end.

(** A cookie in table [t], which is the first or the second, one step on. *)
Definition step_in (t : Table) (tb : nat) (second : bool) (b o : nat) : option (IterCookie * nat) :=
  match chain b t !! o with
  | Some id => Some ({| bucket := b; offset := S o; ttbl := Some (tb, second); inserted := [] |}, id)
  | None =>
      let b' := next_bucket (num_buckets t) (S b) (num_buckets t) t in
      if decide (num_buckets t <= b')%nat then None
      else id ← chain b' t !! 0%nat; Some ({| bucket := b'; offset := 1; ttbl := Some (tb, second); inserted := [] |}, id)
  end.

Lemma step_in_ok t tb second b o :
  match step_in t tb second b o with
  | Some (c, id) => rest t b o = id :: rest t (bucket c) (offset c) /\ ttbl c = Some (tb, second) /\ inserted c = []
  | None => rest t b o = []
  end.
Proof.
  unfold step_in. destruct (chain b t !! o) as [id|] eqn:E; [now rewrite (rest_cons t b o id E)|].
  rewrite (rest_next t b o E). destruct (next_bucket_ok (num_buckets t) (S b) t ltac:(lia)) as [Ec H]. rewrite Ec.
  set (b' := next_bucket _ _ _ _) in *. destruct (decide _) as [L|L].
  - unfold num_buckets in L. now rewrite drop_ge by exact L.
  - destruct H as [H|[Hb [x Hx]]]; [contradiction|]. rewrite Hx. cbn [mbind option_bind]. cbn [bucket offset ttbl inserted]. split; [|now split].
    rewrite (drop_chain t b' Hb). unfold rest. destruct (chain b' t) as [|y l]; [discriminate|]. injection Hx as ->. reflexivity.
Qed.

(** [NextEntry] is that step; at the end of the first table it goes on in the second. *)
Lemma NextEntry_step fuel ci d c :
  resting d -> iters d !! ci = Some c -> cookie_ok d c ->
  let '(tb, second) := default (tid (tbl d), false) (ttbl c) in
  exists t, table_at tb d = Some t /\ (if second then tbl2 d = Some t else t = tbl d) /\
  NextEntry (S fuel) ci d =
    match step_in t tb second (bucket c) (offset c), tbl2 d with
    | Some (c', id), _ => Some (set_iters (<[ci := c']> (iters d)) d, Some id)
    | None, Some t2 =>
        if second then Some (set_objects (order d) (mem d) (remove ci (cookies d)) (delete ci (iters d)) d, None)
        else NextEntry fuel ci (set_iters (<[ci := {| bucket := 0; offset := 0; ttbl := Some (tid t2, true); inserted := [] |}]> (iters d)) d)
    | None, None => Some (set_objects (order d) (mem d) (remove ci (cookies d)) (delete ci (iters d)) d, None)
    end.
Proof.
  intros [O _] Ei [In Tb]. cbn [NextEntry]. rewrite Ei. cbn [mbind option_bind]. rewrite In. cbn [rev].
  destruct (default (tid (tbl d), false) (ttbl c)) as [tb second] eqn:Et.
  assert (T : exists t, table_at tb d = Some t /\ (if second then tbl2 d = Some t else t = tbl d) /\
    (if second then match tbl2 d with Some t2 => num_buckets t2 | None => 0%nat end else num_buckets (tbl d)) = num_buckets t /\
    (second = true -> tb <> tid (tbl d)) /\ (second = false -> tb = tid (tbl d))).
  { unfold table_at. destruct second.
    - destruct Tb as (t2 & E2 & ->). pose proof (proj2 (proj2 (o_thresh _ _ _ O) t2 E2)) as N. exists t2.
      rewrite E2, (decide_False (P := tid t2 = tid (tbl d))), decide_True by auto. repeat split; auto; try discriminate.
    - exists (tbl d). rewrite decide_True by exact Tb. repeat split; auto; try discriminate. }
  destruct T as (t & Ta & Ts & Tn & T1 & T2). exists t. split; [exact Ta|]. split; [exact Ts|]. rewrite Ta. cbn [mbind option_bind]. rewrite Tn.
  unfold step_in. destruct (chain (bucket c) t !! offset c) as [id|]; [reflexivity|]. destruct (decide (num_buckets t <= _)%nat) as [L|L].
  - destruct (tbl2 d) as [t2|]; [|reflexivity]. destruct second; [rewrite decide_False by auto|rewrite decide_True by auto]; reflexivity.
  - destruct (chain _ t !! 0%nat) eqn:Ex; cbn [mbind option_bind]; [reflexivity|].
    exfalso. destruct (next_bucket_ok (num_buckets t) (S (bucket c)) t ltac:(lia)) as [_ [H|(_ & x & H)]]; [contradiction|congruence].
Qed.

(** ** A whole iteration *)

Lemma resting_iters d its : resting d -> resting (set_iters its d).
Proof. intros R. now apply resting_mem. Qed.

Abbreviation finished ci d := (set_objects (order d) (mem d) (remove ci (cookies d)) (delete ci (iters d)) d).

Lemma NextEntry_ok ci d c :
  resting d -> iters d !! ci = Some c -> cookie_ok d c ->
  match left_over d c with
  | id :: l => exists c', NextEntry 2 ci d = Some (set_iters (<[ci := c']> (iters d)) d, Some id) /\ cookie_ok d c' /\ left_over d c' = l
  | [] => NextEntry 2 ci d = Some (finished ci d, None)
  end.
Proof.
  intros R Ei Ck. pose proof (NextEntry_step 1 ci d c R Ei Ck) as S. unfold left_over. destruct Ck as [In Tb].
  destruct (default (tid (tbl d), false) (ttbl c)) as [tb second] eqn:Et. destruct S as (t & Ta & Ts & ->).
  pose proof (step_in_ok t tb second (bucket c) (offset c)) as St. destruct (step_in t tb second (bucket c) (offset c)) as [[c' id]|] eqn:Es.
  - destruct St as (Er & Ec & Ic). assert (Ck' : cookie_ok d c') by (split; [exact Ic|rewrite Ec; exact Tb]).
    destruct second, (tbl2 d) as [t2|] eqn:E2; try discriminate; [injection Ts as ->|subst t|subst t]; rewrite Er; cbn [app];
      exists c'; rewrite Ec; repeat split; apply Ck' || reflexivity.
  - destruct second, (tbl2 d) as [t2|] eqn:E2; try discriminate; [injection Ts as ->; now rewrite St| |subst t; now rewrite St].
    subst t. rewrite St. cbn [app]. set (c0 := {| bucket := 0; offset := 0; ttbl := Some (tid t2, true); inserted := [] |}).
    set (d0 := set_iters (<[ci := c0]> (iters d)) d).
    assert (R0 : resting d0) by now apply resting_iters. assert (Ei0 : iters d0 !! ci = Some c0) by apply lookup_insert_eq.
    assert (Ck0 : cookie_ok d0 c0) by (split; [reflexivity|exists t2; now split]).
    pose proof (NextEntry_step 0 ci d0 c0 R0 Ei0 Ck0) as S0. cbn [c0 ttbl from_option Datatypes.id] in S0. destruct S0 as (t & _ & T0 & ->).
    change (tbl2 d0) with (tbl2 d) in T0 |- *. rewrite E2 in T0 |- *. injection T0 as <-. cbn [c0 bucket offset].
    pose proof (step_in_ok t2 (tid t2) true 0 0) as S0. rewrite rest_start in S0 by apply (o_two _ _ _ (proj1 R) t2 E2).
    destruct (step_in t2 (tid t2) true 0 0) as [[c' id]|].
    + destruct S0 as (-> & Ec & Ic). exists c'. rewrite Ec. split; [unfold d0; cbn [set_objects iters]; unfold set_objects; cbn; now rewrite insert_insert_eq|].
      split; [split; [exact Ic|rewrite Ec; now exists t2]|reflexivity].
    + rewrite S0. unfold d0, set_objects. cbn. now rewrite delete_insert_eq.
Qed.

(** The loop of a client. *)
Fixpoint iterate (fuel ci : nat) (d : Dictionary) : option (Dictionary * list nat) :=
  match fuel with
  | O => None
  | S fuel =>
      '(d, r) ← NextEntry 2 ci d;
      match r with
      | None => Some (d, [])
      | Some id => '(d, l) ← iterate fuel ci d; Some (d, id :: l)
      end
  end.

Lemma iterate_ok l ci d c :
  resting d -> iters d !! ci = Some c -> cookie_ok d c -> left_over d c = l -> iterate (S (length l)) ci d = Some (finished ci d, l).
Proof.
  revert d c. induction l as [|id l IH]; intros d c R Ei Ck El; pose proof (NextEntry_ok ci d c R Ei Ck) as N; rewrite El in N; cbn [iterate length].
  - now rewrite N.
  - destruct N as (c' & -> & Ck' & El'). cbn [mbind option_bind].
    change (match l with [] => 1%nat | _ :: l0 => S (S (length l0)) end) with (S (length l)).
    pose proof (IH (set_iters (<[ci := c']> (iters d)) d) c' (resting_iters _ _ R) (lookup_insert_eq _ _ _) Ck' El') as E.
    cbn [iterate] in E. rewrite E. cbn [mbind option_bind]. unfold set_objects. cbn. now rewrite delete_insert_eq.
Qed.

(** An entry as a pair of the finite map. *)
Definition binding (m : gmap nat DictEntry) (id : nat) : option ((Z * list Z) * nat) := (fun e => ((e_hash e, e_key e), e_value e)) <$> m !! id.

Lemma live_bindings {d M ks} : represents d M ks -> omap (binding (mem d)) (ids d) ≡ₚ map_to_list M.
Proof.
  intros R. pose proof (live_keys d M ks R) as K.
  assert (F : forall l, (omap (binding (mem d)) l).*1 = omap (keyof (mem d)) l).
  { induction l as [|x l IH]; [reflexivity|]. cbn. unfold binding at 1, keyof at 1. destruct (mem d !! x); cbn; [now f_equal|exact IH]. }
  apply NoDup_Permutation.
  - apply (NoDup_fmap_1 fst). rewrite F, K. apply NoDup_fst_map_to_list.
  - apply NoDup_map_to_list.
  - intros [[h k] v]. rewrite list_elem_of_omap, elem_of_map_to_list, (r_map _ _ _ R). unfold has, binding. split.
    + intros (i & Hi & E). exists i. split; [exact Hi|]. destruct (mem d !! i) as [e|]; [|discriminate]. injection E as <- <- <-. now destruct e.
    + intros (i & Hi & E). exists i. split; [exact Hi|]. now rewrite E.
Qed.

(** C16: an iteration that starts at any time, also while the table is being enlarged and its entries are in
    two tables, returns each entry of the dictionary exactly once and then ends, and changes nothing. *)
Theorem iteration_complete d M ks ci :
  represents d M ks ->
  exists d' l, iterate (S (size M)) ci (InitForIteration ci d) = Some (d', l) /\ omap (binding (mem d)) l ≡ₚ map_to_list M /\ represents d' M ks.
Proof.
  intros R. set (d0 := InitForIteration ci d). pose proof (r_rest _ _ _ R) as Rr.
  assert (R0 : resting d0) by now apply resting_iters.
  assert (L : left_over d0 {| bucket := 0; offset := 0; ttbl := None; inserted := [] |} = ids d).
  { unfold left_over, ids. cbn [ttbl from_option bucket offset d0 InitForIteration set_objects tbl tbl2]. pose proof (proj1 (o_tbl _ _ _ (proj1 Rr))).
    destruct (tbl2 d); rewrite rest_start, ?app_nil_r by assumption; reflexivity. }
  assert (S : length (ids d) = size M).
  { rewrite <- length_map_to_list, <- (live_bindings R). symmetry. apply omap_total. intros i Hi. apply fmap_is_Some. now apply (r_live _ _ _ R). }
  exists (finished ci d0), (ids d). split; [|split; [exact (live_bindings R)|]].
  - rewrite <- S. apply (iterate_ok (ids d) ci d0 _ R0 (lookup_insert_eq _ _ _)); [now split|exact L].
  - apply (represents_moved _ R); [|now split]. apply resting_mem; [exact R0|reflexivity].
Qed.

(** ** Sequences of operations *)

Inductive DictOp :=
| OInsert (key : list Z) (hash : Z) (val : nat)
| ORemove (key : list Z) (hash : Z)
| OLookup (key : list Z) (hash : Z)
| ONth (n : Z)
| OLength.

Section Run.

(** [operator new]: an address that is not in use. *)
Context (alloc : gmap nat DictEntry -> nat) (alloc_fresh : forall m, m !! alloc m = None).

Definition dict_op (op : DictOp) (d : Dictionary) : option (Dictionary * Z) :=
  match op with
  | OInsert key hash val => '(d, v) ← Insert (alloc (mem d)) key hash val d; Some (d, Z.of_nat v)
  | ORemove key hash => '(d, v) ← Remove key hash d; Some (d, Z.of_nat v)
  | OLookup key hash => v ← Lookup key hash d; Some (d, Z.of_nat v)
  | ONth n => v ← NthEntry n d; Some (d, Z.of_nat v)
  | OLength => Some (d, Length d)
  end.

Fixpoint dict_ops (ops : list DictOp) (d : Dictionary) : option (Dictionary * list Z) :=
  match ops with
  | [] => Some (d, [])
  | op :: ops => '(d, r) ← dict_op op d; '(d, rs) ← dict_ops ops d; Some (d, r :: rs)
  end.

(** The same on a finite map, with the keys in the order of their insertion when the dictionary is ordered. *)
Definition map_op (op : DictOp) (s : gmap (Z * list Z) nat * option (list (Z * list Z))) : gmap (Z * list Z) nat * option (list (Z * list Z)) * Z :=
  let '(M, ks) := s in
  match op with
  | OInsert key hash val =>
      (<[(hash, key) := val]> M, match M !! (hash, key) with Some _ => ks | None => option_map (fun l => l ++ [(hash, key)]) ks end,
       Z.of_nat (default 0%nat (M !! (hash, key))))
  | ORemove key hash => (delete (hash, key) M, option_map (filter (fun q => q <> (hash, key))) ks, Z.of_nat (default 0%nat (M !! (hash, key))))
  | OLookup key hash => (M, ks, Z.of_nat (default 0%nat (M !! (hash, key))))
  | ONth n => (M, ks, match ks with
                      | Some l => if decide (n < 0) then 0 else Z.of_nat (default 0%nat (l !! Z.to_nat n ≫= fun q => M !! q))
                      | None => 0
                      end)
  | OLength => (M, ks, Z.of_nat (size M))
  end.

Fixpoint map_ops (ops : list DictOp) (s : gmap (Z * list Z) nat * option (list (Z * list Z))) : gmap (Z * list Z) nat * option (list (Z * list Z)) * list Z :=
  match ops with
  | [] => (s, [])
  | op :: ops => let '(s, r) := map_op op s in let '(s, rs) := map_ops ops s in (s, r :: rs)
  end.

(** Null is no value. *)
Definition op_ok (op : DictOp) : Prop := match op with OInsert _ _ val => val <> 0%nat | _ => True end.

Lemma dict_op_ok op d M ks :
  represents d M ks -> op_ok op -> Z.of_nat (size M) + 1 < 2 ^ 31 ->
  exists d', dict_op op d = Some (d', snd (map_op op (M, ks))) /\ represents d' (fst (fst (map_op op (M, ks)))) (snd (fst (map_op op (M, ks)))).
Proof.
  intros R H L. destruct op as [k h v|k h|k h|n|]; cbn [dict_op map_op fst snd].
  - destruct (Insert_ok d M ks (alloc (mem d)) k h v R (alloc_fresh _) H L) as (d' & -> & R'). now exists d'.
  - destruct (Remove_ok k h R) as (d' & -> & R'). now exists d'.
  - rewrite (Lookup_ok d M ks R). now exists d.
  - exists d. split; [|exact R]. destruct ks as [l|].
    + rewrite (NthEntry_ok n R). cbn [mbind option_bind]. now destruct (decide (n < 0)).
    + unfold NthEntry. pose proof (r_order _ _ _ R) as Ro. now destruct (order d).
  - rewrite (Length_ok d M ks R). now exists d.
Qed.

Lemma map_op_size op s : (size (fst (fst (map_op op s))) <= S (size (fst s)))%nat.
Proof.
  destruct s as [M ks]. destruct op as [k h v|k h|k h|n|]; cbn [map_op fst]; try lia.
  - rewrite map_size_insert. destruct (M !! _); cbn; lia.
  - rewrite map_size_delete. destruct (M !! _); cbn; lia.
Qed.

Lemma dict_ops_ok ops d M ks :
  represents d M ks -> Forall op_ok ops -> Z.of_nat (size M) + Z.of_nat (length ops) < 2 ^ 31 ->
  exists d', dict_ops ops d = Some (d', snd (map_ops ops (M, ks))) /\ represents d' (fst (fst (map_ops ops (M, ks)))) (snd (fst (map_ops ops (M, ks)))).
Proof.
  revert d M ks. induction ops as [|op ops IH]; intros d M ks R F L; [now exists d|]. apply Forall_cons in F as [H F]. cbn [length] in L.
  destruct (dict_op_ok op d M ks R H ltac:(lia)) as (d1 & E1 & R1). cbn [dict_ops map_ops]. rewrite E1. cbn [mbind option_bind].
  pose proof (map_op_size op (M, ks)) as Sz. destruct (map_op op (M, ks)) as [[M1 ks1] r]. cbn [fst snd] in *.
  destruct (IH d1 M1 ks1 R1 F ltac:(lia)) as (d2 & -> & R2). cbn [mbind option_bind]. exists d2.
  destruct (map_ops ops (M1, ks1)) as [[M2 ks2] rs]. now split.
Qed.

(** C15: a dictionary is a finite map: from a new one, any sequence of insertions, removals, lookups, accesses by
    position and length queries gives the results that a finite map from hash and key gives, whether or not the
    table is being enlarged between them and whatever keys have the same bucket; no operation meets a freed entry,
    a table that has a successor already or a first table that is not empty when it is discarded; and the entries
    in memory are those of the map. *)
Theorem dictionary_refines ordered initial_size ops :
  0 < initial_size -> Forall op_ok ops -> Z.of_nat (length ops) < 2 ^ 31 ->
  exists d0 d, new_Dictionary ordered initial_size = Some d0 /\
    dict_ops ops d0 = Some (d, snd (map_ops ops (∅, if ordered then Some [] else None))) /\
    size (mem d) = size (fst (fst (map_ops ops (∅, if ordered then Some [] else None)))).
Proof.
  intros H F L. destruct (new_Dictionary_ok ordered initial_size H) as (d0 & E0 & R0). exists d0.
  destruct (dict_ops_ok ops d0 ∅ _ R0 F) as (d & E & R); [rewrite map_size_empty; lia|]. exists d. split; [exact E0|]. split; [exact E|].
  rewrite <- (length_map_to_list (fst _)), <- (live_bindings R), omap_total by (intros i Hi; apply fmap_is_Some; now apply (r_live _ _ _ R)).
  assert (ND : NoDup (ids d)) by (pose proof (o_nodup _ _ _ (rep_ok _ _ _ R)) as N; now rewrite app_nil_r in N).
  rewrite <- size_dom, <- (size_list_to_set (C := gset nat) (ids d) ND). f_equal. apply set_eq. intros i.
  rewrite elem_of_dom, elem_of_list_to_set. apply (r_live _ _ _ R).
Qed.

End Run.

(** ** Examples *)

Definition first_free (m : gmap nat DictEntry) : nat := fresh (elements (dom m)).

Lemma first_free_fresh m : m !! first_free m = None.
Proof. apply not_elem_of_dom. rewrite <- elem_of_elements. apply infinite_is_fresh. Qed.

(** Twenty keys in a table of one bucket at first, of which seven are removed again. *)
Definition demo_ops : list DictOp :=
  map (fun i => OInsert [Z.of_nat i] (Z.of_nat i) (S i)) (seq 0 20) ++ map (fun i => ORemove [3 * Z.of_nat i] (3 * Z.of_nat i)) (seq 0 7) ++
  [OInsert [4] 4 99%nat; OLookup [4] 4; OLookup [3] 3; ONth 1; OLength].

Lemma dictionary_refines_witness :
  exists d0 d rs, new_Dictionary true 1 = Some d0 /\ dict_ops first_free demo_ops d0 = Some (d, rs) /\
    skipn 27 rs = [5; 99; 0; 3; 13] /\ size (mem d) = 13%nat.
Proof.
  destruct (dictionary_refines first_free first_free_fresh true 1 demo_ops) as (d0 & d & E0 & E & Es).
  - lia.
  - unfold demo_ops. repeat constructor; discriminate.
  - vm_compute. reflexivity.
  - exists d0, d. eexists. split; [exact E0|]. split; [exact E|]. split; [vm_compute; reflexivity|]. rewrite Es. vm_compute. reflexivity.
Defined.

(** A dictionary of five buckets whose table is being enlarged: three of them are moved. *)
Definition demo_hashes : list Z := [0; 1; 2; 3; 4; 5; 21; 7; 8; 9; 10; 11; 12; 13; 14; 15].
Definition demo_inserts : list DictOp := map (fun h => OInsert [h] h (S (Z.to_nat h))) demo_hashes.
Definition demo_resizing : option Dictionary := d ← new_Dictionary true 5; fst <$> dict_ops first_free demo_inserts d.

Lemma demo_resizing_ok :
  exists d, demo_resizing = Some d /\ represents d (fst (fst (map_ops demo_inserts (∅, Some [])))) (snd (fst (map_ops demo_inserts (∅, Some [])))).
Proof.
  unfold demo_resizing. destruct (new_Dictionary_ok true 5 ltac:(lia)) as (d0 & -> & R0). cbn [mbind option_bind].
  destruct (dict_ops_ok first_free first_free_fresh demo_inserts d0 ∅ (Some []) R0) as (d & -> & R).
  - unfold demo_inserts. repeat constructor; discriminate.
  - vm_compute. reflexivity.
  - now exists d.
Qed.

Lemma iteration_complete_witness :
  exists d d' l, demo_resizing = Some d /\ (num_buckets <$> tbl2 d) = Some 11%nat /\
    iterate 17 50 (InitForIteration 50 d) = Some (d', l) /\ length (omap (binding (mem d)) l) = 16%nat.
Proof.
  destruct demo_resizing_ok as (d & E & R). exists d.
  destruct (iteration_complete d _ _ 50 R) as (d' & l & Ei & P & _). exists d', l. split; [exact E|]. split.
  - assert (X : (d ← demo_resizing; num_buckets <$> tbl2 d) = Some 11%nat) by (vm_compute; reflexivity). now rewrite E in X.
  - split; [rewrite <- Ei; f_equal; vm_compute; reflexivity|]. rewrite P, length_map_to_list. vm_compute. reflexivity.
Defined.

(** ** What the robust cookies do not give while the table is enlarged *)

(** [n] entries with a robust cookie, then a change of the dictionary, then the others. *)
Fixpoint visit (n ci : nat) (d : Dictionary) : option (Dictionary * list nat) :=
  match n with
  | O => Some (d, [])
  | S n => '(d, r) ← NextEntry 2 ci d; id ← r; '(d, l) ← visit n ci d; Some (d, id :: l)
  end.

Definition robust_walk (n : nat) (change : Dictionary -> option Dictionary) : option (Dictionary * list nat) :=
  d ← demo_resizing;
  '(d, l) ← visit n 50 (MakeRobustCookie 50 (InitForIteration 50 d));
  d ← change d;
  '(d, l2) ← iterate 20 50 d;
  Some (d, l ++ l2).

(** An entry that the iteration has not reached is not visited after one before it is removed: the position
    in the second table is compared with the bucket in the first. *)
Lemma robust_skips :
  exists d l, robust_walk 15 (fun d => fst <$> Remove [10] 10 d) = Some (d, l) /\ Lookup [21] 21 d = Some 22%nat /\
    22%nat ∉ omap (fun id => e_value <$> mem d !! id) l.
Proof.
  assert (X : match robust_walk 15 (fun d => fst <$> Remove [10] 10 d) with
              | Some (d, l) => bool_decide (Lookup [21] 21 d = Some 22%nat /\ 22%nat ∉ omap (fun id => e_value <$> mem d !! id) l)
              | None => false end = true) by (vm_compute; reflexivity).
  destruct (robust_walk _ _) as [[d l]|]; [|discriminate]. exists d, l. split; [reflexivity|]. now apply bool_decide_eq_true in X.
Qed.

(** An entry that is added to the first table while the iteration is in the second is not visited. *)
Lemma robust_misses :
  exists d l, robust_walk 8 (fun d => fst <$> Insert 60 [18] 18 77 d) = Some (d, l) /\ Lookup [18] 18 d = Some 77%nat /\ 60%nat ∉ l.
Proof.
  assert (X : match robust_walk 8 (fun d => fst <$> Insert 60 [18] 18 77 d) with
              | Some (d, l) => bool_decide (Lookup [18] 18 d = Some 77%nat /\ 60%nat ∉ l)
              | None => false end = true) by (vm_compute; reflexivity).
  destruct (robust_walk _ _) as [[d l]|]; [|discriminate]. exists d, l. split; [reflexivity|]. now apply bool_decide_eq_true in X.
Qed.

(** An entry that is added to the second table and removed again is visited when its memory is freed. *)
Lemma robust_freed :
  exists d l, robust_walk 9 (fun d => '(d, _) ← Insert 60 [22] 22 77 d; fst <$> Remove [22] 22 d) = Some (d, l) /\ mem d !! 60%nat = None /\ 60%nat ∈ l.
Proof.
  assert (X : match robust_walk 9 (fun d => '(d, _) ← Insert 60 [22] 22 77 d; fst <$> Remove [22] 22 d) with
              | Some (d, l) => bool_decide (mem d !! 60%nat = None /\ 60%nat ∈ l)
              | None => false end = true) by (vm_compute; reflexivity).
  destruct (robust_walk _ _) as [[d l]|]; [|discriminate]. exists d, l. split; [reflexivity|]. now apply bool_decide_eq_true in X.
Qed.

(** [StopIteration] frees a robust cookie, which stays in the list that insertion and removal go through. *)
Lemma stop_leaves_cookie c d :
  c ∈ cookies (StopIteration c (MakeRobustCookie c d)) /\ iters (StopIteration c (MakeRobustCookie c d)) !! c = None.
Proof. split; [cbn; rewrite elem_of_app; right; left|cbn; apply lookup_delete_eq]. Qed.

(** A key with a null value counts as new: the order has an entry that is in no chain. *)
Lemma null_value_inserted_twice :
  exists d, (d ← new_Dictionary true 5; '(d, _) ← Insert 1 [7] 7 0 d; '(d, _) ← Insert 2 [7] 7 3 d; Some d) = Some d /\
    Length d = 1 /\ order d = Some [1%nat; 2%nat] /\ size (mem d) = 2%nat.
Proof. eexists. split; [vm_compute; reflexivity|]. vm_compute. auto. Qed.
