(* ===== verification/Frag.v ===== *)
(** * IP fragments ([src/Frag.cc], [src/Frag.h])

    The fragments of a datagram are blocks of the reassembler of [Reassem], numbered from 0,
    until all of them are there; the datagram is then put together behind the header of the
    fragment that came first.  A packet is the bytes from its IP header on.  [None] is
    undefined behaviour or [internal_error]. *)
From S2P Require Import Prelude Bytes CLib TelexUtil TelexTcp Reassem.
From Stdlib Require Import String ZArith Lia List Bool.
Import ListNotations.
Open Scope Z_scope.
Open Scope list_scope.

(** ** [struct ip], as [IP_Hdr] reads it *)

Definition ip_v (p : list Z) : Z := Z.shiftr (nth 0 p 0) 4.
Definition ip_hl (p : list Z) : Z := Z.land (nth 0 p 0) 15.
Definition TotalLen (p : list Z) : Z := be_value (firstn 2 (skipn 2 p)).
Definition IP_ID (p : list Z) : Z := be_value (firstn 2 (skipn 4 p)).
Definition FragField (p : list Z) : Z := be_value (firstn 2 (skipn 6 p)).
Definition NextProto (p : list Z) : Z := nth 9 p 0.
Definition SrcAddr (p : list Z) : list Z := firstn 4 (skipn 12 p).
Definition DstAddr (p : list Z) : list Z := firstn 4 (skipn 16 p).
Definition HdrLen (p : list Z) : Z := ip_hl p * 4.
Definition Payload (p : list Z) : list Z := skipn (Z.to_nat (HdrLen p)) p.

(** ** The reassembler of a datagram *)

(** [expire_timer]: not initialized, null, or a timer. *)
Inductive TimerPtr := Uninit | Null | Armed.

Record FragReassembler := {
  fr_blocks : list DataBlock;
  proto_hdr : list Z;                    (* proto_hdr_len bytes *)
  reassembled_pkt : option (list Z);
  frag_size : Z;
  expire_timer : TimerPtr }.

Definition set_frag_blocks (bs : list DataBlock) (f : FragReassembler) : FragReassembler :=
  {| fr_blocks := bs; proto_hdr := proto_hdr f; reassembled_pkt := reassembled_pkt f; frag_size := frag_size f; expire_timer := expire_timer f |}.
Definition set_frag_size (n : Z) (f : FragReassembler) : FragReassembler :=
  {| fr_blocks := fr_blocks f; proto_hdr := proto_hdr f; reassembled_pkt := reassembled_pkt f; frag_size := n; expire_timer := expire_timer f |}.
Definition set_timer (p : TimerPtr) (f : FragReassembler) : FragReassembler :=
  {| fr_blocks := fr_blocks f; proto_hdr := proto_hdr f; reassembled_pkt := reassembled_pkt f; frag_size := frag_size f; expire_timer := p |}.
Definition set_reassembled (p : list Z) (f : FragReassembler) : FragReassembler :=
  {| fr_blocks := fr_blocks f; proto_hdr := proto_hdr f; reassembled_pkt := Some p; frag_size := frag_size f; expire_timer := expire_timer f |}.

(** What the calls make visible. *)
Inductive FragOut :=
| FragWeird (name : string)
| AddTimer (t : Z)
| CancelTimer.

Definition MIN_ACCEPTABLE_FRAG_SIZE : Z := 64.
Definition MAX_ACCEPTABLE_FRAG_SIZE : Z := 64000.

(** [memcpy] into a new buffer; [None] outside of it. *)
Definition store (off : Z) (bs buf : list Z) : option (list Z) :=
  if (0 <=? off) && (off + Z.of_nat (List.length bs) <=? Z.of_nat (List.length buf)) then Some (overwrite (Z.to_nat off) bs buf) else None.

(** [ClearReassembler] and [TimerMgr::Cancel] *)
Definition DeleteTimer (f : FragReassembler) : option (FragReassembler * list FragOut) :=
  match expire_timer f with
  | Uninit => None
  | Null => Some (f, [])
  | Armed => Some (set_timer Null f, [CancelTimer])
  end.

(** The first loop of [BlockInserted]: the block where the contiguous ones end, and whether there are others. *)
Fixpoint contiguous (b : DataBlock) (next : list DataBlock) : DataBlock * bool :=
  match next with
  | [] => (b, false)
  | n :: rest => if db_upper b =? db_seq n then contiguous n rest else (b, true)
  end.

(** The second loop, [n] the size of the packet and [hdr] that of its header. *)
Fixpoint copy_blocks (n hdr : Z) (prev : option DataBlock) (bs : list DataBlock) (pkt : list Z) : option (list Z) :=
  match bs with
  | [] => Some pkt
  | b :: next =>
      if match prev with Some p => db_upper p <? db_seq b | None => false end then Some pkt
      else if n <? db_upper b then None
      else match store (hdr + db_seq b) (firstn (Z.to_nat (db_upper b - db_seq b)) (db_block b)) pkt with
           | Some pkt => copy_blocks n hdr (Some b) next pkt
           | None => None
           end
  end.

(** [reassem4->ip_len = htons(...)], sixteen bits *)
Definition set_ip_len (n : Z) (pkt : list Z) : option (list Z) := store 2 (be2 n) pkt.

(** [FragReassembler::Overlap] *)
Definition Overlap (o : list Z * list Z) : FragOut :=
  if list_eq_dec Z.eq_dec (fst o) (snd o) then FragWeird "fragment_overlap" else FragWeird "fragment_inconsistency".

Section Frag.

(** What a new array of bytes holds. *)
Context (uninit : Z -> list Z).

(** The rest of [BlockInserted] once the size is final. *)
Definition reassemble (f : FragReassembler) : option (FragReassembler * list FragOut) :=
  let hdr := Z.of_nat (List.length (proto_hdr f)) in
  let n := hdr + frag_size f in
  match store 0 (proto_hdr f) (uninit n) with
  | None => None
  | Some pkt =>
      match set_ip_len (frag_size f + hdr) pkt with
      | None => None
      | Some pkt =>
          match copy_blocks n hdr None (fr_blocks f) pkt with
          | None => None
          | Some pkt => DeleteTimer (set_reassembled pkt f)
          end
      end
  end.

(** [BlockInserted] *)
Definition BlockInserted (f : FragReassembler) : option (FragReassembler * list FragOut) :=
  match fr_blocks f with
  | [] => None
  | b0 :: rest =>
      if (0 <? db_seq b0) || (frag_size f =? 0) then Some (f, [])
      else
        let inconsistent n := match reassemble (set_frag_size n f) with
                              | Some (f, os) => Some (f, FragWeird "fragment_size_inconsistency" :: os)
                              | None => None
                              end in
        let '(b, hole) := contiguous b0 rest in
        if hole then if frag_size f <=? db_upper b then inconsistent (db_upper b) else Some (f, [])
        else if frag_size f <? db_upper b then inconsistent (db_upper b)
        else if db_upper b <? frag_size f then Some (f, [])
        else reassemble f
  end.

(** [Reassembler::NewBlock].  A block of negative size cannot be allocated, and bytes of negative number not compared. *)
Definition NewBlock (seq len : Z) (data : list Z) (f : FragReassembler) : option (FragReassembler * list FragOut) :=
  if len =? 0 then Some (f, [])
  else
    let upper_seq := int_add seq len in
    if seq_delta upper_seq 0 <=? 0 then Some (f, [])
    else if len <? 0 then None
    else
      match insert_block (fr_blocks f) seq upper_seq len data with
      | None => None
      | Some a =>
          match BlockInserted (set_frag_blocks (ad_blocks a) f) with
          | None => None
          | Some (f, os) => Some (f, map Overlap (ad_overlaps a) ++ os)
          end
      end.

Definition weird_if (c : bool) (name : string) : list FragOut := if c then [FragWeird name] else [].

(** The size of the datagram after a fragment that ends at [upper_seq], and what is reported of it. *)
Definition size_after (last : bool) (len upper_seq size : Z) : Z * list FragOut :=
  let '(size, os) :=
    if last then
      if size =? 0 then (upper_seq, [])
      else if negb (upper_seq =? size) then (if size <? upper_seq then upper_seq else size, [FragWeird "fragment_size_inconsistency"])
      else (size, [])
    else (size, weird_if (len <? MIN_ACCEPTABLE_FRAG_SIZE) "excessively_small_fragment") in
  let os := os ++ weird_if (MAX_ACCEPTABLE_FRAG_SIZE <? upper_seq) "excessively_large_fragment" in
  if negb (size =? 0) && (size <? upper_seq) then (upper_seq, os ++ [FragWeird "fragment_size_inconsistency"]) else (size, os).

(** [AddFragment] *)
Definition AddFragment (ip : list Z) (frag_field : Z) (f : FragReassembler) : option (FragReassembler * list FragOut) :=
  let os1 := weird_if (negb (NextProto ip =? NextProto (proto_hdr f)) || negb (ip_hl ip =? ip_hl (proto_hdr f))) "fragment_protocol_inconsistency"
             ++ weird_if (negb (Z.land frag_field 0x4000 =? 0)) "fragment_with_DF" in
  let offset := Z.land (FragField ip) 0x1fff * 8 in
  let len := TotalLen ip in
  let hdr_len := ip_hl (proto_hdr f) * 4 in
  let upper_seq := offset + len - hdr_len in
  let '(size, os2) := size_after (Z.land frag_field 0x2000 =? 0) len upper_seq (frag_size f) in
  match NewBlock offset (len - hdr_len) (firstn (Z.to_nat (len - hdr_len)) (skipn (Z.to_nat hdr_len) ip)) (set_frag_size size f) with
  | Some (f, os3) => Some (f, os1 ++ os2 ++ os3)
  | None => None
  end.

(** The constructor; the timer is not set before the first fragment is added. *)
Definition new_FragReassembler (frag_timeout : Z) (t : Z) (ip : list Z) (frag_field : Z) : option (FragReassembler * list FragOut) :=
  let f := {| fr_blocks := []; proto_hdr := firstn (Z.to_nat (ip_hl ip * 4)) ip; reassembled_pkt := None; frag_size := 0; expire_timer := Uninit |} in
  match AddFragment ip frag_field f with
  | None => None
  | Some (f, os) =>
      if negb (frag_timeout =? 0) then Some (set_timer Armed f, os ++ [AddTimer (t + frag_timeout)])
      else Some (set_timer Null f, os)
  end.

End Frag.
