(* ===== verification/FragThms.v ===== *)
(** * Datagrams are reassembled from their fragments

    The reassembly of [Frag]: the blocks are those of [Reassem], one number lower; fragments of a
    datagram in any order, with overlaps and duplicates, give exactly that datagram; and no
    fragment with a payload makes it fail. *)
From S2P Require Import Prelude Bytes CLib TelexUtil TelexTcp Reassem ReassemThms ReassemGaps Frag.
From Stdlib Require Import String ZArith Lia List Bool.
Import ListNotations.
Open Scope Z_scope.
Open Scope list_scope.

(** ** Blocks that are numbered from 0 *)

Definition up (b : DataBlock) : DataBlock := Block (db_seq b + 1) (db_upper b + 1) (db_block b).

Definition up_added (a : Added) : Added :=
  {| ad_blocks := map up (ad_blocks a); ad_start := ad_start a; ad_overlaps := ad_overlaps a |}.

Lemma seq_delta_up a b : seq_delta (a + 1) (b + 1) = seq_delta a b.
Proof. unfold seq_delta. f_equal. lia. Qed.

Lemma int_diff_up a b : int_add (a + 1) (- (b + 1)) = int_add a (- b).
Proof. unfold int_add. f_equal. lia. Qed.

Lemma int_add_up a n : 0 <= a + n < SEQ_LIMIT - 1 -> int_add (a + 1) n = int_add a n + 1.
Proof. intros H. rewrite !int_add_small by lia. lia. Qed.

Lemma new_block_up data n seq : 0 <= seq + n < SEQ_LIMIT - 1 -> new_DataBlock data n (seq + 1) = up (new_DataBlock data n seq).
Proof. intros H. unfold new_DataBlock, up. cbn [db_seq db_upper db_block]. now rewrite int_add_up. Qed.

Lemma last_block_up bs : last_block (map up bs) = option_map up (last_block bs).
Proof. unfold last_block. rewrite <- map_rev. now destruct (rev bs). Qed.

Lemma find_block_up seq bs : find_block (seq + 1) (map up bs) = let '(a, b) := find_block seq bs in (map up a, map up b).
Proof.
  induction bs as [|b bs IH]; [reflexivity|]. destruct bs as [|b' bs]; [reflexivity|]. cbn [map find_block] in *.
  change (db_upper (up b)) with (db_upper b + 1). rewrite seq_delta_up. destruct (seq_delta (db_upper b) seq <=? 0); [|reflexivity]. rewrite IH. change (match bs with [] => ([], b' :: bs) | _ :: _ => _ end) with (find_block seq (b' :: bs)).
  now destruct (find_block seq (b' :: bs)).
Qed.

Lemma last_up_eqb bs seq :
  match last_block (map up bs) with Some lb => seq + 1 =? db_upper lb | None => false end =
  match last_block bs with Some lb => seq =? db_upper lb | None => false end.
Proof. rewrite last_block_up. destruct (last_block bs) as [b|]; [|reflexivity]. cbn. destruct (Z.eqb_spec seq (db_upper b)), (Z.eqb_spec (seq + 1) (db_upper b + 1)); lia. Qed.

Lemma ordered_up lo bs hi : ordered lo bs hi <-> ordered (lo + 1) (map up bs) (hi + 1).
Proof.
  revert lo. induction bs as [|b bs IH]; intros lo; cbn; [lia|]. rewrite (IH (db_upper b)). intuition lia.
Qed.

(** [AddAndCheck] one number higher does the same. *)
Lemma AddAndCheck_up fuel hi bs lo seq upper data :
  hi + 1 < SEQ_LIMIT -> ordered lo bs hi -> 0 <= lo -> 0 <= seq <= upper -> upper <= hi ->
  AddAndCheck fuel (map up bs) (seq + 1) (upper + 1) data = option_map up_added (AddAndCheck fuel bs seq upper data).
Proof.
  intros Hhi. revert bs lo seq data. induction fuel as [|fuel IH]; intros bs lo seq data Ho Hlo Hs Hu; [reflexivity|].
  cbn [AddAndCheck]. rewrite last_up_eqb, find_block_up, int_diff_up.
  assert (New : forall n, 0 <= seq + n <= hi -> new_DataBlock data n (seq + 1) = up (new_DataBlock data n seq)) by (intros; apply new_block_up; lia).
  assert (Fin : Some {| ad_blocks := map up bs ++ [new_DataBlock data (int_add upper (- seq)) (seq + 1)]; ad_start := List.length (map up bs); ad_overlaps := [] |} =
          option_map up_added (Some {| ad_blocks := bs ++ [new_DataBlock data (int_add upper (- seq)) seq]; ad_start := List.length bs; ad_overlaps := [] |})).
  { cbn. unfold up_added. cbn. rewrite map_app, length_map, New by (rewrite int_add_small by lia; lia). reflexivity. }
  destruct (match last_block bs with Some lb => seq =? db_upper lb | None => false end); [exact Fin|].
  destruct (find_block seq bs) as [before rest] eqn:Fb. destruct rest as [|b rest]; [reflexivity|]. cbn [map].
  assert (Ebs : bs = before ++ b :: rest).
  { destruct bs as [|b0 bs']; [discriminate|]. now apply (find_block_spec seq (b0 :: bs') before (b :: rest) Fb). }
  assert (Bb : 0 <= db_seq b < db_upper b /\ db_upper b <= hi).
  { pose proof (ordered_Forall _ _ _ Ho) as F. rewrite Forall_forall in F. specialize (F b ltac:(rewrite Ebs; apply in_elt)). lia. }
  cbn [up db_upper db_seq db_block]. rewrite !seq_delta_up.
  destruct (seq_delta (db_upper b) seq <=? 0) eqn:E1; [exact Fin|].
  destruct (seq_delta upper (db_seq b) <=? 0) eqn:E2.
  { cbn. unfold up_added. cbn. rewrite map_app, length_map, New by (rewrite seq_delta_small by lia; lia). reflexivity. }
  rewrite (seq_delta_small seq (db_seq b)), (seq_delta_small (db_seq b) seq) by lia.
  rewrite seq_delta_small in E1, E2 by lia. apply Z.leb_gt in E1, E2.
  remember (if seq - db_seq b <? 0 then db_seq b - seq else 0) as pl eqn:Epl.
  assert (Hpl : 0 <= pl /\ seq + pl = Z.max seq (db_seq b)) by (destruct (Z.ltb_spec (seq - db_seq b) 0); lia).
  rewrite (int_add_small seq pl), (int_add_small (seq + 1) pl) by lia. replace (seq + 1 + pl) with (seq + pl + 1) by lia. rewrite !seq_delta_up.
  rewrite (seq_delta_small upper (seq + pl)), (seq_delta_small (db_upper b) (seq + pl)), (seq_delta_small (seq + pl) (db_seq b)) by lia.
  set (ol := Z.min _ _). assert (Hol : 0 <= ol <= upper - (seq + pl)) by (unfold ol; lia).
  assert (Ppre : (if seq - db_seq b <? 0 then [new_DataBlock data pl (seq + 1)] else []) = map up (if seq - db_seq b <? 0 then [new_DataBlock data pl seq] else [])).
  { destruct (Z.ltb_spec (seq - db_seq b) 0); [cbn; now rewrite New by lia|reflexivity]. }
  rewrite Ppre. destruct (ol <? upper - (seq + pl)).
  - rewrite (int_add_small (seq + pl + 1) ol), (int_add_small (seq + pl) ol) by lia. replace (seq + pl + 1 + ol) with (seq + pl + ol + 1) by lia.
    change (up b :: map up rest) with (map up (b :: rest)). rewrite (IH (b :: rest) (db_seq b)); try lia.
    + destruct (AddAndCheck fuel (b :: rest) _ _ _) as [a|]; [|reflexivity]. cbn. unfold up_added. cbn. now rewrite !map_app, length_map.
    + rewrite Ebs in Ho. apply ordered_split in Ho as (mid & _ & Ho). cbn in Ho |- *. intuition lia.
  - cbn. unfold up_added. cbn. now rewrite !map_app, length_map.
Qed.

Lemma insert_block_up hi bs seq upper len data :
  hi + 1 < SEQ_LIMIT -> ordered 0 bs hi -> 0 <= seq < upper -> upper <= hi -> len = upper - seq ->
  insert_block (map up bs) (seq + 1) (upper + 1) len data = option_map up_added (insert_block bs seq upper len data).
Proof.
  intros Hhi Ho Hs Hu ->. destruct bs as [|b bs]; unfold insert_block.
  - cbn. unfold up_added. cbn. rewrite new_block_up by lia. reflexivity.
  - cbn [map List.length]. rewrite length_map. apply (AddAndCheck_up _ hi (b :: bs) 0); auto; lia.
Qed.

Lemma covered_up bs p : covered (map up bs) (p + 1) <-> covered bs p.
Proof.
  induction bs as [|b bs IH]; [cbn; now rewrite !covered_nil|]. cbn [map]. rewrite !covered_cons, IH. unfold holds. cbn. intuition lia.
Qed.

(** The block holds the datagram's bytes from its number on. *)
Definition part_of (D : list Z) (b : DataBlock) : Prop := block_of D (up b).

Abbreviation size_of D := (Z.of_nat (List.length D)).

(** Bytes of the datagram [D] that are inserted. *)
Lemma insert_part D bs seq upper :
  size_of D + 1 < SEQ_LIMIT -> ordered 0 bs (size_of D) -> Forall (part_of D) bs -> 0 <= seq < upper -> upper <= size_of D ->
  exists a, insert_block bs seq upper (upper - seq) (slice D (seq + 1) (upper + 1)) = Some a /\
    ordered 0 (ad_blocks a) (size_of D) /\ Forall (part_of D) (ad_blocks a) /\
    (forall p, covered (ad_blocks a) p <-> covered bs p \/ seq <= p < upper) /\ Forall (fun o => fst o = snd o) (ad_overlaps a).
Proof.
  intros Hd Ho F Hs Hu. assert (E : stream_end D = size_of D + 1) by (unfold stream_end; lia).
  destruct (insert_block_spec D ltac:(lia) (map up bs) (seq + 1) (upper + 1) (upper - seq)) as (a & Ea & I1 & I2 & I3 & I4 & _); try lia.
  - rewrite E. now apply (ordered_up 0).
  - now apply Forall_map.
  - rewrite (insert_block_up (size_of D)) in Ea by (auto; lia). destruct (insert_block bs seq upper _ _) as [a0|]; [|discriminate].
    injection Ea as <-. exists a0. split; [reflexivity|]. cbn [up_added ad_blocks ad_overlaps] in *. rewrite E in I1.
    split; [now apply (ordered_up 0)|]. split; [exact (proj1 (Forall_map _ _ _) I2)|]. split; [|exact I4].
    intros p. rewrite <- (covered_up (ad_blocks a0)), I3, covered_up. intuition lia.
Qed.

(** Any bytes that are inserted. *)
Lemma insert_any hi bs seq d :
  hi + 1 < SEQ_LIMIT -> ordered 0 bs hi -> Forall full_block bs -> 0 <= seq -> d <> [] -> seq + size_of d <= hi ->
  exists a, insert_block bs seq (seq + size_of d) (size_of d) d = Some a /\ ordered 0 (ad_blocks a) hi /\ Forall full_block (ad_blocks a) /\
    (forall p, covered (ad_blocks a) p <-> covered bs p \/ seq <= p < seq + size_of d).
Proof.
  intros Hhi Ho F Hs Hd He. assert (0 < List.length d)%nat by (destruct d; [easy|cbn; lia]).
  assert (Fu : forall bs, Forall full_block bs <-> Forall full_block (map up bs)).
  { intros l. rewrite Forall_map. split; apply Forall_impl; intros b; unfold full_block; cbn; lia. }
  destruct (insert_block_tame (hi + 1) (map up bs) (seq + 1) d) as (a & b & Ea & I1 & I2 & _ & I3); auto; try lia.
  - now apply (ordered_up 0).
  - exact (proj1 (Fu bs) F).
  - replace (seq + 1 + size_of d) with (seq + size_of d + 1) in * by lia.
    rewrite (insert_block_up hi) in Ea by (auto; lia). destruct (insert_block bs seq _ _ _) as [a0|]; [|discriminate].
    injection Ea as <-. exists a0. split; [reflexivity|]. cbn [up_added ad_blocks] in *. split; [now apply (ordered_up 0)|]. split; [exact (proj2 (Fu _) I2)|].
    intros p. rewrite <- (covered_up (ad_blocks a0)), I3, covered_up. intuition lia.
Qed.

(** ** The blocks without a hole *)

Fixpoint run (b : DataBlock) (next : list DataBlock) : list DataBlock :=
  b :: match next with n :: rest => if db_upper b =? db_seq n then run n rest else [] | [] => [] end.

(** What [contiguous] finds. *)
Lemma contiguous_spec lo b next hi e hole :
  ordered lo (b :: next) hi -> contiguous b next = (e, hole) ->
  (forall p, db_seq b <= p < db_upper e -> covered (b :: next) p) /\ db_upper e <= hi /\ db_seq b < db_upper e /\
  (if hole then db_upper e < hi /\ ~ covered (b :: next) (db_upper e) else ordered lo (b :: next) (db_upper e)).
Proof.
  revert lo b. induction next as [|n next IH]; intros lo b (O1 & O2 & O3) E; cbn [contiguous] in E.
  - injection E as <- <-. cbn in O3. split; [intros p Hp; apply covered_cons; now left|]. cbn. lia.
  - destruct (Z.eqb_spec (db_upper b) (db_seq n)) as [Eq|N].
    + destruct (IH (db_upper b) n O3 E) as (C & U & L & H). split.
      { intros p Hp. apply covered_cons. unfold holds. destruct (Z_lt_dec p (db_upper b)); [left; lia|right; apply C; lia]. }
      split; [exact U|]. split; [lia|]. destruct hole; [|cbn [ordered] in H |- *; intuition]. destruct H as [H1 H2]. split; [exact H1|].
      rewrite covered_cons. unfold holds. intros [C'|C']; [lia|contradiction].
    + injection E as <- <-. cbn in O3. pose proof (ordered_bounds _ _ _ (proj2 (proj2 O3))) as B. destruct O3 as (O3 & O4 & O5).
      split; [intros p Hp; apply covered_cons; now left|]. split; [lia|]. split; [lia|]. split; [lia|].
      rewrite covered_cons. unfold holds at 1. intros [C|C]; [lia|]. pose proof (covered_bounds (db_seq n) (n :: next) hi (db_upper b)) as X.
      cbn [ordered] in X. specialize (X ltac:(intuition lia) C). lia.
Qed.

Lemma contiguous_lt lo b next hi : ordered lo (b :: next) hi -> db_seq b < db_upper (fst (contiguous b next)).
Proof. intros O. destruct (contiguous b next) as [e hole] eqn:E. now destruct (contiguous_spec _ _ _ _ _ _ O E) as (_ & _ & H & _). Qed.

Lemma run_length lo b next hi : ordered lo (b :: next) hi -> Forall full_block (b :: next) ->
  Z.of_nat (List.length (concat (map db_block (run b next)))) = db_upper (fst (contiguous b next)) - db_seq b.
Proof.
  revert lo b. induction next as [|n next IH]; intros lo b (O1 & O2 & O3) F; inversion F as [|? ? Fb Fn]; subst; cbn [run map concat contiguous].
  - rewrite app_nil_r. exact Fb.
  - destruct (Z.eqb_spec (db_upper b) (db_seq n)) as [Eq|N]; cbn [map concat fst].
    + rewrite length_app. specialize (IH _ n O3 Fn). unfold full_block in Fb. destruct (contiguous n next). cbn [fst] in *. lia.
    + rewrite app_nil_r. exact Fb.
Qed.

(** The bytes of the datagram, from that number on. *)
Lemma run_part D lo b next hi : ordered lo (b :: next) hi -> 0 <= lo -> Forall (part_of D) (b :: next) ->
  concat (map db_block (run b next)) = slice D (db_seq b + 1) (db_upper (fst (contiguous b next)) + 1).
Proof.
  revert lo b. induction next as [|n next IH]; intros lo b (O1 & O2 & O3) L F; inversion F as [|? ? Fb Fn]; subst; cbn [run map concat contiguous].
  - rewrite app_nil_r. exact Fb.
  - destruct (Z.eqb_spec (db_upper b) (db_seq n)) as [Eq|N]; cbn [map concat fst].
    + rewrite (IH _ n O3 ltac:(lia) Fn). unfold part_of, block_of in Fb. cbn in Fb. rewrite Fb, <- Eq. apply slice_app; [lia|].
      pose proof (contiguous_lt _ _ _ _ O3). lia.
    + rewrite app_nil_r. exact Fb.
Qed.

(** ** The datagram is put together *)

Lemma overwrite_app_run {A} off (a b mem : list A) :
  (off + List.length a + List.length b <= List.length mem)%nat ->
  overwrite (off + List.length a) b (overwrite off a mem) = overwrite off (a ++ b) mem.
Proof.
  intros H. unfold overwrite. rewrite firstn_app, firstn_firstn, length_firstn. replace (Nat.min off (List.length mem)) with off by lia.
  replace (off + List.length a - off)%nat with (List.length a) by lia. rewrite firstn_app, Nat.sub_diag, firstn_O, app_nil_r, firstn_all.
  replace (Nat.min (off + List.length a) off) with off by lia. rewrite <- !app_assoc. do 3 f_equal.
  rewrite length_app, skipn_app, length_firstn. replace (Nat.min off (List.length mem)) with off by lia.
  rewrite (skipn_all2 (n := off + List.length a + List.length b)) by (rewrite length_firstn; lia). cbn [app].
  rewrite skipn_app, (skipn_all2 a) by lia. cbn [app]. rewrite skipn_skipn. f_equal. lia.
Qed.

Lemma store_in off bs buf : 0 <= off -> off + size_of bs <= size_of buf -> store off bs buf = Some (overwrite (Z.to_nat off) bs buf).
Proof. intros H1 H2. unfold store. now rewrite (proj2 (Z.leb_le _ _) H1), (proj2 (Z.leb_le _ _) H2). Qed.

Lemma copy_blocks_cons n hdr prev b next pkt :
  copy_blocks n hdr prev (b :: next) pkt =
  if match prev with Some p => db_upper p <? db_seq b | None => false end then Some pkt
  else if n <? db_upper b then None
  else match store (hdr + db_seq b) (firstn (Z.to_nat (db_upper b - db_seq b)) (db_block b)) pkt with
       | Some pkt => copy_blocks n hdr (Some b) next pkt
       | None => None
       end.
Proof. reflexivity. Qed.

Lemma copy_run hdr next : forall lo b hi prev pkt,
  ordered lo (b :: next) hi -> Forall full_block (b :: next) -> 0 <= hdr -> 0 <= lo ->
  match prev with Some p => db_upper p = db_seq b | None => True end ->
  hdr + db_upper (fst (contiguous b next)) <= size_of pkt ->
  copy_blocks (size_of pkt) hdr prev (b :: next) pkt = Some (overwrite (Z.to_nat (hdr + db_seq b)) (concat (map db_block (run b next))) pkt).
Proof.
  induction next as [|n next IH]; intros lo b hi prev pkt O F Hh Hlo Hp Hu; pose proof (run_length _ _ _ _ O F) as RL;
    pose proof (contiguous_lt _ _ _ _ O) as Hlt;
    destruct O as (O1 & O2 & O3); inversion F as [|? ? Fb Fn]; subst; unfold full_block in Fb; rewrite copy_blocks_cons;
    assert (Hprev : (match prev with Some p => db_upper p <? db_seq b | None => false end) = false) by (destruct prev as [p|]; [apply Z.ltb_ge; lia|reflexivity]);
    rewrite Hprev; cbn [contiguous run map concat fst] in *.
  - rewrite (proj2 (Z.ltb_ge _ _)) by lia. rewrite firstn_all2 by lia. rewrite store_in by lia. cbn [copy_blocks]. now rewrite app_nil_r.
  - destruct (Z.eqb_spec (db_upper b) (db_seq n)) as [Eq|N]; cbn [fst] in *.
    + pose proof (contiguous_lt _ _ _ _ O3) as Hn.
      rewrite (proj2 (Z.ltb_ge _ _)) by lia. rewrite firstn_all2 by lia. rewrite store_in by lia.
      assert (L1 : size_of (overwrite (Z.to_nat (hdr + db_seq b)) (db_block b) pkt) = size_of pkt) by (rewrite overwrite_length by lia; reflexivity).
      rewrite <- L1.
      rewrite (IH (db_upper b) n hi (Some b)) by (auto; lia). f_equal.
      replace (Z.to_nat (hdr + db_seq n)) with (Z.to_nat (hdr + db_seq b) + List.length (db_block b))%nat by lia.
      cbn [map concat] in RL |- *. rewrite length_app in RL. apply overwrite_app_run. lia.
    + cbn in O3. rewrite (proj2 (Z.ltb_ge _ _)) by lia. rewrite firstn_all2 by lia. rewrite store_in by lia.
      rewrite copy_blocks_cons, (proj2 (Z.ltb_lt _ _)) by lia. cbn [map concat]. now rewrite app_nil_r.
Qed.

(** The header of the datagram. *)
Definition datagram_hdr (hdr : list Z) (size : Z) : list Z := overwrite 2 (be2 (size + size_of hdr)) hdr.

Section Reassembly.

Context (uninit : Z -> list Z) (uninit_length : forall n, 0 <= n -> size_of (uninit n) = n).

Lemma reassemble_spec f b0 rest hi :
  fr_blocks f = b0 :: rest -> ordered 0 (b0 :: rest) hi -> Forall full_block (b0 :: rest) -> db_seq b0 = 0 ->
  frag_size f = db_upper (fst (contiguous b0 rest)) -> (4 <= List.length (proto_hdr f))%nat ->
  reassemble uninit f = DeleteTimer (set_reassembled (datagram_hdr (proto_hdr f) (frag_size f) ++ concat (map db_block (run b0 rest))) f).
Proof.
  intros Eb O F E0 Ef Lh. pose proof (run_length _ _ _ _ O F) as RL.
  pose proof (contiguous_lt _ _ _ _ O) as Hlt.
  set (h := proto_hdr f) in *. set (n := size_of h + frag_size f). assert (Hn : n = size_of h + frag_size f) by reflexivity.
  assert (Ln : size_of (uninit n) = n) by (apply uninit_length; lia).
  unfold reassemble. cbv zeta. fold h. rewrite <- Hn. rewrite store_in by (cbn; lia). unfold set_ip_len.
  assert (L1 : size_of (overwrite (Z.to_nat 0) h (uninit n)) = n) by (rewrite overwrite_length by (cbn; lia); exact Ln).
  rewrite store_in; [|lia|rewrite L1; change (size_of (be2 _)) with 2; lia]. set (pkt := overwrite (Z.to_nat 2) _ _).
  assert (L2 : size_of pkt = n) by (unfold pkt; rewrite overwrite_length by (change (List.length (be2 _)) with 2%nat; change (Z.to_nat 2) with 2%nat; lia); exact L1).
  assert (Ep : pkt = datagram_hdr h (frag_size f) ++ skipn (List.length h) (uninit n)).
  { unfold pkt, datagram_hdr, overwrite. cbn [Z.to_nat firstn Nat.add app]. change (Pos.to_nat 2) with 2%nat. rewrite firstn_app, skipn_app.
    replace (2 - List.length h)%nat with 0%nat by lia. cbn [firstn]. rewrite app_nil_r, <- !app_assoc. do 3 f_equal. cbn [be2 List.length].
    replace (2 + 2 - List.length h)%nat with 0%nat by lia. reflexivity. }
  rewrite Eb, <- L2, (copy_run (size_of h) rest 0 b0 hi None pkt) by (auto; lia). do 2 f_equal. rewrite E0, Z.add_0_r, Nat2Z.id, Ep.
  assert (Ld : List.length (datagram_hdr h (frag_size f)) = List.length h) by (unfold datagram_hdr; rewrite overwrite_length by (cbn; lia); reflexivity).
  unfold overwrite. rewrite <- Ld at 1. rewrite firstn_exact by reflexivity. f_equal.
  rewrite skipn_all2; [apply app_nil_r|]. rewrite length_app, length_skipn. lia.
Qed.

(** ** Fragments of one datagram *)

Context (hl : Z) (D : list Z) (HD : 0 < size_of D) (HD2 : size_of D + 1 < SEQ_LIMIT).

Definition frag_off (p : list Z) : Z := Z.land (FragField p) 0x1fff * 8.
Definition frag_len (p : list Z) : Z := TotalLen p - hl * 4.
Definition more_fragments (p : list Z) : bool := negb (Z.land (FragField p) 0x2000 =? 0).

(** A packet that carries a part of the datagram [D]. *)
Record fragment_of (p : list Z) : Prop := {
  fg_hl : ip_hl p = hl;
  fg_len : 0 < frag_len p;
  fg_end : frag_off p + frag_len p <= size_of D;
  fg_data : firstn (Z.to_nat (frag_len p)) (skipn (Z.to_nat (hl * 4)) p) = slice D (frag_off p + 1) (frag_off p + frag_len p + 1);
  fg_last : more_fragments p = false <-> frag_off p + frag_len p = size_of D }.

Definition covers (q : Z) (p : list Z) : bool := (frag_off p <=? q) && (q <? frag_off p + frag_len p).

(** Every byte of the datagram is in one of the fragments. *)
Definition complete (ps : list (list Z)) : bool := forallb (fun i => existsb (covers (Z.of_nat i)) ps) (seq 0 (List.length D)).

Definition whole (ps : list (list Z)) : Prop := forall q, 0 <= q < size_of D -> exists p, In p ps /\ covers q p = true.

Lemma complete_spec ps : complete ps = true <-> whole ps.
Proof.
  unfold complete, whole. rewrite forallb_forall. split.
  - intros H q Hq. specialize (H (Z.to_nat q) ltac:(apply in_seq; lia)). rewrite Z2Nat.id in H by lia. now apply existsb_exists in H.
  - intros H i Hi. apply in_seq in Hi. apply existsb_exists, H. lia.
Qed.

Lemma part_full bs : ordered 0 bs (size_of D) -> Forall (part_of D) bs -> Forall full_block bs.
Proof.
  intros O F. pose proof (ordered_Forall _ _ _ O) as B. rewrite Forall_forall in *. intros b Hb. specialize (F b Hb). specialize (B b Hb).
  unfold part_of, block_of in F. cbn in F. unfold full_block. rewrite F, slice_length; [lia|lia|unfold stream_end; lia].
Qed.

Lemma slice_all : slice D 1 (size_of D + 1) = D.
Proof. unfold slice. apply firstn_all2. cbn. lia. Qed.

Lemma frag_BlockInserted_spec f b0 rest :
  fr_blocks f = b0 :: rest -> ordered 0 (b0 :: rest) (size_of D) -> Forall (part_of D) (b0 :: rest) -> (4 <= List.length (proto_hdr f))%nat ->
  frag_size f = 0 \/ frag_size f = size_of D -> (covered (b0 :: rest) (size_of D - 1) -> frag_size f = size_of D) ->
  BlockInserted uninit f = DeleteTimer (set_reassembled (datagram_hdr (proto_hdr f) (size_of D) ++ D) f) /\
    (forall q, 0 <= q < size_of D -> covered (b0 :: rest) q) \/
  BlockInserted uninit f = Some (f, []) /\ exists q, 0 <= q < size_of D /\ ~ covered (b0 :: rest) q.
Proof.
  intros Eb O F Lh Sz Last. pose proof (part_full _ O F) as Ff. unfold BlockInserted. rewrite Eb.
  destruct (Z.ltb_spec 0 (db_seq b0)) as [P|P]; cbn [orb].
  { right. split; [reflexivity|]. exists 0. split; [lia|]. intros C. pose proof (covered_bounds (db_seq b0) (b0 :: rest) (size_of D) 0) as X.
    cbn [ordered] in X, O. specialize (X ltac:(intuition lia) C). lia. }
  destruct (Z.eqb_spec (frag_size f) 0) as [Z0|Z0].
  { right. split; [reflexivity|]. exists (size_of D - 1). split; [lia|]. intros C. specialize (Last C). lia. }
  assert (Es : frag_size f = size_of D) by lia. assert (E0 : db_seq b0 = 0) by (cbn [ordered] in O; lia).
  destruct (contiguous b0 rest) as [e hole] eqn:Ec. destruct (contiguous_spec 0 b0 rest (size_of D) e hole O Ec) as (C & U & L & H). destruct hole.
  - destruct H as [H1 H2]. rewrite (proj2 (Z.leb_gt _ _)) by lia. right. split; [reflexivity|]. exists (db_upper e). split; [lia|exact H2].
  - rewrite (proj2 (Z.ltb_ge _ _)) by lia. destruct (Z.ltb_spec (db_upper e) (frag_size f)) as [T|T].
    + right. split; [reflexivity|]. exists (db_upper e). split; [lia|]. intros X. pose proof (covered_bounds _ _ _ _ H X). lia.
    + left. split; [|intros q Hq; apply C; lia]. rewrite (reassemble_spec f b0 rest (size_of D)) by (auto; rewrite Ec; cbn; lia).
      rewrite (run_part D 0 b0 rest (size_of D) O ltac:(lia) F), Ec, E0, Es. cbn [fst]. replace (db_upper e) with (size_of D) by lia.
      change (0 + 1) with 1. now rewrite slice_all.
Qed.

Definition last_seen (ps : list (list Z)) : bool := existsb (fun p => negb (more_fragments p)) ps.

(** The state after the fragments [ps] have come. *)
Record frag_state (hdr : list Z) (ps : list (list Z)) (f : FragReassembler) : Prop := {
  s_hdr : proto_hdr f = hdr;
  s_ordered : ordered 0 (fr_blocks f) (size_of D);
  s_part : Forall (part_of D) (fr_blocks f);
  s_covered : forall q, covered (fr_blocks f) q <-> exists p, In p ps /\ covers q p = true;
  s_size : frag_size f = if last_seen ps then size_of D else 0;
  s_pkt : reassembled_pkt f = if complete ps then Some (datagram_hdr hdr (size_of D) ++ D) else None }.

Lemma size_after_spec p ps :
  fragment_of p -> let size := if last_seen ps then size_of D else 0 in
  fst (size_after (Z.land (FragField p) 0x2000 =? 0) (TotalLen p) (frag_off p + frag_len p) size) = if last_seen (ps ++ [p]) then size_of D else 0.
Proof.
  intros [_ L E _ Ls] size. unfold last_seen at 1. rewrite existsb_app. fold (last_seen ps). cbn [existsb]. rewrite orb_false_r.
  unfold size_after. change (Z.land (FragField p) 0x2000 =? 0) with (Z.land (FragField p) 8192 =? 0).
  assert (M : more_fragments p = negb (Z.land (FragField p) 8192 =? 0)) by reflexivity. rewrite M in Ls |- *. rewrite negb_involutive.
  assert (Oo : 0 <= frag_off p) by (unfold frag_off; pose proof (proj2 (Z.land_nonneg (FragField p) 8191) ltac:(lia)); lia).
  destruct (Z.land (FragField p) 8192 =? 0); cbn [negb] in Ls; unfold size; destruct (last_seen ps); cbn [orb];
    rewrite ?(proj1 Ls eq_refl), ?Z.eqb_refl, ?(proj2 (Z.eqb_neq (size_of D) 0)) by lia; cbn [negb andb fst];
    rewrite ?Z.eqb_refl, ?Z.ltb_irrefl, ?(proj2 (Z.eqb_neq (size_of D) 0)), ?(proj2 (Z.ltb_ge (size_of D) (frag_off p + frag_len p))) by lia; reflexivity.
Qed.

Lemma last_byte_seen ps : Forall fragment_of ps -> (exists p, In p ps /\ covers (size_of D - 1) p = true) -> last_seen ps = true.
Proof.
  intros F (p & Hp & C). rewrite Forall_forall in F. destruct (F p Hp) as [_ L E _ Ls]. unfold covers in C.
  apply existsb_exists. exists p. split; [exact Hp|]. apply negb_true_iff, Ls. lia.
Qed.

Lemma frag_NewBlock_spec hdr ps p f :
  (4 <= List.length hdr)%nat -> Forall fragment_of (ps ++ [p]) -> frag_state hdr ps f ->
  expire_timer f <> Uninit \/ complete (ps ++ [p]) = false ->
  exists f' os, NewBlock uninit (frag_off p) (frag_len p) (slice D (frag_off p + 1) (frag_off p + frag_len p + 1))
      (set_frag_size (if last_seen (ps ++ [p]) then size_of D else 0) f) = Some (f', os) /\
    frag_state hdr (ps ++ [p]) f' /\ expire_timer f' = if complete (ps ++ [p]) then Null else expire_timer f.
Proof.
  intros Lh Fp [Sh So Sp Sc Ss Sk] T. pose proof Fp as Fp'. apply Forall_app in Fp' as [_ Fp']. destruct (Forall_inv Fp') as [_ L E _ _].
  assert (Oo : 0 <= frag_off p) by (unfold frag_off; pose proof (proj2 (Z.land_nonneg (FragField p) 8191) ltac:(lia)); lia).
  unfold NewBlock. rewrite (proj2 (Z.eqb_neq _ _)), int_add_small, seq_delta_small, (proj2 (Z.leb_gt _ _)), (proj2 (Z.ltb_ge _ _)) by lia.
  destruct (insert_part D (fr_blocks f) (frag_off p) (frag_off p + frag_len p)) as (a & Ea & Oa & Pa & Ca & _); auto; try lia.
  replace (frag_off p + frag_len p - frag_off p) with (frag_len p) in Ea by lia. cbn [set_frag_size fr_blocks]. rewrite Ea.
  set (f1 := set_frag_blocks _ _).
  assert (Cov : forall q, covered (ad_blocks a) q <-> exists p', In p' (ps ++ [p]) /\ covers q p' = true).
  { intros q. rewrite Ca, Sc. split.
    - intros [(p' & Hp & C)|C]; [exists p'; rewrite in_app_iff; auto|]. exists p. rewrite in_app_iff. split; [right; now left|]. unfold covers. lia.
    - intros (p' & Hp & C). apply in_app_iff in Hp as [Hp|[<-|[]]]; [left; eauto|]. right. unfold covers in C. lia. }
  assert (Ne : exists b0 rest, ad_blocks a = b0 :: rest).
  { destruct (ad_blocks a) as [|b0 rest]; [|eauto]. exfalso. apply (covered_nil (frag_off p)). apply Ca. right. lia. }
  destruct Ne as (b0 & rest & Eb). assert (Fb : fr_blocks f1 = b0 :: rest) by exact Eb. assert (Fh : proto_hdr f1 = hdr) by exact Sh. rewrite Eb in *.
  destruct (frag_BlockInserted_spec f1 b0 rest) as [[Eq All]|[Eq (q & Hq & Nq)]]; auto.
  - cbn [f1 set_frag_blocks set_frag_size proto_hdr]. now rewrite Sh.
  - cbn [f1 set_frag_blocks set_frag_size frag_size]. destruct (last_seen (ps ++ [p])); auto.
  - intros C. cbn [f1 set_frag_blocks set_frag_size frag_size]. now rewrite (last_byte_seen (ps ++ [p]) Fp (proj1 (Cov _) C)).
  - assert (W : complete (ps ++ [p]) = true) by (apply complete_spec; intros q Hq; now apply Cov, All). rewrite W in *. destruct T as [T|T]; [|discriminate].
    rewrite Eq. unfold DeleteTimer. cbn [f1 set_reassembled set_frag_blocks set_frag_size expire_timer].
    destruct (expire_timer f) eqn:Et; [contradiction| |]; eexists; eexists; (split; [reflexivity|]); (split; [|first [reflexivity|exact Et]]); split;
      cbn [set_timer set_reassembled set_frag_blocks set_frag_size fr_blocks proto_hdr frag_size reassembled_pkt]; rewrite ?Fb, ?W, ?Fh; auto.
  - assert (W : complete (ps ++ [p]) = false).
    { destruct (complete (ps ++ [p])) eqn:W; [|reflexivity]. exfalso. apply Nq, Cov. now apply (proj1 (complete_spec _) W). }
    rewrite W, Eq. eexists; eexists; (split; [reflexivity|]); (split; [|reflexivity]). split;
      rewrite ?Fb, ?W; auto.
    change (reassembled_pkt f1) with (reassembled_pkt f). rewrite Sk. destruct (complete ps) eqn:Wp; [|reflexivity]. exfalso. apply Nq, Cov. destruct (proj1 (complete_spec _) Wp q Hq) as (p' & Hp & C).
    exists p'. rewrite in_app_iff. auto.
Qed.

Lemma AddFragment_spec hdr ps p f :
  (4 <= List.length hdr)%nat -> ip_hl hdr = hl -> Forall fragment_of (ps ++ [p]) -> frag_state hdr ps f ->
  expire_timer f <> Uninit \/ complete (ps ++ [p]) = false ->
  exists f' os, AddFragment uninit p (FragField p) f = Some (f', os) /\
    frag_state hdr (ps ++ [p]) f' /\ expire_timer f' = if complete (ps ++ [p]) then Null else expire_timer f.
Proof.
  intros Lh Eh Fp S T. destruct (frag_NewBlock_spec hdr ps p f Lh Fp S T) as (f' & os & E & S' & T').
  apply Forall_app in Fp as [_ Fp]. destruct (Forall_inv Fp) as [Hp L En Dt Ls]. pose proof (size_after_spec p ps (Forall_inv Fp)) as Sz. cbn zeta in Sz.
  unfold AddFragment. rewrite (s_hdr _ _ _ S), Eh, (s_size _ _ _ S). fold (frag_off p). fold (frag_len p).
  replace (frag_off p + TotalLen p - hl * 4) with (frag_off p + frag_len p) by (unfold frag_len; lia). rewrite Dt.
  destruct (size_after _ _ _ _) as [size os2]. cbn [fst] in Sz. rewrite Sz, E. exists f'. eexists. split; [reflexivity|]. now split.
Qed.

(** A fragment is never all of its datagram. *)
Lemma one_incomplete p : fragment_of p -> Z.land (FragField p) 0x3fff <> 0 -> complete [p] = false.
Proof.
  intros [_ L E _ Ls] N. destruct (complete [p]) eqn:C; [exfalso|reflexivity]. apply complete_spec in C.
  destruct (C 0 ltac:(lia)) as (x & [<-|[]] & C0). destruct (C (size_of D - 1) ltac:(lia)) as (x & [<-|[]] & C1). unfold covers in C0, C1.
  assert (Oo : 0 <= Z.land (FragField p) 8191) by (apply Z.land_nonneg; lia). assert (M : more_fragments p = false) by (apply Ls; lia).
  apply negb_false_iff, Z.eqb_eq in M. apply N. change 0x3fff with (Z.lor 8191 8192). rewrite Z.land_lor_distr_r, M, Z.lor_0_r. unfold frag_off in C0. lia.
Qed.

(** The fragments of a datagram, the first of which makes the reassembler. *)
Definition add_all (ps : list (list Z)) (f : FragReassembler) : option FragReassembler :=
  fold_left (fun f p => match f with Some f => option_map fst (AddFragment uninit p (FragField p) f) | None => None end) ps (Some f).

Lemma add_all_spec hdr ps before f :
  (4 <= List.length hdr)%nat -> ip_hl hdr = hl -> Forall fragment_of (before ++ ps) -> frag_state hdr before f -> expire_timer f <> Uninit ->
  exists f', add_all ps f = Some f' /\ frag_state hdr (before ++ ps) f'.
Proof.
  intros Lh Eh. revert before f. induction ps as [|p ps IH]; intros before f F S T; [rewrite app_nil_r; now exists f|].
  assert (F' : Forall fragment_of (before ++ [p])) by (apply Forall_app in F as [F1 F2]; apply Forall_app; split; [exact F1|constructor; [now inversion F2|constructor]]).
  destruct (AddFragment_spec hdr before p f Lh Eh F' S (or_introl T)) as (f1 & os & E & S1 & T1).
  unfold add_all. cbn [fold_left]. rewrite E. cbn [option_map fst]. fold (add_all ps f1).
  replace (before ++ p :: ps) with ((before ++ [p]) ++ ps) in * by now rewrite <- app_assoc.
  apply IH; auto. rewrite T1. now destruct (complete _).
Qed.

End Reassembly.

(** C14: fragments of a datagram of any payload [D], each with some of the payload and all with headers of the same
    length, in whatever order they come, with duplicates and overlaps, are reassembled to exactly that datagram behind
    the header of the fragment that came first, with the length set, as soon as every byte of it has been seen and not
    before, and no call fails on them.  (The code subtracts the header length of the first fragment from each one: with
    fragments of any header lengths no call fails as long as none is shorter than the first header, [AddFragment_total],
    and [short_fragment_fails] has two where one does.) *)
Theorem fragments_reassemble uninit hl D frag_timeout t p ps :
  (forall n, 0 <= n -> size_of (uninit n) = n) -> 5 <= hl -> 0 < size_of D < 2 ^ 31 - 1 ->
  Forall (fragment_of hl D) (p :: ps) -> hl * 4 <= size_of p -> Z.land (FragField p) 0x3fff <> 0 ->
  exists f os f', new_FragReassembler uninit frag_timeout t p (FragField p) = Some (f, os) /\ reassembled_pkt f = None /\
    add_all uninit ps f = Some f' /\
    reassembled_pkt f' = if complete hl D (p :: ps) then Some (datagram_hdr (firstn (Z.to_nat (hl * 4)) p) (size_of D) ++ D) else None.
Proof.
  intros Un Hhl HD F Lp Nf. change (2 ^ 31 - 1) with (SEQ_LIMIT - 1) in HD. pose proof (Forall_inv F) as Fp. set (hdr := firstn (Z.to_nat (hl * 4)) p).
  assert (Lh : List.length hdr = Z.to_nat (hl * 4)) by (unfold hdr; rewrite length_firstn; lia).
  assert (Eh : ip_hl hdr = hl) by (rewrite <- (fg_hl _ _ _ Fp); unfold ip_hl, hdr; rewrite nth_take by lia; reflexivity).
  set (f0 := {| fr_blocks := []; proto_hdr := hdr; reassembled_pkt := None; frag_size := 0; expire_timer := Uninit |}).
  assert (S0 : frag_state hl D hdr [] f0).
  { split; cbn; auto; try lia. - intros q. rewrite covered_nil. split; [tauto|]. now intros (x & [] & _). - destruct D; [cbn in HD; lia|reflexivity]. }
  pose proof (one_incomplete hl D ltac:(lia) p Fp Nf) as Inc.
  destruct (AddFragment_spec uninit Un hl D ltac:(lia) ltac:(lia) hdr [] p f0 ltac:(lia) Eh (Forall_cons _ Fp (Forall_nil _)) S0 (or_intror Inc)) as (f1 & os & E & S1 & T1).
  assert (N : exists f os', new_FragReassembler uninit frag_timeout t p (FragField p) = Some (f, os') /\ frag_state hl D hdr [p] f /\ expire_timer f <> Uninit).
  { unfold new_FragReassembler. rewrite (fg_hl _ _ _ Fp). fold hdr. fold f0. rewrite E.
    destruct (negb (frag_timeout =? 0)); eexists; eexists; (split; [reflexivity|]); (split; [|discriminate]); destruct S1; now split. }
  destruct N as (f & os' & E' & S & T). exists f, os'.
  destruct (add_all_spec uninit Un hl D ltac:(lia) ltac:(lia) hdr ps [p] f ltac:(lia) Eh F S T) as (f' & Ea & S'). exists f'.
  split; [exact E'|]. split; [rewrite (s_pkt _ _ _ _ _ S), Inc; reflexivity|]. split; [exact Ea|]. exact (s_pkt _ _ _ _ _ S').
Qed.

(** ** Any fragments *)

(** The largest end of a fragment. *)
Abbreviation FRAG_LIMIT := 131063.

Record frag_wf (f : FragReassembler) : Prop := {
  w_ordered : ordered 0 (fr_blocks f) FRAG_LIMIT;
  w_full : Forall full_block (fr_blocks f);
  w_size : 0 <= frag_size f <= FRAG_LIMIT;
  w_hdr : (4 <= List.length (proto_hdr f))%nat;
  w_timer : expire_timer f <> Uninit }.

Lemma field_bound i p : Forall is_byte p -> 0 <= be_value (firstn 2 (skipn i p)) <= 65535.
Proof.
  intros F. assert (B : Forall is_byte (rev (firstn 2 (skipn i p)))).
  { apply Forall_rev. rewrite Forall_forall in *. intros x Hx. apply F. rewrite <- (firstn_skipn i p), in_app_iff. right.
    rewrite <- (firstn_skipn 2 (skipn i p)), in_app_iff. now left. }
  pose proof (le_value_bound _ B) as H. unfold be_value. rewrite length_rev, length_firstn in H.
  assert (256 ^ Z.of_nat (Nat.min 2 (List.length (skipn i p))) <= 256 ^ 2) by (apply Z.pow_le_mono_r; lia). lia.
Qed.

Section Arbitrary.

Context (uninit : Z -> list Z) (uninit_length : forall n, 0 <= n -> size_of (uninit n) = n).

Lemma reassemble_wf f b0 rest :
  frag_wf f -> fr_blocks f = b0 :: rest -> db_seq b0 = 0 -> frag_size f = db_upper (fst (contiguous b0 rest)) ->
  exists f' os, reassemble uninit f = Some (f', os) /\ frag_wf f'.
Proof.
  intros [O F S H T] Eb E0 Es. rewrite Eb in *. rewrite (reassemble_spec uninit uninit_length f b0 rest FRAG_LIMIT) by auto.
  unfold DeleteTimer. cbn [set_reassembled expire_timer]. destruct (expire_timer f) eqn:Et; [contradiction| |]; eexists; eexists;
    (split; [reflexivity|]); split; cbn [set_timer set_reassembled fr_blocks frag_size proto_hdr expire_timer]; rewrite ?Eb, ?Et; auto; discriminate.
Qed.

Lemma BlockInserted_wf f : frag_wf f -> fr_blocks f <> [] -> exists f' os, BlockInserted uninit f = Some (f', os) /\ frag_wf f'.
Proof.
  intros W N. pose proof W as W'. destruct W' as [O F S H T]. unfold BlockInserted. destruct (fr_blocks f) as [|b0 rest] eqn:Eb; [contradiction|].
  destruct ((0 <? db_seq b0) || (frag_size f =? 0)) eqn:G; [exists f, []; split; [reflexivity|exact W]|]. apply orb_false_iff in G as [G1 G2]. apply Z.ltb_ge in G1.
  assert (E0 : db_seq b0 = 0) by (cbn [ordered] in O; lia).
  destruct (contiguous b0 rest) as [e hole] eqn:Ec. destruct (contiguous_spec 0 b0 rest FRAG_LIMIT e hole O Ec) as (_ & U & L & _).
  assert (Inc : exists f' os, match reassemble uninit (set_frag_size (db_upper e) f) with
                 | Some (f, os) => Some (f, FragWeird "fragment_size_inconsistency" :: os) | None => None end = Some (f', os) /\ frag_wf f').
  { destruct (reassemble_wf (set_frag_size (db_upper e) f) b0 rest) as (f' & os & -> & W'); [split; cbn; rewrite ?Eb; auto; lia|exact Eb|exact E0|now rewrite Ec|].
    eexists; eexists; split; [reflexivity|exact W']. }
  assert (Stay : exists f' (os : list FragOut), Some (f, []) = Some (f', os) /\ frag_wf f') by (exists f, []; split; [reflexivity|exact W]).
  destruct hole; [destruct (frag_size f <=? db_upper e); assumption|]. destruct (Z.ltb_spec (frag_size f) (db_upper e)); [exact Inc|].
  destruct (Z.ltb_spec (db_upper e) (frag_size f)); [exact Stay|]. apply (reassemble_wf f b0 rest); auto. rewrite Ec. cbn. lia.
Qed.

(** A fragment that is not shorter than the header of the first never makes the reassembly fail. *)
Lemma AddFragment_total p f :
  frag_wf f -> Forall is_byte p -> 0 <= ip_hl (proto_hdr f) * 4 <= TotalLen p -> TotalLen p <= size_of p ->
  exists f' os, AddFragment uninit p (FragField p) f = Some (f', os) /\ frag_wf f'.
Proof.
  intros W B Hl Lp. pose proof (field_bound 2 p B) as Bt. fold (TotalLen p) in Bt.
  assert (Bo : 0 <= Z.land (FragField p) 8191 <= 8191).
  { change 8191 with (Z.ones 13). rewrite Z.land_ones by lia. pose proof (Z.mod_pos_bound (FragField p) (2 ^ 13)). change (Z.ones 13) with 8191. lia. }
  unfold AddFragment. set (hdr_len := ip_hl (proto_hdr f) * 4) in *. change 0x1fff with 8191. set (off := Z.land (FragField p) 8191 * 8).
  assert (Ho : 0 <= off <= 65528) by (unfold off; lia). clearbody off.
  assert (So : forall last, 0 <= fst (size_after last (TotalLen p) (off + TotalLen p - hdr_len) (frag_size f)) <= FRAG_LIMIT).
  { intros last. pose proof (w_size _ W). unfold size_after, weird_if. destruct last; [destruct (frag_size f =? 0); [|destruct (negb (_ =? frag_size f)); [destruct (_ <? off + _ - _)|]]|];
      match goal with |- context [if negb (?s =? 0) && (?s <? ?u) then _ else _] => destruct (negb (s =? 0) && (s <? u)) end; cbn [fst]; lia. }
  destruct (size_after _ _ _ _) as [size os2] eqn:Es. specialize (So (Z.land (FragField p) 8192 =? 0)). rewrite Es in So. cbn [fst] in So.
  set (d := firstn _ _). assert (Ld : size_of d = TotalLen p - hdr_len) by (unfold d; rewrite length_firstn, length_skipn; lia).
  assert (W1 : frag_wf (set_frag_size size f)) by (destruct W; now split).
  assert (N : exists f' os, NewBlock uninit off (TotalLen p - hdr_len) d (set_frag_size size f) = Some (f', os) /\ frag_wf f').
  { unfold NewBlock. destruct (Z.eqb_spec (TotalLen p - hdr_len) 0) as [Z0|Z0]; [eexists; eexists; split; [reflexivity|exact W1]|].
    rewrite int_add_small, seq_delta_small, (proj2 (Z.leb_gt _ _)), (proj2 (Z.ltb_ge _ _)) by lia. rewrite <- Ld.
    destruct (insert_any FRAG_LIMIT (fr_blocks f) off d) as (a & Ea & Oa & Fa & Ca); [lia|apply W|apply W|lia|intros En; rewrite En in Ld; change (size_of []) with 0 in Ld; lia|lia|].
    cbn [set_frag_size fr_blocks]. rewrite Ea. destruct (BlockInserted_wf (set_frag_blocks (ad_blocks a) (set_frag_size size f))) as (f' & os & -> & W').
    - destruct W1. now split.
    - cbn. intros En. rewrite En in Ca. apply (covered_nil off), Ca. right. lia.
    - eexists; eexists; split; [reflexivity|exact W']. }
  destruct N as (f' & os & -> & W'). eexists; eexists; split; [reflexivity|exact W'].
Qed.

End Arbitrary.

(** ** Examples *)

(** A fragment as a list of bytes: header length in words, more fragments, offset in units of eight, payload. *)
Definition make_fragment (hl : Z) (more : bool) (off8 : Z) (payload : list Z) : list Z :=
  [64 + hl; 0] ++ be2 (hl * 4 + size_of payload) ++ [0; 7] ++ be2 ((if more then 8192 else 0) + off8) ++ [64; 6; 0; 0; 10; 0; 0; 1; 10; 0; 0; 2]
  ++ repeat 1 (Z.to_nat (hl * 4 - 20)) ++ payload.

Definition demo_payload : list Z := map Z.of_nat (seq 0 24).
Definition demo_fragments : list (list Z) :=
  [make_fragment 5 false 2 (skipn 16 demo_payload); make_fragment 5 true 0 (firstn 8 demo_payload); make_fragment 5 true 0 (firstn 16 demo_payload)].

Definition zeros (n : Z) : list Z := repeat 0 (Z.to_nat n).

Lemma zeros_length n : 0 <= n -> size_of (zeros n) = n.
Proof. intros H. unfold zeros. rewrite repeat_length. lia. Qed.

Lemma fragments_reassemble_witness :
  exists f os f', new_FragReassembler zeros 0 0 (hd [] demo_fragments) (FragField (hd [] demo_fragments)) = Some (f, os) /\ reassembled_pkt f = None /\
    add_all zeros (tl demo_fragments) f = Some f' /\ option_map (skipn 20) (reassembled_pkt f') = Some demo_payload /\
    option_map TotalLen (reassembled_pkt f') = Some 44.
Proof.
  destruct (fragments_reassemble zeros 5 demo_payload 0 0 (hd [] demo_fragments) (tl demo_fragments)) as (f & os & f' & E1 & E2 & E3 & E4).
  - exact zeros_length.
  - lia.
  - vm_compute. split; reflexivity.
  - unfold demo_fragments. cbn [hd tl]. repeat constructor; try (vm_compute; (reflexivity || discriminate)); vm_compute; intros; discriminate.
  - vm_compute. discriminate.
  - vm_compute. discriminate.
  - exists f, os, f'. split; [exact E1|]. split; [exact E2|]. split; [exact E3|]. rewrite E4. split; vm_compute; reflexivity.
Defined.

(** Two fragments, each with all of its header and its payload, of which the first has a header of 60 bytes
    and the second one of 20: the payload of the second is taken to have a negative length. *)
Lemma short_fragment_fails :
  let p1 := make_fragment 15 true 0 demo_payload in
  let p2 := make_fragment 5 true 100 (firstn 8 demo_payload) in
  TotalLen p2 = size_of p2 /\ HdrLen p2 + 8 = TotalLen p2 /\
  exists f os, new_FragReassembler zeros 0 0 p1 (FragField p1) = Some (f, os) /\ AddFragment zeros p2 (FragField p2) f = None.
Proof.
  cbv zeta. split; [vm_compute; reflexivity|]. split; [vm_compute; reflexivity|]. eexists; eexists. split; [vm_compute; reflexivity|]. vm_compute. reflexivity.
Qed.
