(* ===== verification/Sessions.v ===== *)
(** * Connections ([src/Sessions.cc], [src/Conn.cc], [ICMP_counterpart] of [src/ICMP.cc])

    [NetSessions] gives each packet to the connection it belongs to: it checks the IP header,
    reassembles fragments ([Frag]), looks the connection up under a key that is the same for
    both directions, and makes and removes connections.  Connections and reassemblers are
    objects that the tables point to, so there is a memory of objects; 0 is the null pointer.

    The tables are used through the interface [ConnTable], which the dictionary of [Dict]
    implements; the analyzers of a connection through the interface [Analyzer].  The policy of
    the station turns the connection compressor off, and packets have no tag of an external
    source.  [None] is undefined behaviour or [internal_error]. *)
From S2P Require Import Prelude Bytes CLib TelexUtil TelexTcp Reassem BroTcp Frag Dict DictThms.
From Stdlib Require Import String ZArith Lia List Bool.
From stdpp Require Import gmap list.

Open Scope Z_scope.

(** ** Interfaces *)

(** A table of pointers under byte strings, and what it promises. *)
Class ConnTable (T : Type) := {
  tab_lookup : list Z -> T -> option nat;
  tab_insert : list Z -> nat -> T -> option T;
  tab_remove : list Z -> T -> option (T * nat);
  tab_rep : T -> gmap (list Z) nat -> Prop;
  tab_nonnull t m k v : tab_rep t m -> m !! k = Some v -> v <> 0%nat;
  tab_lookup_ok t m k : tab_rep t m -> tab_lookup k t = Some (default 0%nat (m !! k));
  tab_insert_ok t m k v : tab_rep t m -> m !! k = None -> v <> 0%nat -> Z.of_nat (size m) + 1 < 2 ^ 31 ->
    exists t', tab_insert k v t = Some t' /\ tab_rep t' (<[k := v]> m);
  tab_remove_ok t m k : tab_rep t m -> exists t', tab_remove k t = Some (t', default 0%nat (m !! k)) /\ tab_rep t' (delete k m) }.

(** ** Keys *)

Record ConnID := { src_addr : list Z; dst_addr : list Z; src_port : Z; dst_port : Z; is_one_way : bool }.

(** The analyzers of a connection: what [BuildInitialAnalyzerTree] makes, the packets they are given, [IsReuse] and [Done]. *)
Class Analyzer (C : Type) := {
  a_new : Z -> Z -> ConnID -> list Z -> C;                                (* protocol, time, originator and responder, first packet *)
  a_packet : Z -> bool -> list Z -> Z -> Z -> list Z -> C -> option C;    (* time, from the originator, IP packet, length, captured, payload *)
  a_reuse : Z -> list Z -> C -> C * bool;
  a_done : C -> C }.

(** Addresses are compared as numbers of the host. *)
Definition addr_port_canon_lt (a1 : list Z) (p1 : Z) (a2 : list Z) (p2 : Z) : bool :=
  (le_value a1 <? le_value a2) || ((le_value a1 =? le_value a2) && (p1 <? p2)).

(** The bytes of [struct Key]. *)
Definition key_bytes (ip1 ip2 : list Z) (port1 port2 : Z) : list Z := ip1 ++ ip2 ++ le_bytes 2 port1 ++ le_bytes 2 port2.

Definition BuildConnKey (id : ConnID) : list Z :=
  if is_one_way id || addr_port_canon_lt (src_addr id) (src_port id) (dst_addr id) (dst_port id)
  then key_bytes (src_addr id) (dst_addr id) (src_port id) (dst_port id)
  else key_bytes (dst_addr id) (src_addr id) (dst_port id) (src_port id).

(** [ICMP_counterpart]: the type of the answer, or the code of a message that has none; with [is_one_way]. *)
Definition ICMP_counterpart (icmp_type icmp_code : Z) : Z * bool :=
  if icmp_type =? 8 then (0, false)             (* ICMP_ECHO, ICMP_ECHOREPLY *)
  else if icmp_type =? 0 then (8, false)
  else if icmp_type =? 13 then (14, false)      (* ICMP_TSTAMP, ICMP_TSTAMPREPLY *)
  else if icmp_type =? 14 then (13, false)
  else if icmp_type =? 15 then (16, false)      (* ICMP_IREQ, ICMP_IREQREPLY *)
  else if icmp_type =? 16 then (15, false)
  else if icmp_type =? 10 then (9, false)       (* ICMP_ROUTERSOLICIT, ICMP_ROUTERADVERT *)
  else if icmp_type =? 17 then (18, false)      (* ICMP_MASKREQ, ICMP_MASKREPLY *)
  else if icmp_type =? 18 then (17, false)
  else (icmp_code, true).

Definition IPPROTO_ICMP : Z := 1.
Definition IPPROTO_TCP : Z := 6.
Definition IPPROTO_UDP : Z := 17.

(** The identity of a packet's connection, from its addresses and the start of its payload; bytes that were not captured are read as 0. *)
Definition conn_id_of (proto : Z) (ip data : list Z) : ConnID :=
  if proto =? IPPROTO_ICMP then
    let '(counterpart, one_way) := ICMP_counterpart (nth 0 data 0) (nth 1 data 0) in
    {| src_addr := SrcAddr ip; dst_addr := DstAddr ip; src_port := ntohs (nth 0 data 0); dst_port := ntohs counterpart; is_one_way := one_way |}
  else {| src_addr := SrcAddr ip; dst_addr := DstAddr ip; src_port := load16 data; dst_port := load16 (skipn 2 data); is_one_way := false |}.

Definition flip_id (id : ConnID) : ConnID :=
  {| src_addr := dst_addr id; dst_addr := src_addr id; src_port := dst_port id; dst_port := src_port id; is_one_way := is_one_way id |}.

(** ** Connections that are wanted *)

Definition TCP_PORT_MASK : Z := 0x10000.
Definition UDP_PORT_MASK : Z := 0x20000.
Definition ICMP_PORT_MASK : Z := 0x30000.

(** Bro's options. *)
Record SessOptions := {
  ignore_checksums : bool; partial_connection_ok : bool; tcp_SYN_ack_ok : bool;
  likely_server_ports : list Z;         (* with the bits of the protocol *)
  packet_filter : list Z -> bool; discarder : list Z -> bool;
  frag_timeout : Z }.

Section Sessions.

Context (opts : SessOptions).

Definition IsLikelyServerPort (port proto : Z) : bool :=
  let port := if proto =? IPPROTO_TCP then Z.lor port TCP_PORT_MASK
              else if proto =? IPPROTO_UDP then Z.lor port UDP_PORT_MASK
              else if proto =? IPPROTO_ICMP then Z.lor port ICMP_PORT_MASK else port in
  existsb (Z.eqb port) (likely_server_ports opts).

(** Whether the connection is wanted, and whether its roles are flipped. *)
Definition WantConnection (src_port dst_port proto tcp_flags : Z) : bool * bool :=
  if proto =? IPPROTO_TCP then
    let syn := has_flag TH_SYN tcp_flags in
    if negb syn || has_flag TH_ACK tcp_flags then
      if negb (partial_connection_ok opts) then (false, false)
      else if syn && negb (tcp_SYN_ack_ok opts) then (false, false)
      else if IsLikelyServerPort src_port IPPROTO_TCP then
        if IsLikelyServerPort dst_port IPPROTO_TCP then (true, negb syn && (src_port <? dst_port)) else (true, true)
      else (true, false)
    else (true, false)
  else if proto =? IPPROTO_UDP then (true, IsLikelyServerPort src_port IPPROTO_UDP && negb (IsLikelyServerPort dst_port IPPROTO_UDP))
  else (true, false).

(** ** State *)

Context {C : Type} `{!Analyzer C} {T : Type} `{!ConnTable T}.

Record Connection := { c_key : list Z; c_proto : Z; orig_addr : list Z; resp_addr : list Z; orig_port : Z; resp_port : Z; c_analyzer : C }.

Definition set_analyzer (a : C) (c : Connection) : Connection :=
  {| c_key := c_key c; c_proto := c_proto c; orig_addr := orig_addr c; resp_addr := resp_addr c; orig_port := orig_port c; resp_port := resp_port c; c_analyzer := a |}.

Inductive Object := OConn (c : Connection) | OFrag (key : list Z) (f : FragReassembler).

Record NetSessions := { tcp_conns : T; udp_conns : T; icmp_conns : T; fragments : T; objects : gmap nat Object }.

Definition set_objects (o : gmap nat Object) (s : NetSessions) : NetSessions :=
  {| tcp_conns := tcp_conns s; udp_conns := udp_conns s; icmp_conns := icmp_conns s; fragments := fragments s; objects := o |}.
Definition set_fragments (t : T) (s : NetSessions) : NetSessions :=
  {| tcp_conns := tcp_conns s; udp_conns := udp_conns s; icmp_conns := icmp_conns s; fragments := t; objects := objects s |}.

(** The table of a protocol. *)
Definition conns (proto : Z) (s : NetSessions) : T :=
  if proto =? IPPROTO_TCP then tcp_conns s else if proto =? IPPROTO_UDP then udp_conns s else icmp_conns s.
Definition set_conns (proto : Z) (t : T) (s : NetSessions) : NetSessions :=
  {| tcp_conns := if proto =? IPPROTO_TCP then t else tcp_conns s;
     udp_conns := if proto =? IPPROTO_TCP then udp_conns s else if proto =? IPPROTO_UDP then t else udp_conns s;
     icmp_conns := if proto =? IPPROTO_TCP then icmp_conns s else if proto =? IPPROTO_UDP then icmp_conns s else t;
     fragments := fragments s; objects := objects s |}.

(** What becomes visible. *)
Inductive SessOut :=
| SessWeird (name : string)
| SessFrag (o : FragOut)
| new_connection (key : list Z)
| connection_reused (key : list Z)
| connection_state_remove (key : list Z) (final : C).

(** Memory: the address of a new object, and what new arrays hold. *)
Context (new_object : gmap nat Object -> nat) (uninit : Z -> list Z).

(** ** Connections are made and removed *)

(** [NewConn]: nothing when it is not wanted. *)
Definition NewConn (k : list Z) (t : Z) (id : ConnID) (data : list Z) (proto : Z) : option Connection :=
  let flags := if proto =? IPPROTO_TCP then th_flags data else 0 in
  let '(want, flip) := WantConnection (ntohs (src_port id)) (ntohs (dst_port id)) proto flags in
  if want then
    let id := if flip then flip_id id else id in
    Some {| c_key := k; c_proto := proto; orig_addr := src_addr id; resp_addr := dst_addr id; orig_port := src_port id; resp_port := dst_port id;
            c_analyzer := a_new proto t id data |}
  else None.

(** [Remove] of the connection at this address. *)
Definition Remove (p : nat) (s : NetSessions) : option (NetSessions * list SessOut) :=
  match objects s !! p with
  | Some (OConn c) =>
      '(t, found) ← tab_remove (c_key c) (conns (c_proto c) s);
      if decide (found = 0%nat) then None
      else Some (set_objects (delete p (objects s)) (set_conns (c_proto c) t s), [connection_state_remove (c_key c) (a_done (c_analyzer c))])
  | _ => None
  end.

(** [Remove] of a reassembler. *)
Definition Remove_frag (p : nat) (s : NetSessions) : option NetSessions :=
  match objects s !! p with
  | Some (OFrag k f) =>
      '(t, found) ← tab_remove k (fragments s);
      if decide (found = 0%nat) then None else Some (set_objects (delete p (objects s)) (set_fragments t s))
  | _ => None
  end.

(** A new connection in its table. *)
Definition add_conn (c : option Connection) (s : NetSessions) : option (NetSessions * option nat * list SessOut) :=
  match c with
  | None => Some (s, None, [])
  | Some c =>
      let p := new_object (objects s) in
      t ← tab_insert (c_key c) p (conns (c_proto c) s);
      Some (set_objects (<[p := OConn c]> (objects s)) (set_conns (c_proto c) t s), Some p, [new_connection (c_key c)])
  end.

(** The connection of a packet: looked up, made, or made anew. *)
Definition find_conn (k : list Z) (t : Z) (id : ConnID) (data : list Z) (proto : Z) (s : NetSessions)
    : option (NetSessions * option nat * list SessOut) :=
  p ← tab_lookup k (conns proto s);
  if decide (p = 0%nat) then add_conn (NewConn k t id data proto) s
  else
    match objects s !! p with
    | Some (OConn c) =>
        let '(a, reuse) := a_reuse t data (c_analyzer c) in
        let s := set_objects (<[p := OConn (set_analyzer a c)]> (objects s)) s in
        if reuse : bool then
          '(s, os1) ← Remove p s;
          '(s, r, os2) ← add_conn (NewConn k t id data proto) s;
          Some (s, r, connection_reused k :: os1 ++ os2)
        else Some (s, Some p, [])
    | _ => None
    end.

(** ** Packets *)

(** A datagram, or the part of it that was captured; [dg_frag] is the reassembler it comes from. *)
Record Datagram := { dg_ip : list Z; dg_proto : Z; dg_len : Z; dg_caplen : Z; dg_frag : option nat }.

(** [NextFragment]: the reassembler of the fragment, after it was added.  The key of the three numbers is equal for equal numbers
    and only for them, so it is written as their bytes. *)
Definition NextFragment (t : Z) (ip : list Z) (s : NetSessions) : option (NetSessions * nat * FragReassembler * list SessOut) :=
  let k := SrcAddr ip ++ DstAddr ip ++ le_bytes 2 (IP_ID ip) in
  p ← tab_lookup k (fragments s);
  if decide (p = 0%nat) then
    '(f, os) ← new_FragReassembler uninit (frag_timeout opts) t ip (FragField ip);
    let p := new_object (objects s) in
    tb ← tab_insert k p (fragments s);
    Some (set_objects (<[p := OFrag k f]> (objects s)) (set_fragments tb s), p, f, map SessFrag os)
  else
    match objects s !! p with
    | Some (OFrag k' f) =>
        '(f, os) ← AddFragment uninit ip (FragField ip) f;
        Some (set_objects (<[p := OFrag k' f]> (objects s)) s, p, f, map SessFrag os)
    | _ => None
    end.

(** The first part of [DoNextPacket], up to the datagram: [ip] is what was captured from the IP header on, [wire_len] its length on the wire. *)
Definition accept (t wire_len : Z) (ip : list Z) (s : NetSessions) : option (NetSessions * option Datagram * list SessOut) :=
  let caplen := Z.of_nat (List.length ip) in
  let len := TotalLen ip in
  let proto := NextProto ip in
  if wire_len <? len then Some (s, None, [SessWeird "truncated_IP"])
  else if packet_filter opts ip then Some (s, None, [])
  else
    sum ← if ignore_checksums opts then Some 0xffff else ones_complement_checksum ip (HdrLen ip) 0;
    if negb (sum =? 0xffff) then Some (s, None, [SessWeird "bad_IP_checksum"])
    else if discarder opts ip then Some (s, None, [])
    else if negb (proto =? IPPROTO_TCP) && negb (proto =? IPPROTO_UDP) && negb (proto =? IPPROTO_ICMP) then Some (s, None, [])
    else
      let whole := {| dg_ip := ip; dg_proto := proto; dg_len := len; dg_caplen := caplen; dg_frag := None |} in
      if Z.land (FragField ip) 0x3fff =? 0 then Some (s, Some whole, [])
      else if caplen <? len then
        Some (s, if Z.land (FragField ip) 0x1fff =? 0 then Some whole else None, [SessWeird "incompletely_captured_fragment"])
      else
        '(s, p, f, os) ← NextFragment t ip s;
        match reassembled_pkt f with
        | None => Some (s, None, os)
        | Some ih => Some (s, Some {| dg_ip := ih; dg_proto := proto; dg_len := TotalLen ih; dg_caplen := TotalLen ih; dg_frag := Some p |}, os)
        end.

Definition ICMP_MINLEN : Z := 8.
Definition min_hdr_len (proto : Z) : Z := if proto =? IPPROTO_TCP then sizeof_tcphdr else if proto =? IPPROTO_UDP then 8 else ICMP_MINLEN.

(** [if ( f ) Remove(f)], with or without [f->DeleteTimer()]. *)
Definition drop_frag (timer : bool) (f : option nat) (s : NetSessions) : option (NetSessions * list SessOut) :=
  match f with
  | None => Some (s, [])
  | Some p =>
      match objects s !! p with
      | Some (OFrag k fr) =>
          '(fr, os) ← if timer then DeleteTimer fr else Some (fr, []);
          s ← Remove_frag p (set_objects (<[p := OFrag k fr]> (objects s)) s);
          Some (s, map SessFrag os)
      | _ => None
      end
  end.

(** The second part: the datagram goes to its connection.  The lengths are [uint32]. *)
Definition deliver (t : Z) (dg : Datagram) (s : NetSessions) : option (NetSessions * list SessOut) :=
  let ip := dg_ip dg in let proto := dg_proto dg in
  let len := wrap 32 (dg_len dg - HdrLen ip) in
  let caplen := wrap 32 (dg_caplen dg - HdrLen ip) in
  let fails name := '(s, os) ← drop_frag false (dg_frag dg) s; Some (s, SessWeird name :: os) in
  if len <? min_hdr_len proto then fails "truncated_header"%string
  else if caplen <? min_hdr_len proto then fails "internally_truncated_header"%string
  else
    let data := Payload ip in
    let id := conn_id_of proto ip data in
    let k := BuildConnKey id in
    '(s, p, os1) ← find_conn k t id data proto s;
    match p with
    | None => Some (s, os1)
    | Some p =>
        match objects s !! p with
        | Some (OConn c) =>
            let is_orig := bool_decide (src_addr id = orig_addr c) && (src_port id =? orig_port c) in
            a ← a_packet t is_orig ip (swrap 32 len) (swrap 32 caplen) data (c_analyzer c);
            let s := set_objects (<[p := OConn (set_analyzer a c)]> (objects s)) s in
            '(s, os2) ← drop_frag true (dg_frag dg) s;
            Some (s, os1 ++ os2)
        | _ => None
        end
    end.

Definition DoNextPacket (t wire_len : Z) (ip : list Z) (s : NetSessions) : option (NetSessions * option Datagram * list SessOut) :=
  '(s, dg, os1) ← accept t wire_len ip s;
  match dg with
  | None => Some (s, None, os1)
  | Some dg => '(s, os2) ← deliver t dg s; Some (s, Some dg, os1 ++ os2)
  end.

(** [NextPacket], without an IP header that was extracted before: whether it looks like IPv4.  ARP has its own analyzer, if any. *)
Definition NextPacket (t wire_len : Z) (is_arp : bool) (ip : list Z) (s : NetSessions) : option (NetSessions * option Datagram * list SessOut) :=
  if Z.of_nat (List.length ip) <? 20 then Some (s, None, [SessWeird "truncated_IP"])
  else if ip_v ip =? 4 then DoNextPacket t wire_len ip s
  else if is_arp then Some (s, None, [])
  else Some (s, None, [SessWeird "non_IPv4_packet"]).

(** [FindConnection] of a record with the fields of [conn_id]; the ports are those of the script, in host order. *)
Definition FindConnection (proto : Z) (orig_h resp_h : list Z) (orig_p resp_p : Z) (s : NetSessions) : option nat :=
  let id := {| src_addr := orig_h; dst_addr := resp_h; src_port := ntohs orig_p; dst_port := ntohs resp_p; is_one_way := false |} in
  if (proto =? IPPROTO_TCP) || (proto =? IPPROTO_UDP) || (proto =? IPPROTO_ICMP) then tab_lookup (BuildConnKey id) (conns proto s) else Some 0%nat.

(** [FragReassembler::Expire], called by its timer. *)
Definition Expire_frag (p : nat) (s : NetSessions) : option NetSessions :=
  match objects s !! p with
  | Some (OFrag k f) => Remove_frag p (set_objects (<[p := OFrag k (set_timer Null (set_frag_blocks [] f))]> (objects s)) s)
  | _ => None
  end.

End Sessions.
