(* ===== verification/SessThms.v ===== *)
(** * Every packet reaches its connection and no other

    Theorems on [Sessions]: the key of a connection is that of both directions and of no other
    connection; the dictionary of [Dict] implements the table interface; and whatever the
    traffic, the state of a connection is what its own packets make of it. *)
From S2P Require Import Prelude Bytes CLib TelexUtil TelexTcp Reassem BroTcp TcpThms Frag Dict DictThms DictIter Sessions.
From Stdlib Require Import String ZArith Lia List Bool.
From stdpp Require Import gmap list.

Open Scope Z_scope.

(** ** Keys *)

(** An identity as packets give it. *)
Definition id_ok (id : ConnID) : Prop :=
  length (src_addr id) = 4%nat /\ length (dst_addr id) = 4%nat /\ Forall is_byte (src_addr id) /\ Forall is_byte (dst_addr id) /\
  0 <= src_port id < 65536 /\ 0 <= dst_port id < 65536.

Lemma le_bytes2_inj a b : 0 <= a < 65536 -> 0 <= b < 65536 -> le_bytes 2 a = le_bytes 2 b -> a = b.
Proof. intros Ha Hb E. rewrite <- (Z.mod_small a 65536), <- (Z.mod_small b 65536) by lia. change 65536 with (256 ^ Z.of_nat 2). now rewrite <- !le_value_bytes, E. Qed.

Lemma key_bytes_inj a1 a2 p1 p2 b1 b2 q1 q2 :
  length a1 = length b1 -> length a2 = length b2 -> 0 <= p1 < 65536 -> 0 <= q1 < 65536 -> 0 <= p2 < 65536 -> 0 <= q2 < 65536 ->
  key_bytes a1 a2 p1 p2 = key_bytes b1 b2 q1 q2 -> a1 = b1 /\ a2 = b2 /\ p1 = q1 /\ p2 = q2.
Proof.
  intros L1 L2 P1 Q1 P2 Q2 E. unfold key_bytes in E. apply app_inj_1 in E as [-> E]; [|exact L1]. apply app_inj_1 in E as [-> E]; [|exact L2].
  apply app_inj_1 in E as [E1 E2]; [|now rewrite !le_bytes_length]. apply le_bytes2_inj in E1, E2; auto.
Qed.

(** The order of the two sides decides between them. *)
Lemma canon_lt_total a1 p1 a2 p2 :
  length a1 = 4%nat -> length a2 = 4%nat -> Forall is_byte a1 -> Forall is_byte a2 ->
  addr_port_canon_lt a1 p1 a2 p2 = true /\ addr_port_canon_lt a2 p2 a1 p1 = false \/
  addr_port_canon_lt a1 p1 a2 p2 = false /\ addr_port_canon_lt a2 p2 a1 p1 = true \/
  addr_port_canon_lt a1 p1 a2 p2 = false /\ addr_port_canon_lt a2 p2 a1 p1 = false /\ a1 = a2 /\ p1 = p2.
Proof.
  intros L1 L2 B1 B2. unfold addr_port_canon_lt.
  destruct (Z.lt_trichotomy (le_value a1) (le_value a2)) as [H|[H|H]].
  - left. rewrite (proj2 (Z.ltb_lt _ _) H), (proj2 (Z.ltb_ge (le_value a2) (le_value a1))), (proj2 (Z.eqb_neq (le_value a2) (le_value a1))) by lia. auto.
  - assert (Ea : a1 = a2) by (rewrite <- (le_bytes_value a1 B1), <- (le_bytes_value a2 B2), L1, L2; now f_equal). subst a2.
    rewrite Z.ltb_irrefl, Z.eqb_refl. cbn. destruct (Z.lt_trichotomy p1 p2) as [P|[P|P]].
    + left. rewrite (proj2 (Z.ltb_lt _ _) P), (proj2 (Z.ltb_ge p2 p1)) by lia. auto.
    + right. right. subst. rewrite Z.ltb_irrefl. auto.
    + right. left. rewrite (proj2 (Z.ltb_lt p2 p1) P), (proj2 (Z.ltb_ge p1 p2)) by lia. auto.
  - right. left. rewrite (proj2 (Z.ltb_lt _ _) H), (proj2 (Z.ltb_ge (le_value a1) (le_value a2))), (proj2 (Z.eqb_neq (le_value a1) (le_value a2))) by lia. auto.
Qed.

Lemma key_flip id : id_ok id -> is_one_way id = false -> BuildConnKey (flip_id id) = BuildConnKey id.
Proof.
  intros (L1 & L2 & B1 & B2 & _) W. unfold BuildConnKey, flip_id. cbn [src_addr dst_addr src_port dst_port is_one_way]. rewrite W. cbn [orb].
  destruct (canon_lt_total (src_addr id) (src_port id) (dst_addr id) (dst_port id) L1 L2 B1 B2) as [[-> ->]|[[-> ->]|(-> & -> & -> & ->)]]; reflexivity.
Qed.


(** ** The dictionary is such a table *)

Section DictTable.

Context (alloc : gmap nat Dict.DictEntry -> nat) (alloc_fresh : forall m, m !! alloc m = None) (hash : list Z -> Z).

Definition hashed (k : list Z) : Z * list Z := (hash k, k).

#[local] Instance hashed_inj : Inj (=) (=) hashed.
Proof. intros k k' [= _ E]. exact E. Qed.

Definition dict_rep (d : Dict.Dictionary) (m : gmap (list Z) nat) : Prop := exists ks, DictThms.represents d (kmap hashed m) ks.

Lemma dict_lookup_rep d m k : dict_rep d m -> Dict.Lookup k (hash k) d = Some (default 0%nat (m !! k)).
Proof. intros [ks R]. rewrite (DictThms.Lookup_ok _ _ _ R). now rewrite (lookup_kmap hashed m k). Qed.

Lemma dict_insert_rep d m k v :
  dict_rep d m -> m !! k = None -> v <> 0%nat -> Z.of_nat (size m) + 1 < 2 ^ 31 ->
  exists d', (fst <$> Dict.Insert (alloc (Dict.mem d)) k (hash k) v d) = Some d' /\ dict_rep d' (<[k := v]> m).
Proof.
  intros [ks R] N Hv Sz. destruct (DictThms.Insert_ok d _ ks (alloc (Dict.mem d)) k (hash k) v R (alloc_fresh _) Hv) as (d' & -> & R').
  - rewrite <- length_map_to_list, (map_to_list_kmap hashed), length_fmap, length_map_to_list. exact Sz.
  - exists d'. split; [reflexivity|]. eexists. rewrite (kmap_insert hashed m k v). exact R'.
Qed.

Lemma dict_remove_rep d m k : dict_rep d m -> exists d', Dict.Remove k (hash k) d = Some (d', default 0%nat (m !! k)) /\ dict_rep d' (delete k m).
Proof.
  intros [ks R]. destruct (DictThms.Remove_ok k (hash k) R) as (d' & E & R'). exists d'. rewrite E. change (hash k, k) with (hashed k) in *.
  split; [now rewrite (lookup_kmap hashed m k)|]. eexists. rewrite (kmap_delete hashed m k). exact R'.
Qed.

Lemma dict_nonnull d m k v : dict_rep d m -> m !! k = Some v -> v <> 0%nat.
Proof. intros [ks R] E. apply (DictThms.r_values _ _ _ R (hashed k)). now rewrite (lookup_kmap hashed m k). Qed.

#[local] Instance dict_table : ConnTable Dict.Dictionary := {|
  tab_lookup k d := Dict.Lookup k (hash k) d;
  tab_insert k v d := fst <$> Dict.Insert (alloc (Dict.mem d)) k (hash k) v d;
  tab_remove k d := Dict.Remove k (hash k) d;
  tab_rep := dict_rep;
  tab_nonnull := dict_nonnull;
  tab_lookup_ok := dict_lookup_rep;
  tab_insert_ok := dict_insert_rep;
  tab_remove_ok := dict_remove_rep |}.

Lemma new_dict_rep size : 0 < size -> exists d, Dict.new_Dictionary false size = Some d /\ dict_rep d ∅.
Proof. intros H. destruct (DictThms.new_Dictionary_ok false size H) as (d & E & R). exists d. split; [exact E|]. exists None. now rewrite kmap_empty. Qed.

End DictTable.

(** ** The state of the sessions *)

Definition transports : list Z := [IPPROTO_TCP; IPPROTO_UDP; IPPROTO_ICMP].

Section Isolation.

Context (opts : SessOptions) {C : Type} `{!Analyzer C} {T : Type} `{!ConnTable T}.
Context (new_object : gmap nat (@Object C) -> nat) (uninit : Z -> list Z).
Context (new_object_fresh : forall m, new_object m <> 0%nat /\ m !! new_object m = None).

Abbreviation Sess := (@NetSessions C T).

(** The tables, and that exactly the objects in memory are in them. *)
Record sess_rep (s : Sess) (M : Z -> gmap (list Z) nat) (F : gmap (list Z) nat) : Prop := {
  sr_conns : forall q, q ∈ transports -> tab_rep (conns q s) (M q);
  sr_frags : tab_rep (fragments s) F;
  sr_conn_in : forall q k p, q ∈ transports -> M q !! k = Some p <-> exists c, objects s !! p = Some (OConn c) /\ c_key c = k /\ c_proto c = q;
  sr_proto : forall p c, objects s !! p = Some (OConn c) -> c_proto c ∈ transports;
  sr_frag_in : forall k p, F !! k = Some p <-> exists f, objects s !! p = Some (OFrag k f);
  sr_timer : forall p k f, objects s !! p = Some (OFrag k f) -> expire_timer f <> Uninit;
  sr_null : objects s !! 0%nat = None }.

(** The connection of a protocol and key. *)
Definition view (q : Z) (k : list Z) (s : Sess) : option (@Connection C) :=
  match tab_lookup k (conns q s) with
  | Some p => match objects s !! p with Some (OConn c) => Some c | _ => None end
  | None => None
  end.

Definition set_map (q : Z) (m : gmap (list Z) nat) (M : Z -> gmap (list Z) nat) : Z -> gmap (list Z) nat := fun x => if decide (x = q) then m else M x.

Lemma view_lookup {s M F} q k : sess_rep s M F -> q ∈ transports ->
  view q k s = match M q !! k with Some p => match objects s !! p with Some (OConn c) => Some c | _ => None end | None => None end.
Proof.
  intros R Hq. unfold view. rewrite (tab_lookup_ok _ _ k (sr_conns _ _ _ R q Hq)). destruct (M q !! k) as [p|]; cbn; [reflexivity|].
  now rewrite (sr_null _ _ _ R).
Qed.

(** The connections are the objects. *)
Lemma view_iff {s M F} q k c : sess_rep s M F -> q ∈ transports -> view q k s = Some c <-> exists p, objects s !! p = Some (OConn c) /\ c_key c = k /\ c_proto c = q.
Proof.
  intros R Hq. rewrite (view_lookup q k R Hq). split.
  - intros E. destruct (M q !! k) as [p|] eqn:Em; [|discriminate]. apply (sr_conn_in _ _ _ R q k p Hq) in Em as (c' & Ec & K & P).
    rewrite Ec in E. injection E as ->. eauto.
  - intros (p & Ec & K & P). assert (Em : M q !! k = Some p) by (apply (sr_conn_in _ _ _ R q k p Hq); eauto). now rewrite Em, Ec.
Qed.

Lemma view_ext {s M F s' M' F'} q k :
  sess_rep s M F -> sess_rep s' M' F' -> q ∈ transports ->
  (forall p c, c_key c = k -> c_proto c = q -> objects s' !! p = Some (OConn c) <-> objects s !! p = Some (OConn c)) -> view q k s' = view q k s.
Proof.
  intros R R' Hq H. destruct (view q k s) as [c|] eqn:E.
  - apply (view_iff q k c R Hq) in E as (p & Ec & K & P). apply (view_iff q k c R' Hq). exists p. split; [now apply H|auto].
  - destruct (view q k s') as [c|] eqn:E'; [|reflexivity]. apply (view_iff q k c R' Hq) in E' as (p & Ec & K & P).
    assert (X : view q k s = Some c) by (apply (view_iff q k c R Hq); exists p; split; [now apply H|auto]). congruence.
Qed.

Lemma conns_set q q' t (s : Sess) : q ∈ transports -> q' ∈ transports -> conns q' (set_conns q t s) = if decide (q' = q) then t else conns q' s.
Proof.
  unfold transports. rewrite !elem_of_cons. intros [->|[->|[->|H]]] [->|[->|[->|H']]]; try (now apply not_elem_of_nil in H); try (now apply not_elem_of_nil in H'); reflexivity.
Qed.

(** A connection that changes. *)
Lemma update_rep {s M F} p c a :
  sess_rep s M F -> objects s !! p = Some (OConn c) -> sess_rep (set_objects (<[p := OConn (set_analyzer a c)]> (objects s)) s) M F.
Proof.
  intros [Rc Rf Ri Rp Rg Rt Rn] E. split; try assumption; cbn [set_objects objects].
  - intros q k p' Hq. rewrite (Ri q k p' Hq). destruct (decide (p' = p)) as [->|N].
    + rewrite lookup_insert_eq. split; intros (c' & Ec & K & P).
      * rewrite E in Ec. injection Ec as <-. now exists (set_analyzer a c).
      * injection Ec as <-. now exists c.
    + now rewrite lookup_insert_ne by auto.
  - intros p' c' [[<- [= <-]]|[_ E']]%lookup_insert_Some; [exact (Rp p c E)|exact (Rp p' c' E')].
  - intros k p'. rewrite Rg. destruct (decide (p' = p)) as [->|N]; [|now rewrite lookup_insert_ne by auto].
    rewrite lookup_insert_eq, E. split; intros [f Ef]; discriminate.
  - intros p' k f [[_ [=]]|[_ E']]%lookup_insert_Some. now apply (Rt p' k f).
  - rewrite lookup_insert_ne; [exact Rn|]. intros ->. congruence.
Qed.

Lemma update_view {s M F} p c a q k :
  sess_rep s M F -> objects s !! p = Some (OConn c) -> q ∈ transports ->
  view q k (set_objects (<[p := OConn (set_analyzer a c)]> (objects s)) s) = if decide (q = c_proto c /\ k = c_key c) then Some (set_analyzer a c) else view q k s.
Proof.
  intros R E Hq. pose proof (update_rep p c a R E) as R'. destruct (decide _) as [[-> ->]|N].
  - apply (view_iff _ _ _ R' Hq). exists p. split; [apply lookup_insert_eq|now split].
  - apply (view_ext q k R R' Hq). intros p' c' K P. cbn [set_objects objects]. destruct (decide (p' = p)) as [->|Np]; [|now rewrite lookup_insert_ne by auto].
    rewrite lookup_insert_eq, E. split; intros [= <-]; exfalso; apply N; now split.
Qed.

(** A connection that is new. *)
Lemma add_rep {s M F} c p t :
  sess_rep s M F -> c_proto c ∈ transports -> objects s !! p = None -> p <> 0%nat -> M (c_proto c) !! c_key c = None ->
  tab_rep t (<[c_key c := p]> (M (c_proto c))) ->
  sess_rep (set_objects (<[p := OConn c]> (objects s)) (set_conns (c_proto c) t s)) (set_map (c_proto c) (<[c_key c := p]> (M (c_proto c))) M) F.
Proof.
  intros [Rc Rf Ri Rp Rg Rt Rn] Hc Np N0 Nk Ht. split; cbn [set_objects set_conns objects fragments]; try assumption.
  - intros q Hq. change (conns q (set_objects (<[p:=OConn c]> (objects s)) (set_conns (c_proto c) t s))) with (conns q (set_conns (c_proto c) t s)).
    rewrite conns_set by assumption. unfold set_map. destruct (decide _) as [->|N]; [exact Ht|now apply Rc].
  - intros q k p' Hq. destruct (decide (p' = p)) as [->|N].
    + rewrite lookup_insert_eq. unfold set_map. destruct (decide _) as [->|Nq].
      * rewrite lookup_insert_Some. split; [intros [[<- _]|[_ E]]; [now exists c|]|intros (c' & [= <-] & K & _); now left].
        apply (Ri _ _ _ Hc) in E as (c' & Ec & _). congruence.
      * split; [intros E; apply (Ri _ _ _ Hq) in E as (c' & Ec & _); congruence|]. intros (c' & [= <-] & _ & P). congruence.
    + rewrite lookup_insert_ne by auto. rewrite <- (Ri q k p' Hq). unfold set_map. destruct (decide _) as [->|Nq]; [|reflexivity].
      rewrite lookup_insert_Some. split; [intros [[_ ?]|[_ E]]; [congruence|exact E]|]. intros E. right. split; [|exact E]. intros <-. congruence.
  - intros p' c' [[<- [= <-]]|[_ E']]%lookup_insert_Some; [exact Hc|exact (Rp p' c' E')].
  - intros k p'. rewrite Rg. destruct (decide (p' = p)) as [->|N]; [|now rewrite lookup_insert_ne by auto].
    rewrite lookup_insert_eq, Np. split; intros [f Ef]; discriminate.
  - intros p' k f [[_ [=]]|[_ E']]%lookup_insert_Some. now apply (Rt p' k f).
  - rewrite lookup_insert_ne by auto. exact Rn.
Qed.

Lemma add_conn_ok {s M F} c :
  sess_rep s M F -> c_proto c ∈ transports -> M (c_proto c) !! c_key c = None -> Z.of_nat (size (M (c_proto c))) + 1 < 2 ^ 31 ->
  exists s' p os M', add_conn new_object (Some c) s = Some (s', Some p, os) /\ sess_rep s' M' F /\ objects s' = <[p := OConn c]> (objects s) /\
    objects s !! p = None /\ (forall q, size (M' q) <= S (size (M q)))%nat /\
    (forall q k, q ∈ transports -> view q k s' = if decide (q = c_proto c /\ k = c_key c) then Some c else view q k s).
Proof.
  intros R Hc Nk Sz. destruct (new_object_fresh (objects s)) as [N0 Np]. set (p := new_object (objects s)) in *.
  destruct (tab_insert_ok _ _ (c_key c) p (sr_conns _ _ _ R _ Hc) Nk N0 Sz) as (t & Et & Rt). unfold add_conn. fold p. rewrite Et. cbn [mbind option_bind].
  eexists _, _, _, _. split; [reflexivity|]. pose proof (add_rep c p t R Hc Np N0 Nk Rt) as R'. split; [exact R'|]. split; [reflexivity|]. split; [exact Np|]. split.
  - intros q. unfold set_map. destruct (decide _) as [->|]; [rewrite map_size_insert, Nk; lia|lia].
  - intros q k Hq. destruct (decide _) as [[-> ->]|N].
    + apply (view_iff _ _ _ R' Hq). exists p. split; [apply lookup_insert_eq|now split].
    + apply (view_ext q k R R' Hq). intros p' c' K P. cbn [set_objects objects]. destruct (decide (p' = p)) as [->|Npp]; [|now rewrite lookup_insert_ne by auto].
      rewrite lookup_insert_eq, Np. split; [intros [= <-]; exfalso; apply N; now split|discriminate].
Qed.

(** A connection that is removed. *)
Lemma conn_Remove_ok {s M F} p c :
  sess_rep s M F -> objects s !! p = Some (OConn c) ->
  exists s' os M', Remove p s = Some (s', os) /\ sess_rep s' M' F /\ objects s' = delete p (objects s) /\ M' (c_proto c) !! c_key c = None /\
    (forall q, size (M' q) <= size (M q))%nat /\
    (forall q k, q ∈ transports -> view q k s' = if decide (q = c_proto c /\ k = c_key c) then None else view q k s).
Proof.
  intros R E. pose proof R as [Rc Rf Ri Rp Rg Rt Rn]. pose proof (Rp p c E) as Hc.
  assert (Em : M (c_proto c) !! c_key c = Some p) by (apply (Ri _ _ _ Hc); eauto).
  destruct (tab_remove_ok _ _ (c_key c) (Rc _ Hc)) as (t & Et & Rt'). unfold Remove. rewrite E, Et, Em. cbn [mbind option_bind from_option Datatypes.id].
  rewrite decide_False by (exact (tab_nonnull _ _ _ _ (Rc _ Hc) Em)). eexists _, _, (set_map (c_proto c) (delete (c_key c) (M (c_proto c))) M).
  split; [reflexivity|]. match goal with |- sess_rep ?x _ _ /\ _ => set (s' := x) end.
  assert (R' : sess_rep s' (set_map (c_proto c) (delete (c_key c) (M (c_proto c))) M) F).
  { split; cbn [s' set_objects set_conns objects fragments]; try assumption.
    - intros q Hq. change (conns q s') with (conns q (set_conns (c_proto c) t s)). rewrite conns_set by assumption. unfold set_map.
      destruct (decide _) as [->|N]; [exact Rt'|now apply Rc].
    - intros q k p' Hq. destruct (decide (p' = p)) as [->|N].
      + rewrite lookup_delete_eq. split; [|intros (c' & ? & _); discriminate]. unfold set_map. intros Ek. exfalso. destruct (decide _) as [->|Nq].
        * apply lookup_delete_Some in Ek as [Nk Ek]. apply (Ri _ _ _ Hc) in Ek as (c' & Ec & K & _). congruence.
        * apply (Ri _ _ _ Hq) in Ek as (c' & Ec & _ & P). congruence.
      + rewrite lookup_delete_ne by auto. rewrite <- (Ri q k p' Hq). unfold set_map. destruct (decide _) as [->|Nq]; [|reflexivity].
        rewrite lookup_delete_Some. split; [now intros [_ Ek]|]. intros Ek. split; [|exact Ek]. intros <-. congruence.
    - intros p' c' [_ E']%lookup_delete_Some. exact (Rp p' c' E').
    - intros k p'. rewrite Rg. destruct (decide (p' = p)) as [->|N]; [|now rewrite lookup_delete_ne by auto].
      rewrite lookup_delete_eq, E. split; intros [f Ef]; discriminate.
    - intros p' k f [_ E']%lookup_delete_Some. now apply (Rt p' k f).
    - rewrite lookup_delete_ne; [exact Rn|]. intros ->. congruence. }
  split; [exact R'|]. split; [reflexivity|]. split; [|split].
  - unfold set_map. rewrite decide_True by reflexivity. apply lookup_delete_eq.
  - intros q. unfold set_map. destruct (decide _) as [->|]; [rewrite map_size_delete, Em; lia|lia].
  - intros q k Hq. destruct (decide _) as [[-> ->]|N].
    + destruct (view (c_proto c) (c_key c) s') as [c'|] eqn:V; [|reflexivity]. exfalso. apply (view_iff _ _ _ R' Hq) in V as (p' & Ec & K & P).
      cbn [s' set_objects objects] in Ec. apply lookup_delete_Some in Ec as [Np Ec].
      assert (X : M (c_proto c) !! c_key c = Some p') by (apply (Ri _ _ _ Hc); eauto). congruence.
    + apply (view_ext q k R R' Hq). intros p' c' K P. cbn [s' set_objects objects]. destruct (decide (p' = p)) as [->|Np]; [|now rewrite lookup_delete_ne by auto].
      rewrite lookup_delete_eq, E. split; [discriminate|]. intros [= <-]. exfalso. apply N. now split.
Qed.

Lemma NewConn_key k t id data proto c : NewConn opts k t id data proto = Some c -> c_key c = k /\ c_proto c = proto.
Proof. unfold NewConn. destruct (WantConnection _ _ _ _ _) as [[] flip]; [|discriminate]. now intros [= <-]. Qed.

(** What the lookup makes of a connection. *)
Definition conn_found (k : list Z) (t : Z) (id : ConnID) (data : list Z) (proto : Z) (c : option (@Connection C)) : option (@Connection C) :=
  match c with
  | None => NewConn opts k t id data proto
  | Some c => if snd (a_reuse t data (c_analyzer c)) : bool then NewConn opts k t id data proto else Some (set_analyzer (fst (a_reuse t data (c_analyzer c))) c)
  end.

(** Reassemblers that stay. *)
Definition keeps_frags (s s' : Sess) : Prop := forall p k f, objects s !! p = Some (OFrag k f) -> objects s' !! p = Some (OFrag k f).

(** The state where the connection of a protocol and key is [c] and every other is as before. *)
Definition only_changes (proto : Z) (k : list Z) (c : option (@Connection C)) (s s' : Sess) : Prop :=
  forall q k', q ∈ transports -> view q k' s' = if decide (q = proto /\ k' = k) then c else view q k' s.

Definition found_at (proto : Z) (k : list Z) (c : option (@Connection C)) (r : option nat) (s' : Sess) : Prop :=
  match c with
  | None => r = None
  | Some c => exists p, r = Some p /\ objects s' !! p = Some (OConn c) /\ c_key c = k /\ c_proto c = proto
  end.

Lemma add_found {s M F} k t id data proto :
  sess_rep s M F -> proto ∈ transports -> M proto !! k = None -> Z.of_nat (size (M proto)) + 1 < 2 ^ 31 ->
  exists s' r os M', add_conn new_object (NewConn opts k t id data proto) s = Some (s', r, os) /\ sess_rep s' M' F /\
    (forall q, size (M' q) <= S (size (M q)))%nat /\ found_at proto k (NewConn opts k t id data proto) r s' /\
    only_changes proto k (NewConn opts k t id data proto) s s' /\ keeps_frags s s'.
Proof.
  intros R Hq Nk Sz. destruct (NewConn opts k t id data proto) as [c|] eqn:E.
  - destruct (NewConn_key _ _ _ _ _ _ E) as [<- <-]. destruct (add_conn_ok c R Hq Nk Sz) as (s' & p & os & M' & Ea & R' & Eo & Np & Sm & V).
    exists s', (Some p), os, M'. split; [exact Ea|]. split; [exact R'|]. split; [exact Sm|]. split; [exists p; rewrite Eo, lookup_insert_eq; auto|].
    split; [exact V|]. intros p' k' f Ef. rewrite Eo, lookup_insert_ne; [exact Ef|congruence].
  - exists s, None, [], M. split; [reflexivity|]. split; [exact R|]. split; [lia|]. split; [reflexivity|]. split; [|now intros p' k' f].
    intros q k' Hq'. destruct (decide _) as [[-> ->]|]; [|reflexivity]. rewrite (view_lookup proto k R Hq), Nk. reflexivity.
Qed.

Lemma find_conn_ok {s M F} k t id data proto :
  sess_rep s M F -> proto ∈ transports -> Z.of_nat (size (M proto)) + 1 < 2 ^ 31 ->
  exists s' r os M', find_conn opts new_object k t id data proto s = Some (s', r, os) /\ sess_rep s' M' F /\
    (forall q, size (M' q) <= S (size (M q)))%nat /\ found_at proto k (conn_found k t id data proto (view proto k s)) r s' /\
    only_changes proto k (conn_found k t id data proto (view proto k s)) s s' /\ keeps_frags s s'.
Proof.
  intros R Hq Sz. unfold find_conn. rewrite (tab_lookup_ok _ _ k (sr_conns _ _ _ R proto Hq)), (view_lookup proto k R Hq). cbn [mbind option_bind].
  destruct (M proto !! k) as [p|] eqn:Em; cbn [from_option Datatypes.id].
  2:{ rewrite decide_True by reflexivity. cbn [conn_found]. now apply add_found. }
  rewrite decide_False by (exact (tab_nonnull _ _ _ _ (sr_conns _ _ _ R _ Hq) Em)).
  apply (sr_conn_in _ _ _ R proto k p Hq) in Em as (c & Ec & K & P). rewrite Ec. cbn [conn_found].
  destruct (a_reuse t data (c_analyzer c)) as [a reuse] eqn:Er. cbn [fst snd].
  set (s1 := set_objects (<[p := OConn (set_analyzer a c)]> (objects s)) s).
  pose proof (update_rep p c a R Ec) as R1. fold s1 in R1. assert (V1 : forall q k', q ∈ transports -> view q k' s1 = _) by (intros q k' Hq'; apply (update_view p c a q k' R Ec Hq')).
  assert (K1 : keeps_frags s s1) by (intros p' k' f Ef; cbn [s1 set_objects objects]; rewrite lookup_insert_ne; [exact Ef|congruence]).
  destruct reuse.
  - destruct (conn_Remove_ok p (set_analyzer a c) R1 (lookup_insert_eq _ _ _)) as (s2 & os2 & M2 & -> & R2 & Eo2 & Nk2 & Sm2 & V2). cbn [mbind option_bind].
    cbn [set_analyzer c_proto c_key] in Nk2, V2. rewrite P, K in *.
    destruct (add_found k t id data proto R2 Hq Nk2) as (s3 & r & os3 & M3 & -> & R3 & Sm3 & F3 & V3 & K3); [specialize (Sm2 proto); lia|]. cbn [mbind option_bind].
    exists s3, r. eexists. exists M3. split; [reflexivity|]. split; [exact R3|]. split; [intros q; specialize (Sm2 q); specialize (Sm3 q); lia|]. split; [exact F3|]. split.
    + intros q k' Hq'. rewrite (V3 q k' Hq'). destruct (decide _) as [|N]; [reflexivity|]. rewrite (V2 q k' Hq'), decide_False by exact N.
      rewrite (V1 q k' Hq'). now rewrite decide_False.
    + intros p' k' f Ef. apply K3. rewrite Eo2, lookup_delete_ne; [now apply K1|]. intros <-. congruence.
  - exists s1, (Some p), [], M. split; [reflexivity|]. split; [exact R1|]. split; [lia|]. split; [|split; [|exact K1]].
    + exists p. split; [reflexivity|]. split; [apply lookup_insert_eq|]. now split.
    + intros q k' Hq'. rewrite (V1 q k' Hq'). now rewrite P, K.
Qed.

(** A reassembler that is dropped leaves the connections alone. *)
Lemma drop_frag_ok {s M F} timer f :
  sess_rep s M F -> (forall p, f = Some p -> exists k fr, objects s !! p = Some (OFrag k fr)) ->
  exists s' os F', drop_frag timer f s = Some (s', os) /\ sess_rep s' M F' /\ (size F' <= size F)%nat /\ (forall q k, q ∈ transports -> view q k s' = view q k s).
Proof.
  intros R H. destruct f as [p|]; [|exists s, [], F; split; [reflexivity|]; split; [exact R|]; split; [lia|reflexivity]].
  destruct (H p eq_refl) as (k & fr & E). pose proof R as [Rc Rf Ri Rp Rg Rt Rn]. unfold drop_frag. rewrite E.
  assert (D : exists fr' os, (if timer then DeleteTimer fr else Some (fr, [])) = Some (fr', os)).
  { destruct timer; [|eauto]. unfold DeleteTimer. pose proof (Rt p k fr E). destruct (expire_timer fr); [contradiction|eauto|eauto]. }
  destruct D as (fr' & os & ->). cbn [mbind option_bind]. unfold Remove_frag. cbn [set_objects objects fragments]. rewrite lookup_insert_eq.
  destruct (tab_remove_ok _ _ k Rf) as (t & -> & Rt'). cbn [mbind option_bind]. assert (Ef : F !! k = Some p) by (apply Rg; eauto). rewrite Ef. cbn [from_option Datatypes.id].
  rewrite decide_False by (exact (tab_nonnull _ _ _ _ Rf Ef)). cbn [mbind option_bind].
  eexists _, _, (delete k F). split; [reflexivity|]. match goal with |- sess_rep ?x _ _ /\ _ => set (s' := x) end.
  assert (Eo : objects s' = delete p (objects s)) by (cbn [s' set_objects set_fragments objects]; apply delete_insert_eq).
  assert (R' : sess_rep s' M (delete k F)).
  { split; rewrite ?Eo; try assumption.
    - intros q k' p' Hq. rewrite (Ri q k' p' Hq). destruct (decide (p' = p)) as [->|N]; [|now rewrite lookup_delete_ne by auto].
      rewrite lookup_delete_eq, E. split; intros (c & ? & _); discriminate.
    - intros p' c [_ E']%lookup_delete_Some. exact (Rp p' c E').
    - intros k' p'. rewrite lookup_delete_Some, Rg. destruct (decide (p' = p)) as [->|N].
      + rewrite lookup_delete_eq, E. split; [intros [N [f [= -> _]]]; contradiction|intros [f ?]; discriminate].
      + rewrite lookup_delete_ne by auto. split; [now intros [_ H']|]. intros [f Ef']. split; [|eauto]. intros <-.
        assert (X : F !! k = Some p') by (apply Rg; eauto). congruence.
    - intros p' k' f [_ E']%lookup_delete_Some. now apply (Rt p' k' f).
    - rewrite lookup_delete_ne; [exact Rn|]. intros ->. congruence. }
  split; [exact R'|]. split; [rewrite map_size_delete, Ef; lia|].
  intros q k' Hq. apply (view_ext q k' R R' Hq). intros p' c K P. rewrite Eo. destruct (decide (p' = p)) as [->|N]; [|now rewrite lookup_delete_ne by auto].
  rewrite lookup_delete_eq, E. split; discriminate.
Qed.

(** ** A datagram *)

Definition dg_id (dg : Datagram) : ConnID := conn_id_of (dg_proto dg) (dg_ip dg) (Payload (dg_ip dg)).
Definition dg_key (dg : Datagram) : list Z := BuildConnKey (dg_id dg).

(** Its header is there. *)
Definition dg_whole_header (dg : Datagram) : bool :=
  (min_hdr_len (dg_proto dg) <=? wrap 32 (dg_len dg - HdrLen (dg_ip dg))) && (min_hdr_len (dg_proto dg) <=? wrap 32 (dg_caplen dg - HdrLen (dg_ip dg))).

(** What it does to the connection with its protocol and key. *)
Definition conn_takes (t : Z) (dg : Datagram) (c : option (@Connection C)) : option (option (@Connection C)) :=
  if dg_whole_header dg then
    match conn_found (dg_key dg) t (dg_id dg) (Payload (dg_ip dg)) (dg_proto dg) c with
    | None => Some None
    | Some c =>
        let is_orig := bool_decide (src_addr (dg_id dg) = orig_addr c) && (src_port (dg_id dg) =? orig_port c) in
        a ← a_packet t is_orig (dg_ip dg) (swrap 32 (wrap 32 (dg_len dg - HdrLen (dg_ip dg)))) (swrap 32 (wrap 32 (dg_caplen dg - HdrLen (dg_ip dg))))
                     (Payload (dg_ip dg)) (c_analyzer c);
        Some (Some (set_analyzer a c))
    end
  else Some c.

Definition frag_there (f : option nat) (s : Sess) : Prop := forall p, f = Some p -> exists k fr, objects s !! p = Some (OFrag k fr).

Lemma deliver_ok {s M F} t dg :
  sess_rep s M F -> dg_proto dg ∈ transports -> frag_there (dg_frag dg) s -> Z.of_nat (size (M (dg_proto dg))) + 1 < 2 ^ 31 ->
  match conn_takes t dg (view (dg_proto dg) (dg_key dg) s) with
  | Some c => exists s' os M' F', deliver opts new_object t dg s = Some (s', os) /\ sess_rep s' M' F' /\ (forall q, size (M' q) <= S (size (M q)))%nat /\
                (size F' <= size F)%nat /\ only_changes (dg_proto dg) (dg_key dg) c s s'
  | None => deliver opts new_object t dg s = None
  end.
Proof.
  intros R Hq Hf Sz. unfold conn_takes, deliver, dg_whole_header. fold (dg_id dg). fold (dg_key dg).
  assert (Bad : forall name, exists s' os M' F', ('(s, os) ← drop_frag false (dg_frag dg) s; Some (s, SessWeird name :: os)) = Some (s', os) /\ sess_rep s' M' F' /\
            (forall q, size (M' q) <= S (size (M q)))%nat /\ (size F' <= size F)%nat /\ only_changes (dg_proto dg) (dg_key dg) (view (dg_proto dg) (dg_key dg) s) s s').
  { intros name. destruct (drop_frag_ok false (dg_frag dg) R Hf) as (s' & os & F' & -> & R' & SF & V). cbn [mbind option_bind].
    exists s'. eexists. exists M, F'. split; [reflexivity|]. split; [exact R'|]. split; [lia|]. split; [exact SF|].
    intros q k Hq'. rewrite (V q k Hq'). now destruct (decide _) as [[-> ->]|]. }
  set (len := wrap 32 (dg_len dg - HdrLen (dg_ip dg))). set (caplen := wrap 32 (dg_caplen dg - HdrLen (dg_ip dg))).
  destruct (Z.ltb_spec len (min_hdr_len (dg_proto dg))) as [L1|L1]; [rewrite (proj2 (Z.leb_gt _ _) L1); apply Bad|]. rewrite (proj2 (Z.leb_le _ _) L1). cbn [andb].
  destruct (Z.ltb_spec caplen (min_hdr_len (dg_proto dg))) as [L2|L2]; [rewrite (proj2 (Z.leb_gt _ _) L2); apply Bad|]. rewrite (proj2 (Z.leb_le _ _) L2).
  destruct (find_conn_ok (dg_key dg) t (dg_id dg) (Payload (dg_ip dg)) (dg_proto dg) R Hq Sz) as (s1 & r & os1 & M1 & -> & R1 & Sm1 & F1 & V1 & K1). cbn [mbind option_bind].
  destruct (conn_found _ _ _ _ _ _) as [c|]; [|rewrite F1; exists s1; eexists; exists M1, F; split; [reflexivity|]; split; [exact R1|]; split; [exact Sm1|]; split; [lia|exact V1]].
  destruct F1 as (p & -> & Eo & Kc & Pc). rewrite Eo.
  destruct (a_packet _ _ _ _ _ _ (c_analyzer c)) as [a|]; cbn [mbind option_bind]; [|reflexivity].
  pose proof (update_rep p c a R1 Eo) as R2. set (s2 := set_objects (<[p := OConn (set_analyzer a c)]> (objects s1)) s1) in *.
  destruct (drop_frag_ok true (dg_frag dg) R2) as (s3 & os3 & F3 & -> & R3 & SF & V3).
  { intros p' Ep. destruct (Hf p' Ep) as (k & fr & Ef). exists k, fr. cbn [s2 set_objects objects]. rewrite lookup_insert_ne; [now apply K1|].
    intros <-. apply K1 in Ef. congruence. }
  cbn [mbind option_bind]. exists s3. eexists. exists M1, F3. split; [reflexivity|]. split; [exact R3|]. split; [exact Sm1|]. split; [exact SF|].
  intros q k Hq'. rewrite (V3 q k Hq'). unfold s2. rewrite (update_view p c a q k R1 Eo Hq'), Kc, Pc. destruct (decide _) as [|N]; [reflexivity|].
  rewrite (V1 q k Hq'). now rewrite decide_False.
Qed.

(** The fragment of a datagram, and its reassembler. *)
Lemma frag_insert_rep {s M F} k f p t :
  sess_rep s M F -> objects s !! p = None -> p <> 0%nat -> F !! k = None -> expire_timer f <> Uninit -> tab_rep t (<[k := p]> F) ->
  sess_rep (set_objects (<[p := OFrag k f]> (objects s)) (set_fragments t s)) M (<[k := p]> F).
Proof.
  intros [Rc Rf Ri Rp Rg Rt Rn] Np N0 Nk Tf Rt'. split; cbn [set_objects set_fragments objects fragments]; try assumption.
  - intros q k' p' Hq. rewrite (Ri q k' p' Hq). destruct (decide (p' = p)) as [->|N]; [|now rewrite lookup_insert_ne by auto].
    rewrite lookup_insert_eq, Np. split; intros (c & ? & _); discriminate.
  - intros p' c [[_ [=]]|[_ E']]%lookup_insert_Some. exact (Rp p' c E').
  - intros k' p'. destruct (decide (p' = p)) as [->|N].
    + rewrite lookup_insert_eq, lookup_insert_Some. split; [intros [[<- _]|[_ E]]; [now exists f|]|intros [f' [= <- _]]; now left].
      apply Rg in E as [f' Ef]. congruence.
    + rewrite (lookup_insert_ne (objects s)) by auto. rewrite <- Rg, lookup_insert_Some. split; [intros [[_ ?]|[_ E]]; [congruence|exact E]|]. intros E. right. split; [|exact E]. intros <-. congruence.
  - intros p' k' f' [[_ [= _ <-]]|[_ E']]%lookup_insert_Some; [exact Tf|now apply (Rt p' k' f')].
  - rewrite lookup_insert_ne by auto. exact Rn.
Qed.

Lemma frag_update_rep {s M F} k f f' p :
  sess_rep s M F -> objects s !! p = Some (OFrag k f) -> expire_timer f' <> Uninit -> sess_rep (set_objects (<[p := OFrag k f']> (objects s)) s) M F.
Proof.
  intros [Rc Rf Ri Rp Rg Rt Rn] E Tf. split; cbn [set_objects objects]; try assumption.
  - intros q k' p' Hq. rewrite (Ri q k' p' Hq). destruct (decide (p' = p)) as [->|N]; [|now rewrite lookup_insert_ne by auto].
    rewrite lookup_insert_eq, E. split; intros (c & ? & _); discriminate.
  - intros p' c [[_ [=]]|[_ E']]%lookup_insert_Some. exact (Rp p' c E').
  - intros k' p'. rewrite Rg. destruct (decide (p' = p)) as [->|N]; [|now rewrite lookup_insert_ne by auto].
    rewrite lookup_insert_eq, E. split; intros [x [= <- _]]; eauto.
  - intros p' k' x [[_ [= _ <-]]|[_ E']]%lookup_insert_Some; [exact Tf|now apply (Rt p' k' x)].
  - rewrite lookup_insert_ne; [exact Rn|]. intros ->. congruence.
Qed.

Lemma reassemble_timer f f' os : reassemble uninit f = Some (f', os) -> expire_timer f <> Uninit -> expire_timer f' <> Uninit.
Proof.
  unfold reassemble. cbv zeta. destruct (store 0 _ _) as [p1|]; [|discriminate]. destruct (set_ip_len _ p1) as [p2|]; [|discriminate].
  destruct (copy_blocks _ _ _ _ p2) as [p3|]; [|discriminate]. unfold DeleteTimer. cbn [set_reassembled expire_timer].
  destruct (expire_timer f) eqn:E; [discriminate| |]; intros [= <- _] _; cbn; rewrite ?E; discriminate.
Qed.

Lemma AddFragment_timer ip field f f' os : AddFragment uninit ip field f = Some (f', os) -> expire_timer f <> Uninit -> expire_timer f' <> Uninit.
Proof.
  unfold AddFragment. destruct (size_after _ _ _ _) as [size os2]. destruct (Frag.NewBlock _ _ _ _ _) as [[f1 os3]|] eqn:E; [|discriminate].
  intros [= <- _] Tm. unfold Frag.NewBlock in E. destruct (_ =? 0); [now injection E as <- _|]. destruct (seq_delta _ _ <=? 0); [now injection E as <- _|].
  destruct (_ <? 0); [discriminate|]. destruct (insert_block _ _ _ _ _) as [a|]; [|discriminate].
  destruct (Frag.BlockInserted _ _) as [[f2 os4]|] eqn:Eb; [|discriminate]. injection E as -> _. unfold Frag.BlockInserted in Eb.
  cbn [set_frag_blocks set_frag_size fr_blocks frag_size] in Eb. destruct (ad_blocks a) as [|b0 rest] eqn:Ea; [discriminate|].
  destruct (_ || _); [now injection Eb as <- _|]. destruct (contiguous b0 rest) as [e hole].
  assert (R : forall g o, reassemble uninit g = Some (f1, o) -> expire_timer g = expire_timer f -> expire_timer f1 <> Uninit)
    by (intros g o Hr Hg; apply (reassemble_timer g f1 o Hr); now rewrite Hg).
  destruct hole; [destruct (_ <=? _); [|now injection Eb as <- _]|destruct (_ <? _); [|destruct (_ <? _); [now injection Eb as <- _|now apply (R _ _ Eb)]]];
    (destruct (reassemble uninit _) as [[g o]|] eqn:Hr; [|discriminate]; injection Eb as -> _; now apply (R _ _ Hr)).
Qed.

Lemma NextFragment_ok {s M F} t ip s' p f os :
  sess_rep s M F -> Z.of_nat (size F) + 1 < 2 ^ 31 -> NextFragment opts new_object uninit t ip s = Some (s', p, f, os) ->
  exists F' k, sess_rep s' M F' /\ (size F' <= S (size F))%nat /\ objects s' !! p = Some (OFrag k f) /\ (forall q k', q ∈ transports -> view q k' s' = view q k' s).
Proof.
  intros R Sz E. pose proof R as [Rc Rf Ri Rp Rg Rt Rn]. unfold NextFragment in E. set (k := SrcAddr ip ++ DstAddr ip ++ le_bytes 2 (IP_ID ip)) in *.
  rewrite (tab_lookup_ok _ _ k Rf) in E. cbn [mbind option_bind] in E. destruct (F !! k) as [p0|] eqn:Ek; cbn [from_option Datatypes.id] in E.
  - rewrite decide_False in E by (exact (tab_nonnull _ _ _ _ Rf Ek)). apply Rg in Ek as [f0 Ef]. rewrite Ef in E.
    destruct (AddFragment uninit ip (FragField ip) f0) as [[f1 os1]|] eqn:Ea; [|discriminate]. injection E as <- <- <- <-.
    assert (R' : sess_rep (set_objects (<[p0 := OFrag k f1]> (objects s)) s) M F)
      by (apply (frag_update_rep k f0 f1 p0 R Ef); apply (AddFragment_timer _ _ _ _ _ Ea); now apply (Rt p0 k f0)).
    exists F, k. split; [exact R'|]. split; [lia|]. split; [apply lookup_insert_eq|].
    intros q k' Hq. apply (view_ext q k' R R' Hq). intros p' c _ _. cbn [set_objects objects]. destruct (decide (p' = p0)) as [->|N]; [|now rewrite lookup_insert_ne by auto].
    rewrite lookup_insert_eq, Ef. split; discriminate.
  - rewrite decide_True in E by reflexivity. destruct (new_FragReassembler _ _ _ _ _) as [[f1 os1]|] eqn:En; [|discriminate]. cbn [mbind option_bind] in E.
    destruct (new_object_fresh (objects s)) as [N0 Np]. set (p1 := new_object (objects s)) in *.
    destruct (tab_insert_ok _ _ k p1 Rf Ek N0 Sz) as (tb & Et & Rt'). rewrite Et in E. cbn [mbind option_bind] in E. injection E as <- <- <- <-.
    assert (T1 : expire_timer f1 <> Uninit).
    { unfold new_FragReassembler in En. destruct (AddFragment _ _ _ _) as [[g o]|]; [|discriminate]. destruct (negb _); injection En as <- _; discriminate. }
    pose proof (frag_insert_rep k f1 p1 tb R Np N0 Ek T1 Rt') as R'. exists (<[k := p1]> F), k. split; [exact R'|]. split; [rewrite map_size_insert, Ek; lia|].
    split; [apply lookup_insert_eq|]. intros q k' Hq. apply (view_ext q k' R R' Hq). intros p' c _ _. cbn [set_objects objects].
    destruct (decide (p' = p1)) as [->|N]; [|now rewrite lookup_insert_ne by auto]. rewrite lookup_insert_eq, Np. split; discriminate.
Qed.

Lemma transport_proto proto : negb (proto =? IPPROTO_TCP) && negb (proto =? IPPROTO_UDP) && negb (proto =? IPPROTO_ICMP) = false -> proto ∈ transports.
Proof.
  intros H. apply andb_false_iff in H as [H|H]; [apply andb_false_iff in H as [H|H]|]; apply negb_false_iff, Z.eqb_eq in H as ->; unfold transports; rewrite !elem_of_cons; auto.
Qed.

(** What [accept] leaves: the connections as they are. *)
Lemma accept_ok {s M F} t wire ip s' dg os :
  sess_rep s M F -> Z.of_nat (size F) + 1 < 2 ^ 31 -> accept opts new_object uninit t wire ip s = Some (s', dg, os) ->
  exists F', sess_rep s' M F' /\ (size F' <= S (size F))%nat /\ (forall q k, q ∈ transports -> view q k s' = view q k s) /\
    forall d, dg = Some d -> dg_proto d ∈ transports /\ frag_there (dg_frag d) s'.
Proof.
  intros R Sz E. assert (Same : forall d, (forall x, d = Some x -> dg_proto x ∈ transports /\ dg_frag x = None) -> (s, d) = (s', dg) ->
    exists F', sess_rep s' M F' /\ (size F' <= S (size F))%nat /\ (forall q k, q ∈ transports -> view q k s' = view q k s) /\
    forall d, dg = Some d -> dg_proto d ∈ transports /\ frag_there (dg_frag d) s').
  { intros d Hd [= <- <-]. exists F. split; [exact R|]. split; [lia|]. split; [reflexivity|]. intros x Ex. destruct (Hd x Ex) as [H1 H2]. split; [exact H1|].
    intros p. rewrite H2. discriminate. }
  unfold accept in E. destruct (wire <? TotalLen ip); [injection E as <- <- _; now apply (Same None)|]. destruct (packet_filter opts ip); [injection E as <- <- _; now apply (Same None)|].
  destruct (if ignore_checksums opts then _ else _) as [sum|]; [|discriminate]. cbn [mbind option_bind] in E.
  destruct (negb (sum =? 0xffff)); [injection E as <- <- _; now apply (Same None)|]. destruct (discarder opts ip); [injection E as <- <- _; now apply (Same None)|].
  destruct (negb _ && negb _ && negb _) eqn:Pr; [injection E as <- <- _; now apply (Same None)|]. apply transport_proto in Pr.
  destruct (Z.land (FragField ip) 16383 =? 0); [injection E as <- <- _; eapply Same; [|reflexivity]; intros x [= <-]; now split|].
  destruct (_ <? TotalLen ip).
  { injection E as <- <- _. eapply Same; [|reflexivity]. intros x. destruct (_ =? 0); [intros [= <-]; now split|discriminate]. }
  destruct (NextFragment _ _ _ _ _ _) as [[[[s1 p] f] os1]|] eqn:En; [|discriminate]. cbn [mbind option_bind] in E.
  destruct (NextFragment_ok t ip s1 p f os1 R Sz En) as (F' & k & R' & SF & Eo & V). exists F'.
  destruct (reassembled_pkt f) as [ih|]; injection E as <- <- _; (split; [exact R'|]; split; [exact SF|]; split; [exact V|]).
  - intros d [= <-]. split; [exact Pr|]. intros p' [= <-]. eauto.
  - discriminate.
Qed.

(** ** Any traffic *)

(** Packets with their times and their lengths on the wire; the datagrams that come of them. *)
Fixpoint sess_run (pkts : list (Z * Z * list Z)) (s : Sess) : option (Sess * list (Z * Datagram)) :=
  match pkts with
  | [] => Some (s, [])
  | (t, wire, ip) :: pkts =>
      '(s, dg, _) ← DoNextPacket opts new_object uninit t wire ip s;
      '(s, tr) ← sess_run pkts s;
      Some (s, match dg with Some d => (t, d) :: tr | None => tr end)
  end.

(** A connection that takes its datagrams one after the other. *)
Fixpoint conn_run (tr : list (Z * Datagram)) (c : option (@Connection C)) : option (option (@Connection C)) :=
  match tr with
  | [] => Some c
  | (t, d) :: tr => c ← conn_takes t d c; conn_run tr c
  end.

Definition mine (q : Z) (k : list Z) (x : Z * Datagram) : Prop := dg_proto (snd x) = q /\ dg_key (snd x) = k.
#[global] Instance mine_dec q k x : Decision (mine q k x) := ltac:(unfold mine; apply _).

Lemma sum_shorts_range p n sum : 0 <= sum < 2 ^ 32 -> 0 <= sum_shorts p n sum < 2 ^ 32.
Proof. revert p sum. induction n as [|n IH]; intros p sum H; cbn [sum_shorts]; [exact H|]. apply IH. unfold wrap. apply Z.mod_pos_bound. lia. Qed.

Lemma ip_checksum_total ip n : is_Some (ones_complement_checksum ip n 0).
Proof.
  unfold ones_complement_checksum. destruct (fold_sum_spec (sum_shorts ip (Z.to_nat (n / 2)) 0)) as (r & k & -> & _); [apply sum_shorts_range; lia|eauto].
Qed.

(** A packet that is not a fragment is accepted or not, at once. *)
Lemma accept_total t wire ip s : Z.land (FragField ip) 0x3fff = 0 -> exists dg os, accept opts new_object uninit t wire ip s = Some (s, dg, os).
Proof.
  intros H. unfold accept. destruct (ip_checksum_total ip (HdrLen ip)) as [sum ->]. rewrite H, Z.eqb_refl. destruct (ignore_checksums opts); cbn [mbind option_bind];
  repeat (match goal with |- context [if ?b then _ else _] => destruct b end); eauto.
Qed.

Lemma DoNextPacket_ok {s M F} t wire ip s' dg os :
  sess_rep s M F -> (forall q, Z.of_nat (size (M q)) + 1 < 2 ^ 31) -> Z.of_nat (size F) + 1 < 2 ^ 31 -> DoNextPacket opts new_object uninit t wire ip s = Some (s', dg, os) ->
  exists M' F', sess_rep s' M' F' /\ (forall q, size (M' q) <= S (size (M q)))%nat /\ (size F' <= S (size F))%nat /\
    match dg with
    | None => forall q k, q ∈ transports -> view q k s' = view q k s
    | Some d => exists c, conn_takes t d (view (dg_proto d) (dg_key d) s) = Some c /\ only_changes (dg_proto d) (dg_key d) c s s'
    end.
Proof.
  intros R Sm Sf E. unfold DoNextPacket in E. destruct (accept _ _ _ _ _ _ _) as [[[s1 d1] os1]|] eqn:Ea; [|discriminate]. cbn [mbind option_bind] in E.
  destruct (accept_ok t wire ip s1 d1 os1 R Sf Ea) as (F1 & R1 & SF1 & V1 & Hd). destruct d1 as [d|].
  - destruct (Hd d eq_refl) as [Hp Hf]. pose proof (deliver_ok t d R1 Hp Hf (Sm _)) as D. destruct (deliver _ _ _ _ _) as [[s2 os2]|] eqn:Ed; [|discriminate].
    injection E as <- <- _. rewrite (V1 _ (dg_key d) Hp) in D. destruct (conn_takes t d _) as [c|] eqn:Ec; [|discriminate].
    destruct D as (s3 & os3 & M' & F' & [= <- <-] & R' & Sm' & SF' & V'). exists M', F'. split; [exact R'|]. split; [exact Sm'|]. split; [lia|].
    exists c. split; [reflexivity|]. intros q k Hq. rewrite (V' q k Hq). destruct (decide _); [reflexivity|now apply V1].
  - injection E as <- <- _. exists M, F1. split; [exact R1|]. split; [lia|]. split; [exact SF1|exact V1].
Qed.

Lemma sess_run_ok pkts : forall s M F s' tr q k,
  sess_rep s M F -> (forall q, Z.of_nat (size (M q)) + Z.of_nat (length pkts) < 2 ^ 31) -> Z.of_nat (size F) + Z.of_nat (length pkts) < 2 ^ 31 ->
  sess_run pkts s = Some (s', tr) -> q ∈ transports -> conn_run (filter (mine q k) tr) (view q k s) = Some (view q k s').
Proof.
  induction pkts as [|[[t wire] ip] pkts IH]; intros s M F s' tr q k R Sm Sf E Hq; cbn [sess_run length] in *; [now injection E as <- <-|].
  destruct (DoNextPacket _ _ _ _ _ _ _) as [[[s1 dg] os]|] eqn:Ed; [|discriminate]. cbn [mbind option_bind] in E.
  destruct (sess_run pkts s1) as [[s2 tr2]|] eqn:Er; [|discriminate]. injection E as <- <-.
  destruct (DoNextPacket_ok t wire ip s1 dg os R) as (M1 & F1 & R1 & Sm1 & SF1 & H); [intros x; specialize (Sm x); lia|lia|exact Ed|].
  pose proof (IH s1 M1 F1 s2 tr2 q k R1 ltac:(intros x; specialize (Sm x); specialize (Sm1 x); lia) ltac:(lia) Er Hq) as I.
  destruct dg as [d|]; [|now rewrite <- (H q k Hq)]. destruct H as (c & Ec & V). rewrite (V q k Hq) in I. destruct (decide (q = dg_proto d /\ k = dg_key d)) as [[-> ->]|N].
  - rewrite filter_cons_True by (now split). cbn [conn_run]. rewrite Ec. exact I.
  - rewrite filter_cons_False by (intros [H1 H2]; apply N; now split). exact I.
Qed.

Lemma sess_run_total pkts : forall s M F,
  (forall t o ip len caplen data a, is_Some (a_packet t o ip len caplen data a)) -> Forall (fun x => Z.land (FragField (snd x)) 0x3fff = 0) pkts ->
  sess_rep s M F -> (forall q, Z.of_nat (size (M q)) + Z.of_nat (length pkts) < 2 ^ 31) -> Z.of_nat (size F) + Z.of_nat (length pkts) < 2 ^ 31 ->
  is_Some (sess_run pkts s).
Proof.
  induction pkts as [|[[t wire] ip] pkts IH]; intros s M F A Fr R Sm Sf; [cbn; eauto|]. apply Forall_cons in Fr as [Hip Fr]. cbn [snd length sess_run] in *.
  assert (D : is_Some (DoNextPacket opts new_object uninit t wire ip s)).
  { unfold DoNextPacket. destruct (accept_total t wire ip s Hip) as (dg & os & Ea). rewrite Ea. cbn [mbind option_bind]. destruct dg as [d|]; [|eauto].
    destruct (accept_ok t wire ip s (Some d) os R ltac:(lia) Ea) as (F1 & R1 & _ & _ & Hd). destruct (Hd d eq_refl) as [Hp Hf].
    pose proof (deliver_ok t d R1 Hp Hf ltac:(specialize (Sm (dg_proto d)); lia)) as D. unfold conn_takes in D.
    assert (X : is_Some (deliver opts new_object t d s)); [|destruct X as [[s2 os2] ->]; cbn; eauto].
    destruct (dg_whole_header d); [|destruct D as (s' & os' & M' & F' & -> & _); eauto].
    destruct (conn_found _ _ _ _ _ _) as [c|]; [|destruct D as (s' & os' & M' & F' & -> & _); eauto].
    match type of D with context [a_packet ?a ?b ?c1 ?d1 ?e ?f ?g] => destruct (A a b c1 d1 e f g) as [x Ex]; rewrite Ex in D end.
    cbn [mbind option_bind] in D. destruct D as (s' & os' & M' & F' & -> & _). eauto. }
  destruct D as [[[s1 dg] os] Ed]. rewrite Ed. cbn [mbind option_bind].
  destruct (DoNextPacket_ok t wire ip s1 dg os R) as (M1 & F1 & R1 & Sm1 & SF1 & _); [intros x; specialize (Sm x); lia|lia|exact Ed|].
  destruct (IH s1 M1 F1 A Fr R1) as [[s2 tr] ->]; [intros x; specialize (Sm x); specialize (Sm1 x); lia|lia|]. cbn. eauto.
Qed.

(** No connection, no fragment. *)
Definition no_sessions (t : T) : Sess := {| tcp_conns := t; udp_conns := t; icmp_conns := t; fragments := t; objects := ∅ |}.

Lemma no_sessions_rep t : tab_rep t ∅ -> sess_rep (no_sessions t) (fun _ => ∅) ∅.
Proof.
  intros H. split; cbn [no_sessions objects fragments]; try assumption.
  - intros q _. unfold conns, no_sessions. cbn. repeat (destruct (_ =? _)); exact H.
  - intros q k p _. rewrite lookup_empty. split; [discriminate|]. intros (c & Ec & _). rewrite lookup_empty in Ec. discriminate.
  - intros p c. now rewrite lookup_empty.
  - intros k p. rewrite lookup_empty. split; [discriminate|]. intros [f Ef]. rewrite lookup_empty in Ef. discriminate.
  - intros p k f. now rewrite lookup_empty.
  - apply lookup_empty.
Qed.

(** C10: whatever the traffic, the state of each connection is what its own datagrams, in their order, make of it:
    packets of other connections, of either protocol, their creation, reuse and removal, and the fragments that
    are waiting do not touch it; and when the analyzers return and no packet is a fragment, every packet is processed. *)
Theorem connections_isolated t0 pkts :
  tab_rep t0 ∅ -> Z.of_nat (length pkts) < 2 ^ 31 ->
  ((forall t o ip len caplen data a, is_Some (a_packet t o ip len caplen data a)) -> Forall (fun x => Z.land (FragField (snd x)) 0x3fff = 0) pkts ->
   is_Some (sess_run pkts (no_sessions t0))) /\
  (forall s tr q k, sess_run pkts (no_sessions t0) = Some (s, tr) -> q ∈ transports -> conn_run (filter (mine q k) tr) None = Some (view q k s)).
Proof.
  intros H0 L. pose proof (no_sessions_rep t0 H0) as R. split.
  - intros A F. apply (sess_run_total pkts _ _ _ A F R); [intros x; cbv beta|]; rewrite map_size_empty; lia.
  - intros s tr q k E Hq. rewrite <- (sess_run_ok pkts _ _ _ s tr q k R ltac:(intros x; cbv beta; rewrite map_size_empty; lia) ltac:(rewrite map_size_empty; lia) E Hq).
    f_equal. rewrite (view_lookup q k R Hq). now rewrite lookup_empty.
Qed.

End Isolation.

(** ** Examples *)

(** An analyzer that keeps the packets it is given. *)
Definition PacketLog : Type := list (bool * list Z).
#[local] Instance log_analyzer : Analyzer PacketLog := {|
  a_new _ _ _ _ := [];
  a_packet _ o _ _ _ data log := Some (log ++ [(o, data)]);
  a_reuse _ _ log := (log, false);
  a_done log := log |}.

Definition demo_opts (partial : bool) : SessOptions :=
  {| ignore_checksums := true; partial_connection_ok := partial; tcp_SYN_ack_ok := true; likely_server_ports := [65536 + 443];
     packet_filter := fun _ => false; discarder := fun _ => false; frag_timeout := 300 |}.

(** A packet without options from one port of a host to another. *)
Definition make_packet (hl proto field src dst sport dport flags : Z) (len : Z) (more : list Z) : list Z :=
  [64 + hl; 0] ++ be2 len ++ [0; 7] ++ be2 field ++ [64; proto; 0; 0; 10; 0; 0; src; 10; 0; 0; dst] ++ repeat 1 (Z.to_nat (hl * 4 - 20)) ++
  be2 sport ++ be2 dport ++ [0; 0; 0; 1; 0; 0; 0; 0; 80; flags; 0; 0; 0; 0; 0; 0] ++ more.

(** Two connections of a client to a server, interleaved; the second packet of the first comes back. *)
Definition demo_traffic : list (Z * Z * list Z) :=
  map (fun p => (0, Z.of_nat (length p), p))
    [make_packet 5 6 0 1 2 4000 443 2 40 []; make_packet 5 6 0 1 2 4001 443 2 40 []; make_packet 5 6 0 2 1 443 4000 18 40 []; make_packet 5 6 0 1 2 4001 443 16 41 [9]].

Definition demo_new_object {C} (m : gmap nat (@Object C)) : nat := fresh (0%nat :: elements (dom m)).

Lemma demo_new_object_fresh {C} (m : gmap nat (@Object C)) : demo_new_object m <> 0%nat /\ m !! demo_new_object m = None.
Proof.
  pose proof (infinite_is_fresh (0%nat :: elements (dom m))) as H. fold (demo_new_object m) in H. rewrite elem_of_cons, elem_of_elements in H. split.
  - intros E. apply H. now left.
  - apply not_elem_of_dom. intros E. apply H. now right.
Qed.

#[local] Instance demo_table : ConnTable Dict.Dictionary := dict_table first_free first_free_fresh (fun k => le_value k mod 1009).

Definition demo_key : list Z := key_bytes [10; 0; 0; 1] [10; 0; 0; 2] (ntohs 4000) (ntohs 443).

Lemma connections_isolated_witness :
  exists t0 s tr, Dict.new_Dictionary false 5 = Some t0 /\
    sess_run (demo_opts true) demo_new_object (fun n => repeat 0 (Z.to_nat n)) demo_traffic (no_sessions (C := PacketLog) t0) = Some (s, tr) /\
    (map fst ∘ c_analyzer) <$> view IPPROTO_TCP demo_key s = Some [true; false].
Proof.
  destruct (new_dict_rep (fun k => le_value k mod 1009) 5 ltac:(lia)) as (t0 & E0 & R0'). exists t0. assert (R0 : tab_rep t0 ∅) by exact R0'.
  destruct (connections_isolated (C := PacketLog) (demo_opts true) demo_new_object (fun n => repeat 0 (Z.to_nat n)) demo_new_object_fresh t0 demo_traffic R0 ltac:(vm_compute; reflexivity))
    as [Tot Iso].
  destruct Tot as [[s tr] E]; [intros; eexists; reflexivity|repeat constructor|]. exists s, tr. split; [exact E0|]. split; [exact E|].
  specialize (Iso s tr IPPROTO_TCP demo_key E ltac:(left)).
  assert (Etr : (t0 ← Dict.new_Dictionary false 5; snd <$> sess_run (demo_opts true) demo_new_object (fun n => repeat 0 (Z.to_nat n)) demo_traffic (no_sessions (C := PacketLog) t0)) = Some tr)
    by (rewrite E0; cbn [mbind option_bind]; rewrite E; reflexivity).
  assert (G : fmap (M := option) (fmap (M := option) (map fst ∘ c_analyzer)) (conn_run (C := PacketLog) (demo_opts true) (filter (mine IPPROTO_TCP demo_key) tr) None) = Some (Some [true; false]))
    by (vm_compute in Etr; injection Etr as <-; vm_compute; reflexivity).
  rewrite Iso in G. now injection G.
Defined.


(** ** Unexpected behaviour *)

(** An advertisement does not belong to the solicitation that it answers, as the other answers do to their requests. *)
Lemma router_advert_unmatched :
  (forall t code, t ∈ [0; 8; 13; 14; 15; 16; 17; 18] -> exists u, ICMP_counterpart t code = (u, false) /\ forall code', ICMP_counterpart u code' = (t, false)) /\
  ICMP_counterpart 10 0 = (9, false) /\ forall code, ICMP_counterpart 9 code = (code, true).
Proof.
  split; [|split; [reflexivity|intros code; reflexivity]]. intros t code H. rewrite !elem_of_cons in H.
  repeat (destruct H as [->|H]; [eexists; split; reflexivity|]). now apply not_elem_of_nil in H.
Qed.

(** A packet whose total length is less than its header's passes the test of the length: the difference is unsigned;
    the analyzers are given the negative length. *)
Lemma short_length_passes (dg : Datagram) :
  0 <= HdrLen (dg_ip dg) <= 60 -> 0 <= dg_len dg < HdrLen (dg_ip dg) ->
  min_hdr_len (dg_proto dg) <= wrap 32 (dg_len dg - HdrLen (dg_ip dg)) /\
  swrap 32 (wrap 32 (dg_len dg - HdrLen (dg_ip dg))) = dg_len dg - HdrLen (dg_ip dg).
Proof.
  intros H L. set (x := dg_len dg - HdrLen (dg_ip dg)). assert (Hx : -60 <= x < 0) by (unfold x; lia). clearbody x.
  assert (E : wrap 32 x = x + 2 ^ 32) by (unfold wrap; rewrite <- (Z_mod_plus_full x 1 (2 ^ 32)), Z.mul_1_l; apply Z.mod_small; lia). rewrite E. split.
  - unfold min_hdr_len, sizeof_tcphdr, ICMP_MINLEN. repeat (destruct (_ =? _)); lia.
  - unfold swrap. replace (x + 2 ^ 32 + 2 ^ (32 - 1)) with (x + 2 ^ (32 - 1) + 1 * 2 ^ 32) by lia. rewrite Z_mod_plus_full, Z.mod_small; lia.
Qed.

(** The two fragments of a segment of a connection that is not wanted. *)
Definition unwanted_fragments : list (Z * Z * list Z) :=
  let p := make_packet 5 6 0 1 2 4000 443 16 48 [1; 2; 3; 4; 5; 6; 7; 8] in
  let frag field d := firstn 2 p ++ be2 (20 + Z.of_nat (length d)) ++ [0; 7] ++ be2 field ++ firstn 12 (skipn 8 p) ++ d in
  map (fun p => (0, Z.of_nat (length p), p)) [frag 8192 (firstn 16 (skipn 20 p)); frag 2 (skipn 36 p)].

(** Their reassembler stays in the table after the datagram was complete, without a timer. *)
Lemma unwanted_fragments_stay :
  exists t0 s tr p k f, Dict.new_Dictionary false 5 = Some t0 /\
    sess_run (demo_opts false) demo_new_object (fun n => repeat 0 (Z.to_nat n)) unwanted_fragments (no_sessions (C := PacketLog) t0) = Some (s, tr) /\
    length tr = 1%nat /\ objects s !! p = Some (OFrag k f) /\ is_Some (reassembled_pkt f) /\ expire_timer f = Null /\ tab_lookup k (fragments s) = Some p.
Proof.
  assert (X : exists t0, Dict.new_Dictionary false 5 = Some t0) by (eexists; vm_compute; reflexivity). destruct X as [t0 E0]. exists t0.
  assert (Y : (t0 ← Dict.new_Dictionary false 5; '(s, tr) ← sess_run (demo_opts false) demo_new_object (fun n => repeat 0 (Z.to_nat n)) unwanted_fragments (no_sessions (C := PacketLog) t0);
               p ← tab_lookup ([10; 0; 0; 1; 10; 0; 0; 2] ++ le_bytes 2 7) (fragments s);
               match objects s !! p with
               | Some (OFrag k f) => Some (bool_decide (length tr = 1%nat /\ k = [10; 0; 0; 1; 10; 0; 0; 2] ++ le_bytes 2 7 /\ is_Some (reassembled_pkt f)),
                                           match expire_timer f with Null => true | _ => false end)
               | _ => None
               end) = Some (true, true)) by (vm_compute; reflexivity).
  rewrite E0 in Y |- *. cbn [mbind option_bind] in Y. destruct (sess_run _ _ _ _ _) as [[s tr]|]; [|discriminate]. cbn [mbind option_bind] in Y.
  destruct (tab_lookup _ (fragments s)) as [p|] eqn:Ep; [|discriminate]. cbn [mbind option_bind] in Y.
  destruct (objects s !! p) as [[c|k f]|] eqn:Eo; try discriminate. injection Y as Y1 Y2. apply bool_decide_eq_true in Y1 as (L & -> & Rp).
  exists s, tr, p. eexists _, f. split; [reflexivity|]. split; [reflexivity|]. split; [exact L|]. split; [exact Eo|]. split; [exact Rp|]. split; [|exact Ep].
  now destruct (expire_timer f).
Qed.
