(* ===== verification/Traffic.v ===== *)
(** * The detector in the middle of other traffic

    Bro watches many connections at once, and not all that the detector keeps belongs to one
    of them: [telex_table] of [telex-ssl.bro] has the entries of all connections,
    [telex_tag_key] of [bro.bif] is one buffer that every test of a hello writes, and the
    counters of acknowledgements and gaps of [Stats.cc] are global.  Here they are shared:
    the inputs of any connections come in any order, each handled as in [Observe] on the
    connection's own analyzers and on the shared state that the inputs before it have left.
    What becomes of a connection is then still what its own inputs make of it. *)
From S2P Require Import Prelude Bytes CLib TelexUtil TelexTcp FlowBuffer FlowThms.
From S2P Require Import Reassem ReassemThms SslRecords SslThms BroTcp TcpGaps TcpThms TcpData.
From S2P Require Import Felem PtPoint Tag FlowBlock Detect Observe Wiretap LiveSsl Covert WireSession.
From Stdlib Require Import String ZArith Lia List Bool.
From stdpp Require Import countable gmap.

Open Scope Z_scope.

(** Connections are told apart by their [conn_id]. *)
#[global] Instance conn_id_eq_dec : EqDecision conn_id.
Proof. solve_decision. Defined.

#[global] Instance conn_id_countable : Countable conn_id.
Proof.
  refine (inj_countable' (fun i => (id_orig_h i, id_orig_p i, id_resp_h i, id_resp_p i)) (fun '(a, b, c, d) => ConnId a b c d) _).
  now intros [].
Defined.

(** ** The tag buffer *)

Definition retag (tk : list Z) (d : det) : det := Det (entry d) tk (acts d).

(** The same but for the buffer. *)
Definition same_but_tag (x y : outcome det) : Prop := exists tk, x = obind y (fun d => Ret (retag tk d)).

Lemma same_tag tk d : same_but_tag (Ret (retag tk d)) (Ret d).
Proof. now exists tk. Qed.

Lemma do_expire_tag tries te tk d : same_but_tag (do_expire tries te (retag tk d)) (do_expire tries te d).
Proof. exists tk. unfold do_expire. now destruct (telex_mod_block tries). Qed.

Section Isolated.

Context (pm : env -> list Z -> list Z -> list Z) (SHA256 : list Z -> list Z) (keys : list telex_priv_key).

(** The key that is found was written by the test that found it. *)
Lemma try_keys_tag jk hello context ks : forall tk tk',
  fst (try_keys pm SHA256 jk tk ks hello context) = fst (try_keys pm SHA256 jk tk' ks hello context).
Proof.
  induction ks as [|k ks IH]; intros tk tk'; [reflexivity|]. cbn [try_keys]. unfold check_tag. cbv zeta.
  destruct (c_bool _ =? 0); [reflexivity|apply IH].
Qed.

Lemma telex_tag_get_key_tag jk tk tk' hello context :
  fst (telex_tag_get_key pm SHA256 jk tk keys hello context) = fst (telex_tag_get_key pm SHA256 jk tk' keys hello context).
Proof. unfold telex_tag_get_key. destruct (negb _); [reflexivity|apply try_keys_tag]. Qed.

Lemma ssl_conn_attempt_tag cid rand cr jk now tries pl ns cn tk d :
  same_but_tag (ssl_conn_attempt pm SHA256 keys cid rand cr jk now tries pl ns cn (retag tk d))
               (ssl_conn_attempt pm SHA256 keys cid rand cr jk now tries pl ns cn d).
Proof.
  unfold ssl_conn_attempt. cbn [tag_key entry acts retag].
  pose proof (telex_tag_get_key_tag jk tk (tag_key d) rand (telex_get_context (id_resp_h cid) (firstn 4 cr) [0])) as E.
  destruct (telex_tag_get_key _ _ jk tk _ _ _) as [f1 k1], (telex_tag_get_key _ _ jk (tag_key d) _ _ _) as [f2 k2]. cbn [fst] in E. subst f2.
  exists k1. destruct f1 as [key|]; [|reflexivity]. destruct (_ || _); [reflexivity|]. destruct (telex_mod_block tries); try reflexivity.
  cbn [obind]. now destruct (telex_init_bronnect _ _ _ _) as [[sock r]| |].
Qed.

Lemma ssl_handshake_tag cid o data eo er mem sent tries te tk d :
  same_but_tag (ssl_handshake cid o data eo er mem sent tries te (retag tk d)) (ssl_handshake cid o data eo er mem sent tries te d).
Proof.
  unfold ssl_handshake. cbv zeta. destruct (_ =? 4); [|now exists tk]. destruct (telex_send_init_data _ _ _ _) as [[m r]| |]; cbn [obind]; [|now exists tk..].
  destruct (negb _); [|now exists tk]. apply (do_expire_tag tries _ tk (act _ d)).
Qed.

Lemma new_packet_final_tag cid raw t sent stack tries te tk d :
  same_but_tag (new_packet_final cid raw t sent stack tries te (retag tk d)) (new_packet_final cid raw t sent stack tries te d).
Proof.
  unfold new_packet_final. destruct (negb _); [now exists tk|]. destruct (_ <? _); [destruct (_ =? 5); now exists tk|].
  destruct (_ =? 5); [apply do_expire_tag|now exists tk].
Qed.

(** What a handler does does not depend on the buffer's contents. *)
Lemma on_event_tag cid e tk d : same_but_tag (on_event pm SHA256 keys cid e (retag tk d)) (on_event pm SHA256 keys cid e d).
Proof.
  unfold on_event. cbn [entry retag]. destruct e, (entry d) as [te|]; try (now exists tk); auto using ssl_conn_attempt_tag, do_expire_tag, new_packet_final_tag.
  - exists tk. now destruct is_orig.
  - destruct (typ =? 23); [destruct (_ =? -1); [now exists tk|apply do_expire_tag]|]. destruct (typ =? 20).
    + unfold ssl_change_cipher. destruct (_ =? 1); [destruct is_orig; [now exists tk|apply do_expire_tag]|].
      destruct (_ && _); [now exists tk|apply do_expire_tag].
    + destruct (typ =? 22); [apply ssl_handshake_tag|now exists tk].
Qed.

Lemma on_events_tag cid es : forall tk d, same_but_tag (on_events pm SHA256 keys cid es (retag tk d)) (on_events pm SHA256 keys cid es d).
Proof.
  induction es as [|e es IH]; intros tk d; [now exists tk|]. cbn [on_events]. destruct (on_event_tag cid e tk d) as (tk' & ->).
  destruct (on_event pm SHA256 keys cid e d) as [d1| |]; cbn [obind]; [apply IH|now exists tk'..].
Qed.

(** ** A connection and its globals *)

Context (cmp ana : bool) (beyond : list Z) (topts : TcpOptions) (base : conn_id -> bool -> Z).

(** What happens to a connection: a packet, or an event without one ([connection_state_remove], an entry that expires). *)
Inductive Input := InPacket (k : Packet) (m : Meets) | InEvent (e : Detect.event).

Definition handle (id : conn_id) (i : Input) (w : Watch) : outcome Watch :=
  match i with
  | InPacket k m => next_packet cmp ana beyond topts (base id) pm SHA256 keys id k m w
  | InEvent e => obind (on_event pm SHA256 keys id e (w_policy w)) (fun d => Ret {| w_tcp := w_tcp w; w_tls := w_tls w; w_policy := d |})
  end.

(** One connection alone. *)
Fixpoint handle_all (id : conn_id) (ins : list Input) (w : Watch) : outcome Watch :=
  match ins with [] => Ret w | i :: ins => obind (handle id i w) (handle_all id ins) end.

(** All but the globals. *)
Definition own_part (w : Watch) : Watch :=
  {| w_tcp := set_gaps no_gaps (w_tcp w); w_tls := w_tls w; w_policy := retag [] (w_policy w) |}.

Lemma own_part_eq w w' : own_part w = own_part w' ->
  w' = {| w_tcp := set_gaps (gaps (w_tcp w')) (w_tcp w); w_tls := w_tls w; w_policy := retag (tag_key (w_policy w')) (w_policy w) |}.
Proof.
  destruct w as [a c d], w' as [a' c' d']. intros E. pose proof (f_equal w_tcp E) as Ea. pose proof (f_equal w_tls E) as Ec.
  pose proof (f_equal (fun w => entry (w_policy w)) E) as Ee. pose proof (f_equal (fun w => acts (w_policy w)) E) as Ed.
  unfold own_part in *. cbn [w_tcp w_tls w_policy retag entry acts] in *.
  assert (A : a' = set_gaps (gaps a') a).
  { transitivity (set_gaps (gaps a') a'); [now destruct a'|]. change (set_gaps (gaps a') (set_gaps no_gaps a') = set_gaps (gaps a') (set_gaps no_gaps a)).
    now rewrite Ea. }
  rewrite <- A. subst c'. destruct d, d'. cbn in *. now subst.
Qed.

Lemma queue_gaps m t g a os : forall c, queue cmp ana beyond m t (set_gaps g a) os c = queue cmp ana beyond m t a os c.
Proof.
  induction os as [|o os IH]; intros c; [reflexivity|]. cbn [queue]. change (is_partial (set_gaps g a)) with (is_partial a).
  match goal with |- match ?x with Some _ => _ | None => _ end = _ => destruct x as [c'|]; [|reflexivity] end.
  rewrite IH. replace (policy_event m (set_gaps g a)) with (policy_event m a); [reflexivity|].
  unfold policy_event, endpoint_val, UpdateEndpointVal. cbv zeta. now rewrite !ep_gaps.
Qed.

Definition no_report (i : Input) : Prop := match i with InPacket k _ => pk_report_due k = false | InEvent _ => True end.

(** The effect on the connection's own part does not depend on the globals. *)
Lemma handle_own id i w w' w1 : no_report i -> own_part w = own_part w' -> handle id i w' = Ret w1 ->
  exists w2, handle id i w = Ret w2 /\ own_part w2 = own_part w1.
Proof.
  intros Hr E. rewrite (own_part_eq w w' E). generalize (gaps (w_tcp w')), (tag_key (w_policy w')). clear E w'. intros g tk.
  destruct w as [a c d]. destruct i as [k m|e]; cbn [handle w_tcp w_tls w_policy].
  - unfold next_packet. cbn [w_tcp w_tls w_policy]. change (forget_outs (set_gaps g a)) with (set_gaps g (forget_outs a)). cbn [acts retag].
    assert (D : same_but_gaps (if existsb (fun x => match x with SkipConnection => true | _ => false end) (acts d) then Some (set_gaps g (forget_outs a))
                               else DeliverPacket topts (base id) k (set_gaps g (forget_outs a)))
                              (if existsb (fun x => match x with SkipConnection => true | _ => false end) (acts d) then Some (forget_outs a)
                               else DeliverPacket topts (base id) k (forget_outs a)))
      by (destruct (existsb _ _); [apply same_gaps|now apply DeliverPacket_gaps]).
    destruct D as (g' & ->). destruct (if existsb _ _ then _ else _) as [a1|]; [|discriminate]. cbn [option_map].
    rewrite queue_gaps. change (outs (set_gaps g' a1)) with (outs a1). destruct (queue _ _ _ _ _ _ _ _) as [[es c1]|]; [|discriminate].
    match goal with |- obind (on_events _ _ _ _ ?l _) _ = _ -> _ => destruct (on_events_tag id l tk d) as (tk' & ->); destruct (on_events _ _ _ _ l d) as [d1| |] end;
      cbn [obind]; try discriminate. intros E. injection E as <-. eexists. split; reflexivity.
  - destruct (on_event_tag id e tk d) as (tk' & ->). destruct (on_event _ _ _ _ e d) as [d1| |]; cbn [obind]; try discriminate.
    intros E. injection E as <-. eexists. split; reflexivity.
Qed.

(** ** All connections *)

Record Conn := { cn_tcp : TCP_Analyzer; cn_tls : SslConn; cn_acts : list action }.

Record Station := {
  telex_tag_key : list Z; telex_table : gmap conn_id telex_info; gap_counters : GapStats; connections : gmap conn_id Conn }.

(** Bro's start, with what the buffer and [is_partial] happen to hold. *)
Context (junk : Z) (partial : bool).

Definition new_Conn : Conn := {| cn_tcp := EnableReassembly (new_TCP_Analyzer junk partial no_gaps); cn_tls := new_SslConn; cn_acts := [] |}.

(** What the handlers of an input of this connection work on. *)
Definition load (id : conn_id) (s : Station) : Watch :=
  let c := default new_Conn (connections s !! id) in
  {| w_tcp := set_gaps (gap_counters s) (cn_tcp c); w_tls := cn_tls c; w_policy := Det (telex_table s !! id) (telex_tag_key s) (cn_acts c) |}.

(** What they leave. *)
Definition store (id : conn_id) (w : Watch) (s : Station) : Station :=
  {| telex_tag_key := tag_key (w_policy w); telex_table := partial_alter (fun _ => entry (w_policy w)) id (telex_table s);
     gap_counters := gaps (w_tcp w);
     connections := <[id := {| cn_tcp := w_tcp w; cn_tls := w_tls w; cn_acts := acts (w_policy w) |}]> (connections s) |}.

Definition station_input (x : conn_id * Input) (s : Station) : outcome Station :=
  obind (handle (fst x) (snd x) (load (fst x) s)) (fun w => Ret (store (fst x) w s)).

Fixpoint station_run (ins : list (conn_id * Input)) (s : Station) : outcome Station :=
  match ins with [] => Ret s | x :: ins => obind (station_input x s) (station_run ins) end.

Definition started (tk : list Z) (g : GapStats) : Station :=
  {| telex_tag_key := tk; telex_table := ∅; gap_counters := g; connections := ∅ |}.

(** The inputs of one connection. *)
Definition inputs_of (id : conn_id) (ins : list (conn_id * Input)) : list Input :=
  map snd (filter (fun x => fst x = id) ins).

Lemma load_store_same id w s : own_part (load id (store id w s)) = own_part w.
Proof.
  unfold load, store. cbn [connections telex_table telex_tag_key gap_counters]. rewrite lookup_insert_eq, lookup_partial_alter_eq. reflexivity.
Qed.

Lemma load_store_other id id' w s : id' <> id -> own_part (load id (store id' w s)) = own_part (load id s).
Proof.
  intros N. unfold load, store. cbn [connections telex_table telex_tag_key gap_counters]. rewrite lookup_insert_ne, lookup_partial_alter_ne by assumption. reflexivity.
Qed.

Lemma station_run_own id ins : forall s s' w, Forall (fun x => no_report (snd x)) ins -> own_part w = own_part (load id s) ->
  station_run ins s = Ret s' -> exists w', handle_all id (inputs_of id ins) w = Ret w' /\ own_part w' = own_part (load id s').
Proof.
  induction ins as [|[id' i] ins IH]; intros s s' w F Ew E; [injection E as <-; cbn; eauto|].
  apply Forall_cons in F as [Hi F]. cbn [station_run] in E. unfold station_input in E. cbn [fst snd] in *.
  destruct (handle id' i (load id' s)) as [w1| |] eqn:E1; [|discriminate..]. cbn [obind] in E.
  unfold inputs_of. rewrite filter_cons. cbn [fst]. destruct (decide (id' = id)) as [->|N].
  - destruct (handle_own id i w (load id s) w1 Hi Ew E1) as (w2 & E2 & Eo). cbn [map snd handle_all]. rewrite E2. cbn [obind].
    apply (IH (store id w1 s)); auto. now rewrite load_store_same.
  - apply (IH (store id' w1 s)); auto. now rewrite load_store_other.
Qed.

(** C4: what the detector makes of a connection is what it makes of that connection alone.  The
    inputs of any number of connections, packets, removals and expirations, are handled in
    any order on one table [telex_table], one buffer [telex_tag_key] and one set of gap
    counters, which every input finds as the inputs before it have left them.  For each
    connection, the TCP and TLS analyzers, the entry of the table and the calls made for it
    (flows blocked and unblocked, messages to the relay, packets forwarded, resets) are then
    those of its own inputs on a detector that sees nothing else and whose buffer and
    counters start with anything; so no key left in the buffer by another client's hello is
    ever taken for this one's.  The event [gap_report], which no script of the station
    handles, is not due. *)
Theorem detector_isolated id ins tk g tk1 g1 s :
  Forall (fun x => no_report (snd x)) ins -> station_run ins (started tk g) = Ret s ->
  exists w, handle_all id (inputs_of id ins) (load id (started tk1 g1)) = Ret w /\ own_part (load id s) = own_part w.
Proof.
  intros F E. destruct (station_run_own id ins (started tk g) s (load id (started tk1 g1)) F eq_refl E) as (w & Ew & Eo). eauto.
Qed.

End Isolated.

(** ** An example *)

(** Two clients say hello at once, and only the first has a tag in it. *)
Definition demo_meets_now : Meets :=
  {| m_raw := [22; 3; 1]; m_junk := coord0; m_now := 1300000010000000; m_tries := [true]; m_path_len := 20; m_new_sock := 9; m_connect := 0;
     m_mem := demo_mem; m_sent := 591; m_stack := flow_zero |}.
Definition demo_other : conn_id := ConnId 0x0200000a 49717 0x05030201 443.
Definition demo_turn (crandom : list Z) (i : nat) : Input := InPacket (turn_packet (demo_session crandom) (demo_groups crandom) i) demo_meets_now.
Definition demo_open (crandom : list Z) : list Input :=
  [InPacket (mk_packet true 0 0 TH_SYN []) demo_meets_now; InPacket (mk_packet false 0 1 (TH_SYN + TH_ACK) []) demo_meets_now;
   demo_turn crandom 0; demo_turn crandom 1].
Definition demo_first : list Input := demo_open (demo_time ++ demo_tag).
Definition demo_second : list Input := demo_open (demo_time ++ repeat 6 28).
Definition demo_mix : list (conn_id * Input) :=
  concat (zip_with (fun i j => [(demo_cid, i); (demo_other, j)]) demo_first demo_second).

Definition demo_station : outcome Station :=
  station_run demo_pm toy_hash demo_keys false true [] usual_options (fun _ _ => 0) 0 false demo_mix (started [] no_gaps).

Definition tagged (w : Watch) : bool := match entry (w_policy w) with Some te => te_state te =? 1 | None => false end.

Lemma detector_isolated_witness :
  exists s w1 w2, demo_station = Ret s /\
    handle_all demo_pm toy_hash demo_keys false true [] usual_options (fun _ _ => 0) demo_cid demo_first (load 0 false demo_cid (started [1] no_gaps)) = Ret w1 /\
    handle_all demo_pm toy_hash demo_keys false true [] usual_options (fun _ _ => 0) demo_other demo_second (load 0 false demo_other (started [1] no_gaps)) = Ret w2 /\
    own_part (load 0 false demo_cid s) = own_part w1 /\ own_part (load 0 false demo_other s) = own_part w2 /\
    tagged w1 = true /\ acts (w_policy w2) = [SkipConnection].
Proof.
  assert (R : match demo_station with Ret _ => true | _ => false end = true) by (vm_compute; reflexivity).
  destruct demo_station as [s| |] eqn:E; [|discriminate..].
  assert (F : Forall (fun x => no_report (snd x)) demo_mix) by (repeat constructor).
  destruct (detector_isolated demo_pm toy_hash demo_keys false true [] usual_options (fun _ _ => 0) 0 false demo_cid demo_mix [] no_gaps [1] no_gaps s F E) as (w1 & E1 & O1).
  destruct (detector_isolated demo_pm toy_hash demo_keys false true [] usual_options (fun _ _ => 0) 0 false demo_other demo_mix [] no_gaps [1] no_gaps s F E) as (w2 & E2 & O2).
  assert (I1 : inputs_of demo_cid demo_mix = demo_first) by (vm_compute; reflexivity).
  assert (I2 : inputs_of demo_other demo_mix = demo_second) by (vm_compute; reflexivity). rewrite I1 in E1. rewrite I2 in E2.
  exists s, w1, w2. repeat (split; [assumption || reflexivity|]).
  assert (T1 : match handle_all demo_pm toy_hash demo_keys false true [] usual_options (fun _ _ => 0) demo_cid demo_first (load 0 false demo_cid (started [1] no_gaps)) with
               | Ret w => tagged w | _ => false end = true) by (vm_compute; reflexivity).
  assert (T2 : match handle_all demo_pm toy_hash demo_keys false true [] usual_options (fun _ _ => 0) demo_other demo_second (load 0 false demo_other (started [1] no_gaps)) with
               | Ret w => acts (w_policy w) | _ => [] end = [SkipConnection]) by (vm_compute; reflexivity).
  rewrite E1 in T1. rewrite E2 in T2. split; assumption.
Defined.
